(* ===== verification/_CoqProject ===== *)
-Q . S2P
Prelude.v
HalfBits.v
Manchester.v
ManchesterIdeal.v
PhyFsm.v
RxDecode.v
Loopback.v
Receiver.v
Reception.v
Ring.v
Mailbox.v
AnswerTable.v
IsrCore.v
Isr.v
IsrLink.v
IsrSession.v
CalmTick.v
WireAnswer.v
Gear.v
GearCommand.v
GearState.v
Dev103.v
BusUnit.v
Events.v
Arbitration.v
RulesBase.v
RulesModel.v
RulesLimits.v
RulesState.v
RulesEval.v
RulesExec.v
RulesFlat.v
RulesRun.v
RulesStructured.v
RulesEngine.v
RulesReach.v
RulesSchedule.v
RulesGuard.v
Effects.v
Banks.v
Transport.v
GearModel.v
Fleet.v
FleetLaws.v
Overlap.v
Controller.v
Majority.v
Executor.v
MemoryBank.v
MemoryRead.v
Discovery.v
Commissioning.v
CalmBus.v
MemoryLaws.v
MemoryCalm.v
CommissionRun.v
CalmController.v
Sim.v
Commissioned.v
MemoryReturned.v
