(* ===== verification/Prelude.v ===== *)
(** * Oxidali (dali2rust): a verification development

    Oxidali is a DALI-2 lighting controller written in Rust (src/crates).  Its
    core is a bit-banged bus interface that a timer interrupt runs every 104 us,
    the frames and commands of IEC 62386-102 and -103 on top of it, a control
    device ([Device103Unit]) that the other units of the bus see, a redundancy
    protocol by which two controllers share one line, a rule engine that turns
    events of the bus, the clock and the broker into light, and a runtime that
    commissions the gear of a bus and reads its memory.  For its host build it
    carries a model of a bus full of control gear, with which that runtime is
    tested.  The development models these parts as executable functions and
    proves what makes them correct, each alone and composed.

    ** How the parts interact

    [[
      tasks --command cell, tx ring--> interrupt core --half bits--> line
        ^                               |  (PHY, decoder, answer table)  |
        +--session ring, capture ring---+ <------------- samples --------+
      unit model --answer table, staged answers--> interrupt core
      arbitration worker, supervisor --lease--> answer table
      rule document --validate--> engine --expand, run--> effects
        events, ticks --match, activate--^   |--continuations, timers--> wheel
      commissioning, discovery, memory reads --queries, brackets--> controller
        controller --retries, settling, pairs--> transport --frames--> gear fleet
    ]]

    The programs of the last two lines are written against the interface
    [DaliApplicationController] and proved against its laws: [CalmBus] (nobody
    else on the wire) or [Brackets] (nothing but that a bracket runs its
    closure).  [DaliController] over any [CalmTransport], and so over the
    simulated one, has them; so the theorems hold of the whole stack down to the
    gear model.

    ** The files, and what they model under src/crates

    - [Prelude]: machine integers ([wrap], [sat_add], ...), record update,
      tactics, shared lemmas.
    - The wire.  [HalfBits]: dali-phy/src/halfbits.rs, frame_length.rs,
      dali-codec/src/codec.rs.  [Manchester]: dali-phy/src/manchester.rs (the
      decoder and its phase search); [ManchesterIdeal]: on an undisturbed window
      it returns the bits that were sent.  [PhyFsm]: dali-phy/src/fsm.rs
      ([DaliBitbangPhy] and its [tick]).  [RxDecode]: dali-codec/src/rx_decode.rs.
      [Loopback], [Receiver], [Reception]: two PHYs on a wired-AND line; what one
      transmits, the other captures, and at which tick.
    - Between the tasks and the interrupt.  [Ring]: dali-phy/src/ring.rs;
      [Mailbox]: answer.rs and command.rs; [AnswerTable]: answer_table.rs,
      backward_window.rs and platform/src/answer_table.rs.  Each is given as
      sequential operations and as a step relation cut at its atomic accesses.
    - The interrupt core.  [IsrCore]: dali-phy/src/isr.rs, [PhyIsrCore] with its
      [tick] ([isr_tick]) and every call of the tasks.  [Isr]: its reachable
      states, their invariant, what a tick may start.  [IsrLink]: the abstract
      link a task sees, and the refinement of it.  [IsrSession]: what sessions
      may rely on over whole runs.  [CalmTick], [WireAnswer]: a query on the wire
      is answered on the wire.
    - Control gear.  [Gear]: domain/src/dali/devices, net, frame.rs;
      [GearCommand]: pres (commands, codec); [GearState]: status.rs,
      level_transition.rs, ses.
    - Control devices.  [Dev103]: domain/src/dali/dev103/{address,frame,command}.rs;
      [BusUnit]: bus_unit.rs, the controller as a device; [Events]: event.rs.
    - Redundancy.  [Arbitration]: redundancy-runtime arbitration.rs,
      arbitration_worker.rs, supervisor.rs; platform arbitration.rs, liveness.rs.
    - Rules, the document.  [RulesBase]: strings, results and
      platform/src/small_sort.rs; [RulesModel]: rules-model/src (references,
      values, triggers, conditions, actions, rules); [RulesLimits]:
      rules-model/src/limits.rs and error.rs, what the compiler accepts.
    - Rules, the engine (rules-runtime/src/runtime/engine).  [RulesState]:
      world.rs, input.rs, outcome.rs, counters.rs, state.rs; [RulesEval]: eval.rs;
      [RulesExec]: exec.rs; [RulesEngine]: matching.rs, activate.rs, wheel.rs,
      mod.rs.  [RulesFlat]: the expansion against the compiler's count;
      [RulesRun]: what a run keeps; [RulesStructured]: the flat interpreter
      against the nested actions; [RulesReach]: reachable engines;
      [RulesSchedule]: the timer wheel; [RulesGuard]: loops, dry runs, order.
    - The model of control gear (gear-model/src).  [Banks]: domain/src/dali/banks,
      luminaire.rs and metering.rs, the memory banks and how a read divides them;
      [GearModel]: gear.rs, switching.rs, rng.rs, one gear; [Fleet]: fleet.rs,
      the gear of a bus and one frame's effect on it ([exchange]); [FleetLaws]:
      what each kind of frame does to the part of a gear that addressing
      depends on.
    - The controller (dali-runtime/src/runtime).  [Effects]: state passing with
      results, and its triples; [Transport]: platform/src/dali.rs; [Controller]:
      domain/src/dali/controller.rs, controller.rs and controller/ (retries,
      transactions, units, leases, holds); [Overlap]: dali-codec overlap.rs;
      [Sim]: adapters dali/transport/sim.rs.  [CalmBus]: the laws of a calm bus;
      [CalmController]: the controller has them.
    - The executors (dali-runtime/src/runtime/executor).  [Majority]: majority.rs;
      [Executor]: helpers.rs and config.rs; [Discovery]: discovery.rs;
      [Commissioning]: commissioning.rs and dali_worker's loops;
      [MemoryBank]: memory_bank.rs.  [CommissionRun], [Commissioned]: what a
      commissioning pass does; [MemoryRead]: memory reads end; [MemoryLaws],
      [MemoryCalm], [MemoryReturned]: on a calm bus they return the memory.

    Definitions keep the source's names.  Where two sources use one name the
    definition carries a prefix ([isr_tick] is [PhyIsrCore::tick], [frame24_command]
    is [ForwardFrame24::command]).

    ** What the theorems show

    - Composition: [query_answered_on_wire] (query, capture, decode, table,
      staging, window, answer, capture, as one run of two units);
      [frame_transport] (any frame, transmitter to receiver);
      [interrupt_answers_for_unit] (the table answers as the unit would).
    - The core: an invariant of all reachable states ([isr_reachable_wf]), the
      refinement of the abstract link ([core_refines_link]), and on it
      [answers_follow_frames] and [cancelled_exchange_silent]; when a
      transmission may start ([forward_start_justified],
      [answer_start_justified]).
    - Lock-free parts: the ring is a bounded queue, also interleaved; no cell is
      read torn; the answer table gives settled snapshots.
    - The PHY and the decoder: invariant, bounded transmissions, the collision
      break, termination and optimality of the phase search, exact encoding.
    - Commands, addresses, frames, events: both round trips, exact decoding.
    - The unit: invariant, counted changes, no lost update, send-twice pairs,
      timers, search addressing.
    - Redundancy: take-over, justified role changes, lease and liveness.
    - Rule documents: the compiler accepts exactly the documents that keep every
      limit and its errors are true of the rest ([validate_exact]); its count is
      the engine's expansion ([accepted_rules_expand]), so the checks the engine
      repeats never fire.
    - Rule runs: the flat interpreter executes the nested actions
      ([flat_run_is_structured]); reachable engines keep their bounds
      ([engine_reachable_wf]) and cut a run only for a full continuation store
      ([budget_only_for_full_store]); feedback loops stop
      ([feedback_loops_stop]); a dry run changes nothing; rules run in name
      order.
    - The wheel: wall-clock schedules are a scan of the minutes
      ([wall_tick_scans]), due continuations run in order, nothing runs before
      the announced deadline.

    - The controller: a command reaches the gear as exactly its frames and is
      answered by what they answered ([controller_delivers]).
    - Commissioning, down to the gear: a pass gives every gear without a short
      address one of its own ([commissioning_assigns],
      [commissioned_addresses_distinct]); the search over 2^24 addresses finds
      the least ([search_finds_least]); a detected gear is described as it is
      ([detection_describes]); drawing a random address ends;
      the two majority votes agree ([tallies_agree]).
    - Memory, down to the gear: on a calm bus a read returns the memory of the
      gear, whole, up to the end of the bank ([memory_read_returns]); on any bus
      it ends, whatever the gear does ([memory_read_ends]); it never splits a
      latched value ([chunk_whole_fields]).

    ** Bounds and fuel

    [decode_loop] runs on [w_bits + 1] turns: every turn consumes at least one
    bit ([decoder_terminates]).  [run_loop] has 6 turns: one step per phase and
    one to finish.  [ring_drain] and [pop_session_loop] have one turn per slot.
    [TX_MAX_TICKS] = 310 ticks bounds any transmission with its break.  Leases
    are proved over one turn of the 32-bit tick counter.  [count_call],
    [flatten_call] and [exec_call] recurse on the call depth the code allows
    ([MAX_BLOCK_CALL_DEPTH] = 2), where the code refuses; the loop of a run
    recurses on its step budget, which the code counts down the same way.
    [search_turns] = 24 halves 2^24 candidates to one.  A commissioning pass runs
    on more turns than there are gear without an address, one turn each.
    [draw_fuel] exceeds the two words a draw takes at most.  Loops over attempts,
    samples and rearmings have as many turns as the code's counters allow.
    [read_turns] = 8 * length + 40 turns of a memory read are enough: each turn
    takes from [turns_left], which counts the locations to read, the retries of
    the current one and the rearmings.

    ** Assumptions of the model

    Atomic accesses are sequentially consistent, with one producer and one
    consumer per ring and cell (the code's ownership).  In [IsrCore] a tick and
    a task's call are whole steps.  The sampled line level, the clock, the words
    read by the tick probe, publication outcomes and settings are inputs.  A
    [while] over a ring is a loop with as many turns as the ring has slots.
    In the rule files a [String] is the list of its scalar values, [usize] has
    32 bits, a [BTreeMap] is a finite map, an unstable sort on distinct keys is
    any sort, and the world snapshot is an input of each step; documents reach
    the engine validated, as the compiler hands them over.
    The clock, the arrival tickets of a lease and the hold of the bus are the
    [World] of a controller; a clock that is assumed monotonic says so
    ([MonotonicClock]).  The demonstration input devices of the simulated
    transport are an argument ([InputFleet]).  A calm bus is one on which no other
    unit transmits and nothing holds the wire or yields it; gear may still answer
    over one another.

    ** Not modelled

    Hardware access (timer alarm, GPIO, CPU registers), thread creation, logging,
    serialisation and network adapters, persistence, the display and OTA: they
    are effects over services outside the code.  Left out for their size: the
    registry, the poller, operations, human-centric lighting, and of the DALI
    runtime the routing of commands, the reads and writes of attributes, scenes
    and groups, and the writes to memory banks.  Of the rules, the parser of the language, the executor
    of effects and the worker around the engine.  The human-readable names of
    pres/describe.rs and the texts of rule errors carry no behaviour. *)

From stdpp Require Export base numbers list option.
From Stdlib Require Export ZArith Lia ZifyBool ZifyNat.

#[global] Open Scope Z_scope.

(** ** Notations of the development *)

Declare Scope oxi_scope.
Delimit Scope oxi_scope with oxi.
#[global] Open Scope oxi_scope.

(** *** Record update

    [s <| f := v |>] is the record [s] with its field [f] set to [v].  A record
    type declares its eta expansion once ([Eta]); the setter of each
    projection is then computed from it by [field_setter]. *)

Class Eta (R : Type) := eta : R -> R.
Class Setter {R T : Type} (proj : R -> T) := set_field : (T -> T) -> R -> R.
Arguments set_field {R T} proj {Setter} _ _ /.

Ltac field_setter proj :=
  match type of proj with
  | ?R -> ?T =>
      let e := constr:(@eta R _) in
      let e := eval unfold eta in e in
      match e with
      | ?e' =>
          let e := eval red in e' in
          exact (fun (upd : T -> T) (r : R) =>
            ltac:(let body := eval cbv beta in (e r) in
                  match eval pattern (proj r) in body with
                  | ?F _ => let out := eval cbv beta in (F (upd (proj r))) in exact out
                  end))
      end
  end.

#[global] Hint Extern 1 (@Setter _ _ ?proj) => field_setter proj : typeclass_instances.

Notation "s <| f := v |>" := (set_field f (fun _ => v) s)
  (at level 12, f constr at next level, left associativity,
   format "s  <| f  :=  v |>") : oxi_scope.

(** ** Machine integers

    A [w]-bit unsigned integer is a [Z] in [0, 2^w); [as u8] and wrapping
    arithmetic are [wrap w]; [saturating_*] and [checked_sh*] are written out. *)

Definition umax (w : Z) : Z := 2 ^ w - 1.
Definition wrap (w z : Z) : Z := z mod 2 ^ w.
Definition in_u (w z : Z) : Prop := 0 <= z < 2 ^ w.
#[global] Instance in_u_dec w z : Decision (in_u w z).
Proof. unfold in_u. apply _. Defined.
Definition in_ub (w z : Z) : bool := (0 <=? z) && (z <? 2 ^ w).
Definition sat_add (w a b : Z) : Z := Z.min (umax w) (a + b).
Definition sat_sub (a b : Z) : Z := Z.max 0 (a - b).
Definition sat_mul (w a b : Z) : Z := Z.min (umax w) (a * b).
Definition wrapping_add (w a b : Z) : Z := wrap w (a + b).
Definition wrapping_sub (w a b : Z) : Z := wrap w (a - b).
Definition checked_sub (a b : Z) : option Z := if a <? b then None else Some (a - b).
Definition checked_shl (w a n : Z) : option Z :=
  if n <? w then Some (wrap w (Z.shiftl a n)) else None.
Definition checked_shr (w a n : Z) : option Z :=
  if n <? w then Some (Z.shiftr a n) else None.
Definition shl (w a n : Z) : Z := wrap w (Z.shiftl a n).
Definition div_ceil (a b : Z) : Z := (a + b - 1) / b.
(** Reinterpretation of a [w]-bit unsigned value as a signed one ([as i32]). *)
Definition as_signed (w z : Z) : Z := let u := wrap w z in if u <? 2 ^ (w - 1) then u else u - 2 ^ w.
Definition Z_of_bool (b : bool) : Z := if b then 1 else 0.

(** [Option::is_some], [Option::or] and [bool::then_some]. *)
Definition is_some {A} (o : option A) : bool := match o with Some _ => true | None => false end.
Definition or_else {A} (a b : option A) : option A := match a with Some x => Some x | None => b end.
Definition then_some {A} (b : bool) (x : A) : option A := if b then Some x else None.

(** [a[i]] on a fixed-size array, [slice.get(i)] and [slice.get_mut(i)] with an
    ignored out-of-range case: stdpp's list lookup and insert at [Z.to_nat i]. *)
Definition aget {A} (l : list A) (i : Z) : option A := l !! Z.to_nat i.
Definition aset {A} (l : list A) (i : Z) (x : A) : list A := <[Z.to_nat i := x]> l.

(** ** Tactics *)

(** Boolean comparisons to propositions, everywhere. *)
Ltac bprop :=
  repeat match goal with
  | H : andb _ _ = true |- _ => apply andb_true_iff in H; destruct H
  | H : andb _ _ = false |- _ => apply andb_false_iff in H
  | H : orb _ _ = false |- _ => apply orb_false_iff in H; destruct H
  | H : orb _ _ = true |- _ => apply orb_true_iff in H
  | H : negb _ = true |- _ => apply negb_true_iff in H
  | H : negb _ = false |- _ => apply negb_false_iff in H
  | H : (_ <? _) = true |- _ => apply Z.ltb_lt in H
  | H : (_ <? _) = false |- _ => apply Z.ltb_ge in H
  | H : (_ <=? _) = true |- _ => apply Z.leb_le in H
  | H : (_ <=? _) = false |- _ => apply Z.leb_gt in H
  | H : (_ =? _) = true |- _ => apply Z.eqb_eq in H
  | H : (_ =? _) = false |- _ => apply Z.eqb_neq in H
  end.

(** Case analysis on the first [if] or [match] scrutinee of the goal. *)
Ltac case_if :=
  match goal with
  | |- context [if ?b then _ else _] => destruct b eqn:?; bprop
  end.
Ltac case_if_in H :=
  match type of H with
  | context [if ?b then _ else _] => destruct b eqn:?; bprop
  end.
Ltac cases_if := repeat case_if.

(** Unfold the machine-integer operations and decide with [lia]. *)
Ltac munfold :=
  unfold sat_add, sat_sub, sat_mul, wrapping_add, wrapping_sub, shl, in_u, umax, wrap in *.
Ltac dlia := zify; Z.to_euclidean_division_equations; lia.
Ltac mlia := munfold; Z.to_euclidean_division_equations; lia.

(** ** Generic lemmas *)

Lemma wrap_range w z : 0 <= w -> in_u w (wrap w z).
Proof. intros Hw. unfold in_u, wrap. apply Z.mod_pos_bound. lia. Qed.

Lemma wrap_id w z : in_u w z -> wrap w z = z.
Proof. intros. unfold wrap, in_u in *. now apply Z.mod_small. Qed.

Lemma wrap_wrap w z : 0 <= w -> wrap w (wrap w z) = wrap w z.
Proof. intros. apply wrap_id, wrap_range; lia. Qed.

Lemma as_signed_small w z : 0 < w -> 0 <= z -> 2 * z < 2 ^ w -> as_signed w z = z.
Proof.
  intros Hw Hz Hz2. assert (2 ^ w = 2 * 2 ^ (w - 1)) as E by (rewrite <- Z.pow_succ_r by lia; f_equal; lia).
  unfold as_signed. rewrite wrap_id by (unfold in_u; lia). cbn zeta. case_if; lia.
Qed.

Lemma in_ub_spec w z : in_ub w z = true <-> in_u w z.
Proof. unfold in_ub, in_u. lia. Qed.

Lemma sat_add_range w a b : 0 <= w -> 0 <= a -> 0 <= b -> in_u w (sat_add w a b).
Proof. intros. unfold sat_add, umax, in_u. pose proof (Z.pow_pos_nonneg 2 w). lia. Qed.

Lemma sat_add_small w a b : a + b < 2 ^ w -> sat_add w a b = a + b.
Proof. intros. unfold sat_add, umax. lia. Qed.

Lemma sat_sub_range w a b : in_u w a -> 0 <= b -> in_u w (sat_sub a b).
Proof. unfold sat_sub, in_u. lia. Qed.

Lemma testbit_wrap w z i : 0 <= w -> 0 <= i -> Z.testbit (wrap w z) i = (i <? w) && Z.testbit z i.
Proof.
  intros Hw Hi. unfold wrap. destruct (Z.ltb_spec i w).
  - now rewrite Z.mod_pow2_bits_low by lia.
  - now rewrite Z.mod_pow2_bits_high by lia.
Qed.

Lemma in_u_land w a b : 0 <= w -> in_u w a -> 0 <= b -> in_u w (Z.land a b).
Proof.
  intros Hw [Ha1 Ha2] Hb. split; [apply Z.land_nonneg; lia|].
  destruct (Z.eq_dec (Z.land a b) 0) as [->|Hne]; [apply Z.pow_pos_nonneg; lia|].
  apply Z.log2_lt_pow2; [assert (0 <= Z.land a b) by (apply Z.land_nonneg; lia); lia|].
  eapply Z.le_lt_trans; [apply Z.log2_land; lia|].
  destruct (Z.eq_dec a 0) as [->|]; [rewrite Z.land_0_l in Hne; lia|].
  apply Z.min_lt_iff. left. apply Z.log2_lt_pow2; lia.
Qed.

Lemma in_u_lor w a b : 0 <= w -> in_u w a -> in_u w b -> in_u w (Z.lor a b).
Proof.
  intros Hw [Ha1 Ha2] [Hb1 Hb2]. split; [apply Z.lor_nonneg; lia|].
  destruct (Z.eq_dec a 0) as [->|]; [now rewrite Z.lor_0_l|].
  destruct (Z.eq_dec b 0) as [->|]; [now rewrite Z.lor_0_r|].
  apply Z.log2_lt_pow2.
  - assert (0 <= Z.lor a b) by (apply Z.lor_nonneg; lia).
    enough (Z.lor a b <> 0) by lia. intros E. apply Z.lor_eq_0_iff in E. lia.
  - rewrite Z.log2_lor by lia. apply Z.max_lub_lt; apply Z.log2_lt_pow2; lia.
Qed.

(** Disjoint fields: a multiple of [2 ^ k] and a [k]-bit value. *)
Lemma lor_disjoint a k b : 0 <= k -> in_u k b -> Z.lor (a * 2 ^ k) b = a * 2 ^ k + b.
Proof.
  intros Hk Hb. assert (Z.land (a * 2 ^ k) b = 0) as Hl.
  { apply Z.bits_inj'. intros i Hi. rewrite Z.land_spec, Z.testbit_0_l.
    destruct (Z.ltb_spec i k); [now rewrite Z.mul_pow2_bits_low by lia|].
    rewrite <- (wrap_id k b Hb), testbit_wrap by lia. destruct (Z.ltb_spec i k); [lia|]. apply andb_false_r. }
  pose proof (Z.add_lor_land (a * 2 ^ k) b). lia.
Qed.

(** Exhaustive checking of a decidable statement over a machine-width range. *)
Lemma u_forall_dec w (P : Z -> Prop) `{!forall z, Decision (P z)} :
  forallb (fun z => bool_decide (P z)) (seqZ 0 (2 ^ w)) = true -> forall z, in_u w z -> P z.
Proof.
  intros Hall z Hz. rewrite forallb_forall in Hall.
  assert (In z (seqZ 0 (2 ^ w))) as Hin.
  { apply list_elem_of_In, elem_of_seqZ. unfold in_u in Hz. lia. }
  apply Hall in Hin. now apply bool_decide_eq_true in Hin.
Qed.

(** Hence bounded quantifications are themselves decidable, nested ones too. *)
#[global] Instance u_forall_decision w (P : Z -> Prop) (HP : forall z, Decision (P z)) :
  Decision (forall z, in_u w z -> P z).
Proof.
  refine (match forallb (fun z => bool_decide (P z)) (seqZ 0 (2 ^ w)) as b return _ = b -> _ with
          | true => fun E => left (u_forall_dec w P E)
          | false => fun E => right _
          end eq_refl).
  intros Hall. enough (forallb (fun z => bool_decide (P z)) (seqZ 0 (2 ^ w)) = true) by congruence.
  apply forallb_forall. intros z Hz. apply bool_decide_eq_true, Hall.
  apply list_elem_of_In, elem_of_seqZ in Hz. unfold in_u. lia.
Defined.

(** Closes [forall b, in_u 8 b -> P b] (or any fixed small width) by evaluation. *)
Ltac by_evaluation :=
  match goal with
  | |- forall z, in_u ?w z -> @?P z => apply (@u_forall_dec w P _); vm_compute; reflexivity
  end.

Lemma shiftr_in_u w a n : 0 <= n -> in_u w a -> in_u w (Z.shiftr a n).
Proof.
  intros Hn [H1 H2]. rewrite Z.shiftr_div_pow2 by lia. split.
  - apply Z.div_pos; [lia|]. apply Z.pow_pos_nonneg; lia.
  - apply Z.le_lt_trans with a; [|lia]. apply Z.div_le_upper_bound; [apply Z.pow_pos_nonneg; lia|].
    assert (1 <= 2 ^ n) by (pose proof (Z.pow_pos_nonneg 2 n); lia). nia.
Qed.

Create HintDb oxi discriminated.
#[export] Hint Resolve wrap_range sat_add_range sat_sub_range in_u_land in_u_lor shiftr_in_u : oxi.

Lemma aget_aset_eq {A} (l : list A) i x :
  0 <= i < Z.of_nat (length l) -> aget (aset l i x) i = Some x.
Proof. intros. unfold aget, aset. apply list_lookup_insert_eq. lia. Qed.

Lemma aget_aset_ne {A} (l : list A) i j x :
  0 <= i -> 0 <= j -> i <> j -> aget (aset l i x) j = aget l j.
Proof. intros. unfold aget, aset. apply list_lookup_insert_ne. lia. Qed.

Lemma length_aset {A} (l : list A) i x : length (aset l i x) = length l.
Proof. apply length_insert. Qed.

Lemma Forall_aset {A} (P : A -> Prop) (l : list A) i x :
  Forall P l -> P x -> Forall P (aset l i x).
Proof. intros. now apply Forall_insert. Qed.

#[export] Hint Resolve Forall_aset : oxi.
