(* ===== verification/HalfBits.v ===== *)
(** * Half-bit coding of DALI frames

    Models [crates/dali2rust-dali-phy/src/halfbits.rs] (the packed half-bit
    buffer and its encoder), [crates/dali2rust-dali-codec/src/codec.rs] (the
    frame encoders and the dominant merge of several answers) and
    [crates/dali2rust-dali-phy/src/frame_length.rs].

    A set bit of the buffer is a dominant (low) half bit on the wire. *)

From S2P Require Import Prelude.

Module HalfBits.

Definition START_PAIR : Z := 2.
Definition ONE_PAIR : Z := 2.
Definition ZERO_PAIR : Z := 1.
Definition STOP_PAIR : Z := 0.
Definition PAIR_TOP_SHIFT : Z := 6.
Definition MAX_DATA_HALF_BITS : Z := 72.
Definition DATA_LEN : Z := 9.

Record HalfBitBuffer := MkHalfBitBuffer { hb_data : list Z; hb_length : Z }.

#[global] Instance eta_HalfBitBuffer : Eta HalfBitBuffer :=
  fun b => MkHalfBitBuffer (hb_data b) (hb_length b).

Definition hb_empty : HalfBitBuffer := MkHalfBitBuffer (replicate 9 0) 0.

Definition push_pair (b : HalfBitBuffer) (pair : Z) : HalfBitBuffer :=
  let len := hb_length b in
  let b' :=
    match aget (hb_data b) (Z.shiftr len 3) with
    | Some byte =>
        let shift := wrapping_sub 8 PAIR_TOP_SHIFT (Z.land len 7) in
        b <| hb_data := aset (hb_data b) (Z.shiftr len 3)
                          (Z.lor byte (default 0 (checked_shl 8 pair shift))) |>
    | None => b
    end in
  b' <| hb_length := sat_add 8 len 2 |>.

(** The [while remaining > 0] loop of [encode]; [remaining] counts down from
    [bit_count], so the recursion is structural. *)
Fixpoint encode_loop (data : Z) (remaining : nat) (out : HalfBitBuffer) : HalfBitBuffer :=
  match remaining with
  | O => out
  | S r =>
      let one := negb (Z.land (default 0 (checked_shr 32 data (Z.of_nat r))) 1 =? 0) in
      encode_loop data r (push_pair out (if one then ONE_PAIR else ZERO_PAIR))
  end.

Definition encode (data bit_count : Z) : HalfBitBuffer :=
  let out := push_pair hb_empty START_PAIR in
  let out := encode_loop data (Z.to_nat bit_count) out in
  push_pair (push_pair out STOP_PAIR) STOP_PAIR.

Definition encode_to_half_bits (data bit_count : Z) : HalfBitBuffer := encode data bit_count.

Definition encode_forward16_raw (frame : Z) : HalfBitBuffer := encode_to_half_bits frame 16.

Definition encode_forward24_raw (addr opcode data : Z) : HalfBitBuffer :=
  let raw := Z.lor (Z.lor (shl 32 addr 16) (shl 32 opcode 8)) data in
  encode_to_half_bits raw 24.

Definition merge_dominant (bytes : list Z) (bit_count : Z) : option HalfBitBuffer :=
  match bytes with
  | [] => None
  | first :: rest =>
      Some (foldl (fun merged byte =>
              let other := encode_to_half_bits byte bit_count in
              merged <| hb_data := zip_with Z.lor (hb_data merged) (hb_data other) |>)
            (encode_to_half_bits first bit_count) rest)
  end.

(** ** Frame length classes ([frame_length.rs]) *)

Definition MIN_SAMPLES_FOR_DECODE : Z := 8.
Definition BACKWARD8_SAMPLE_COUNT : Z := 11.
Definition FORWARD16_SAMPLE_COUNT : Z := 19.
Definition FORWARD24_SAMPLE_COUNT : Z := 27.
Definition FORWARD_LENGTH_MIN_SAMPLES : Z := FORWARD16_SAMPLE_COUNT.
Definition FORWARD24_LENGTH_MIN_SAMPLES : Z := 23.

Inductive FrameLengthClass := ClassBackward | ClassForward.

Definition frame_length_class (sample_count : Z) : FrameLengthClass :=
  if FORWARD_LENGTH_MIN_SAMPLES <=? sample_count then ClassForward else ClassBackward.

Definition is_forward24_length (sample_count : Z) : bool :=
  FORWARD24_LENGTH_MIN_SAMPLES <=? sample_count.

(** ** The specification: the half-bit sequence of a frame *)

(** One data bit, most significant half first: a one is dominant-recessive. *)
Definition bit_pair (one : bool) : list bool := if one then [true; false] else [false; true].

(** The [n] data bits of [data], most significant first. *)
Definition data_bits (data : Z) (n : nat) : list bool :=
  map (fun i => Z.testbit data (Z.of_nat i)) (rev (seq 0 n)).

Definition frame_half_bits (bits : list bool) : list bool :=
  [true; false] ++ flat_map bit_pair bits ++ [false; false; false; false].

(** Half bit [k] as the transmitter reads it: bit [7 - k mod 8] of byte [k / 8]. *)
Definition half_bit (b : HalfBitBuffer) (k : nat) : bool :=
  match hb_data b !! (k / 8)%nat with
  | Some byte => Z.testbit byte (7 - Z.of_nat (k mod 8))
  | None => false
  end.

Definition half_bits (b : HalfBitBuffer) : list bool :=
  map (half_bit b) (seq 0 (Z.to_nat (hb_length b))).

(** The buffer invariant: nine bytes, and the bits beyond the length are clear. *)
Record represents (b : HalfBitBuffer) (l : list bool) : Prop := {
  rep_data_len : length (hb_data b) = 9%nat;
  rep_bytes : Forall (in_u 8) (hb_data b);
  rep_len : hb_length b = Z.of_nat (length l);
  rep_fits : (length l <= 72)%nat;
  rep_bit : forall k, (k < 72)%nat -> half_bit b k = nth k l false;
}.

Lemma represents_empty : represents hb_empty [].
Proof.
  split; try reflexivity; [vm_compute; repeat constructor; easy|simpl; lia|].
  intros k Hk. unfold half_bit, hb_empty. cbn [hb_data].
  rewrite lookup_replicate_2 by (apply Nat.Div0.div_lt_upper_bound; lia).
  rewrite Z.testbit_0_l. now destruct k.
Qed.

(** The byte a pair is written to, bit by bit. *)
Lemma pair_in_byte byte pair (o j : nat) :
  in_u 2 pair -> (o < 8)%nat -> Nat.Even o -> (j < 8)%nat ->
  Z.testbit (Z.lor byte (wrap 8 (Z.shiftl pair (6 - Z.of_nat o)))) (7 - Z.of_nat j)
  = Z.testbit byte (7 - Z.of_nat j)
    || nth j (replicate o false ++ [Z.testbit pair 1; Z.testbit pair 0]) false.
Proof.
  intros Hp Ho [m Hm] Hj. rewrite Z.lor_spec. f_equal.
  assert (m = 0 \/ m = 1 \/ m = 2 \/ m = 3)%nat as Hc by lia. clear Ho. revert pair Hp.
  do 8 (destruct j as [|j];
    [destruct Hc as [-> | [-> | [-> | ->]]]; subst o; by_evaluation|]).
  lia.
Qed.

Lemma nth_pair_shift (l : list bool) (x y : bool) (o k : nat) :
  (o <= length l)%nat -> (length l - o <= k)%nat ->
  nth k (l ++ [x; y]) false
  = nth k l false || nth (k - (length l - o)) (replicate o false ++ [x; y]) false.
Proof.
  intros Ho Hk. destruct (lt_dec k (length l)) as [Hlt|Hge].
  - rewrite app_nth1 by lia. rewrite app_nth1 by (rewrite length_replicate; lia).
    now rewrite (nth_lookup (replicate _ _)), lookup_replicate_2, orb_false_r by lia.
  - rewrite app_nth2, (nth_overflow l), orb_false_l, app_nth2, length_replicate
      by (rewrite ?length_replicate; lia).
    f_equal. lia.
Qed.

(** Appending a pair at an even position sets exactly its two half bits. *)
Lemma represents_push b l pair :
  represents b l -> Nat.Even (length l) -> (length l + 2 <= 72)%nat -> in_u 2 pair ->
  represents (push_pair b pair) (l ++ [Z.testbit pair 1; Z.testbit pair 0]).
Proof.
  intros [Hlen Hbytes Hl Hfit Hbit] Heven Hroom Hpair.
  set (L := length l) in *. set (i := (L / 8)%nat). set (o := (L mod 8)%nat).
  assert (i < 9)%nat as Hi by (subst i; dlia).
  assert (o < 8)%nat as Ho by (subst o; dlia).
  assert (Nat.Even o) as Hoe by (destruct Heven as [m ?]; exists (m - 4 * i)%nat; subst i o; dlia).
  destruct (lookup_lt_is_Some_2 (hb_data b) i) as [byte Hbyte]; [lia|].
  assert (push_pair b pair = MkHalfBitBuffer
    (<[i := Z.lor byte (wrap 8 (Z.shiftl pair (6 - Z.of_nat o)))]> (hb_data b)) (Z.of_nat L + 2)) as ->.
  { unfold push_pair, aget, aset. rewrite Hl, Z.shiftr_div_pow2 by lia.
    change 7 with (Z.ones 3). rewrite Z.land_ones by lia. change (2 ^ 3) with (Z.of_nat 8).
    rewrite <- Nat2Z.inj_div, <- Nat2Z.inj_mod, Nat2Z.id. fold i o. rewrite Hbyte.
    cbn [set_field hb_data hb_length].
    unfold wrapping_sub, PAIR_TOP_SHIFT, checked_shl.
    assert (o <> 7)%nat by (destruct Hoe; lia). rewrite wrap_id by (unfold in_u; lia).
    destruct (Z.ltb_spec (6 - Z.of_nat o) 8); [|lia].
    cbn. f_equal. unfold sat_add, umax. lia. }
  split; cbn [hb_data hb_length].
  - now rewrite length_insert.
  - apply Forall_insert; [done|]. apply in_u_lor; [lia| |apply wrap_range; lia].
    eapply Forall_lookup_1; eauto.
  - rewrite length_app. simpl. lia.
  - rewrite length_app. simpl. lia.
  - intros k Hk. specialize (Hbit k Hk). unfold half_bit in *. cbn [hb_data].
    destruct (decide (k / 8 = i)%nat) as [Ek|Ek].
    + rewrite Ek, list_lookup_insert_eq by lia. rewrite Ek, Hbyte in Hbit.
      rewrite pair_in_byte by (auto; dlia). rewrite Hbit, (nth_pair_shift l _ _ o) by (fold L; subst i o; dlia).
      fold L. do 2 f_equal. subst i o. dlia.
    + rewrite list_lookup_insert_ne by congruence. rewrite Hbit.
      destruct (lt_dec k L); [now rewrite app_nth1 by (fold L; lia)|].
      rewrite !nth_overflow; [done| |fold L; lia].
      rewrite length_app. simpl. fold L. destruct Hoe. subst i o. dlia.
Qed.

Lemma data_bits_S data n :
  data_bits data (S n) = Z.testbit data (Z.of_nat n) :: data_bits data n.
Proof. unfold data_bits. rewrite seq_S, rev_app_distr. reflexivity. Qed.

Lemma length_data_bits data n : length (data_bits data n) = n.
Proof. unfold data_bits. now rewrite length_map, length_rev, length_seq. Qed.

Lemma length_flat_pairs bits : length (flat_map bit_pair bits) = (2 * length bits)%nat.
Proof. induction bits as [|b bits IH]; simpl; [done|]. rewrite length_app, IH. destruct b; simpl; lia. Qed.

Lemma length_frame_half_bits bits : length (frame_half_bits bits) = (2 * length bits + 6)%nat.
Proof. unfold frame_half_bits. rewrite !length_app, length_flat_pairs. simpl. lia. Qed.

Lemma encode_one_bit data r : (r < 32)%nat ->
  negb (Z.land (default 0 (checked_shr 32 data (Z.of_nat r))) 1 =? 0) = Z.testbit data (Z.of_nat r).
Proof.
  intros Hr. unfold checked_shr. destruct (Z.ltb_spec (Z.of_nat r) 32); [|lia]. cbn [default].
  rewrite <- (Z.add_0_l (Z.of_nat r)) at 2. rewrite <- Z.shiftr_spec by lia.
  change 1 with (Z.ones 1). rewrite Z.land_ones, Z.bit0_odd by lia. change (2 ^ 1) with 2.
  rewrite Zmod_odd. now destruct (Z.odd _).
Qed.

Lemma represents_encode_loop data n out l :
  (n <= 32)%nat -> represents out l -> Nat.Even (length l) -> (length l + 2 * n <= 72)%nat ->
  represents (encode_loop data n out) (l ++ flat_map bit_pair (data_bits data n)).
Proof.
  revert out l. induction n as [|n IH]; intros out l Hn Hrep Heven Hroom; cbn [encode_loop].
  - now rewrite app_nil_r.
  - rewrite encode_one_bit, data_bits_S by lia. cbn [flat_map]. rewrite app_assoc.
    apply IH; [lia| | |].
    + replace (bit_pair (Z.testbit data (Z.of_nat n))) with
        (let p := if Z.testbit data (Z.of_nat n) then ONE_PAIR else ZERO_PAIR in
         [Z.testbit p 1; Z.testbit p 0]) by (now destruct (Z.testbit _ _)).
      apply represents_push; auto; [lia|]. destruct (Z.testbit _ _); easy.
    + rewrite length_app. destruct Heven as [m ->]. exists (S m). destruct (Z.testbit _ _); simpl; lia.
    + rewrite length_app. destruct (Z.testbit _ _); simpl; lia.
Qed.

Lemma represents_encode data n : (n <= 32)%nat ->
  represents (encode data (Z.of_nat n)) (frame_half_bits (data_bits data n)).
Proof.
  intros Hn. unfold encode. rewrite Nat2Z.id.
  assert (represents (encode_loop data n (push_pair hb_empty START_PAIR))
            ([true; false] ++ flat_map bit_pair (data_bits data n))) as H1.
  { apply represents_encode_loop; [done| |now exists 1%nat|simpl; lia].
    apply (represents_push hb_empty [] 2); [apply represents_empty|now exists 0%nat|simpl; lia|easy]. }
  assert (length ([true; false] ++ flat_map bit_pair (data_bits data n)) = 2 * (n + 1))%nat as HL.
  { rewrite length_app, length_flat_pairs, length_data_bits. simpl. lia. }
  unfold frame_half_bits. replace [false; false; false; false] with
    ([Z.testbit STOP_PAIR 1; Z.testbit STOP_PAIR 0] ++ [Z.testbit STOP_PAIR 1; Z.testbit STOP_PAIR 0])
    by reflexivity.
  rewrite !app_assoc.
  apply represents_push; [apply represents_push; [done|now exists (n + 1)%nat|lia|easy]| | |easy].
  - rewrite length_app, HL. exists (n + 2)%nat. simpl. lia.
  - rewrite length_app, HL. simpl. lia.
Qed.

Lemma represents_half_bits b l : represents b l -> half_bits b = l.
Proof.
  intros [_ _ Hl Hfit Hbit]. unfold half_bits. rewrite Hl, Nat2Z.id.
  apply (nth_ext _ _ false false); [now rewrite length_map, length_seq|].
  intros k Hk. rewrite length_map, length_seq in Hk.
  rewrite (nth_indep _ false (half_bit b 0)) by (rewrite length_map, length_seq; lia).
  rewrite map_nth, seq_nth by lia. apply Hbit. lia.
Qed.

(** Merging two buffers of one length half bit by half bit. *)
Lemma half_bit_merge b d2 k : length (hb_data b) = 9%nat -> length d2 = 9%nat -> (k < 72)%nat ->
  half_bit (b <| hb_data := zip_with Z.lor (hb_data b) d2 |>) k
  = half_bit b k || half_bit (MkHalfBitBuffer d2 (hb_length b)) k.
Proof.
  intros H1 H2 Hk. assert (k / 8 < 9)%nat as Hi by dlia. unfold half_bit. cbn [hb_data set_field].
  rewrite lookup_zip_with. destruct (lookup_lt_is_Some_2 (hb_data b) (k / 8)) as [x ->]; [lia|].
  destruct (lookup_lt_is_Some_2 d2 (k / 8)) as [y ->]; [lia|]. cbn. apply Z.lor_spec.
Qed.

Lemma merge_loop n rest : 0 <= n <= 32 -> forall m, length (hb_data m) = 9%nat ->
  let m' := foldl (fun merged byte =>
              let other := encode_to_half_bits byte n in
              merged <| hb_data := zip_with Z.lor (hb_data merged) (hb_data other) |>) m rest in
  hb_length m' = hb_length m /\
  forall k, (k < 72)%nat -> half_bit m' k = half_bit m k || existsb (fun byte => half_bit (encode byte n) k) rest.
Proof.
  intros Hn. induction rest as [|byte rest IH]; intros m Hm; cbn [foldl existsb].
  - split; [done|]. intros. now rewrite orb_false_r.
  - unfold encode_to_half_bits at 1. pose proof (represents_encode byte (Z.to_nat n) ltac:(lia)) as Hrep.
    rewrite Z2Nat.id in Hrep by lia. pose proof (rep_data_len _ _ Hrep) as Hlen.
    edestruct (IH (m <| hb_data := zip_with Z.lor (hb_data m) (hb_data (encode byte n)) |>)) as [IH1 IH2];
      [cbn [hb_data set_field]; rewrite length_zip_with, Hm, Hlen; done|].
    split; [exact IH1|]. intros k Hk. cbn zeta in IH2. rewrite IH2, half_bit_merge by done.
    now rewrite <- orb_assoc.
Qed.

(** the half bits of a frame.  A frame of up to 32 bits is encoded as the
    start bit, two half bits per data bit with the most significant bit first,
    and two recessive stop bits, in exactly [2 * n + 6] half bits; and several
    frames sent at once merge as they do on the wire, dominant wherever one of
    them is. *)
Theorem encode_exact data n (Hn : 0 <= n <= 32) :
  half_bits (encode data n) = frame_half_bits (data_bits data (Z.to_nat n)) /\
  hb_length (encode data n) = 2 * n + 6 /\
  forall others, exists merged, merge_dominant (data :: others) n = Some merged /\
    hb_length merged = 2 * n + 6 /\
    forall k, (k < 72)%nat -> half_bit merged k = existsb (fun byte => half_bit (encode byte n) k) (data :: others).
Proof.
  pose proof (represents_encode data (Z.to_nat n) ltac:(lia)) as Hrep. rewrite Z2Nat.id in Hrep by lia.
  assert (hb_length (encode data n) = 2 * n + 6) as Hlen.
  { rewrite (rep_len _ _ Hrep), length_frame_half_bits, length_data_bits. lia. }
  split; [now apply represents_half_bits|]. split; [done|]. intros others.
  eexists. split; [reflexivity|].
  destruct (merge_loop n others Hn (encode_to_half_bits data n)) as [H1 H2]; [apply (rep_data_len _ _ Hrep)|].
  split; [now rewrite H1|]. exact H2.
Qed.

Lemma encode_exact_witness :
  0 <= 8 <= 32 /\
  half_bits (encode 0xA5 8) = frame_half_bits (data_bits 0xA5 (Z.to_nat 8)) /\
  hb_length (encode 0xA5 8) = 2 * 8 + 6 /\
  forall others, exists merged, merge_dominant (0xA5 :: others) 8 = Some merged /\
    hb_length merged = 2 * 8 + 6 /\
    forall k, (k < 72)%nat -> half_bit merged k = existsb (fun byte => half_bit (encode byte 8) k) (0xA5 :: others).
Proof. split; [lia|]. apply (encode_exact 0xA5 8). lia. Defined.

End HalfBits.
