(* ===== verification/Manchester.v ===== *)
(** * Manchester decoding of a sampled frame

    Models [crates/dali2rust-dali-phy/src/manchester.rs]: the sample window, the
    weighted bit decision, the phase scan and the best-phase search. *)

From S2P Require Import Prelude.

Module Manchester.

Definition DALI_RX_SAMPLE_BUF_LEN : Z := 64.
Definition MANCHESTER_RX_MAX_DECODED_BITS : Z := 32.
Definition MANCHESTER_RX_MIN_DECODED_BITS : Z := 3.
Definition PHASE_SCAN_COUNT : Z := 4.
Definition WINDOW_BITS_PER_SAMPLE : Z := 8.
Definition PEEK_IDLE : Z := 255.
Definition PEEK_HELD : Z := 0.

Inductive PeekStop := StopNone | StopIdle | StopHeld.

(** [BitLengths(u32)]: a mask of accepted frame lengths. *)
Definition BitLengths := Z.

Definition BitLengths_of (lengths : list Z) : BitLengths :=
  foldl (fun mask first =>
    match checked_shl 32 1 first with Some bit => Z.lor mask bit | None => mask end) 0 lengths.

Definition contains (mask : BitLengths) (len : Z) : bool :=
  match checked_shl 32 1 len with
  | Some bit => negb (Z.land mask bit =? 0)
  | None => false
  end.

Record PhaseDecode := MkPhaseDecode {
  bit_len : Z; phase_ticks : Z; score : Z; pd_data : list Z }.

#[global] Instance eta_PhaseDecode : Eta PhaseDecode :=
  fun d => MkPhaseDecode (bit_len d) (phase_ticks d) (score d) (pd_data d).

Definition failed (phase : Z) : PhaseDecode := MkPhaseDecode 0 phase 0 (replicate 8 0).

Record SampleWindow := MkSampleWindow { w_bytes : list Z; w_len : Z; w_bits : Z }.

Definition window_EMPTY : SampleWindow := MkSampleWindow (replicate 66 0) 0 0.

Definition of_capture (samples : list Z) (sample_count : Z) : SampleWindow :=
  let n := if sample_count <? DALI_RX_SAMPLE_BUF_LEN then sample_count else DALI_RX_SAMPLE_BUF_LEN in
  let bytes :=
    foldl (fun bytes i =>
      match samples !! i with Some sample => <[i := sample]> bytes | None => bytes end)
      (w_bytes window_EMPTY) (seq 0 (Z.to_nat n)) in
  MkSampleWindow (aset bytes n PEEK_IDLE) (wrap 16 (n + 1)) (sat_mul 16 (wrap 16 n) WINDOW_BITS_PER_SAMPLE).

Definition byte (w : SampleWindow) (pos : Z) : option Z :=
  if w_len w <=? pos then None else aget (w_bytes w) pos.

Definition sample_bit (w : SampleWindow) (bitpos : Z) : Z :=
  if bitpos <? 0 then Z.shiftr (default PEEK_IDLE (byte w 0)) 7
  else if w_bits w <=? bitpos then 1
  else Z.shiftr (shl 8 (default PEEK_IDLE (byte w (Z.shiftr bitpos 3))) (Z.land bitpos 7)) 7.

Definition peek_stop (sample : Z) : PeekStop :=
  if sample =? PEEK_IDLE then StopIdle else if sample =? PEEK_HELD then StopHeld else StopNone.

(** The eight samples starting [phase] ticks from [bitpos]. *)
Definition peek8 (w : SampleWindow) (bitpos phase : Z) : Z * PeekStop :=
  let shifted := as_signed 16 (as_signed 16 bitpos + phase) in
  let sample :=
    if 0 <=? shifted then
      let pos := Z.shiftr shifted 3 in
      let shift := Z.land shifted 7 in
      match byte w pos, byte w (sat_add 16 pos 1) with
      | None, _ => PEEK_IDLE
      | Some first, Some next =>
          wrap 8 (Z.lor (shl 16 first shift) (Z.shiftr next (wrapping_sub 16 8 shift)))
      | Some first, None => wrap 8 (shl 16 first shift)
      end
    else
      foldl (fun sample offset => Z.lor (shl 8 sample 1) (sample_bit w (as_signed 16 (shifted + offset))))
        0 (seqZ 0 8) in
  (sample, peek_stop sample).

Definition bit_weight (sample bit weight : Z) : Z :=
  let set := match checked_shr 8 sample bit with
             | Some shifted => negb (Z.land shifted 1 =? 0)
             | None => false
             end in
  if set then weight else - weight.

(** The source's i16 sums stay in [-24, 24]: the wrapping is never exercised. *)
Definition sample_weight (sample : Z) : Z :=
  let first := bit_weight sample 7 1 + bit_weight sample 6 2 + bit_weight sample 5 2 + bit_weight sample 4 1 in
  let second := bit_weight sample 3 1 + bit_weight sample 2 2 + bit_weight sample 1 2 + bit_weight sample 0 1 in
  let w := (first - second) * 2 in
  if w <? 0 then wrap 8 (- w + 1) else wrap 8 w.

Definition weighted_peek_around (w : SampleWindow) (bitpos phase : Z) : Z * Z * PeekStop :=
  let '(centre, _) := peek8 w bitpos phase in
  let weightmax := sample_weight centre in
  let pmax := 8 in
  let '(early, _) := peek8 w (wrapping_sub 16 bitpos 1) phase in
  let early := sample_weight early in
  let '(weightmax, pmax) := if weightmax <? early then (early, 7) else (weightmax, pmax) in
  let '(late, stop) := peek8 w (sat_add 16 bitpos 1) phase in
  let late := sample_weight late in
  let '(weightmax, pmax) := if weightmax <? late then (late, 9) else (weightmax, pmax) in
  (weightmax, pmax, stop).

Definition push_decoded_bit (data : list Z) (blen weightmax : Z) : list Z :=
  if blen =? 0 then data
  else
    let index := wrapping_sub 8 blen 1 in
    match aget data (Z.shiftr index 3) with
    | None => data
    | Some b =>
        let b := if Z.land index 7 =? 0 then 0 else b in
        aset data (Z.shiftr index 3) (Z.lor (shl 8 b 1) (Z.land weightmax 1))
    end.

Definition drop_stop_bit (out : PhaseDecode) : PhaseDecode :=
  if 1 <? bit_len out then out <| bit_len := sat_sub (bit_len out) 1 |> else out.

(** The decoding loop.  [None] is running out of fuel; [decode_loop_total]
    below shows that the fuel of [decode_phase] is always enough. *)
Fixpoint decode_loop (fuel : nat) (w : SampleWindow) (max_out_bits phase bitpos : Z)
    (out : PhaseDecode) : option PhaseDecode :=
  match fuel with
  | O => None
  | S fuel =>
      if sat_add 16 bitpos 1 <? w_bits w then
        if max_out_bits <? bit_len out then Some (drop_stop_bit out)
        else
          let '(weightmax, pmax, stop) := weighted_peek_around w bitpos phase in
          match stop with
          | StopIdle => Some (drop_stop_bit out)
          | StopHeld => Some (failed phase)
          | StopNone =>
              let out := out <| score := sat_add 16 (score out) weightmax |> in
              let out := out <| pd_data := push_decoded_bit (pd_data out) (bit_len out) weightmax |> in
              let out := out <| bit_len := sat_add 8 (bit_len out) 1 |> in
              decode_loop fuel w max_out_bits phase (sat_add 16 bitpos pmax) out
          end
      else Some (drop_stop_bit out)
  end.

Definition decode_phase (w : SampleWindow) (max_out_bits phase : Z) : PhaseDecode :=
  default (failed phase)
    (decode_loop (S (Z.to_nat (w_bits w))) w max_out_bits phase 1 (failed phase)).

Definition scan_phase (index : Z) : Z :=
  let offset := Z.land index 3 - 2 in
  if 0 <=? offset then offset + 1 else offset.

Definition is_better_decode (candidate current : PhaseDecode) (preferred : BitLengths) : bool :=
  let candidate_preferred := contains preferred (bit_len candidate) in
  if negb (Bool.eqb candidate_preferred (contains preferred (bit_len current))) then candidate_preferred
  else if negb (score candidate =? score current) then score current <? score candidate
  else
    let candidate_abs := Z.abs (phase_ticks candidate) in
    let current_abs := Z.abs (phase_ticks current) in
    if negb (candidate_abs =? current_abs) then candidate_abs <? current_abs
    else (phase_ticks candidate =? 0) && negb (phase_ticks current =? 0).

Inductive IsrDecode := NotDecoded | Decoded (found : option PhaseDecode).
Inductive PhaseSearch := Searching | Done (found : option PhaseDecode).

Record BestPhaseSearch := MkBestPhaseSearch {
  preferred : BitLengths; bps_step : Z; best : option PhaseDecode }.

#[global] Instance eta_BestPhaseSearch : Eta BestPhaseSearch :=
  fun s => MkBestPhaseSearch (preferred s) (bps_step s) (best s).

Definition search_new (pref : BitLengths) : BestPhaseSearch := MkBestPhaseSearch pref 0 None.

Definition accepted (found : option PhaseDecode) : option PhaseDecode :=
  match found with
  | Some decode => if MANCHESTER_RX_MIN_DECODED_BITS <=? bit_len decode then Some decode else None
  | None => None
  end.

Definition search_step (s : BestPhaseSearch) (w : SampleWindow) : BestPhaseSearch * PhaseSearch :=
  if bps_step s =? 0 then
    let s := s <| bps_step := 1 |> in
    let first := decode_phase w MANCHESTER_RX_MAX_DECODED_BITS 0 in
    if contains (preferred s) (bit_len first) then (s, Done (accepted (Some first)))
    else (s, Searching)
  else if PHASE_SCAN_COUNT <? bps_step s then (s, Done (accepted (best s)))
  else
    let phase := scan_phase (wrapping_sub 8 (bps_step s) 1) in
    let candidate := decode_phase w MANCHESTER_RX_MAX_DECODED_BITS phase in
    let s := s <| bps_step := sat_add 8 (bps_step s) 1 |> in
    let s :=
      if negb (bit_len candidate =? 0) then
        let replace := match best s with
                       | Some current => is_better_decode candidate current (preferred s)
                       | None => true
                       end in
        if replace then s <| best := Some candidate |> else s
      else s in
    if PHASE_SCAN_COUNT <? bps_step s then (s, Done (accepted (best s))) else (s, Searching).

(** The [loop] of [run]; [None] is running out of fuel. *)
Fixpoint run_loop (fuel : nat) (s : BestPhaseSearch) (w : SampleWindow) : option (option PhaseDecode) :=
  match fuel with
  | O => None
  | S fuel =>
      match search_step s w with
      | (_, Done found) => Some found
      | (s, Searching) => run_loop fuel s w
      end
  end.

(** Step 0 and the four scanned phases: at most six turns. *)
Definition run (s : BestPhaseSearch) (w : SampleWindow) : option PhaseDecode :=
  default None (run_loop 6 s w).

Definition SNIFFED_BIT_LENGTHS : BitLengths := BitLengths_of [8; 16; 24].
Definition FORWARD24_BITS : Z := 24.

(** ** Termination *)

Lemma weighted_peek_advances w bitpos phase weightmax pmax stop :
  weighted_peek_around w bitpos phase = (weightmax, pmax, stop) -> 7 <= pmax <= 9.
Proof.
  unfold weighted_peek_around. intros E.
  repeat (destruct (peek8 _ _ _) in E).
  repeat case_if_in E; simplify_eq; lia.
Qed.

Lemma decode_loop_total w max_out phase fuel bitpos out :
  in_u 16 (w_bits w) -> 0 <= bitpos -> (Z.to_nat (w_bits w - bitpos) < fuel)%nat ->
  is_Some (decode_loop fuel w max_out phase bitpos out).
Proof.
  revert bitpos out. induction fuel as [|fuel IH]; intros bitpos out Hbits Hpos Hfuel; [lia|].
  cbn [decode_loop]. case_if; [|eauto]. case_if; [eauto|].
  destruct (weighted_peek_around w bitpos phase) as [[weightmax pmax] stop] eqn:Hpeek.
  apply weighted_peek_advances in Hpeek. destruct stop; [|eauto|eauto].
  apply IH; [done| |]; mlia.
Qed.

Lemma decode_phase_loop w max_out phase :
  in_u 16 (w_bits w) ->
  decode_loop (S (Z.to_nat (w_bits w))) w max_out phase 1 (failed phase)
  = Some (decode_phase w max_out phase).
Proof.
  intros Hbits. unfold decode_phase.
  destruct (decode_loop_total w max_out phase (S (Z.to_nat (w_bits w))) 1 (failed phase)) as [d ->];
    [done|lia|lia|done].
Qed.

Lemma search_step_progress w s s' :
  0 <= bps_step s -> search_step s w = (s', Searching) ->
  bps_step s' = bps_step s + 1 /\ bps_step s' <= PHASE_SCAN_COUNT.
Proof.
  unfold search_step. intros Hs E. case_if_in E.
  - revert E. case_if; intros; simplify_eq; cbn. unfold PHASE_SCAN_COUNT. lia.
  - case_if_in E; [simplify_eq|].
    revert E. generalize (decode_phase w MANCHESTER_RX_MAX_DECODED_BITS
      (scan_phase (wrapping_sub 8 (bps_step s) 1))). intros cand E.
    assert (sat_add 8 (bps_step s) 1 = bps_step s + 1) as Hsat
      by (unfold sat_add, umax, PHASE_SCAN_COUNT in *; lia).
    repeat case_if_in E; simplify_eq; cbn in *; lia.
Qed.

Lemma run_loop_total w s fuel :
  0 <= bps_step s <= 5 -> 5 < bps_step s + Z.of_nat fuel -> is_Some (run_loop fuel s w).
Proof.
  revert s. induction fuel as [|fuel IH]; intros s Hs Hf; [lia|].
  cbn [run_loop]. destruct (search_step s w) as [s' r] eqn:E. destruct r; [|eauto].
  apply search_step_progress in E as [H1 H2]; [|lia]. unfold PHASE_SCAN_COUNT in H2.
  apply IH; lia.
Qed.

(** ** The order of the phase scan *)

(** [is_better_decode] is the strict lexicographic order on (preferred length,
    score, closeness of the phase to zero). *)
Definition decode_rank (pref : BitLengths) (d : PhaseDecode) : Z * Z * Z :=
  (Z_of_bool (contains pref (bit_len d)), score d, - Z.abs (phase_ticks d)).

Definition rank_lt (a b : Z * Z * Z) : Prop :=
  let '(a1, a2, a3) := a in
  let '(b1, b2, b3) := b in
  a1 < b1 \/ (a1 = b1 /\ (a2 < b2 \/ (a2 = b2 /\ a3 < b3))).

Lemma is_better_decode_rank c d pref :
  is_better_decode c d pref = true <-> rank_lt (decode_rank pref d) (decode_rank pref c).
Proof.
  unfold is_better_decode, decode_rank, rank_lt, Z_of_bool.
  destruct (contains pref (bit_len c)), (contains pref (bit_len d)); cbn [Bool.eqb negb];
    repeat (case_if; cbn [negb]); split; try discriminate; lia.
Qed.

(** ** Optimality of the search *)

(** The candidates of the scan, in scan order. *)
Definition scan_candidates (w : SampleWindow) : list PhaseDecode :=
  map (fun phase => decode_phase w MANCHESTER_RX_MAX_DECODED_BITS phase) [-2; -1; 1; 2].

Definition keep_better (pref : BitLengths) (best : option PhaseDecode) (c : PhaseDecode) : option PhaseDecode :=
  if bit_len c =? 0 then best
  else match best with
       | Some current => if is_better_decode c current pref then Some c else best
       | None => Some c
       end.

Lemma search_step_scan w pref k b :
  1 <= k <= 4 ->
  let c := decode_phase w MANCHESTER_RX_MAX_DECODED_BITS (scan_phase (k - 1)) in
  search_step (MkBestPhaseSearch pref k b) w
  = (MkBestPhaseSearch pref (k + 1) (keep_better pref b c),
     if k =? 4 then Done (accepted (keep_better pref b c)) else Searching).
Proof.
  intros Hk c. unfold search_step, keep_better. cbn [bps_step preferred best set_field].
  destruct (Z.eqb_spec k 0); [lia|]. unfold PHASE_SCAN_COUNT. destruct (Z.ltb_spec 4 k); [lia|].
  assert (wrapping_sub 8 k 1 = k - 1) as -> by (unfold wrapping_sub; apply wrap_id; unfold in_u; lia).
  fold c. clearbody c. assert (sat_add 8 k 1 = k + 1) as -> by (unfold sat_add, umax; lia).
  destruct (Z.eqb_spec (bit_len c) 0); cbn [negb].
  - cbn. destruct (Z.ltb_spec 4 (k + 1)), (Z.eqb_spec k 4); (reflexivity || lia).
  - cbn. destruct b as [current|]; [destruct (is_better_decode c current pref)|]; cbn;
      destruct (Z.ltb_spec 4 (k + 1)), (Z.eqb_spec k 4); (reflexivity || lia).
Qed.

Lemma run_unfold w pref :
  let first := decode_phase w MANCHESTER_RX_MAX_DECODED_BITS 0 in
  run (search_new pref) w =
    if contains pref (bit_len first) then accepted (Some first)
    else accepted (foldl (keep_better pref) None (scan_candidates w)).
Proof.
  intros first. unfold run. cbn [run_loop]. unfold search_new at 1, search_step at 1.
  cbn [bps_step preferred best set_field Z.eqb]. fold first.
  destruct (contains pref (bit_len first)); [reflexivity|].
  cbn [run_loop]. do 4 (rewrite search_step_scan by lia; cbn [Z.eqb Pos.eqb]).
  reflexivity.
Qed.

Lemma rank_lt_trans a b c : rank_lt a b -> rank_lt b c -> rank_lt a c.
Proof. destruct a as [[??]?], b as [[??]?], c as [[??]?]. unfold rank_lt. lia. Qed.

Lemma rank_lt_total a b c : ~ rank_lt a b -> rank_lt a c -> rank_lt b c.
Proof. destruct a as [[??]?], b as [[??]?], c as [[??]?]. unfold rank_lt. lia. Qed.

(** [keep_better] folds to a maximum of the ranked candidates. *)
Lemma foldl_keep_better pref cs b :
  match foldl (keep_better pref) b cs with
  | Some d =>
      (b = Some d \/ (In d cs /\ bit_len d <> 0)) /\
      (forall c, b = Some c -> ~ rank_lt (decode_rank pref d) (decode_rank pref c)) /\
      (forall c, In c cs -> bit_len c <> 0 -> ~ rank_lt (decode_rank pref d) (decode_rank pref c))
  | None => b = None /\ Forall (fun c => bit_len c = 0) cs
  end.
Proof.
  revert b. induction cs as [|c cs IH]; intros b; cbn [foldl].
  - destruct b as [d|]; [|auto]. split; [auto|]. split; [|easy].
    intros c [= ->]. destruct (decode_rank pref c) as [[??]?]. unfold rank_lt. lia.
  - specialize (IH (keep_better pref b c)).
    destruct (foldl (keep_better pref) (keep_better pref b c) cs) as [d|].
    + destruct IH as (Hin & Hb & Hcs). unfold keep_better in Hin, Hb.
      assert (forall x, rank_lt (decode_rank pref x) (decode_rank pref x) -> False) as Hirr.
      { intros x. destruct (decode_rank pref x) as [[??]?]. unfold rank_lt. lia. }
      case_if_in Hb; [naive_solver congruence|].
      destruct b as [cur|]; [|naive_solver].
      destruct (is_better_decode c cur pref) eqn:Hbet.
      * apply is_better_decode_rank in Hbet. split; [naive_solver|].
        split; [|naive_solver]. intros x [= <-] Hlt. apply (Hb c eq_refl). eapply rank_lt_trans; eauto.
      * split; [naive_solver|]. split; [naive_solver|].
        intros x [<-|Hx] Hne Hlt; [|naive_solver].
        assert (~ rank_lt (decode_rank pref cur) (decode_rank pref c)) as Hnb
          by (rewrite <- is_better_decode_rank; congruence).
        apply Hnb. eapply rank_lt_total; [|exact Hlt]. naive_solver.
    + destruct IH as [Hb Hcs]. unfold keep_better in Hb.
      case_if_in Hb; [auto|]. destruct b; [case_if_in Hb|]; discriminate.
Qed.

(** the decoder always terminates.  On any sample window (its length a
    16-bit number) every phase decode ends within as many turns as the window
    has sample bits, whatever the samples, the phase and the bit limit are, and
    the phase search ends within six turns; so the fuel of the model is never
    what ends them. *)
Theorem decoder_terminates w (Hw : in_u 16 (w_bits w)) :
  (forall max_out phase,
     decode_loop (S (Z.to_nat (w_bits w))) w max_out phase 1 (failed phase) = Some (decode_phase w max_out phase)) /\
  (forall pref, run_loop 6 (search_new pref) w = Some (run (search_new pref) w)).
Proof.
  split; [intros; now apply decode_phase_loop|]. intros pref. unfold run.
  destruct (run_loop_total w (search_new pref) 6) as [d ->]; [cbn; lia|cbn; lia|done].
Qed.

Lemma decoder_terminates_witness :
  let w := of_capture (0x0F :: 0xF0 :: replicate 62 255) 12 in
  in_u 16 (w_bits w) /\
  (forall max_out phase,
     decode_loop (S (Z.to_nat (w_bits w))) w max_out phase 1 (failed phase) = Some (decode_phase w max_out phase)) /\
  (forall pref, run_loop 6 (search_new pref) w = Some (run (search_new pref) w)).
Proof. intros w. assert (in_u 16 (w_bits w)) as H by (by vm_compute). split; [exact H|]. exact (decoder_terminates w H). Defined.

(** C34: the phase search is optimal.  If the unshifted phase gives an expected
    frame length it is taken at once; otherwise the result is, among the four
    shifted phases that decoded anything, one no other exceeds in (expected
    length, score, closeness to the middle), and it is refused only when it has
    fewer than [MANCHESTER_RX_MIN_DECODED_BITS] bits. *)
Theorem phase_search_optimal w pref :
  let first := decode_phase w MANCHESTER_RX_MAX_DECODED_BITS 0 in
  if contains pref (bit_len first) then run (search_new pref) w = accepted (Some first)
  else exists best, run (search_new pref) w = accepted best /\
    match best with
    | Some d => In d (scan_candidates w) /\ bit_len d <> 0 /\
                forall c, In c (scan_candidates w) -> bit_len c <> 0 ->
                  ~ rank_lt (decode_rank pref d) (decode_rank pref c)
    | None => Forall (fun c => bit_len c = 0) (scan_candidates w)
    end.
Proof.
  intros first. pose proof (run_unfold w pref) as Hrun. fold first in Hrun. cbn zeta in Hrun.
  destruct (contains pref (bit_len first)); [exact Hrun|].
  eexists. split; [exact Hrun|]. pose proof (foldl_keep_better pref (scan_candidates w) None) as H.
  destruct (foldl _ _ _) as [d|]; [|now destruct H].
  destruct H as ([?|[Hin Hne]] & _ & Hmax); [discriminate|]. auto.
Qed.

End Manchester.
