(* ===== verification/ManchesterIdeal.v ===== *)
(** * Noise-free windows decode to the bits they were encoded from

    The decoder of [Manchester] on a window whose sample bytes are those of an
    undisturbed frame: eight samples per bit, four per half bit, the start bit
    first and an idle line after the last bit. *)

From S2P Require Import Prelude HalfBits Manchester.

Module ManchesterIdeal.
Import HalfBits Manchester.

(** The eight samples of one bit: a one is four low samples, then four high. *)
Definition bit_byte (one : bool) : Z := if one then 15 else 240.

(** The bytes of an undisturbed frame: start bit, data bits, idle line. *)
Definition ideal_bytes (bits : list bool) : list Z := 15 :: map bit_byte bits ++ [255; 255].

Definition ideal_window (w : SampleWindow) (bits : list bool) : Prop :=
  (forall i x, ideal_bytes bits !! i = Some x -> byte w (Z.of_nat i) = Some x) /\
  8 * Z.of_nat (length bits + 2) <= w_bits w < 2 ^ 15.

(** ** What the decoder peeks *)

Lemma peek8_at w pos shift a b :
  0 <= pos < 2 ^ 12 -> 0 <= shift < 8 ->
  byte w pos = Some a -> byte w (pos + 1) = Some b ->
  peek8 w (8 * pos + shift) 0
  = (let s := wrap 8 (Z.lor (shl 16 a shift) (Z.shiftr b (8 - shift))) in (s, peek_stop s)).
Proof.
  intros Hpos Hsh Ha Hb. unfold peek8.
  rewrite (as_signed_small 16 (8 * pos + shift)), Z.add_0_r, as_signed_small by lia.
  destruct (Z.leb_spec 0 (8 * pos + shift)); [|lia].
  assert (Z.shiftr (8 * pos + shift) 3 = pos) as -> by (rewrite Z.shiftr_div_pow2 by lia; change (2 ^ 3) with 8; dlia).
  assert (Z.land (8 * pos + shift) 7 = shift) as ->.
  { change 7 with (Z.ones 3). rewrite Z.land_ones by lia. change (2 ^ 3) with 8. dlia. }
  assert (sat_add 16 pos 1 = pos + 1) as -> by (unfold sat_add, umax; lia).
  assert (wrapping_sub 16 8 shift = 8 - shift) as ->
    by (unfold wrapping_sub; apply wrap_id; unfold in_u; lia).
  now rewrite Ha, Hb.
Qed.

(** The decision at an aligned bit position, for every neighbourhood. *)
Lemma weighted_peek_ideal w k prev one next :
  0 <= k < 2 ^ 11 -> (prev = 15 \/ prev = 240) -> (next = 15 \/ next = 240 \/ next = 255) ->
  byte w k = Some prev -> byte w (k + 1) = Some (bit_byte one) -> byte w (k + 2) = Some next ->
  weighted_peek_around w (8 * (k + 1)) 0 = (24 + Z_of_bool one, 8, StopNone).
Proof.
  intros Hk Hprev Hnext Ha Hb Hc. unfold weighted_peek_around.
  assert (wrapping_sub 16 (8 * (k + 1)) 1 = 8 * k + 7) as ->
    by (unfold wrapping_sub; rewrite wrap_id by (unfold in_u; lia); lia).
  assert (sat_add 16 (8 * (k + 1)) 1 = 8 * (k + 1) + 1) as -> by (unfold sat_add, umax; lia).
  replace (k + 2) with (k + 1 + 1) in Hc by lia.
  rewrite <- (Z.add_0_r (8 * (k + 1))) at 1.
  rewrite (peek8_at w (k + 1) 0 (bit_byte one) next) by (lia || done).
  rewrite (peek8_at w k 7 prev (bit_byte one)) by (lia || done).
  rewrite (peek8_at w (k + 1) 1 (bit_byte one) next) by (lia || done).
  destruct one, Hprev as [-> | ->], Hnext as [-> | [-> | ->]]; vm_compute; reflexivity.
Qed.

Lemma weighted_peek_start w next :
  (next = 15 \/ next = 240 \/ next = 255) -> byte w 0 = Some 15 -> byte w 1 = Some next ->
  weighted_peek_around w 1 0 = (25, 7, StopNone).
Proof.
  intros Hnext Ha Hb. unfold weighted_peek_around.
  change (wrapping_sub 16 1 1) with (8 * 0 + 0). change (sat_add 16 1 1) with (8 * 0 + 2).
  change (peek8 w 1 0) with (peek8 w (8 * 0 + 1) 0).
  rewrite !(peek8_at w 0 _ 15 next) by (lia || done).
  destruct Hnext as [-> | [-> | ->]]; vm_compute; reflexivity.
Qed.

Lemma weighted_peek_idle w k prev :
  0 <= k < 2 ^ 11 -> byte w k = Some prev -> byte w (k + 1) = Some 255 -> byte w (k + 2) = Some 255 ->
  snd (weighted_peek_around w (8 * (k + 1)) 0) = StopIdle.
Proof.
  intros Hk Ha Hb Hc. unfold weighted_peek_around.
  assert (sat_add 16 (8 * (k + 1)) 1 = 8 * (k + 1) + 1) as -> by (unfold sat_add, umax; lia).
  replace (k + 2) with (k + 1 + 1) in Hc by lia.
  rewrite (peek8_at w (k + 1) 1 255 255) by (lia || done).
  change (let s := wrap 8 (Z.lor (shl 16 255 1) (Z.shiftr 255 (8 - 1))) in (s, peek_stop s))
    with (255, StopIdle).
  repeat destruct (peek8 _ _ _). repeat case_if; reflexivity.
Qed.

(** ** The decoding loop on an ideal window *)

(** The data array after the decoder has pushed [bits], the start bit first. *)
Fixpoint push_bits (data : list Z) (blen : Z) (bits : list bool) : list Z :=
  match bits with
  | [] => data
  | b :: bits => push_bits (push_decoded_bit data blen (24 + Z_of_bool b)) (blen + 1) bits
  end.

Lemma ideal_bytes_S bits k : ideal_bytes bits !! S k = (map bit_byte bits ++ [255; 255]) !! k.
Proof. reflexivity. Qed.

Lemma ideal_bytes_idle bits k : (k < 2)%nat -> ideal_bytes bits !! S (length bits + k) = Some 255.
Proof.
  intros Hk. rewrite ideal_bytes_S, lookup_app_r, length_map by (rewrite length_map; lia).
  replace (length bits + k - length bits)%nat with k by lia.
  destruct k as [|[|k]]; [done|done|lia].
Qed.

Lemma ideal_bytes_lookup_data bits k one :
  bits !! k = Some one -> ideal_bytes bits !! S k = Some (bit_byte one).
Proof. intros H. rewrite ideal_bytes_S. apply lookup_app_l_Some. now rewrite list_lookup_fmap, H. Qed.

Lemma ideal_bytes_lookup_any bits k :
  (k <= length bits)%nat -> exists x, ideal_bytes bits !! k = Some x /\ (x = 15 \/ x = 240).
Proof.
  intros Hk. destruct k as [|k]; [now exists 15; auto|].
  destruct (lookup_lt_is_Some_2 bits k) as [b Hb]; [lia|].
  exists (bit_byte b). split; [now apply ideal_bytes_lookup_data|]. destruct b; auto.
Qed.

Lemma ideal_bytes_lookup_next bits k :
  (k <= length bits + 2)%nat -> exists x, ideal_bytes bits !! k = Some x /\ (x = 15 \/ x = 240 \/ x = 255).
Proof.
  intros Hk. destruct (le_lt_dec k (length bits)) as [H|H].
  - destruct (ideal_bytes_lookup_any bits k H) as (x & Hx & Hc). exists x. split; [done|]. tauto.
  - exists 255. split; [|auto].
    rewrite <- (ideal_bytes_idle bits (k - S (length bits))) by lia. f_equal. lia.
Qed.

(** One bit decoded: the next state of the loop. *)
Definition after_bit (out : PhaseDecode) (one : bool) : PhaseDecode :=
  MkPhaseDecode (bit_len out + 1) (phase_ticks out) (sat_add 16 (score out) (24 + Z_of_bool one))
    (push_decoded_bit (pd_data out) (bit_len out) (24 + Z_of_bool one)).

Section Ideal.
Context (w : SampleWindow) (bits : list bool).
Hypothesis Hw : ideal_window w bits.
Hypothesis Hshort : (1 <= length bits <= 31)%nat.

(** The loop guard holds, and the length limit is not reached, up to the stop bits. *)
Lemma ideal_guard k out fuel :
  (k <= length bits)%nat -> bit_len out = Z.of_nat k + 1 ->
  decode_loop (S fuel) w MANCHESTER_RX_MAX_DECODED_BITS 0 (8 * (Z.of_nat k + 1)) out
  = let '(weightmax, pmax, stop) := weighted_peek_around w (8 * (Z.of_nat k + 1)) 0 in
    match stop with
    | StopIdle => Some (drop_stop_bit out)
    | StopHeld => Some (failed 0)
    | StopNone =>
        decode_loop fuel w MANCHESTER_RX_MAX_DECODED_BITS 0 (sat_add 16 (8 * (Z.of_nat k + 1)) pmax)
          (MkPhaseDecode (sat_add 8 (bit_len out) 1) (phase_ticks out) (sat_add 16 (score out) weightmax)
            (push_decoded_bit (pd_data out) (bit_len out) weightmax))
    end.
Proof.
  intros Hk Hout. destruct Hw as [_ Hbits]. cbn [decode_loop].
  assert (sat_add 16 (8 * (Z.of_nat k + 1)) 1 = 8 * (Z.of_nat k + 1) + 1) as -> by (unfold sat_add, umax; lia).
  destruct (Z.ltb_spec (8 * (Z.of_nat k + 1) + 1) (w_bits w)); [|lia].
  unfold MANCHESTER_RX_MAX_DECODED_BITS. destruct (Z.ltb_spec 32 (bit_len out)); [lia|].
  reflexivity.
Qed.

Lemma ideal_step k one out fuel :
  bits !! k = Some one -> bit_len out = Z.of_nat k + 1 ->
  decode_loop (S fuel) w MANCHESTER_RX_MAX_DECODED_BITS 0 (8 * (Z.of_nat k + 1)) out
  = decode_loop fuel w MANCHESTER_RX_MAX_DECODED_BITS 0 (8 * (Z.of_nat (S k) + 1)) (after_bit out one).
Proof.
  intros Hone Hout. pose proof (lookup_lt_Some _ _ _ Hone) as Hk. destruct Hw as [Hbyte Hbits].
  rewrite ideal_guard by (done || lia).
  destruct (ideal_bytes_lookup_any bits k ltac:(lia)) as (prev & Hprev & Hpc).
  destruct (ideal_bytes_lookup_next bits (S (S k)) ltac:(lia)) as (next & Hnext & Hnc).
  apply ideal_bytes_lookup_data in Hone. apply Hbyte in Hprev, Hnext, Hone.
  rewrite (weighted_peek_ideal w (Z.of_nat k) prev one next)
    by (auto; (lia || (rewrite <- Hone; f_equal; lia) || (rewrite <- Hnext; f_equal; lia))).
  unfold after_bit. do 2 f_equal; unfold sat_add, umax; lia.
Qed.

Lemma ideal_end out fuel :
  bit_len out = Z.of_nat (length bits) + 1 ->
  decode_loop (S fuel) w MANCHESTER_RX_MAX_DECODED_BITS 0 (8 * (Z.of_nat (length bits) + 1)) out
  = Some (drop_stop_bit out).
Proof.
  intros Hout. destruct Hw as [Hbyte Hbits]. rewrite ideal_guard by (done || lia).
  destruct (ideal_bytes_lookup_any bits (length bits) ltac:(lia)) as (prev & Hprev & _).
  pose proof (ideal_bytes_idle bits 0 ltac:(lia)) as H1.
  pose proof (ideal_bytes_idle bits 1 ltac:(lia)) as H2. apply Hbyte in Hprev, H1, H2.
  pose proof (weighted_peek_idle w (Z.of_nat (length bits)) prev ltac:(lia) Hprev
    ltac:(rewrite <- H1; f_equal; lia) ltac:(rewrite <- H2; f_equal; lia)) as Hidle.
  destruct (weighted_peek_around w _ 0) as [[wm pm] stop]. cbn in Hidle. now subst stop.
Qed.

Lemma ideal_loop rem pre out fuel :
  bits = pre ++ rem -> (length rem < fuel)%nat -> bit_len out = Z.of_nat (length pre) + 1 ->
  exists sc, decode_loop fuel w MANCHESTER_RX_MAX_DECODED_BITS 0 (8 * (Z.of_nat (length pre) + 1)) out
    = Some (MkPhaseDecode (Z.of_nat (length bits)) (phase_ticks out) sc
              (push_bits (pd_data out) (bit_len out) rem)).
Proof.
  revert pre out fuel. induction rem as [|one rem IH]; intros pre out fuel Hsplit Hfuel Hout;
    (destruct fuel as [|fuel]; [cbn in Hfuel; lia|]).
  - rewrite app_nil_r in Hsplit. subst pre. rewrite ideal_end by done.
    exists (score out). destruct out as [bl ph sc da]. cbn [bit_len] in Hout. subst bl.
    unfold drop_stop_bit. cbn [bit_len]. case_if; [|lia]. cbn. repeat f_equal. unfold sat_sub. lia.
  - rewrite (ideal_step (length pre) one) by (done || (rewrite Hsplit; now apply list_lookup_middle)).
    destruct (IH (pre ++ [one]) (after_bit out one) fuel) as [sc Hsc].
    + now rewrite <- app_assoc.
    + cbn in Hfuel. lia.
    + rewrite length_app. cbn. lia.
    + exists sc. rewrite length_app, Nat.add_1_r in Hsc. exact Hsc.
Qed.

(** An undisturbed frame of at most 31 bits decodes, at phase zero, to its bits. *)
Lemma decode_phase_ideal :
  exists sc, decode_phase w MANCHESTER_RX_MAX_DECODED_BITS 0
    = MkPhaseDecode (Z.of_nat (length bits)) 0 sc (push_bits (replicate 8 0) 1 bits).
Proof.
  destruct Hw as [Hbyte Hbits]. unfold decode_phase.
  destruct (ideal_bytes_lookup_next bits 1 ltac:(lia)) as (next & Hnext & Hnc).
  assert (ideal_bytes bits !! 0%nat = Some 15) as H0 by reflexivity. apply Hbyte in H0, Hnext.
  remember (Z.to_nat (w_bits w)) as fuel eqn:Hf.
  cbn [decode_loop]. change (sat_add 16 1 1) with 2.
  destruct (Z.ltb_spec 2 (w_bits w)); [|lia].
  change (MANCHESTER_RX_MAX_DECODED_BITS <? bit_len (failed 0)) with false. cbn iota.
  rewrite (weighted_peek_start w next) by done.
  change (sat_add 16 1 7) with (8 * (Z.of_nat (length (@nil bool)) + 1)).
  set (out := MkPhaseDecode 1 0 25 (replicate 8 0)).
  destruct (ideal_loop bits [] out fuel eq_refl ltac:(lia) eq_refl) as [sc Hsc].
  exists sc. unfold out in Hsc. cbn [phase_ticks pd_data bit_len] in Hsc.
  cbv beta iota zeta.
  match goal with |- default _ (decode_loop _ _ _ _ _ ?o) = _ => change o with out end.
  unfold out. rewrite Hsc. reflexivity.
Qed.
End Ideal.

(** ** The decoded bytes *)

Definition bits_value (bits : list bool) : Z := foldl (fun a b => 2 * a + Z_of_bool b) 0 bits.

Lemma bits_value_snoc bits b : bits_value (bits ++ [b]) = 2 * bits_value bits + Z_of_bool b.
Proof. unfold bits_value. now rewrite foldl_app. Qed.

Lemma bits_value_range bits : 0 <= bits_value bits < 2 ^ Z.of_nat (length bits).
Proof.
  induction bits as [|b bits IH] using rev_ind; [easy|].
  rewrite bits_value_snoc, length_app, Nat2Z.inj_add. cbn [length].
  change (Z.of_nat 1) with 1. rewrite Z.pow_add_r by lia. destruct b; cbn [Z_of_bool]; lia.
Qed.

Lemma push_bits_app data l b1 b2 :
  push_bits data l (b1 ++ b2) = push_bits (push_bits data l b1) (l + Z.of_nat (length b1)) b2.
Proof.
  revert data l. induction b1 as [|b b1 IH]; intros data l; cbn [push_bits app length].
  - f_equal. lia.
  - rewrite IH. f_equal. lia.
Qed.

Lemma push_bit_value v b : 0 <= v < 128 ->
  Z.lor (shl 8 v 1) (Z.land (24 + Z_of_bool b) 1) = 2 * v + Z_of_bool b.
Proof.
  intros Hv. assert (in_u 7 v) as Hu by (unfold in_u; lia). clear Hv. revert v Hu.
  destruct b; by_evaluation.
Qed.

(** Pushing the first [j] bits of byte [q] leaves their value there. *)
Lemma push_bits_byte data q bits :
  length data = 8%nat -> (q < 8)%nat -> (1 <= length bits <= 8)%nat ->
  push_bits data (8 * Z.of_nat q + 1) bits = <[q := bits_value bits]> data.
Proof.
  intros Hd Hq. induction bits as [|b bits IH] using rev_ind; intros Hb; [cbn in Hb; lia|].
  rewrite push_bits_app, bits_value_snoc. rewrite length_app in Hb. cbn [length] in Hb.
  set (j := length bits) in *. cbn [push_bits]. unfold push_decoded_bit.
  destruct (Z.eqb_spec (8 * Z.of_nat q + 1 + Z.of_nat j) 0); [lia|].
  assert (wrapping_sub 8 (8 * Z.of_nat q + 1 + Z.of_nat j) 1 = 8 * Z.of_nat q + Z.of_nat j) as ->
    by (unfold wrapping_sub; rewrite wrap_id by (unfold in_u; lia); lia).
  assert (Z.shiftr (8 * Z.of_nat q + Z.of_nat j) 3 = Z.of_nat q) as ->
    by (rewrite Z.shiftr_div_pow2 by lia; change (2 ^ 3) with 8; dlia).
  assert (Z.land (8 * Z.of_nat q + Z.of_nat j) 7 = Z.of_nat j) as ->.
  { change 7 with (Z.ones 3). rewrite Z.land_ones by lia. change (2 ^ 3) with 8. dlia. }
  unfold aget, aset. rewrite Nat2Z.id.
  destruct (decide (j = 0%nat)) as [Hj|Hj].
  - destruct bits; [|discriminate]. cbn [push_bits].
    destruct (lookup_lt_is_Some_2 data q) as [x ->]; [lia|].
    rewrite Hj. change (Z.of_nat 0 =? 0) with true. f_equal. exact (push_bit_value 0 b ltac:(lia)).
  - rewrite IH by lia. rewrite list_lookup_insert_eq by lia.
    destruct (Z.eqb_spec (Z.of_nat j) 0); [lia|].
    rewrite list_insert_insert_eq. f_equal. apply push_bit_value.
    pose proof (bits_value_range bits) as Hr. fold j in Hr.
    assert (2 ^ Z.of_nat j <= 2 ^ 7) by (apply Z.pow_le_mono_r; lia). lia.
Qed.

Lemma data_bits_app d m n :
  data_bits d (m + n) = data_bits (Z.shiftr d (Z.of_nat n)) m ++ data_bits d n.
Proof.
  induction m as [|m IH]; cbn [Nat.add]; [done|].
  rewrite !data_bits_S, IH. cbn [app]. f_equal. rewrite Z.shiftr_spec by lia. f_equal. lia.
Qed.

Lemma data_bits_byte v : in_u 8 v -> bits_value (data_bits v 8) = v.
Proof. revert v. by_evaluation. Qed.

Lemma data_bits_low d n : data_bits (wrap (Z.of_nat n) d) n = data_bits d n.
Proof.
  unfold data_bits. apply map_ext_in. intros i Hi. apply in_rev, in_seq in Hi.
  rewrite testbit_wrap by lia. destruct (Z.ltb_spec (Z.of_nat i) (Z.of_nat n)); [done|lia].
Qed.

Lemma bits_value_byte d : bits_value (data_bits d 8) = wrap 8 d.
Proof. rewrite <- (data_bits_low d 8). apply data_bits_byte. apply wrap_range. lia. Qed.

(** The bytes decoded from an 8, 16 or 24-bit frame. *)
Lemma push_bits_8 d : push_bits (replicate 8 0) 1 (data_bits d 8) = wrap 8 d :: replicate 7 0.
Proof. rewrite (push_bits_byte _ 0), bits_value_byte by (rewrite ?length_data_bits; done || lia). done. Qed.

Lemma push_bits_16 d :
  push_bits (replicate 8 0) 1 (data_bits d 16) = wrap 8 (Z.shiftr d 8) :: wrap 8 d :: replicate 6 0.
Proof.
  change 16%nat with (8 + 8)%nat. rewrite data_bits_app, push_bits_app, push_bits_8, length_data_bits.
  rewrite (push_bits_byte _ 1), bits_value_byte by (rewrite ?length_data_bits; done || lia). done.
Qed.

Lemma push_bits_24 d :
  push_bits (replicate 8 0) 1 (data_bits d 24)
  = wrap 8 (Z.shiftr d 16) :: wrap 8 (Z.shiftr d 8) :: wrap 8 d :: replicate 5 0.
Proof.
  change 24%nat with (16 + 8)%nat. rewrite data_bits_app, push_bits_app, push_bits_16, length_data_bits.
  rewrite (push_bits_byte _ 2), bits_value_byte by (rewrite ?length_data_bits; done || lia).
  rewrite Z.shiftr_shiftr by lia. done.
Qed.

End ManchesterIdeal.
