(* ===== verification/PhyFsm.v ===== *)
(** * The bit-banged DALI PHY state machine

    Models [crates/dali2rust-dali-phy/src/fsm.rs]: [DaliBitbangPhy] and its
    104-microsecond [tick].  The HAL is the line itself: the level read by
    [hal.bus_is_high()] is an argument of [tick], and the level last set with
    [hal.bus_set_high()] / [bus_set_low()] is the field [hal_high]. *)

From S2P Require Import Prelude HalfBits Manchester.

Module PhyFsm.
Import HalfBits Manchester.

Definition MAX_RX_IDX : Z := DALI_RX_SAMPLE_BUF_LEN - 1.
Definition PHY_TICK_US : Z := 104.
Definition RX_IDLE_LINE_HIGH_TICKS : Z := 16.
Definition RX_START_DEBOUNCE_TICKS : Z := 2.
Definition TX_HALF_BIT_TICKS : Z := 4.
Definition LINE_HELD_TICKS : Z := 24.
Definition TX_ARM_LEAD_TICKS : Z := 3.
Definition COLLISION_BREAK_MIN_US : Z := 1200.

Definition ceil_ticks_for_window (min_us tick_us : Z) : Z := wrap 8 (div_ceil min_us tick_us).
Definition COLLISION_BREAK_TICKS : Z := ceil_ticks_for_window COLLISION_BREAK_MIN_US PHY_TICK_US.
Definition COLLISION_CHECK_TICK : Z := COLLISION_BREAK_TICKS + 2.
Definition BACKWARD_FRAME_HALF_BITS : Z := 22.

Inductive BusState := Idle | Rx | Tx | CollisionTx.
Inductive RxState := Empty | Receiving | Completed.
Inductive TxPollResult := PollOk | PollCollision | PollTransmitting | PollYielded.
Inductive CollisionPolicy := Auto | Off | On.

#[global] Instance BusState_eq_dec : EqDecision BusState.
Proof. solve_decision. Defined.
#[global] Instance RxState_eq_dec : EqDecision RxState.
Proof. solve_decision. Defined.
#[global] Instance CollisionPolicy_eq_dec : EqDecision CollisionPolicy.
Proof. solve_decision. Defined.

Definition settle_ticks_on_wire (pre_idle_ticks lead : Z) : Z := sat_add 16 pre_idle_ticks lead.

Definition restart_gate_for (release_to_edge_ticks : Z) : Z :=
  sat_sub release_to_edge_ticks (TX_ARM_LEAD_TICKS + 1).

Record RxCompletedEvent := MkRxCompletedEvent {
  samples : list Z;
  sample_count : Z;
  pre_idle_ticks : Z;
  rx_epoch : Z;
  rx_tick : Z;
  max_sample_gap_us : Z;
  timing_degraded : bool;
  sniff_seq : Z;
  isr_decode : IsrDecode }.

#[global] Instance eta_RxCompletedEvent : Eta RxCompletedEvent := fun e =>
  MkRxCompletedEvent (samples e) (sample_count e) (pre_idle_ticks e) (rx_epoch e) (rx_tick e)
    (max_sample_gap_us e) (timing_degraded e) (sniff_seq e) (isr_decode e).

Definition rx_event_new : RxCompletedEvent :=
  MkRxCompletedEvent (replicate 64 0) 0 0 0 0 0 false 0 NotDecoded.

Record DaliBitbangPhy := MkPhy {
  hal_high : bool;
  tx_busy : bool;
  bus_state : BusState;
  idlecnt : Z;
  high_run_ticks : Z;
  rx_state : RxState;
  rx_data : list Z;
  rx_pos : Z;
  rx_byte : Z;
  rx_bit_cnt : Z;
  rx_idle : Z;
  rx_debounce : Z;
  low_run_ticks : Z;
  tx_hb_data : list Z;
  tx_hb_len : Z;
  tx_hb_cnt : Z;
  tx_sp_cnt : Z;
  tx_high : Z;
  tx_collision : Z;
  tx_idle_after_break : bool;
  tx_armed : Z;
  tx_yielded : bool;
  tx_answer : bool;
  rx_pre_idle : Z;
  tx_pre_idle : Z;
  collision_policy : CollisionPolicy;
  last_rx : RxCompletedEvent }.

#[global] Instance eta_DaliBitbangPhy : Eta DaliBitbangPhy := fun s =>
  MkPhy (hal_high s) (tx_busy s) (bus_state s) (idlecnt s) (high_run_ticks s) (rx_state s) (rx_data s)
    (rx_pos s) (rx_byte s) (rx_bit_cnt s) (rx_idle s) (rx_debounce s) (low_run_ticks s) (tx_hb_data s)
    (tx_hb_len s) (tx_hb_cnt s) (tx_sp_cnt s) (tx_high s) (tx_collision s) (tx_idle_after_break s)
    (tx_armed s) (tx_yielded s) (tx_answer s) (rx_pre_idle s) (tx_pre_idle s) (collision_policy s)
    (last_rx s).

Definition bus_set_high (s : DaliBitbangPhy) : DaliBitbangPhy := s <| hal_high := true |>.
Definition bus_set_low (s : DaliBitbangPhy) : DaliBitbangPhy := s <| hal_high := false |>.

Definition set_bus_idle (s : DaliBitbangPhy) : DaliBitbangPhy :=
  let s := bus_set_high s in
  let s := s <| idlecnt := high_run_ticks s |> in
  let s := s <| rx_debounce := 0 |> in
  let s := s <| bus_state := Idle |> in
  s <| tx_busy := false |>.

Definition phy_new : DaliBitbangPhy :=
  let s := MkPhy true false Idle 0 0 Empty (replicate 64 0) 0 0 0 0 0 0 (replicate 9 0) 0 0 0 0 0 false
             0 false false 0 0 Auto rx_event_new in
  set_bus_idle s <| rx_state := Empty |> <| tx_collision := 0 |>.

Definition set_collision_policy (s : DaliBitbangPhy) (p : CollisionPolicy) : DaliBitbangPhy :=
  s <| collision_policy := p |>.

Definition enter_rx (s : DaliBitbangPhy) : DaliBitbangPhy :=
  let s := s <| rx_pre_idle := if 255 <? idlecnt s then 255 else wrap 8 (idlecnt s) |> in
  let s := s <| rx_pos := 0 |> <| rx_bit_cnt := 0 |> <| rx_idle := 0 |> <| rx_byte := 0 |> in
  s <| rx_state := Receiving |> <| bus_state := Rx |>.

Definition finish_rx_and_notify (s : DaliBitbangPhy) : DaliBitbangPhy :=
  s <| last_rx := last_rx s <| sample_count := rx_pos s |>
                            <| samples := rx_data s |>
                            <| pre_idle_ticks := rx_pre_idle s |> |>.

(** [if rx_bit_cnt == 8]: the collected byte goes to the sample buffer. *)
Definition store_rx_byte (s : DaliBitbangPhy) : DaliBitbangPhy :=
  if rx_bit_cnt s =? 8 then
    let idx := Z.min (rx_pos s) MAX_RX_IDX in
    let s := s <| rx_data := aset (rx_data s) idx (rx_byte s) |> in
    let s := s <| rx_pos := sat_add 16 (rx_pos s) 1 |> in
    let s := if MAX_RX_IDX <? rx_pos s then s <| rx_pos := MAX_RX_IDX |> else s in
    s <| rx_bit_cnt := 0 |>
  else s.

Definition tick_rx (s : DaliBitbangPhy) (bus_is_high : bool) : DaliBitbangPhy :=
  let s := s <| rx_byte := Z.lor (shl 8 (rx_byte s) 1) (Z_of_bool bus_is_high) |> in
  let s := s <| rx_bit_cnt := wrapping_add 8 (rx_bit_cnt s) 1 |> in
  let s := store_rx_byte s in
  if bus_is_high then
    let s := s <| rx_idle := sat_add 8 (rx_idle s) 1 |> in
    if RX_IDLE_LINE_HIGH_TICKS <=? rx_idle s then
      let s := s <| rx_data := aset (rx_data s) (rx_pos s) 255 |> in
      let s := s <| rx_pos := sat_add 16 (rx_pos s) 1 |> in
      let s := s <| rx_state := Completed |> in
      finish_rx_and_notify (set_bus_idle s)
    else s
  else s <| rx_idle := 0 |>.

Definition tick_idle (s : DaliBitbangPhy) (bus_is_high : bool) : DaliBitbangPhy :=
  if bus_is_high then
    let s := s <| rx_debounce := 0 |> in
    if negb (idlecnt s =? 65535) then s <| idlecnt := wrapping_add 16 (idlecnt s) 1 |> else s
  else
    let s := s <| rx_debounce := sat_add 8 (rx_debounce s) 1 |> in
    if RX_START_DEBOUNCE_TICKS <=? rx_debounce s then
      let s := enter_rx s in
      Nat.iter (Z.to_nat (rx_debounce s)) (fun s => tick_rx s false) s
    else s.

Definition tick_tx_armed (s : DaliBitbangPhy) (bus_is_high : bool) : DaliBitbangPhy :=
  if negb bus_is_high && negb (tx_answer s) then
    let s := s <| tx_yielded := true |> <| tx_armed := 0 |> in
    tick_idle (set_bus_idle s) bus_is_high
  else s <| tx_armed := sat_sub (tx_armed s) 1 |>.

Definition tx_collision_detected (s : DaliBitbangPhy) (bus_is_high : bool) : bool :=
  let policy_ok :=
    bool_decide (collision_policy s = On)
    || (bool_decide (collision_policy s = Auto) && negb (tx_hb_len s =? BACKWARD_FRAME_HALF_BITS)) in
  policy_ok && negb (tx_high s =? 0) && negb bus_is_high && ((tx_sp_cnt s =? 1) || (tx_sp_cnt s =? 2)).

Definition enter_collision_tx (s : DaliBitbangPhy) : DaliBitbangPhy :=
  let s := if negb (tx_collision s =? 255)
           then s <| tx_collision := wrapping_add 8 (tx_collision s) 1 |> else s in
  s <| tx_sp_cnt := 0 |> <| tx_idle_after_break := false |> <| bus_state := CollisionTx |>.

Definition tick_tx (s : DaliBitbangPhy) (bus_is_high : bool) : DaliBitbangPhy :=
  if negb (tx_armed s =? 0) then tick_tx_armed s bus_is_high
  else if tx_hb_len s <=? tx_hb_cnt s then set_bus_idle s
  else if tx_collision_detected s bus_is_high then enter_collision_tx s
  else if tx_sp_cnt s =? 0 then
    match aget (tx_hb_data s) (Z.shiftr (tx_hb_cnt s) 3) with
    | None => set_bus_idle s
    | Some byte =>
        let bitmask := Z.shiftr 128 (Z.land (tx_hb_cnt s) 7) in
        let s := if negb (Z.land byte bitmask =? 0)
                 then bus_set_low s <| tx_high := 0 |>
                 else bus_set_high s <| tx_high := 1 |> in
        let s := s <| tx_hb_cnt := wrapping_add 8 (tx_hb_cnt s) 1 |> in
        let s := s <| tx_sp_cnt := 4 |> in
        s <| tx_sp_cnt := sat_sub (tx_sp_cnt s) 1 |>
    end
  else s <| tx_sp_cnt := sat_sub (tx_sp_cnt s) 1 |>.

Definition tick_collision_tx (s : DaliBitbangPhy) (bus_is_high : bool) : DaliBitbangPhy :=
  let s := s <| tx_sp_cnt := wrapping_add 8 (tx_sp_cnt s) 1 |> in
  if tx_sp_cnt s <=? COLLISION_BREAK_TICKS then bus_set_low s
  else
    let s := bus_set_high s in
    if tx_sp_cnt s <? COLLISION_CHECK_TICK then s
    else
      let s := s <| tx_idle_after_break := bus_is_high |> in
      let s := set_bus_idle s in
      if bus_is_high then s else tick_idle s bus_is_high.

Definition tick (s : DaliBitbangPhy) (bus_is_high : bool) : DaliBitbangPhy :=
  let s := s <| low_run_ticks := if bus_is_high then 0 else sat_add 16 (low_run_ticks s) 1 |> in
  let s := s <| high_run_ticks := if bus_is_high then sat_add 16 (high_run_ticks s) 1 else 0 |> in
  match bus_state s with
  | Idle => tick_idle s bus_is_high
  | Rx => tick_rx s bus_is_high
  | Tx => tick_tx s bus_is_high
  | CollisionTx => tick_collision_tx s bus_is_high
  end.

(** [start_tx], [start_answer] and [load_tx] return whether the frame was accepted. *)
Definition load_tx (s : DaliBitbangPhy) (halfbits : HalfBitBuffer) (answer : bool) : DaliBitbangPhy * bool :=
  if (hb_length halfbits =? 0) || (MAX_DATA_HALF_BITS <? hb_length halfbits) then (s, false)
  else
    let s := s <| tx_answer := answer |> <| tx_pre_idle := idlecnt s |>
               <| tx_hb_data := hb_data halfbits |> <| tx_hb_len := hb_length halfbits |>
               <| tx_hb_cnt := 0 |> <| tx_sp_cnt := 0 |> <| tx_collision := 0 |>
               <| tx_idle_after_break := false |> <| tx_yielded := false |>
               <| tx_armed := TX_ARM_LEAD_TICKS |> <| rx_state := Empty |> <| bus_state := Tx |>
               <| tx_busy := true |> in
    (s, true).

Definition start_tx (s : DaliBitbangPhy) (halfbits : HalfBitBuffer) : DaliBitbangPhy * bool :=
  if bool_decide (bus_state s = Idle) then load_tx s halfbits false else (s, false).

Definition start_answer (s : DaliBitbangPhy) (halfbits : HalfBitBuffer) : DaliBitbangPhy * bool :=
  match bus_state s with
  | Idle | Rx => load_tx s halfbits true
  | _ => (s, false)
  end.

Definition line_debouncing (s : DaliBitbangPhy) : bool := negb (rx_debounce s =? 0).

Definition poll_tx_state (s : DaliBitbangPhy) : DaliBitbangPhy * TxPollResult :=
  if tx_yielded s then (s <| tx_yielded := false |>, PollYielded)
  else if negb (tx_collision s =? 0) then (s <| tx_collision := 0 |>, PollCollision)
  else if bool_decide (bus_state s = Tx) then (s, PollTransmitting)
  else (s, PollOk).

Definition take_idle_after_break (s : DaliBitbangPhy) : DaliBitbangPhy * bool :=
  let idle := tx_idle_after_break s in
  (s <| tx_idle_after_break := false |>, idle).

Definition acknowledge_rx_frame (s : DaliBitbangPhy) : DaliBitbangPhy :=
  if bool_decide (rx_state s = Completed) then s <| rx_state := Empty |> else s.

Definition take_completed_rx_event (s : DaliBitbangPhy) : DaliBitbangPhy * option RxCompletedEvent :=
  if negb (bool_decide (rx_state s = Completed)) then (s, None)
  else let ev := last_rx s in (acknowledge_rx_frame s, Some ev).

(** ** The state invariant *)

Definition transmitting (b : BusState) : bool :=
  match b with Tx | CollisionTx => true | _ => false end.

(** Machine ranges of every counter, array sizes, and the two facts the rest of
    the line relies on: [tx_busy] mirrors the bus state, and outside a
    transmission the line driver is released. *)
Record phy_wf (s : DaliBitbangPhy) : Prop := {
  wf_rx_data : length (rx_data s) = 64%nat;
  wf_rx_bytes : Forall (in_u 8) (rx_data s);
  wf_tx_data : length (tx_hb_data s) = 9%nat;
  wf_rx_pos : 0 <= rx_pos s <= 64 /\ (bus_state s = Rx -> rx_pos s <= 63);
  wf_rx_bit_cnt : 0 <= rx_bit_cnt s < 8;
  wf_rx_byte : in_u 8 (rx_byte s);
  wf_rx_idle : 0 <= rx_idle s <= 16 /\ (bus_state s = Rx -> rx_idle s < 16);
  wf_rx_debounce : 0 <= rx_debounce s <= 2 /\ (bus_state s = Idle -> rx_debounce s < 2);
  wf_counters : in_u 16 (idlecnt s) /\ in_u 16 (high_run_ticks s) /\ in_u 16 (low_run_ticks s);
  wf_tx_len : 0 <= tx_hb_cnt s <= tx_hb_len s /\ tx_hb_len s <= 72;
  wf_tx_sp : 0 <= tx_sp_cnt s <= 14 /\ (bus_state s = Tx -> tx_sp_cnt s <= 3)
             /\ (bus_state s = CollisionTx -> tx_sp_cnt s <= 13);
  wf_tx_armed : 0 <= tx_armed s <= 3;
  wf_tx_collision : in_u 8 (tx_collision s);
  wf_rx_pre_idle : in_u 8 (rx_pre_idle s);
  wf_tx_busy : tx_busy s = transmitting (bus_state s);
  wf_released : hal_high s = false -> transmitting (bus_state s) = true;
  wf_last_rx : length (samples (last_rx s)) = 64%nat /\ 0 <= sample_count (last_rx s) <= 64;
  wf_completed : rx_state s = Completed -> bus_state s = Idle
}.

Definition hb_wf (b : HalfBitBuffer) : Prop := length (hb_data b) = 9%nat /\ in_u 8 (hb_length b).

Ltac phy_consts :=
  unfold MAX_RX_IDX, DALI_RX_SAMPLE_BUF_LEN, RX_IDLE_LINE_HIGH_TICKS, RX_START_DEBOUNCE_TICKS,
    TX_ARM_LEAD_TICKS, MAX_DATA_HALF_BITS in *;
  change COLLISION_CHECK_TICK with 14 in *; change COLLISION_BREAK_TICKS with 12 in *.

Ltac wf_solve :=
  cbn in *;
  repeat match goal with
  | H : _ /\ _ |- _ => destruct H
  | H : ?x = ?x -> _ |- _ => specialize (H eq_refl)
  | |- _ /\ _ => split
  end; intros;
  repeat match goal with
  | H : rx_state ?s = Completed -> _, H' : rx_state ?s = Completed |- _ => specialize (H H')
  end;
  first [ assumption | discriminate | congruence | tauto
        | solve [rewrite ?length_aset; assumption]
        | solve [apply Forall_aset; [assumption|easy || assumption]]
        | phy_consts; munfold; (lia || dlia) | idtac ].

Lemma phy_wf_new : phy_wf phy_new.
Proof. split; wf_solve; repeat constructor; easy. Qed.

Lemma set_bus_idle_wf s : phy_wf s -> phy_wf (set_bus_idle s).
Proof. intros []. split; wf_solve. Qed.

Lemma enter_rx_wf s :
  phy_wf (s <| rx_debounce := 0 |>) -> 0 <= rx_debounce s <= 2 -> bus_state s = Idle ->
  phy_wf (enter_rx s).
Proof.
  intros [] Hd Hidle. cbn in *. rewrite Hidle in *. cbn in *.
  split; unfold enter_rx; cbn; cases_if; wf_solve.
Qed.

Lemma store_rx_byte_wf s :
  phy_wf (s <| rx_bit_cnt := 0 |>) -> 0 <= rx_bit_cnt s <= 8 -> bus_state s = Rx -> phy_wf (store_rx_byte s).
Proof.
  intros [] Hc Hrx. unfold store_rx_byte. cbn in *. rewrite Hrx in *.
  destruct (Z.eqb_spec (rx_bit_cnt s) 8).
  - cbn. case_if; split; cbn; rewrite ?Hrx; wf_solve; auto with oxi.
  - split; cbn; rewrite ?Hrx; wf_solve.
Qed.

Lemma tick_rx_wf s b : phy_wf s -> bus_state s = Rx -> phy_wf (tick_rx s b).
Proof.
  intros Hs Hrx. unfold tick_rx.
  set (s1 := s <| rx_byte := _ |> <| rx_bit_cnt := _ |>).
  assert (phy_wf (store_rx_byte s1)) as H2.
  { destruct Hs. rewrite Hrx in *. subst s1. apply store_rx_byte_wf; [|wf_solve|done].
    split; cbn; rewrite ?Hrx; wf_solve.
    apply in_u_lor; [lia|apply wrap_range; lia|destruct b; easy]. }
  assert (bus_state (store_rx_byte s1) = Rx) as Hrx2
    by (unfold store_rx_byte; subst s1; cbn; cases_if; done).
  assert (0 <= rx_idle (store_rx_byte s1) < 16) as Hidle.
  { destruct H2. rewrite Hrx2 in *. destruct wf_rx_idle0. auto with lia. }
  generalize dependent (store_rx_byte s1). clear. intros s Hs Hrx Hidle.
  destruct b.
  - case_if.
    + unfold finish_rx_and_notify, set_bus_idle, bus_set_high. destruct Hs. rewrite Hrx in *.
      split; wf_solve; auto with oxi.
    + destruct Hs. rewrite Hrx in *. cbn in *. split; cbn; rewrite ?Hrx; wf_solve.
  - destruct Hs. rewrite Hrx in *. cbn in *. split; cbn; rewrite ?Hrx; wf_solve.
Qed.

Lemma tick_rx_low_rx s : bus_state s = Rx -> bus_state (tick_rx s false) = Rx.
Proof. intros. unfold tick_rx, store_rx_byte. cbn. cases_if; done. Qed.

Lemma tick_rx_low_iter_wf n s :
  phy_wf s -> bus_state s = Rx -> phy_wf (Nat.iter n (fun s => tick_rx s false) s).
Proof.
  intros Hs Hrx. assert (phy_wf (Nat.iter n (fun s => tick_rx s false) s)
    /\ bus_state (Nat.iter n (fun s => tick_rx s false) s) = Rx) as [? _]; [|done].
  induction n as [|n [IH1 IH2]]; [done|]. rewrite Nat.iter_succ. auto using tick_rx_wf, tick_rx_low_rx.
Qed.

Lemma tick_idle_wf s b : phy_wf s -> bus_state s = Idle -> phy_wf (tick_idle s b).
Proof.
  intros Hs Hidle. unfold tick_idle. destruct b.
  - destruct Hs. rewrite Hidle in *. case_if; split; cbn; rewrite ?Hidle; wf_solve.
  - cbn [rx_debounce set_field]. destruct Hs. rewrite Hidle in *. case_if.
    + apply tick_rx_low_iter_wf; [|done].
      apply enter_rx_wf; [|wf_solve|done]. split; cbn; rewrite ?Hidle; wf_solve.
    + split; cbn; rewrite ?Hidle; wf_solve.
Qed.

Lemma tick_tx_wf s b : phy_wf s -> bus_state s = Tx -> phy_wf (tick_tx s b).
Proof.
  intros Hs Htx. unfold tick_tx. case_if; [|case_if; [|case_if; [|case_if]]].
  - unfold tick_tx_armed. case_if.
    + apply tick_idle_wf; [|done]. apply set_bus_idle_wf. destruct Hs. split; wf_solve.
    + destruct Hs. rewrite Htx in *. split; cbn; rewrite ?Htx; wf_solve.
  - now apply set_bus_idle_wf.
  - unfold enter_collision_tx. destruct Hs. rewrite Htx in *.
    case_if; split; cbn; rewrite ?Htx; wf_solve.
  - destruct (aget _ _); [|now apply set_bus_idle_wf]. destruct Hs. rewrite Htx in *.
    case_if; split; cbn; rewrite ?Htx; wf_solve.
  - destruct Hs. rewrite Htx in *. split; cbn; rewrite ?Htx; wf_solve.
Qed.

Lemma tick_collision_tx_wf s b : phy_wf s -> bus_state s = CollisionTx -> phy_wf (tick_collision_tx s b).
Proof.
  intros Hs Hc. unfold tick_collision_tx. cbn [tx_sp_cnt set_field].
  assert (wrapping_add 8 (tx_sp_cnt s) 1 = tx_sp_cnt s + 1) as E.
  { destruct Hs as []. unfold wrapping_add. apply wrap_id. unfold in_u. lia. }
  rewrite E. case_if; [|cbn [tx_sp_cnt set_field bus_set_high]; case_if].
  - destruct Hs. rewrite Hc in *. split; cbn; rewrite ?Hc; wf_solve.
  - destruct Hs. rewrite Hc in *. split; cbn; rewrite ?Hc; wf_solve.
  - assert (phy_wf (set_bus_idle (bus_set_high (s <| tx_sp_cnt := tx_sp_cnt s + 1 |>)
      <| tx_idle_after_break := b |>))) as Hs1.
    { destruct Hs. rewrite Hc in *. split; wf_solve. }
    destruct b; [done|]. now apply tick_idle_wf.
Qed.

Lemma tick_wf s b : phy_wf s -> phy_wf (tick s b).
Proof.
  intros Hs. unfold tick. set (s1 := s <| low_run_ticks := _ |> <| high_run_ticks := _ |>).
  assert (phy_wf s1) as H1 by (destruct Hs; subst s1; split; destruct b; wf_solve).
  destruct (bus_state s1) eqn:E;
    auto using tick_idle_wf, tick_rx_wf, tick_tx_wf, tick_collision_tx_wf.
Qed.

(** ** The operations of the PHY and the states they reach *)

Inductive phy_op :=
  | OpTick (bus_is_high : bool)
  | OpStartTx (hb : HalfBitBuffer)
  | OpStartAnswer (hb : HalfBitBuffer)
  | OpPoll
  | OpTakeIdleAfterBreak
  | OpTakeRx
  | OpSetPolicy (p : CollisionPolicy).

Definition phy_do (s : DaliBitbangPhy) (op : phy_op) : DaliBitbangPhy :=
  match op with
  | OpTick b => tick s b
  | OpStartTx hb => fst (start_tx s hb)
  | OpStartAnswer hb => fst (start_answer s hb)
  | OpPoll => fst (poll_tx_state s)
  | OpTakeIdleAfterBreak => fst (take_idle_after_break s)
  | OpTakeRx => fst (take_completed_rx_event s)
  | OpSetPolicy p => set_collision_policy s p
  end.

Definition phy_op_ok (op : phy_op) : Prop :=
  match op with OpStartTx hb | OpStartAnswer hb => hb_wf hb | _ => True end.

Inductive phy_reachable : DaliBitbangPhy -> Prop :=
  | phy_reach_new : phy_reachable phy_new
  | phy_reach_step s op : phy_reachable s -> phy_op_ok op -> phy_reachable (phy_do s op).

Lemma load_tx_wf s hb a : phy_wf s -> transmitting (bus_state s) = false -> hb_wf hb -> phy_wf (fst (load_tx s hb a)).
Proof.
  intros [] Ht [? [? ?]]. unfold load_tx. case_if; [split; wf_solve|].
  split; wf_solve.
Qed.

Lemma phy_do_wf s op : phy_op_ok op -> phy_wf s -> phy_wf (phy_do s op).
Proof.
  intros Hop Hs. destruct op; cbn [phy_do phy_op_ok] in *.
  - now apply tick_wf.
  - unfold start_tx. case_bool_decide as E; [|done]. apply load_tx_wf; [done|now rewrite E|done].
  - unfold start_answer. destruct (bus_state s) eqn:E; try done; apply load_tx_wf; (done || now rewrite E).
  - unfold poll_tx_state. destruct Hs. repeat case_if; split; wf_solve.
  - unfold take_idle_after_break. destruct Hs. split; wf_solve.
  - unfold take_completed_rx_event, acknowledge_rx_frame. case_if; [done|]. cbn [fst].
    destruct Hs. case_if; split; wf_solve.
  - unfold set_collision_policy. destruct Hs. split; wf_solve.
Qed.

Lemma phy_reachable_wf_aux s : phy_reachable s -> phy_wf s.
Proof. induction 1; auto using phy_wf_new, phy_do_wf. Qed.

(** The PHY itself never fills in the decode of the interrupt handler. *)
Notation rx_decoded s := (isr_decode (last_rx s)).

Lemma tick_rx_decoded s b : rx_decoded (tick_rx s b) = rx_decoded s.
Proof. unfold tick_rx, store_rx_byte. repeat (case_if; cbn); done. Qed.

Lemma tick_idle_decoded s b : rx_decoded (tick_idle s b) = rx_decoded s.
Proof.
  unfold tick_idle. destruct b; [case_if; done|]. case_if; [|done].
  apply (Nat.iter_invariant _ _ _ (fun s' => rx_decoded s' = rx_decoded s)); [|done].
  intros s' <-. apply tick_rx_decoded.
Qed.

Lemma tick_decoded s b : rx_decoded (tick s b) = rx_decoded s.
Proof.
  unfold tick. set (s1 := s <| low_run_ticks := _ |> <| high_run_ticks := _ |>).
  change (rx_decoded s) with (rx_decoded s1). clearbody s1. destruct (bus_state s1).
  - apply tick_idle_decoded.
  - apply tick_rx_decoded.
  - unfold tick_tx, tick_tx_armed, enter_collision_tx. repeat case_if; try done; [now rewrite tick_idle_decoded|].
    destruct (aget _ _); [case_if|]; done.
  - unfold tick_collision_tx. repeat case_if; try done.
Qed.

Lemma phy_do_decoded s op : rx_decoded (phy_do s op) = rx_decoded s.
Proof.
  destruct op; cbn [phy_do]; [apply tick_decoded|..];
    unfold start_tx, start_answer, load_tx, poll_tx_state, take_completed_rx_event, acknowledge_rx_frame;
    try (destruct (bus_state s)); repeat case_if; done.
Qed.

Lemma phy_reachable_not_decoded s : phy_reachable s -> rx_decoded s = NotDecoded.
Proof. induction 1 as [|s op _ IH]; [done|]. now rewrite phy_do_decoded. Qed.

(** ** A transmission ends, whatever happens on the line *)

Definition run_ticks (s : DaliBitbangPhy) (levels : list bool) : DaliBitbangPhy := foldl tick s levels.

(** Ticks left before a transmitting PHY releases the bus, at most. *)
Definition tx_left (s : DaliBitbangPhy) : Z :=
  match bus_state s with
  | Tx => 16 + tx_armed s + 4 * (tx_hb_len s - tx_hb_cnt s) + tx_sp_cnt s
  | CollisionTx => 14 - tx_sp_cnt s
  | _ => 0
  end.

Lemma tick_rx_not_tx s b : transmitting (bus_state s) = false -> transmitting (bus_state (tick_rx s b)) = false.
Proof. intros. unfold tick_rx, store_rx_byte. cbn. repeat (case_if; cbn); done. Qed.

Lemma tick_idle_not_tx s b : bus_state s = Idle -> transmitting (bus_state (tick_idle s b)) = false.
Proof.
  intros Hi. unfold tick_idle. destruct b; [case_if; cbn; now rewrite Hi|]. case_if; [|cbn; now rewrite Hi].
  apply (Nat.iter_invariant _ _ _ (fun s => transmitting (bus_state s) = false)); [|done].
  intros. now apply tick_rx_not_tx.
Qed.

Lemma tick_tx_decreases s b :
  phy_wf s -> bus_state s = Tx ->
  transmitting (bus_state (tick_tx s b)) = false \/ tx_left (tick_tx s b) < tx_left s.
Proof.
  intros [] E. unfold tick_tx, tx_left at 2. rewrite E. case_if; [|case_if; [|case_if; [|case_if]]].
  - unfold tick_tx_armed. case_if; [left; now apply tick_idle_not_tx|right].
    unfold tx_left. cbn. rewrite E. unfold sat_sub. lia.
  - now left.
  - right. unfold enter_collision_tx. case_if; unfold tx_left; cbn; lia.
  - destruct (aget _ _); [right|now left].
    case_if; unfold tx_left; cbn; rewrite E; unfold sat_sub, wrapping_add;
      rewrite wrap_id by (unfold in_u; lia); lia.
  - right. unfold tx_left. cbn. rewrite E. unfold sat_sub. lia.
Qed.

Lemma tick_collision_tx_decreases s b :
  phy_wf s -> bus_state s = CollisionTx ->
  transmitting (bus_state (tick_collision_tx s b)) = false \/ tx_left (tick_collision_tx s b) < tx_left s.
Proof.
  intros [] E. unfold tick_collision_tx, tx_left at 2. rewrite E. cbn [tx_sp_cnt set_field].
  assert (wrapping_add 8 (tx_sp_cnt s) 1 = tx_sp_cnt s + 1) as ->.
  { unfold wrapping_add. apply wrap_id. unfold in_u. lia. }
  case_if; [right; unfold tx_left; cbn; rewrite E; lia|]. cbn [tx_sp_cnt set_field bus_set_high].
  case_if; [right; unfold tx_left; cbn; rewrite E; lia|left]. destruct b; [done|]. now apply tick_idle_not_tx.
Qed.

(** The tick's bookkeeping before the dispatch on the bus state. *)
Definition tick_counters (s : DaliBitbangPhy) (b : bool) : DaliBitbangPhy :=
  s <| low_run_ticks := if b then 0 else sat_add 16 (low_run_ticks s) 1 |>
    <| high_run_ticks := if b then sat_add 16 (high_run_ticks s) 1 else 0 |>.

Lemma tick_dispatch s b :
  tick s b = match bus_state s with
             | Idle => tick_idle (tick_counters s b) b
             | Rx => tick_rx (tick_counters s b) b
             | Tx => tick_tx (tick_counters s b) b
             | CollisionTx => tick_collision_tx (tick_counters s b) b
             end.
Proof. reflexivity. Qed.

Lemma tick_counters_wf s b : phy_wf s -> phy_wf (tick_counters s b).
Proof. intros []. split; destruct b; wf_solve. Qed.

Lemma tx_left_decreases s b :
  phy_wf s -> transmitting (bus_state s) = true ->
  transmitting (bus_state (tick s b)) = false \/ tx_left (tick s b) < tx_left s.
Proof.
  intros Hs Ht. rewrite tick_dispatch. apply (tick_counters_wf s b) in Hs.
  change (tx_left s) with (tx_left (tick_counters s b)).
  change (bus_state s) with (bus_state (tick_counters s b)) in *.
  generalize dependent (tick_counters s b). clear s. intros s Hs Ht.
  destruct (bus_state s) eqn:E; try discriminate;
    auto using tick_tx_decreases, tick_collision_tx_decreases.
Qed.

Lemma tick_not_tx s b : transmitting (bus_state s) = false -> transmitting (bus_state (tick s b)) = false.
Proof.
  intros Ht. rewrite tick_dispatch. destruct (bus_state s) eqn:E; try discriminate.
  - now apply tick_idle_not_tx.
  - apply tick_rx_not_tx. cbn. now rewrite E.
Qed.

Lemma run_ticks_release levels s :
  phy_wf s -> tx_left s <= Z.of_nat (length levels) ->
  transmitting (bus_state (run_ticks s levels)) = false.
Proof.
  revert s. unfold run_ticks. induction levels as [|b levels IH]; intros s Hs Hl; cbn [foldl].
  - unfold tx_left in Hl. destruct Hs. destruct (bus_state s) eqn:E; [done|done| |]; exfalso; wf_solve.
  - destruct (transmitting (bus_state s)) eqn:Ht.
    + destruct (tx_left_decreases s b Hs Ht) as [H|H]; apply IH; auto using tick_wf; [|cbn in Hl; lia].
      unfold tx_left. destruct (bus_state (tick s b)); (discriminate || lia).
    + apply IH; [now apply tick_wf|]. apply (tick_not_tx s b) in Ht.
      unfold tx_left. destruct (bus_state (tick s b)); (discriminate || lia).
Qed.

(** C33: the PHY's invariant.  After any sequence of ticks, frames, answers,
    polls and reads, every counter is in its machine range and every index in
    its buffer, [tx_busy] says exactly whether a transmission is under way, and
    the PHY pulls the bus low only while it is transmitting. *)
Theorem phy_reachable_wf s (Hs : phy_reachable s) : phy_wf s.
Proof. now apply phy_reachable_wf_aux. Qed.

Lemma phy_reachable_wf_witness :
  let s := phy_do (phy_do phy_new (OpStartTx (encode_forward16_raw 0xFE80))) (OpTick true) in
  phy_reachable s /\ bus_state s = Tx /\ phy_wf s.
Proof.
  intros s. assert (phy_reachable s) as H.
  { apply phy_reach_step; [apply phy_reach_step; [apply phy_reach_new|split; [reflexivity|by vm_compute]]|exact I]. }
  split; [exact H|]. split; [reflexivity|]. exact (phy_reachable_wf s H).
Defined.

(** The longest transmission: arming, 72 half bits of four ticks, the release. *)
Definition TX_MAX_TICKS : Z := 310.

(** C32: no transmission hangs.  From any reachable state, whatever the line
    does and even across a collision, the PHY has released the bus after at
    most [TX_MAX_TICKS] ticks. *)
Theorem transmission_bounded s levels (Hs : phy_reachable s) (Hl : TX_MAX_TICKS <= Z.of_nat (length levels)) :
  transmitting (bus_state (run_ticks s levels)) = false /\
  tx_busy (run_ticks s levels) = false /\ hal_high (run_ticks s levels) = true.
Proof.
  pose proof (phy_reachable_wf_aux s Hs) as Hwf.
  assert (tx_left s <= TX_MAX_TICKS) as Hb.
  { destruct (wf_tx_sp s Hwf) as (H1 & H2 & _). pose proof (wf_tx_len s Hwf). pose proof (wf_tx_armed s Hwf).
    unfold tx_left, TX_MAX_TICKS. clear Hl Hs Hwf. destruct (bus_state s); [easy|easy|specialize (H2 eq_refl)|]; lia. }
  assert (transmitting (bus_state (run_ticks s levels)) = false) as Ht by (apply run_ticks_release; [done|lia]).
  assert (phy_wf (run_ticks s levels)) as [].
  { unfold run_ticks. clear - Hwf. revert s Hwf. induction levels; cbn; auto using tick_wf. }
  split; [done|]. split; [congruence|]. destruct (hal_high _); [done|]. now rewrite wf_released0 in Ht.
Qed.

Lemma transmission_bounded_witness :
  let s := phy_do phy_new (OpStartTx (encode_forward24_raw 1 2 3)) in
  phy_reachable s /\ bus_state s = Tx /\
  transmitting (bus_state (run_ticks s (replicate 310 true))) = false /\
  tx_busy (run_ticks s (replicate 310 true)) = false /\ hal_high (run_ticks s (replicate 310 true)) = true.
Proof.
  intros s. assert (phy_reachable s) as H.
  { apply phy_reach_step; [apply phy_reach_new|split; [reflexivity|by vm_compute]]. }
  split; [exact H|]. split; [reflexivity|]. apply (transmission_bounded s (replicate 310 true) H). by vm_compute.
Defined.

(** *** Collisions *)

(** [c] ticks into the break of a collision counted as the [n]th. *)
Definition breaking (c n : Z) (s : DaliBitbangPhy) : Prop :=
  bus_state s = CollisionTx /\ tx_sp_cnt s = c /\ tx_collision s = n /\ tx_yielded s = false /\
  (0 < c -> hal_high s = (COLLISION_BREAK_TICKS <? c)).

Lemma tick_breaking c n s b : 0 <= c < 13 -> breaking c n s -> breaking (c + 1) n (tick s b).
Proof.
  intros Hc (E1 & E2 & E3 & E4 & _). rewrite tick_dispatch, E1.
  unfold tick_collision_tx. cbn [tx_sp_cnt set_field tick_counters]. rewrite E2.
  assert (wrapping_add 8 c 1 = c + 1) as -> by (unfold wrapping_add; apply wrap_id; unfold in_u; lia).
  unfold breaking. change COLLISION_CHECK_TICK with 14. change COLLISION_BREAK_TICKS with 12.
  case_if; [cbn; split_and!; try done; lia|]. cbn [tx_sp_cnt set_field bus_set_high].
  case_if; [|lia]. cbn. split_and!; try done; lia.
Qed.

Lemma breaking_iter levels n s : breaking 0 n s -> (length levels <= 13)%nat ->
  breaking (Z.of_nat (length levels)) n (run_ticks s levels).
Proof.
  unfold run_ticks. induction levels as [|b levels IH] using rev_ind; intros Hs Hl; [done|].
  rewrite length_app in *. cbn [length] in *. rewrite foldl_app. cbn [foldl].
  replace (Z.of_nat (length levels + 1)) with (Z.of_nat (length levels) + 1) by lia.
  apply tick_breaking; [lia|]. apply IH; [done|lia].
Qed.

Definition collisions_after (n : Z) : Z := if negb (n =? 255) then wrapping_add 8 n 1 else n.

Lemma enter_collision_breaking s : tx_yielded s = false ->
  breaking 0 (collisions_after (tx_collision s)) (enter_collision_tx s).
Proof.
  intros Hy. unfold breaking, enter_collision_tx, collisions_after.
  destruct (negb (tx_collision s =? 255)); cbn; split_and!; done || lia.
Qed.

Lemma poll_collided s : tx_yielded s = false -> tx_collision s <> 0 ->
  snd (poll_tx_state s) = PollCollision /\ snd (poll_tx_state (fst (poll_tx_state s))) <> PollCollision.
Proof.
  intros Hy Hc. apply Z.eqb_neq in Hc. unfold poll_tx_state at 1 3. rewrite Hy, Hc. cbn [negb fst snd].
  split; [done|]. unfold poll_tx_state. cbn. rewrite Hy. case_if; done.
Qed.

(** The tick that ends the break. *)
Lemma tick_breaking_end n s b : breaking 13 n s ->
  let s' := tick s b in
  transmitting (bus_state s') = false /\ hal_high s' = true /\ tx_collision s' = n /\ tx_yielded s' = false.
Proof.
  intros (E1 & E2 & E3 & E4 & _). rewrite tick_dispatch, E1. unfold tick_collision_tx.
  cbn [tx_sp_cnt set_field tick_counters]. rewrite E2. destruct b; cbn; auto.
Qed.

Lemma tick_tx_collision s b :
  tx_armed s = 0 -> tx_hb_cnt s < tx_hb_len s -> tx_collision_detected s b = true -> tick_tx s b = enter_collision_tx s.
Proof.
  intros E1 E2 E3. unfold tick_tx. rewrite E1, E3. apply Z.leb_gt in E2. now rewrite E2.
Qed.

Definition collided (s : DaliBitbangPhy) (b : bool) : Prop :=
  bus_state s = Tx /\ tx_armed s = 0 /\ tx_hb_cnt s < tx_hb_len s /\ tx_collision_detected s b = true /\ tx_yielded s = false.

(** the collision break.  When a transmitter that released the line sees
    it low, it stops sending the frame and, whatever the line does, holds it
    low for exactly [COLLISION_BREAK_TICKS] ticks, at least the 1200
    microseconds of IEC 62386-101, then releases it; two ticks later the
    transmission is over and the next poll reports the collision, once. *)
Theorem collision_break_shape s b levels (Hs : phy_reachable s) (Hc : collided s b) (Hl : length levels = 14%nat) :
  let at_tick k := run_ticks (tick s b) (take k levels) in
  COLLISION_BREAK_MIN_US <= COLLISION_BREAK_TICKS * PHY_TICK_US /\
  (forall k, (k <= 13)%nat -> bus_state (at_tick k) = CollisionTx /\
     ((0 < k)%nat -> hal_high (at_tick k) = (COLLISION_BREAK_TICKS <? Z.of_nat k))) /\
  transmitting (bus_state (at_tick 14%nat)) = false /\ hal_high (at_tick 14%nat) = true /\
  snd (poll_tx_state (at_tick 14%nat)) = PollCollision /\
  snd (poll_tx_state (fst (poll_tx_state (at_tick 14%nat)))) <> PollCollision.
Proof.
  intros at_tick. destruct Hc as (E1 & E2 & E3 & E4 & E5).
  assert (collisions_after (tx_collision s) <> 0) as Hn.
  { pose proof (wf_tx_collision s (phy_reachable_wf_aux s Hs)). unfold collisions_after, in_u, wrapping_add in *.
    destruct (Z.eqb_spec (tx_collision s) 255); cbn [negb]; [lia|]. rewrite wrap_id by (unfold in_u; lia). lia. }
  assert (breaking 0 (collisions_after (tx_collision s)) (tick s b)) as Hb.
  { rewrite tick_dispatch, E1, (tick_tx_collision (tick_counters s b)) by assumption.
    now apply (enter_collision_breaking (tick_counters s b)). }
  generalize dependent (collisions_after (tx_collision s)). intros n Hn Hb.
  assert (forall k, (k <= 13)%nat -> breaking (Z.of_nat k) n (at_tick k)) as Hk.
  { intros k Hk. pose proof (breaking_iter (take k levels) n (tick s b) Hb) as H.
    rewrite length_take_le in H by lia. apply H. lia. }
  split; [by vm_compute|]. split.
  { intros k H. destruct (Hk k H) as (F1 & _ & _ & _ & F2). split; [done|]. intros. apply F2. lia. }
  destruct (lookup_lt_is_Some_2 levels 13) as [l Hlast]; [lia|].
  assert (at_tick 14%nat = tick (at_tick 13%nat) l) as ->.
  { unfold at_tick, run_ticks. rewrite (take_S_r _ _ _ Hlast), foldl_app. done. }
  destruct (tick_breaking_end n (at_tick 13%nat) l (Hk 13%nat ltac:(lia))) as (G1 & G2 & G3 & G4).
  split_and!; [done|done|apply poll_collided; congruence..].
Qed.

(** A forward frame whose first recessive half bit is pulled low by another device. *)
Lemma collision_break_shape_witness :
  let s := run_ticks (phy_do phy_new (OpStartTx (encode_forward16_raw 0xFE80))) (replicate 3 true ++ [true; false; false; false; false; true]) in
  let at_tick k := run_ticks (tick s false) (take k (replicate 14 true)) in
  collided s false /\
  COLLISION_BREAK_MIN_US <= COLLISION_BREAK_TICKS * PHY_TICK_US /\
  (forall k, (k <= 13)%nat -> bus_state (at_tick k) = CollisionTx /\
     ((0 < k)%nat -> hal_high (at_tick k) = (COLLISION_BREAK_TICKS <? Z.of_nat k))) /\
  transmitting (bus_state (at_tick 14%nat)) = false /\ hal_high (at_tick 14%nat) = true /\
  snd (poll_tx_state (at_tick 14%nat)) = PollCollision /\
  snd (poll_tx_state (fst (poll_tx_state (at_tick 14%nat)))) <> PollCollision.
Proof.
  intros s at_tick. assert (phy_reachable s) as Hs.
  { unfold s, run_ticks. cbn [replicate app foldl].
    assert (forall s b, phy_reachable s -> phy_reachable (tick s b)) as Ht
      by (intros s' b H; exact (phy_reach_step s' (OpTick b) H I)).
    do 9 apply Ht. apply phy_reach_step; [apply phy_reach_new|split; [reflexivity|by vm_compute]]. }
  assert (collided s false) as Hc by (unfold collided; split_and!; by vm_compute).
  split; [exact Hc|]. exact (collision_break_shape s false (replicate 14 true) Hs Hc eq_refl).
Defined.

End PhyFsm.
