(* ===== verification/RxDecode.v ===== *)
(** * From a completed capture to a frame

    Models [crates/dali2rust-dali-codec/src/rx_decode.rs]: the backward-byte
    decoder, the sniffer's frame classification and the held-line test. *)

From S2P Require Import Prelude HalfBits Manchester ManchesterIdeal PhyFsm.

Module RxDecode.
Import HalfBits Manchester ManchesterIdeal PhyFsm.

Inductive SniffedFrame :=
  | Forward16 (raw : Z)
  | Backward8 (value : Z)
  | Forward24 (b0 b1 b2 : Z)
  | UnsupportedLength (len : Z)
  | DecodeFailed.

Record SniffedDecode := MkSniffedDecode {
  sd_frame : SniffedFrame; sd_phase_ticks : Z; sd_score : Z }.

Definition BACKWARD_FRAME_BIT_LENGTHS : BitLengths := BitLengths_of [8].

Definition try_decode (ev : RxCompletedEvent) (pref : BitLengths) : option PhaseDecode :=
  run (search_new pref) (of_capture (samples ev) (sample_count ev)).

(** [out[i]] on the decoder's eight-byte array. *)
Definition out_byte (out : list Z) (i : nat) : Z := nth i out 0.

Definition sniffed_from_decoded (dlen : Z) (out : list Z) : SniffedFrame :=
  if dlen =? 8 then Backward8 (out_byte out 0)
  else if dlen =? 16 then Forward16 (Z.lor (shl 16 (out_byte out 0) 8) (out_byte out 1))
  else if dlen =? 24 then Forward24 (out_byte out 0) (out_byte out 1) (out_byte out 2)
  else UnsupportedLength dlen.

Definition decode_backward_byte (ev : RxCompletedEvent) : option Z :=
  match try_decode ev BACKWARD_FRAME_BIT_LENGTHS with
  | None => None
  | Some result => if bit_len result =? 8 then Some (out_byte (pd_data result) 0) else None
  end.

Definition decode_sniffed_with_phase (ev : RxCompletedEvent) : SniffedDecode :=
  let found := match isr_decode ev with
               | Decoded found => found
               | NotDecoded => try_decode ev SNIFFED_BIT_LENGTHS
               end in
  match found with
  | None => MkSniffedDecode DecodeFailed 0 0
  | Some result =>
      MkSniffedDecode (sniffed_from_decoded (bit_len result) (pd_data result))
        (phase_ticks result) (score result)
  end.

Definition decode_sniffed (ev : RxCompletedEvent) : SniffedFrame := sd_frame (decode_sniffed_with_phase ev).

(** The (best, run) pair of the scan over the samples, most significant bit first. *)
Definition run_step (acc : Z * Z) (high : bool) : Z * Z :=
  let '(best, run) := acc in
  if high then (best, 0)
  else let run := sat_add 16 run 1 in (if best <? run then run else best, run).

Definition sample_levels (byte : Z) : list bool :=
  map (fun shift => negb (Z.land (Z.shiftr byte shift) 1 =? 0)) [7; 6; 5; 4; 3; 2; 1; 0].

Definition longest_dominant_run_ticks (ev : RxCompletedEvent) : Z :=
  let n := Z.min (sample_count ev) 64 in
  fst (foldl run_step (0, 0) (flat_map sample_levels (take (Z.to_nat n) (samples ev)))).

Definition is_line_held (ev : RxCompletedEvent) : bool :=
  LINE_HELD_TICKS <=? longest_dominant_run_ticks ev.

(** ** The longest dominant run is the longest dominant run *)

(** [dominant_run l n]: [l] has [n] consecutive dominant samples. *)
Definition dominant_run (l : list bool) (n : nat) : Prop :=
  exists pre post, l = pre ++ replicate n false ++ post.

Definition trailing_low (l : list bool) (n : nat) : Prop := exists pre, l = pre ++ replicate n false.

Lemma trailing_low_after_high l n : trailing_low (l ++ [true]) n -> n = 0%nat.
Proof.
  intros [pre Hp]. destruct n as [|n]; [done|exfalso].
  rewrite replicate_S_end, app_assoc in Hp. apply app_inj_tail in Hp as [_ ?]. discriminate.
Qed.

Lemma trailing_low_S l n : trailing_low (l ++ [false]) (S n) <-> trailing_low l n.
Proof.
  split; intros [pre Hp].
  - rewrite replicate_S_end, app_assoc in Hp. apply app_inj_tail in Hp as [-> _]. now exists pre.
  - exists pre. rewrite replicate_S_end, app_assoc. now f_equal.
Qed.

Lemma dominant_run_snoc l b n :
  dominant_run (l ++ [b]) n <-> dominant_run l n \/ trailing_low (l ++ [b]) n.
Proof.
  split.
  - intros (pre & post & Hp). destruct post as [|x post] using rev_ind.
    + right. exists pre. now rewrite Hp, app_nil_r.
    + left. rewrite !app_assoc in Hp. apply app_inj_tail in Hp as [-> _].
      exists pre, post. now rewrite app_assoc.
  - intros [(pre & post & ->) | [pre ->]].
    + exists pre, (post ++ [b]). now rewrite <- !app_assoc.
    + exists pre, []. now rewrite app_nil_r.
Qed.

(** [nb] is the longest dominant run of [l], [nr] its longest dominant suffix. *)
Definition run_inv (l : list bool) (nb nr : nat) : Prop :=
  (dominant_run l nb /\ forall n, dominant_run l n -> (n <= nb)%nat) /\
  (trailing_low l nr /\ forall n, trailing_low l n -> (n <= nr)%nat).

Lemma run_inv_high l nb nr : run_inv l nb nr -> run_inv (l ++ [true]) nb 0.
Proof.
  intros [[Hd Hdm] _]. split; split.
  - apply dominant_run_snoc. auto.
  - intros n [H|H%trailing_low_after_high]%dominant_run_snoc; [auto|lia].
  - exists (l ++ [true]). cbn. now rewrite app_nil_r.
  - intros n H%trailing_low_after_high. lia.
Qed.

Lemma run_inv_low l nb nr : run_inv l nb nr -> run_inv (l ++ [false]) (Nat.max nb (S nr)) (S nr).
Proof.
  intros [[Hd Hdm] [Ht Htm]].
  assert (forall n, trailing_low (l ++ [false]) n -> (n <= S nr)%nat) as Hmax.
  { intros [|n] H; [lia|]. apply trailing_low_S, Htm in H. lia. }
  split; split; auto.
  - apply dominant_run_snoc. destruct (Nat.max_spec nb (S nr)) as [[_ ->]|[_ ->]]; [right|auto].
    now apply trailing_low_S.
  - intros n [H|H]%dominant_run_snoc; [apply Hdm in H|apply Hmax in H]; lia.
  - now apply trailing_low_S.
Qed.

Lemma run_step_spec l : (length l < 2 ^ 16)%nat ->
  exists nb nr, foldl run_step (0, 0) l = (Z.of_nat nb, Z.of_nat nr) /\ (nr <= length l)%nat /\ run_inv l nb nr.
Proof.
  induction l as [|b l IH] using rev_ind; intros Hlen.
  - exists 0%nat, 0%nat. split; [done|]. split; [done|]. split; split.
    + now exists [], [].
    + intros n (pre & post & H). destruct pre, n; (done || lia).
    + now exists [].
    + intros n (pre & H). destruct pre, n; (done || lia).
  - rewrite length_app in *. cbn [length] in *.
    destruct IH as (nb & nr & E & Hnr & Hinv); [lia|].
    rewrite foldl_app, E. cbn [foldl run_step]. destruct b.
    + exists nb, 0%nat. split; [done|]. split; [lia|]. now apply run_inv_high with nr.
    + exists (Nat.max nb (S nr)), (S nr). split; [|split; [lia|now apply run_inv_low]].
      assert (sat_add 16 (Z.of_nat nr) 1 = Z.of_nat (S nr)) as ->.
      { unfold sat_add, umax. change (2 ^ 16)%nat with (Z.to_nat 65536) in Hlen. lia. }
      f_equal. case_if; lia.
Qed.

(** The samples of an event the scan looks at, first sample first. *)
Definition event_levels (ev : RxCompletedEvent) : list bool :=
  flat_map sample_levels (take (Z.to_nat (Z.min (sample_count ev) 64)) (samples ev)).

Lemma event_levels_length ev : (length (event_levels ev) <= 512)%nat.
Proof.
  unfold event_levels. assert (forall l, length (flat_map sample_levels l) = 8 * length l)%nat as H.
  { induction l as [|x l IH]; [done|]. cbn [flat_map]. rewrite length_app, IH. cbn [length]. change (length (sample_levels x)) with 8%nat. lia. }
  rewrite H, length_take. lia.
Qed.

(** a held line is told exactly: an event reports a held line if and only
    if its samples contain [LINE_HELD_TICKS] consecutive dominant ones, and the
    run length it reports is that of the longest dominant run. *)
Theorem line_held_exact ev :
  (is_line_held ev = true <-> dominant_run (event_levels ev) (Z.to_nat LINE_HELD_TICKS)) /\
  exists n, longest_dominant_run_ticks ev = Z.of_nat n /\ dominant_run (event_levels ev) n /\
    forall m, dominant_run (event_levels ev) m -> (m <= n)%nat.
Proof.
  destruct (run_step_spec (event_levels ev)) as (nb & nr & E & _ & [[Hd Hmax] _]).
  { pose proof (event_levels_length ev). change (2 ^ 16)%nat with (Z.to_nat 65536). lia. }
  assert (longest_dominant_run_ticks ev = Z.of_nat nb) as Hl
    by (unfold longest_dominant_run_ticks; fold (event_levels ev); now rewrite E).
  split; [|now exists nb]. unfold is_line_held. rewrite Hl, Z.leb_le. split.
  - intros Hle. destruct Hd as (pre & post & Hd). exists pre, (replicate (nb - Z.to_nat LINE_HELD_TICKS) false ++ post).
    rewrite Hd, app_assoc, (app_assoc (replicate _ _)), <- replicate_add, <- app_assoc. repeat f_equal.
    unfold LINE_HELD_TICKS in *. lia.
  - intros H%Hmax. unfold LINE_HELD_TICKS in *. lia.
Qed.

End RxDecode.
