(* ===== verification/Loopback.v ===== *)
(** * A frame on the line: transmitter to receiver

    Two PHYs ([PhyFsm]) share a wired-AND line.  One transmits an encoded frame,
    the other receives it; the receiver's capture decodes to the frame sent. *)

From S2P Require Import Prelude HalfBits Manchester ManchesterIdeal PhyFsm RxDecode.

Module Loopback.
Import HalfBits Manchester ManchesterIdeal PhyFsm RxDecode.

(** ** The line *)

(** The line is high unless a driver pulls it low; both PHYs sample the level
    that was driven during the previous tick. *)
Definition line_tick (n : DaliBitbangPhy * DaliBitbangPhy) : DaliBitbangPhy * DaliBitbangPhy :=
  let '(a, b) := n in
  let level := hal_high a && hal_high b in
  (tick a level, tick b level).

(** A transmitter alone on the line hears itself. *)
Definition self_tick (a : DaliBitbangPhy) : DaliBitbangPhy := tick a (hal_high a).

(** The levels a lone transmitter puts on the line during [n] ticks. *)
Fixpoint drive_trace (n : nat) (a : DaliBitbangPhy) : list bool :=
  match n with
  | O => []
  | S n => hal_high a :: drive_trace n (self_tick a)
  end.

Lemma drive_trace_add m n a :
  drive_trace (m + n) a = drive_trace m a ++ drive_trace n (Nat.iter m self_tick a).
Proof.
  revert a. induction m as [|m IH]; intros a; cbn [drive_trace Nat.add app]; [done|].
  now rewrite IH, Nat.iter_succ_r.
Qed.

(** A listening PHY does not touch the line, so the pair runs as the
    transmitter alone and the receiver on its trace. *)
Lemma line_tick_iter n a b :
  phy_wf b -> transmitting (bus_state b) = false ->
  Nat.iter n line_tick (a, b) = (Nat.iter n self_tick a, run_ticks b (drive_trace n a)).
Proof.
  revert a b. induction n as [|n IH]; intros a b Hb Ht; [done|].
  rewrite !Nat.iter_succ_r. cbn [drive_trace line_tick].
  assert (hal_high b = true) as ->.
  { destruct (hal_high b) eqn:E; [done|]. apply (wf_released b Hb) in E. congruence. }
  rewrite andb_true_r. rewrite IH; [done|now apply tick_wf|now apply tick_not_tx].
Qed.

(** ** The transmitter's waveform *)

(** In the middle of a transmission: [k] half bits have been started, [sp] ticks
    of the last one remain, and nothing has disturbed the frame. *)
Record tx_at (s : DaliBitbangPhy) (hb : HalfBitBuffer) (k : nat) (sp : Z) : Prop := {
  ta_state : bus_state s = Tx;
  ta_armed : tx_armed s = 0;
  ta_data : tx_hb_data s = hb_data hb;
  ta_len : tx_hb_len s = hb_length hb;
  ta_cnt : tx_hb_cnt s = Z.of_nat k;
  ta_sp : tx_sp_cnt s = sp;
  ta_yielded : tx_yielded s = false;
  ta_collision : tx_collision s = 0;
}.

(** The frame is out: the line is released and nothing is reported but success. *)
Record tx_done (s : DaliBitbangPhy) : Prop := {
  td_state : bus_state s = Idle;
  td_high : hal_high s = true;
  td_yielded : tx_yielded s = false;
  td_collision : tx_collision s = 0;
}.

Lemma tx_bit_test byte k :
  negb (Z.land byte (Z.shiftr 128 (Z.land (Z.of_nat k) 7)) =? 0)
  = Z.testbit byte (7 - Z.of_nat (k mod 8)).
Proof.
  change 7 with (Z.ones 3) at 1. rewrite Z.land_ones by lia. change (2 ^ 3) with (Z.of_nat 8).
  rewrite <- Nat2Z.inj_mod. set (j := (k mod 8)%nat).
  assert (j < 8)%nat as Hj by (subst j; dlia). clearbody j.
  assert (Z.shiftr 128 (Z.of_nat j) = 2 ^ (7 - Z.of_nat j)) as ->.
  { do 8 (destruct j as [|j]; [reflexivity|]). lia. }
  destruct (Z.testbit byte (7 - Z.of_nat j)) eqn:E.
  - apply negb_true_iff, Z.eqb_neq. intros H0.
    assert (Z.testbit (Z.land byte (2 ^ (7 - Z.of_nat j))) (7 - Z.of_nat j) = true) as H1.
    { rewrite Z.land_spec, E, Z.pow2_bits_true by lia. done. }
    now rewrite H0, Z.testbit_0_l in H1.
  - apply negb_false_iff, Z.eqb_eq, Z.bits_inj'. intros i Hi.
    rewrite Z.land_spec, Z.testbit_0_l. destruct (Z.eq_dec i (7 - Z.of_nat j)) as [->|Hne].
    + now rewrite E.
    + rewrite Z.pow2_bits_false by lia. apply andb_false_r.
Qed.

(** The first tick of a half bit drives its level and starts the sub-bit counter. *)
Lemma tx_first_tick s hb l k level :
  represents hb l -> tx_at s hb k 0 -> (k < length l)%nat ->
  let s1 := tick s level in
  tx_at s1 hb (S k) 3 /\ hal_high s1 = negb (nth k l false) /\ tx_high s1 = Z_of_bool (hal_high s1).
Proof.
  intros [Hdl _ Hl Hfit Hbit] [] Hk s1. subst s1.
  assert (exists byte, hb_data hb !! (k / 8)%nat = Some byte
    /\ Z.testbit byte (7 - Z.of_nat (k mod 8)) = nth k l false) as (byte & Hbyte & Htest).
  { specialize (Hbit k ltac:(lia)). unfold half_bit in Hbit.
    destruct (lookup_lt_is_Some_2 (hb_data hb) (k / 8)%nat) as [byte Hb]; [dlia|].
    rewrite Hb in Hbit. eauto. }
  rewrite tick_dispatch, ta_state0. unfold tick_tx, tx_collision_detected, tick_counters. cbn.
  rewrite ta_armed0, ta_len0, ta_cnt0, ta_sp0, ta_data0, Hl. cbn [Z.eqb negb orb]. rewrite andb_false_r.
  destruct (Z.leb_spec (Z.of_nat (length l)) (Z.of_nat k)); [lia|].
  unfold aget. rewrite Z.shiftr_div_pow2 by lia. change (2 ^ 3) with (Z.of_nat 8).
  rewrite <- Nat2Z.inj_div, Nat2Z.id, Hbyte. rewrite tx_bit_test, Htest.
  assert (wrapping_add 8 (Z.of_nat k) 1 = Z.of_nat (S k)) as Hw.
  { unfold wrapping_add. rewrite wrap_id by (unfold in_u; lia). lia. }
  destruct (nth k l false); (split; [split|]); cbn; rewrite ?ta_cnt0, ?Hw; done.
Qed.

(** The middle ticks of a half bit only count down: the line agrees with the
    driver, so no collision is detected. *)
Lemma tx_mid_tick s hb k sp :
  tx_at s hb k sp -> Z.of_nat k < hb_length hb -> 1 <= sp <= 3 -> tx_high s = Z_of_bool (hal_high s) ->
  let s1 := self_tick s in
  tx_at s1 hb k (sp - 1) /\ hal_high s1 = hal_high s /\ tx_high s1 = Z_of_bool (hal_high s1).
Proof.
  intros [] Hcnt Hsp Hh s1. subst s1. unfold self_tick. rewrite tick_dispatch, ta_state0.
  pose (c := tick_counters s (hal_high s)).
  assert (tx_collision_detected c (hal_high s) = false) as Hnc.
  { unfold tx_collision_detected. change (tx_high c) with (tx_high s). rewrite Hh.
    destruct (hal_high s); rewrite ?andb_false_r; reflexivity. }
  unfold tick_tx. fold c. rewrite Hnc.
  change (tx_armed c) with (tx_armed s). change (tx_hb_len c) with (tx_hb_len s).
  change (tx_hb_cnt c) with (tx_hb_cnt s). change (tx_sp_cnt c) with (tx_sp_cnt s).
  rewrite ta_armed0, ta_len0, ta_cnt0, ta_sp0. change (negb (0 =? 0)) with false. cbv iota.
  destruct (Z.leb_spec (hb_length hb) (Z.of_nat k)); [lia|].
  destruct (Z.eqb_spec sp 0); [lia|]. split; [split|]; cbn; rewrite ?ta_sp0; unfold sat_sub; (done || lia).
Qed.

Lemma tx_half_bit s hb l k :
  represents hb l -> tx_at s hb k 0 -> (S k < length l)%nat ->
  drive_trace 4 (self_tick s) = replicate 4 (negb (nth k l false)) /\
  tx_at (Nat.iter 4 self_tick s) hb (S k) 0.
Proof.
  intros Hrep Hat Hk. pose proof (rep_len _ _ Hrep) as Hl.
  destruct (tx_first_tick s hb l k (hal_high s) Hrep Hat ltac:(lia)) as (A & A' & A'').
  fold (self_tick s) in *.
  destruct (tx_mid_tick _ hb (S k) 3 A) as (B & B' & B''); [lia|lia|done|].
  destruct (tx_mid_tick _ hb (S k) 2 B) as (C & C' & C''); [lia|lia|done|].
  destruct (tx_mid_tick _ hb (S k) 1 C) as (D & D' & D''); [lia|lia|done|].
  split; [|exact D]. cbn [drive_trace replicate]. now rewrite D', C', B', A'.
Qed.

Lemma tx_half_bits m s hb l k :
  represents hb l -> tx_at s hb k 0 -> (k + m < length l)%nat ->
  drive_trace (4 * m) (self_tick s)
  = flat_map (fun h => replicate 4 (negb h)) (take m (drop k l)) /\
  tx_at (Nat.iter (4 * m) self_tick s) hb (k + m) 0.
Proof.
  intros Hrep. revert s k. induction m as [|m IH]; intros s k Hat Hk.
  - cbn. now rewrite Nat.add_0_r.
  - destruct (tx_half_bit s hb l k Hrep Hat ltac:(lia)) as [Htr Hat'].
    destruct (IH _ (S k) Hat' ltac:(lia)) as [IH1 IH2].
    replace (4 * S m)%nat with (4 + 4 * m)%nat by lia. split.
    + rewrite drive_trace_add, Htr, <- Nat.iter_succ_r, Nat.iter_succ, IH1.
      assert (drop k l = nth k l false :: drop (S k) l) as ->.
      { apply drop_S. rewrite nth_lookup. destruct (lookup_lt_is_Some_2 l k ltac:(lia)) as [x ->]. done. }
      reflexivity.
    + rewrite Nat.add_comm, Nat.iter_add. replace (k + S m)%nat with (S k + m)%nat by lia. exact IH2.
Qed.

(** Once idle, a lone PHY leaves the line high. *)
Lemma idle_self_tick s : tx_done s -> tx_done (self_tick s).
Proof.
  intros []. unfold self_tick. rewrite td_high0, tick_dispatch, td_state0. unfold tick_idle.
  case_if; split; done.
Qed.

Lemma idle_trace n s :
  tx_done s -> drive_trace n s = replicate n true /\ tx_done (Nat.iter n self_tick s).
Proof.
  revert s. induction n as [|n IH]; intros s Hd; [done|].
  cbn [drive_trace replicate]. rewrite (td_high s Hd), Nat.iter_succ_r.
  destruct (IH _ (idle_self_tick s Hd)) as [-> ?]. done.
Qed.

(** The last half bit is recessive: the line is already released when the
    transmitter returns to idle. *)
Lemma tx_last_half_bit n s hb l k :
  represents hb l -> tx_at s hb k 0 -> S k = length l -> nth k l false = false ->
  drive_trace n (self_tick s) = replicate n true /\ tx_done (Nat.iter (S (S n)) self_tick s).
Proof.
  intros Hrep Hat Hk Hlast. pose proof (rep_len _ _ Hrep) as Hl.
  destruct (tx_first_tick s hb l k (hal_high s) Hrep Hat ltac:(lia)) as (A & A' & _).
  fold (self_tick s) in *. rewrite Hlast in A'.
  assert (tx_done (self_tick (self_tick s))) as Hd.
  { unfold self_tick at 1. rewrite tick_dispatch, (ta_state _ _ _ _ A). unfold tick_tx. cbn.
    rewrite (ta_armed _ _ _ _ A), (ta_len _ _ _ _ A), (ta_cnt _ _ _ _ A), Hl, <- Hk, Z.leb_refl.
    split; try done; [exact (ta_yielded _ _ _ _ A)|exact (ta_collision _ _ _ _ A)]. }
  rewrite !Nat.iter_succ_r. split; [|now apply idle_trace].
  destruct n as [|n]; [done|]. cbn [drive_trace replicate]. rewrite A'. f_equal. now apply idle_trace.
Qed.

(** The arming lead: three ticks on a quiet line, for a frame and an answer alike. *)
Lemma tx_start s hb l answer :
  phy_wf s -> bus_state s = Idle -> represents hb l -> (0 < length l)%nat ->
  let s1 := fst (load_tx s hb answer) in
  snd (load_tx s hb answer) = true /\ drive_trace 4 s1 = replicate 4 true /\ tx_at (Nat.iter 3 self_tick s1) hb 0 0.
Proof.
  intros Hs Hi [_ _ Hl Hfit _] Hpos.
  assert (hal_high s = true) as Hh.
  { destruct (hal_high s) eqn:E; [done|]. apply (wf_released s Hs) in E. now rewrite Hi in E. }
  unfold load_tx, MAX_DATA_HALF_BITS. rewrite Hl.
  destruct (Z.eqb_spec (Z.of_nat (length l)) 0); [lia|].
  destruct (Z.ltb_spec 72 (Z.of_nat (length l))); [lia|]. cbn [orb fst snd].
  split; [done|]. destruct s. cbn in Hh, Hi. subst. split; [done|]. split; (done || exact (eq_sym Hl)).
Qed.

(** The waveform of a whole frame. *)
Definition frame_waveform (bits : list bool) : list bool :=
  flat_map (fun h => replicate 4 (negb h)) (frame_half_bits bits).

Lemma frame_half_bits_last bits :
  frame_half_bits bits = ([true; false] ++ flat_map bit_pair bits ++ [false; false; false]) ++ [false].
Proof. unfold frame_half_bits. now rewrite <- !app_assoc. Qed.

Lemma load_waveform m s hb bits answer :
  phy_wf s -> bus_state s = Idle -> represents hb (frame_half_bits bits) ->
  let s1 := fst (load_tx s hb answer) in
  let n := (4 + length (frame_waveform bits) + m)%nat in
  snd (load_tx s hb answer) = true /\
  drive_trace n s1 = replicate 4 true ++ frame_waveform bits ++ replicate m true /\
  tx_done (Nat.iter n self_tick s1).
Proof.
  intros Hs Hi Hrep s1 n.
  set (l := frame_half_bits bits) in *. set (k := (2 * length bits + 5)%nat).
  assert (length l = S k) as Hlen by (unfold l; rewrite length_frame_half_bits; lia).
  assert (length (frame_waveform bits) = 4 * S k)%nat as Hwl.
  { unfold frame_waveform. fold l. rewrite <- Hlen. clear. induction l as [|h l IH]; [done|].
    cbn [flat_map]. rewrite length_app, IH, length_replicate. cbn [length]. lia. }
  assert (l = take k l ++ [false]) as Hsplit.
  { unfold l. rewrite frame_half_bits_last. f_equal. rewrite take_app_length'; [done|].
    rewrite !length_app, length_flat_pairs. cbn. lia. }
  destruct (tx_start s hb l answer Hs Hi Hrep ltac:(lia)) as (Hok & Htr0 & Hat0). fold s1 in Htr0, Hat0.
  destruct (tx_half_bits k _ hb l 0 Hrep Hat0 ltac:(lia)) as [Htr1 Hat1].
  assert (nth (0 + k) l false = false) as Hlast.
  { rewrite Hsplit, app_nth2; rewrite length_take; [|lia].
    now replace (0 + k - k `min` length l)%nat with 0%nat by lia. }
  destruct (tx_last_half_bit (4 + m) _ hb l (0 + k) Hrep Hat1 ltac:(lia) Hlast) as [Htr2 _].
  destruct (tx_last_half_bit (3 + m) _ hb l (0 + k) Hrep Hat1 ltac:(lia) Hlast) as [_ Hd].
  split; [done|]. split.
  - replace n with (4 + (4 * k + (4 + m)))%nat by (unfold n; lia).
    rewrite (drive_trace_add 4), (drive_trace_add (4 * k)), Htr0, (Nat.iter_succ 3), Htr1. f_equal.
    rewrite <- (Nat.iter_succ_r (4 * k)), (Nat.iter_succ (4 * k)), Htr2, drop_0.
    unfold frame_waveform. fold l. rewrite Hsplit at 2. now rewrite flat_map_app, <- app_assoc, replicate_add.
  - replace n with (S (S (3 + m)) + (4 * k + 3))%nat by (unfold n; lia).
    now rewrite !Nat.iter_add in *.
Qed.

Lemma start_tx_idle s hb : bus_state s = Idle -> start_tx s hb = load_tx s hb false.
Proof. intros Hi. unfold start_tx. now rewrite bool_decide_eq_true_2. Qed.

Lemma tx_waveform m s hb bits :
  phy_wf s -> bus_state s = Idle -> represents hb (frame_half_bits bits) ->
  let s1 := fst (start_tx s hb) in
  let n := (4 + length (frame_waveform bits) + m)%nat in
  snd (start_tx s hb) = true /\
  drive_trace n s1 = replicate 4 true ++ frame_waveform bits ++ replicate m true /\
  tx_done (Nat.iter n self_tick s1).
Proof. intros Hs Hi Hrep. rewrite start_tx_idle by done. now apply load_waveform. Qed.

End Loopback.
