(* ===== verification/Receiver.v ===== *)
(** * Reception of an undisturbed frame

    The receiver's side of [Loopback]: the PHY of [PhyFsm] samples a frame's
    waveform from idle, its capture is an ideal window of [ManchesterIdeal],
    and [RxDecode] returns the frame that was transmitted. *)

From S2P Require Import Prelude HalfBits Manchester ManchesterIdeal PhyFsm RxDecode Loopback.

Module Receiver.
Import HalfBits Manchester ManchesterIdeal PhyFsm RxDecode Loopback.

(** In the middle of a reception: [done] are the bytes stored so far. *)
Record rx_at (s : DaliBitbangPhy) (done : list Z) (cnt byte idle : Z) : Prop := {
  ra_state : bus_state s = Rx;
  ra_len : length (rx_data s) = 64%nat;
  ra_done : take (length done) (rx_data s) = done;
  ra_pos : rx_pos s = Z.of_nat (length done);
  ra_cnt : rx_bit_cnt s = cnt;
  ra_byte : rx_byte s = byte;
  ra_idle : rx_idle s = idle;
}.

(** The capture has been handed over. *)
Record rx_done (s : DaliBitbangPhy) (bytes : list Z) : Prop := {
  rd_state : bus_state s = Idle;
  rd_rx_state : rx_state s = Completed;
  rd_len : length (samples (last_rx s)) = 64%nat;
  rd_bytes : take (length bytes) (samples (last_rx s)) = bytes;
  rd_count : sample_count (last_rx s) = Z.of_nat (length bytes);
}.

Definition shift_in (byte : Z) (level : bool) : Z := Z.lor (shl 8 byte 1) (Z_of_bool level).

Lemma take_aset_snoc (l done : list Z) (x : Z) :
  (length done < length l)%nat -> take (length done) l = done ->
  take (length (done ++ [x])) (aset l (Z.of_nat (length done)) x) = done ++ [x].
Proof.
  intros Hlt Hd. unfold aset. rewrite Nat2Z.id, length_app. cbn [length]. rewrite Nat.add_1_r.
  rewrite (take_S_r _ _ x) by now apply list_lookup_insert_eq.
  now rewrite take_insert_ge by lia; rewrite Hd.
Qed.

(** One sample: shifted in, stored when it is the eighth. *)
Lemma rx_sample s done cnt byte idle b :
  rx_at s done cnt byte idle -> 0 <= cnt < 8 -> (length done < 62)%nat ->
  exists s1, rx_at s1 (if cnt =? 7 then done ++ [shift_in byte b] else done)
                (if cnt =? 7 then 0 else cnt + 1) (shift_in byte b) idle
    /\ last_rx s1 = last_rx s
    /\ tick s b =
       if b then
         let s2 := s1 <| rx_idle := sat_add 8 idle 1 |> in
         if RX_IDLE_LINE_HIGH_TICKS <=? sat_add 8 idle 1 then
           finish_rx_and_notify (set_bus_idle (s2 <| rx_data := aset (rx_data s1) (rx_pos s1) 255 |>
             <| rx_pos := sat_add 16 (rx_pos s1) 1 |> <| rx_state := Completed |>))
         else s2
       else s1 <| rx_idle := 0 |>.
Proof.
  intros [] Hc Hd. rewrite tick_dispatch, ra_state0. unfold tick_rx.
  set (s0 := tick_counters s b <| rx_byte := _ |> <| rx_bit_cnt := _ |>).
  assert (rx_at (store_rx_byte s0) (if cnt =? 7 then done ++ [shift_in byte b] else done)
            (if cnt =? 7 then 0 else cnt + 1) (shift_in byte b) idle) as Hs1.
  { assert (rx_bit_cnt s0 = cnt + 1) as Hcnt.
    { unfold s0. cbn. rewrite ra_cnt0. unfold wrapping_add. apply wrap_id. unfold in_u. lia. }
    assert (rx_byte s0 = shift_in byte b) as Hb by (unfold s0; cbn; now rewrite ra_byte0).
    unfold store_rx_byte. rewrite Hcnt.
    destruct (Z.eqb_spec cnt 7), (Z.eqb_spec (cnt + 1) 8); try lia; [|split; done].
    change (rx_pos s0) with (rx_pos s). change (rx_data s0) with (rx_data s). rewrite Hb.
    unfold MAX_RX_IDX, DALI_RX_SAMPLE_BUF_LEN. rewrite ra_pos0, Z.min_l by lia. cbn [rx_pos set_field].
    change (rx_pos s0) with (rx_pos s). rewrite ra_pos0, sat_add_small by lia.
    destruct (Z.ltb_spec (64 - 1) (Z.of_nat (length done) + 1)); [lia|].
    split; try done; cbn [rx_data rx_pos set_field].
    - now rewrite length_aset.
    - apply take_aset_snoc; [lia|done].
    - rewrite length_app. cbn. lia. }
  exists (store_rx_byte s0). split; [done|]. split; [unfold store_rx_byte; cases_if; done|].
  clearbody s0. generalize dependent (store_rx_byte s0). intros s1 Hs1. destruct Hs1. clear s0.
  destruct b; [|done]. cbn [rx_idle rx_data rx_pos set_field]. now rewrite ra_idle1.
Qed.

(** A sample that does not complete the frame. *)
Lemma rx_tick s done cnt byte idle b :
  rx_at s done cnt byte idle -> 0 <= cnt < 8 -> (length done < 62)%nat -> 0 <= idle < 15 ->
  rx_at (tick s b) (if cnt =? 7 then done ++ [shift_in byte b] else done)
    (if cnt =? 7 then 0 else cnt + 1) (shift_in byte b) (if b then idle + 1 else 0).
Proof.
  intros Hat Hc Hd Hi. destruct (rx_sample s done cnt byte idle b Hat Hc Hd) as (s1 & [] & _ & ->).
  rewrite sat_add_small by lia. unfold RX_IDLE_LINE_HIGH_TICKS.
  destruct b; [destruct (Z.leb_spec 16 (idle + 1)); [lia|]|]; split; done.
Qed.

(** The sixteenth idle sample completes it. *)
Lemma rx_complete s done cnt byte :
  rx_at s done cnt byte 15 -> 0 <= cnt < 8 -> (length done < 62)%nat ->
  rx_done (tick s true) ((if cnt =? 7 then done ++ [shift_in byte true] else done) ++ [255]).
Proof.
  intros Hat Hc Hd. destruct (rx_sample s done cnt byte 15 true Hat Hc Hd) as (s1 & [] & _ & ->).
  set (d := if cnt =? 7 then _ else _) in *.
  assert (length d < 63)%nat by (unfold d; case_if; rewrite ?length_app; cbn; lia). clearbody d.
  rewrite sat_add_small by lia. change (RX_IDLE_LINE_HIGH_TICKS <=? 15 + 1) with true.
  split; try done; cbn.
  - now rewrite length_aset.
  - rewrite ra_pos0. apply take_aset_snoc; [lia|done].
  - rewrite ra_pos0, length_app, sat_add_small by lia. cbn. lia.
Qed.

Lemma rx_done_high s bytes : rx_done s bytes -> rx_done (tick s true) bytes.
Proof. intros []. rewrite tick_dispatch, rd_state0. unfold tick_idle. case_if; split; done. Qed.

Lemma rx_done_highs n s bytes : rx_done s bytes -> rx_done (run_ticks s (replicate n true)) bytes.
Proof.
  revert s. induction n as [|n IH]; intros s Hd; [done|]. apply IH, rx_done_high, Hd.
Qed.

(** ** One bit, eight samples *)

Definition bit_wave (one : bool) : list bool := flat_map (fun h => replicate 4 (negb h)) (bit_pair one).

Lemma bit_wave_byte one byte :
  in_u 8 byte -> foldl shift_in byte (bit_wave one) = bit_byte one.
Proof. revert byte. destruct one; by_evaluation. Qed.

(** [rx_tick] along a list of at most [8 - cnt] samples that stays below the idle limit. *)
Lemma rx_ticks levels s done cnt byte idle :
  rx_at s done cnt byte idle -> 0 <= cnt -> (length done < 62)%nat -> 0 <= idle ->
  cnt + Z.of_nat (length levels) < 8 -> idle + Z.of_nat (length levels) < 16 ->
  rx_at (run_ticks s levels) done (cnt + Z.of_nat (length levels)) (foldl shift_in byte levels)
    (foldl (fun i (b : bool) => if b then i + 1 else 0) idle levels).
Proof.
  revert s cnt byte idle. induction levels as [|b levels IH]; intros s cnt byte idle Hat Hc Hd Hi H8 H16;
    cbn [length foldl run_ticks] in *.
  - now rewrite Z.add_0_r.
  - apply (rx_tick s done cnt byte idle b) in Hat; [|lia|done|lia].
    destruct (Z.eqb_spec cnt 7); [lia|]. unfold run_ticks in *. cbn [foldl].
    replace (cnt + Z.of_nat (S (length levels))) with ((cnt + 1) + Z.of_nat (length levels)) by lia.
    apply IH; (done || destruct b; lia).
Qed.

Lemma run_ticks_app s l1 l2 : run_ticks s (l1 ++ l2) = run_ticks (run_ticks s l1) l2.
Proof. apply foldl_app. Qed.

(** Eight samples from a byte boundary store one byte. *)
Lemma rx_byte_step levels last s done byte idle :
  rx_at s done 0 byte idle -> (length done < 62)%nat -> 0 <= idle -> length levels = 7%nat -> idle + 7 < 15 ->
  let v := foldl shift_in byte (levels ++ [last]) in
  rx_at (run_ticks s (levels ++ [last])) (done ++ [v]) 0 v
    (foldl (fun i (b : bool) => if b then i + 1 else 0) idle (levels ++ [last])).
Proof.
  intros Hat Hd Hi Hl H16. cbn zeta. rewrite run_ticks_app, !foldl_app. cbn [foldl].
  apply (rx_ticks levels) in Hat; [|lia|done|lia|lia|lia]. rewrite Hl in Hat.
  assert (0 <= foldl (fun i (b : bool) => if b then i + 1 else 0) idle levels <= idle + 7) as Hr.
  { change 7 with (Z.of_nat 7). rewrite <- Hl. clear -Hi. revert idle Hi.
    induction levels as [|b levels IH]; intros idle Hi; cbn [foldl length]; [lia|].
    destruct b; [specialize (IH (idle + 1))|specialize (IH 0)]; lia. }
  apply (rx_tick _ _ _ _ _ last) in Hat; [|lia|done|lia]. exact Hat.
Qed.

Lemma in_u_shift_in byte b : in_u 8 (shift_in byte b).
Proof. apply in_u_lor; [lia|apply wrap_range; lia|destruct b; easy]. Qed.

(** The idle count after a bit: its second half is recessive for a one only. *)
Definition idle_after (one : bool) : Z := if one then 4 else 0.

Lemma rx_bit one s done byte idle :
  rx_at s done 0 byte idle -> in_u 8 byte -> (length done < 62)%nat -> 0 <= idle <= 4 ->
  rx_at (run_ticks s (bit_wave one)) (done ++ [bit_byte one]) 0 (bit_byte one) (idle_after one).
Proof.
  intros Hat Hb Hd Hi. rewrite <- (bit_wave_byte one byte Hb).
  assert (bit_wave one = take 7 (bit_wave one) ++ [one]) as E by now destruct one.
  rewrite E. replace (idle_after one) with
    (foldl (fun i (b : bool) => if b then i + 1 else 0) idle (take 7 (bit_wave one) ++ [one]))
    by now destruct one.
  apply rx_byte_step; (done || lia || now destruct one).
Qed.

Lemma last_cons_default {A} (x d : A) l : List.last (x :: l) d = List.last l x.
Proof.
  revert x d. induction l as [|y l IH]; intros x d; [done|].
  change (List.last (x :: y :: l) d) with (List.last (y :: l) d). now rewrite !IH.
Qed.

Lemma rx_bits bits s done byte one :
  rx_at s done 0 byte (idle_after one) -> in_u 8 byte -> (length done + length bits <= 62)%nat ->
  exists byte', in_u 8 byte' /\
    rx_at (run_ticks s (flat_map bit_wave bits)) (done ++ map bit_byte bits) 0 byte' (idle_after (List.last bits one)).
Proof.
  revert s done byte one. induction bits as [|b bits IH]; intros s done byte one Hat Hb Hlen.
  - exists byte. cbn. now rewrite app_nil_r.
  - cbn [flat_map map length] in *. rewrite run_ticks_app, last_cons_default.
    apply (rx_bit b) in Hat; [|done|lia|destruct one; cbn; lia].
    destruct (IH _ _ _ b Hat) as (byte' & H1 & H2).
    + destruct b; easy.
    + rewrite length_app. cbn. lia.
    + exists byte'. now rewrite <- app_assoc in H2.
Qed.

(** ** The start bit, from idle *)

Lemma rx_idle_high s : bus_state s = Idle -> bus_state (tick s true) = Idle /\ rx_debounce (tick s true) = 0.
Proof. intros E. rewrite tick_dispatch, E. unfold tick_idle. case_if; done. Qed.

Lemma rx_idle_highs n s :
  bus_state s = Idle ->
  bus_state (run_ticks s (replicate (S n) true)) = Idle /\
  rx_debounce (run_ticks s (replicate (S n) true)) = 0.
Proof.
  revert s. induction n as [|n IH]; intros s E; cbn [replicate].
  - now apply rx_idle_high.
  - apply (IH (tick s true)). now apply rx_idle_high.
Qed.

(** Two low samples are the start debounce: both are part of the capture. *)
Lemma rx_debounce_low s :
  bus_state s = Idle -> rx_debounce s = 0 -> length (rx_data s) = 64%nat ->
  rx_at (tick (tick s false) false) [] 2 0 0.
Proof.
  intros Hi Hd Hl. destruct s. cbn in Hi, Hd, Hl. subst. split; try done.
Qed.

Lemma rx_start s :
  bus_state s = Idle -> rx_debounce s = 0 -> length (rx_data s) = 64%nat ->
  rx_at (run_ticks s (bit_wave true)) [15] 0 15 (idle_after true).
Proof.
  intros Hi Hd Hl. pose proof (rx_debounce_low s Hi Hd Hl) as Hat.
  change (bit_wave true) with ([false; false] ++ [false; false; true; true; true] ++ [true]).
  rewrite !run_ticks_app. change (run_ticks s [false; false]) with (tick (tick s false) false).
  apply (rx_ticks [false; false; true; true; true]) in Hat; [|cbn; lia..].
  apply (rx_tick _ _ _ _ _ true) in Hat; [exact Hat|cbn; lia..].
Qed.

(** ** The end of the frame *)

Lemma shift_in_highs byte : in_u 8 byte -> foldl shift_in byte (replicate 8 true) = 255.
Proof. revert byte. by_evaluation. Qed.

(** The completing sample leaves the idle count at the length of the quiet run. *)
Lemma rx_complete_idle s done cnt byte :
  rx_at s done cnt byte 15 -> 0 <= cnt < 8 -> (length done < 62)%nat -> idlecnt (tick s true) = high_run_ticks (tick s true).
Proof.
  intros Hat Hc Hd. destruct (rx_sample s done cnt byte 15 true Hat Hc Hd) as (s1 & _ & _ & ->).
  rewrite sat_add_small by lia. reflexivity.
Qed.

(** From a bit boundary on an idle line the capture completes with the
    sixteenth recessive sample, with at least two idle bytes after the data. *)
Lemma rx_end_exact s done byte one :
  rx_at s done 0 byte (idle_after one) -> in_u 8 byte -> (length done < 61)%nat ->
  let s' := run_ticks s (replicate (16 - Z.to_nat (idle_after one)) true) in
  idlecnt s' = high_run_ticks s' /\
  exists tail, (length tail <= 1)%nat /\ rx_done s' (done ++ [255; 255] ++ tail).
Proof.
  intros Hat Hb Hd s'. subst s'. pose proof (shift_in_highs byte Hb) as Hff.
  change (replicate 8 true) with (replicate 7 true ++ [true]) in Hff.
  apply (rx_byte_step (replicate 7 true) true) in Hat; [|lia|destruct one; cbn; lia|done|destruct one; cbn; lia].
  cbn zeta in Hat. rewrite Hff in Hat. rewrite foldl_app in Hat.
  assert (length (done ++ [255%Z]) < 62)%nat by (rewrite length_app; cbn; lia). destruct one.
  - change (replicate (16 - Z.to_nat (idle_after true)) true)
      with ((replicate 7 true ++ [true]) ++ replicate 3 true ++ [true]). rewrite (run_ticks_app s).
    set (s1 := run_ticks s _) in *. clearbody s1. apply (rx_ticks (replicate 3 true)) in Hat; [|cbn; lia..].
    rewrite run_ticks_app. split; [eapply rx_complete_idle; [exact Hat|cbn; lia..]|].
    apply rx_complete in Hat; [|cbn; lia..].
    exists []. split; [cbn; lia|]. rewrite app_nil_r.
    change [255; 255] with ([255] ++ [255]). rewrite app_assoc. exact Hat.
  - change (replicate (16 - Z.to_nat (idle_after false)) true)
      with ((replicate 7 true ++ [true]) ++ replicate 7 true ++ [true]). rewrite (run_ticks_app s).
    set (s1 := run_ticks s _) in *. clearbody s1. apply (rx_ticks (replicate 7 true)) in Hat; [|cbn; lia..].
    rewrite run_ticks_app. split; [eapply rx_complete_idle; [exact Hat|cbn; lia..]|].
    apply rx_complete in Hat; [|cbn; lia..].
    exists [255]. split; [cbn; lia|]. change ([255; 255] ++ [255]) with ([255] ++ [255] ++ [255]).
    rewrite !app_assoc. exact Hat.
Qed.

Lemma rx_end s done byte one :
  rx_at s done 0 byte (idle_after one) -> in_u 8 byte -> (length done < 61)%nat ->
  exists tail, (length tail <= 1)%nat /\
    rx_done (run_ticks s (replicate 16 true)) (done ++ [255; 255] ++ tail).
Proof.
  intros Hat Hb Hd. destruct (rx_end_exact s done byte one Hat Hb Hd) as [_ (tail & Ht & Hdone)].
  exists tail. split; [done|].
  replace (replicate 16 true) with (replicate (16 - Z.to_nat (idle_after one)) true ++ replicate (Z.to_nat (idle_after one)) true)
    by now destruct one.
  rewrite run_ticks_app. now apply rx_done_highs.
Qed.

(** ** The capture of a frame's waveform *)

Lemma frame_waveform_bits bits :
  frame_waveform bits = bit_wave true ++ flat_map bit_wave bits ++ replicate 16 true.
Proof.
  unfold frame_waveform, frame_half_bits. rewrite !flat_map_app. f_equal. f_equal.
  induction bits as [|b bits IH]; [done|]. cbn [flat_map]. now rewrite flat_map_app, IH.
Qed.

Lemma rx_waveform bits m s :
  phy_wf s -> bus_state s = Idle -> (length bits <= 58)%nat ->
  exists tail, (length tail <= 1)%nat /\
    rx_done (run_ticks s (replicate 4 true ++ frame_waveform bits ++ replicate m true))
      (ideal_bytes bits ++ tail).
Proof.
  intros Hwf Hi Hlen. rewrite frame_waveform_bits, !run_ticks_app.
  destruct (rx_idle_highs 3 s Hi) as [Hi1 Hd1].
  assert (length (rx_data (run_ticks s (replicate 4 true))) = 64%nat) as Hl1.
  { apply wf_rx_data. unfold run_ticks. cbn [replicate foldl]. auto using tick_wf. }
  pose proof (rx_start _ Hi1 Hd1 Hl1) as Hstart. clear Hi1 Hd1 Hl1.
  generalize dependent (run_ticks (run_ticks s (replicate 4 true)) (bit_wave true)). intros s1 Hstart.
  destruct (rx_bits bits s1 [15] 15 true Hstart) as (byte & Hb & Hat); [easy|cbn; lia|].
  destruct (rx_end _ _ _ _ Hat Hb) as (tail & Htail & Hdone).
  { rewrite length_app, length_map. cbn. lia. }
  exists tail. split; [done|]. apply rx_done_highs. unfold ideal_bytes.
  rewrite <- app_assoc in Hdone. cbn [app] in *. now rewrite <- app_assoc.
Qed.

(** ** Decoding the capture *)

Lemma of_capture_fill (smp : list Z) (n j : nat) (acc : list Z) :
  (n <= length acc)%nat -> length acc = 66%nat ->
  let filled := foldl (fun bytes i => match smp !! i with Some sample => <[i := sample]> bytes | None => bytes end)
                  acc (seq 0 n) in
  length filled = 66%nat /\ ((j < n)%nat -> forall x, smp !! j = Some x -> filled !! j = Some x).
Proof.
  intros Hn Hacc. induction n as [|n IH]; cbn zeta in *; [split; [done|lia]|].
  rewrite seq_S, foldl_app. cbn [foldl Nat.add]. destruct IH as [IH1 IH2]; [lia|].
  destruct (smp !! n) as [y|] eqn:E; [split|split].
  - now rewrite length_insert.
  - intros Hj x Hx. destruct (decide (j = n)) as [->|Hne].
    + rewrite list_lookup_insert_eq by lia. congruence.
    + rewrite list_lookup_insert_ne by done. apply IH2; [lia|done].
  - done.
  - intros Hj x Hx. apply IH2; [|done]. destruct (decide (j = n)); [congruence|lia].
Qed.

Lemma of_capture_window (smp bytes : list Z) :
  take (length bytes) smp = bytes -> (length bytes < 64)%nat ->
  let w := of_capture smp (Z.of_nat (length bytes)) in
  (forall i x, bytes !! i = Some x -> byte w (Z.of_nat i) = Some x) /\ w_bits w = 8 * Z.of_nat (length bytes).
Proof.
  intros Htake Hlen. unfold of_capture, DALI_RX_SAMPLE_BUF_LEN.
  destruct (Z.ltb_spec (Z.of_nat (length bytes)) 64); [|lia]. rewrite Nat2Z.id. split.
  - intros i x Hx. pose proof (lookup_lt_Some _ _ _ Hx) as Hi.
    destruct (of_capture_fill smp (length bytes) i (w_bytes window_EMPTY)) as [Hfl Hfx];
      [cbn; lia|done|]. cbn zeta in *.
    assert (smp !! i = Some x) as Hs by (rewrite <- Htake in Hx; now apply lookup_take_Some in Hx as [? ?]).
    unfold byte. cbn [w_len w_bytes]. rewrite wrap_id by (unfold in_u; lia).
    destruct (Z.leb_spec (Z.of_nat (length bytes) + 1) (Z.of_nat i)); [lia|].
    unfold aget, aset. rewrite !Nat2Z.id, list_lookup_insert_ne by lia. auto.
  - cbn [w_bits]. rewrite wrap_id by (unfold in_u; lia). unfold sat_mul, umax, WINDOW_BITS_PER_SAMPLE. lia.
Qed.

Lemma rx_done_window s bits tail :
  rx_done s (ideal_bytes bits ++ tail) -> (length bits <= 31)%nat -> (length tail <= 1)%nat ->
  ideal_window (of_capture (samples (last_rx s)) (sample_count (last_rx s))) bits.
Proof.
  intros [_ _ _ Hb Hc] Hlen Htail.
  assert (length (ideal_bytes bits ++ tail) = length bits + 3 + length tail)%nat as HL.
  { unfold ideal_bytes. cbn [length app]. rewrite !length_app, length_map. cbn. lia. }
  destruct (of_capture_window _ _ Hb) as [H1 H2]; [lia|]. cbn zeta in *. rewrite Hc. split.
  - intros i x Hx. apply H1. now apply lookup_app_l_Some.
  - rewrite H2, HL. lia.
Qed.

(** Its very first step does. *)
Lemma search_ideal w bits pref :
  ideal_window w bits -> (8 <= length bits <= 31)%nat -> contains pref (Z.of_nat (length bits)) = true ->
  exists sc, snd (search_step (search_new pref) w)
    = Done (Some (MkPhaseDecode (Z.of_nat (length bits)) 0 sc (push_bits (replicate 8 0) 1 bits))).
Proof.
  intros Hw Hlen Hpref. destruct (decode_phase_ideal w bits Hw ltac:(lia)) as [sc Hsc].
  exists sc. unfold search_step, search_new. cbn [bps_step preferred set_field Z.eqb]. cbn zeta. rewrite Hsc.
  cbn [preferred bps_step set_field bit_len]. rewrite Hpref. unfold accepted, MANCHESTER_RX_MIN_DECODED_BITS.
  cbn [bit_len]. destruct (Z.leb_spec 3 (Z.of_nat (length bits))); [done|lia].
Qed.

(** The search stops at phase zero when that decode has a preferred length. *)
Lemma run_ideal w bits pref :
  ideal_window w bits -> (8 <= length bits <= 31)%nat -> contains pref (Z.of_nat (length bits)) = true ->
  exists sc, run (search_new pref) w
    = Some (MkPhaseDecode (Z.of_nat (length bits)) 0 sc (push_bits (replicate 8 0) 1 bits)).
Proof.
  intros Hw Hlen Hpref. destruct (decode_phase_ideal w bits Hw ltac:(lia)) as [sc Hsc].
  exists sc. rewrite run_unfold. cbn zeta. rewrite Hsc. cbn [bit_len]. rewrite Hpref.
  unfold accepted, MANCHESTER_RX_MIN_DECODED_BITS. cbn [bit_len]. destruct (Z.leb_spec 3 (Z.of_nat (length bits))); [done|lia].
Qed.

(** The frame a listener reports for [n] bits of [data]. *)
Definition expected_frame (data : Z) (n : nat) : SniffedFrame :=
  if (n =? 8)%nat then Backward8 data
  else if (n =? 16)%nat then Forward16 data
  else Forward24 (wrap 8 (Z.shiftr data 16)) (wrap 8 (Z.shiftr data 8)) (wrap 8 data).

Lemma join16 data : in_u 16 data -> Z.lor (shl 16 (wrap 8 (Z.shiftr data 8)) 8) (wrap 8 data) = data.
Proof.
  intros Hd. apply Z.bits_inj'. intros i Hi.
  assert (Z.testbit data i = Z.testbit (wrap 16 data) i) as -> by now rewrite wrap_id.
  unfold shl. rewrite Z.lor_spec, !testbit_wrap, Z.shiftl_spec by lia.
  destruct (Z.ltb_spec i 8).
  - rewrite Z.testbit_neg_r by lia. destruct (Z.ltb_spec i 16); [now rewrite andb_false_r|lia].
  - rewrite testbit_wrap, Z.shiftr_spec by lia. replace (i - 8 + 8) with i by lia.
    rewrite orb_false_r. destruct (Z.ltb_spec i 16), (Z.ltb_spec (i - 8) 8); (lia || done).
Qed.

Lemma sniffed_expected data n :
  n = 8%nat \/ n = 16%nat \/ n = 24%nat -> in_u (Z.of_nat n) data ->
  sniffed_from_decoded (Z.of_nat n) (push_bits (replicate 8 0) 1 (data_bits data n)) = expected_frame data n.
Proof.
  intros [-> | [-> | ->]] Hd.
  - rewrite push_bits_8. change (Backward8 (wrap 8 data) = Backward8 data). f_equal. now apply wrap_id.
  - rewrite push_bits_16.
    change (Forward16 (Z.lor (shl 16 (wrap 8 (Z.shiftr data 8)) 8) (wrap 8 data)) = Forward16 data).
    f_equal. now apply join16.
  - rewrite push_bits_24. reflexivity.
Qed.

(** ** The frame on the line *)

Lemma run_ticks_decoded levels s : isr_decode (last_rx (run_ticks s levels)) = isr_decode (last_rx s).
Proof.
  revert s. induction levels as [|b levels IH]; intros s; [done|].
  unfold run_ticks in *. cbn [foldl]. now rewrite IH, tick_decoded.
Qed.

(** Ticks from the acceptance of an [n]-bit frame to the end of its stop condition. *)
Definition frame_ticks (n : nat) : nat := 4 + 4 * (2 * n + 6).

Lemma length_frame_waveform bits : length (frame_waveform bits) = (4 * (2 * length bits + 6))%nat.
Proof.
  rewrite <- length_frame_half_bits. unfold frame_waveform.
  induction (frame_half_bits bits) as [|h l IH]; [done|].
  cbn [flat_map]. rewrite length_app, IH, length_replicate. cbn [length]. lia.
Qed.

(** The transmitter is done and the receiver holds an undisturbed capture. *)
Lemma frame_delivered a b data n m :
  phy_wf a -> phy_wf b -> bus_state a = Idle -> bus_state b = Idle -> (n <= 31)%nat ->
  let hb := encode_to_half_bits data (Z.of_nat n) in
  let '(a2, b2) := Nat.iter (frame_ticks n + m) line_tick (fst (start_tx a hb), b) in
  snd (start_tx a hb) = true /\ tx_done a2 /\
  exists tail, (length tail <= 1)%nat /\ rx_done b2 (ideal_bytes (data_bits data n) ++ tail) /\
    isr_decode (last_rx b2) = isr_decode (last_rx b).
Proof.
  intros Ha Hb Hai Hbi Hn hb.
  assert (represents hb (frame_half_bits (data_bits data n))) as Hrep by (apply represents_encode; lia).
  pose proof (tx_waveform m a hb _ Ha Hai Hrep) as (Hok & Htr & Hdone).
  rewrite length_frame_waveform, length_data_bits in *. fold (frame_ticks n) in *.
  rewrite line_tick_iter, Htr by (done || now rewrite Hbi).
  split; [done|]. split; [done|].
  destruct (rx_waveform (data_bits data n) m b Hb Hbi) as (tail & Ht & Hrx); [rewrite length_data_bits; lia|].
  exists tail. rewrite run_ticks_decoded. done.
Qed.

(** C13: frame transport.  Two PHYs in any reachable idle state share the line;
    one accepts an encoded 8, 16 or 24-bit frame.  After the frame's own
    duration (and for any further quiet time [m]) the transmitter is idle and
    polls [Ok], and the other has exactly one completed capture, which the
    sniffer decodes to the frame that was sent. *)
Theorem frame_transport a b data n m :
  phy_reachable a -> phy_reachable b -> bus_state a = Idle -> bus_state b = Idle ->
  n = 8%nat \/ n = 16%nat \/ n = 24%nat -> in_u (Z.of_nat n) data ->
  let hb := encode_to_half_bits data (Z.of_nat n) in
  let '(a2, b2) := Nat.iter (frame_ticks n + m) line_tick (fst (start_tx a hb), b) in
  snd (start_tx a hb) = true /\ bus_state a2 = Idle /\ snd (poll_tx_state a2) = PollOk /\
  exists ev, snd (take_completed_rx_event b2) = Some ev /\ decode_sniffed ev = expected_frame data n.
Proof.
  intros Ha Hb Hai Hbi Hn Hd hb.
  pose proof (frame_delivered a b data n m (phy_reachable_wf_aux a Ha) (phy_reachable_wf_aux b Hb)
    Hai Hbi ltac:(lia)) as Hdel. cbn zeta in Hdel. fold hb in Hdel.
  destruct (Nat.iter _ line_tick _) as [a2 b2]. destruct Hdel as (Hok & [] & tail & Ht & Hrx & Hdec).
  split; [done|]. split; [done|]. split.
  { unfold poll_tx_state. now rewrite td_yielded0, td_collision0, td_state0. }
  exists (last_rx b2). split.
  { unfold take_completed_rx_event. now rewrite (rd_rx_state _ _ Hrx). }
  rewrite (phy_reachable_not_decoded b Hb) in Hdec.
  destruct (run_ideal _ (data_bits data n) SNIFFED_BIT_LENGTHS
    (rx_done_window _ _ _ Hrx ltac:(rewrite length_data_bits; lia) Ht)) as [sc Hrun].
  { rewrite length_data_bits. lia. } { rewrite length_data_bits. destruct Hn as [-> | [-> | ->]]; reflexivity. }
  unfold decode_sniffed, decode_sniffed_with_phase, try_decode. rewrite Hdec, Hrun. cbn.
  rewrite length_data_bits. now apply sniffed_expected.
Qed.

Lemma frame_transport_witness :
  let '(a2, b2) := Nat.iter (frame_ticks 16 + 5) line_tick
                     (fst (start_tx phy_new (encode_to_half_bits 0xFE05 16)), phy_new) in
  snd (start_tx phy_new (encode_to_half_bits 0xFE05 16)) = true /\ bus_state a2 = Idle /\
  snd (poll_tx_state a2) = PollOk /\
  exists ev, snd (take_completed_rx_event b2) = Some ev /\ decode_sniffed ev = Forward16 0xFE05.
Proof.
  apply (frame_transport phy_new phy_new 0xFE05 16 5); [constructor|constructor|reflexivity|reflexivity| |].
  - right; left; reflexivity.
  - split; [discriminate|reflexivity].
Defined.

(** The capture of an answer decodes to its byte. *)
Lemma rx_done_answer s v tail : rx_done s (ideal_bytes (data_bits v 8) ++ tail) -> (length tail <= 1)%nat -> in_u 8 v ->
  exists ev, snd (take_completed_rx_event s) = Some ev /\ decode_backward_byte ev = Some v
    /\ frame_length_class (sample_count ev) = ClassBackward.
Proof.
  intros Hrx Ht Hd. exists (last_rx s). split.
  { unfold take_completed_rx_event. cbn [snd]. now rewrite (rd_rx_state _ _ Hrx). }
  split.
  - destruct (run_ideal _ (data_bits v 8) BACKWARD_FRAME_BIT_LENGTHS
      (rx_done_window _ _ _ Hrx ltac:(rewrite length_data_bits; lia) Ht)) as [sc Hrun];
      [rewrite length_data_bits; lia|reflexivity|].
    unfold decode_backward_byte, try_decode. rewrite Hrun, push_bits_8. cbn. f_equal. now apply wrap_id.
  - destruct Hrx. rewrite rd_count0. unfold frame_length_class, FORWARD_LENGTH_MIN_SAMPLES, FORWARD16_SAMPLE_COUNT.
    rewrite length_app. change (length (ideal_bytes (data_bits v 8))) with 11%nat.
    destruct (Z.leb_spec 19 (Z.of_nat (11 + length tail))); [lia|done].
Qed.

(** Backward-frame transport.  The answer byte of a responding unit reaches
    the requester: the capture of an 8-bit frame decodes, with the backward
    preference, to the byte that was sent. *)
Theorem backward_transport a b v m :
  phy_reachable a -> phy_reachable b -> bus_state a = Idle -> bus_state b = Idle -> in_u 8 v ->
  let hb := encode_to_half_bits v 8 in
  let b2 := snd (Nat.iter (frame_ticks 8 + m) line_tick (fst (start_tx a hb), b)) in
  exists ev, snd (take_completed_rx_event b2) = Some ev /\ decode_backward_byte ev = Some v
    /\ frame_length_class (sample_count ev) = ClassBackward.
Proof.
  intros Ha Hb Hai Hbi Hd hb b2. subst b2.
  pose proof (frame_delivered a b v 8 m (phy_reachable_wf_aux a Ha) (phy_reachable_wf_aux b Hb)
    Hai Hbi ltac:(lia)) as Hdel. cbn zeta in Hdel. change (Z.of_nat 8) with 8 in Hdel. fold hb in Hdel.
  destruct (Nat.iter _ line_tick _) as [a2 b2]. destruct Hdel as (_ & _ & tail & Ht & Hrx & _).
  now apply (rx_done_answer b2 v tail).
Qed.

Lemma backward_transport_witness :
  exists ev, snd (take_completed_rx_event (snd (Nat.iter (frame_ticks 8 + 0) line_tick
      (fst (start_tx phy_new (encode_to_half_bits 0xFF 8)), phy_new)))) = Some ev
    /\ decode_backward_byte ev = Some 0xFF /\ frame_length_class (sample_count ev) = ClassBackward.
Proof.
  apply (backward_transport phy_new phy_new 0xFF 0); [constructor|constructor|reflexivity|reflexivity|].
  split; [discriminate|reflexivity].
Defined.

End Receiver.
