(* ===== verification/Reception.v ===== *)
(** * When a reception completes

    The exact tick at which [PhyFsm]'s receiver reports a frame: with the
    sixteenth recessive sample after the last dominant one, and not before. *)

From S2P Require Import Prelude HalfBits Manchester ManchesterIdeal PhyFsm RxDecode Loopback Receiver.

Module Reception.
Import HalfBits Manchester ManchesterIdeal PhyFsm RxDecode Loopback Receiver.

(** ** When a reception completes *)

(** Fewer than sixteen recessive samples in a row, [idle] of them already seen. *)
Fixpoint gapless (idle : Z) (levels : list bool) : bool :=
  match levels with
  | [] => true
  | true :: levels => (idle + 1 <? 16) && gapless (idle + 1) levels
  | false :: levels => gapless 0 levels
  end.

Record receiving (s : DaliBitbangPhy) (idle : Z) : Prop := {
  re_bus : bus_state s = Rx;
  re_rx : rx_state s = Receiving;
  re_idle : rx_idle s = idle;
}.

Lemma store_rx_byte_frame s : let s' := store_rx_byte s in
  bus_state s' = bus_state s /\ rx_state s' = rx_state s /\ rx_idle s' = rx_idle s /\
  high_run_ticks s' = high_run_ticks s /\ low_run_ticks s' = low_run_ticks s.
Proof. unfold store_rx_byte. case_if; [|done]. cbn zeta. destruct (MAX_RX_IDX <? _); done. Qed.

Lemma receiving_tick_rx s idle b : receiving s idle -> 0 <= idle < 16 -> (b = true -> idle + 1 < 16) ->
  receiving (tick_rx s b) (if b then idle + 1 else 0).
Proof.
  intros [] Hi Hb. unfold tick_rx. set (s1 := s <| rx_byte := _ |> <| rx_bit_cnt := _ |>).
  destruct (store_rx_byte_frame s1) as (E1 & E2 & E3 & _). cbn zeta in *.
  change (bus_state s1) with (bus_state s) in E1. change (rx_state s1) with (rx_state s) in E2.
  change (rx_idle s1) with (rx_idle s) in E3. rewrite re_bus0 in E1. rewrite re_rx0 in E2. rewrite re_idle0 in E3.
  generalize dependent (store_rx_byte s1). clear - Hi Hb. intros s1 E1 E2 E3.
  destruct b; [|split; done].
  change (rx_idle (s1 <| rx_idle := ?z |>)) with z. rewrite E3, sat_add_small by lia. unfold RX_IDLE_LINE_HIGH_TICKS.
  destruct (Z.leb_spec 16 (idle + 1)); [specialize (Hb eq_refl); lia|]. split; done.
Qed.

Lemma receiving_tick s idle b : receiving s idle -> 0 <= idle < 16 -> (b = true -> idle + 1 < 16) ->
  receiving (tick s b) (if b then idle + 1 else 0).
Proof.
  intros Hr. rewrite tick_dispatch, (re_bus _ _ Hr). apply receiving_tick_rx. destruct Hr. now split.
Qed.

Lemma gapless_receiving levels s idle n : receiving s idle -> 0 <= idle < 16 -> gapless idle levels = true ->
  rx_state (run_ticks s (take n levels)) = Receiving.
Proof.
  revert s idle n. induction levels as [|b levels IH]; intros s idle n Hr Hi Hg.
  - rewrite take_nil. apply Hr.
  - destruct n as [|n]; [apply Hr|]. cbn [take run_ticks foldl]. cbn [gapless] in Hg.
    assert (b = true -> idle + 1 < 16) as Hb by (intros ->; bprop; done).
    pose proof (receiving_tick s idle b Hr Hi Hb) as Hr'. apply (IH _ _ n Hr'); destruct b; bprop; (lia || done).
Qed.

Lemma gapless_bit idle one levels : 0 <= idle <= 4 ->
  gapless idle (bit_wave one ++ levels) = gapless (idle_after one) levels.
Proof.
  intros Hi. destruct one; cbn -[Z.add Z.ltb].
  - reflexivity.
  - repeat (match goal with |- context [?a <? 16] => destruct (Z.ltb_spec a 16); [|lia] end; cbn [andb]). reflexivity.
Qed.

(** The last bit's second half, when recessive, already counts as idle line. *)
Definition last_bit (bits : list bool) : bool := List.last bits true.

Lemma gapless_bits bits one k : Z.of_nat k + idle_after (List.last bits one) < 16 ->
  gapless (idle_after one) (flat_map bit_wave bits ++ replicate k true) = true.
Proof.
  intros Hk. revert one Hk. induction bits as [|b bits IH]; intros one Hk.
  - cbn [flat_map app]. cbn in Hk. assert (0 <= idle_after one) by (destruct one; cbn; lia).
    generalize dependent (idle_after one). induction k as [|k IH]; intros z Hz H; [done|]. cbn [replicate gapless].
    apply andb_true_iff. split; [lia|]. apply IH; lia.
  - cbn [flat_map]. rewrite <- app_assoc, gapless_bit by (destruct one; cbn; lia). apply IH.
    now rewrite last_cons_default in Hk.
Qed.

(** The line's levels from the acceptance of a frame up to the sample that
    completes its reception: the arming, the start bit, the data and 16
    recessive samples after the last edge. *)
Definition reception_levels (bits : list bool) : list bool :=
  replicate 4 true ++ bit_wave true ++ flat_map bit_wave bits
  ++ replicate (16 - Z.to_nat (idle_after (last_bit bits))) true.

(** The counters of quiet and of held line follow the samples, whatever the state. *)
Lemma tick_runs s b :
  high_run_ticks (tick s b) = (if b then sat_add 16 (high_run_ticks s) 1 else 0) /\
  low_run_ticks (tick s b) = (if b then 0 else sat_add 16 (low_run_ticks s) 1).
Proof.
  pose (same s s' := high_run_ticks s' = high_run_ticks s /\ low_run_ticks s' = low_run_ticks s).
  assert (forall s b, same s (tick_rx s b)) as Hrx.
  { clear. intros s b. unfold tick_rx. set (s1 := s <| rx_byte := _ |> <| rx_bit_cnt := _ |>).
    destruct (store_rx_byte_frame s1) as (_ & _ & _ & E1 & E2). cbn zeta in *.
    assert (same s (store_rx_byte s1)) as H by (split; assumption). generalize dependent (store_rx_byte s1). intros s2 _ _ [H1 H2].
    destruct b; [cbn zeta; destruct (_ <=? _)|]; split; assumption. }
  assert (forall s b, same s (tick_idle s b)) as Hidle.
  { clear - Hrx. intros s b. unfold tick_idle. destruct b; [case_if; done|]. case_if; [|done].
    apply (Nat.iter_invariant _ _ _ (same s)); [|done].
    intros s' [H1 H2]. destruct (Hrx s' false). split; congruence. }
  rewrite tick_dispatch.
  change (if b then sat_add 16 (high_run_ticks s) 1 else 0) with (high_run_ticks (tick_counters s b)).
  change (if b then 0 else sat_add 16 (low_run_ticks s) 1) with (low_run_ticks (tick_counters s b)).
  generalize (tick_counters s b). intros s1. change (same s1 (match bus_state s with
    | Idle => tick_idle s1 b | Rx => tick_rx s1 b | Tx => tick_tx s1 b | CollisionTx => tick_collision_tx s1 b end)).
  destruct (bus_state s); [apply Hidle|apply Hrx| |].
  - unfold tick_tx, tick_tx_armed, enter_collision_tx. repeat case_if; try done; try exact (Hidle _ b).
    destruct (aget _ _); [case_if|]; done.
  - unfold tick_collision_tx. repeat case_if; try done; exact (Hidle _ b).
Qed.

Lemma tick_high_run s b : high_run_ticks (tick s b) = if b then sat_add 16 (high_run_ticks s) 1 else 0.
Proof. apply tick_runs. Qed.

(** Only a reception completes a capture. *)
Lemma tick_completes s b : rx_state (tick s b) = Completed -> rx_state s = Completed \/ bus_state s = Rx.
Proof.
  assert (forall s, bus_state s = Idle -> rx_state s <> Completed -> rx_state (tick_idle s b) <> Completed) as Hidle.
  { clear. intros s Hs Hc. unfold tick_idle. destruct b; [case_if; done|]. case_if; [|done].
    set (s1 := enter_rx _). assert (receiving s1 0) as H1 by done. set (n := Z.to_nat _). clearbody s1 n.
    enough (receiving (Nat.iter n (fun s => tick_rx s false) s1) 0) as [_ -> _] by done.
    apply (Nat.iter_invariant _ _ _ (fun s => receiving s 0)); [|done].
    intros s' H'. apply (receiving_tick_rx _ _ false H'); [lia|done]. }
  rewrite tick_dispatch. change (rx_state s) with (rx_state (tick_counters s b)).
  change (bus_state s) with (bus_state (tick_counters s b)). generalize (tick_counters s b). intros s1.
  destruct (bus_state s1) eqn:E; intros H; [left|now right|left|left]; destruct (decide (rx_state s1 = Completed)) as [|Hc]; try done; exfalso.
  - now apply (Hidle s1).
  - unfold tick_tx, tick_tx_armed, enter_collision_tx in H. repeat case_if_in H; try (now apply Hc).
    + revert H. now apply Hidle.
    + destruct (aget _ _); [case_if_in H|]; now apply Hc.
  - unfold tick_collision_tx in H. repeat case_if_in H; try (now apply Hc). all: revert H; now apply Hidle.
Qed.

(** A transmission ends on an idle bus. *)
Lemma tick_tx_ends s b : transmitting (bus_state s) = true -> transmitting (bus_state (tick s b)) = false ->
  bus_state (tick s b) = Idle.
Proof.
  assert (forall s b, bus_state s = Idle -> rx_debounce s = 0 -> bus_state (tick_idle s b) = Idle) as Hidle.
  { clear. intros s b H1 H2. unfold tick_idle. destruct b; [case_if; done|]. change (rx_debounce (s <| rx_debounce := ?z |>)) with z.
    rewrite H2. exact H1. }
  rewrite tick_dispatch. change (bus_state s) with (bus_state (tick_counters s b)). generalize (tick_counters s b). intros s1.
  destruct (bus_state s1) eqn:E; intros Ht; try discriminate; clear Ht.
  - unfold tick_tx, tick_tx_armed, enter_collision_tx. repeat case_if; intros Hend; try done; try (cbn in Hend; rewrite ?E in Hend; discriminate Hend).
    + now apply Hidle.
    + destruct (aget _ _); [|done]. case_if; cbn in Hend; rewrite E in Hend; discriminate Hend.
  - unfold tick_collision_tx. repeat case_if; intros Hend; try done; try (cbn in Hend; rewrite ?E in Hend; discriminate Hend).
Qed.

Lemma high_run_highs k s : 0 <= high_run_ticks s -> high_run_ticks s + Z.of_nat k <= 65535 ->
  high_run_ticks (run_ticks s (replicate k true)) = high_run_ticks s + Z.of_nat k.
Proof.
  revert s. induction k as [|k IH]; intros s H0 Hk; [cbn; lia|]. unfold run_ticks in *. cbn [replicate foldl].
  pose proof (tick_high_run s true) as E. cbn in E. rewrite sat_add_small in E by lia.
  rewrite IH; rewrite E; lia.
Qed.

Lemma high_run_after l s k : Z.of_nat k <= 65535 ->
  high_run_ticks (run_ticks s (l ++ false :: replicate k true)) = Z.of_nat k.
Proof.
  intros Hk. rewrite run_ticks_app. generalize (run_ticks s l). clear s. intros s.
  change (run_ticks s (false :: replicate k true)) with (run_ticks (tick s false) (replicate k true)).
  pose proof (tick_high_run s false) as E. cbn in E. rewrite high_run_highs; rewrite E; lia.
Qed.

(** The reception ends with sixteen recessive samples after a dominant one. *)
Lemma reception_levels_end bits : exists l, reception_levels bits = l ++ false :: replicate 16 true.
Proof.
  unfold reception_levels, last_bit.
  assert (forall bits one l, exists l',
    l ++ bit_wave one ++ flat_map bit_wave bits ++ replicate (16 - Z.to_nat (idle_after (List.last bits one))) true
    = l' ++ false :: replicate 16 true) as H; [|apply (H bits true (replicate 4 true))].
  clear. induction bits as [|b bits IH]; intros one l.
  - destruct one.
    + exists (l ++ [false; false; false]). rewrite <- app_assoc. reflexivity.
    + exists (l ++ [true; true; true; true; false; false; false]). rewrite <- app_assoc. reflexivity.
  - rewrite last_cons_default. destruct (IH b (l ++ bit_wave one)) as [l' E]. exists l'. rewrite <- E.
    cbn [flat_map]. now rewrite <- !app_assoc.
Qed.

Lemma idle_highs_state n s : bus_state s = Idle -> rx_state (run_ticks s (replicate n true)) = rx_state s.
Proof.
  revert s. induction n as [|n IH]; intros s Hi; [done|]. cbn [replicate]. unfold run_ticks in *. cbn [foldl].
  destruct (rx_idle_high s Hi) as [Hi' _]. rewrite (IH _ Hi'), tick_dispatch, Hi. unfold tick_idle. now case_if.
Qed.

(** Two dominant samples on an idle, undebounced line start the reception. *)
Lemma low_starts s : bus_state s = Idle -> rx_debounce s = 0 ->
  rx_state (tick s false) = rx_state s /\ receiving (tick (tick s false) false) 0.
Proof. intros Hi Hd. destruct s. cbn in Hi, Hd. subst. split; [done|]. split; done. Qed.

(** Until its last sample the reception is not complete. *)
Lemma reception_pending bits s n : bus_state s = Idle -> rx_state s <> Completed ->
  (n < length (reception_levels bits))%nat -> rx_state (run_ticks s (take n (reception_levels bits))) <> Completed.
Proof.
  intros Hi Hs Hn. destruct (rx_idle_highs 3 s Hi) as [Hi4 Hd4].
  unfold reception_levels in *. change (bit_wave true) with ([false; false] ++ [false; false] ++ replicate 4 true) in *.
  set (rest := flat_map bit_wave bits ++ _) in *. set (k := (16 - Z.to_nat (idle_after (last_bit bits)))%nat) in *.
  destruct (decide (n <= 4)%nat) as [H4|H4].
  { rewrite take_app_le, take_replicate by (rewrite length_replicate; lia). now rewrite idle_highs_state. }
  rewrite take_app_ge, run_ticks_app, length_replicate by (rewrite length_replicate; lia).
  pose proof (idle_highs_state 4 s Hi) as Hs4.
  generalize dependent (run_ticks s (replicate 4 true)). intros s4 Hi4 Hd4 Hs4.
  destruct (low_starts s4 Hi4 Hd4) as [Hs5 Hr6].
  destruct (n - 4)%nat as [|[|m]] eqn:Em; [lia|cbn; rewrite Hs5, Hs4; exact Hs|].
  change (take (S (S m)) _) with (false :: false :: take m ([false; false] ++ replicate 4 true ++ rest)).
  change (run_ticks s4 (false :: false :: ?l)) with (run_ticks (tick (tick s4 false) false) l).
  rewrite !length_app, length_replicate in Hn. cbn [length] in Hn.
  assert (m < length ([false; false] ++ replicate 4 true ++ rest))%nat as Hm.
  { rewrite !length_app, length_replicate in *. cbn [length]. lia. }
  assert (take m ([false; false] ++ replicate 4 true ++ rest)
    = take m ([false; false] ++ replicate 4 true ++ flat_map bit_wave bits ++ replicate (k - 1) true)) as E.
  { assert (rest = flat_map bit_wave bits ++ replicate (k - 1) true ++ [true]) as Er.
    { unfold rest. f_equal. rewrite <- replicate_cons_app. change (true :: replicate (k - 1) true) with (replicate (S (k - 1)) true).
      f_equal. unfold k. destruct (last_bit bits); cbn; lia. }
    rewrite Er in *. rewrite !app_assoc in *. rewrite take_app_le; [done|].
    rewrite !length_app in *. cbn [length] in *. lia. }
  rewrite E. rewrite (gapless_receiving _ _ 0); [done|exact Hr6|lia|].
  assert (Z.of_nat (k - 1) + idle_after (List.last bits true) < 16) as Hk
    by (unfold k, last_bit; destruct (List.last bits true); cbn; lia).
  exact (gapless_bits bits true (k - 1) Hk).
Qed.

(** With it the frame is complete, and the line has been quiet for 16 ticks. *)
Lemma reception_done bits s : phy_wf s -> bus_state s = Idle -> (length bits <= 58)%nat ->
  let s' := run_ticks s (reception_levels bits) in
  idlecnt s' = 16 /\ exists tail, (length tail <= 1)%nat /\ rx_done s' (ideal_bytes bits ++ tail).
Proof.
  intros Hwf Hi Hlen s'.
  assert (high_run_ticks s' = 16) as Hhigh.
  { subst s'. destruct (reception_levels_end bits) as [l ->]. now apply high_run_after. }
  rewrite <- Hhigh. clear Hhigh. subst s'. unfold reception_levels, last_bit. rewrite !run_ticks_app.
  destruct (rx_idle_highs 3 s Hi) as [Hi1 Hd1].
  assert (length (rx_data (run_ticks s (replicate 4 true))) = 64%nat) as Hl1.
  { apply wf_rx_data. unfold run_ticks. cbn [replicate foldl]. auto using tick_wf. }
  pose proof (rx_start _ Hi1 Hd1 Hl1) as Hstart. clear Hi1 Hd1 Hl1.
  generalize dependent (run_ticks (run_ticks s (replicate 4 true)) (bit_wave true)). intros s1 Hstart.
  destruct (rx_bits bits s1 [15] 15 true Hstart) as (byte & Hb & Hat); [easy|cbn; lia|].
  destruct (rx_end_exact _ _ _ _ Hat Hb) as [E (tail & Ht & Hdone)]; [rewrite length_app, length_map; cbn; lia|].
  split; [exact E|]. exists tail. split; [done|].
  unfold ideal_bytes. cbn [app] in *. now rewrite <- app_assoc in *.
Qed.

End Reception.
