(* ===== verification/Ring.v ===== *)
(** * The lock-free rings between the interrupt and the tasks

    Models [crates/dali2rust-dali-phy/src/ring.rs].  [try_push] and [try_pop]
    are the operations run without interruption; [ring_step] cuts each of them
    at its atomic accesses, so that a producer and a consumer interleave freely
    (accesses are sequentially consistent).  A slot is [None] until written. *)

From S2P Require Import Prelude.

Module Ring.

Section RingOf.
Context {T : Type} (CAP : Z).

Record SpscRing := MkRing { slots : list (option T); head : Z; tail : Z }.

#[global] Instance eta_SpscRing : Eta SpscRing := fun r => MkRing (slots r) (head r) (tail r).

Definition ring_new : SpscRing := MkRing (replicate (Z.to_nat CAP) None) 0 0.

(** [i.wrapping_add(1)] on a 32-bit [usize]. *)
Definition next (i : Z) : Z :=
  let n := wrapping_add 32 i 1 in if CAP <=? n then 0 else n.

(** [true] for [Ok(())]; the refused item goes back to the caller. *)
Definition try_push (r : SpscRing) (item : T) : SpscRing * bool :=
  let next_head := next (head r) in
  if next_head =? tail r then (r, false)
  else (r <| slots := aset (slots r) (head r) (Some item) |> <| head := next_head |>, true).

(** The outer option is the code's; the inner one is the slot's, [None] for a
    read of uninitialised memory. *)
Definition try_pop (r : SpscRing) : SpscRing * option (option T) :=
  if tail r =? head r then (r, None)
  else
    let item := default None (aget (slots r) (tail r)) in
    (r <| tail := next (tail r) |>, Some item).

Definition is_empty (r : SpscRing) : bool := head r =? tail r.

(** ** Interleavings *)

Inductive producer :=
  | PIdle
  | PHead (item : T) (h : Z)
  | PTail (item : T) (h t : Z)
  | PStore (item : T) (next_head : Z).

Inductive consumer :=
  | CIdle
  | CTail (t : Z)
  | CHead (t h : Z)
  | CRead (item : option T) (t : Z).

(** The ring, the two program points, and the items whose push and pop have
    taken effect, oldest first. *)
Record world := MkWorld {
  ring : SpscRing; prod : producer; cons_ : consumer;
  pushed : list T; popped : list (option T) }.

#[global] Instance eta_world : Eta world := fun w =>
  MkWorld (ring w) (prod w) (cons_ w) (pushed w) (popped w).

Inductive ring_step : world -> world -> Prop :=
  | step_load_head w item :
      prod w = PIdle -> ring_step w (w <| prod := PHead item (head (ring w)) |>)
  | step_load_tail w item h :
      prod w = PHead item h -> ring_step w (w <| prod := PTail item h (tail (ring w)) |>)
  | step_refuse w item h t :
      prod w = PTail item h t -> next h = t -> ring_step w (w <| prod := PIdle |>)
  | step_write_slot w item h t :
      prod w = PTail item h t -> next h <> t ->
      ring_step w (w <| ring := ring w <| slots := aset (slots (ring w)) h (Some item) |> |>
                     <| prod := PStore item (next h) |>)
  | step_store_head w item n :
      prod w = PStore item n ->
      ring_step w (w <| ring := ring w <| head := n |> |> <| prod := PIdle |>
                     <| pushed := pushed w ++ [item] |>)
  | step_pop_tail w :
      cons_ w = CIdle -> ring_step w (w <| cons_ := CTail (tail (ring w)) |>)
  | step_pop_head w t :
      cons_ w = CTail t -> ring_step w (w <| cons_ := CHead t (head (ring w)) |>)
  | step_pop_none w t h :
      cons_ w = CHead t h -> t = h -> ring_step w (w <| cons_ := CIdle |>)
  | step_read_slot w t h :
      cons_ w = CHead t h -> t <> h ->
      ring_step w (w <| cons_ := CRead (default None (aget (slots (ring w)) t)) t |>)
  | step_store_tail w item t :
      cons_ w = CRead item t ->
      ring_step w (w <| ring := ring w <| tail := next t |> |> <| cons_ := CIdle |>
                     <| popped := popped w ++ [item] |>).

Definition world_new : world := MkWorld ring_new PIdle CIdle [] [].

Inductive ring_reachable : world -> Prop :=
  | rr_new : ring_reachable world_new
  | rr_step w w' : ring_reachable w -> ring_step w w' -> ring_reachable w'.

(** ** The ring as a bounded queue *)

Hypothesis HCAP : 2 <= CAP < 2 ^ 32.

(** Position [k] places after [i]. *)
Definition pos (i k : Z) : Z := (i + k) mod CAP.

(** [content] is what lies between [tail] and [head]. *)
Record holds (r : SpscRing) (content : list T) : Prop := {
  ho_slots : length (slots r) = Z.to_nat CAP;
  ho_tail : 0 <= tail r < CAP;
  ho_head : head r = pos (tail r) (Z.of_nat (length content));
  ho_room : Z.of_nat (length content) < CAP;
  ho_items : forall k x, content !! k = Some x -> aget (slots r) (pos (tail r) (Z.of_nat k)) = Some (Some x);
}.

Lemma next_pos i : 0 <= i < CAP -> next i = pos i 1.
Proof.
  intros Hi. unfold next, pos, wrapping_add. rewrite wrap_id by (unfold in_u; lia).
  destruct (Z.leb_spec CAP (i + 1)).
  - replace (i + 1) with CAP by lia. now rewrite Z.mod_same by lia.
  - now rewrite Z.mod_small by lia.
Qed.

Lemma pos_range i k : 0 <= pos i k < CAP.
Proof. apply Z.mod_pos_bound. lia. Qed.

Lemma pos_pos i j k : pos (pos i j) k = pos i (j + k).
Proof. unfold pos. rewrite Z.add_mod_idemp_l by lia. f_equal. lia. Qed.

Lemma pos_inj i j k : 0 <= j < CAP -> 0 <= k < CAP -> pos i j = pos i k -> j = k.
Proof.
  intros Hj Hk E. unfold pos in E.
  assert ((j - k) mod CAP = 0) as Hm.
  { replace (j - k) with ((i + j) - (i + k)) by lia. rewrite Zminus_mod, E, Z.sub_diag. apply Z.mod_0_l. lia. }
  apply Z.mod_divide in Hm as [q Hq]; [|lia]. assert (q = 0) by (clear -Hq Hj Hk; nia). subst q. lia.
Qed.

Lemma holds_new : holds ring_new [].
Proof.
  split; cbn [ring_new slots head tail length].
  - apply length_replicate.
  - lia.
  - unfold pos. now rewrite Z.mod_small by lia.
  - lia.
  - intros k x. rewrite lookup_nil. discriminate.
Qed.

(** Writing the slot at [head] does not touch the content. *)
Lemma holds_write r content x :
  holds r content -> holds (r <| slots := aset (slots r) (head r) x |>) content.
Proof.
  intros []. split; cbn; try done; [now rewrite length_aset|].
  intros k y Hk. pose proof (lookup_lt_Some _ _ _ Hk).
  rewrite aget_aset_ne; [auto|rewrite ho_head0; apply pos_range|apply pos_range|].
  rewrite ho_head0. intros E. apply pos_inj in E; lia.
Qed.

(** Publishing the new head appends the item written there. *)
Lemma holds_publish r content x :
  holds r content -> aget (slots r) (head r) = Some (Some x) -> Z.of_nat (length content) + 1 < CAP ->
  holds (r <| head := next (head r) |>) (content ++ [x]).
Proof.
  intros [] Hx Hroom. split; cbn; try done.
  - rewrite next_pos by (rewrite ho_head0; apply pos_range).
    rewrite ho_head0, pos_pos, length_app. cbn. f_equal. lia.
  - rewrite length_app. cbn. lia.
  - intros k y Hk. apply lookup_app_Some in Hk as [Hk|[Hge Hk]]; [auto|].
    destruct (k - length content)%nat as [|j] eqn:E; [|now destruct j].
    cbn in Hk. simplify_eq. replace k with (length content) by lia. now rewrite <- ho_head0.
Qed.

(** Advancing the tail drops the oldest item. *)
Lemma holds_advance r x content :
  holds r (x :: content) -> holds (r <| tail := next (tail r) |>) content.
Proof.
  intros []. cbn [length] in *. split; cbn; try done.
  - rewrite next_pos by done. apply pos_range.
  - rewrite ho_head0, next_pos, pos_pos by done. f_equal. lia.
  - lia.
  - intros k y Hk. rewrite next_pos, pos_pos by done. replace (1 + Z.of_nat k) with (Z.of_nat (S k)) by lia.
    now apply ho_items0.
Qed.

Lemma holds_full r content :
  holds r content -> (next (head r) = tail r <-> Z.of_nat (length content) = CAP - 1).
Proof.
  intros []. rewrite next_pos by (rewrite ho_head0; apply pos_range). rewrite ho_head0, pos_pos.
  assert (tail r = pos (tail r) 0) as E by (unfold pos; rewrite Z.add_0_r, Z.mod_small; lia).
  split; intros H.
  - destruct (Z.eq_dec (Z.of_nat (length content)) (CAP - 1)); [done|].
    rewrite E in H at 2. apply pos_inj in H; lia.
  - rewrite H. unfold pos. replace (tail r + (CAP - 1 + 1)) with (tail r + 1 * CAP) by lia.
    now rewrite Z.mod_add, Z.mod_small by lia.
Qed.

Lemma holds_empty r content : holds r content -> (tail r = head r <-> content = []).
Proof.
  intros []. assert (tail r = pos (tail r) 0) as E by (unfold pos; rewrite Z.add_0_r, Z.mod_small; lia).
  split.
  - intros H. rewrite E, ho_head0 in H at 1. apply pos_inj in H; [|lia|lia]. now destruct content.
  - intros ->. now rewrite ho_head0.
Qed.

(** ** The invariant of the interleavings *)

(** What each program point knows about the content. *)
Definition producer_inv (r : SpscRing) (content : list T) (p : producer) : Prop :=
  match p with
  | PIdle => True
  | PHead _ h => h = head r
  | PTail _ h t => h = head r /\ exists m, Z.of_nat (length content) <= m < CAP /\ 0 <= t < CAP /\ h = pos t m
  | PStore x n =>
      n = next (head r) /\ aget (slots r) (head r) = Some (Some x) /\ Z.of_nat (length content) + 1 < CAP
  end.

Definition consumer_inv (r : SpscRing) (content : list T) (c : consumer) : Prop :=
  match c with
  | CIdle => True
  | CTail t => t = tail r
  | CHead t h => t = tail r /\ exists m, 0 <= m <= Z.of_nat (length content) /\ h = pos t m
  | CRead item t => t = tail r /\ exists x rest, content = x :: rest /\ item = Some x
  end.

Record ring_inv (w : world) (content : list T) : Prop := {
  ri_holds : holds (ring w) content;
  ri_prod : producer_inv (ring w) content (prod w);
  ri_cons : consumer_inv (ring w) content (cons_ w);
  ri_log : map Some (pushed w) = popped w ++ map Some content;
}.

Lemma ring_inv_producer w w' content :
  ring_inv w content -> ring_step w w' -> prod w <> prod w' -> cons_ w = cons_ w' ->
  exists content', ring_inv w' content'.
Proof.
  intros [Hh Hp Hc Hl] Hs Hne Heq. destruct Hs; cbn in *; try congruence; rewrite H in Hp; cbn in Hp.
  - exists content. split; cbn; done.
  - exists content. split; cbn; try done. destruct Hh. subst h. split; [done|].
    eexists. split; [|split; [|exact ho_head0]]; lia.
  - exists content. split; cbn; done.
  - destruct Hp as [-> (m & Hm & Ht & E)].
    assert (Z.of_nat (length content) + 1 < CAP) as Hroom.
    { destruct (Z.eq_dec m (CAP - 1)) as [Hm'|]; [|lia]. exfalso. apply H0.
      rewrite next_pos by (rewrite E; apply pos_range). rewrite E, pos_pos, Hm'.
      unfold pos. replace (t + (CAP - 1 + 1)) with (t + 1 * CAP) by lia. now rewrite Z.mod_add, Z.mod_small by lia. }
    exists content. split; cbn; try done.
    + now apply holds_write.
    + split; [done|]. split; [|done]. destruct Hh. apply aget_aset_eq.
      rewrite ho_slots0, ho_head0. pose proof (pos_range (tail (ring w)) (Z.of_nat (length content))). lia.
  - destruct Hp as (-> & Hx & Hroom). exists (content ++ [item]). split; cbn; try done.
    + now apply holds_publish.
    + destruct (cons_ w); cbn in *; try done.
      * destruct Hc as [-> (m & Hm & ->)]. split; [done|]. exists m. rewrite length_app. split; [lia|done].
      * destruct Hc as [-> (x & rest & -> & ->)]. split; [done|]. now exists x, (rest ++ [item]).
    + rewrite !map_app, Hl, app_assoc. done.
Qed.

Lemma ring_inv_consumer w w' content :
  ring_inv w content -> ring_step w w' -> prod w = prod w' -> cons_ w <> cons_ w' ->
  exists content', ring_inv w' content'.
Proof.
  intros [Hh Hp Hc Hl] Hs Heq Hne. destruct Hs; cbn in *; try congruence; rewrite H in Hc; cbn in Hc.
  - exists content. split; cbn; done.
  - exists content. split; cbn; try done. destruct Hh. subst t. split; [done|].
    eexists. split; [|exact ho_head0]. lia.
  - exists content. split; cbn; done.
  - destruct Hc as [-> (m & Hm & E)]. exists content. split; cbn; try done. split; [done|].
    destruct content as [|x rest].
    { exfalso. apply H0. cbn in Hm. rewrite E. unfold pos. replace m with 0 by lia.
      destruct Hh. now rewrite Z.add_0_r, Z.mod_small by lia. }
    exists x, rest. split; [done|]. destruct Hh. specialize (ho_items0 0%nat x eq_refl).
    unfold pos in ho_items0. rewrite Z.add_0_r, Z.mod_small in ho_items0 by lia. now rewrite ho_items0.
  - destruct Hc as [-> (x & rest & -> & ->)]. exists rest. split; cbn; try done.
    + now apply holds_advance with x.
    + destruct (prod w); cbn in *; try done.
      * destruct Hp as [-> (m & Hm & Ht & E)]. split; [done|]. exists m. split; [lia|done].
      * destruct Hp as (-> & Hx & Hroom). split; [done|]. split; [done|lia].
    + rewrite Hl. cbn. now rewrite <- app_assoc.
Qed.

Lemma ring_step_sides w w' :
  ring_step w w' -> (prod w <> prod w' /\ cons_ w = cons_ w') \/ (prod w = prod w' /\ cons_ w <> cons_ w').
Proof. destruct 1; cbn; [left..|right|right|right|right|right]; (split; [congruence|done]) || (split; [done|congruence]). Qed.

Lemma ring_reachable_inv w : ring_reachable w -> exists content, ring_inv w content.
Proof.
  induction 1 as [|w w' _ [content IH] Hs].
  - exists []. split; cbn; try done. apply holds_new.
  - destruct (ring_step_sides w w' Hs) as [[? ?]|[? ?]];
      eauto using ring_inv_producer, ring_inv_consumer.
Qed.

(** ** The operations run alone *)

Lemma holds_push r content x :
  holds r content ->
  try_push r x = (r, false) /\ Z.of_nat (length content) = CAP - 1 \/
  exists r', try_push r x = (r', true) /\ holds r' (content ++ [x]).
Proof.
  intros Hh. pose proof (holds_full r content Hh) as Hfull. unfold try_push.
  destruct (Z.eqb_spec (next (head r)) (tail r)) as [E|E]; [left; tauto|right].
  eexists. split; [done|]. apply (holds_write r content (Some x)) in Hh as Hw.
  refine (holds_publish _ content x Hw _ _).
  - cbn. destruct Hh. apply aget_aset_eq. rewrite ho_slots0, ho_head0.
    pose proof (pos_range (tail r) (Z.of_nat (length content))). lia.
  - destruct Hh. destruct (Z.eq_dec (Z.of_nat (length content)) (CAP - 1)); [tauto|lia].
Qed.

Lemma holds_pop r content :
  holds r content ->
  match content with
  | [] => try_pop r = (r, None)
  | x :: rest => exists r', try_pop r = (r', Some (Some x)) /\ holds r' rest
  end.
Proof.
  intros Hh. pose proof (holds_empty r content Hh) as He. unfold try_pop.
  destruct (Z.eqb_spec (tail r) (head r)) as [E|E]; destruct content as [|x rest]; try tauto.
  - destruct He as [He _]. now specialize (He E).
  - exists (r <| tail := next (tail r) |>). split; [|now apply holds_advance with x]. destruct Hh. specialize (ho_items0 0%nat x eq_refl).
    unfold pos in ho_items0. rewrite Z.add_0_r, Z.mod_small in ho_items0 by lia. now rewrite ho_items0.
Qed.

(** What a ring holds, oldest item first. *)
Definition ring_items (r : SpscRing) : list T :=
  omap (fun k => default None (aget (slots r) (pos (tail r) k))) (seqZ 0 ((head r - tail r) mod CAP)).

Lemma omap_seqZ_lookup (f : Z -> option T) (l : list T) i :
  (forall k x, l !! k = Some x -> f (i + Z.of_nat k) = Some x) ->
  omap f (seqZ i (Z.of_nat (length l))) = l.
Proof.
  revert i. induction l as [|x l IH]; intros i H; [done|].
  replace (Z.of_nat (length (x :: l))) with (Z.succ (Z.of_nat (length l))) by (cbn; lia).
  rewrite seqZ_cons by lia. cbn [omap list_omap].
  assert (f i = Some x) as -> by (rewrite <- (H 0%nat x eq_refl); f_equal; lia).
  rewrite Z.pred_succ. f_equal. apply IH. intros k y Hk.
  rewrite <- (H (S k) y Hk). f_equal. lia.
Qed.

Lemma holds_items r content : holds r content -> ring_items r = content.
Proof.
  intros []. unfold ring_items. rewrite ho_head0.
  replace ((pos (tail r) (Z.of_nat (length content)) - tail r) mod CAP) with (Z.of_nat (length content)).
  - apply omap_seqZ_lookup. intros k x Hk. now rewrite Z.add_0_l, ho_items0 with (x := x).
  - unfold pos. rewrite Zminus_mod_idemp_l. replace (_ + _ - _) with (Z.of_nat (length content)) by lia.
    now rewrite Z.mod_small by lia.
Qed.

End RingOf.

(** The queue a ring implements: at most [CAP - 1] items, refused when full. *)
Inductive ring_call (T : Type) := CallPush (x : T) | CallPop.
Arguments CallPush {T} x.
Arguments CallPop {T}.

Inductive ring_result (T : Type) := Pushed (ok : bool) | Popped (item : option (option T)).
Arguments Pushed {T} ok.
Arguments Popped {T} item.

Definition queue_do {T} (CAP : Z) (q : list T) (c : ring_call T) : list T * ring_result T :=
  match c with
  | CallPush x => if Z.of_nat (length q) =? CAP - 1 then (q, Pushed false) else (q ++ [x], Pushed true)
  | CallPop => match q with [] => ([], Popped None) | x :: rest => (rest, Popped (Some (Some x))) end
  end.

Definition ring_do {T} (CAP : Z) (r : @SpscRing T) (c : ring_call T) : @SpscRing T * ring_result T :=
  match c with
  | CallPush x => let '(r, ok) := try_push CAP r x in (r, Pushed ok)
  | CallPop => let '(r, item) := try_pop CAP r in (r, Popped item)
  end.

Fixpoint run_calls {S C R} (do : S -> C -> S * R) (s : S) (calls : list C) : list R :=
  match calls with
  | [] => []
  | c :: calls => let '(s, res) := do s c in res :: run_calls do s calls
  end.

Lemma ring_refines_aux {T} CAP (r : @SpscRing T) q calls :
  2 <= CAP < 2 ^ 32 -> holds CAP r q ->
  run_calls (ring_do CAP) r calls = run_calls (queue_do CAP) q calls.
Proof.
  intros Hcap. revert r q. induction calls as [|[x|] calls IH]; intros r q Hh; cbn [run_calls ring_do queue_do]; [done|..].
  - destruct (holds_push CAP Hcap r q x Hh) as [[-> Hfull]|(r' & E & Hh')].
    + destruct (Z.eqb_spec (Z.of_nat (length q)) (CAP - 1)); [|lia]. f_equal. auto.
    + destruct (Z.eqb_spec (Z.of_nat (length q)) (CAP - 1)) as [Hf|_].
      * destruct Hh'. rewrite length_app in ho_room0. cbn in ho_room0. lia.
      * rewrite E. f_equal. auto.
  - pose proof (holds_pop CAP Hcap r q Hh) as Hp. destruct q as [|x rest].
    + rewrite Hp. f_equal. auto.
    + destruct Hp as (r' & -> & Hh'). f_equal. auto.
Qed.

(** the ring is a bounded FIFO queue.  Whatever sequence of pushes and pops
    runs on a new ring of capacity [CAP], every result (the refusals of a full
    ring included) is that of a queue holding at most [CAP - 1] items. *)
Theorem ring_refines_queue (T : Type) (CAP : Z) (calls : list (ring_call T)) :
  2 <= CAP < 2 ^ 32 ->
  run_calls (ring_do CAP) (ring_new CAP) calls = run_calls (queue_do CAP) [] calls.
Proof. intros Hcap. apply ring_refines_aux; [done|]. now apply holds_new. Qed.

Lemma ring_refines_queue_witness :
  run_calls (ring_do 3) (ring_new 3) [CallPush 7; CallPush 8; CallPush 9; CallPop; CallPop; CallPop]
  = [Pushed true; Pushed true; Pushed false; Popped (Some (Some 7)); Popped (Some (Some 8)); Popped None].
Proof.
  rewrite (ring_refines_queue Z 3); [reflexivity|]. split; [discriminate|reflexivity].
Defined.

(** C28: under every interleaving of one producer and one consumer, item by item
    and atomic access by atomic access, the consumer receives exactly the
    items pushed, in order and without duplicates: what was popped is a prefix
    of what was pushed, no uninitialised slot is ever read, and at most
    [CAP - 1] items are in flight. *)
Theorem ring_interleavings_fifo (T : Type) (CAP : Z) (w : @world T) :
  2 <= CAP < 2 ^ 32 -> ring_reachable CAP w ->
  exists in_flight, map Some (pushed w) = popped w ++ map Some in_flight /\
    Z.of_nat (length in_flight) <= CAP - 1.
Proof.
  intros Hcap Hr. destruct (ring_reachable_inv CAP Hcap w Hr) as [content [Hh _ _ Hl]].
  exists content. split; [done|]. destruct Hh. lia.
Qed.

(** Extends a run by one step. *)
Ltac ring_go H step :=
  let H' := fresh in
  eassert (ring_reachable 3 _) as H' by (eapply (rr_step 3 _ _ H), step; (reflexivity || discriminate));
  clear H; rename H' into H.

(** One item goes through; the producer has started on the next. *)
Lemma ring_run_example : exists w : @world Z, ring_reachable 3 w /\ prod w = PHead 5 1 /\ popped w = [Some 4].
Proof.
  pose proof (@rr_new Z 3) as H.
  ring_go H (step_load_head (T := Z) 3 (world_new 3) 4). ring_go H (step_load_tail (T := Z) 3).
  ring_go H (step_write_slot (T := Z) 3). ring_go H (step_store_head (T := Z) 3).
  ring_go H (step_pop_tail (T := Z) 3). ring_go H (step_pop_head (T := Z) 3).
  ring_go H (step_read_slot (T := Z) 3). ring_go H (step_store_tail (T := Z) 3).
  eassert (ring_reachable 3 _) as H8
    by (eapply (rr_step 3 _ _ H), (step_load_head 3 _ 5); reflexivity).
  eexists. split; [exact H8|]. done.
Qed.

Lemma ring_interleavings_fifo_witness :
  exists (w : @world Z) in_flight, popped w = [Some 4] /\
    map Some (pushed w) = popped w ++ map Some in_flight /\ Z.of_nat (length in_flight) <= 3 - 1.
Proof.
  destruct ring_run_example as (w & Hw & _ & Hp). exists w.
  destruct (ring_interleavings_fifo Z 3 w ltac:(lia) Hw) as (f & H1 & H2). exists f. auto.
Defined.

End Ring.
