(* ===== verification/Mailbox.v ===== *)
(** * The one-slot mailboxes between the tasks and the interrupt

    Models [crates/dali2rust-dali-phy/src/answer.rs] (a staged backward frame)
    and [command.rs] (a forward frame to transmit).  Both are the same protocol:
    the producer fills plain fields while a state byte says idle and then sets
    it; the consumer reads them while it is set and then clears it.  [Handshake]
    is that protocol cut at every field access; the two cells instantiate it. *)

From S2P Require Import Prelude HalfBits.

Module Mailbox.
Import HalfBits.

(** ** [AtomicAnswerCell] *)

Definition ANSWER_IDLE : Z := 0.
Definition ANSWER_STAGED : Z := 1.

Record AtomicAnswerCell := MkAnswerCell {
  ac_state : Z; ac_epoch : Z; ac_data : list Z; ac_len : Z }.

#[global] Instance eta_AtomicAnswerCell : Eta AtomicAnswerCell := fun c =>
  MkAnswerCell (ac_state c) (ac_epoch c) (ac_data c) (ac_len c).

Definition answer_cell_new : AtomicAnswerCell := MkAnswerCell ANSWER_IDLE 0 (replicate 9 0) 0.

Definition stage (c : AtomicAnswerCell) (epoch : Z) (hb : HalfBitBuffer) : AtomicAnswerCell * bool :=
  if (hb_length hb =? 0) || (MAX_DATA_HALF_BITS <? hb_length hb) then (c, false)
  else if negb (ac_state c =? ANSWER_IDLE) then (c, false)
  else
    let c := c <| ac_data := hb_data hb |> <| ac_len := hb_length hb |> <| ac_epoch := epoch |> in
    if ac_state c =? ANSWER_IDLE then (c <| ac_state := ANSWER_STAGED |>, true) else (c, false).

Definition staged_epoch (c : AtomicAnswerCell) : option Z :=
  if negb (ac_state c =? ANSWER_STAGED) then None else Some (ac_epoch c).

Definition take_answer (c : AtomicAnswerCell) : AtomicAnswerCell * option (Z * HalfBitBuffer) :=
  if negb (ac_state c =? ANSWER_STAGED) then (c, None)
  else
    let len := ac_len c in
    let epoch := ac_epoch c in
    let data := ac_data c in
    (c <| ac_state := ANSWER_IDLE |>, Some (epoch, MkHalfBitBuffer data len)).

Definition discard (c : AtomicAnswerCell) : AtomicAnswerCell := c <| ac_state := ANSWER_IDLE |>.

(** ** [AtomicCommandCell] *)

Definition CMD_IDLE : Z := 0.
Definition CMD_START_TX : Z := 1.

Record TxGates := MkTxGates { g_min_idle_ticks : Z; g_restart_gate : Z }.

Definition settle (min_idle_ticks : Z) : TxGates := MkTxGates min_idle_ticks 0.

Record AtomicCommandCell := MkCommandCell {
  cc_state : Z;
  cc_tx_data : list Z;
  cc_tx_halfbit_len : Z;
  cc_expects_backward : bool;
  cc_min_idle_ticks : Z;
  cc_restart_gate : Z;
  cc_exchange_id : Z }.

#[global] Instance eta_AtomicCommandCell : Eta AtomicCommandCell := fun c =>
  MkCommandCell (cc_state c) (cc_tx_data c) (cc_tx_halfbit_len c) (cc_expects_backward c)
    (cc_min_idle_ticks c) (cc_restart_gate c) (cc_exchange_id c).

Record TxCommand := MkTxCommand {
  tc_data : list Z;
  tc_len : Z;
  tc_expects_backward : bool;
  tc_min_idle_ticks : Z;
  tc_restart_gate : Z;
  tc_exchange_id : Z }.

Definition command_cell_new : AtomicCommandCell := MkCommandCell CMD_IDLE (replicate 9 0) 0 false 0 0 0.

Definition send_packed_tx (c : AtomicCommandCell) (halfbit_data : list Z) (halfbit_len : Z)
    (expects_backward : bool) (gates : TxGates) (exchange_id : Z) : AtomicCommandCell * bool :=
  if (halfbit_len =? 0) || (MAX_DATA_HALF_BITS <? halfbit_len) then (c, false)
  else if negb (cc_state c =? CMD_IDLE) then (c, false)
  else
    let c := c <| cc_tx_data := halfbit_data |> <| cc_expects_backward := expects_backward |>
               <| cc_min_idle_ticks := g_min_idle_ticks gates |> <| cc_restart_gate := g_restart_gate gates |>
               <| cc_exchange_id := exchange_id |> <| cc_tx_halfbit_len := halfbit_len |> in
    if cc_state c =? CMD_IDLE then (c <| cc_state := CMD_START_TX |>, true) else (c, false).

Definition take_command (c : AtomicCommandCell) : AtomicCommandCell * option TxCommand :=
  if negb (cc_state c =? CMD_START_TX) then (c, None)
  else
    (c <| cc_state := CMD_IDLE |>,
     Some (MkTxCommand (cc_tx_data c) (cc_tx_halfbit_len c) (cc_expects_backward c)
             (cc_min_idle_ticks c) (cc_restart_gate c) (cc_exchange_id c))).

(** ** The handshake, one field access at a time *)

Section Handshake.
(** The number of fields, and the orders in which the two sides touch them. *)
Context (N : nat) (worder rorder : list nat).
Hypothesis Hw_all : forall i, In i worder <-> (i < N)%nat.
Hypothesis Hr_all : forall i, In i rorder -> (i < N)%nat.

Record cell := MkCell { full : bool; fields : list Z }.

Inductive putter := PutIdle | Putting (msg : list Z) (k : nat).
Inductive getter := GetIdle | Getting (acc : list Z).

(** [staged] are the messages whose publication took effect; [outcomes] what
    became of them: [Some] of the field values read, or [None] when discarded. *)
Record hs := MkHs {
  hs_cell : cell; hs_put : putter; hs_get : getter;
  staged : list (list Z); outcomes : list (option (list Z)) }.

Inductive hs_step : hs -> hs -> Prop :=
  | hs_check s msg :
      hs_put s = PutIdle -> length msg = N -> full (hs_cell s) = false ->
      hs_step s (MkHs (hs_cell s) (Putting msg 0) (hs_get s) (staged s) (outcomes s))
  | hs_write s msg k i :
      hs_put s = Putting msg k -> worder !! k = Some i ->
      hs_step s (MkHs (MkCell (full (hs_cell s)) (<[i := nth i msg 0]> (fields (hs_cell s))))
                   (Putting msg (S k)) (hs_get s) (staged s) (outcomes s))
  | hs_publish s msg k :
      hs_put s = Putting msg k -> worder !! k = None -> full (hs_cell s) = false ->
      hs_step s (MkHs (MkCell true (fields (hs_cell s))) PutIdle (hs_get s) (staged s ++ [msg]) (outcomes s))
  | hs_lost s msg k :
      hs_put s = Putting msg k -> worder !! k = None -> full (hs_cell s) = true ->
      hs_step s (MkHs (hs_cell s) PutIdle (hs_get s) (staged s) (outcomes s))
  | hs_open s :
      hs_get s = GetIdle -> full (hs_cell s) = true ->
      hs_step s (MkHs (hs_cell s) (hs_put s) (Getting []) (staged s) (outcomes s))
  | hs_read s acc i :
      hs_get s = Getting acc -> rorder !! length acc = Some i ->
      hs_step s (MkHs (hs_cell s) (hs_put s) (Getting (acc ++ [nth i (fields (hs_cell s)) 0]))
                   (staged s) (outcomes s))
  | hs_release s acc :
      hs_get s = Getting acc -> rorder !! length acc = None ->
      hs_step s (MkHs (MkCell false (fields (hs_cell s))) (hs_put s) GetIdle (staged s) (outcomes s ++ [Some acc]))
  | hs_discard s :
      hs_get s = GetIdle -> full (hs_cell s) = true ->
      hs_step s (MkHs (MkCell false (fields (hs_cell s))) (hs_put s) GetIdle (staged s) (outcomes s ++ [None])).

Inductive hs_reachable (fields0 : list Z) : hs -> Prop :=
  | hr_new : hs_reachable fields0 (MkHs (MkCell false fields0) PutIdle GetIdle [] [])
  | hr_step s s' : hs_reachable fields0 s -> hs_step s s' -> hs_reachable fields0 s'.

(** The values a reader of message [msg] sees, in its own order. *)
Definition seen (msg : list Z) : list Z := map (fun i => nth i msg 0) rorder.

Definition outcome_of (o : option (list Z)) (msg : list Z) : Prop := o = Some (seen msg) \/ o = None.

(** While the cell is full its fields are the last staged message and the
    producer is not writing; a producer has written its first [k] fields. *)
Record hs_inv (s : hs) : Prop := {
  hi_len : length (fields (hs_cell s)) = N;
  hi_put : match hs_put s with
           | PutIdle => True
           | Putting msg k => length msg = N /\ full (hs_cell s) = false /\
               forall i, In i (take k worder) -> nth i (fields (hs_cell s)) 0 = nth i msg 0
           end;
  hi_full : if full (hs_cell s)
            then exists old msg, staged s = old ++ [msg] /\ fields (hs_cell s) = msg
                 /\ Forall2 outcome_of (outcomes s) old
            else Forall2 outcome_of (outcomes s) (staged s);
  hi_get : match hs_get s with
           | GetIdle => True
           | Getting acc => full (hs_cell s) = true /\ (length acc <= length rorder)%nat /\
               acc = take (length acc) (seen (fields (hs_cell s)))
           end;
}.

Lemma nth_insert (l : list Z) i j x : (i < length l)%nat -> nth j (<[i := x]> l) 0 = if decide (j = i) then x else nth j l 0.
Proof.
  intros Hi. rewrite !nth_lookup. case_decide as E.
  - subst. now rewrite list_lookup_insert_eq.
  - now rewrite list_lookup_insert_ne by done.
Qed.

Lemma nth_seen msg k i : rorder !! k = Some i -> seen msg !! k = Some (nth i msg 0).
Proof. intros H. unfold seen. now rewrite list_lookup_fmap, H. Qed.

Lemma hs_inv_put s s' : hs_inv s -> hs_step s s' -> hs_get s = hs_get s' -> outcomes s = outcomes s' -> hs_inv s'.
Proof.
  intros [Hlen Hput Hfull Hget] Hs Hg Ho.
  destruct Hs as [s msg H Hm Hf|s msg k i H Hi|s msg k H Hi Hf|s msg k H Hi Hf|s H _|s acc i H _|s acc H _|s H _];
    cbn in *; rewrite ?H in *.
  - split; cbn; try done.
  - destruct Hput as (Hm & Hf & Hk). rewrite Hf in *.
    assert (i < length (fields (hs_cell s)))%nat as Hb.
    { rewrite Hlen. apply Hw_all, list_elem_of_In. eapply list_elem_of_lookup_2; eauto. }
    split; cbn; try done; [now rewrite length_insert| |].
    + split_and!; try done. intros j Hj. rewrite nth_insert by done. case_decide; [congruence|].
      apply Hk. rewrite (take_S_r _ _ _ Hi) in Hj. apply in_app_iff in Hj as [|[|[]]]; [done|congruence].
    + destruct (hs_get s); [done|]. now destruct Hget.
  - destruct Hput as (Hm & _ & Hk). rewrite Hf in *. split; cbn; try done.
    + exists (staged s), msg. split_and!; try done.
      apply (nth_ext _ _ 0 0); [congruence|]. intros i Hb. apply Hk.
      apply lookup_ge_None_1 in Hi. rewrite take_ge by done. apply Hw_all. now rewrite <- Hlen.
    + destruct (hs_get s); [done|]. now destruct Hget.
  - split; cbn; done.
  - congruence.
  - exfalso. inversion Hg as [E]. apply (f_equal length) in E. rewrite length_app in E. cbn in E. lia.
  - congruence.
  - exfalso. apply (f_equal length) in Ho. rewrite length_app in Ho. cbn in Ho. lia.
Qed.

Lemma hs_inv_get s s' : hs_inv s -> hs_step s s' -> hs_put s = hs_put s' -> staged s = staged s' -> hs_inv s'.
Proof.
  intros [Hlen Hput Hfull Hget] Hs Hp Ho.
  destruct Hs as [s msg H Hm Hf|s msg k i H Hi|s msg k H Hi Hf|s msg k H Hi Hf|s H Hf|s acc i H Hi|s acc H Hi|s H Hf];
    cbn in *; rewrite ?H in *; try congruence.
  - inversion Hp. lia.
  - split; cbn; try done. split_and!; [done|cbn; lia|done].
  - destruct Hget as (Hf & Hle & Hacc). split; cbn; try done.
    pose proof (lookup_lt_Some _ _ _ Hi). rewrite length_app. cbn [length]. split_and!; [done|lia|].
    rewrite Nat.add_1_r, (take_S_r _ _ _ (nth_seen _ _ _ Hi)). now f_equal.
  - destruct Hget as (Hf & Hle & Hacc). rewrite Hf in Hfull, Hput.
    destruct Hfull as (old & msg & Hst & Hfl & Hall). split; cbn; try done.
    + destruct (hs_put s); [done|]. now destruct Hput as (_ & ? & _).
    + rewrite Hst. apply Forall2_app; [done|]. constructor; [left|constructor]. f_equal.
      rewrite Hfl in Hacc. rewrite Hacc, take_ge; [done|]. unfold seen. rewrite length_map.
      now apply lookup_ge_None_1.
  - rewrite Hf in Hfull, Hput. destruct Hfull as (old & msg & Hst & Hfl & Hall). split; cbn; try done.
    + destruct (hs_put s); [done|]. now destruct Hput as (_ & ? & _).
    + rewrite Hst. apply Forall2_app; [done|]. constructor; [now right|constructor].
Qed.

Lemma hs_step_sides s s' :
  hs_step s s' ->
  hs_get s = hs_get s' /\ outcomes s = outcomes s' \/ hs_put s = hs_put s' /\ staged s = staged s'.
Proof. destruct 1; auto. Qed.

Lemma hs_reachable_inv fields0 s : length fields0 = N -> hs_reachable fields0 s -> hs_inv s.
Proof.
  intros HN. induction 1 as [|s s' _ IH Hs].
  - split; cbn; try done.
  - destruct (hs_step_sides s s' Hs) as [[? ?]|[? ?]]; eauto using hs_inv_put, hs_inv_get.
Qed.

(** Every message taken is one that was staged, whole and in order; at most one
    staged message is still in the cell. *)
Lemma hs_no_tearing fields0 s :
  length fields0 = N -> hs_reachable fields0 s ->
  Forall2 outcome_of (outcomes s) (take (length (outcomes s)) (staged s)) /\
  (length (staged s) <= length (outcomes s) + 1)%nat.
Proof.
  intros HN Hr. destruct (hs_reachable_inv fields0 s HN Hr) as [_ _ Hfull _].
  destruct (full (hs_cell s)).
  - destruct Hfull as (old & msg & -> & _ & Hall). pose proof (Forall2_length Hall) as HL.
    rewrite take_app_length' by done. rewrite length_app. cbn. split; [done|lia].
  - pose proof (Forall2_length Hfull) as HL. rewrite HL, take_ge by done. split; [done|lia].
Qed.

End Handshake.

(** ** The two cells *)

(** The answer cell's fields in the order of [stage]'s stores, and of [take]'s loads. *)
Definition answer_fields (epoch : Z) (hb : HalfBitBuffer) : list Z := hb_data hb ++ [hb_length hb; epoch].
Definition answer_worder : list nat := seq 0 11.
Definition answer_rorder : list nat := [9; 10]%nat ++ seq 0 9.

(** The message [take] rebuilds from the values it loaded. *)
Definition answer_of_seen (v : list Z) : Z * HalfBitBuffer := (nth 1 v 0, MkHalfBitBuffer (drop 2 v) (nth 0 v 0)).

Definition command_fields (m : TxCommand) : list Z :=
  tc_data m ++ [Z_of_bool (tc_expects_backward m); tc_min_idle_ticks m; tc_restart_gate m; tc_exchange_id m; tc_len m].
Definition command_worder : list nat := seq 0 14.
Definition command_rorder : list nat := [13]%nat ++ seq 0 9 ++ [9; 10; 11; 12]%nat.

Definition command_of_seen (v : list Z) : TxCommand :=
  MkTxCommand (take 9 (drop 1 v)) (nth 0 v 0) (negb (nth 10 v 0 =? 0)) (nth 11 v 0) (nth 12 v 0) (nth 13 v 0).

Lemma nine (l : list Z) : length l = 9%nat -> exists a b c d e f g h i, l = [a; b; c; d; e; f; g; h; i].
Proof. intros. do 10 (destruct l as [|? l]; try discriminate). now repeat eexists. Qed.

Lemma answer_seen epoch hb : length (hb_data hb) = 9%nat ->
  answer_of_seen (seen answer_rorder (answer_fields epoch hb)) = (epoch, hb).
Proof. destruct hb as [d n]. cbn [hb_data]. intros (?&?&?&?&?&?&?&?&?&->)%nine. reflexivity. Qed.

Lemma command_seen m : length (tc_data m) = 9%nat -> command_of_seen (seen command_rorder (command_fields m)) = m.
Proof.
  destruct m as [d n e mi rg x]. cbn [tc_data]. intros (?&?&?&?&?&?&?&?&?&->)%nine. now destruct e.
Qed.

(** The [k]-th message taken is the [k]-th staged. *)
Lemma hs_taken N worder rorder fields0 s k v msg :
  (forall i, In i worder <-> (i < N)%nat) -> length fields0 = N -> hs_reachable N worder rorder fields0 s ->
  outcomes s !! k = Some (Some v) -> staged s !! k = Some msg -> v = seen rorder msg.
Proof.
  intros Hw HN Hr Ho Hs. destruct (hs_no_tearing N worder rorder Hw fields0 s HN Hr) as [Hall _].
  assert (take (length (outcomes s)) (staged s) !! k = Some msg) as Ht.
  { rewrite lookup_take_lt; [done|]. now apply lookup_lt_Some in Ho. }
  destruct (Forall2_lookup_lr _ _ _ _ _ _ Hall Ho Ht); congruence.
Qed.

Lemma in_seq_iff n i : In i (seq 0 n) <-> (i < n)%nat.
Proof. rewrite in_seq. lia. Qed.

(** ** The uninterrupted operations are the handshake's, access by access *)

Inductive hs_steps (N : nat) (wo ro : list nat) : hs -> hs -> Prop :=
  | hs_refl s : hs_steps N wo ro s s
  | hs_cons s1 s2 s3 : hs_step N wo ro s1 s2 -> hs_steps N wo ro s2 s3 -> hs_steps N wo ro s1 s3.

Lemma hs_steps_reachable N wo ro f0 s1 s2 :
  hs_steps N wo ro s1 s2 -> hs_reachable N wo ro f0 s1 -> hs_reachable N wo ro f0 s2.
Proof. induction 1; intros; [done|]. eauto using hr_step. Qed.

(** The cells' fields and state as the handshake sees them. *)
Definition answer_cell_hs (c : AtomicAnswerCell) : cell :=
  MkCell (negb (ac_state c =? ANSWER_IDLE)) (ac_data c ++ [ac_len c; ac_epoch c]).

Definition command_cell_hs (c : AtomicCommandCell) : cell :=
  MkCell (negb (cc_state c =? CMD_IDLE))
    (cc_tx_data c ++ [Z_of_bool (cc_expects_backward c); cc_min_idle_ticks c; cc_restart_gate c;
                      cc_exchange_id c; cc_tx_halfbit_len c]).

(** One step whose premises hold by computation. *)
Ltac hs_go step := eapply hs_cons; [eapply step; reflexivity|cbn].

Ltac hs_start :=
  match goal with
  | |- context [_ ++ [?m]] => eapply hs_cons; [eapply (hs_check _ _ _ _ m); reflexivity|cbn]
  end.

Lemma stage_simulated c c' epoch hb g st out :
  length (ac_data c) = 9%nat -> length (hb_data hb) = 9%nat -> stage c epoch hb = (c', true) ->
  hs_steps 11 answer_worder answer_rorder (MkHs (answer_cell_hs c) PutIdle g st out)
    (MkHs (answer_cell_hs c') PutIdle g (st ++ [answer_fields epoch hb]) out).
Proof.
  destruct c as [s e d n], hb as [d' n']. cbn [ac_data hb_data].
  intros (?&?&?&?&?&?&?&?&?&->)%nine (?&?&?&?&?&?&?&?&?&->)%nine. unfold stage. cbn.
  destruct (_ || _); [discriminate|]. destruct (Z.eqb_spec s ANSWER_IDLE) as [->|]; [|discriminate].
  cbn. intros [= <-]. hs_start.
  do 11 hs_go hs_write. hs_go hs_publish. constructor.
Qed.

Lemma take_answer_simulated c c' epoch hb st out :
  length (ac_data c) = 9%nat -> take_answer c = (c', Some (epoch, hb)) ->
  exists v, answer_of_seen v = (epoch, hb) /\
    forall p, hs_steps 11 answer_worder answer_rorder (MkHs (answer_cell_hs c) p GetIdle st out)
      (MkHs (answer_cell_hs c') p GetIdle st (out ++ [Some v])).
Proof.
  destruct c as [s e d n]. cbn [ac_data]. intros (?&?&?&?&?&?&?&?&?&->)%nine. unfold take_answer. cbn.
  destruct (Z.eqb_spec s ANSWER_STAGED) as [->|]; [|discriminate]. cbn. intros [= <- <- <-].
  eexists. split; cycle 1.
  - intros p. hs_go hs_open. do 11 hs_go hs_read. hs_go hs_release. constructor.
  - reflexivity.
Qed.

Lemma discard_simulated c p st out :
  ac_state c = ANSWER_STAGED ->
  hs_steps 11 answer_worder answer_rorder (MkHs (answer_cell_hs c) p GetIdle st out)
    (MkHs (answer_cell_hs (discard c)) p GetIdle st (out ++ [None])).
Proof.
  destruct c. cbn. intros ->. eapply hs_cons; [eapply hs_discard; reflexivity|]. constructor.
Qed.

Lemma send_simulated c c' data len eb gates id g st out :
  length (cc_tx_data c) = 9%nat -> length data = 9%nat -> send_packed_tx c data len eb gates id = (c', true) ->
  hs_steps 14 command_worder command_rorder (MkHs (command_cell_hs c) PutIdle g st out)
    (MkHs (command_cell_hs c') PutIdle g
       (st ++ [command_fields (MkTxCommand data len eb (g_min_idle_ticks gates) (g_restart_gate gates) id)]) out).
Proof.
  destruct c as [s d n e m r x]. cbn [cc_tx_data].
  intros (?&?&?&?&?&?&?&?&?&->)%nine (?&?&?&?&?&?&?&?&?&->)%nine. unfold send_packed_tx. cbn.
  destruct (_ || _); [discriminate|]. destruct (Z.eqb_spec s CMD_IDLE) as [->|]; [|discriminate].
  cbn. intros [= <-]. hs_start.
  do 14 hs_go hs_write. hs_go hs_publish. constructor.
Qed.

Lemma take_command_simulated c c' cmd st out :
  length (cc_tx_data c) = 9%nat -> take_command c = (c', Some cmd) ->
  exists v, command_of_seen v = cmd /\
    forall p, hs_steps 14 command_worder command_rorder (MkHs (command_cell_hs c) p GetIdle st out)
      (MkHs (command_cell_hs c') p GetIdle st (out ++ [Some v])).
Proof.
  destruct c as [s d n e m r x]. cbn [cc_tx_data]. intros (?&?&?&?&?&?&?&?&?&->)%nine. unfold take_command. cbn.
  destruct (Z.eqb_spec s CMD_START_TX) as [->|]; [|discriminate]. cbn. intros [= <- <-].
  eexists. split; cycle 1.
  - intros p. hs_go hs_open. do 14 hs_go hs_read. hs_go hs_release. constructor.
  - now destruct e.
Qed.

(** C30: no torn answers.  However the accesses of one staging task and of the
    interrupt interleave, the [k]-th answer the interrupt takes is, epoch and
    half bits alike, the [k]-th answer staged; and a staged answer is taken or
    discarded before the next one is accepted. *)
Theorem answer_cell_no_tearing (s : hs) :
  hs_reachable 11 answer_worder answer_rorder (replicate 11 0) s ->
  (length (staged s) <= length (outcomes s) + 1)%nat /\
  forall k v epoch hb, outcomes s !! k = Some (Some v) ->
    staged s !! k = Some (answer_fields epoch hb) -> length (hb_data hb) = 9%nat ->
    answer_of_seen v = (epoch, hb).
Proof.
  intros Hr. split; [now eapply hs_no_tearing; [apply in_seq_iff| |exact Hr]|].
  intros k v epoch hb Ho Hs Hl. rewrite <- (answer_seen epoch hb Hl). f_equal.
  eapply hs_taken; [apply in_seq_iff| |exact Hr|exact Ho|exact Hs]. reflexivity.
Qed.

Lemma answer_cell_no_tearing_witness :
  exists v, answer_of_seen v = (7, encode 0xAB 8) /\
    (length [answer_fields 7 (encode 0xAB 8)] <= length [Some v] + 1)%nat.
Proof.
  set (hb := encode 0xAB 8). set (c := fst (stage answer_cell_new 7 hb)).
  pose proof (stage_simulated answer_cell_new c 7 hb GetIdle [] [] eq_refl eq_refl eq_refl) as H1.
  destruct (take_answer_simulated c (fst (take_answer c)) 7 hb [answer_fields 7 hb] [] eq_refl eq_refl)
    as (v & _ & H2).
  specialize (H2 PutIdle).
  pose proof (hs_steps_reachable _ _ _ (replicate 11 0) _ _ H2
    (hs_steps_reachable _ _ _ (replicate 11 0) _ _ H1 (hr_new _ _ _ _))) as Hr.
  destruct (answer_cell_no_tearing _ Hr) as [Hl Ha]. exists v. split; [|exact Hl].
  apply (Ha 0%nat v 7 (encode 0xAB 8)); reflexivity.
Defined.

(** C31: the same of the command cell: every command the interrupt takes is one
    [send_packed_tx] accepted, with its own half bits, length, gates and
    exchange id. *)
Theorem command_cell_no_tearing (s : hs) :
  hs_reachable 14 command_worder command_rorder (replicate 14 0) s ->
  (length (staged s) <= length (outcomes s) + 1)%nat /\
  forall k v cmd, outcomes s !! k = Some (Some v) ->
    staged s !! k = Some (command_fields cmd) -> length (tc_data cmd) = 9%nat ->
    command_of_seen v = cmd.
Proof.
  intros Hr. split; [now eapply hs_no_tearing; [apply in_seq_iff| |exact Hr]|].
  intros k v cmd Ho Hs Hl. rewrite <- (command_seen cmd Hl). f_equal.
  eapply hs_taken; [apply in_seq_iff| |exact Hr|exact Ho|exact Hs]. reflexivity.
Qed.

Lemma command_cell_no_tearing_witness :
  exists v, command_of_seen v = MkTxCommand (hb_data (encode 5 16)) 38 true 3 0 9 /\
    (length [v] <= length [Some v] + 1)%nat.
Proof.
  set (cmd := MkTxCommand (hb_data (encode 5 16)) 38 true 3 0 9).
  set (c := fst (send_packed_tx command_cell_new (tc_data cmd) 38 true (settle 3) 9)).
  pose proof (send_simulated command_cell_new c (tc_data cmd) 38 true (settle 3) 9 GetIdle [] []
    eq_refl eq_refl eq_refl) as H1.
  destruct (take_command_simulated c (fst (take_command c)) cmd [command_fields cmd] [] eq_refl eq_refl)
    as (v & _ & H2).
  specialize (H2 PutIdle).
  pose proof (hs_steps_reachable _ _ _ (replicate 14 0) _ _ H2
    (hs_steps_reachable _ _ _ (replicate 14 0) _ _ H1 (hr_new _ _ _ _))) as Hr.
  destruct (command_cell_no_tearing _ Hr) as [Hl Ha]. exists v. split; [|cbn; lia].
  apply (Ha 0%nat v cmd); reflexivity.
Defined.

End Mailbox.
