(* ===== verification/AnswerTable.v ===== *)
(** * Answering from the interrupt

    Models [crates/dali2rust-platform/src/answer_table.rs] (the table image and
    its two-halves entries), [crates/dali2rust-dali-phy/src/answer_table.rs]
    (the double-buffered, generation-stamped table the interrupt reads) and
    [backward_window.rs] (when a staged answer may go on the wire).

    [publish], [decide] and the rest are the uninterrupted operations;
    [Seqlock] cuts a table copy's writer and reader at every access. *)

From S2P Require Import Prelude PhyFsm.

Module AnswerTable.
Import PhyFsm.

(** ** The answer window ([backward_window.rs]) *)

Definition BACKWARD_MIN_US : Z := 5500.
Definition BACKWARD_MAX_US : Z := 10500.
Definition BACKWARD_TARGET_US : Z := 6500.

Definition us_to_ticks (us : Z) : Z := us / PHY_TICK_US.

Definition ANSWER_ARM_LEAD_TICKS : Z := TX_ARM_LEAD_TICKS.
Definition ANSWER_ARM_TARGET_IDLE_TICKS : Z :=
  sat_sub (wrap 16 (us_to_ticks BACKWARD_TARGET_US)) ANSWER_ARM_LEAD_TICKS.
Definition ANSWER_ARM_MAX_IDLE_TICKS : Z :=
  sat_sub (wrap 16 (us_to_ticks BACKWARD_MAX_US)) ANSWER_ARM_LEAD_TICKS.

Inductive AnswerGate := Hold | Arm (late : bool) | Expired.

Definition answer_gate (idle_ticks target max : Z) : AnswerGate :=
  if idle_ticks <? target then Hold
  else if idle_ticks <=? max then Arm (target <? idle_ticks)
  else Expired.

(** ** The image *)

Definition NO_SHORT_ADDRESS : Z := 255.
Definition DEVICE_QUERY_FIRST_OPCODE : Z := 48.
Definition DEVICE_QUERY_ENTRIES : Z := 32.
Definition COMPARE_ENTRY : Z := DEVICE_QUERY_ENTRIES.
Definition VERIFY_SHORT_ADDRESS_ENTRY : Z := DEVICE_QUERY_ENTRIES + 1.
Definition QUERY_SHORT_ADDRESS_ENTRY : Z := DEVICE_QUERY_ENTRIES + 2.
Definition ANSWER_ENTRIES : Z := DEVICE_QUERY_ENTRIES + 3.
Definition ENTRY_ANSWER_MASK : Z := 255.
Definition ENTRY_PRESENT : Z := 256.
Definition ENTRY_LAPSED_SHIFT : Z := 16.

Definition entry_half (answer : option Z) : Z :=
  match answer with Some byte => Z.lor ENTRY_PRESENT byte | None => 0 end.

Definition by_lease (alive lapsed : option Z) : Z :=
  Z.lor (entry_half alive) (shl 32 (entry_half lapsed) ENTRY_LAPSED_SHIFT).

Definition always (answer : Z) : Z := by_lease (Some answer) (Some answer).

Record AnswerTableImage := MkImage { img_short_address : Z; img_groups : Z; img_entries : list Z }.

#[global] Instance eta_AnswerTableImage : Eta AnswerTableImage := fun i =>
  MkImage (img_short_address i) (img_groups i) (img_entries i).

Definition image_SILENT : AnswerTableImage := MkImage NO_SHORT_ADDRESS 0 (replicate 35 0).

Definition set_device_query (i : AnswerTableImage) (opcode entry : Z) : AnswerTableImage * bool :=
  match checked_sub opcode DEVICE_QUERY_FIRST_OPCODE with
  | None => (i, false)
  | Some index =>
      match aget (img_entries i) index with
      | Some _ => if index <? DEVICE_QUERY_ENTRIES
                  then (i <| img_entries := aset (img_entries i) index entry |>, true)
                  else (i, false)
      | None => (i, false)
      end
  end.

(** ** Matching a frame *)

Definition COMMAND_BIT : Z := 1.
Definition BROADCAST : Z := 255.
Definition BROADCAST_UNADDRESSED : Z := 253.
Definition SPECIAL_COMMAND : Z := 193.
Definition INSTANCE_DEVICE : Z := 254.

Definition addresses_the_device (address short_address groups : Z) : bool :=
  if address =? BROADCAST then true
  else if address =? BROADCAST_UNADDRESSED then short_address =? NO_SHORT_ADDRESS
  else if Z.land address 128 =? 0 then Z.land (Z.shiftr address 1) 63 =? short_address
  else if Z.land address 192 =? 128 then
    match checked_shr 32 groups (Z.land (Z.shiftr address 1) 31) with
    | Some bits => negb (Z.land bits 1 =? 0)
    | None => false
    end
  else false.

Definition answer_entry_index (frame : Z * Z * Z) (short_address groups : Z) : option Z :=
  let '(address, instance, opcode) := frame in
  if address =? SPECIAL_COMMAND then
    if instance =? 3 then Some COMPARE_ENTRY
    else if instance =? 9 then Some VERIFY_SHORT_ADDRESS_ENTRY
    else if instance =? 10 then Some QUERY_SHORT_ADDRESS_ENTRY
    else None
  else if (Z.land address COMMAND_BIT =? 0) || negb (instance =? INSTANCE_DEVICE) then None
  else if negb (addresses_the_device address short_address groups) then None
  else
    let index := wrapping_sub 8 opcode DEVICE_QUERY_FIRST_OPCODE in
    if (opcode <? DEVICE_QUERY_FIRST_OPCODE) || (DEVICE_QUERY_ENTRIES <=? index) then None
    else Some index.

Definition entry_answer (index word : Z) (frame : Z * Z * Z) (short_address : Z) (lease_alive : bool) : option Z :=
  let '(_, _, data) := frame in
  if (index =? VERIFY_SHORT_ADDRESS_ENTRY) && negb (data =? short_address) then None
  else
    let half := if lease_alive then word else Z.shiftr word ENTRY_LAPSED_SHIFT in
    if Z.land half ENTRY_PRESENT =? 0 then None
    else Some (Z.land half ENTRY_ANSWER_MASK).

(** ** The table cell *)

Definition LEASE_TTL_MS : Z := 3000.
Definition US_PER_MS : Z := 1000.
Definition TABLE_MAX_AGE_MS : Z := 100.
Definition NEVER_PUBLISHED : Z := 0.

Definition lease_ticks (remaining_ms : Z) : Z :=
  let held_ms := if remaining_ms <? LEASE_TTL_MS then remaining_ms else LEASE_TTL_MS in
  held_ms * US_PER_MS / PHY_TICK_US.

Definition ANSWER_LEASE_MAX_TICKS : Z := lease_ticks LEASE_TTL_MS.
Definition TABLE_MAX_AGE_TICKS : Z := TABLE_MAX_AGE_MS * US_PER_MS / PHY_TICK_US.

Inductive TableLookup :=
  | NotPublished | NotAddressed | Behind | Torn | Silent | LeaseLapsed | Answer (answer : Z).

Record TableRefusals := MkRefusals { lease_lapsed : Z; behind : Z; torn_count : Z }.

#[global] Instance eta_TableRefusals : Eta TableRefusals := fun r =>
  MkRefusals (lease_lapsed r) (behind r) (torn_count r).

Record TableCopy := MkCopy {
  generation : Z; accounts_for : Z; published_tick : Z; tc_short_address : Z; tc_groups : Z; tc_entries : list Z }.

#[global] Instance eta_TableCopy : Eta TableCopy := fun c =>
  MkCopy (generation c) (accounts_for c) (published_tick c) (tc_short_address c) (tc_groups c) (tc_entries c).

Definition copy_new : TableCopy := MkCopy NEVER_PUBLISHED 0 0 NO_SHORT_ADDRESS 0 (replicate 35 0).

(** The entry loop zips the slots with the image's entries. *)
Fixpoint zip_store (slots entries : list Z) : list Z :=
  match slots, entries with
  | _ :: slots, e :: entries => e :: zip_store slots entries
  | slots, _ => slots
  end.

Definition copy_write (c : TableCopy) (image : AnswerTableImage) (accounts now_tick : Z) : TableCopy :=
  let gen := generation c in
  let c := c <| generation := wrapping_add 32 gen 1 |> in
  let c := c <| accounts_for := accounts |> <| published_tick := now_tick |>
             <| tc_short_address := img_short_address image |> <| tc_groups := img_groups image |>
             <| tc_entries := zip_store (tc_entries c) (img_entries image) |> in
  c <| generation := wrapping_add 32 gen 2 |>.

Definition settled_since (c : TableCopy) (before : Z) : bool :=
  (Z.land before 1 =? 0) && (generation c =? before).

Record AnswerTableCell := MkTable {
  live : Z; copies : TableCopy * TableCopy; lease_until_tick : Z; refusals : TableRefusals }.

#[global] Instance eta_AnswerTableCell : Eta AnswerTableCell := fun t =>
  MkTable (live t) (copies t) (lease_until_tick t) (refusals t).

Definition table_new : AnswerTableCell := MkTable 0 (copy_new, copy_new) 0 (MkRefusals 0 0 0).

(** [copies.get(i)] on the two copies; [i] is masked to one bit by every caller. *)
Definition copy_at (t : AnswerTableCell) (i : Z) : TableCopy :=
  if i =? 0 then fst (copies t) else snd (copies t).

Definition set_copy (t : AnswerTableCell) (i : Z) (c : TableCopy) : AnswerTableCell :=
  t <| copies := if i =? 0 then (c, snd (copies t)) else (fst (copies t), c) |>.

Definition publish (t : AnswerTableCell) (image : AnswerTableImage) (accounts now_tick : Z) : AnswerTableCell :=
  let next := Z.land (Z.lxor (live t) 1) 1 in
  set_copy t next (copy_write (copy_at t next) image accounts now_tick) <| live := next |>.

Definition set_lease_until_tick (t : AnswerTableCell) (tick : Z) : AnswerTableCell :=
  t <| lease_until_tick := tick |>.

Definition set_lease_for_ms (t : AnswerTableCell) (now_tick remaining_ms : Z) : AnswerTableCell :=
  set_lease_until_tick t (wrapping_add 32 now_tick (lease_ticks remaining_ms)).

Definition lease_alive (t : AnswerTableCell) (now_tick : Z) : bool :=
  let remaining := wrapping_sub 32 (lease_until_tick t) now_tick in
  negb (remaining =? 0) && (remaining <=? ANSWER_LEASE_MAX_TICKS).

Record LiveRead := MkLiveRead {
  lr_torn : bool; lr_accounts_for : Z; lr_published_tick : Z; lr_short_address : Z;
  lr_index : option Z; lr_word : Z }.

Definition read_live (t : AnswerTableCell) (frame : Z * Z * Z) : option LiveRead :=
  let copy := copy_at t (Z.land (live t) 1) in
  let before := generation copy in
  if before =? NEVER_PUBLISHED then None
  else
    let index := answer_entry_index frame (tc_short_address copy) (tc_groups copy) in
    let word := match index with Some i => default 0 (aget (tc_entries copy) i) | None => 0 end in
    Some (MkLiveRead (negb (settled_since copy before)) (accounts_for copy) (published_tick copy)
            (tc_short_address copy) index word).

(** [fetch_add] wraps. *)
Definition decide_frame (t : AnswerTableCell) (frame : Z * Z * Z) (previous_capture now_tick : Z)
    (r : TableRefusals) : TableRefusals * TableLookup :=
  match read_live t frame with
  | None => (r, NotPublished)
  | Some read =>
      if lr_torn read then (r <| torn_count := wrapping_add 32 (torn_count r) 1 |>, Torn)
      else
        match lr_index read with
        | None => (r, NotAddressed)
        | Some index =>
            let aged := TABLE_MAX_AGE_TICKS <? wrapping_sub 32 now_tick (lr_published_tick read) in
            if negb (lr_accounts_for read =? previous_capture) || aged
            then (r <| behind := wrapping_add 32 (behind r) 1 |>, Behind)
            else
              let alive := lease_alive t now_tick in
              match entry_answer index (lr_word read) frame (lr_short_address read) alive with
              | Some answer => (r, Answer answer)
              | None =>
                  match entry_answer index (lr_word read) frame (lr_short_address read) true with
                  | Some _ => if negb alive
                              then (r <| lease_lapsed := wrapping_add 32 (lease_lapsed r) 1 |>, LeaseLapsed)
                              else (r, Silent)
                  | None => (r, Silent)
                  end
              end
        end
  end.

Definition lookup_frame (t : AnswerTableCell) (frame : Z * Z * Z) (previous_capture now_tick : Z) : TableLookup :=
  snd (decide_frame t frame previous_capture now_tick (MkRefusals 0 0 0)).

Definition answer (t : AnswerTableCell) (frame : Z * Z * Z) (previous_capture now_tick : Z)
    : AnswerTableCell * option Z :=
  let '(r, d) := decide_frame t frame previous_capture now_tick (refusals t) in
  (t <| refusals := r |>, match d with Answer a => Some a | _ => None end).

(** ** Entries *)

Lemma lor_shl_low h m mask : in_u 16 mask -> Z.land (Z.lor h (shl 32 m 16)) mask = Z.land h mask.
Proof.
  intros Hm. apply Z.bits_inj'. intros i Hi. rewrite !Z.land_spec, Z.lor_spec.
  destruct (Z.ltb_spec i 16).
  - unfold shl. rewrite testbit_wrap, Z.shiftl_spec, (Z.testbit_neg_r m) by lia. now rewrite andb_false_r, orb_false_r.
  - assert (Z.testbit mask i = false) as ->; [|now rewrite !andb_false_r].
    rewrite <- (wrap_id 16 mask Hm), testbit_wrap by lia. now destruct (Z.ltb_spec i 16); [lia|].
Qed.

Lemma lor_shl_high h m : in_u 16 h -> in_u 16 m -> Z.shiftr (Z.lor h (shl 32 m 16)) 16 = m.
Proof.
  intros Hh Hm. unfold shl. rewrite wrap_id, Z.shiftr_lor, Z.shiftr_shiftl_l, Z.shiftl_0_r by
    (try lia; unfold in_u in *; rewrite Z.shiftl_mul_pow2; lia).
  unfold in_u in *. rewrite Z.shiftr_div_pow2, Z.div_small by lia. apply Z.lor_0_l.
Qed.

Definition opt_u8 (a : option Z) : Prop := match a with Some b => in_u 8 b | None => True end.

Lemma half_in_u a : opt_u8 a -> in_u 16 (entry_half a).
Proof. destruct a; [|easy]. revert z. unfold opt_u8, entry_half. by_evaluation. Qed.

Lemma half_decode a : opt_u8 a ->
  (if Z.land (entry_half a) ENTRY_PRESENT =? 0 then None else Some (Z.land (entry_half a) ENTRY_ANSWER_MASK)) = a.
Proof. destruct a as [b|]; [|reflexivity]. revert b. unfold opt_u8. by_evaluation. Qed.

(** The word of an entry carries both answers; the lease picks the half. *)
Lemma entry_answer_by_lease index alive lapsed frame sa lease :
  opt_u8 alive -> opt_u8 lapsed ->
  entry_answer index (by_lease alive lapsed) frame sa lease =
  if (index =? VERIFY_SHORT_ADDRESS_ENTRY) && negb (snd frame =? sa) then None
  else if lease then alive else lapsed.
Proof.
  intros Ha Hl. pose proof (half_in_u _ Ha). pose proof (half_in_u _ Hl).
  unfold entry_answer, by_lease. destruct frame as [[f1 f2] f3]. cbn [snd]. case_if; [done|]. destruct lease.
  - unfold ENTRY_LAPSED_SHIFT. rewrite !lor_shl_low by easy. now apply half_decode.
  - unfold ENTRY_LAPSED_SHIFT. rewrite !lor_shl_high by done. now apply half_decode.
Qed.

(** ** The table *)

Record table_wf (t : AnswerTableCell) : Prop := {
  tw_live : live t = 0 \/ live t = 1;
  tw_gen : forall i, Z.even (generation (copy_at t i)) = true /\ in_u 32 (generation (copy_at t i));
  tw_entries : forall i, length (tc_entries (copy_at t i)) = 35%nat;
}.

Lemma table_new_wf : table_wf table_new.
Proof. split; [now left|..]; intros i; unfold copy_at; case_if; easy. Qed.

Lemma zip_store_full slots entries : length slots = length entries -> zip_store slots entries = entries.
Proof.
  revert entries. induction slots as [|x slots IH]; intros [|e entries] H; try discriminate; [done|].
  cbn. now rewrite IH by (cbn in H; lia).
Qed.

Lemma even_wrap2 g : Z.even g = true -> Z.even (wrapping_add 32 g 2) = true.
Proof.
  intros H. unfold wrapping_add, wrap. apply Z.even_spec in H as [k ->]. apply Z.even_spec.
  exists ((k + 1) mod 2 ^ 31). change (2 ^ 32) with (2 * 2 ^ 31).
  replace (2 * k + 2) with (2 * (k + 1)) by lia. now rewrite Z.mul_mod_distr_l by lia.
Qed.

Lemma copy_write_spec c image acc now :
  length (tc_entries c) = 35%nat -> length (img_entries image) = 35%nat ->
  copy_write c image acc now =
  MkCopy (wrapping_add 32 (generation c) 2) acc now (img_short_address image) (img_groups image) (img_entries image).
Proof. intros H1 H2. unfold copy_write. cbn. now rewrite zip_store_full by congruence. Qed.

Lemma copy_at_set_copy t i j c :
  (i = 0 \/ i = 1) -> copy_at (set_copy t i c) j = if Bool.eqb (i =? 0) (j =? 0) then c else copy_at t j.
Proof. intros [-> | ->]; unfold copy_at, set_copy; cbn; destruct (j =? 0); done. Qed.

Lemma publish_next t : table_wf t -> let next := Z.land (Z.lxor (live t) 1) 1 in
  (next = 0 \/ next = 1) /\ next <> live t.
Proof. intros [[E|E] _ _]; rewrite E; cbn; auto. Qed.

Lemma publish_live t image acc now : live (publish t image acc now) = Z.land (Z.lxor (live t) 1) 1.
Proof. reflexivity. Qed.

Lemma publish_copy t image acc now j :
  table_wf t -> length (img_entries image) = 35%nat ->
  copy_at (publish t image acc now) j =
  let next := Z.land (Z.lxor (live t) 1) 1 in
  if Bool.eqb (next =? 0) (j =? 0)
  then MkCopy (wrapping_add 32 (generation (copy_at t next)) 2) acc now
         (img_short_address image) (img_groups image) (img_entries image)
  else copy_at t j.
Proof.
  intros Hw Hi. cbn zeta. unfold publish. set (next := Z.land _ _).
  change (copy_at (set_copy t next (copy_write (copy_at t next) image acc now) <| live := next |>) j)
    with (copy_at (set_copy t next (copy_write (copy_at t next) image acc now)) j).
  rewrite copy_at_set_copy by now apply publish_next. case_if; [|done].
  apply copy_write_spec; [now apply tw_entries|done].
Qed.

Lemma publish_wf t image acc now :
  table_wf t -> length (img_entries image) = 35%nat -> table_wf (publish t image acc now).
Proof.
  intros Hw Hi. split.
  - rewrite publish_live. now apply publish_next.
  - intros i. rewrite publish_copy by done. cbn zeta. case_if; [|now apply tw_gen]. cbn. split.
    + apply even_wrap2, tw_gen, Hw.
    + apply wrap_range. lia.
  - intros i. rewrite publish_copy by done. cbn zeta. case_if; [done|now apply tw_entries].
Qed.

(** What the published image says of a frame. *)
Definition image_decision (image : AnswerTableImage) (frame : Z * Z * Z) (fresh alive : bool) : TableLookup :=
  match answer_entry_index frame (img_short_address image) (img_groups image) with
  | None => NotAddressed
  | Some index =>
      if negb fresh then Behind
      else
        let word := default 0 (aget (img_entries image) index) in
        match entry_answer index word frame (img_short_address image) alive,
              entry_answer index word frame (img_short_address image) true with
        | Some a, _ => Answer a
        | None, Some _ => if alive then Silent else LeaseLapsed
        | None, None => Silent
        end
  end.

Lemma settled_even c : Z.even (generation c) = true -> settled_since c (generation c) = true.
Proof.
  intros H. unfold settled_since. rewrite Z.eqb_refl, andb_true_r.
  change 1 with (Z.ones 1). rewrite Z.land_ones by lia. change (2 ^ 1) with 2.
  now rewrite Zmod_even, H.
Qed.

Lemma decide_published t image acc now frame prev now' r :
  table_wf t -> length (img_entries image) = 35%nat ->
  generation (copy_at t (Z.land (Z.lxor (live t) 1) 1)) + 2 < 2 ^ 32 ->
  snd (decide_frame (publish t image acc now) frame prev now' r) =
  image_decision image frame
    ((acc =? prev) && negb (TABLE_MAX_AGE_TICKS <? wrapping_sub 32 now' now)) (lease_alive t now').
Proof.
  intros Hw Hi Hg. unfold decide_frame, read_live. rewrite publish_live.
  set (next := Z.land (Z.lxor (live t) 1) 1) in *.
  assert (Z.land next 1 = next) as -> by (destruct (publish_next t Hw) as [[E|E] _]; fold next in E; now rewrite E).
  rewrite publish_copy by done. cbn zeta. fold next. rewrite Bool.eqb_reflx.
  destruct (tw_gen t Hw next) as [Heven [Hlo Hhi]].
  set (g := generation (copy_at t next)) in *.
  assert (wrapping_add 32 g 2 = g + 2) as Hg2 by (unfold wrapping_add; apply wrap_id; unfold in_u; lia).
  rewrite (settled_even (MkCopy _ _ _ _ _ _)) by (cbn; now apply even_wrap2).
  cbn [generation accounts_for published_tick tc_short_address tc_groups tc_entries].
  destruct (Z.eqb_spec (wrapping_add 32 g 2) NEVER_PUBLISHED); [unfold NEVER_PUBLISHED in *; lia|].
  cbn [lr_torn negb lr_index lr_accounts_for lr_published_tick lr_word lr_short_address]. unfold image_decision.
  destruct (answer_entry_index frame _ _) as [index|]; [|done].
  change (lease_alive (publish t image acc now) now') with (lease_alive t now').
  destruct (acc =? prev), (TABLE_MAX_AGE_TICKS <? _); cbn [negb orb andb snd]; try done.
  destruct (entry_answer index _ frame _ (lease_alive t now')); [done|].
  destruct (entry_answer index _ frame _ true); [|done]. now destruct (lease_alive t now').
Qed.

(** ** The generation stamp under interleaving

    The accesses of [copy_write] and [read_live] to one copy.  [published] are
    the images written so far, the initial content first; the generation is
    twice their number but one, plus one while a write is under way. *)

Module Seqlock.

Inductive writer := WIdle | Writing (img : list Z) (k : nat).
Inductive reader := RIdle | Reading (before : Z) (acc : list (nat * Z)).

Record lock := MkLock {
  gen : Z; cells : list Z; wr : writer; rd : reader;
  published : list (list Z);
  (** Completed reads: the stamp, and what was read if it did not change. *)
  reads : list (Z * option (list (nat * Z))) }.

Definition settled (now before : Z) : bool := (Z.land before 1 =? 0) && (now =? before).

Inductive lock_step : lock -> lock -> Prop :=
  | ls_begin s img :
      wr s = WIdle -> length img = length (cells s) ->
      lock_step s (MkLock (wrapping_add 32 (gen s) 1) (cells s) (Writing img 0) (rd s) (published s) (reads s))
  | ls_store s img k :
      wr s = Writing img k -> (k < length (cells s))%nat ->
      lock_step s (MkLock (gen s) (<[k := nth k img 0]> (cells s)) (Writing img (S k)) (rd s) (published s) (reads s))
  | ls_end s img :
      wr s = Writing img (length (cells s)) ->
      lock_step s (MkLock (wrapping_add 32 (gen s) 1) (cells s) WIdle (rd s) (published s ++ [img]) (reads s))
  | ls_stamp s :
      rd s = RIdle -> lock_step s (MkLock (gen s) (cells s) (wr s) (Reading (gen s) []) (published s) (reads s))
  | ls_load s before acc i :
      rd s = Reading before acc ->
      lock_step s (MkLock (gen s) (cells s) (wr s) (Reading before (acc ++ [(i, nth i (cells s) 0)]))
                     (published s) (reads s))
  | ls_check s before acc :
      rd s = Reading before acc ->
      lock_step s (MkLock (gen s) (cells s) (wr s) RIdle (published s)
                     (reads s ++ [(before, if settled (gen s) before then Some acc else None)])).

Inductive lock_reachable (cells0 : list Z) : lock -> Prop :=
  | lr_new : lock_reachable cells0 (MkLock 0 cells0 WIdle RIdle [cells0] [])
  | lr_next s s' : lock_reachable cells0 s -> lock_step s s' -> lock_reachable cells0 s'.

(** [acc] are cells of [img]. *)
Definition snapshot_of (img : list Z) (acc : list (nat * Z)) : Prop :=
  Forall (fun '(i, v) => v = nth i img 0) acc.

Definition read_ok (imgs : list (list Z)) (r : Z * option (list (nat * Z))) : Prop :=
  match r with
  | (before, Some acc) => exists img, imgs !! Z.to_nat (before / 2) = Some img /\ snapshot_of img acc
  | (_, None) => True
  end.

Definition writing (w : writer) : Z := match w with WIdle => 0 | Writing _ _ => 1 end.

Record lock_inv (s : lock) : Prop := {
  li_gen : gen s = 2 * Z.of_nat (length (published s) - 1) + writing (wr s);
  li_some : (0 < length (published s))%nat;
  li_wr : match wr s with
          | WIdle => published s !! (length (published s) - 1)%nat = Some (cells s)
          | Writing img k => length img = length (cells s) /\
              forall i, (i < k)%nat -> (i < length (cells s))%nat -> nth i (cells s) 0 = nth i img 0
          end;
  li_rd : match rd s with
          | RIdle => True
          | Reading before acc => 0 <= before <= gen s /\
              (Z.even before = true -> gen s = before -> snapshot_of (cells s) acc)
          end;
  li_reads : Forall (read_ok (published s)) (reads s);
}.

Lemma read_ok_app imgs img r : read_ok imgs r -> read_ok (imgs ++ [img]) r.
Proof.
  destruct r as [b [acc|]]; [|done]. intros (x & Hx & Hs). exists x. split; [|done]. now apply lookup_app_l_Some.
Qed.

(** A write that starts makes the stamp odd, and every open read stale. *)
Lemma lock_inv_begin s img :
  lock_inv s -> wr s = WIdle -> length img = length (cells s) -> Z.of_nat (length (published s)) < 2 ^ 31 ->
  lock_inv (MkLock (wrapping_add 32 (gen s) 1) (cells s) (Writing img 0) (rd s) (published s) (reads s)).
Proof.
  intros [Hg Hp Hw Hr Hrs] Hwr Hl Hn. rewrite Hwr in *. cbn in Hg.
  assert (wrapping_add 32 (gen s) 1 = gen s + 1) as E by (unfold wrapping_add; apply wrap_id; unfold in_u; lia).
  split; cbn; rewrite ?E; try done; [lia| |].
  - split; [done|]. intros; lia.
  - destruct (rd s) as [|before acc]; [done|]. destruct Hr as [Hb Hs]. split; [lia|]. intros; lia.
Qed.

Lemma lock_inv_end s img :
  lock_inv s -> wr s = Writing img (length (cells s)) -> Z.of_nat (length (published s)) < 2 ^ 31 ->
  lock_inv (MkLock (wrapping_add 32 (gen s) 1) (cells s) WIdle (rd s) (published s ++ [img]) (reads s)).
Proof.
  intros [Hg Hp Hw Hr Hrs] Hwr Hn. rewrite Hwr in *. cbn in Hg. destruct Hw as [Hl Hw].
  assert (wrapping_add 32 (gen s) 1 = gen s + 1) as E by (unfold wrapping_add; apply wrap_id; unfold in_u; lia).
  assert (img = cells s) as Himg.
  { apply (nth_ext _ _ 0 0); [done|]. intros i Hi. symmetry. apply Hw; lia. }
  split; cbn; rewrite ?E, ?length_app; cbn [length]; try lia.
  - rewrite lookup_app_r, Himg by lia. now replace (_ - _ - _)%nat with 0%nat by lia.
  - destruct (rd s) as [|before acc]; [done|]. destruct Hr as [Hb Hs]. split; [lia|]. intros; lia.
  - revert Hrs. apply Forall_impl. intros r. apply read_ok_app.
Qed.

Lemma even_land1 z : (Z.land z 1 =? 0) = Z.even z.
Proof. change 1 with (Z.ones 1). rewrite Z.land_ones by lia. change (2 ^ 1) with 2. rewrite Zmod_even. now destruct (Z.even z). Qed.

Lemma lock_inv_check s before acc :
  lock_inv s -> rd s = Reading before acc ->
  read_ok (published s) (before, if settled (gen s) before then Some acc else None).
Proof.
  intros [Hg Hp Hw Hr Hrs] Hrd. rewrite Hrd in Hr. destruct Hr as [Hb Hs]. unfold settled. rewrite even_land1.
  destruct (Z.even before) eqn:Ev, (Z.eqb_spec (gen s) before) as [Eg|]; cbn; try done.
  specialize (Hs eq_refl Eg). destruct (wr s) as [|img k] eqn:Ew.
  - cbn in Hg. exists (cells s). split; [|done]. rewrite <- Hw. f_equal.
    rewrite <- Eg, Hg, Z.add_0_r, Z.mul_comm, Z.div_mul by lia. lia.
  - cbn in Hg. exfalso. rewrite <- Eg, Hg, Z.add_comm, Z.even_add_mul_2 in Ev. discriminate.
Qed.

Lemma lock_inv_step s s' :
  lock_inv s -> lock_step s s' -> Z.of_nat (length (published s)) < 2 ^ 31 -> lock_inv s'.
Proof.
  intros Hinv Hs Hn. destruct Hs.
  - now apply lock_inv_begin.
  - destruct Hinv as [Hg Hp Hw Hr Hrs]. rewrite H in *. split; cbn; try done; rewrite ?length_insert.
    + destruct Hw as [Hl Hw]. split; [done|]. intros i Hi Hi'. rewrite !nth_lookup in *.
      destruct (decide (i = k)) as [->|]; [now rewrite list_lookup_insert_eq by done|].
      rewrite list_lookup_insert_ne by done. specialize (Hw i ltac:(lia) Hi'). now rewrite !nth_lookup in Hw.
    + destruct (rd s) as [|before acc]; [done|]. destruct Hr as [Hb Hs']. split; [done|].
      intros Ev Eg. exfalso. cbn in Hg. rewrite <- Eg, Hg, Z.add_comm, Z.even_add_mul_2 in Ev. discriminate.
  - now apply lock_inv_end.
  - destruct Hinv as [Hg Hp Hw Hr Hrs]. split; cbn; try done. assert (0 <= writing (wr s)) by (destruct (wr s); cbn; lia). split; [lia|]. intros. constructor.
  - destruct Hinv as [Hg Hp Hw Hr Hrs]. rewrite H in Hr. destruct Hr as [Hb Hs']. split; cbn; try done.
    split; [done|]. intros Ev Eg. apply Forall_app. split; [exact (Hs' Ev Eg)|]. constructor; [done|constructor].
  - pose proof (lock_inv_check s before acc Hinv H) as Hok. destruct Hinv as [Hg Hp Hw Hr Hrs]. split; cbn; try done.
    apply Forall_app. split; [done|]. constructor; [exact Hok|constructor].
Qed.

Lemma lock_published_grows s s' : lock_step s s' -> (length (published s) <= length (published s'))%nat.
Proof. destruct 1; cbn; rewrite ?length_app; lia. Qed.

Lemma lock_reachable_inv cells0 s :
  lock_reachable cells0 s -> Z.of_nat (length (published s)) < 2 ^ 31 -> lock_inv s.
Proof.
  induction 1 as [|s s' _ IH Hs]; intros Hn.
  - split; cbn; (done || lia || constructor).
  - pose proof (lock_published_grows s s' Hs). apply (lock_inv_step s s'); [apply IH; lia|done|lia].
Qed.

Inductive lock_steps : lock -> lock -> Prop :=
  | lk_refl s : lock_steps s s
  | lk_cons s1 s2 s3 : lock_step s1 s2 -> lock_steps s2 s3 -> lock_steps s1 s3.

Lemma lock_steps_snoc s1 s2 s3 : lock_steps s1 s2 -> lock_step s2 s3 -> lock_steps s1 s3.
Proof. induction 1; eauto using lock_steps. Qed.

Lemma lock_steps_reachable c0 s1 s2 : lock_steps s1 s2 -> lock_reachable c0 s1 -> lock_reachable c0 s2.
Proof. induction 1; eauto using lr_next. Qed.

Lemma lock_store_run g cs img r p rs k :
  length img = length cs -> (k <= length cs)%nat ->
  lock_steps (MkLock g cs (Writing img 0) r p rs) (MkLock g (take k img ++ drop k cs) (Writing img k) r p rs).
Proof.
  intros Hl. induction k as [|k IH]; intros Hk; [constructor|].
  eapply lock_steps_snoc; [apply IH; lia|].
  assert (length (take k img ++ drop k cs) = length cs) as HL
    by (rewrite length_app, length_take, length_drop; lia).
  replace (take (S k) img ++ drop (S k) cs) with (<[k := nth k img 0]> (take k img ++ drop k cs)).
  { eapply ls_store; [done|cbn; lia]. }
  destruct (lookup_lt_is_Some_2 img k ltac:(lia)) as [x Hx].
  destruct (lookup_lt_is_Some_2 cs k ltac:(lia)) as [y Hy].
  rewrite nth_lookup, Hx. cbn. rewrite insert_app_r_alt by (rewrite length_take; lia).
  rewrite length_take, Nat.min_l, Nat.sub_diag, (drop_S _ _ _ Hy) by lia.
  now rewrite (take_S_r _ _ _ Hx), <- app_assoc.
Qed.

(** A whole write, run alone. *)
Lemma lock_write_run g cs img r p rs :
  length img = length cs ->
  lock_steps (MkLock g cs WIdle r p rs)
    (MkLock (wrapping_add 32 (wrapping_add 32 g 1) 1) img WIdle r (p ++ [img]) rs).
Proof.
  intros Hl. eapply lk_cons; [now apply (ls_begin _ img)|]. cbn.
  eapply lock_steps_snoc; [apply (lock_store_run _ _ _ _ _ _ (length cs)); [done|lia]|].
  replace (take (length cs) img ++ drop (length cs) cs) with img
    by now rewrite (drop_ge cs), app_nil_r, (take_ge img) by lia.
  rewrite <- Hl. apply (ls_end (MkLock _ img (Writing img _) _ _ _) img). reflexivity.
Qed.

End Seqlock.

(** A copy's plain fields, in the order [copy_write] stores them. *)
Definition copy_cells (c : TableCopy) : list Z :=
  [accounts_for c; published_tick c; tc_short_address c; tc_groups c] ++ tc_entries c.

(** [copy_write] is the writer's run, and [settled_since] the reader's check. *)
Lemma copy_write_simulated c image acc now r p rs :
  length (tc_entries c) = 35%nat -> length (img_entries image) = 35%nat ->
  let c' := copy_write c image acc now in
  Seqlock.lock_steps (Seqlock.MkLock (generation c) (copy_cells c) Seqlock.WIdle r p rs)
    (Seqlock.MkLock (generation c') (copy_cells c') Seqlock.WIdle r (p ++ [copy_cells c']) rs).
Proof.
  intros Hc Hi. cbn zeta. rewrite copy_write_spec by done. cbn [generation].
  replace (wrapping_add 32 (generation c) 2) with (wrapping_add 32 (wrapping_add 32 (generation c) 1) 1)
    by (unfold wrapping_add, wrap; rewrite Z.add_mod_idemp_l by lia; f_equal; lia).
  apply Seqlock.lock_write_run. unfold copy_cells. cbn. lia.
Qed.

Lemma settled_since_seqlock c before : settled_since c before = Seqlock.settled (generation c) before.
Proof. reflexivity. Qed.

(** ** Properties *)

(** C29: the interrupt never acts on a torn table.  However the interrupt's
    loads interleave with the stores of a publication, a read whose stamp is
    even and unchanged saw cells of one single published table, the one the
    stamp counts (for fewer than 2{^31} publications, before which the stamp
    cannot repeat). *)
Theorem settled_reads_are_snapshots (s : Seqlock.lock) before acc :
  Seqlock.lock_reachable (copy_cells copy_new) s -> Z.of_nat (length (Seqlock.published s)) < 2 ^ 31 ->
  In (before, Some acc) (Seqlock.reads s) ->
  exists img, Seqlock.published s !! Z.to_nat (before / 2) = Some img /\ Seqlock.snapshot_of img acc.
Proof.
  intros Hr Hn Hin. destruct (Seqlock.lock_reachable_inv _ _ Hr Hn) as [_ _ _ _ Hrs].
  rewrite List.Forall_forall in Hrs. exact (Hrs _ Hin).
Qed.

Lemma settled_reads_are_snapshots_witness :
  exists img, [copy_cells copy_new; copy_cells (copy_write copy_new image_SILENT 4 5)] !! Z.to_nat (2 / 2) = Some img
    /\ Seqlock.snapshot_of img [(0%nat, 4)].
Proof.
  pose (c := copy_write copy_new image_SILENT 4 5).
  pose proof (copy_write_simulated copy_new image_SILENT 4 5 Seqlock.RIdle [copy_cells copy_new] [] eq_refl eq_refl)
    as H1. cbn zeta in H1. fold c in H1.
  pose proof (Seqlock.lock_steps_reachable _ _ _ H1 (Seqlock.lr_new _)) as R1.
  pose proof (Seqlock.lr_next _ _ _ R1 (Seqlock.ls_stamp (Seqlock.MkLock _ _ _ Seqlock.RIdle _ _) eq_refl)) as R2.
  pose proof (Seqlock.lr_next _ _ _ R2
    (Seqlock.ls_load (Seqlock.MkLock _ _ _ (Seqlock.Reading _ _) _ _) 2 [] 0 eq_refl)) as R3.
  pose proof (Seqlock.lr_next _ _ _ R3
    (Seqlock.ls_check (Seqlock.MkLock _ _ _ (Seqlock.Reading _ _) _ _) 2 [(0%nat, 4)] eq_refl)) as R4.
  exact (settled_reads_are_snapshots _ 2 [(0%nat, 4)] R4 eq_refl (or_introl eq_refl)).
Defined.

(** the table decides by the last publication.  On a well-formed table, a
    frame looked up after [publish] gets the published image's decision: not
    addressed, silent, lapsed or the entry's answer; and [Behind] exactly when
    the table does not account for the capture before the frame or is older
    than 100 ms. *)
Theorem published_table_decides t image acc now frame prev now' :
  table_wf t -> length (img_entries image) = 35%nat ->
  generation (copy_at t (Z.land (Z.lxor (live t) 1) 1)) + 2 < 2 ^ 32 ->
  lookup_frame (publish t image acc now) frame prev now' =
  image_decision image frame
    ((acc =? prev) && negb (TABLE_MAX_AGE_TICKS <? wrapping_sub 32 now' now)) (lease_alive t now').
Proof. apply decide_published. Qed.

(** A device with short address 5 that answers QUERY DEVICE STATUS (0x30) with 0x44. *)
Definition example_image : AnswerTableImage :=
  fst (set_device_query (image_SILENT <| img_short_address := 5 |>) 48 (always 68)).

Lemma published_table_decides_witness :
  lookup_frame (publish table_new example_image 9 100) (11, 254, 48) 9 200 = Answer 68 /\
  lookup_frame (publish table_new example_image 9 100) (11, 254, 48) 8 200 = Behind.
Proof.
  split.
  - rewrite (published_table_decides table_new example_image 9 100 (11, 254, 48) 9 200 table_new_wf eq_refl eq_refl).
    vm_compute. reflexivity.
  - rewrite (published_table_decides table_new example_image 9 100 (11, 254, 48) 8 200 table_new_wf eq_refl eq_refl).
    vm_compute. reflexivity.
Defined.

(** lease switch.  An entry built from the answers with and without the
    lease gives, from the table, the first while the lease set by
    [set_lease_for_ms] runs and the second after it; the lease runs for exactly
    its ticks, whatever the tick counter's wrap-around. *)
Theorem lease_selects_answer t now ms d index alive lapsed frame sa :
  in_u 32 now -> 0 <= ms -> 0 <= d < 2 ^ 32 - ANSWER_LEASE_MAX_TICKS -> opt_u8 alive -> opt_u8 lapsed ->
  entry_answer index (by_lease alive lapsed) frame sa
    (lease_alive (set_lease_for_ms t now ms) (wrapping_add 32 now d)) =
  if (index =? VERIFY_SHORT_ADDRESS_ENTRY) && negb (snd frame =? sa) then None
  else if d <? lease_ticks ms then alive else lapsed.
Proof.
  intros Hnow Hms Hd Ha Hl. rewrite entry_answer_by_lease by done. case_if; [done|].
  assert (lease_alive (set_lease_for_ms t now ms) (wrapping_add 32 now d) = (d <? lease_ticks ms)) as ->; [|done].
  assert (0 <= lease_ticks ms <= ANSWER_LEASE_MAX_TICKS) as Hlt.
  { change ANSWER_LEASE_MAX_TICKS with 28846 in *. unfold lease_ticks, LEASE_TTL_MS, US_PER_MS, PHY_TICK_US.
    case_if; dlia. }
  unfold lease_alive, set_lease_for_ms, set_lease_until_tick. cbn [lease_until_tick set_field].
  assert (wrapping_sub 32 (wrapping_add 32 now (lease_ticks ms)) (wrapping_add 32 now d)
    = wrap 32 (lease_ticks ms - d)) as ->.
  { unfold wrapping_sub, wrapping_add, wrap. rewrite <- Zminus_mod. f_equal. lia. }
  change ANSWER_LEASE_MAX_TICKS with 28846 in *. destruct (Z.ltb_spec d (lease_ticks ms)).
  - rewrite wrap_id by (unfold in_u; lia). lia.
  - replace (wrap 32 (lease_ticks ms - d)) with (if d =? lease_ticks ms then 0 else 2 ^ 32 + (lease_ticks ms - d)).
    { case_if; lia. }
    unfold wrap. destruct (Z.eqb_spec d (lease_ticks ms)) as [->|]; [now rewrite Z.sub_diag|].
    replace (lease_ticks ms - d) with (2 ^ 32 + (lease_ticks ms - d) + (-1) * 2 ^ 32) at 2 by lia.
    rewrite Z.mod_add, Z.mod_small by lia. done.
Qed.

Lemma lease_selects_answer_witness :
  entry_answer 0 (by_lease (Some 17) None) (11, 254, 48) 5
    (lease_alive (set_lease_for_ms table_new (2 ^ 32 - 3) 500) (wrapping_add 32 (2 ^ 32 - 3) 4000)) = Some 17.
Proof.
  rewrite (lease_selects_answer table_new (2 ^ 32 - 3) 500 4000 0 (Some 17) None (11, 254, 48) 5);
    [reflexivity|easy|discriminate|easy|easy|exact I].
Defined.

(** An armed answer meets IEC 62386-101's backward-frame window: whenever the gate
    says [Arm], the answer's first edge, three lead ticks later, falls between
    5.5 ms and 10.5 ms after the forward frame; before it the answer is held
    and after it dropped. *)
Theorem armed_answer_in_window idle late :
  in_u 16 idle ->
  answer_gate idle ANSWER_ARM_TARGET_IDLE_TICKS ANSWER_ARM_MAX_IDLE_TICKS = Arm late ->
  BACKWARD_MIN_US <= (idle + ANSWER_ARM_LEAD_TICKS) * PHY_TICK_US <= BACKWARD_MAX_US.
Proof.
  intros Hi. unfold answer_gate. change ANSWER_ARM_TARGET_IDLE_TICKS with 59.
  change ANSWER_ARM_MAX_IDLE_TICKS with 97. unfold BACKWARD_MIN_US, BACKWARD_MAX_US, ANSWER_ARM_LEAD_TICKS,
    TX_ARM_LEAD_TICKS, PHY_TICK_US. repeat case_if; intros [= <-]; lia.
Qed.

Lemma armed_answer_in_window_witness :
  BACKWARD_MIN_US <= (60 + ANSWER_ARM_LEAD_TICKS) * PHY_TICK_US <= BACKWARD_MAX_US.
Proof. apply (armed_answer_in_window 60 true); [easy|reflexivity]. Defined.

End AnswerTable.
