(* ===== verification/IsrCore.v ===== *)
(** * The interrupt core: one tick and the calls of the tasks

    Models [crates/dali2rust-dali-phy/src/isr.rs]: [PhyIsrCore], its [tick]
    (the timer alarm) and the operations the tasks call on it.  A tick and a
    call are whole steps here; their interleavings access by access are the
    subject of [Ring], [Mailbox] and [AnswerTable.Seqlock].  The line level,
    the clock, the core's number and the words the tick probe reads are the
    inputs of a tick ([tick_env]). *)

From S2P Require Import Prelude HalfBits Manchester PhyFsm Ring Mailbox AnswerTable.

Module IsrCore.
Import HalfBits Manchester PhyFsm Ring Mailbox AnswerTable.

(** ** Constants *)

Definition RX_RING_CAP : Z := 8.
Definition SESSION_RING_CAP : Z := 8.
Definition TX_RING_CAP : Z := 5.

Definition BUS_POWER_DOWN_TICKS : Z := 433.
Definition SYSTEM_FAILURE_TICKS : Z := 5288.

Definition BACKWARD_RECEIVE_MIN_US : Z := 2400.
Definition BACKWARD_RECEIVE_MIN_TICKS : Z := div_ceil BACKWARD_RECEIVE_MIN_US PHY_TICK_US.
Definition RX_START_STAMP_LAG_TICKS : Z := RX_START_DEBOUNCE_TICKS.
Definition BACKWARD_DATA_BITS : Z := 8.

Definition BUS_FAILURE_POWER_DOWN : Z := 1.
Definition BUS_FAILURE_SYSTEM : Z := 2.
Definition LATE_TICK_US : Z := 2 * PHY_TICK_US.
Definition INTERRUPT_FRAME_RA_OFFSET : Z := 4.

(** ** Data *)

Inductive SessionEvent :=
  | TxComplete (pre_idle_ticks : Z)
  | TxCollision
  | TxRejected
  | TxVoided
  | RxComplete (ev : RxCompletedEvent)
  | ForeignForward (pre_idle_ticks sample_count : Z).

Record TxRequest := MkTxRequest {
  tr_exchange_id : Z;
  tr_batched : bool;
  tr_data : list Z;
  tr_len : Z;
  tr_expects_backward : bool;
  tr_min_idle_ticks : Z;
  tr_restart_gate : Z }.

#[global] Instance eta_TxRequest : Eta TxRequest := fun r =>
  MkTxRequest (tr_exchange_id r) (tr_batched r) (tr_data r) (tr_len r) (tr_expects_backward r)
    (tr_min_idle_ticks r) (tr_restart_gate r).

Inductive TryArmAnswer := NotStaged | Held | Armed.
Inductive LineUnderAnswer := LineIdle | LineBackward | LineBusy.

Record AnswerArm := MkAnswerArm { aa_since_edge : Z; aa_late : bool; aa_over_backward : bool }.

Record AnswerSlot := MkAnswerSlot { forward_edge_tick : Z; rx_started_tick : Z }.

#[global] Instance eta_AnswerSlot : Eta AnswerSlot := fun s => MkAnswerSlot (forward_edge_tick s) (rx_started_tick s).

(** [AnswerTally], and [AnswerCounts] its snapshot. *)
Record AnswerTally := MkAnswerTally {
  at_sent : Z; at_stale : Z; at_expired : Z; at_late : Z; at_rejected : Z; at_collided : Z; at_over_backward : Z }.

#[global] Instance eta_AnswerTally : Eta AnswerTally := fun t =>
  MkAnswerTally (at_sent t) (at_stale t) (at_expired t) (at_late t) (at_rejected t) (at_collided t)
    (at_over_backward t).

Record ControlState := MkControl {
  ct_requested : Z; ct_acknowledged : Z; ct_active : bool; ct_rx_max_gap_us : Z }.

#[global] Instance eta_ControlState : Eta ControlState := fun c =>
  MkControl (ct_requested c) (ct_acknowledged c) (ct_active c) (ct_rx_max_gap_us c).

Record TableCounters := MkTableCounters { tn_answered : Z; tn_cell_busy : Z; tn_decode_overrun : Z }.

#[global] Instance eta_TableCounters : Eta TableCounters := fun t =>
  MkTableCounters (tn_answered t) (tn_cell_busy t) (tn_decode_overrun t).

Record HeldCapture := MkHeldCapture {
  hc_held : bool; hc_ev : RxCompletedEvent; hc_window : SampleWindow; hc_search : BestPhaseSearch }.

#[global] Instance eta_HeldCapture : Eta HeldCapture := fun h =>
  MkHeldCapture (hc_held h) (hc_ev h) (hc_window h) (hc_search h).

Definition held_new : HeldCapture :=
  MkHeldCapture false rx_event_new window_EMPTY (search_new SNIFFED_BIT_LENGTHS).

Record TablePath := MkTablePath {
  tp_sniff_seq : Z; tp_held : HeldCapture; tp_table : AnswerTableCell; tp_counts : TableCounters }.

#[global] Instance eta_TablePath : Eta TablePath := fun p =>
  MkTablePath (tp_sniff_seq p) (tp_held p) (tp_table p) (tp_counts p).

Record TxCounters := MkTxCounters { tx_yields : Z; tx_voided : Z; tx_collision_restarts : Z }.

#[global] Instance eta_TxCounters : Eta TxCounters := fun t =>
  MkTxCounters (tx_yields t) (tx_voided t) (tx_collision_restarts t).

(** Addresses are 32-bit; [tp_clock] is the address of the installed clock. *)
Record TickProbe := MkTickProbe {
  pb_clock : Z; pb_tcb : Z * Z; pb_nesting : Z * Z; pb_last_us : Z; pb_late_ticks : Z; pb_max_gap_us : Z;
  pb_last_gap_us : Z; pb_last_gap_at_us : Z; pb_last_gap_tcb : Z; pb_last_gap_pc : Z; pb_last_gap_ra : Z;
  pb_last_gap_depth : Z }.

#[global] Instance eta_TickProbe : Eta TickProbe := fun p =>
  MkTickProbe (pb_clock p) (pb_tcb p) (pb_nesting p) (pb_last_us p) (pb_late_ticks p) (pb_max_gap_us p)
    (pb_last_gap_us p) (pb_last_gap_at_us p) (pb_last_gap_tcb p) (pb_last_gap_pc p) (pb_last_gap_ra p)
    (pb_last_gap_depth p).

Definition probe_new : TickProbe := MkTickProbe 0 (0, 0) (0, 0) 0 0 0 0 0 0 0 0 0.

Record LateTick := MkLateTick {
  gap_us : Z; at_us : Z; interrupted_task : Z; interrupted_pc : Z; interrupted_ra : Z; nesting_depth : Z }.

(** The platform's statics a tick stores to: the core's number, the idle gap and
    whether a frame is on the wire. *)
Record Statics := MkStatics { ISR_CORE_ID : Z; PHY_IDLE_TICKS : Z; PHY_FRAME_ACTIVE : bool }.

#[global] Instance eta_Statics : Eta Statics := fun g =>
  MkStatics (ISR_CORE_ID g) (PHY_IDLE_TICKS g) (PHY_FRAME_ACTIVE g).

Record PhyIsrCore := MkCore {
  c_phy : DaliBitbangPhy;
  c_cmd : AtomicCommandCell;
  c_tx_queue : @SpscRing TxRequest;
  c_pending : option TxRequest;
  c_batch_aborted : bool;
  c_control : ControlState;
  c_exchange_epoch : Z;
  c_active_epoch : Z;
  c_session_events : @SpscRing (Z * SessionEvent);
  c_rx_ring : @SpscRing RxCompletedEvent;
  c_sniff_dropped : Z;
  c_session_dropped : Z;
  c_stale_session_events : Z;
  c_idle_ticks : Z;
  c_active_expects_backward : bool;
  c_session_exchange : Z;
  c_session_rx_started : Z;
  c_bus_failure_flags : Z;
  c_bus_power_down_entries : Z;
  c_system_failure_entries : Z;
  c_line_held : Z;
  c_wire_ticks_total : Z;
  c_wire_ticks_active : Z;
  c_wire_ticks_tx : Z;
  c_answer : AtomicAnswerCell;
  c_bus_epoch : Z;
  c_active_is_answer : bool;
  c_last_answer_arm_since_edge_ticks : Z;
  c_answers : AnswerTally;
  c_probe : TickProbe;
  c_tx : TxCounters;
  c_answer_slot : AnswerSlot;
  c_table_path : TablePath;
  c_statics : Statics }.

#[global] Instance eta_PhyIsrCore : Eta PhyIsrCore := fun c =>
  MkCore (c_phy c) (c_cmd c) (c_tx_queue c) (c_pending c) (c_batch_aborted c) (c_control c)
    (c_exchange_epoch c) (c_active_epoch c) (c_session_events c) (c_rx_ring c) (c_sniff_dropped c)
    (c_session_dropped c) (c_stale_session_events c) (c_idle_ticks c) (c_active_expects_backward c)
    (c_session_exchange c) (c_session_rx_started c) (c_bus_failure_flags c) (c_bus_power_down_entries c)
    (c_system_failure_entries c) (c_line_held c) (c_wire_ticks_total c) (c_wire_ticks_active c)
    (c_wire_ticks_tx c) (c_answer c) (c_bus_epoch c) (c_active_is_answer c)
    (c_last_answer_arm_since_edge_ticks c) (c_answers c) (c_probe c) (c_tx c) (c_answer_slot c)
    (c_table_path c) (c_statics c).

Definition core_new : PhyIsrCore :=
  MkCore phy_new command_cell_new (ring_new TX_RING_CAP) None false (MkControl 0 0 false 0) 0 0
    (ring_new SESSION_RING_CAP) (ring_new RX_RING_CAP) 0 0 0 0 false 0 0 0 0 0 0 0 0 0 answer_cell_new 0 false 0
    (MkAnswerTally 0 0 0 0 0 0 0) probe_new (MkTxCounters 0 0 0) (MkAnswerSlot 0 0)
    (MkTablePath 0 held_new table_new (MkTableCounters 0 0 0))
    (MkStatics (umax 32) (umax 32) false).

Definition inc32 (z : Z) : Z := wrapping_add 32 z 1.

(** The rings: an item popped was written ([Ring.holds_pop]), so the slot is
    never empty. *)
Definition ring_pop {T} (CAP : Z) (r : @SpscRing T) : @SpscRing T * option T :=
  match try_pop CAP r with
  | (r, Some (Some x)) => (r, Some x)
  | (r, _) => (r, None)
  end.

(** [while ring.try_pop().is_some() {}]: a ring of [CAP] slots is empty after
    [CAP] turns at most. *)
Fixpoint ring_drain {T} (fuel : nat) (CAP : Z) (r : @SpscRing T) : @SpscRing T :=
  match fuel with
  | O => r
  | S fuel =>
      match ring_pop CAP r with
      | (r, Some _) => ring_drain fuel CAP r
      | (r, None) => r
      end
  end.

Definition drain_tx_queue (r : @SpscRing TxRequest) : @SpscRing TxRequest :=
  ring_drain (Z.to_nat TX_RING_CAP) TX_RING_CAP r.

(** ** The tick probe *)

(** What a tick reads outside the core. *)
Record tick_env := MkTickEnv {
  env_bus_is_high : bool;
  env_core : Z;
  env_clock : Z -> Z;
  env_word : Z -> Z }.

Definition read_slot (env : tick_env) (addr : Z) : Z := if addr =? 0 then 0 else env_word env addr.
Definition read_counter (env : tick_env) (addr : Z) : Z := if addr =? 0 then 0 else env_word env addr.

Definition interrupted_site (env : tick_env) (tcb depth : Z) : Z * Z :=
  if negb (depth =? 1) then (0, 0)
  else
    let frame := read_slot env tcb in
    if frame =? 0 then (0, 0)
    else (read_counter env frame, read_counter env (wrapping_add 32 frame INTERRUPT_FRAME_RA_OFFSET)).

Definition book_late_tick (p : TickProbe) (env : tick_env) (core now gap : Z) : TickProbe :=
  let p := p <| pb_late_ticks := inc32 (pb_late_ticks p) |> in
  let p := if pb_max_gap_us p <? gap then p <| pb_max_gap_us := gap |> else p in
  let '(tcb_slot, depth_slot) := if core =? 0 then (fst (pb_tcb p), fst (pb_nesting p))
                                 else (snd (pb_tcb p), snd (pb_nesting p)) in
  let tcb := read_slot env tcb_slot in
  let depth := read_counter env depth_slot in
  let '(pc, ra) := interrupted_site env tcb depth in
  p <| pb_last_gap_us := gap |> <| pb_last_gap_at_us := now |> <| pb_last_gap_tcb := tcb |>
    <| pb_last_gap_pc := pc |> <| pb_last_gap_ra := ra |> <| pb_last_gap_depth := depth |>.

(** The gap since the tick before, 0 when unknown. *)
Definition probe_tick (p : TickProbe) (env : tick_env) (core : Z) : TickProbe * Z :=
  if pb_clock p =? 0 then (p, 0)
  else
    let now := wrap 32 (env_clock env (pb_clock p)) in
    let last := pb_last_us p in
    let p := p <| pb_last_us := now |> in
    if last =? 0 then (p, 0)
    else
      let gap := wrapping_sub 32 now last in
      (if LATE_TICK_US <? gap then book_late_tick p env core now gap else p, gap).

Definition track_rx_timing (c : PhyIsrCore) (before after : RxState) (gap_us : Z) : PhyIsrCore :=
  let slot := ct_rx_max_gap_us (c_control c) in
  let slot := if negb (bool_decide (before = Receiving)) && bool_decide (after = Receiving) then 0 else slot in
  let slot := if bool_decide (before = Receiving) || bool_decide (after = Receiving) then Z.max slot gap_us else slot in
  c <| c_control := c_control c <| ct_rx_max_gap_us := slot |> |>.

Definition install_tick_probe (c : PhyIsrCore) (clock tcb_core0 tcb_core1 nesting_core0 nesting_core1 : Z) : PhyIsrCore :=
  c <| c_probe := c_probe c <| pb_tcb := (tcb_core0, tcb_core1) |>
                            <| pb_nesting := (nesting_core0, nesting_core1) |> <| pb_clock := clock |> |>.

Definition late_tick_counts (c : PhyIsrCore) : Z * Z := (pb_late_ticks (c_probe c), pb_max_gap_us (c_probe c)).

Definition take_late_tick (c : PhyIsrCore) : PhyIsrCore * option LateTick :=
  let p := c_probe c in
  let gap := pb_last_gap_us p in
  let c := c <| c_probe := p <| pb_last_gap_us := 0 |> |> in
  if gap =? 0 then (c, None)
  else (c, Some (MkLateTick gap (pb_last_gap_at_us p) (pb_last_gap_tcb p) (pb_last_gap_pc p)
                   (pb_last_gap_ra p) (pb_last_gap_depth p))).

(** ** Reporting *)

Definition push_session_event_for (c : PhyIsrCore) (exchange_id : Z) (event : SessionEvent) : PhyIsrCore :=
  match try_push SESSION_RING_CAP (c_session_events c) (exchange_id, event) with
  | (r, true) => c <| c_session_events := r |>
  | (r, false) => c <| c_session_events := r |> <| c_session_dropped := inc32 (c_session_dropped c) |>
  end.

Definition push_session_event (c : PhyIsrCore) (event : SessionEvent) : PhyIsrCore :=
  push_session_event_for c (c_active_epoch c) event.

Definition push_to_sniffer_ring (c : PhyIsrCore) (ev : RxCompletedEvent) : PhyIsrCore :=
  match try_push RX_RING_CAP (c_rx_ring c) ev with
  | (r, true) => c <| c_rx_ring := r |>
  | (r, false) => c <| c_rx_ring := r |> <| c_sniff_dropped := inc32 (c_sniff_dropped c) |>
  end.

(** ** Arming a transmission *)

Definition clear_pending (c : PhyIsrCore) : PhyIsrCore := c <| c_pending := None |>.

(** Whether a request was held, and whether one was queued. *)
Definition discard_queued (c : PhyIsrCore) : PhyIsrCore * (bool * bool) :=
  let held := match c_pending c with Some _ => true | None => false end in
  let queued := negb (is_empty (c_tx_queue c)) in
  (c <| c_pending := None |> <| c_tx_queue := drain_tx_queue (c_tx_queue c) |>, (held, queued)).

Definition discard_queued_and_cell (c : PhyIsrCore) : PhyIsrCore :=
  let '(c, _) := discard_queued c in
  c <| c_cmd := fst (take_command (c_cmd c)) |>.

Definition apply_requested_cancel (c : PhyIsrCore) : PhyIsrCore :=
  let raw := ct_requested (c_control c) in
  if raw =? 0 then c
  else
    let active := tx_busy (c_phy c) && negb (c_active_is_answer c) && (c_active_epoch c =? raw) in
    let c :=
      if active then
        let c := c <| c_control := c_control c <| ct_active := true |> |> in
        let c := c <| c_tx_queue := drain_tx_queue (c_tx_queue c) |> in
        c <| c_cmd := fst (take_command (c_cmd c)) |>
      else
        let c := discard_queued_and_cell c in
        c <| c_control := c_control c <| ct_active := false |> |> in
    let c := if c_active_epoch c =? raw then c <| c_active_expects_backward := false |> else c in
    let c := if c_session_exchange c =? raw
             then c <| c_session_exchange := 0 |> <| c_session_rx_started := 0 |> else c in
    let c := if ct_requested (c_control c) =? raw
             then c <| c_control := c_control c <| ct_requested := 0 |> |> else c in
    c <| c_control := c_control c <| ct_acknowledged := raw |> |>.

Definition next_request (c : PhyIsrCore) : PhyIsrCore * option TxRequest :=
  match ring_pop TX_RING_CAP (c_tx_queue c) with
  | (q, Some req) => (c <| c_tx_queue := q |>, Some req)
  | (q, None) =>
      let c := c <| c_tx_queue := q |> in
      match take_command (c_cmd c) with
      | (cell, None) => (c <| c_cmd := cell |>, None)
      | (cell, Some cmd) =>
          (c <| c_cmd := cell |>,
           Some (MkTxRequest (tc_exchange_id cmd) false (tc_data cmd) (tc_len cmd) (tc_expects_backward cmd)
                   (tc_min_idle_ticks cmd) (tc_restart_gate cmd)))
      end
  end.

Definition arm_pending_forward (c : PhyIsrCore) : PhyIsrCore :=
  let c := match c_pending c with
           | None => let '(c, req) := next_request c in c <| c_pending := req |>
           | Some _ => c
           end in
  match c_pending c with
  | None => c
  | Some req =>
      if idlecnt (c_phy c) <? tr_min_idle_ticks req then c
      else
        let hb := MkHalfBitBuffer (tr_data req) (tr_len req) in
        let c := c <| c_active_epoch := tr_exchange_id req |> in
        let c := c <| c_active_expects_backward := tr_expects_backward req |> in
        let '(phy, ok) := start_tx (c_phy c) hb in
        let c := c <| c_phy := phy |> in
        if ok then c <| c_bus_epoch := wrapping_add 8 (c_bus_epoch c) 1 |>
        else
          let c := c <| c_pending := None |> <| c_active_expects_backward := false |> in
          push_session_event c TxRejected
  end.

Definition ticks_since_forward_edge (c : PhyIsrCore) : Z :=
  let elapsed := wrapping_sub 32 (c_wire_ticks_total c) (forward_edge_tick (c_answer_slot c)) in
  if umax 16 <? elapsed then umax 16 else elapsed.

Definition reception_began_in_the_backward_window (c : PhyIsrCore) : bool :=
  let edge := forward_edge_tick (c_answer_slot c) in
  let started := rx_started_tick (c_answer_slot c) in
  let quiet := sat_sub (wrapping_sub 32 started edge) RX_START_STAMP_LAG_TICKS in
  BACKWARD_RECEIVE_MIN_TICKS <=? quiet.

Definition line_under_answer (c : PhyIsrCore) : LineUnderAnswer :=
  if LINE_HELD_TICKS <=? low_run_ticks (c_phy c) then LineBusy
  else
    match bus_state (c_phy c) with
    | Idle => if line_debouncing (c_phy c) then LineBackward else LineIdle
    | Rx => if reception_began_in_the_backward_window c then LineBackward else LineBusy
    | _ => LineBusy
    end.

Definition fire_staged_answer (c : PhyIsrCore) (arm : AnswerArm) : PhyIsrCore * TryArmAnswer :=
  match take_answer (c_answer c) with
  | (cell, None) => (c <| c_answer := cell |>, NotStaged)
  | (cell, Some (_, hb)) =>
      let c := c <| c_answer := cell |> <| c_last_answer_arm_since_edge_ticks := aa_since_edge arm |> in
      let c := if aa_late arm
               then c <| c_answers := c_answers c <| at_late := inc32 (at_late (c_answers c)) |> |> else c in
      let c := c <| c_active_is_answer := true |> <| c_active_expects_backward := false |> in
      let '(phy, ok) := start_answer (c_phy c) hb in
      let c := c <| c_phy := phy |> in
      let c :=
        if negb ok then
          c <| c_active_is_answer := false |>
            <| c_answers := c_answers c <| at_rejected := inc32 (at_rejected (c_answers c)) |> |>
        else if aa_over_backward arm then
          c <| c_answers := c_answers c <| at_over_backward := inc32 (at_over_backward (c_answers c)) |> |>
        else c in
      (c, Armed)
  end.

Definition arm_over_line (c : PhyIsrCore) (since_edge : Z) (late : bool) : PhyIsrCore * TryArmAnswer :=
  match line_under_answer c with
  | LineBusy => (c, Held)
  | LineIdle => fire_staged_answer c (MkAnswerArm since_edge late false)
  | LineBackward => fire_staged_answer c (MkAnswerArm since_edge late true)
  end.

Definition expire_staged_answer (c : PhyIsrCore) : PhyIsrCore * TryArmAnswer :=
  (c <| c_answer := discard (c_answer c) |>
     <| c_answers := c_answers c <| at_expired := inc32 (at_expired (c_answers c)) |> |>, NotStaged).

Definition try_arm_answer (c : PhyIsrCore) : PhyIsrCore * TryArmAnswer :=
  match staged_epoch (c_answer c) with
  | None => (c, NotStaged)
  | Some epoch =>
      if negb (epoch =? c_bus_epoch c) then
        (c <| c_answer := discard (c_answer c) |>
           <| c_answers := c_answers c <| at_stale := inc32 (at_stale (c_answers c)) |> |>, NotStaged)
      else
        let since_edge := ticks_since_forward_edge c in
        match answer_gate since_edge ANSWER_ARM_TARGET_IDLE_TICKS ANSWER_ARM_MAX_IDLE_TICKS with
        | Hold => (c, Held)
        | Expired => expire_staged_answer c
        | Arm late => arm_over_line c since_edge late
        end
  end.

Definition arm_pending_tx (c : PhyIsrCore) : PhyIsrCore :=
  let c := apply_requested_cancel c in
  if tx_busy (c_phy c) then c
  else
    match try_arm_answer c with
    | (c, (Armed | Held)) => c
    | (c, NotStaged) =>
        if negb (c_session_exchange c =? 0) then c
        else if negb (bool_decide (bus_state (c_phy c) = Idle)) || line_debouncing (c_phy c) then c
        else arm_pending_forward c
    end.

(** ** The state a tick publishes *)

Definition frame_active (b : BusState) (failure_flags : Z) : bool :=
  negb (bool_decide (b = Idle)) && (Z.land failure_flags BUS_FAILURE_POWER_DOWN =? 0).

Definition note_wire_ticks (c : PhyIsrCore) (b : BusState) : PhyIsrCore :=
  let c := c <| c_wire_ticks_total := inc32 (c_wire_ticks_total c) |> in
  let c := if negb (bool_decide (b = Idle)) then c <| c_wire_ticks_active := inc32 (c_wire_ticks_active c) |> else c in
  match b with
  | Tx | CollisionTx => c <| c_wire_ticks_tx := inc32 (c_wire_ticks_tx c) |>
  | _ => c
  end.

Definition note_session_rx_started (c : PhyIsrCore) : PhyIsrCore :=
  if negb (c_session_exchange c =? 0) && bool_decide (rx_state (c_phy c) = Receiving)
  then c <| c_session_rx_started := 1 + rx_pre_idle (c_phy c) |> else c.

(** The packed (runs, longest) pair of [line_held] after a tick with [low_run]. *)
Definition line_held_after (packed low_run : Z) : Z :=
  let runs := Z.shiftr packed 16 in
  let longest := Z.land packed 65535 in
  let runs := if low_run =? LINE_HELD_TICKS then Z.min (sat_add 32 runs 1) 65535 else runs in
  Z.lor (shl 32 runs 16) (Z.max longest low_run).

Definition publish_tick_state (c : PhyIsrCore) : PhyIsrCore :=
  let idle := idlecnt (c_phy c) in
  let c := c <| c_idle_ticks := idle |> in
  let low_run := low_run_ticks (c_phy c) in
  let flags := Z.lor (Z_of_bool (BUS_POWER_DOWN_TICKS <=? low_run))
                     (shl 32 (Z_of_bool (SYSTEM_FAILURE_TICKS <=? low_run)) 1) in
  let gap := if negb (Z.land flags BUS_FAILURE_POWER_DOWN =? 0) then umax 32 else idle in
  let c := c <| c_statics := c_statics c <| PHY_IDLE_TICKS := gap |> |> in
  let c := if LINE_HELD_TICKS <=? low_run then c <| c_line_held := line_held_after (c_line_held c) low_run |> else c in
  let prev := c_bus_failure_flags c in
  let c := c <| c_bus_failure_flags := flags |> in
  let c := if negb (Z.land flags BUS_FAILURE_POWER_DOWN =? 0) && (Z.land prev BUS_FAILURE_POWER_DOWN =? 0)
           then c <| c_bus_power_down_entries := inc32 (c_bus_power_down_entries c) |> else c in
  let c := if negb (Z.land flags BUS_FAILURE_SYSTEM =? 0) && (Z.land prev BUS_FAILURE_SYSTEM =? 0)
           then c <| c_system_failure_entries := inc32 (c_system_failure_entries c) |> else c in
  let b := bus_state (c_phy c) in
  let c := note_wire_ticks c b in
  let c := c <| c_statics := c_statics c <| PHY_FRAME_ACTIVE := frame_active b flags |> |> in
  note_session_rx_started c.

Definition note_rx_start (c : PhyIsrCore) (before after : RxState) : PhyIsrCore :=
  if negb (bool_decide (before = Receiving)) && bool_decide (after = Receiving)
  then c <| c_answer_slot := c_answer_slot c <| rx_started_tick := c_wire_ticks_total c |> |> else c.

(** ** The end of a transmission *)

Definition abort_batch_tail (c : PhyIsrCore) : PhyIsrCore :=
  let held_request := c_pending c in
  let '(c, (held, queued)) := discard_queued c in
  let c := match held, held_request with
           | true, Some request =>
               let c := c <| c_tx := c_tx c <| tx_voided := inc32 (tx_voided (c_tx c)) |> |> in
               push_session_event_for c (tr_exchange_id request) TxVoided
           | _, _ => c
           end in
  if queued || match held_request with Some request => tr_batched request | None => false end
  then c <| c_batch_aborted := true |> else c.

Definition report_answer_completion (c : PhyIsrCore) (poll : TxPollResult) : PhyIsrCore :=
  match poll with
  | PollCollision => c <| c_answers := c_answers c <| at_collided := inc32 (at_collided (c_answers c)) |> |>
  | PollYielded => c <| c_answers := c_answers c <| at_stale := inc32 (at_stale (c_answers c)) |> |>
  | _ => c <| c_answers := c_answers c <| at_sent := inc32 (at_sent (c_answers c)) |> |>
  end.

Definition restart_after_break (c : PhyIsrCore) : PhyIsrCore * bool :=
  match c_pending c with
  | None => (c, false)
  | Some request =>
      if tr_restart_gate request =? 0 then (c, false)
      else
        (c <| c_pending := Some (request <| tr_min_idle_ticks := tr_restart_gate request |>
                                         <| tr_restart_gate := 0 |>) |>, true)
  end.

Definition report_frame_sent (c : PhyIsrCore) : PhyIsrCore :=
  let c := clear_pending c in
  let expects := c_active_expects_backward c in
  let c := c <| c_active_expects_backward := false |> in
  let c := if expects then c <| c_session_exchange := c_active_epoch c |> else c in
  push_session_event c (TxComplete (tx_pre_idle (c_phy c))).

Definition report_collision (c : PhyIsrCore) : PhyIsrCore :=
  let c := clear_pending c in
  let c := c <| c_active_expects_backward := false |> <| c_session_exchange := 0 |> in
  let c := abort_batch_tail c in
  push_session_event c TxCollision.

Definition report_collision_or_restart (c : PhyIsrCore) : PhyIsrCore :=
  let '(phy, idle) := take_idle_after_break (c_phy c) in
  let c := c <| c_phy := phy |> in
  let '(c, restarted) := if idle then restart_after_break c else (c, false) in
  if restarted then
    c <| c_tx := c_tx c <| tx_collision_restarts := inc32 (tx_collision_restarts (c_tx c)) |> |>
  else report_collision c.

Definition report_forward_completion (c : PhyIsrCore) (poll : TxPollResult) : PhyIsrCore :=
  if ct_active (c_control c) then
    let c := c <| c_control := c_control c <| ct_active := false |> |> in
    let c := match poll with
             | PollYielded => c <| c_bus_epoch := wrapping_sub 8 (c_bus_epoch c) 1 |>
             | _ => c
             end in
    let c := clear_pending c in
    c <| c_active_expects_backward := false |> <| c_session_exchange := 0 |> <| c_session_rx_started := 0 |>
  else
    match poll with
    | PollOk => report_frame_sent c
    | PollCollision => report_collision_or_restart c
    | PollYielded =>
        c <| c_active_expects_backward := false |>
          <| c_bus_epoch := wrapping_sub 8 (c_bus_epoch c) 1 |>
          <| c_tx := c_tx c <| tx_yields := inc32 (tx_yields (c_tx c)) |> |>
    | PollTransmitting => c
    end.

Definition report_tx_completion (c : PhyIsrCore) : PhyIsrCore :=
  let '(phy, poll) := poll_tx_state (c_phy c) in
  let c := c <| c_phy := phy |> in
  let was_answer := c_active_is_answer c in
  let c := c <| c_active_is_answer := false |> in
  if was_answer then report_answer_completion c poll else report_forward_completion c poll.

(** ** Captures *)

Definition answer_from_table (c : PhyIsrCore) (frame : Z * Z * Z) (ev : RxCompletedEvent) : PhyIsrCore :=
  let now := c_wire_ticks_total c in
  let previous := wrapping_sub 32 (sniff_seq ev) 1 in
  let '(table, found) := answer (tp_table (c_table_path c)) frame previous now in
  let c := c <| c_table_path := c_table_path c <| tp_table := table |> |> in
  match found with
  | None => c
  | Some byte =>
      let hb := encode byte BACKWARD_DATA_BITS in
      let '(cell, staged) := stage (c_answer c) (rx_epoch ev) hb in
      let c := c <| c_answer := cell |> in
      let counts := tp_counts (c_table_path c) in
      let counts := if staged then counts <| tn_answered := inc32 (tn_answered counts) |>
                    else counts <| tn_cell_busy := inc32 (tn_cell_busy counts) |> in
      c <| c_table_path := c_table_path c <| tp_counts := counts |> |>
  end.

Definition set_held (c : PhyIsrCore) (h : HeldCapture) : PhyIsrCore :=
  c <| c_table_path := c_table_path c <| tp_held := h |> |>.

Definition step_held_capture (c : PhyIsrCore) : PhyIsrCore :=
  let held := tp_held (c_table_path c) in
  if negb (hc_held held) then c
  else
    match search_step (hc_search held) (hc_window held) with
    | (search, Searching) => set_held c (held <| hc_search := search |>)
    | (search, Done found) =>
        let held := held <| hc_search := search |> <| hc_held := false |>
                         <| hc_ev := hc_ev held <| isr_decode := Decoded found |> |> in
        let c := set_held c held in
        let c := match found with
                 | Some decode =>
                     if bit_len decode =? FORWARD24_BITS then
                       answer_from_table c (nth 0 (pd_data decode) 0, nth 1 (pd_data decode) 0, nth 2 (pd_data decode) 0)
                         (hc_ev held)
                     else c
                 | None => c
                 end in
        push_to_sniffer_ring c (hc_ev held)
    end.

Definition push_sniffer_capture (c : PhyIsrCore) (ev : RxCompletedEvent) : PhyIsrCore :=
  let held := tp_held (c_table_path c) in
  let c := if hc_held held then
             let c := set_held c (held <| hc_held := false |>) in
             let counts := tp_counts (c_table_path c) in
             let c := c <| c_table_path := c_table_path c
                             <| tp_counts := counts <| tn_decode_overrun := inc32 (tn_decode_overrun counts) |> |> |> in
             push_to_sniffer_ring c (hc_ev held)
           else c in
  let seq := wrapping_add 32 (tp_sniff_seq (c_table_path c)) 1 in
  let c := c <| c_table_path := c_table_path c <| tp_sniff_seq := seq |> |> in
  let ev := ev <| sniff_seq := seq |> in
  if negb (is_forward24_length (sample_count ev)) then push_to_sniffer_ring c ev
  else
    set_held c (MkHeldCapture true ev (of_capture (samples ev) (sample_count ev)) (search_new SNIFFED_BIT_LENGTHS)).

(** The epoch the forward frame opens. *)
Definition note_forward_capture (c : PhyIsrCore) (now ticks_since_edge : Z) : PhyIsrCore * Z :=
  let edge := wrapping_sub 32 now ticks_since_edge in
  let c := c <| c_answer_slot := c_answer_slot c <| forward_edge_tick := edge |> |> in
  let epoch := wrapping_add 8 (c_bus_epoch c) 1 in
  (c <| c_bus_epoch := epoch |>, epoch).

Definition stamp_rx_timing (c : PhyIsrCore) (ev : RxCompletedEvent) : PhyIsrCore * RxCompletedEvent :=
  let gap := ct_rx_max_gap_us (c_control c) in
  (c <| c_control := c_control c <| ct_rx_max_gap_us := 0 |> |>,
   ev <| max_sample_gap_us := gap |> <| timing_degraded := LATE_TICK_US <=? gap |>).

Definition route_backward_capture (c : PhyIsrCore) (ev : RxCompletedEvent) : PhyIsrCore :=
  let exchange := c_session_exchange c in
  let c := c <| c_session_exchange := 0 |> <| c_session_rx_started := 0 |> in
  if negb (exchange =? 0) then push_session_event_for c exchange (RxComplete ev)
  else push_sniffer_capture c ev.

Definition route_forward_capture (c : PhyIsrCore) (ev : RxCompletedEvent) : PhyIsrCore :=
  let c := abort_batch_tail c in
  let exchange := c_session_exchange c in
  let c := c <| c_session_exchange := 0 |> <| c_session_rx_started := 0 |> in
  let c := if negb (exchange =? 0)
           then push_session_event_for c exchange (ForeignForward (pre_idle_ticks ev) (sample_count ev))
           else c in
  push_sniffer_capture c ev.

Definition drain_completed_rx (c : PhyIsrCore) : PhyIsrCore :=
  match take_completed_rx_event (c_phy c) with
  | (phy, None) => c <| c_phy := phy |>
  | (phy, Some ev) =>
      let c := c <| c_phy := phy |> in
      let now := c_wire_ticks_total c in
      let class := frame_length_class (sample_count ev) in
      let '(c, epoch) := match class with
                         | ClassForward => note_forward_capture c now (idlecnt (c_phy c))
                         | ClassBackward => (c, c_bus_epoch c)
                         end in
      let ev := ev <| rx_epoch := epoch |> <| rx_tick := now |> in
      let '(c, ev) := stamp_rx_timing c ev in
      match class with
      | ClassBackward => route_backward_capture c ev
      | ClassForward => route_forward_capture c ev
      end
  end.

(** ** The tick *)

Definition isr_tick (c : PhyIsrCore) (env : tick_env) : PhyIsrCore :=
  let core := env_core env in
  let c := c <| c_statics := c_statics c <| ISR_CORE_ID := core |> |> in
  let rx_before := rx_state (c_phy c) in
  let '(probe, sample_gap_us) := probe_tick (c_probe c) env core in
  let c := c <| c_probe := probe |> in
  let c := arm_pending_tx c in
  let was_tx_busy := tx_busy (c_phy c) in
  let c := c <| c_phy := tick (c_phy c) (env_bus_is_high env) |> in
  let c := track_rx_timing c rx_before (rx_state (c_phy c)) sample_gap_us in
  let c := publish_tick_state c in
  let c := note_rx_start c rx_before (rx_state (c_phy c)) in
  let c := if was_tx_busy && negb (tx_busy (c_phy c)) then report_tx_completion c else c in
  let c := step_held_capture c in
  drain_completed_rx c.

(** ** What the tasks call *)

Definition current_exchange (c : PhyIsrCore) : Z := c_exchange_epoch c.

Definition next_exchange (old : Z) : Z := Z.max (wrapping_add 32 old 1) 1.

Definition begin_exchange (c : PhyIsrCore) : PhyIsrCore * Z :=
  let id := c_exchange_epoch c in
  (c <| c_exchange_epoch := next_exchange id |>, next_exchange id).

(** The exchange a task's frame belongs to: the current one, or a new first one. *)
Definition exchange_for_submit (c : PhyIsrCore) : PhyIsrCore * Z :=
  if current_exchange c =? 0 then begin_exchange c else (c, current_exchange c).

Definition submit_tx_for (c : PhyIsrCore) (halfbit_data : list Z) (halfbit_len : Z) (expects_backward : bool)
    (gates : TxGates) (exchange_id : Z) : PhyIsrCore * bool :=
  if negb (ct_requested (c_control c) =? 0) then (c, false)
  else
    let '(cell, ok) := send_packed_tx (c_cmd c) halfbit_data halfbit_len expects_backward gates exchange_id in
    (c <| c_cmd := cell |>, ok).

Definition submit_tx (c : PhyIsrCore) (halfbit_data : list Z) (halfbit_len : Z) (expects_backward : bool)
    (gates : TxGates) : PhyIsrCore * bool :=
  let '(c, exchange_id) := exchange_for_submit c in
  submit_tx_for c halfbit_data halfbit_len expects_backward gates exchange_id.

Definition queue_tx_for (c : PhyIsrCore) (halfbit_data : list Z) (halfbit_len : Z) (expects_backward : bool)
    (gates : TxGates) (exchange_id : Z) : PhyIsrCore * bool :=
  if negb (ct_requested (c_control c) =? 0) then (c, false)
  else if (halfbit_len =? 0) || (MAX_DATA_HALF_BITS <? halfbit_len) then (c, false)
  else
    let '(q, ok) := try_push TX_RING_CAP (c_tx_queue c)
      (MkTxRequest exchange_id true halfbit_data halfbit_len expects_backward (g_min_idle_ticks gates)
         (g_restart_gate gates)) in
    (c <| c_tx_queue := q |>, ok).

Definition queue_tx (c : PhyIsrCore) (halfbit_data : list Z) (halfbit_len : Z) (expects_backward : bool)
    (gates : TxGates) : PhyIsrCore * bool :=
  let '(c, exchange_id) := exchange_for_submit c in
  queue_tx_for c halfbit_data halfbit_len expects_backward gates exchange_id.

Definition tx_batch_capacity : Z := TX_RING_CAP - 1.

Definition submit_answer (c : PhyIsrCore) (epoch : Z) (hb : HalfBitBuffer) : PhyIsrCore * bool :=
  let '(cell, ok) := stage (c_answer c) epoch hb in (c <| c_answer := cell |>, ok).

Definition latest_capture (c : PhyIsrCore) : Z := tp_sniff_seq (c_table_path c).

Definition publish_answer_table (c : PhyIsrCore) (image : AnswerTableImage) (accounts : Z) : PhyIsrCore :=
  let table := publish (tp_table (c_table_path c)) image accounts (c_wire_ticks_total c) in
  c <| c_table_path := c_table_path c <| tp_table := table |> |>.

Definition set_answer_lease_for_ms (c : PhyIsrCore) (now_tick remaining_ms : Z) : PhyIsrCore :=
  c <| c_table_path := c_table_path c
         <| tp_table := set_lease_for_ms (tp_table (c_table_path c)) now_tick remaining_ms |> |>.

Definition lookup_answer (c : PhyIsrCore) (frame : Z * Z * Z) (previous_capture : Z) : TableLookup :=
  lookup_frame (tp_table (c_table_path c)) frame previous_capture (c_wire_ticks_total c).

Definition cancel_exchange (c : PhyIsrCore) (exchange_id : Z) : PhyIsrCore :=
  c <| c_control := c_control c <| ct_requested := exchange_id |> |>.

Definition cancel_pending_tx (c : PhyIsrCore) : PhyIsrCore := cancel_exchange c (current_exchange c).

Definition cancellation_acknowledged (c : PhyIsrCore) (exchange_id : Z) : bool :=
  ct_acknowledged (c_control c) =? exchange_id.

Definition take_batch_aborted (c : PhyIsrCore) : PhyIsrCore * bool :=
  (c <| c_batch_aborted := false |>, c_batch_aborted c).

(** [while let Some(..) = try_pop()]: at most one turn per slot of the ring. *)
Fixpoint pop_session_loop (fuel : nat) (c : PhyIsrCore) (exchange_id : Z) : PhyIsrCore * option SessionEvent :=
  match fuel with
  | O => (c, None)
  | S fuel =>
      match ring_pop SESSION_RING_CAP (c_session_events c) with
      | (r, None) => (c <| c_session_events := r |>, None)
      | (r, Some (stamped, event)) =>
          let c := c <| c_session_events := r |> in
          if stamped =? exchange_id then (c, Some event)
          else pop_session_loop fuel (c <| c_stale_session_events := inc32 (c_stale_session_events c) |>) exchange_id
      end
  end.

Definition pop_session_event_for (c : PhyIsrCore) (exchange_id : Z) : PhyIsrCore * option SessionEvent :=
  pop_session_loop (Z.to_nat SESSION_RING_CAP) c exchange_id.

Definition pop_any_session_event (c : PhyIsrCore) : PhyIsrCore * option SessionEvent :=
  let '(r, item) := ring_pop SESSION_RING_CAP (c_session_events c) in
  (c <| c_session_events := r |>, match item with Some (_, event) => Some event | None => None end).

Definition pop_session_event (c : PhyIsrCore) : PhyIsrCore * option SessionEvent :=
  pop_session_event_for c (current_exchange c).

Definition pop_rx (c : PhyIsrCore) : PhyIsrCore * option RxCompletedEvent :=
  let '(r, item) := ring_pop RX_RING_CAP (c_rx_ring c) in (c <| c_rx_ring := r |>, item).

Definition take_sniff_dropped (c : PhyIsrCore) : PhyIsrCore * Z := (c <| c_sniff_dropped := 0 |>, c_sniff_dropped c).

Definition take_session_dropped (c : PhyIsrCore) : PhyIsrCore * Z :=
  (c <| c_session_dropped := 0 |>, c_session_dropped c).

Definition take_line_held_counts (c : PhyIsrCore) : PhyIsrCore * (Z * Z) :=
  let packed := c_line_held c in (c <| c_line_held := 0 |>, (Z.shiftr packed 16, Z.land packed 65535)).

Definition wire_tick_counts (c : PhyIsrCore) : Z * Z * Z :=
  (c_wire_ticks_total c, c_wire_ticks_active c, c_wire_ticks_tx c).

Definition session_expects_backward (c : PhyIsrCore) : bool := negb (c_session_exchange c =? 0).

Definition unpack_rx_started (packed : Z) : option Z :=
  match checked_sub packed 1 with
  | None => None
  | Some ticks => Some (if ticks <=? umax 8 then ticks else umax 8)
  end.

Definition close_backward_window (c : PhyIsrCore) : PhyIsrCore * option Z :=
  let current := c_exchange_epoch c in
  if negb (c_session_exchange c =? current) then (c, None)
  else
    let c := c <| c_session_exchange := 0 |> in
    let packed := c_session_rx_started c in
    (c <| c_session_rx_started := 0 |>, unpack_rx_started packed).

Definition take_session_rx_started (c : PhyIsrCore) : PhyIsrCore * option Z :=
  let current := c_exchange_epoch c in
  if negb (c_session_exchange c =? current) then (c, None)
  else
    let packed := c_session_rx_started c in
    (c <| c_session_rx_started := 0 |>, unpack_rx_started packed).

End IsrCore.
