(* ===== verification/Isr.v ===== *)
(** * The interrupt core: invariant and guarantees

    The states [PhyIsrCore] reaches through ticks and task calls ([IsrCore]),
    their invariant, and what every tick guarantees. *)

From S2P Require Import Prelude HalfBits Manchester PhyFsm Ring Mailbox AnswerTable IsrCore.

Module Isr.
Import HalfBits Manchester PhyFsm Ring Mailbox AnswerTable IsrCore.

(** ** Ticks and task calls *)

Inductive isr_op :=
  | OpIsrTick (env : tick_env)
  | OpSubmitTx (data : list Z) (len : Z) (expects : bool) (gates : TxGates)
  | OpSubmitTxFor (data : list Z) (len : Z) (expects : bool) (gates : TxGates) (exchange : Z)
  | OpQueueTx (data : list Z) (len : Z) (expects : bool) (gates : TxGates)
  | OpQueueTxFor (data : list Z) (len : Z) (expects : bool) (gates : TxGates) (exchange : Z)
  | OpBeginExchange
  | OpSubmitAnswer (epoch : Z) (hb : HalfBitBuffer)
  | OpPublishTable (image : AnswerTableImage) (accounts : Z)
  | OpSetLease (now_tick remaining_ms : Z)
  | OpCancelExchange (exchange : Z)
  | OpCancelPending
  | OpTakeBatchAborted
  | OpPopSessionFor (exchange : Z)
  | OpPopAnySession
  | OpPopRx
  | OpTakeSniffDropped
  | OpTakeSessionDropped
  | OpTakeLineHeld
  | OpTakeLateTick
  | OpInstallProbe (clock tcb0 tcb1 nesting0 nesting1 : Z)
  | OpCloseWindow
  | OpTakeRxStarted.

Definition isr_do (c : PhyIsrCore) (op : isr_op) : PhyIsrCore :=
  match op with
  | OpIsrTick env => isr_tick c env
  | OpSubmitTx data len expects gates => fst (submit_tx c data len expects gates)
  | OpSubmitTxFor data len expects gates exchange => fst (submit_tx_for c data len expects gates exchange)
  | OpQueueTx data len expects gates => fst (queue_tx c data len expects gates)
  | OpQueueTxFor data len expects gates exchange => fst (queue_tx_for c data len expects gates exchange)
  | OpBeginExchange => fst (begin_exchange c)
  | OpSubmitAnswer epoch hb => fst (submit_answer c epoch hb)
  | OpPublishTable image accounts => publish_answer_table c image accounts
  | OpSetLease now_tick remaining_ms => set_answer_lease_for_ms c now_tick remaining_ms
  | OpCancelExchange exchange => cancel_exchange c exchange
  | OpCancelPending => cancel_pending_tx c
  | OpTakeBatchAborted => fst (take_batch_aborted c)
  | OpPopSessionFor exchange => fst (pop_session_event_for c exchange)
  | OpPopAnySession => fst (pop_any_session_event c)
  | OpPopRx => fst (pop_rx c)
  | OpTakeSniffDropped => fst (take_sniff_dropped c)
  | OpTakeSessionDropped => fst (take_session_dropped c)
  | OpTakeLineHeld => fst (take_line_held_counts c)
  | OpTakeLateTick => fst (take_late_tick c)
  | OpInstallProbe clock tcb0 tcb1 nesting0 nesting1 => install_tick_probe c clock tcb0 tcb1 nesting0 nesting1
  | OpCloseWindow => fst (close_backward_window c)
  | OpTakeRxStarted => fst (take_session_rx_started c)
  end.

(** The arguments are of the types the calls take: nine data bytes, [u8]
    lengths, a full table image, a 32-bit exchange number. *)
Definition isr_op_ok (op : isr_op) : Prop :=
  match op with
  | OpSubmitTx data len _ _ | OpQueueTx data len _ _ => length data = 9%nat /\ in_u 8 len
  | OpSubmitTxFor data len _ _ exchange | OpQueueTxFor data len _ _ exchange =>
      length data = 9%nat /\ in_u 8 len /\ in_u 32 exchange
  | OpSubmitAnswer epoch hb => in_u 8 epoch /\ hb_wf hb
  | OpPublishTable image _ => length (img_entries image) = 35%nat
  | _ => True
  end.

Inductive isr_reachable : PhyIsrCore -> Prop :=
  | isr_reach_new : isr_reachable core_new
  | isr_reach_step c op : isr_reachable c -> isr_op_ok op -> isr_reachable (isr_do c op).

(** ** The invariant *)

Definition frame_ok (data : list Z) (len : Z) : Prop := length data = 9%nat /\ 0 < len <= MAX_DATA_HALF_BITS.

Definition request_ok (r : TxRequest) : Prop := frame_ok (tr_data r) (tr_len r).

Definition ring_ok {T} (CAP : Z) (r : @SpscRing T) : Prop := holds CAP r (ring_items CAP r).

(** The abstract content of the three rings. *)
Definition queued (c : PhyIsrCore) : list TxRequest := ring_items TX_RING_CAP (c_tx_queue c).
Definition session_log (c : PhyIsrCore) : list (Z * SessionEvent) := ring_items SESSION_RING_CAP (c_session_events c).
Definition sniffed (c : PhyIsrCore) : list RxCompletedEvent := ring_items RX_RING_CAP (c_rx_ring c).

(** A frame of the core's own, not an answer, is being transmitted. *)
Definition forward_busy (c : PhyIsrCore) : bool := tx_busy (c_phy c) && negb (c_active_is_answer c).

(** What is on the wire is the pending request, of the active exchange. *)
Definition pending_on_wire (c : PhyIsrCore) : Prop :=
  match c_pending c with
  | None => True
  | Some r => tr_exchange_id r = c_active_epoch c /\ tr_data r = tx_hb_data (c_phy c) /\ tr_len r = tx_hb_len (c_phy c)
  end.

(** Each part is well formed. *)
Record core_base (c : PhyIsrCore) : Prop := {
  cb_phy : phy_wf (c_phy c);
  cb_queue : ring_ok TX_RING_CAP (c_tx_queue c);
  cb_queued : Forall request_ok (queued c);
  cb_session : ring_ok SESSION_RING_CAP (c_session_events c);
  cb_sniff : ring_ok RX_RING_CAP (c_rx_ring c);
  cb_pending : forall r, c_pending c = Some r -> request_ok r;
  cb_cmd : cc_state (c_cmd c) = CMD_START_TX -> frame_ok (cc_tx_data (c_cmd c)) (cc_tx_halfbit_len (c_cmd c));
  cb_answer : ac_state (c_answer c) = ANSWER_STAGED -> frame_ok (ac_data (c_answer c)) (ac_len (c_answer c));
  cb_bus_epoch : in_u 8 (c_bus_epoch c);
  cb_table : table_wf (tp_table (c_table_path c));
}.

(** And the parts agree on what is on the wire. *)
Record core_wf (c : PhyIsrCore) : Prop := {
  cw_base : core_base c;
  cw_is_answer : c_active_is_answer c = true -> tx_busy (c_phy c) = true;
  cw_cancelling : ct_active (c_control c) = true -> forward_busy c = true;
  cw_waiting : c_session_exchange c <> 0 -> forward_busy c = false;
  cw_on_wire : forward_busy c = true -> pending_on_wire c;
}.

(** ** Rings *)

Section Rings.
Context {T : Type} (CAP : Z).
Hypothesis HCAP : 2 <= CAP < 2 ^ 32.
Implicit Types r : @SpscRing T.

Lemma ring_ok_new : ring_ok CAP (@ring_new T CAP).
Proof. unfold ring_ok. rewrite (holds_items CAP _ []); now apply holds_new. Qed.

Lemma push_items r x : ring_ok CAP r ->
  let full := Z.of_nat (length (ring_items CAP r)) =? CAP - 1 in
  ring_ok CAP (fst (try_push CAP r x)) /\ snd (try_push CAP r x) = negb full /\
  ring_items CAP (fst (try_push CAP r x)) = if full then ring_items CAP r else ring_items CAP r ++ [x].
Proof.
  intros Hr full. subst full. destruct (holds_push CAP HCAP r _ x Hr) as [[-> Hf]|(r' & -> & Hh)]; cbn [fst snd].
  - apply Z.eqb_eq in Hf. now rewrite Hf.
  - pose proof (holds_items CAP _ _ Hh) as E. unfold ring_ok. rewrite E.
    pose proof (ho_room _ _ _ Hh) as Hroom. rewrite length_app in Hroom. cbn [length] in Hroom.
    destruct (Z.eqb_spec (Z.of_nat (length (ring_items CAP r))) (CAP - 1)); [lia|done].
Qed.

Lemma pop_items r : ring_ok CAP r ->
  ring_ok CAP (fst (ring_pop CAP r)) /\ snd (ring_pop CAP r) = hd_error (ring_items CAP r) /\
  ring_items CAP (fst (ring_pop CAP r)) = tl (ring_items CAP r).
Proof.
  intros Hr. pose proof (holds_pop CAP HCAP r _ Hr) as Hp. unfold ring_pop.
  destruct (ring_items CAP r) as [|x rest] eqn:E.
  - rewrite Hp. cbn [fst snd]. now rewrite E.
  - destruct Hp as (r' & -> & Hh). cbn [fst snd]. pose proof (holds_items CAP _ _ Hh) as E'.
    unfold ring_ok. now rewrite E'.
Qed.

Lemma drain_items r fuel : ring_ok CAP r -> (length (ring_items CAP r) < fuel)%nat ->
  ring_ok CAP (ring_drain fuel CAP r) /\ ring_items CAP (ring_drain fuel CAP r) = [].
Proof.
  revert r. induction fuel as [|fuel IH]; intros r Hr Hl; [lia|]. cbn [ring_drain].
  destruct (pop_items r Hr) as (H1 & H2 & H3). destruct (ring_pop CAP r) as [r' o]. cbn [fst snd] in *. subst o.
  destruct (ring_items CAP r) as [|x rest]; cbn in *; [done|]. apply IH; [done|rewrite H3; lia].
Qed.

Lemma ring_ok_empty r : ring_ok CAP r -> is_empty r = bool_decide (ring_items CAP r = []).
Proof.
  intros Hr. pose proof (holds_empty CAP HCAP r _ Hr) as He. unfold is_empty. case_bool_decide as E.
  - apply Z.eqb_eq. symmetry. tauto.
  - apply Z.eqb_neq. intros E'. apply E, He. now symmetry.
Qed.

Lemma ring_room r : ring_ok CAP r -> Z.of_nat (length (ring_items CAP r)) <= CAP - 1.
Proof. intros []. lia. Qed.
End Rings.

(** ** Steps that leave the wire alone *)

(** [c'] transmits what [c] does; it may have dropped the pending request or
    the exchange that waits. *)
Record quiet (c c' : PhyIsrCore) : Prop := {
  qu_busy : tx_busy (c_phy c') = tx_busy (c_phy c);
  qu_data : tx_hb_data (c_phy c') = tx_hb_data (c_phy c);
  qu_len : tx_hb_len (c_phy c') = tx_hb_len (c_phy c);
  qu_is_answer : c_active_is_answer c' = c_active_is_answer c;
  qu_cancelling : ct_active (c_control c') = ct_active (c_control c);
  qu_epoch : c_active_epoch c' = c_active_epoch c;
  qu_session : c_session_exchange c' = c_session_exchange c \/ c_session_exchange c' = 0;
  qu_pending : c_pending c' = c_pending c \/ c_pending c' = None;
}.

Definition keeps (c c' : PhyIsrCore) : Prop := (core_base c -> core_base c') /\ quiet c c'.

#[global] Instance keeps_preorder : PreOrder keeps.
Proof.
  split.
  - intros c. split; [done|]. split; auto.
  - intros c1 c2 c3 [B1 Q1] [B2 Q2]. split; [auto|]. destruct Q1, Q2. split; try congruence.
    + destruct qu_session0, qu_session1; (left; congruence) || (right; congruence).
    + destruct qu_pending0, qu_pending1; (left; congruence) || (right; congruence).
Qed.

Lemma keeps_wf c c' : keeps c c' -> core_wf c -> core_wf c'.
Proof.
  intros [Hb []] []. unfold forward_busy, pending_on_wire in *. split; [auto|..];
    unfold forward_busy, pending_on_wire; rewrite ?qu_busy0, ?qu_is_answer0, ?qu_cancelling0; [done|done|..].
  - intros H. apply cw_waiting0. destruct qu_session0; congruence.
  - intros H. destruct qu_pending0 as [-> | ->]; [|done]. rewrite qu_epoch0, qu_data0, qu_len0. exact (cw_on_wire0 H).
Qed.

(** The fields a step sets are none of those the invariant speaks of. *)
Ltac keeps_frame := split; [intros []; split; done | split; auto].

Lemma tx_cap : 2 <= TX_RING_CAP < 2 ^ 32.
Proof. easy. Qed.
Lemma session_cap : 2 <= SESSION_RING_CAP < 2 ^ 32.
Proof. easy. Qed.
Lemma rx_cap : 2 <= RX_RING_CAP < 2 ^ 32.
Proof. easy. Qed.

Lemma keeps_session c id ev : keeps c (push_session_event_for c id ev).
Proof.
  unfold push_session_event_for. pose proof (push_items _ session_cap (c_session_events c) (id, ev)) as H.
  destruct (try_push _ _ _) as [r ok]. cbn [fst snd] in H.
  split; [intros []; destruct (H cb_session0) as (? & _); destruct ok; split; done | destruct ok; split; auto].
Qed.

Lemma keeps_sniff c ev : keeps c (push_to_sniffer_ring c ev).
Proof.
  unfold push_to_sniffer_ring. pose proof (push_items _ rx_cap (c_rx_ring c) ev) as H.
  destruct (try_push _ _ _) as [r ok]. cbn [fst snd] in H.
  split; [intros []; destruct (H cb_sniff0) as (? & _); destruct ok; split; done | destruct ok; split; auto].
Qed.

Lemma drain_tx_queue_ok r : ring_ok TX_RING_CAP r ->
  ring_ok TX_RING_CAP (drain_tx_queue r) /\ ring_items TX_RING_CAP (drain_tx_queue r) = [].
Proof.
  intros Hr. apply drain_items; [exact tx_cap|done|]. pose proof (ring_room _ r Hr).
  change TX_RING_CAP with 5 in *. lia.
Qed.

Lemma keeps_discard c : keeps c (fst (discard_queued c)).
Proof.
  unfold discard_queued. split; [|split; auto]. intros [].
  destruct (drain_tx_queue_ok _ cb_queue0) as [H1 H2]. split; try done. unfold queued. cbn. now rewrite H2.
Qed.

Lemma keeps_abort c : keeps c (abort_batch_tail c).
Proof.
  unfold abort_batch_tail. pose proof (keeps_discard c) as H.
  destruct (discard_queued c) as [c1 [held queued]]. cbn [fst] in H. etransitivity; [exact H|]. clear.
  transitivity (match held, c_pending c with
           | true, Some request =>
               push_session_event_for (c1 <| c_tx := c_tx c1 <| tx_voided := inc32 (tx_voided (c_tx c1)) |> |>)
                 (tr_exchange_id request) TxVoided
           | _, _ => c1 end).
  - destruct held, (c_pending c) as [r|]; try reflexivity. etransitivity; [|apply keeps_session]. keeps_frame.
  - cbn zeta. destruct (queued || _); [|reflexivity].
    match goal with |- keeps ?x _ => generalize x end. intros c'. keeps_frame.
Qed.

Lemma table_wf_refusals t r : table_wf t -> table_wf (t <| refusals := r |>).
Proof. intros []. split; done. Qed.

Lemma stage_ok cell epoch hb :
  (ac_state cell = ANSWER_STAGED -> frame_ok (ac_data cell) (ac_len cell)) -> length (hb_data hb) = 9%nat -> 0 <= hb_length hb ->
  let cell' := fst (stage cell epoch hb) in ac_state cell' = ANSWER_STAGED -> frame_ok (ac_data cell') (ac_len cell').
Proof.
  intros Hc Hd Hl. unfold stage. case_if; [exact Hc|]. case_if; [exact Hc|]. cbn.
  case_if; cbn; [|congruence]. intros _. split; [done|]. lia.
Qed.

Lemma encode_wf data n : 0 <= n <= 32 ->
  length (hb_data (encode data n)) = 9%nat /\ hb_length (encode data n) = 2 * n + 6.
Proof.
  intros Hn. pose proof (represents_encode data (Z.to_nat n) ltac:(lia)) as [H1 _ H2 _ _].
  rewrite Z2Nat.id in * by lia. split; [done|]. rewrite H2, length_frame_half_bits, length_data_bits. lia.
Qed.

Lemma keeps_answer_from_table c frame ev : keeps c (answer_from_table c frame ev).
Proof.
  unfold answer_from_table, answer.
  destruct (decide_frame _ _ _ _ _) as [r d]. set (c1 := c <| c_table_path := _ |>).
  transitivity c1.
  { split; [intros []; split; try done; now apply table_wf_refusals | split; auto]. }
  destruct d as [| | | | | |byte]; try reflexivity. clearbody c1. clear.
  destruct (encode_wf byte BACKWARD_DATA_BITS ltac:(easy)) as [E1 E2].
  generalize dependent (encode byte BACKWARD_DATA_BITS). intros hb E1 E2.
  pose proof (fun Hc => stage_ok (c_answer c1) (rx_epoch ev) hb Hc E1 ltac:(rewrite E2; easy)) as H. cbn zeta in H.
  destruct (stage _ _ _) as [cell staged]. cbn [fst] in H.
  split; [intros []; split; try done; now apply H | split; auto].
Qed.

Lemma keeps_step_held c : keeps c (step_held_capture c).
Proof.
  unfold step_held_capture. case_if; [reflexivity|].
  destruct (search_step _ _) as [search [|found]]; [unfold set_held; keeps_frame|].
  cbn zeta. etransitivity; [|apply keeps_sniff].
  match goal with |- context [set_held c ?h] => transitivity (set_held c h) end; [unfold set_held; keeps_frame|].
  destruct found as [decode|]; [|reflexivity]. case_if; [apply keeps_answer_from_table|reflexivity].
Qed.

Lemma keeps_push_sniffer c ev : keeps c (push_sniffer_capture c ev).
Proof.
  unfold push_sniffer_capture.
  set (c1 := if hc_held _ then _ else c). assert (keeps c c1) as H1.
  { subst c1. case_if; [|reflexivity]. etransitivity; [|apply keeps_sniff]. unfold set_held. keeps_frame. }
  etransitivity; [exact H1|]. clear. case_if.
  - etransitivity; [|apply keeps_sniff]. keeps_frame.
  - unfold set_held. keeps_frame.
Qed.

Lemma keeps_route_backward c ev : keeps c (route_backward_capture c ev).
Proof.
  unfold route_backward_capture.
  transitivity (c <| c_session_exchange := 0 |> <| c_session_rx_started := 0 |>); [keeps_frame|].
  case_if; [apply keeps_session|apply keeps_push_sniffer].
Qed.

Lemma keeps_route_forward c ev : keeps c (route_forward_capture c ev).
Proof.
  unfold route_forward_capture. etransitivity; [apply keeps_abort|]. generalize (abort_batch_tail c). clear c. intros c.
  etransitivity; [|apply keeps_push_sniffer].
  transitivity (c <| c_session_exchange := 0 |> <| c_session_rx_started := 0 |>); [keeps_frame|].
  case_if; [apply keeps_session|reflexivity].
Qed.

Lemma keeps_drain c : keeps c (drain_completed_rx c).
Proof.
  unfold drain_completed_rx.
  pose proof (phy_do_wf (c_phy c) OpTakeRx I) as Hwf. cbn [phy_do] in Hwf.
  assert (tx_busy (fst (take_completed_rx_event (c_phy c))) = tx_busy (c_phy c)
    /\ tx_hb_data (fst (take_completed_rx_event (c_phy c))) = tx_hb_data (c_phy c)
    /\ tx_hb_len (fst (take_completed_rx_event (c_phy c))) = tx_hb_len (c_phy c)) as (E1 & E2 & E3).
  { unfold take_completed_rx_event, acknowledge_rx_frame. repeat case_if; done. }
  destruct (take_completed_rx_event (c_phy c)) as [phy [ev|]]; cbn [fst] in *;
    [|split; [intros []; split; try done; now apply Hwf | split; auto]].
  set (c1 := c <| c_phy := phy |>).
  transitivity c1; [split; [intros []; split; try done; now apply Hwf | split; auto]|]. clearbody c1. clear.
  destruct (frame_length_class (sample_count ev)); unfold stamp_rx_timing.
  - etransitivity; [|apply keeps_route_backward]. keeps_frame.
  - unfold note_forward_capture. etransitivity; [|apply keeps_route_forward].
    split; [intros []; split; try done; apply wrap_range; lia | split; auto].
Qed.

(** ** Arming *)

Lemma start_tx_ok s data len : bus_state s = Idle -> frame_ok data len ->
  let '(s', ok) := start_tx s (MkHalfBitBuffer data len) in
  ok = true /\ tx_busy s' = true /\ tx_hb_data s' = data /\ tx_hb_len s' = len.
Proof.
  intros Hi [Hd Hl]. unfold start_tx, load_tx. rewrite bool_decide_eq_true_2 by done.
  cbn [hb_length hb_data]. case_if; [lia|done].
Qed.

Lemma start_answer_ok s data len : bus_state s = Idle \/ bus_state s = Rx -> frame_ok data len ->
  let '(s', ok) := start_answer s (MkHalfBitBuffer data len) in
  ok = true /\ tx_busy s' = true /\ tx_hb_data s' = data /\ tx_hb_len s' = len.
Proof.
  intros Hi [Hd Hl]. unfold start_answer. destruct Hi as [-> | ->];
    unfold load_tx; cbn [hb_length hb_data]; (case_if; [lia|done]).
Qed.

Lemma frame_ok_wf data len : frame_ok data len -> hb_wf (MkHalfBitBuffer data len).
Proof. intros [? ?]. split; [done|]. unfold in_u, MAX_DATA_HALF_BITS in *. cbn. lia. Qed.

Lemma take_command_idle cell : cc_state (fst (take_command cell)) <> CMD_START_TX.
Proof. unfold take_command. case_if; cbn; [done|]. discriminate. Qed.

Lemma keeps_take_command c : keeps c (c <| c_cmd := fst (take_command (c_cmd c)) |>).
Proof.
  split; [intros []; split; try done | split; auto]. intros H. now apply take_command_idle in H.
Qed.

Lemma keeps_discard_cell c : keeps c (discard_queued_and_cell c).
Proof.
  unfold discard_queued_and_cell. pose proof (keeps_discard c) as H.
  destruct (discard_queued c) as [c1 ?]. cbn [fst] in H. etransitivity; [exact H|]. apply keeps_take_command.
Qed.

(** What the command cell holds for the interrupt. *)
Definition cell_request (cell : AtomicCommandCell) : option TxRequest :=
  match snd (take_command cell) with
  | Some cmd => Some (MkTxRequest (tc_exchange_id cmd) false (tc_data cmd) (tc_len cmd) (tc_expects_backward cmd)
                        (tc_min_idle_ticks cmd) (tc_restart_gate cmd))
  | None => None
  end.

(** The request a tick would transmit next: the one already taken, the oldest
    of the batch, or the command cell's. *)
Definition next_up (c : PhyIsrCore) : option TxRequest :=
  match c_pending c with
  | Some r => Some r
  | None => match queued c with r :: _ => Some r | [] => cell_request (c_cmd c) end
  end.

Lemma next_request_spec c : core_base c -> c_pending c = None ->
  keeps c (fst (next_request c)) /\ snd (next_request c) = next_up c /\
  queued (fst (next_request c)) = tl (queued c) /\
  (forall r, next_up c = Some r -> request_ok r) /\ c_pending (fst (next_request c)) = None.
Proof.
  intros Hb Hp. unfold next_request, next_up, cell_request. rewrite Hp.
  pose proof (pop_items _ tx_cap _ (cb_queue c Hb)) as (P1 & P2 & P3). fold (queued c) in *.
  pose proof (cb_queued c Hb) as HF.
  destruct (ring_pop TX_RING_CAP (c_tx_queue c)) as [q o]. cbn [fst snd] in *.
  assert (keeps c (c <| c_tx_queue := q |>)) as K.
  { split; [intros []; split; try done; unfold queued; cbn; rewrite P3 | split; auto]. now destruct HF; cbn. }
  destruct (queued c) as [|r rest]; subst o; cbn [hd_error tl fst snd] in *.
  - pose proof (cb_cmd c Hb) as HC. pose proof (keeps_take_command (c <| c_tx_queue := q |>)) as K2.
    cbn [c_cmd set_field] in *. unfold take_command in *.
    destruct (negb (cc_state (c_cmd c) =? CMD_START_TX)) eqn:E; cbn [fst snd] in *.
    + by split_and!.
    + split_and!; try done; [etransitivity; [exact K|exact K2]|].
      intros r [= <-]. apply HC. bprop. congruence.
  - split_and!; try done. intros r' [= <-]. now inversion HF.
Qed.

Lemma not_busy_forward c : tx_busy (c_phy c) = false -> forward_busy c = false.
Proof. unfold forward_busy. now intros ->. Qed.

(** A well-formed core whose transmitter is free. *)
Lemma free_wf c : core_base c -> tx_busy (c_phy c) = false -> c_active_is_answer c = false ->
  ct_active (c_control c) = false -> core_wf c.
Proof.
  intros Hb H1 H2 H3. split; [done|congruence|congruence|..]; rewrite ?not_busy_forward by done; done.
Qed.

Lemma wf_free c : core_wf c -> tx_busy (c_phy c) = false ->
  c_active_is_answer c = false /\ ct_active (c_control c) = false.
Proof.
  intros [] H. rewrite (not_busy_forward c H) in *. split.
  - destruct (c_active_is_answer c); [|done]. specialize (cw_is_answer0 eq_refl). congruence.
  - destruct (ct_active _); [|done]. now specialize (cw_cancelling0 eq_refl).
Qed.

Lemma cancel_wf c : core_wf c -> core_wf (apply_requested_cancel c).
Proof.
  intros Hc. unfold apply_requested_cancel. case_if; [done|]. clear Heqb.
  set (raw := ct_requested (c_control c)). set (c1 := if _ && _ && _ then _ else _).
  assert (core_wf c1) as H1.
  { subst c1. destruct (_ && _ && _) eqn:E.
    - bprop. cbn zeta. destruct Hc as [[] ? ? ? ?]. split; [split; try done|done|..]; cbn.
      + now apply drain_tx_queue_ok.
      + unfold queued. cbn. now rewrite (proj2 (drain_tx_queue_ok _ cb_queue0)).
      + intros Hs. now apply take_command_idle in Hs.
      + intros _. unfold forward_busy. cbn. now rewrite H, H1.
      + done.
      + done.
    - pose proof (keeps_wf _ _ (keeps_discard_cell c) Hc) as [[] ? ? ? ?]. split; [split; done|done..]. }
  clearbody c1 raw. clear Hc c. cbn zeta.
  match goal with |- context [if c_active_epoch c1 =? raw then ?a else c1] => set (c2 := if c_active_epoch c1 =? raw then a else c1) end.
  assert (keeps c1 c2) as K2 by (subst c2; case_if; [keeps_frame|reflexivity]).
  match goal with |- context [if c_session_exchange c2 =? raw then ?a else c2] => set (c3 := if c_session_exchange c2 =? raw then a else c2) end.
  assert (keeps c2 c3) as K3 by (subst c3; case_if; [keeps_frame|reflexivity]).
  match goal with |- context [if ct_requested (c_control c3) =? raw then ?a else c3] => set (c4 := if ct_requested (c_control c3) =? raw then a else c3) end.
  assert (keeps c3 c4) as K4 by (subst c4; case_if; [keeps_frame|reflexivity]).
  apply (keeps_wf c1); [|done]. rewrite K2, K3, K4. clearbody c4. clear. keeps_frame.
Qed.

Lemma fire_wf c arm : core_wf c -> tx_busy (c_phy c) = false ->
  bus_state (c_phy c) = Idle \/ bus_state (c_phy c) = Rx -> core_wf (fst (fire_staged_answer c arm)).
Proof.
  intros Hc Hbusy Hs. destruct (wf_free c Hc Hbusy) as [_ Hct]. pose proof (cw_base c Hc) as Hb. destruct Hb.
  unfold fire_staged_answer, take_answer. case_if; [destruct Hc as [[] ? ? ? ?]; split; [split; done|done..]|]. bprop.
  pose proof (start_answer_ok (c_phy c) _ _ Hs (cb_answer0 Heqb)) as Hst.
  pose proof (phy_do_wf (c_phy c) (OpStartAnswer (MkHalfBitBuffer (ac_data (c_answer c)) (ac_len (c_answer c))))
    (frame_ok_wf _ _ (cb_answer0 Heqb)) cb_phy0) as Hwf. cbn [phy_do] in Hwf.
  cbn zeta.
  set (cell := c_answer c <| ac_state := ANSWER_IDLE |>).
  match goal with |- context [start_answer (c_phy ?x)] => set (c1 := x) end.
  assert (c_phy c1 = c_phy c /\ c_active_is_answer c1 = true /\ ct_active (c_control c1) = false
    /\ core_base c1) as (E1 & E2 & E3 & E4).
  { subst c1. destruct (aa_late arm); cbn; split_and!; try done; split; done. }
  rewrite E1. clearbody c1. destruct (start_answer _ _) as [phy ok]. cbn [fst] in Hwf.
  destruct Hst as (-> & F2 & F3 & F4). cbn [negb fst].
  assert (forall t, core_wf (c1 <| c_phy := phy |> <| c_answers := t |>)) as Hall.
  { intros t. destruct E4. split; [split; done|done|..]; unfold forward_busy; cbn; rewrite ?E2, ?E3, ?andb_false_r; done. }
  case_if; [apply Hall|]. specialize (Hall (c_answers c1)). exact Hall.
Qed.

Lemma line_under_state c : line_under_answer c <> LineBusy ->
  bus_state (c_phy c) = Idle \/ bus_state (c_phy c) = Rx.
Proof. unfold line_under_answer. case_if; [done|]. destruct (bus_state (c_phy c)); (done || auto). Qed.

Lemma discard_wf c t : core_wf c -> core_wf (c <| c_answer := discard (c_answer c) |> <| c_answers := t |>).
Proof. intros [[] ? ? ? ?]. split; [split; try done|done..]. Qed.

Lemma arm_over_line_wf c since late : core_wf c -> tx_busy (c_phy c) = false ->
  core_wf (fst (arm_over_line c since late)).
Proof.
  intros Hc Hb. unfold arm_over_line. pose proof (line_under_state c) as Hs.
  destruct (line_under_answer c); [apply fire_wf; auto..|done].
Qed.

Lemma try_arm_wf c : core_wf c -> tx_busy (c_phy c) = false -> core_wf (fst (try_arm_answer c)).
Proof.
  intros Hc Hb. unfold try_arm_answer. destruct (staged_epoch _) as [e|]; [|done].
  case_if; [now apply discard_wf|]. destruct (answer_gate _ _ _); [done|now apply arm_over_line_wf|now apply discard_wf].
Qed.

Lemma try_arm_not_staged c : snd (try_arm_answer c) = NotStaged ->
  c_phy (fst (try_arm_answer c)) = c_phy c /\ c_session_exchange (fst (try_arm_answer c)) = c_session_exchange c.
Proof.
  unfold try_arm_answer. destruct (staged_epoch _) as [e|] eqn:E; [|done]. case_if; [done|].
  destruct (answer_gate _ _ _); [done| |done]. unfold arm_over_line, fire_staged_answer.
  destruct (line_under_answer c), (take_answer (c_answer c)) as [cell [[? hb]|]];
    cbn [fst snd]; try done; destruct (start_answer _ _); done.
Qed.

Lemma arm_forward_wf c : core_wf c -> tx_busy (c_phy c) = false -> c_session_exchange c = 0 ->
  bus_state (c_phy c) = Idle -> core_wf (arm_pending_forward c).
Proof.
  intros Hc Hbusy Hs Hi. unfold arm_pending_forward.
  match goal with |- context [match c_pending c with Some _ => c | None => ?a end] =>
    set (c1 := match c_pending c with Some _ => c | None => a end) end.
  assert (core_wf c1 /\ c_phy c1 = c_phy c /\ c_session_exchange c1 = 0) as (H1 & Ephy & Es).
  { subst c1. destruct (c_pending c) eqn:Ep; [done|].
    destruct (next_request_spec c (cw_base c Hc) Ep) as (K & E & _ & Hr & _).
    assert (c_phy (fst (next_request c)) = c_phy c /\ c_session_exchange (fst (next_request c)) = 0) as [E1 E2].
    { unfold next_request. destruct (ring_pop _ _) as [q [r|]]; [done|]. destruct (take_command _) as [? [?|]]; done. }
    destruct (next_request c) as [c2 req]. cbn [fst snd] in *. subst req. split; [|done].
    apply keeps_wf in K; [|done]. destruct K as [[] ? ? ? ?]. rewrite <- E1 in Hbusy.
    split; [split; try done|done|done|done|]. rewrite not_busy_forward; [done|exact Hbusy]. }
  clearbody c1. destruct (c_pending c1) as [req|] eqn:Ep; [|done]. case_if; [done|]. clear Heqb.
  pose proof (cb_pending c1 (cw_base c1 H1) req Ep) as Hreq.
  rewrite <- Ephy in *. pose proof (start_tx_ok _ _ _ Hi Hreq) as Hst.
  destruct (wf_free c1 H1 Hbusy) as [Ha Hct].
  pose proof (phy_do_wf (c_phy c1) (OpStartTx (MkHalfBitBuffer (tr_data req) (tr_len req))) (frame_ok_wf _ _ Hreq)
    (cb_phy c1 (cw_base c1 H1))) as Hwf. cbn [phy_do] in Hwf. cbn zeta.
  match goal with |- context [start_tx (c_phy ?x) ?hb] => change (start_tx (c_phy x) hb) with (start_tx (c_phy c1) hb) end.
  destruct (start_tx _ _) as [phy ok]. cbn [fst] in Hwf. destruct Hst as (-> & F2 & F3 & F4).
  destruct H1 as [[] ? ? ? ?]. split; [split; try done; apply wrap_range; lia|..]; unfold forward_busy; cbn; rewrite ?Ha, ?Hct, ?Es; try done.
  intros _. unfold pending_on_wire. cbn. now rewrite Ep.
Qed.

Lemma arm_pending_wf c : core_wf c -> core_wf (arm_pending_tx c).
Proof.
  intros Hc%cancel_wf. unfold arm_pending_tx. generalize dependent (apply_requested_cancel c). clear c. intros c Hc.
  case_if; [done|]. pose proof (try_arm_wf c Hc Heqb) as Hw. pose proof (try_arm_not_staged c) as Hn.
  destruct (try_arm_answer c) as [c1 [| |]]; cbn [fst snd] in *; [|done|done].
  destruct (Hn eq_refl) as [E1 E2]. case_if; [done|]. case_if; [done|].
  apply arm_forward_wf; bprop; try done; [congruence|]. now apply bool_decide_eq_true in H.
Qed.

(** ** A whole tick *)

Lemma store_rx_byte_tx_data s :
  tx_hb_data (store_rx_byte s) = tx_hb_data s /\ tx_hb_len (store_rx_byte s) = tx_hb_len s.
Proof. unfold store_rx_byte. case_if; [|done]. cbn zeta. destruct (MAX_RX_IDX <? _); done. Qed.

Lemma tick_rx_tx_data s b : tx_hb_data (tick_rx s b) = tx_hb_data s /\ tx_hb_len (tick_rx s b) = tx_hb_len s.
Proof.
  unfold tick_rx. set (s1 := s <| rx_byte := _ |> <| rx_bit_cnt := _ |>).
  change (tx_hb_data s) with (tx_hb_data s1). change (tx_hb_len s) with (tx_hb_len s1). clearbody s1.
  rewrite <- (proj1 (store_rx_byte_tx_data s1)), <- (proj2 (store_rx_byte_tx_data s1)).
  generalize (store_rx_byte s1). clear. intros s. destruct b; [|done]. cbn zeta.
  destruct (RX_IDLE_LINE_HIGH_TICKS <=? _); done.
Qed.

Lemma tick_idle_tx_data s b : tx_hb_data (tick_idle s b) = tx_hb_data s /\ tx_hb_len (tick_idle s b) = tx_hb_len s.
Proof.
  unfold tick_idle. destruct b; [case_if; done|]. case_if; [|done].
  apply (Nat.iter_invariant _ _ _ (fun s' => tx_hb_data s' = tx_hb_data s /\ tx_hb_len s' = tx_hb_len s)); [|done].
  intros s' [H1 H2]. destruct (tick_rx_tx_data s' false). split; congruence.
Qed.

Lemma tick_tx_data s b : tx_hb_data (tick s b) = tx_hb_data s /\ tx_hb_len (tick s b) = tx_hb_len s.
Proof.
  rewrite tick_dispatch. change (tx_hb_data s) with (tx_hb_data (tick_counters s b)).
  change (tx_hb_len s) with (tx_hb_len (tick_counters s b)). generalize (tick_counters s b). intros s1.
  destruct (bus_state s).
  - apply tick_idle_tx_data.
  - apply tick_rx_tx_data.
  - unfold tick_tx, tick_tx_armed, enter_collision_tx. repeat case_if; try done; try exact (tick_idle_tx_data _ b).
    destruct (aget _ _); [case_if|]; done.
  - unfold tick_collision_tx. repeat case_if; try done; exact (tick_idle_tx_data _ b).
Qed.

Lemma tick_busy_off s b : phy_wf s -> tx_busy s = false -> tx_busy (tick s b) = false.
Proof.
  intros Hs Hb. rewrite (wf_tx_busy _ (tick_wf s b Hs)). apply tick_not_tx. now rewrite <- (wf_tx_busy _ Hs).
Qed.

(** The transmission that was under way has just ended, and nothing has been
    reported yet. *)
Record landed (c : PhyIsrCore) : Prop := {
  la_base : core_base c;
  la_free : tx_busy (c_phy c) = false;
  la_cancelling : ct_active (c_control c) = true -> c_active_is_answer c = false;
}.

Lemma keeps_landed c c' : keeps c c' -> landed c -> landed c'.
Proof. intros [Hb []] []. split; [auto|congruence|]. rewrite qu_cancelling0, qu_is_answer0. done. Qed.

Lemma phy_tick_wf c b : core_wf c ->
  let c1 := c <| c_phy := tick (c_phy c) b |> in
  if tx_busy (c_phy c) && negb (tx_busy (c_phy c1)) then landed c1 else core_wf c1.
Proof.
  intros Hc c1. pose proof (tick_wf _ b (cb_phy c (cw_base c Hc))) as Hwf.
  assert (core_base c1) as Hb1 by (destruct Hc as [[] ? ? ? ?]; split; done).
  assert (tx_busy (c_phy c1) = tx_busy (c_phy c) -> core_wf c1) as Hsame.
  { intros E. apply (keeps_wf c); [|done]. split; [done|]. destruct (tick_tx_data (c_phy c) b). split; auto. }
  destruct (tx_busy (c_phy c)) eqn:E, (tx_busy (c_phy c1)) eqn:E1; cbn [andb negb]; auto.
  - split; [done|done|]. intros Ha. pose proof (cw_cancelling c Hc Ha) as Hf.
    unfold forward_busy in Hf. bprop. done.
  - apply tick_busy_off with (b := b) in E; [|now destruct Hc as [[]]]. unfold c1 in E1. cbn in E1. congruence.
Qed.

Lemma keeps_track c before after gap : keeps c (track_rx_timing c before after gap).
Proof. unfold track_rx_timing. keeps_frame. Qed.

Lemma keeps_note_rx_start c before after : keeps c (note_rx_start c before after).
Proof. unfold note_rx_start. case_if; [keeps_frame|reflexivity]. Qed.

Lemma keeps_wire c b : keeps c (note_wire_ticks c b).
Proof. unfold note_wire_ticks. destruct b; keeps_frame. Qed.

Lemma keeps_publish c : keeps c (publish_tick_state c).
Proof.
  unfold publish_tick_state. cbn zeta.
  match goal with |- context [note_wire_ticks ?x _] => assert (keeps c x) as H1 end.
  { repeat case_if; keeps_frame. }
  match type of H1 with keeps c ?x => generalize dependent x end. intros c1 H1.
  etransitivity; [exact H1|]. etransitivity; [apply (keeps_wire c1 (bus_state (c_phy c1)))|].
  generalize (note_wire_ticks c1 (bus_state (c_phy c1))). clear. intros c2.
  unfold note_session_rx_started. case_if; keeps_frame.
Qed.

Lemma poll_frame s : let s' := fst (poll_tx_state s) in
  (phy_wf s -> phy_wf s') /\ tx_busy s' = tx_busy s /\ tx_hb_data s' = tx_hb_data s /\ tx_hb_len s' = tx_hb_len s
  /\ idlecnt s' = idlecnt s /\ tx_pre_idle s' = tx_pre_idle s /\ bus_state s' = bus_state s.
Proof.
  split; [apply (phy_do_wf s OpPoll I)|]. unfold poll_tx_state. repeat case_if; done.
Qed.

(** [report_forward_completion] on a free transmitter. *)
Lemma report_forward_wf c poll : core_base c -> tx_busy (c_phy c) = false -> c_active_is_answer c = false ->
  core_wf (report_forward_completion c poll).
Proof.
  intros Hb Hfree Ha. unfold report_forward_completion. case_if.
  - destruct poll; (apply free_wf; [destruct Hb; split; try done; apply wrap_range; lia|done..]).
  - assert (core_wf c) as Hc by now apply free_wf. destruct poll.
    + unfold report_frame_sent, push_session_event. refine (keeps_wf _ _ (keeps_session _ _ _) _).
      apply free_wf; (destruct (c_active_expects_backward _); destruct Hb; try split; done).
    + unfold report_collision_or_restart, restart_after_break. unfold take_idle_after_break.
      set (c1 := c <| c_phy := _ |>).
      assert (core_base c1 /\ tx_busy (c_phy c1) = false /\ c_active_is_answer c1 = false /\ ct_active (c_control c1) = false)
        as (B1 & B2 & B3 & B4).
      { split_and!; try done. destruct Hb. split; try done. apply (phy_do_wf (c_phy c) OpTakeIdleAfterBreak I cb_phy0). }
      assert (core_wf (report_collision c1)) as Hrc.
      { unfold report_collision, push_session_event. refine (keeps_wf _ _ (keeps_session _ _ _) _).
        refine (keeps_wf _ _ (keeps_abort _) _). apply free_wf; try done. destruct B1. split; done. }
      destruct (tx_idle_after_break _); [|exact Hrc]. destruct (c_pending c1) as [r|] eqn:Ep; [|exact Hrc].
      case_if; [exact Hrc|]. apply free_wf; try done.
      pose proof (cb_pending c1 B1 r Ep) as Hr. destruct B1. split; try done. cbn. intros r' [= <-]. exact Hr.
    + done.
    + apply free_wf; try done. destruct Hb. split; try done. apply wrap_range; lia.
Qed.

Lemma report_completion_wf c : landed c -> core_wf (report_tx_completion c).
Proof.
  intros [Hb Hfree Hct]. unfold report_tx_completion. destruct (poll_frame (c_phy c)) as (P1 & P2 & _).
  destruct (poll_tx_state (c_phy c)) as [phy poll]. cbn [fst] in *.
  set (c1 := c <| c_phy := phy |> <| c_active_is_answer := false |>).
  assert (core_base c1) as B1 by (destruct Hb; split; try done; auto).
  assert (tx_busy (c_phy c1) = false) as B2 by (unfold c1; cbn; congruence).
  cbn zeta. destruct (c_active_is_answer _) eqn:E.
  - assert (core_wf c1) as H.
    { apply free_wf; try done. change (c_control c1) with (c_control c). destruct (ct_active _); [|done].
      specialize (Hct eq_refl). cbn in E. congruence. }
    fold c1. clearbody c1. unfold report_answer_completion.
    destruct poll; (apply (keeps_wf c1); [keeps_frame|done]).
  - now apply report_forward_wf.
Qed.

Lemma isr_tick_wf c env : core_wf c -> core_wf (isr_tick c env).
Proof.
  intros Hc. unfold isr_tick. set (c1 := c <| c_statics := _ |>).
  assert (core_wf c1) as H1 by (apply (keeps_wf c); [keeps_frame|done]). clearbody c1. clear Hc c.
  destruct (probe_tick _ _ _) as [probe gap]. cbn zeta.
  set (c2 := c1 <| c_probe := probe |>).
  assert (core_wf c2) as H2 by (apply (keeps_wf c1); [keeps_frame|done]). clearbody c2.
  apply arm_pending_wf in H2. generalize dependent (arm_pending_tx c2). clear c2. intros c3 H3.
  pose proof (phy_tick_wf c3 (env_bus_is_high env) H3) as H4. cbn zeta in H4.
  set (c4 := c3 <| c_phy := _ |>) in *.
  match goal with |- context [if tx_busy _ && negb (tx_busy (c_phy ?x)) then _ else ?x] => assert (keeps c4 x) as K end.
  { etransitivity; [|apply keeps_note_rx_start]. etransitivity; [|apply keeps_publish]. apply keeps_track. }
  match type of K with keeps _ ?x => generalize dependent x end. intros c5 K.
  refine (keeps_wf _ _ (keeps_drain _) _). refine (keeps_wf _ _ (keeps_step_held _) _).
  rewrite (qu_busy _ _ (proj2 K)). clearbody c4. case_if; [apply report_completion_wf; now apply (keeps_landed c4)|now apply (keeps_wf c4)].
Qed.

(** ** The task calls *)

Lemma keeps_submit c data len expects gates id : length data = 9%nat -> in_u 8 len ->
  keeps c (fst (submit_tx_for c data len expects gates id)).
Proof.
  intros Hd Hl. unfold submit_tx_for, send_packed_tx. case_if; [reflexivity|].
  case_if; [keeps_frame|]. case_if; [keeps_frame|]. unfold in_u in *.
  cbn zeta. case_if; (split; [intros []; split; try done | split; auto]); cbn; intros _; (split; [done|lia]).
Qed.

Lemma keeps_queue_tx c data len expects gates id : length data = 9%nat -> in_u 8 len ->
  keeps c (fst (queue_tx_for c data len expects gates id)).
Proof.
  intros Hd Hl. unfold queue_tx_for. case_if; [reflexivity|]. case_if; [reflexivity|]. unfold in_u in *.
  set (r := MkTxRequest _ _ _ _ _ _ _).
  pose proof (push_items _ tx_cap (c_tx_queue c) r) as HP. destruct (try_push _ _ _) as [q ok]. cbn [fst snd] in HP |- *.
  split; [intros []|split; auto]. destruct (HP cb_queue0) as (Q1 & _ & Q2). split; try done.
  unfold queued. cbn. rewrite Q2. case_if; [done|]. apply Forall_app. split; [done|]. constructor; [|constructor].
  split; [done|]. cbn. lia.
Qed.

Lemma keeps_exchange c : keeps c (fst (exchange_for_submit c)).
Proof. unfold exchange_for_submit. case_if; [keeps_frame|reflexivity]. Qed.

Lemma keeps_pop_session fuel c id : keeps c (fst (pop_session_loop fuel c id)).
Proof.
  revert c. induction fuel as [|fuel IH]; intros c; cbn [pop_session_loop]; [reflexivity|].
  pose proof (pop_items _ session_cap (c_session_events c)) as H. destruct (ring_pop _ _) as [r o]. cbn [fst snd] in H.
  assert (keeps c (c <| c_session_events := r |>)) as K.
  { split; [intros []; destruct (H cb_session0); split; done | split; auto]. }
  destruct o as [[stamped event]|]; [|exact K]. case_if; [exact K|].
  etransitivity; [exact K|]. etransitivity; [|apply IH]. keeps_frame.
Qed.

Definition is_tick (op : isr_op) : bool := match op with OpIsrTick _ => true | _ => false end.

(** A task call leaves the wire alone. *)
Lemma keeps_call c op : isr_op_ok op -> is_tick op = false -> keeps c (isr_do c op).
Proof.
  intros Hop Ht. destruct op; cbn [isr_do isr_op_ok is_tick] in *; try discriminate.
  - destruct Hop. unfold submit_tx. pose proof (keeps_exchange c) as K. destruct (exchange_for_submit c) as [c1 id].
    etransitivity; [exact K|now apply keeps_submit].
  - now apply keeps_submit.
  - destruct Hop. unfold queue_tx. pose proof (keeps_exchange c) as K. destruct (exchange_for_submit c) as [c1 id].
    etransitivity; [exact K|now apply keeps_queue_tx].
  - now apply keeps_queue_tx.
  - keeps_frame.
  - destruct Hop as (_ & Hd & Hl). unfold in_u in Hl. unfold submit_answer.
    pose proof (stage_ok (c_answer c) epoch hb) as H. destruct (stage _ _ _) as [cell ok]. cbn [fst] in *.
    split; [intros []; split; try done | split; auto]. apply H; [done|done|lia].
  - split; [intros []; split; try done | split; auto]. now apply publish_wf.
  - split; [intros []; split; try done | split; auto]. cbn. destruct cb_table0. split; done.
  - keeps_frame.
  - keeps_frame.
  - keeps_frame.
  - apply keeps_pop_session.
  - unfold pop_any_session_event. pose proof (pop_items _ session_cap (c_session_events c)) as H.
    destruct (ring_pop _ _) as [r o]. split; [intros []; destruct (H cb_session0); split; done | split; auto].
  - unfold pop_rx. pose proof (pop_items _ rx_cap (c_rx_ring c)) as H.
    destruct (ring_pop _ _) as [r o]. split; [intros []; destruct (H cb_sniff0); split; done | split; auto].
  - keeps_frame.
  - keeps_frame.
  - keeps_frame.
  - unfold take_late_tick. case_if; keeps_frame.
  - keeps_frame.
  - unfold close_backward_window. case_if; [reflexivity|keeps_frame].
  - unfold take_session_rx_started. case_if; [reflexivity|keeps_frame].
Qed.

Lemma isr_do_wf c op : isr_op_ok op -> core_wf c -> core_wf (isr_do c op).
Proof.
  intros Hop Hc. destruct (is_tick op) eqn:Ht; [destruct op; try discriminate; now apply isr_tick_wf|].
  apply (keeps_wf c); [now apply keeps_call|done].
Qed.

Lemma core_new_wf : core_wf core_new.
Proof.
  assert (core_base core_new) as Hb; [|now apply free_wf].
  split; try done; [apply phy_wf_new|apply table_new_wf].
Qed.

Lemma isr_reachable_core_wf c : isr_reachable c -> core_wf c.
Proof. induction 1; auto using core_new_wf, isr_do_wf. Qed.

(** C12: the interrupt core's invariant.  After any sequence of ticks, whatever
    the line does, and of task calls, the PHY's invariant holds, the three rings
    are bounded queues of valid requests, every request taken or queued fits a
    frame, and the parts agree on what is on the wire: an answer is marked as
    such only while it is transmitted, no own forward frame is transmitted while
    an exchange waits for its answer, a cancellation is pending only during the
    transmission it ends, and the frame on the wire is the pending request's. *)
Theorem isr_reachable_wf c (Hc : isr_reachable c) : core_wf c.
Proof. now apply isr_reachable_core_wf. Qed.

Definition quiet_env (level : bool) : tick_env := MkTickEnv level 0 (fun _ => 0) (fun _ => 0).

(** A frame submitted on the idle bus is on its way two ticks later. *)
Definition example_submitted : PhyIsrCore :=
  isr_do (isr_do core_new (OpIsrTick (quiet_env true)))
    (OpSubmitTx (hb_data (encode_forward16_raw 0xFE80)) 38 true (settle 0)).

Lemma example_submitted_reachable : isr_reachable example_submitted.
Proof.
  apply isr_reach_step; [apply isr_reach_step; [apply isr_reach_new|exact I]|].
  split; [reflexivity|by vm_compute].
Qed.

Lemma isr_reachable_wf_witness :
  let c := isr_do example_submitted (OpIsrTick (quiet_env true)) in
  isr_reachable c /\ forward_busy c = true /\ core_wf c.
Proof.
  intros c. assert (isr_reachable c) as H by (apply isr_reach_step; [apply example_submitted_reachable|exact I]).
  split; [exact H|]. split; [by vm_compute|]. exact (isr_reachable_wf c H).
Defined.

(** ** What a tick starts *)

(** The fields a cancellation leaves alone. *)
Definition same_lane (c c1 : PhyIsrCore) : Prop :=
  c_phy c1 = c_phy c /\ c_answer c1 = c_answer c /\ c_bus_epoch c1 = c_bus_epoch c /\
  c_active_is_answer c1 = c_active_is_answer c /\ c_wire_ticks_total c1 = c_wire_ticks_total c /\
  c_answer_slot c1 = c_answer_slot c /\ c_table_path c1 = c_table_path c.

#[global] Instance same_lane_preorder : PreOrder same_lane.
Proof.
  split; [done|]. intros c1 c2 c3 H1 H2. unfold same_lane in *.
  decompose [and] H1. decompose [and] H2. split_and!; congruence.
Qed.

Lemma cancel_frame c : same_lane c (apply_requested_cancel c).
Proof.
  unfold apply_requested_cancel. destruct (_ =? 0); [done|]. cbn zeta. set (raw := ct_requested _).
  match goal with |- context [c_active_epoch ?x =? raw] => set (c1 := x) end.
  assert (same_lane c c1) as H1 by (subst c1; destruct (_ && _); done). clearbody c1 raw.
  match goal with |- context [c_session_exchange ?x =? raw] => set (c2 := x) end.
  assert (same_lane c1 c2) as H2 by (subst c2; destruct (_ =? _); done). clearbody c2.
  match goal with |- context [ct_requested (c_control ?x) =? raw] => set (c3 := x) end.
  assert (same_lane c2 c3) as H3 by (subst c3; destruct (_ =? _); done). clearbody c3.
  match goal with |- same_lane c (?x <| c_control := _ |>) => set (c4 := x) end.
  assert (same_lane c3 c4) as H4 by (subst c4; destruct (_ =? _); done). clearbody c4.
  transitivity c1; [done|]. transitivity c2; [done|]. transitivity c3; [done|]. transitivity c4; done.
Qed.

(** An answer to the bus's current frame is staged, and its window has not closed. *)
Definition answer_due (c : PhyIsrCore) : Prop :=
  staged_epoch (c_answer c) = Some (c_bus_epoch c) /\
  answer_gate (ticks_since_forward_edge c) ANSWER_ARM_TARGET_IDLE_TICKS ANSWER_ARM_MAX_IDLE_TICKS <> Expired.

(** [c'] has put the staged answer of [c] on the wire. *)
Definition answer_armed (c c' : PhyIsrCore) : Prop :=
  answer_due c /\ ac_state (c_answer c') = ANSWER_IDLE /\
  tx_busy (c_phy c) = false /\ tx_busy (c_phy c') = true /\ c_active_is_answer c' = true /\
  c_active_expects_backward c' = false /\ tx_hb_data (c_phy c') = ac_data (c_answer c) /\ tx_hb_len (c_phy c') = ac_len (c_answer c) /\
  (exists late, answer_gate (ticks_since_forward_edge c) ANSWER_ARM_TARGET_IDLE_TICKS ANSWER_ARM_MAX_IDLE_TICKS
                = Arm late) /\
  line_under_answer c <> LineBusy.

(** The fields the arming of an answer leaves alone. *)
Definition same_requests (c c' : PhyIsrCore) : Prop :=
  c_session_exchange c' = c_session_exchange c /\ c_pending c' = c_pending c /\ c_tx_queue c' = c_tx_queue c /\
  c_cmd c' = c_cmd c /\ c_bus_epoch c' = c_bus_epoch c /\ c_session_events c' = c_session_events c /\
  c_active_epoch c' = c_active_epoch c /\ c_control c' = c_control c /\ c_table_path c' = c_table_path c /\
  c_wire_ticks_total c' = c_wire_ticks_total c /\ c_answer_slot c' = c_answer_slot c /\
  c_batch_aborted c' = c_batch_aborted c.

Lemma fire_spec c arm : core_wf c -> tx_busy (c_phy c) = false -> answer_due c ->
  line_under_answer c <> LineBusy ->
  answer_gate (ticks_since_forward_edge c) ANSWER_ARM_TARGET_IDLE_TICKS ANSWER_ARM_MAX_IDLE_TICKS = Arm (aa_late arm) ->
  same_requests c (fst (fire_staged_answer c arm)) /\ snd (fire_staged_answer c arm) = Armed /\
  answer_armed c (fst (fire_staged_answer c arm)).
Proof.
  intros Hc Hb Hdue Hl Hg. destruct (Hdue) as [Hst _]. unfold staged_epoch in Hst. unfold fire_staged_answer, take_answer.
  destruct (ac_state (c_answer c) =? ANSWER_STAGED) eqn:E; [|done]. cbn [negb] in *. bprop.
  pose proof (start_answer_ok (c_phy c) _ _ (line_under_state c Hl) (cb_answer c (cw_base c Hc) E)) as Ha. cbn zeta.
  match goal with |- context [start_answer (c_phy ?x) _] => set (c1 := x) end.
  assert (same_requests c c1 /\ c_answer c1 = c_answer c <| ac_state := ANSWER_IDLE |> /\ c_phy c1 = c_phy c
    /\ c_active_is_answer c1 = true /\ c_active_expects_backward c1 = false) as (S1 & S2 & S3 & S4 & S5) by (subst c1; destruct (aa_late arm); done).
  clearbody c1. rewrite S3. destruct (start_answer _ _) as [phy ok]. destruct Ha as (-> & A2 & A3 & A4). cbn [negb].
  set (c2 := c1 <| c_phy := phy |>).
  assert (same_requests c c2 /\ answer_armed c c2) as [R1 R2].
  { split; [exact S1|]. unfold answer_armed. cbn. rewrite S2. split_and!; try done; eauto. }
  clearbody c2. destruct (aa_over_backward arm); cbn [fst snd]; done.
Qed.

Lemma try_arm_spec c : core_wf c -> tx_busy (c_phy c) = false ->
  let c' := fst (try_arm_answer c) in
  same_requests c c' /\
  match snd (try_arm_answer c) with
  | NotStaged => ~ answer_due c /\ c_phy c' = c_phy c /\ c_active_is_answer c' = c_active_is_answer c /\
      c_active_expects_backward c' = c_active_expects_backward c
  | Held => c' = c /\ answer_due c
  | Armed => answer_armed c c'
  end.
Proof.
  intros Hc Hb. unfold try_arm_answer.
  destruct (staged_epoch (c_answer c)) as [epoch|] eqn:E; [|split; [done|]; split; [intros [H _]; congruence|done]].
  case_if.
  - split; [done|]. split; [|done]. intros [H _]. rewrite E in H. now injection H.
  - bprop. subst epoch. unfold arm_over_line.
    destruct (answer_gate _ _ _) as [|late|] eqn:G.
    + split; [done|]. split; [done|]. split; [done|]. now rewrite G.
    + assert (answer_due c) as Hd by (split; [done|congruence]). pose proof (fun over Hl => fire_spec c (MkAnswerArm (ticks_since_forward_edge c) late over) Hc Hb Hd Hl G) as F.
      destruct (line_under_answer c) eqn:L; [destruct (F false) as (F1 & F2 & F3)|destruct (F true) as (F1 & F2 & F3)|];
        try done; rewrite F2; done.
    + split; [done|]. split; [|done]. intros [_ H]. congruence.
Qed.

(** *** A forward frame starts *)

Lemma arm_forward_spec c : core_wf c -> tx_busy (c_phy c) = false -> bus_state (c_phy c) = Idle ->
  let c' := arm_pending_forward c in
  match next_up c with
  | None => c_phy c' = c_phy c /\ c_active_is_answer c' = c_active_is_answer c /\ c_pending c' = None
  | Some req =>
      c_pending c' = Some req /\ c_active_is_answer c' = c_active_is_answer c /\
      c_session_exchange c' = c_session_exchange c /\
      if idlecnt (c_phy c) <? tr_min_idle_ticks req then c_phy c' = c_phy c /\ c_bus_epoch c' = c_bus_epoch c
      else
        tx_busy (c_phy c') = true /\ tx_hb_data (c_phy c') = tr_data req /\ tx_hb_len (c_phy c') = tr_len req /\
        c_active_epoch c' = tr_exchange_id req /\ c_active_expects_backward c' = tr_expects_backward req /\
        c_bus_epoch c' = wrapping_add 8 (c_bus_epoch c) 1
  end.
Proof.
  intros Hc Hb Hi. unfold arm_pending_forward. cbn zeta.
  match goal with |- context [match c_pending c with Some _ => c | None => ?a end] =>
    set (c1 := match c_pending c with Some _ => c | None => a end) end.
  assert (c_pending c1 = next_up c /\ (forall r, next_up c = Some r -> request_ok r) /\ c_phy c1 = c_phy c /\
    c_active_is_answer c1 = c_active_is_answer c /\ c_session_exchange c1 = c_session_exchange c /\
    c_bus_epoch c1 = c_bus_epoch c) as (E1 & E2 & E3 & E4 & E5 & E6).
  { subst c1. destruct (c_pending c) as [r|] eqn:Ep.
    - unfold next_up. rewrite Ep. split_and!; try done. intros r' [= <-]. now apply (cb_pending c (cw_base c Hc)).
    - destruct (next_request_spec c (cw_base c Hc) Ep) as (_ & E & _ & Hr & _).
      assert (c_phy (fst (next_request c)) = c_phy c /\
        c_active_is_answer (fst (next_request c)) = c_active_is_answer c /\
        c_session_exchange (fst (next_request c)) = c_session_exchange c /\
        c_bus_epoch (fst (next_request c)) = c_bus_epoch c) as (F1 & F2 & F3 & F4).
      { unfold next_request. destruct (ring_pop _ _) as [q [r|]]; [done|]. destruct (take_command _) as [? [?|]]; done. }
      destruct (next_request c) as [c2 req]. cbn [fst snd] in *. subst req. done. }
  clearbody c1. destruct (next_up c) as [req|]; rewrite E1; [|done]. rewrite E3.
  case_if; [done|]. pose proof (start_tx_ok (c_phy c) _ _ Hi (E2 req eq_refl)) as Hst.
  match goal with |- context [start_tx (c_phy ?x) ?hb] => change (start_tx (c_phy x) hb) with (start_tx (c_phy c1) hb) end.
  rewrite E3. destruct (start_tx _ _) as [phy ok]. destruct Hst as (-> & F2 & F3 & F4).
  split; [exact E1|]. split; [exact E4|]. split; [exact E5|]. split_and!; try done. cbn. now rewrite E6.
Qed.

(** The arming of a tick, taken apart: nothing while the transmitter is busy, an
    answer that is due, or the next forward request on a free and idle line. *)
Lemma arm_pending_spec c : core_wf c ->
  let c1 := apply_requested_cancel c in
  let c' := arm_pending_tx c in
  if tx_busy (c_phy c) then c' = c1
  else
    (answer_due c1 /\ (c' = c1 \/ same_requests c1 c' /\ answer_armed c1 c')) \/
    (~ answer_due c1 /\
     exists c2, same_requests c1 c2 /\ c_phy c2 = c_phy c /\ c_active_is_answer c2 = false /\ core_wf c2 /\
       c_active_expects_backward c2 = c_active_expects_backward c1 /\
       c' = if negb (c_session_exchange c1 =? 0) || negb (bool_decide (bus_state (c_phy c) = Idle))
               || line_debouncing (c_phy c) then c2
            else arm_pending_forward c2).
Proof.
  intros Hc c1 c'. subst c'. unfold arm_pending_tx. fold c1.
  destruct (cancel_frame c) as (E1 & _). fold c1 in E1. rewrite E1. case_if; [done|].
  assert (core_wf c1) as H1 by now apply cancel_wf. clearbody c1. rewrite <- E1 in Heqb.
  pose proof (try_arm_spec c1 H1 Heqb) as H. pose proof (try_arm_wf c1 H1 Heqb) as Hw.
  destruct (wf_free c1 H1 Heqb) as [Ha _].
  destruct (try_arm_answer c1) as [c2 r]. cbn [fst snd] in *. destruct H as [Hs H]. destruct r.
  - right. destruct H as (G1 & G2 & G3 & G4). split; [done|]. exists c2. split_and!; try done; [congruence..|].
    destruct Hs as (F1 & _). rewrite F1, G2, E1. now destruct (c_session_exchange c1 =? 0).
  - left. destruct H as [-> ?]. auto.
  - left. split; [apply H|auto].
Qed.

Lemma same_requests_next_up c c' : same_requests c c' -> next_up c' = next_up c.
Proof. intros (E1 & E2 & E3 & E4 & _). unfold next_up, queued. now rewrite E2, E3, E4. Qed.

(** C10: a forward frame never starts out of turn.  When a tick starts one, it
    is the request next in line (the one held back, the oldest of the batch, the
    command cell's, in this order), loaded whole and booked to its own exchange;
    the bus is idle and no edge is being debounced, the line has been quiet for
    at least the request's settling time, no exchange waits for an answer, no
    answer to the last frame is due; and the bus epoch moves on, which voids
    every answer staged for the frame before. *)
Theorem forward_start_justified c (Hc : isr_reachable c) :
  let c1 := apply_requested_cancel c in
  let c' := arm_pending_tx c in
  forward_busy c = false -> forward_busy c' = true ->
  exists req, next_up c1 = Some req /\
    tx_hb_data (c_phy c') = tr_data req /\ tx_hb_len (c_phy c') = tr_len req /\
    c_active_epoch c' = tr_exchange_id req /\ c_active_expects_backward c' = tr_expects_backward req /\
    bus_state (c_phy c) = Idle /\ line_debouncing (c_phy c) = false /\
    tr_min_idle_ticks req <= idlecnt (c_phy c) /\
    c_session_exchange c' = 0 /\ ~ answer_due c1 /\ c_bus_epoch c' = wrapping_add 8 (c_bus_epoch c) 1.
Proof.
  intros c1 c' Hbefore Hafter. apply isr_reachable_core_wf in Hc.
  pose proof (arm_pending_spec c Hc) as H. cbn zeta in H. fold c1 c' in H.
  destruct (cancel_frame c) as (E1 & _ & E3 & E4 & _). fold c1 in E1, E3, E4.
  assert (forall c2, c_phy c2 = c_phy c -> c_active_is_answer c2 = c_active_is_answer c -> forward_busy c2 = false) as Hno
    by (intros c2 F1 F2; unfold forward_busy in *; now rewrite F1, F2).
  destruct (tx_busy (c_phy c)) eqn:Hb; [rewrite H, Hno in Hafter by done; discriminate|].
  destruct (wf_free c Hc Hb) as [Ha _].
  destruct H as [[_ [->|(_ & _ & _ & _ & _ & F & _)]]|(Hd & c2 & Hs & P2 & A2 & W2 & _ & E)].
  - rewrite Hno in Hafter by done. discriminate.
  - unfold forward_busy in Hafter. now rewrite F, andb_false_r in Hafter.
  - pose proof (same_requests_next_up _ _ Hs) as En. destruct Hs as (S1 & _ & _ & _ & S5 & _).
    destruct (_ || _ || _) eqn:G; [rewrite E, Hno in Hafter by congruence; discriminate|].
    bprop. apply bool_decide_eq_true in H1.
    rewrite <- P2 in Hb, H1. pose proof (arm_forward_spec c2 W2 Hb H1) as F. cbn zeta in F. rewrite <- E, En in F.
    destruct (next_up c1) as [req|]; [|destruct F as (F1 & F2 & _); rewrite Hno in Hafter by congruence; discriminate].
    destruct F as (_ & F1 & F2 & F). case_if_in F.
    { destruct F as [F _]. rewrite Hno in Hafter by congruence. discriminate. }
    destruct F as (G1 & G2 & G3 & G4 & G5 & G6). rewrite P2 in *.
    exists req. split_and!; try done; congruence.
Qed.

Lemma forward_start_justified_witness :
  let c := example_submitted in
  forward_busy c = false /\ forward_busy (arm_pending_tx c) = true /\
  exists req, next_up (apply_requested_cancel c) = Some req /\ tr_exchange_id req = 1 /\
    tr_min_idle_ticks req <= idlecnt (c_phy c).
Proof.
  intros c. split; [by vm_compute|]. split; [by vm_compute|].
  destruct (forward_start_justified c example_submitted_reachable) as (req & E & _ & _ & _ & _ & _ & _ & H & _);
    [by vm_compute|by vm_compute|].
  exists req. split; [exact E|]. split; [|exact H].
  assert (next_up (apply_requested_cancel c) = Some req) as E' by exact E. vm_compute in E'. now injection E' as <-.
Defined.

(** C11: an answer goes out only where it belongs.  When a tick starts to
    transmit an answer, that answer was staged for the frame the bus saw last
    (its epoch is the bus epoch) and is transmitted unchanged, nothing else was
    being transmitted, its first edge falls in the window of IEC 62386-101, 5.5
    to 10.5 ms after the last edge of that frame, and the line is either idle or
    carries a reception that began late enough to be another backward frame. *)
Theorem answer_start_justified c (Hc : isr_reachable c) :
  let c' := arm_pending_tx c in
  let elapsed := wrapping_sub 32 (c_wire_ticks_total c) (forward_edge_tick (c_answer_slot c)) in
  c_active_is_answer c = false -> c_active_is_answer c' = true ->
  staged_epoch (c_answer c) = Some (c_bus_epoch c) /\
  tx_hb_data (c_phy c') = ac_data (c_answer c) /\ tx_hb_len (c_phy c') = ac_len (c_answer c) /\
  ac_state (c_answer c') = ANSWER_IDLE /\ tx_busy (c_phy c) = false /\ tx_busy (c_phy c') = true /\
  BACKWARD_MIN_US <= (elapsed + ANSWER_ARM_LEAD_TICKS) * PHY_TICK_US <= BACKWARD_MAX_US /\
  low_run_ticks (c_phy c) < LINE_HELD_TICKS /\
  (bus_state (c_phy c) = Idle \/ bus_state (c_phy c) = Rx /\ reception_began_in_the_backward_window c = true).
Proof.
  intros c' elapsed Hbefore Hafter. apply isr_reachable_core_wf in Hc.
  pose proof (arm_pending_spec c Hc) as H. cbn zeta in H. fold c' in H.
  destruct (cancel_frame c) as (E1 & E2 & E3 & E4 & E5 & E6 & _).
  set (c1 := apply_requested_cancel c) in *.
  destruct (tx_busy (c_phy c)) eqn:Hb; [congruence|].
  destruct H as [[_ [->|[_ F]]]|(Hd & c2 & Hs & P2 & A2 & W2 & _ & E)]; [congruence| |].
  - destruct F as ((F1 & _) & F2 & F3 & F4 & _ & _ & F5 & F6 & (late & F7) & F8).
    rewrite E2, E3 in *.
    assert (BACKWARD_MIN_US <= (elapsed + ANSWER_ARM_LEAD_TICKS) * PHY_TICK_US <= BACKWARD_MAX_US) as Hwin.
    { unfold ticks_since_forward_edge in F7. rewrite E5, E6 in F7. fold elapsed in F7.
      assert (0 <= elapsed) by (unfold elapsed, wrapping_sub; apply wrap_range; lia).
      assert (elapsed <= umax 16 /\ answer_gate elapsed ANSWER_ARM_TARGET_IDLE_TICKS ANSWER_ARM_MAX_IDLE_TICKS = Arm late)
        as [Hu Hg] by (revert F7; case_if; [discriminate|done]).
      apply armed_answer_in_window with late; [|done]. change (umax 16) with 65535 in Hu. unfold in_u. lia. }
    do 7 (split; [done|]). unfold line_under_answer in F8. rewrite E1 in F8. case_if_in F8; [done|]. split; [lia|].
    unfold reception_began_in_the_backward_window in *. rewrite E6 in F8.
    destruct (bus_state (c_phy c)); auto; [|done..]. right. split; [done|]. now destruct (_ <=? _).
  - exfalso. case_if_in E; [congruence|]. bprop. apply bool_decide_eq_true in H1. rewrite <- P2 in Hb, H1.
    pose proof (arm_forward_spec c2 W2 Hb H1) as F. cbn zeta in F. rewrite <- E in F.
    destruct (next_up c2); [destruct F as (_ & F & _)|destruct F as (_ & F & _)]; congruence.
Qed.


Lemma isr_run_reachable c ops : isr_reachable c -> Forall isr_op_ok ops -> isr_reachable (foldl isr_do c ops).
Proof.
  intros Hc Hops. revert c Hc. induction Hops as [|op ops Hop _ IH]; intros c Hc; [exact Hc|].
  apply IH. now apply isr_reach_step.
Qed.

Lemma ticks_ok levels : Forall isr_op_ok (map (fun l => OpIsrTick (quiet_env l)) levels).
Proof. induction levels; constructor; done. Qed.

(** QUERY DEVICE STATUS to short address 5 on a line where it is answered from
    the table, [n] quiet ticks after the frame. *)
Definition example_query_levels (n : nat) : list bool :=
  flat_map (fun h : bool => replicate 4 (negb h)) (frame_half_bits (data_bits (11 * 65536 + 254 * 256 + 48) 24))
  ++ replicate n true.

Definition example_query_ops (n : nat) : list isr_op :=
  map (fun l => OpIsrTick (quiet_env l)) (replicate 20 true) ++ [OpPublishTable example_image 0] ++
  map (fun l => OpIsrTick (quiet_env l)) (example_query_levels n).

Lemma example_query_reachable n : isr_reachable (foldl isr_do core_new (example_query_ops n)).
Proof.
  apply isr_run_reachable; [apply isr_reach_new|]. unfold example_query_ops.
  apply Forall_app. split; [apply ticks_ok|]. apply Forall_app. split; [|apply ticks_ok].
  constructor; [reflexivity|constructor].
Qed.

Lemma answer_start_justified_witness :
  let c := foldl isr_do core_new (example_query_ops 43) in
  let elapsed := wrapping_sub 32 (c_wire_ticks_total c) (forward_edge_tick (c_answer_slot c)) in
  c_active_is_answer (arm_pending_tx c) = true /\
  staged_epoch (c_answer c) = Some (c_bus_epoch c) /\
  BACKWARD_MIN_US <= (elapsed + ANSWER_ARM_LEAD_TICKS) * PHY_TICK_US <= BACKWARD_MAX_US.
Proof.
  intros c elapsed. assert (c_active_is_answer (arm_pending_tx c) = true) as H by (vm_compute; reflexivity).
  split; [exact H|].
  destruct (answer_start_justified c (example_query_reachable 43)) as (H1 & _ & _ & _ & _ & _ & H2 & _);
    [vm_compute; reflexivity|exact H|]. split; [exact H1|exact H2].
Defined.

End Isr.
