(* ===== verification/IsrLink.v ===== *)
(** * The interrupt core as a link: abstract specification and refinement

    What a task may rely on: a link that transmits one request at a time, lets
    at most one exchange wait for its answer, and reports what happened as
    events stamped with their exchange.  [link_tick] says everything a tick may
    do to it; [core_refines_link] shows that the core ([IsrCore]) does nothing
    else.  The guarantees are then proved on the link. *)

From S2P Require Import Prelude HalfBits Manchester PhyFsm Ring Mailbox AnswerTable IsrCore Isr.

Module IsrLink.
Import HalfBits Manchester PhyFsm Ring Mailbox AnswerTable IsrCore Isr.

(** ** The link *)

Inductive wire := WFree | WForward | WAnswer.

Record link := MkLink {
  l_wire : wire;
  l_pending : option TxRequest;
  l_queue : list TxRequest;
  l_cell : option TxRequest;
  l_waiting : Z;
  l_expects : bool;
  l_exchange : Z;
  l_aborted : bool;
  l_epoch : Z;
  l_cancel : Z;
  l_acknowledged : Z;
  l_cancelling : bool }.

#[global] Instance eta_link : Eta link := fun l =>
  MkLink (l_wire l) (l_pending l) (l_queue l) (l_cell l) (l_waiting l) (l_expects l) (l_exchange l) (l_aborted l)
    (l_epoch l) (l_cancel l) (l_acknowledged l) (l_cancelling l).

#[global] Instance wire_eq_dec : EqDecision wire.
Proof. solve_decision. Defined.

Definition emission : Type := list (Z * SessionEvent).

(** The session ring keeps seven events and refuses the next. *)
Definition log_push (l : emission) (e : Z * SessionEvent) : emission :=
  if Z.of_nat (length l) =? SESSION_RING_CAP - 1 then l else l ++ [e].

(** A requested cancellation, applied at the start of a tick. *)
Definition link_cancel (l : link) : link :=
  if l_cancel l =? 0 then l
  else
    let x := l_cancel l in
    let active := bool_decide (l_wire l = WForward) && (l_exchange l =? x) in
    l <| l_pending := if active then l_pending l else None |> <| l_queue := [] |> <| l_cell := None |>
      <| l_cancelling := active |>
      <| l_expects := if l_exchange l =? x then false else l_expects l |>
      <| l_waiting := if l_waiting l =? x then 0 else l_waiting l |>
      <| l_cancel := 0 |> <| l_acknowledged := x |>.

(** The next request in line becomes the pending one. *)
Definition link_take (l : link) : link :=
  match l_pending l with
  | Some _ => l
  | None =>
      match l_queue l with
      | r :: q => l <| l_pending := Some r |> <| l_queue := q |>
      | [] => l <| l_pending := l_cell l |> <| l_cell := None |>
      end
  end.

Inductive link_arm : link -> link -> Prop :=
  | arm_none l : link_arm l l
  | arm_answer l : l_wire l = WFree -> link_arm l (l <| l_expects := false |> <| l_wire := WAnswer |>)
  | arm_hold l : l_wire l = WFree -> l_waiting l = 0 -> link_arm l (link_take l)
  | arm_start l req :
      l_wire l = WFree -> l_waiting l = 0 -> l_pending (link_take l) = Some req ->
      link_arm l (link_take l <| l_exchange := tr_exchange_id req |> <| l_expects := tr_expects_backward req |>
                              <| l_epoch := wrapping_add 8 (l_epoch l) 1 |> <| l_wire := WForward |>).

(** Everything not yet transmitted is dropped; a request already taken is
    reported, and a broken batch remembered. *)
Definition link_abort (l : link) : link * emission :=
  (l <| l_pending := None |> <| l_queue := [] |>
     <| l_aborted := l_aborted l || negb (bool_decide (l_queue l = []))
                     || match l_pending l with Some r => tr_batched r | None => false end |>,
   match l_pending l with Some r => [(tr_exchange_id r, TxVoided)] | None => [] end).

Inductive link_finish : link -> emission -> link -> Prop :=
  | fin_none l : link_finish l [] l
  | fin_answer l : l_wire l = WAnswer -> link_finish l [] (l <| l_wire := WFree |>)
  | fin_cancelled l epoch :
      l_wire l = WForward -> l_cancelling l = true ->
      epoch = l_epoch l \/ epoch = wrapping_sub 8 (l_epoch l) 1 ->
      link_finish l [] (l <| l_cancelling := false |> <| l_epoch := epoch |> <| l_pending := None |>
                          <| l_expects := false |> <| l_waiting := 0 |> <| l_wire := WFree |>)
  | fin_sent l pre_idle :
      l_wire l = WForward -> l_cancelling l = false ->
      link_finish l [(l_exchange l, TxComplete pre_idle)]
        (l <| l_pending := None |> <| l_waiting := if l_expects l then l_exchange l else l_waiting l |>
           <| l_expects := false |> <| l_wire := WFree |>)
  | fin_collision l :
      l_wire l = WForward -> l_cancelling l = false ->
      link_finish l [(l_exchange l, TxCollision)]
        (fst (link_abort (l <| l_pending := None |> <| l_expects := false |> <| l_waiting := 0 |> <| l_wire := WFree |>)))
  | fin_restart l req :
      l_wire l = WForward -> l_cancelling l = false -> l_pending l = Some req -> tr_restart_gate req <> 0 ->
      link_finish l [] (l <| l_pending := Some (req <| tr_min_idle_ticks := tr_restart_gate req |>
                                                    <| tr_restart_gate := 0 |>) |> <| l_wire := WFree |>)
  | fin_yielded l :
      l_wire l = WForward -> l_cancelling l = false ->
      link_finish l [] (l <| l_expects := false |> <| l_epoch := wrapping_sub 8 (l_epoch l) 1 |> <| l_wire := WFree |>).

Definition foreign_events (l : link) (pre_idle count : Z) : emission :=
  if l_waiting l =? 0 then [] else [(l_waiting l, ForeignForward pre_idle count)].

Inductive link_capture : link -> emission -> link -> Prop :=
  | cap_none l : link_capture l [] l
  | cap_awaited l ev :
      l_wire l = WFree -> l_waiting l <> 0 ->
      link_capture l [(l_waiting l, RxComplete ev)] (l <| l_waiting := 0 |>)
  | cap_unasked l : l_wire l = WFree -> l_waiting l = 0 -> link_capture l [] l
  | cap_forward l pre_idle count :
      l_wire l = WFree ->
      link_capture l (snd (link_abort l) ++ foreign_events l pre_idle count)
        (fst (link_abort l) <| l_epoch := wrapping_add 8 (l_epoch l) 1 |> <| l_waiting := 0 |>).

(** One tick, and the events it emits. *)
Definition link_tick (l : link) (evs : emission) (l' : link) : Prop :=
  exists l1 l2 e1 e2,
    link_arm (link_cancel l) l1 /\ link_finish l1 e1 l2 /\ link_capture l2 e2 l' /\ evs = e1 ++ e2.

(** ** The core as a link *)

Definition wire_of (c : PhyIsrCore) : wire :=
  if tx_busy (c_phy c) then if c_active_is_answer c then WAnswer else WForward else WFree.

Definition observe_at (w : wire) (c : PhyIsrCore) : link :=
  MkLink w (c_pending c) (queued c) (cell_request (c_cmd c)) (c_session_exchange c) (c_active_expects_backward c)
    (c_active_epoch c) (c_batch_aborted c) (c_bus_epoch c) (ct_requested (c_control c))
    (ct_acknowledged (c_control c)) (ct_active (c_control c)).

Definition observe (c : PhyIsrCore) : link := observe_at (wire_of c) c.

(** The events of each part of a tick, from the state they are reported in. *)
Definition restarts (c : PhyIsrCore) : bool :=
  tx_idle_after_break (c_phy c)
  && match c_pending c with Some r => negb (tr_restart_gate r =? 0) | None => false end.

Definition report_events (c : PhyIsrCore) : emission :=
  if c_active_is_answer c || ct_active (c_control c) then []
  else match snd (poll_tx_state (c_phy c)) with
       | PollOk => [(c_active_epoch c, TxComplete (tx_pre_idle (c_phy c)))]
       | PollCollision => if restarts c then [] else [(c_active_epoch c, TxCollision)]
       | _ => []
       end.

(** A capture with the interrupt's stamps. *)
Definition stamped_capture (c : PhyIsrCore) (ev : RxCompletedEvent) : RxCompletedEvent :=
  let epoch := match frame_length_class (sample_count ev) with
               | ClassForward => wrapping_add 8 (c_bus_epoch c) 1
               | ClassBackward => c_bus_epoch c
               end in
  let gap := ct_rx_max_gap_us (c_control c) in
  ev <| rx_epoch := epoch |> <| rx_tick := c_wire_ticks_total c |> <| max_sample_gap_us := gap |>
     <| timing_degraded := LATE_TICK_US <=? gap |>.

Definition capture_events (c : PhyIsrCore) : emission :=
  match snd (take_completed_rx_event (c_phy c)) with
  | None => []
  | Some ev =>
      match frame_length_class (sample_count ev) with
      | ClassBackward => if c_session_exchange c =? 0 then []
                         else [(c_session_exchange c, RxComplete (stamped_capture c ev))]
      | ClassForward =>
          snd (link_abort (observe c)) ++ foreign_events (observe c) (pre_idle_ticks ev) (sample_count ev)
      end
  end.

(** The tick up to the end of a transmission, and up to the captures. *)
Definition armed_tick (c : PhyIsrCore) (env : tick_env) : PhyIsrCore :=
  let c := c <| c_statics := c_statics c <| ISR_CORE_ID := env_core env |> |> in
  arm_pending_tx (c <| c_probe := fst (probe_tick (c_probe c) env (env_core env)) |>).

Definition sampled_tick (c : PhyIsrCore) (env : tick_env) : PhyIsrCore :=
  let gap := snd (probe_tick (c_probe c) env (env_core env)) in
  let c3 := armed_tick c env in
  let c4 := c3 <| c_phy := tick (c_phy c3) (env_bus_is_high env) |> in
  let before := rx_state (c_phy c) in
  let c5 := publish_tick_state (track_rx_timing c4 before (rx_state (c_phy c4)) gap) in
  note_rx_start c5 before (rx_state (c_phy c5)).

Definition tick_lands (c : PhyIsrCore) (env : tick_env) : bool :=
  tx_busy (c_phy (armed_tick c env)) && negb (tx_busy (c_phy (sampled_tick c env))).

Definition reported_tick (c : PhyIsrCore) (env : tick_env) : PhyIsrCore :=
  step_held_capture (if tick_lands c env then report_tx_completion (sampled_tick c env) else sampled_tick c env).

Definition tick_emits (c : PhyIsrCore) (env : tick_env) : emission :=
  (if tick_lands c env then report_events (sampled_tick c env) else []) ++ capture_events (reported_tick c env).

(** ** The refinement, part by part *)

Lemma isr_tick_stages c env : isr_tick c env = drain_completed_rx (reported_tick c env).
Proof.
  unfold isr_tick, reported_tick, tick_lands, sampled_tick, armed_tick. cbn zeta.
  change (c_probe (c <| c_statics := _ |>)) with (c_probe c).
  destruct (probe_tick (c_probe c) env (env_core env)) as [probe gap]. reflexivity.
Qed.

(** *** What each field is to the link *)

Section Fields.
Context (w : wire) (c : PhyIsrCore).

Lemma observe_expects b : observe_at w (c <| c_active_expects_backward := b |>) = observe_at w c <| l_expects := b |>.
Proof. reflexivity. Qed.
Lemma observe_waiting z : observe_at w (c <| c_session_exchange := z |>) = observe_at w c <| l_waiting := z |>.
Proof. reflexivity. Qed.
Lemma observe_rx_started z : observe_at w (c <| c_session_rx_started := z |>) = observe_at w c.
Proof. reflexivity. Qed.
Lemma observe_requested z :
  observe_at w (c <| c_control := c_control c <| ct_requested := z |> |>) = observe_at w c <| l_cancel := z |>.
Proof. reflexivity. Qed.
Lemma observe_acknowledged z :
  observe_at w (c <| c_control := c_control c <| ct_acknowledged := z |> |>) = observe_at w c <| l_acknowledged := z |>.
Proof. reflexivity. Qed.
Lemma observe_cancelling b :
  observe_at w (c <| c_control := c_control c <| ct_active := b |> |>) = observe_at w c <| l_cancelling := b |>.
Proof. reflexivity. Qed.
Lemma observe_pending r : observe_at w (c <| c_pending := r |>) = observe_at w c <| l_pending := r |>.
Proof. reflexivity. Qed.
Lemma observe_epoch z : observe_at w (c <| c_bus_epoch := z |>) = observe_at w c <| l_epoch := z |>.
Proof. reflexivity. Qed.
Lemma observe_exchange z : observe_at w (c <| c_active_epoch := z |>) = observe_at w c <| l_exchange := z |>.
Proof. reflexivity. Qed.
Lemma observe_phy p : observe_at w (c <| c_phy := p |>) = observe_at w c.
Proof. reflexivity. Qed.
Lemma observe_tx t : observe_at w (c <| c_tx := t |>) = observe_at w c.
Proof. reflexivity. Qed.
End Fields.

Create HintDb link discriminated.
#[local] Hint Rewrite observe_expects observe_waiting observe_rx_started observe_requested observe_acknowledged
  observe_cancelling observe_pending observe_epoch observe_exchange observe_phy observe_tx : link.

(** *** Pushing and draining *)

Lemma session_log_push c id ev : core_base c ->
  session_log (push_session_event_for c id ev) = log_push (session_log c) (id, ev).
Proof.
  intros []. unfold push_session_event_for, log_push.
  pose proof (push_items _ session_cap (c_session_events c) (id, ev) cb_session0) as (_ & _ & H).
  destruct (try_push _ _ _) as [r ok]. cbn [fst] in H. destruct ok; exact H.
Qed.

Lemma observe_push w c id ev : observe_at w (push_session_event_for c id ev) = observe_at w c.
Proof. unfold push_session_event_for. destruct (try_push _ _ _) as [r [|]]; reflexivity. Qed.

Lemma push_phy c id ev : c_phy (push_session_event_for c id ev) = c_phy c /\
  c_active_is_answer (push_session_event_for c id ev) = c_active_is_answer c.
Proof. unfold push_session_event_for. destruct (try_push _ _ _) as [r [|]]; done. Qed.

Lemma sniff_frame w c ev : let c' := push_to_sniffer_ring c ev in
  observe_at w c' = observe_at w c /\ session_log c' = session_log c /\ c_phy c' = c_phy c /\
  c_active_is_answer c' = c_active_is_answer c.
Proof. unfold push_to_sniffer_ring. destruct (try_push _ _ _) as [r [|]]; done. Qed.

Lemma observe_discard w c : core_base c ->
  let c' := fst (discard_queued c) in
  observe_at w c' = observe_at w c <| l_pending := None |> <| l_queue := [] |> /\ session_log c' = session_log c /\
  snd (discard_queued c) = (match c_pending c with Some _ => true | None => false end,
                            negb (bool_decide (queued c = []))).
Proof.
  intros []. unfold discard_queued. destruct (drain_tx_queue_ok _ cb_queue0) as [_ H2]. cbn [fst snd].
  split; [|split; [done|]].
  - unfold observe_at, queued. cbn [c_tx_queue c_pending set_field]. cbn. now rewrite H2.
  - f_equal. unfold queued. now rewrite (ring_ok_empty _ tx_cap) by done.
Qed.

Lemma observe_abort w c : core_base c ->
  let c' := abort_batch_tail c in
  observe_at w c' = fst (link_abort (observe_at w c)) /\
  session_log c' = foldl log_push (session_log c) (snd (link_abort (observe_at w c))).
Proof.
  intros Hb. unfold abort_batch_tail. destruct (observe_discard w c Hb) as (H1 & H2 & H3).
  pose proof (keeps_discard c) as [Hk _]. specialize (Hk Hb).
  destruct (discard_queued c) as [c1 [held queued_]]. cbn [fst snd] in *. injection H3 as -> ->.
  set (voided := match c_pending c with Some r => [(tr_exchange_id r, TxVoided)] | None => [] end).
  match goal with |- context [if _ then ?x <| c_batch_aborted := true |> else ?x] => set (c2 := x) end.
  assert (observe_at w c2 = observe_at w c1 /\ session_log c2 = foldl log_push (session_log c1) voided /\
    c_batch_aborted c2 = c_batch_aborted c1) as (E1 & E2 & E3).
  { subst c2 voided. destruct (c_pending c) as [r|]; [|done].
    set (c3 := c1 <| c_tx := _ |>). rewrite observe_push, session_log_push; [|destruct Hk; split; done].
    split; [done|]. split; [done|]. unfold push_session_event_for. destruct (try_push _ _ _) as [? [|]]; done. }
  clearbody c2. rewrite H2 in E2. unfold link_abort. cbn [fst snd].
  change (l_pending (observe_at w c)) with (c_pending c). change (l_queue (observe_at w c)) with (queued c).
  change (l_aborted (observe_at w c)) with (c_batch_aborted c). fold voided.
  assert (c_batch_aborted c1 = c_batch_aborted c) as E4 by now injection H1.
  destruct (negb (bool_decide (queued c = []))), (match c_pending c with Some r => tr_batched r | None => false end) eqn:Hbt;
    cbn [orb]; rewrite ?orb_true_r, ?orb_false_r; (split; [|done]).
  all: try (rewrite E1, H1; done).
  all: change (observe_at w (c2 <| c_batch_aborted := true |>)) with (observe_at w c2 <| l_aborted := true |>).
  all: rewrite E1, H1; done.
Qed.

(** *** Cancelling and arming *)

Lemma cell_request_taken cell : cell_request (fst (take_command cell)) = None.
Proof.
  unfold cell_request, take_command. destruct (negb (cc_state cell =? CMD_START_TX)) eqn:E; cbn [fst snd].
  - now rewrite E.
  - reflexivity.
Qed.

Lemma observe_cancel c : core_wf c ->
  observe (apply_requested_cancel c) = link_cancel (observe c) /\
  session_log (apply_requested_cancel c) = session_log c.
Proof.
  intros Hc. pose proof (cw_base c Hc) as Hb.
  assert (wire_of (apply_requested_cancel c) = wire_of c) as Hw.
  { destruct (cancel_frame c) as (E1 & _ & _ & E2 & _). unfold wire_of. now rewrite E1, E2. }
  unfold observe at 1. rewrite Hw. clear Hw. unfold apply_requested_cancel, link_cancel.
  change (l_cancel (observe c)) with (ct_requested (c_control c)). case_if; [done|]. clear Heqb.
  set (raw := ct_requested (c_control c)). cbn zeta.
  assert (tx_busy (c_phy c) && negb (c_active_is_answer c) = bool_decide (l_wire (observe c) = WForward)) as ->.
  { cbn. unfold wire_of. destruct (tx_busy _), (c_active_is_answer c); done. }
  change (c_active_epoch c) with (l_exchange (observe c)).
  destruct (drain_tx_queue_ok _ (cb_queue c Hb)) as [_ Hq].
  match goal with |- context [c_active_epoch ?x =? raw] => set (c1 := x) end.
  assert (observe_at (wire_of c) c1 = observe c
      <| l_pending := if bool_decide (l_wire (observe c) = WForward) && (l_exchange (observe c) =? raw)
                      then l_pending (observe c) else None |>
      <| l_queue := [] |> <| l_cell := None |>
      <| l_cancelling := bool_decide (l_wire (observe c) = WForward) && (l_exchange (observe c) =? raw) |> /\
    session_log c1 = session_log c /\ ct_requested (c_control c1) = raw) as (E1 & E2 & E3).
  { subst c1. destruct (_ && _).
    - split; [|done]. unfold observe, observe_at, queued. cbn. now rewrite Hq, cell_request_taken.
    - destruct (observe_discard (wire_of c) c Hb) as (D1 & D2 & _). unfold discard_queued_and_cell.
      assert (ct_requested (c_control (fst (discard_queued c))) = raw) as D3 by done.
      destruct (discard_queued c) as [c2 ?]. cbn [fst] in *.
      change (observe c) with (observe_at (wire_of c) c). split; [|done].
      transitivity (observe_at (wire_of c) c2 <| l_cell := None |> <| l_cancelling := false |>); [|now rewrite D1].
      unfold observe_at, queued. cbn. now rewrite cell_request_taken. }
  rewrite <- E2.
  assert (c_active_epoch c1 = l_exchange (observe c) /\ c_session_exchange c1 = l_waiting (observe c)) as [F1 F2].
  { change (c_active_epoch c1) with (l_exchange (observe_at (wire_of c) c1)).
    change (c_session_exchange c1) with (l_waiting (observe_at (wire_of c) c1)). now rewrite E1. }
  clearbody c1 raw. rewrite F1. generalize dependent (observe c). intros l E1 F1 F2.
  destruct (bool_decide (l_wire l = WForward) && (l_exchange l =? raw)), (l_exchange l =? raw);
    (match goal with |- context [c_session_exchange ?x =? raw] =>
       change (c_session_exchange x) with (c_session_exchange c1) end;
     rewrite F2; destruct (l_waiting l =? raw);
     match goal with |- context [ct_requested (c_control ?x) =? raw] =>
       change (ct_requested (c_control x)) with (ct_requested (c_control c1)) end;
     rewrite E3, Z.eqb_refl; (split; [|reflexivity]); autorewrite with link; rewrite E1; reflexivity).
Qed.

Lemma observe_next w c : core_base c -> c_pending c = None ->
  observe_at w (let '(c, req) := next_request c in c <| c_pending := req |>) = link_take (observe_at w c).
Proof.
  intros Hb Hp. unfold next_request, link_take. change (l_pending (observe_at w c)) with (c_pending c). rewrite Hp.
  change (l_queue (observe_at w c)) with (queued c). change (l_cell (observe_at w c)) with (cell_request (c_cmd c)).
  pose proof (pop_items _ tx_cap _ (cb_queue c Hb)) as (_ & P2 & P3). fold (queued c) in *.
  destruct (ring_pop TX_RING_CAP (c_tx_queue c)) as [q o]. cbn [fst snd] in *.
  assert (forall r cell, observe_at w (c <| c_tx_queue := q |> <| c_cmd := cell |> <| c_pending := r |>)
    = observe_at w c <| l_queue := tl (queued c) |> <| l_cell := cell_request cell |> <| l_pending := r |>) as E.
  { intros r cell. unfold observe_at, queued in *. cbn. now rewrite P3. }
  pose proof (cell_request_taken (c_cmd c)) as Ht. unfold cell_request in Ht |- * at 1.
  destruct (queued c) as [|r rest] eqn:Eq; cbn [hd_error tl] in *; subst o; cbn zeta.
  - change (c_cmd (c <| c_tx_queue := q |>)) with (c_cmd c).
    destruct (take_command (c_cmd c)) as [cell [cmd|]]; cbn [fst snd] in *; rewrite E;
      unfold cell_request; rewrite Ht; unfold observe_at; rewrite Eq; reflexivity.
  - specialize (E (Some r) (c_cmd c)). exact E.
Qed.

Lemma link_take_epoch l : l_epoch (link_take l) = l_epoch l.
Proof. unfold link_take. destruct (l_pending l), (l_queue l); reflexivity. Qed.

Lemma observe_arm_forward c : core_wf c -> tx_busy (c_phy c) = false -> bus_state (c_phy c) = Idle ->
  let l := link_take (observe c) in
  session_log (arm_pending_forward c) = session_log c /\
  (observe (arm_pending_forward c) = l \/
   exists req, l_pending l = Some req /\
     observe (arm_pending_forward c) =
       l <| l_exchange := tr_exchange_id req |> <| l_expects := tr_expects_backward req |>
         <| l_epoch := wrapping_add 8 (l_epoch (observe c)) 1 |> <| l_wire := WForward |>).
Proof.
  intros Hc Hb Hi l. destruct (wf_free c Hc Hb) as [Ha _]. unfold arm_pending_forward.
  match goal with |- context [match c_pending c with Some _ => c | None => ?a end] =>
    set (c1 := match c_pending c with Some _ => c | None => a end) end.
  assert ((forall w, observe_at w c1 = link_take (observe_at w c)) /\ session_log c1 = session_log c /\
    c_phy c1 = c_phy c /\ c_active_is_answer c1 = false /\ forall r, c_pending c1 = Some r -> request_ok r)
    as (E1 & E2 & E3 & E4 & E5).
  { subst c1. destruct (c_pending c) as [r|] eqn:Ep.
    - split_and!; try done; [intros w; unfold link_take; cbn; now rewrite Ep|].
      rewrite Ep. intros r' [= <-]. now apply (cb_pending c (cw_base c Hc)).
    - pose proof (next_request_spec c (cw_base c Hc) Ep) as (_ & F & _ & Hr & _).
      split; [intros w; now apply observe_next; [apply cw_base|]|].
      rewrite <- F in Hr. unfold next_request in *.
      destruct (ring_pop _ _) as [q [r|]]; [done|]. destruct (take_command _) as [? [?|]]; done. }
  assert (observe c1 = l) as El.
  { unfold observe, wire_of. rewrite E1, E3, E4. unfold l, observe, wire_of. now rewrite Ha. }
  assert (c_pending c1 = l_pending l) as Ep by now rewrite <- El. clearbody c1.
  destruct (c_pending c1) as [req|] eqn:Ereq; cbn zeta; [|rewrite E2, El; auto]. rewrite E3.
  case_if; [rewrite E2, El; auto|].
  match goal with |- context [start_tx (c_phy ?x) ?hb] => change (start_tx (c_phy x) hb) with (start_tx (c_phy c1) hb) end.
  rewrite E3. pose proof (start_tx_ok (c_phy c) _ _ Hi (E5 req eq_refl)) as Hst.
  destruct (start_tx _ _) as [phy ok]. destruct Hst as (-> & F2 & F3 & F4).
  split; [exact E2|]. right. exists req. split; [done|]. rewrite <- El.
  match goal with |- observe ?x = _ => set (c' := x) end.
  assert (wire_of c' = WForward) as Hw.
  { unfold wire_of. change (c_phy c') with phy. change (c_active_is_answer c') with (c_active_is_answer c1).
    now rewrite F2, E4. }
  unfold observe at 1. rewrite Hw. subst c'. autorewrite with link.
  rewrite <- (link_take_epoch (observe c)). fold l. rewrite <- El. reflexivity.
Qed.

(** *** The whole tick *)

Lemma observe_requests w c c' : same_requests c c' -> c_active_expects_backward c' = c_active_expects_backward c ->
  observe_at w c' = observe_at w c /\ session_log c' = session_log c.
Proof.
  intros (E1 & E2 & E3 & E4 & E5 & E6 & E7 & E8 & _ & _ & _ & E9) E10. unfold observe_at, session_log, queued. split; congruence.
Qed.

Lemma observe_arm c : core_wf c ->
  link_arm (link_cancel (observe c)) (observe (arm_pending_tx c)) /\
  session_log (arm_pending_tx c) = session_log c.
Proof.
  intros Hc. destruct (observe_cancel c Hc) as [<- <-].
  pose proof (arm_pending_spec c Hc) as H. cbn zeta in H. destruct (cancel_frame c) as (E1 & _ & _ & E4 & _).
  pose proof (cancel_wf c Hc) as H1. set (c1 := apply_requested_cancel c) in *. clearbody c1.
  destruct (tx_busy (c_phy c)) eqn:Hb; [rewrite H; split; [constructor|done]|].
  rewrite <- E1 in Hb. destruct (wf_free c1 H1 Hb) as [Ha _].
  assert (l_wire (observe c1) = WFree) as Hw by (cbn; unfold wire_of; now rewrite Hb).
  destruct H as [[_ [->|[Hs F]]]|(_ & c2 & Hs & P2 & A2 & W2 & X2 & E)].
  - split; [constructor|done].
  - destruct F as (_ & _ & _ & F1 & F2 & F3 & _).
    assert (observe (arm_pending_tx c) = observe c1 <| l_expects := false |> <| l_wire := WAnswer |>) as ->.
    { unfold observe, wire_of. rewrite F1, F2, Hb. destruct Hs as (? & ? & ? & ? & ? & ? & ? & ? & ? & ? & ? & ?).
      unfold observe_at, queued. cbn. congruence. }
    split; [now constructor|]. now destruct Hs as (_ & _ & _ & _ & _ & F4 & _); unfold session_log; rewrite F4.
  - rewrite <- E1 in P2, E. rewrite E. assert (wire_of c2 = wire_of c1) as Ew by (unfold wire_of; now rewrite P2, A2, Ha).
    destruct (observe_requests (wire_of c1) c1 c2 Hs X2) as [O1 O2].
    assert (observe c2 = observe c1) as Eo by (unfold observe at 1; rewrite Ew; exact O1).
    destruct (_ || _ || _) eqn:G; [rewrite Eo; split; [constructor|done]|].
    bprop. apply bool_decide_eq_true in H2. rewrite <- P2 in Hb, H2.
    destruct (observe_arm_forward c2 W2 Hb H2) as [L F]. cbn zeta in F. rewrite Eo in F. split; [|congruence].
    destruct F as [->|(req & Hreq & ->)]; [now apply arm_hold|now apply arm_start].
Qed.

(** [c'] is the same link as [c], with the same log, PHY and kind of transmission. *)
Definition same_link (c c' : PhyIsrCore) : Prop :=
  (forall w, observe_at w c' = observe_at w c) /\ session_log c' = session_log c /\ c_phy c' = c_phy c /\
  c_active_is_answer c' = c_active_is_answer c.

#[global] Instance same_link_preorder : PreOrder same_link.
Proof.
  split; [done|]. intros c1 c2 c3 (A1 & A2 & A3 & A4) (B1 & B2 & B3 & B4).
  split_and!; congruence.
Qed.

Lemma same_link_publish c : same_link c (publish_tick_state c).
Proof.
  unfold publish_tick_state. cbn zeta.
  match goal with |- context [note_wire_ticks ?x _] => assert (same_link c x) as H1 end.
  { repeat case_if; done. }
  match type of H1 with same_link c ?x => generalize dependent x end. intros c1 H1. transitivity c1; [exact H1|].
  transitivity (note_wire_ticks c1 (bus_state (c_phy c1))); [unfold note_wire_ticks; destruct (bus_state (c_phy c1)); done|].
  generalize (note_wire_ticks c1 (bus_state (c_phy c1))). clear. intros c2.
  unfold note_session_rx_started. case_if; done.
Qed.

Lemma sampled_frame c env :
  let c3 := armed_tick c env in
  same_link (c3 <| c_phy := tick (c_phy c3) (env_bus_is_high env) |>) (sampled_tick c env).
Proof.
  unfold sampled_tick. cbn zeta. generalize (armed_tick c env). intros c3.
  match goal with |- same_link ?x (note_rx_start (publish_tick_state (track_rx_timing _ ?b ?d ?e)) _ _) =>
    transitivity (track_rx_timing x b d e); [done|]; transitivity (publish_tick_state (track_rx_timing x b d e));
    [apply same_link_publish|]; generalize (publish_tick_state (track_rx_timing x b d e)) end.
  intros c4. unfold note_rx_start. case_if; done.
Qed.

Lemma same_link_sniff c ev : same_link c (push_to_sniffer_ring c ev).
Proof. unfold push_to_sniffer_ring. destruct (try_push _ _ _) as [r [|]]; done. Qed.

Lemma same_link_answer c frame ev : same_link c (answer_from_table c frame ev).
Proof.
  unfold answer_from_table. destruct (answer _ _ _ _) as [t [byte|]]; [|done].
  generalize (encode byte BACKWARD_DATA_BITS). intros hb. cbn zeta.
  destruct (stage _ _ _) as [cell [|]]; done.
Qed.

Lemma same_link_step_held c : same_link c (step_held_capture c).
Proof.
  unfold step_held_capture. case_if; [done|].
  destruct (search_step _ _) as [search [|found]]; [done|]. cbn zeta.
  match goal with |- context [push_to_sniffer_ring ?x ?ev] => transitivity x; [|apply same_link_sniff] end.
  match goal with |- context [set_held c ?h] => transitivity (set_held c h); [done|] end.
  destruct found as [decode|]; [|done]. case_if; [apply same_link_answer|done].
Qed.

Lemma same_link_push_sniffer c ev : same_link c (push_sniffer_capture c ev).
Proof.
  unfold push_sniffer_capture. set (c1 := if hc_held _ then _ else c).
  transitivity c1; [subst c1; case_if; [|done]|].
  - match goal with |- context [push_to_sniffer_ring ?x ?e] => transitivity x; [done|apply same_link_sniff] end.
  - clearbody c1. cbn zeta. case_if; [|done].
    match goal with |- context [push_to_sniffer_ring ?x ?e] => transitivity x; [done|apply same_link_sniff] end.
Qed.

(** *** The end of a transmission *)

Lemma observe_free c : tx_busy (c_phy c) = false -> observe c = observe_at WFree c.
Proof. unfold observe, wire_of. now intros ->. Qed.

(** What a forward frame's end emits. *)
Definition forward_events (c : PhyIsrCore) (poll : TxPollResult) : emission :=
  if ct_active (c_control c) then []
  else match poll with
       | PollOk => [(c_active_epoch c, TxComplete (tx_pre_idle (c_phy c)))]
       | PollCollision => if restarts c then [] else [(c_active_epoch c, TxCollision)]
       | _ => []
       end.

Lemma report_forward_free c poll : core_base c -> tx_busy (c_phy c) = false ->
  tx_busy (c_phy (report_forward_completion c poll)) = false.
Proof.
  intros Hb Hf. unfold report_forward_completion. case_if; [now destruct poll|]. destruct poll; try done.
  - unfold report_frame_sent, push_session_event. cbn zeta. rewrite (proj1 (push_phy _ _ _)).
    now destruct (c_active_expects_backward _).
  - unfold report_collision_or_restart, take_idle_after_break.
    assert (forall c, tx_busy (c_phy c) = false -> tx_busy (c_phy (report_collision c)) = false) as Hrc.
    { clear. intros c H. unfold report_collision, push_session_event. cbn zeta. rewrite (proj1 (push_phy _ _ _)).
      rewrite (qu_busy _ _ (proj2 (keeps_abort _))). exact H. }
    destruct (tx_idle_after_break _); [|now apply Hrc]. unfold restart_after_break.
    destruct (c_pending _); [|now apply Hrc]. case_if; [now apply Hrc|done].
Qed.

Lemma report_collision_link c l :
  core_base c -> observe_at WFree c = l <| l_wire := WFree |> ->
  observe_at WFree (report_collision c) =
    fst (link_abort (l <| l_pending := None |> <| l_expects := false |> <| l_waiting := 0 |> <| l_wire := WFree |>)) /\
  session_log (report_collision c) = log_push (session_log c) (c_active_epoch c, TxCollision).
Proof.
  intros Hb Hl. unfold report_collision, push_session_event, clear_pending.
  set (c1 := c <| c_pending := None |> <| c_active_expects_backward := false |> <| c_session_exchange := 0 |>).
  assert (core_base c1) as H1 by (destruct Hb; split; done).
  destruct (observe_abort WFree c1 H1) as [A1 A2]. pose proof (proj1 (keeps_abort c1) H1) as H2.
  assert (c_active_epoch (abort_batch_tail c1) = c_active_epoch c) as Ee
    by (rewrite (qu_epoch _ _ (proj2 (keeps_abort c1))); done).
  rewrite observe_push, session_log_push, A1, A2, Ee by done. split; [|done].
  assert (observe_at WFree c1 = l <| l_pending := None |> <| l_expects := false |> <| l_waiting := 0 |> <| l_wire := WFree |>) as ->; [|done].
  unfold c1. autorewrite with link. now rewrite Hl.
Qed.

Lemma report_forward_link c poll :
  core_base c -> poll <> PollTransmitting ->
  link_finish (observe_at WForward c) (forward_events c poll) (observe_at WFree (report_forward_completion c poll)) /\
  session_log (report_forward_completion c poll) = foldl log_push (session_log c) (forward_events c poll).
Proof.
  intros Hb Hp. unfold report_forward_completion, forward_events. destruct (ct_active (c_control c)) eqn:Hct.
  - split; [|now destruct poll]. unfold clear_pending.
    destruct poll; autorewrite with link.
    1-3: exact (fin_cancelled (observe_at WForward c) (c_bus_epoch c) eq_refl Hct (or_introl eq_refl)).
    exact (fin_cancelled (observe_at WForward c) (wrapping_sub 8 (c_bus_epoch c) 1) eq_refl Hct (or_intror eq_refl)).
  - destruct poll; [| |done|].
    + unfold report_frame_sent, push_session_event, clear_pending. cbn zeta. rewrite observe_push.
      rewrite session_log_push by (destruct (c_active_expects_backward _); destruct Hb; split; done).
      set (c1 := c <| c_pending := None |>). change (c_active_expects_backward c1) with (c_active_expects_backward c).
      assert (observe_at WFree (if c_active_expects_backward c
                then (c1 <| c_active_expects_backward := false |>)
                  <| c_session_exchange := c_active_epoch (c1 <| c_active_expects_backward := false |>) |>
                else c1 <| c_active_expects_backward := false |>)
         = observe_at WForward c <| l_pending := None |>
            <| l_waiting := if l_expects (observe_at WForward c) then l_exchange (observe_at WForward c)
                            else l_waiting (observe_at WForward c) |>
            <| l_expects := false |> <| l_wire := WFree |>) as ->.
      { change (l_expects (observe_at WForward c)) with (c_active_expects_backward c).
        destruct (c_active_expects_backward c); reflexivity. }
      split; [|now destruct (c_active_expects_backward c)].
      replace (c_active_epoch (if c_active_expects_backward c then _ else _)) with (l_exchange (observe_at WForward c))
        by now destruct (c_active_expects_backward c).
      replace (tx_pre_idle (c_phy (if c_active_expects_backward c then _ else _))) with (tx_pre_idle (c_phy c))
        by now destruct (c_active_expects_backward c).
      now apply fin_sent.
    + unfold report_collision_or_restart, take_idle_after_break, restarts.
      set (c1 := c <| c_phy := _ |>).
      assert (core_base c1) as H1.
      { destruct Hb. split; try done. apply (phy_do_wf (c_phy c) OpTakeIdleAfterBreak I cb_phy0). }
      destruct (report_collision_link c1 (observe_at WForward c) H1 eq_refl) as [R1 R2].
      assert (session_log c1 = session_log c /\ c_active_epoch c1 = c_active_epoch c /\ c_pending c1 = c_pending c /\
        observe_at WFree c1 = observe_at WForward c <| l_wire := WFree |>) as (F1 & F2 & F3 & F4) by done.
      rewrite F1, F2 in R2. clearbody c1. pose proof (fin_collision (observe_at WForward c) eq_refl Hct) as Hcol.
      rewrite <- R1 in Hcol.
      destruct (tx_idle_after_break (c_phy c)); cbn [andb]; [|split; [exact Hcol|exact R2]].
      unfold restart_after_break. rewrite F3.
      destruct (c_pending c) as [r|] eqn:Er; [|split; [exact Hcol|exact R2]].
      destruct (Z.eqb_spec (tr_restart_gate r) 0) as [|Hg]; cbn [negb]; [split; [exact Hcol|exact R2]|].
      autorewrite with link. rewrite F4.
      split; [|exact F1]. exact (fin_restart (observe_at WForward c) r eq_refl Hct Er Hg).
    + autorewrite with link. split; [|done]. exact (fin_yielded (observe_at WForward c) eq_refl Hct).
Qed.

Lemma report_finish c : landed c ->
  let w := if c_active_is_answer c then WAnswer else WForward in
  link_finish (observe_at w c) (report_events c) (observe (report_tx_completion c)) /\
  session_log (report_tx_completion c) = foldl log_push (session_log c) (report_events c).
Proof.
  intros [Hb Hf Hct] w. subst w. unfold report_events, report_tx_completion.
  destruct (poll_frame (c_phy c)) as (P1 & P2 & _ & _ & _ & P3 & P4).
  assert (snd (poll_tx_state (c_phy c)) <> PollTransmitting) as Hpoll.
  { unfold poll_tx_state. repeat case_if; cbn; try done. bprop. apply bool_decide_eq_true in Heqb1.
    rewrite (wf_tx_busy _ (cb_phy c Hb)), Heqb1 in Hf. done. }
  assert (tx_idle_after_break (fst (poll_tx_state (c_phy c))) = tx_idle_after_break (c_phy c)) as P5
    by (unfold poll_tx_state; repeat case_if; done).
  destruct (poll_tx_state (c_phy c)) as [phy poll]. cbn [fst snd] in *. cbn zeta.
  change (c_active_is_answer (c <| c_phy := phy |>)) with (c_active_is_answer c).
  set (c1 := c <| c_phy := phy |> <| c_active_is_answer := false |>).
  assert (core_base c1) as B1 by (destruct Hb; split; try done; auto).
  assert (tx_busy (c_phy c1) = false) as B2 by (unfold c1; cbn; congruence).
  destruct (c_active_is_answer c) eqn:Ha; cbn [orb].
  - rewrite (observe_free (report_answer_completion c1 poll)) by (now destruct poll).
    split; [|now destruct poll].
    replace (observe_at WFree (report_answer_completion c1 poll)) with (observe_at WAnswer c <| l_wire := WFree |>)
      by now destruct poll.
    now constructor.
  - rewrite (observe_free (report_forward_completion c1 poll)) by now apply report_forward_free.
    assert (restarts c1 = restarts c) as Er by (unfold restarts; change (c_phy c1) with phy; now rewrite P5).
    destruct (report_forward_link c1 poll B1 Hpoll) as [F1 F2]. unfold forward_events in *. rewrite Er in *.
    change (c_phy c1) with phy in *. rewrite P3 in *. split; [exact F1|exact F2].
Qed.

(** *** Captures *)

Lemma take_completed_spec s : let '(s', found) := take_completed_rx_event s in
  match found with
  | None => s' = s
  | Some ev => ev = last_rx s /\ rx_state s = Completed /\ tx_busy s' = tx_busy s /\ idlecnt s' = idlecnt s
  end.
Proof.
  unfold take_completed_rx_event, acknowledge_rx_frame. case_if; [done|]. bprop.
  apply bool_decide_eq_true in Heqb. rewrite bool_decide_eq_true_2 by done. done.
Qed.

Lemma completed_free c : core_base c -> rx_state (c_phy c) = Completed -> tx_busy (c_phy c) = false.
Proof. intros [] H. rewrite (wf_tx_busy _ cb_phy0), (wf_completed _ cb_phy0 H). done. Qed.

Lemma same_link_log c c' : same_link c c' -> session_log c' = session_log c.
Proof. now intros (_ & H & _). Qed.

Lemma route_backward_link c ev : core_base c ->
  let evs := if c_session_exchange c =? 0 then [] else [(c_session_exchange c, RxComplete ev)] in
  observe_at WFree (route_backward_capture c ev) = observe_at WFree c <| l_waiting := 0 |> /\
  session_log (route_backward_capture c ev) = foldl log_push (session_log c) evs.
Proof.
  intros Hb evs. unfold evs, route_backward_capture. set (c1 := c <| c_session_exchange := 0 |> <| c_session_rx_started := 0 |>).
  assert (core_base c1) as H1 by (destruct Hb; split; done).
  destruct (c_session_exchange c =? 0); cbn [negb].
  - destruct (same_link_push_sniffer c1 ev) as (S1 & S2 & _). now rewrite S1, S2.
  - now rewrite observe_push, session_log_push.
Qed.

Lemma route_forward_link c ev : core_base c ->
  let l := observe_at WFree c in
  observe_at WFree (route_forward_capture c ev) = fst (link_abort l) <| l_waiting := 0 |> /\
  session_log (route_forward_capture c ev) =
    foldl log_push (session_log c) (snd (link_abort l) ++ foreign_events l (pre_idle_ticks ev) (sample_count ev)).
Proof.
  intros Hb l. unfold route_forward_capture. destruct (observe_abort WFree c Hb) as [A1 A2]. fold l in A1, A2.
  pose proof (proj1 (keeps_abort c) Hb) as H1. rewrite foldl_app, <- A2, <- A1.
  assert (c_session_exchange (abort_batch_tail c) = l_waiting l) as Ew.
  { change (c_session_exchange (abort_batch_tail c)) with (l_waiting (observe_at WFree (abort_batch_tail c))).
    now rewrite A1. }
  generalize dependent (abort_batch_tail c). intros c1 A1 A2 H1 Ew. rewrite Ew.
  set (c2 := c1 <| c_session_exchange := 0 |> <| c_session_rx_started := 0 |>).
  assert (core_base c2) as H2 by (destruct H1; split; done). unfold foreign_events.
  match goal with |- context [push_sniffer_capture ?x ev] => destruct (same_link_push_sniffer x ev) as (S1 & S2 & _) end.
  rewrite S1, S2. destruct (l_waiting l =? 0); cbn [negb]; [done|]. now rewrite observe_push, session_log_push.
Qed.

Lemma drain_link c : core_base c ->
  link_capture (observe c) (capture_events c) (observe (drain_completed_rx c)) /\
  session_log (drain_completed_rx c) = foldl log_push (session_log c) (capture_events c).
Proof.
  intros Hb. pose proof (qu_busy _ _ (proj2 (keeps_drain c))) as Hbusy.
  unfold drain_completed_rx, capture_events, stamped_capture in *. pose proof (take_completed_spec (c_phy c)) as Hs.
  pose proof (phy_do_wf (c_phy c) OpTakeRx I (cb_phy c Hb)) as Hwf. cbn [phy_do] in Hwf.
  destruct (take_completed_rx_event (c_phy c)) as [phy [ev|]]; cbn [fst snd] in *.
  2: { subst phy. split; [constructor|done]. }
  destruct Hs as (-> & Hr & E1 & E2). pose proof (completed_free c Hb Hr) as Hf. rewrite Hf in Hbusy.
  set (c1 := c <| c_phy := phy |>) in *. rewrite (observe_free c Hf).
  assert (core_base c1) as H1 by (destruct Hb; split; done).
  unfold stamp_rx_timing, note_forward_capture in *. cbn zeta in *. rewrite observe_free by exact Hbusy.
  destruct (frame_length_class (sample_count (last_rx (c_phy c)))).
  - match goal with |- context [route_backward_capture ?x ?e] => set (c2 := x); set (ev := e) end.
    assert (core_base c2) as H2 by (destruct H1; split; done).
    destruct (route_backward_link c2 ev H2) as [R1 R2]. rewrite R1, R2.
    change (c_session_exchange c2) with (c_session_exchange c).
    change (observe_at WFree c2) with (observe_at WFree c). split; [|done].
    destruct (Z.eqb_spec (c_session_exchange c) 0) as [E|E].
    + replace (observe_at WFree c <| l_waiting := 0 |>) with (observe_at WFree c); [now constructor|].
      unfold observe_at. cbn. now rewrite E.
    + exact (cap_awaited (observe_at WFree c) ev eq_refl E).
  - match goal with |- context [route_forward_capture ?x ?e] => set (c2 := x); set (ev := e) end.
    assert (core_base c2) as H2 by (destruct H1; split; try done; apply wrap_range; lia).
    destruct (route_forward_link c2 ev H2) as [R1 R2]. rewrite R1, R2.
    split; [|done]. exact (cap_forward (observe_at WFree c) (pre_idle_ticks ev) (sample_count ev) eq_refl).
Qed.

Lemma armed_tick_link c env : core_wf c ->
  core_wf (armed_tick c env) /\ link_arm (link_cancel (observe c)) (observe (armed_tick c env)) /\
  session_log (armed_tick c env) = session_log c.
Proof.
  intros Hc. unfold armed_tick. cbn zeta. set (c0 := _ <| c_probe := _ |>).
  assert (core_wf c0) as H0 by (apply (keeps_wf c); [keeps_frame|done]).
  destruct (observe_arm c0 H0) as [H1 H2]. split; [now apply arm_pending_wf|]. split; [exact H1|exact H2].
Qed.

(** Nothing but the PHY changes between the arming and the report. *)
Lemma sampled_tick_link c env : core_wf c ->
  (if tick_lands c env then landed (sampled_tick c env) else core_wf (sampled_tick c env)) /\
  observe_at (wire_of (armed_tick c env)) (sampled_tick c env) = observe (armed_tick c env) /\
  (tick_lands c env = false -> observe (sampled_tick c env) = observe (armed_tick c env)) /\
  session_log (sampled_tick c env) = session_log (armed_tick c env) /\
  c_active_is_answer (sampled_tick c env) = c_active_is_answer (armed_tick c env).
Proof.
  intros Hc. destruct (armed_tick_link c env Hc) as (H3 & _ & _).
  pose proof (sampled_frame c env) as S. cbn zeta in S. unfold tick_lands.
  assert (keeps (armed_tick c env <| c_phy := tick (c_phy (armed_tick c env)) (env_bus_is_high env) |>)
    (sampled_tick c env)) as K.
  { unfold sampled_tick. cbn zeta. generalize (armed_tick c env). intros c3. etransitivity; [|apply keeps_note_rx_start].
    etransitivity; [|apply keeps_publish]. apply keeps_track. }
  generalize dependent (sampled_tick c env). intros c5.
  generalize dependent (armed_tick c env). clear. intros c3 H3 (S1 & S2 & S3 & S4) K.
  pose proof (phy_tick_wf _ (env_bus_is_high env) H3) as H4. cbn zeta in H4. rewrite S3.
  set (c4 := c3 <| c_phy := _ |>) in *.
  split; [|split; [|split]].
  - change (tx_busy (tick (c_phy c3) (env_bus_is_high env))) with (tx_busy (c_phy c4)).
    destruct (_ && _); [now apply (keeps_landed c4)|now apply (keeps_wf c4)].
  - rewrite S1. apply observe_phy.
  - intros Hl. unfold observe at 1. rewrite S1. unfold c4. rewrite observe_phy. unfold observe. f_equal.
    unfold wire_of. rewrite S3, S4.
    change (c_phy c4) with (tick (c_phy c3) (env_bus_is_high env)) in *.
    change (c_active_is_answer c4) with (c_active_is_answer c3).
    pose proof (tick_busy_off _ (env_bus_is_high env) (cb_phy _ (cw_base _ H3))) as Hoff.
    destruct (tx_busy (c_phy c3)); [|now rewrite (Hoff eq_refl)].
    destruct (tx_busy (tick _ _)); [reflexivity|discriminate].
  - split; [exact S2|exact S4].
Qed.

Lemma isr_tick_link c env : core_wf c ->
  link_tick (observe c) (tick_emits c env) (observe (isr_tick c env)) /\
  session_log (isr_tick c env) = foldl log_push (session_log c) (tick_emits c env).
Proof.
  intros Hc. rewrite isr_tick_stages.
  destruct (armed_tick_link c env Hc) as (_ & A1 & A2).
  destruct (sampled_tick_link c env Hc) as (S1 & S2 & S3 & S4 & S5). unfold tick_emits.
  set (c6 := if tick_lands c env then report_tx_completion (sampled_tick c env) else sampled_tick c env).
  assert (core_wf c6 /\
    link_finish (observe (armed_tick c env)) (if tick_lands c env then report_events (sampled_tick c env) else []) (observe c6) /\
    session_log c6 = foldl log_push (session_log c) (if tick_lands c env then report_events (sampled_tick c env) else []))
    as (W6 & F1 & F2).
  { subst c6. destruct (tick_lands c env) eqn:El.
    - split; [now apply report_completion_wf|]. destruct (report_finish _ S1) as [R1 R2].
      rewrite <- A2, <- S4. split; [|exact R2]. rewrite <- S2.
      assert (wire_of (armed_tick c env) = if c_active_is_answer (sampled_tick c env) then WAnswer else WForward) as ->; [|exact R1].
      unfold wire_of. rewrite S5. unfold tick_lands in El. bprop. now rewrite H.
    - split; [exact S1|]. rewrite (S3 eq_refl), S4, A2. split; [constructor|done]. }
  assert (reported_tick c env = step_held_capture c6) as -> by reflexivity.
  pose proof (keeps_step_held c6) as K. destruct (same_link_step_held c6) as (T1 & T2 & T3 & T4).
  pose proof (keeps_wf _ _ K W6) as W7. destruct (drain_link _ (cw_base _ W7)) as [D1 D2].
  assert (observe (step_held_capture c6) = observe c6) as E7.
  { unfold observe. rewrite T1. unfold wire_of. now rewrite T3, T4. }
  rewrite E7 in D1. rewrite T2, F2, <- foldl_app in D2. split; [|exact D2].
  exists (observe (armed_tick c env)), (observe c6). eauto 10.
Qed.

(** C5: the core implements the link.  Whatever the line does during a tick,
    the tick is one [link_tick] of the abstract link: a requested cancellation,
    at most one arming, the end of the transmission if it ended, and the routing
    of a capture if one is complete; and the events the tick emits are exactly
    [tick_emits], put in that order into the session ring as far as it has room. *)
Theorem core_refines_link c env (Hc : isr_reachable c) :
  link_tick (observe c) (tick_emits c env) (observe (isr_tick c env)) /\
  session_log (isr_tick c env) = foldl log_push (session_log c) (tick_emits c env).
Proof. apply isr_tick_link. now apply isr_reachable_core_wf. Qed.

Lemma core_refines_link_witness :
  let c := foldl isr_do core_new [OpIsrTick (quiet_env true); OpQueueTx (hb_data (encode_forward16_raw 0xFE80)) 38 false (settle 0)] in
  let c' := isr_tick c (quiet_env true) in
  l_wire (observe c) = WFree /\ l_wire (observe c') = WForward /\ link_tick (observe c) (tick_emits c (quiet_env true)) (observe c').
Proof.
  intros c c'. split; [reflexivity|]. split; [by vm_compute|].
  refine (proj1 (core_refines_link c (quiet_env true) _)).
  apply isr_run_reachable; [apply isr_reach_new|]. repeat constructor; by vm_compute.
Defined.

End IsrLink.
