(* ===== verification/IsrSession.v ===== *)
(** * What a session may rely on

    Guarantees over whole runs of the interrupt core, proved on the abstract
    link ([IsrLink]): a cancelled exchange falls silent, and an answer reported
    to an exchange belongs to that exchange's frame. *)

From S2P Require Import Prelude HalfBits PhyFsm Mailbox AnswerTable IsrCore Isr IsrLink.

Module IsrSession.
Import HalfBits PhyFsm Mailbox AnswerTable IsrCore Isr IsrLink.

(** Reasoning on the link never looks inside a tick. *)
#[local] Opaque isr_tick.

(** ** Cancellation *)

(** Nothing of exchange [x], nor anything queued before its cancellation, can
    come out of the link any more. *)
Record silenced (x : Z) (l : link) : Prop := {
  si_requested : l_cancel l = 0;
  si_acknowledged : l_acknowledged l = x;
  si_queue : l_queue l = [];
  si_cell : l_cell l = None;
  si_waiting : l_waiting l <> x;
  si_pending : l_pending l = None \/ l_wire l = WForward /\ l_cancelling l = true;
  si_on_wire : l_wire l = WForward -> l_exchange l = x -> l_cancelling l = true;
}.

Definition not_of (x : Z) (evs : emission) : Prop := Forall (fun e => fst e <> x) evs.

Lemma not_of_one x id ev : id <> x -> not_of x [(id, ev)].
Proof. intros H. now apply Forall_singleton. Qed.

Lemma silenced_arm x l l' : silenced x l -> link_arm l l' ->
  silenced x l' /\ (l_wire l' = WForward -> l_wire l = WForward).
Proof.
  intros [] Ha. assert (l_wire l = WFree -> l_pending l = None) as Hp.
  { intros E. destruct si_pending0 as [|[E' _]]; [done|congruence]. }
  destruct Ha as [l|l Hw|l Hw Hz|l req Hw Hz Hreq].
  - done.
  - split; [split; cbn; auto|]; done.
  - unfold link_take. rewrite (Hp Hw), si_queue0. cbn [l_wire set_field]. cbn. rewrite si_cell0.
    split; [split; cbn; auto|done].
  - unfold link_take in Hreq. rewrite (Hp Hw), si_queue0 in Hreq. cbn in Hreq. congruence.
Qed.

Lemma silenced_finish x l evs l' : silenced x l -> x <> 0 -> link_finish l evs l' ->
  silenced x l' /\ not_of x evs /\ (l_wire l' = WForward -> l_wire l = WForward).
Proof.
  intros [] Hx Hf.
  assert (l_wire l = WForward -> l_cancelling l = false -> l_pending l = None /\ l_exchange l <> x) as Hfw.
  { intros Hw Hc. split; [destruct si_pending0 as [|[_ H]]; [done|congruence]|].
    intros E. specialize (si_on_wire0 Hw E). congruence. }
  destruct Hf as [l|l Hw|l epoch Hw Hc _|l pre Hw Hc|l Hw Hc|l req Hw Hc Hreq Hg|l Hw Hc];
    try (destruct (Hfw Hw Hc) as [Hp He]).
  - split; [done|]. split; [constructor|done].
  - split; [split; cbn; auto|split; [constructor|done]]; try done.
    destruct si_pending0 as [|[H _]]; [auto|congruence].
  - split; [split; cbn; auto|split; [constructor|done]]; done.
  - split; [|split; [now apply not_of_one|done]]. split; cbn; auto; try done. now destruct (l_expects l).
  - split; [|split; [now apply not_of_one|done]]. split; cbn; auto; done.
  - congruence.
  - split; [split; cbn; auto|split; [constructor|done]]; done.
Qed.

Lemma silenced_capture x l evs l' : silenced x l -> x <> 0 -> link_capture l evs l' ->
  silenced x l' /\ not_of x evs /\ (l_wire l' = WForward -> l_wire l = WForward).
Proof.
  intros [] Hx Hc. destruct Hc as [l|l ev Hw Hz|l Hw Hz|l pre count Hw].
  - split; [done|]. split; [constructor|done].
  - split; [|split; [now apply not_of_one|done]]. split; cbn; auto.
  - split; [done|]. split; [constructor|done].
  - assert (l_pending l = None) as Hp by (destruct si_pending0 as [|[H _]]; [done|congruence]).
    unfold link_abort, foreign_events. rewrite Hp. cbn [fst snd app].
    split; [split; cbn; auto|split; [|done]]. destruct (l_waiting l =? 0); [constructor|now apply not_of_one].
Qed.

Lemma silenced_tick x l evs l' : x <> 0 -> silenced x (link_cancel l) -> link_tick l evs l' ->
  silenced x l' /\ not_of x evs /\ (l_wire l' = WForward -> l_wire l = WForward).
Proof.
  intros Hx Hs (l1 & l2 & e1 & e2 & Ha & Hf & Hc & ->).
  destruct (silenced_arm _ _ _ Hs Ha) as [H1 W1]. destruct (silenced_finish _ _ _ _ H1 Hx Hf) as (H2 & N2 & W2).
  destruct (silenced_capture _ _ _ _ H2 Hx Hc) as (H3 & N3 & W3). split; [done|]. split; [now apply Forall_app|].
  intros H. apply W3, W2, W1 in H. unfold link_cancel in H. now destruct (l_cancel l =? 0).
Qed.

Lemma link_cancel_silenced x l : x <> 0 -> l_cancel l = x -> silenced x (link_cancel l).
Proof.
  intros Hx E. unfold link_cancel. rewrite E. apply Z.eqb_neq in Hx as Hx'. rewrite Hx'.
  destruct (bool_decide (l_wire l = WForward) && (l_exchange l =? x)) eqn:Ea.
  - bprop. apply bool_decide_eq_true in H. split; cbn; auto. destruct (Z.eqb_spec (l_waiting l) x); [done|done].
  - split; cbn; auto.
    + destruct (Z.eqb_spec (l_waiting l) x); [done|done].
    + intros Hw He. rewrite bool_decide_eq_true_2 in Ea by done. apply Z.eqb_eq in He. now rewrite He in Ea.
Qed.

Lemma silenced_idle_cancel x l : silenced x l -> link_cancel l = l.
Proof. intros []. unfold link_cancel. now rewrite si_requested0. Qed.

(** The events of a run of ticks. *)
Fixpoint ticks_emit (c : PhyIsrCore) (envs : list tick_env) : emission :=
  match envs with
  | [] => []
  | env :: envs => tick_emits c env ++ ticks_emit (isr_tick c env) envs
  end.

Lemma tick_reachable c env : isr_reachable c -> isr_reachable (isr_tick c env).
Proof. intros H. exact (isr_reach_step c (OpIsrTick env) H I). Qed.

Lemma silenced_run x c envs : x <> 0 -> isr_reachable c -> silenced x (link_cancel (observe c)) -> envs <> [] ->
  let c' := foldl isr_tick c envs in
  silenced x (observe c') /\ not_of x (ticks_emit c envs) /\
  (l_wire (observe c') = WForward -> l_wire (observe c) = WForward).
Proof.
  intros Hx. revert c. induction envs as [|env envs IH]; intros c Hc Hs Hne; [done|]. cbn [foldl ticks_emit].
  destruct (isr_tick_link c env (isr_reachable_core_wf c Hc)) as [Ht _]. destruct (silenced_tick _ _ _ _ Hx Hs Ht) as (H1 & H2 & H3).
  destruct envs as [|env2 envs].
  { split; [exact H1|]. split; [apply Forall_app; split; [exact H2|constructor]|exact H3]. }
  destruct (IH (isr_tick c env)) as (I1 & I2 & I3); [now apply tick_reachable|now rewrite (silenced_idle_cancel x)|done|].
  split; [exact I1|]. split; [apply Forall_app; exact (conj H2 I2)|]. intros H. exact (H3 (I3 H)).
Qed.

Lemma forward_wire c : forward_busy c = true <-> l_wire (observe c) = WForward.
Proof. cbn. unfold forward_busy, wire_of. destruct (tx_busy _), (c_active_is_answer c); cbn; split; done. Qed.

Lemma ticks_log c envs : isr_reachable c ->
  session_log (foldl isr_tick c envs) = foldl log_push (session_log c) (ticks_emit c envs).
Proof.
  revert c. induction envs as [|env envs IH]; intros c Hc; [done|]. cbn [foldl ticks_emit].
  rewrite IH by now apply tick_reachable. rewrite foldl_app. f_equal. apply isr_tick_link. now apply isr_reachable_core_wf.
Qed.

(** C9: a cancelled exchange falls silent.  From the first tick after
    [cancel_exchange], whatever the line does and however long it runs without a
    new submission: the cancellation is acknowledged, no event of that exchange
    is emitted, the exchange does not wait for an answer, nothing submitted
    before is left in the command cell or the batch, and no forward frame
    starts; at most the frame already on the wire is still being transmitted. *)
Theorem cancelled_exchange_silent c x envs (Hc : isr_reachable c) (Hx : x <> 0) (Hne : envs <> []) :
  let c0 := cancel_exchange c x in
  let c' := foldl isr_tick c0 envs in
  cancellation_acknowledged c' x = true /\
  not_of x (ticks_emit c0 envs) /\ session_log c' = foldl log_push (session_log c) (ticks_emit c0 envs) /\
  c_session_exchange c' <> x /\ queued c' = [] /\ cell_request (c_cmd c') = None /\
  (c_pending c' = None \/ forward_busy c' = true) /\
  (forward_busy c' = true -> forward_busy c = true).
Proof.
  intros c0 c'. assert (isr_reachable c0) as H0 by exact (isr_reach_step c (OpCancelExchange x) Hc I).
  assert (silenced x (link_cancel (observe c0))) as Hs by now apply link_cancel_silenced.
  destruct (silenced_run x c0 envs Hx H0 Hs Hne) as ([S1 S2 S3 S4 S5 S6 S7] & N & W). fold c' in S1, S2, S3, S4, S5, S6, S7, W.
  split; [apply Z.eqb_eq; exact S2|]. split; [exact N|]. split; [apply (ticks_log c0 envs H0)|].
  split; [exact S5|]. split; [exact S3|]. split; [exact S4|]. split.
  - destruct S6 as [S6|[S6 _]]; [left; exact S6|right]. now apply forward_wire.
  - intros H. apply forward_wire in H. apply W, forward_wire in H. exact H.
Qed.

(** A frame on the wire, of the exchange that is then cancelled. *)
Lemma cancelled_exchange_silent_witness :
  let c := isr_do example_submitted (OpIsrTick (quiet_env true)) in
  let c0 := cancel_exchange c 1 in
  let envs := replicate 200 (quiet_env true) in
  forward_busy c = true /\ forward_busy (foldl isr_tick c0 envs) = false /\
  cancellation_acknowledged (foldl isr_tick c0 envs) 1 = true /\ not_of 1 (ticks_emit c0 envs).
Proof.
  intros c c0 envs. split; [by vm_compute|]. split; [by vm_compute|].
  destruct (cancelled_exchange_silent c 1 envs) as (H1 & H2 & _); [|done|done|split; [exact H1|exact H2]].
  apply isr_reach_step; [apply example_submitted_reachable|exact I].
Defined.

(** ** Answers *)

(** A run of the core: the events emitted by its ticks, tasks calling in between. *)
Inductive isr_history : PhyIsrCore -> emission -> Prop :=
  | hist_new : isr_history core_new []
  | hist_tick c h env : isr_history c h -> isr_history (isr_tick c env) (h ++ tick_emits c env)
  | hist_call c h op : isr_history c h -> isr_op_ok op -> is_tick op = false -> isr_history (isr_do c op) h.

Lemma history_reachable c h : isr_history c h -> isr_reachable c.
Proof. induction 1; [constructor|now apply tick_reachable|now apply isr_reach_step]. Qed.

(** What ends the wait of an exchange. *)
Definition is_outcome (ev : SessionEvent) : bool :=
  match ev with RxComplete _ | ForeignForward _ _ => true | _ => false end.

Definition is_voided (ev : SessionEvent) : bool := match ev with TxVoided => true | _ => false end.

(** The events about frames that were on the wire. *)
Definition spoken (h : emission) : emission := List.filter (fun e => negb (is_voided (snd e))) h.

(** The last frame of the link's own was [x]'s, and it went through. *)
Definition just_sent (h : emission) (x : Z) : Prop := exists h0 pre_idle, spoken h = h0 ++ [(x, TxComplete pre_idle)].

Definition outcomes_follow (h : emission) : Prop :=
  forall h1 x ev h2, h = h1 ++ (x, ev) :: h2 -> is_outcome ev = true -> just_sent h1 x.

(** The exchange that waits is the one whose frame was sent last. *)
Record session_inv (l : link) (h : emission) : Prop := {
  se_waiting : l_waiting l <> 0 -> just_sent h (l_waiting l);
  se_wire : l_wire l = WForward -> l_waiting l = 0;
  se_follow : outcomes_follow h;
}.

Lemma spoken_app h1 h2 : spoken (h1 ++ h2) = spoken h1 ++ spoken h2.
Proof. apply List.filter_app. Qed.

Lemma outcomes_follow_app h e : outcomes_follow h ->
  (forall e1 x ev e2, e = e1 ++ (x, ev) :: e2 -> is_outcome ev = true -> just_sent (h ++ e1) x) -> outcomes_follow (h ++ e).
Proof.
  intros Hh He h1 x ev h2 E Ho. apply app_eq_inv in E as [(k & E1 & E2)|(k & E1 & E2)].
  - destruct k as [|y k]; cbn in E2.
    + rewrite app_nil_r in E1. subst h1. rewrite <- (app_nil_r h). now apply (He [] x ev h2).
    + injection E2 as <- ->. now apply (Hh h1 x ev k).
  - subst h1. now apply (He k x ev h2).
Qed.

Lemma outcomes_follow_quiet h e : outcomes_follow h -> Forall (fun y => is_outcome (snd y) = false) e -> outcomes_follow (h ++ e).
Proof.
  intros Hh He. apply outcomes_follow_app; [done|]. intros e1 x ev e2 -> Ho.
  apply Forall_app in He as [_ He]. inversion He as [|? ? Hy _]; subst. cbn in Hy. congruence.
Qed.

Lemma session_cancel l h : session_inv l h -> session_inv (link_cancel l) h.
Proof.
  intros [H1 H2 H3]. unfold link_cancel. destruct (l_cancel l =? 0); [now split|]. split; cbn; try done.
  - destruct (l_waiting l =? l_cancel l); [done|exact H1].
  - intros Hw. rewrite (H2 Hw). now destruct (0 =? l_cancel l).
Qed.

Lemma link_take_frame l : l_waiting (link_take l) = l_waiting l /\ l_wire (link_take l) = l_wire l.
Proof. unfold link_take. destruct (l_pending l), (l_queue l); done. Qed.

Lemma session_arm l h l' : session_inv l h -> link_arm l l' -> session_inv l' h.
Proof.
  intros [H1 H2 H3] Ha. destruct Ha as [l|l Hw|l Hw Hz|l req Hw Hz Hreq]; split; cbn; try done;
    destruct (link_take_frame l) as [E1 E2]; rewrite ?E1, ?E2; auto.
Qed.

Lemma just_sent_voided h e x : just_sent h x -> Forall (fun y => is_voided (snd y) = true) e -> just_sent (h ++ e) x.
Proof.
  intros (h0 & pre & E) He. exists h0, pre. rewrite spoken_app, E.
  assert (spoken e = []) as ->; [|apply app_nil_r].
  induction He as [|[y ev] e Hy _ IH]; [done|]. cbn in *. now rewrite Hy.
Qed.

Lemma session_finish l h e l' : session_inv l h -> link_finish l e l' -> session_inv l' (h ++ e).
Proof.
  intros [H1 H2 H3] Hf.
  destruct Hf as [l|l Hw|l epoch Hw Hc _|l pre Hw Hc|l Hw Hc|l req Hw Hc Hreq Hg|l Hw Hc];
    try (rewrite app_nil_r; split; cbn; auto; done).
  - split; cbn; [| |apply outcomes_follow_quiet; [done|repeat constructor]]; [|done].
    destruct (l_expects l).
    + intros _. exists (spoken h), pre. now rewrite spoken_app.
    + rewrite (H2 Hw). done.
  - split; cbn; [done|done|]. apply outcomes_follow_quiet; [done|repeat constructor].
Qed.

Lemma session_capture l h e l' : session_inv l h -> link_capture l e l' -> session_inv l' (h ++ e).
Proof.
  intros [H1 H2 H3] Hc. destruct Hc as [l|l ev Hw Hz|l Hw Hz|l pre count Hw]; try (rewrite app_nil_r; now split).
  - split; cbn; [done|done|]. apply outcomes_follow_app; [done|].
    intros e1 x ev' e2 E Ho. destruct e1 as [|y e1]; [|now destruct e1].
    injection E as <- <- <-. rewrite app_nil_r. auto.
  - split; cbn; [done|done|]. set (voided := match l_pending l with Some r => _ | None => [] end).
    assert (Forall (fun y => is_voided (snd y) = true /\ is_outcome (snd y) = false) voided) as Hv
      by (unfold voided; destruct (l_pending l); repeat constructor).
    rewrite app_assoc. unfold foreign_events. apply outcomes_follow_app.
    + apply outcomes_follow_quiet; [done|]. revert Hv. apply Forall_impl. now intros y [_ H].
    + intros e1 x ev e2 E Ho. destruct (Z.eqb_spec (l_waiting l) 0) as [|Hz]; [now destruct e1|].
      destruct e1 as [|y e1]; [|now destruct e1]. injection E as <- <- <-. rewrite app_nil_r.
      apply just_sent_voided; [auto|]. revert Hv. apply Forall_impl. now intros y [H _].
Qed.

Lemma session_tick l h e l' : session_inv l h -> link_tick l e l' -> session_inv l' (h ++ e).
Proof.
  intros Hs (l1 & l2 & e1 & e2 & Ha & Hf & Hc & ->). rewrite app_assoc.
  eapply session_capture; [|exact Hc]. eapply session_finish; [|exact Hf].
  eapply session_arm; [|exact Ha]. now apply session_cancel.
Qed.

Lemma history_inv c h : isr_history c h -> session_inv (observe c) h.
Proof.
  induction 1 as [|c h env Hh IH|c h op Hh IH Hop Ht].
  - split; [done|done|]. intros h1 x ev h2 E. now destruct h1.
  - eapply session_tick; [exact IH|]. apply isr_tick_link, isr_reachable_core_wf. eapply history_reachable. exact Hh.
  - destruct (keeps_call c op Hop Ht) as [_ Q]. destruct IH as [H1 H2 H3].
    assert (wire_of (isr_do c op) = wire_of c) as Ew.
    { unfold wire_of. now rewrite (qu_busy _ _ Q), (qu_is_answer _ _ Q). }
    split; [| |exact H3].
    + change (l_waiting (observe (isr_do c op))) with (c_session_exchange (isr_do c op)).
      destruct (qu_session _ _ Q) as [-> | ->]; [exact H1|done].
    + change (l_wire (observe (isr_do c op))) with (wire_of (isr_do c op)). rewrite Ew. intros Hw. specialize (H2 Hw).
      change (l_waiting (observe (isr_do c op))) with (c_session_exchange (isr_do c op)).
      destruct (qu_session _ _ Q) as [-> | ->]; [exact H2|done].
Qed.

(** C8: an answer belongs to its exchange's frame.  In any run of the core,
    whatever the line does and the tasks call: every backward frame or foreign
    frame reported to an exchange follows the completion of a frame of that
    exchange, with no other frame of the core's, and no other answer, reported
    in between. *)
Theorem answers_follow_frames c h h1 x ev h2 (Hh : isr_history c h) (E : h = h1 ++ (x, ev) :: h2)
  (Ho : is_outcome ev = true) : just_sent h1 x.
Proof. exact (se_follow _ _ (history_inv c h Hh) h1 x ev h2 E Ho). Qed.


Lemma history_ticks c h envs : isr_history c h -> isr_history (foldl isr_tick c envs) (h ++ ticks_emit c envs).
Proof.
  revert c h. induction envs as [|env envs IH]; intros c h Hh; cbn [foldl ticks_emit]; [now rewrite app_nil_r|].
  rewrite app_assoc. apply IH. now constructor.
Qed.

(** The levels of a query, its settling time and the answer YES. *)
Definition example_exchange_levels : list bool :=
  let wave data n := flat_map (fun h : bool => replicate 4 (negb h)) (frame_half_bits (data_bits data n)) in
  replicate 4 true ++ wave 0xFE80 16%nat ++ replicate 60 true ++ wave 0xFF 8%nat ++ replicate 20 true.

Lemma example_submitted_history : isr_history example_submitted [].
Proof.
  assert (tick_emits core_new (quiet_env true) = []) as E by (vm_compute; reflexivity).
  unfold example_submitted. apply hist_call; [|split; [reflexivity|by vm_compute]|reflexivity].
  change (isr_do core_new (OpIsrTick (quiet_env true))) with (isr_tick core_new (quiet_env true)).
  pose proof (hist_tick core_new [] (quiet_env true) hist_new) as H. rewrite E in H. exact H.
Qed.

Lemma answers_follow_frames_witness :
  exists h1 ev, ticks_emit example_submitted (map quiet_env example_exchange_levels) = h1 ++ (1, RxComplete ev) :: [] /\
    just_sent h1 1.
Proof.
  assert (exists h1 ev, ticks_emit example_submitted (map quiet_env example_exchange_levels) = h1 ++ (1, RxComplete ev) :: [])
    as (h1 & ev & E).
  { eexists [_], _. vm_compute. reflexivity. }
  exists h1, ev. split; [exact E|].
  exact (answers_follow_frames _ _ h1 1 (RxComplete ev) []
    (history_ticks _ [] (map quiet_env example_exchange_levels) example_submitted_history) E eq_refl).
Defined.

End IsrSession.
