(* ===== verification/CalmTick.v ===== *)
(** * One tick of an interrupt core that only listens and answers

    A core is calm when no task has anything to send and no exchange waits.  A
    tick keeps it calm ([IsrLink]); here is what the tick does to what the
    answering of a query goes through: the PHY, the held capture, the answer
    cell, the bus epoch and the clock of wire ticks. *)

From S2P Require Import Prelude HalfBits Manchester PhyFsm RxDecode Loopback Receiver Ring Mailbox AnswerTable IsrCore Isr IsrLink.

Module CalmTick.
Import HalfBits Manchester PhyFsm RxDecode Loopback Receiver Ring Mailbox AnswerTable IsrCore Isr IsrLink.

(** ** Calm *)

Record calm_link (l : link) : Prop := {
  cl_cancel : l_cancel l = 0;
  cl_pending : l_pending l = None;
  cl_queue : l_queue l = [];
  cl_cell : l_cell l = None;
  cl_waiting : l_waiting l = 0;
  cl_wire : l_wire l <> WForward;
}.

Lemma calm_take l : calm_link l -> link_take l = l.
Proof. intros []. destruct l. cbn in *. subst. reflexivity. Qed.

Lemma calm_cancel l : calm_link l -> link_cancel l = l.
Proof. intros []. unfold link_cancel. now rewrite cl_cancel0. Qed.

Lemma calm_link_arm l l' : calm_link l -> link_arm l l' -> calm_link l'.
Proof.
  intros Hl Ha. pose proof (calm_take l Hl) as Et. destruct Ha as [l|l Hw|l Hw Hz|l req Hw Hz Hr].
  - done.
  - now destruct Hl.
  - now rewrite Et.
  - rewrite Et, (cl_pending l Hl) in Hr. discriminate.
Qed.

Lemma calm_link_tick l evs l' : calm_link l -> link_tick l evs l' -> calm_link l'.
Proof.
  intros Hl (l1 & l2 & e1 & e2 & Ha & Hf & Hc & _).
  rewrite (calm_cancel l Hl) in Ha. pose proof (calm_link_arm _ _ Hl Ha) as H1.
  assert (calm_link l2) as H2.
  { clear Ha Hl. pose proof (cl_wire l1 H1) as Hn. destruct Hf; try contradiction; [done|now destruct H1]. }
  clear Ha Hf Hl H1. pose proof (cl_waiting l2 H2). destruct Hc; [done|contradiction|done|]. now destruct H2.
Qed.

Record calm (c : PhyIsrCore) : Prop := { calm_wf : core_wf c; calm_observed : calm_link (observe c) }.

Lemma calm_tick c env : calm c -> calm (isr_tick c env).
Proof.
  intros [Hw Hl]. split; [now apply isr_tick_wf|]. exact (calm_link_tick _ _ _ Hl (proj1 (isr_tick_link c env Hw))).
Qed.

(** ** The parts of a tick *)

(** What the answering of a query goes through, the PHY and the clock apart. *)
Definition answering (c : PhyIsrCore) : AtomicAnswerCell * Z * Z * TablePath :=
  (c_answer c, c_bus_epoch c, forward_edge_tick (c_answer_slot c), c_table_path c).

Lemma same_lane_answering c c' : same_lane c c' -> answering c' = answering c.
Proof. intros (_ & E1 & E2 & _ & _ & E3 & E4). unfold answering. congruence. Qed.

(** *** Arming *)

(** No answer is staged, or its time has not come. *)
Definition not_due (c : PhyIsrCore) : Prop :=
  staged_epoch (c_answer c) = None \/
  staged_epoch (c_answer c) = Some (c_bus_epoch c) /\ ticks_since_forward_edge c < ANSWER_ARM_TARGET_IDLE_TICKS.

Lemma calm_uncancelled c : calm c -> apply_requested_cancel c = c.
Proof.
  intros [_ []]. unfold apply_requested_cancel. change (l_cancel (observe c)) with (ct_requested (c_control c)) in *.
  now rewrite cl_cancel0.
Qed.

Lemma calm_no_request c : calm c -> same_lane c (arm_pending_forward c).
Proof.
  intros [[Hb _ _ _ _] []].
  change (c_pending c = None) in cl_pending0. change (queued c = []) in cl_queue0.
  change (cell_request (c_cmd c) = None) in cl_cell0.
  destruct (next_request_spec c Hb cl_pending0) as (_ & E & _). unfold next_up in E.
  rewrite cl_pending0, cl_queue0, cl_cell0 in E. unfold arm_pending_forward. rewrite cl_pending0.
  assert (same_lane c (fst (next_request c))) as Hs.
  { unfold next_request. destruct (ring_pop _ _) as [q [r|]]; [done|]. destruct (take_command _) as [? [?|]]; done. }
  destruct (next_request c) as [c1 req]. cbn [fst snd] in *. subst req. exact Hs.
Qed.

Lemma try_arm_current c : staged_epoch (c_answer c) = Some (c_bus_epoch c) ->
  try_arm_answer c =
    match answer_gate (ticks_since_forward_edge c) ANSWER_ARM_TARGET_IDLE_TICKS ANSWER_ARM_MAX_IDLE_TICKS with
    | Hold => (c, Held)
    | Expired => expire_staged_answer c
    | Arm late => arm_over_line c (ticks_since_forward_edge c) late
    end.
Proof. intros E. unfold try_arm_answer. now rewrite E, Z.eqb_refl. Qed.

Lemma calm_quiet_arm c : calm c -> tx_busy (c_phy c) = false -> not_due c -> same_lane c (arm_pending_tx c).
Proof.
  intros Hc Hb Hn. unfold arm_pending_tx. rewrite (calm_uncancelled c Hc), Hb.
  destruct Hn as [E|[E Hlt]].
  - unfold try_arm_answer. rewrite E. case_if; [done|]. case_if; [done|]. now apply calm_no_request.
  - rewrite (try_arm_current c E). unfold answer_gate.
    destruct (Z.ltb_spec (ticks_since_forward_edge c) ANSWER_ARM_TARGET_IDLE_TICKS); [done|lia].
Qed.

Lemma calm_busy_arm c : calm c -> tx_busy (c_phy c) = true -> arm_pending_tx c = c.
Proof. intros Hc Hb. unfold arm_pending_tx. now rewrite (calm_uncancelled c Hc), Hb. Qed.

Lemma calm_arm c : calm c -> calm (arm_pending_tx c).
Proof.
  intros [Hw Hl]. split; [now apply arm_pending_wf|]. destruct (observe_arm c Hw) as [Ha _].
  rewrite (calm_cancel _ Hl) in Ha. now apply (calm_link_arm (observe c)).
Qed.

(** The answer's time has come on an idle line: its frame is loaded. *)
Lemma calm_answer_arm c : calm c -> tx_busy (c_phy c) = false -> staged_epoch (c_answer c) = Some (c_bus_epoch c) ->
  line_under_answer c = LineIdle ->
  ANSWER_ARM_TARGET_IDLE_TICKS <= ticks_since_forward_edge c <= ANSWER_ARM_MAX_IDLE_TICKS ->
  let c' := arm_pending_tx c in
  let hb := MkHalfBitBuffer (ac_data (c_answer c)) (ac_len (c_answer c)) in
  c_phy c' = fst (load_tx (c_phy c) hb true) /\ staged_epoch (c_answer c') = None /\
  c_wire_ticks_total c' = c_wire_ticks_total c /\ c_table_path c' = c_table_path c.
Proof.
  intros Hc Hb E Hl Ht c' hb. subst c'. unfold arm_pending_tx. rewrite (calm_uncancelled c Hc), Hb, (try_arm_current c E).
  unfold answer_gate. destruct (Z.ltb_spec (ticks_since_forward_edge c) ANSWER_ARM_TARGET_IDLE_TICKS); [lia|].
  destruct (Z.leb_spec (ticks_since_forward_edge c) ANSWER_ARM_MAX_IDLE_TICKS); [|lia].
  unfold arm_over_line. rewrite Hl. unfold fire_staged_answer, take_answer. unfold staged_epoch in E.
  destruct (ac_state (c_answer c) =? ANSWER_STAGED) eqn:Es; [|done]. cbn [negb] in *. bprop. fold hb.
  pose proof (cb_answer c (cw_base c (calm_wf c Hc)) Es) as [_ Hlen]. cbn [aa_late aa_over_backward aa_since_edge].
  match goal with |- context [start_answer (c_phy ?x) hb] => set (c1 := x) end.
  assert (c_phy c1 = c_phy c /\ staged_epoch (c_answer c1) = None /\ c_wire_ticks_total c1 = c_wire_ticks_total c /\
    c_table_path c1 = c_table_path c) as (S1 & S2 & S3 & S4) by (subst c1; case_if; done).
  clearbody c1. rewrite S1.
  assert (start_answer (c_phy c) hb = (fst (load_tx (c_phy c) hb true), true)) as ->; [|done].
  assert (bus_state (c_phy c) = Idle) as Hi.
  { unfold line_under_answer in Hl. destruct (_ <=? _); [done|]. destruct (bus_state (c_phy c)); try done. now destruct (reception_began_in_the_backward_window c). }
  unfold start_answer. rewrite Hi. unfold load_tx, hb. cbn [hb_length]. case_if; [|done]. lia.
Qed.

(** *** Sampling *)

Lemma armed_tick_calm c env : calm c ->
  exists c0, armed_tick c env = arm_pending_tx c0 /\ same_lane c c0 /\ calm c0.
Proof.
  intros [Hw Hl]. unfold armed_tick. cbn zeta. eexists. split; [reflexivity|]. split; [done|].
  split; [|exact Hl]. apply (keeps_wf c); [keeps_frame|done].
Qed.

Lemma publish_answering c :
  answering (publish_tick_state c) = answering c /\ c_wire_ticks_total (publish_tick_state c) = inc32 (c_wire_ticks_total c).
Proof.
  unfold publish_tick_state. cbn zeta. match goal with |- context [note_wire_ticks ?x _] => set (c1 := x) end.
  assert (answering c1 = answering c /\ c_wire_ticks_total c1 = c_wire_ticks_total c) as [<- <-] by (subst c1; repeat case_if; done).
  clearbody c1. unfold note_wire_ticks, note_session_rx_started.
  destruct (bus_state (c_phy c1)); cbn zeta; case_if; done.
Qed.

Lemma sampled_answering c env : let c3 := armed_tick c env in let c5 := sampled_tick c env in
  c_phy c5 = tick (c_phy c3) (env_bus_is_high env) /\ answering c5 = answering c3 /\
  c_wire_ticks_total c5 = inc32 (c_wire_ticks_total c3).
Proof.
  cbn zeta. destruct (sampled_frame c env) as (_ & _ & -> & _). split; [reflexivity|].
  unfold sampled_tick. cbn zeta. generalize (armed_tick c env). intros c3.
  match goal with |- context [publish_tick_state ?x] =>
    pose proof (publish_answering x) as [E1 E2]; change (answering x) with (answering c3) in E1;
    change (c_wire_ticks_total x) with (c_wire_ticks_total c3) in E2; generalize dependent (publish_tick_state x) end.
  intros c5 E1 E2. unfold note_rx_start. case_if; done.
Qed.

(** *** A tick that neither starts nor ends anything *)

Lemma drain_nothing c : rx_state (c_phy c) <> Completed -> same_lane c (drain_completed_rx c).
Proof.
  intros Hr. unfold drain_completed_rx, take_completed_rx_event. rewrite bool_decide_eq_false_2 by done. done.
Qed.

Definition held (c : PhyIsrCore) : bool := hc_held (tp_held (c_table_path c)).

Lemma step_not_held c : held c = false -> step_held_capture c = c.
Proof. unfold held, step_held_capture. now intros ->. Qed.

Lemma held_answering c c' : answering c' = answering c -> held c' = held c.
Proof. unfold answering, held. congruence. Qed.

(** Nothing is held, no transmission ends and no capture is complete: the PHY
    ticks, and a wire tick is counted. *)
Lemma steady_tick c env : held (armed_tick c env) = false -> tick_lands c env = false ->
  rx_state (tick (c_phy (armed_tick c env)) (env_bus_is_high env)) <> Completed ->
  c_phy (isr_tick c env) = tick (c_phy (armed_tick c env)) (env_bus_is_high env) /\
  answering (isr_tick c env) = answering (armed_tick c env) /\
  c_wire_ticks_total (isr_tick c env) = inc32 (c_wire_ticks_total (armed_tick c env)).
Proof.
  intros Hh Hl Hr. destruct (sampled_answering c env) as (E1 & E2 & E3). rewrite isr_tick_stages. unfold reported_tick.
  rewrite Hl, step_not_held by now rewrite (held_answering _ _ E2). rewrite <- E1 in *.
  pose proof (drain_nothing (sampled_tick c env) Hr) as Hs. pose proof (same_lane_answering _ _ Hs) as Ha.
  destruct Hs as (F1 & _ & _ & _ & F2 & _). rewrite F1, Ha, F2. done.
Qed.

Lemma free_not_landing c env : calm c -> tx_busy (c_phy (armed_tick c env)) = false -> tick_lands c env = false.
Proof. unfold tick_lands. now intros _ ->. Qed.

Lemma listening_arm c env : calm c -> tx_busy (c_phy c) = false -> not_due c -> same_lane c (armed_tick c env).
Proof.
  intros Hc Hb Hn. destruct (armed_tick_calm c env Hc) as (c0 & -> & Hs & H0). transitivity c0; [exact Hs|].
  destruct Hs as (E1 & E2 & E3 & _ & E4 & E5 & _). apply calm_quiet_arm; [done|congruence|].
  unfold not_due, ticks_since_forward_edge in *. now rewrite E2, E3, E4, E5.
Qed.

(** A tick on which nothing is due and nothing completes. *)
Lemma listening_tick c env : calm c -> tx_busy (c_phy c) = false -> not_due c -> held c = false ->
  rx_state (tick (c_phy c) (env_bus_is_high env)) <> Completed ->
  c_phy (isr_tick c env) = tick (c_phy c) (env_bus_is_high env) /\ answering (isr_tick c env) = answering c /\
  c_wire_ticks_total (isr_tick c env) = inc32 (c_wire_ticks_total c).
Proof.
  intros Hc Hb Hn Hh Hr. pose proof (listening_arm c env Hc Hb Hn) as Hs.
  pose proof (same_lane_answering _ _ Hs) as Ha. destruct Hs as (E1 & _ & _ & _ & E2 & _).
  rewrite <- Ha, <- E2, <- E1. apply steady_tick.
  - now rewrite (held_answering _ _ Ha).
  - apply free_not_landing; [done|now rewrite E1].
  - now rewrite E1.
Qed.

(** *** The tick that captures a query *)

Lemma lane_push_session c id ev : same_lane c (push_session_event_for c id ev).
Proof. unfold push_session_event_for. destruct (try_push _ _ _) as [r [|]]; done. Qed.

Lemma lane_push_sniffer c ev : same_lane c (push_to_sniffer_ring c ev).
Proof. unfold push_to_sniffer_ring. destruct (try_push _ _ _) as [r [|]]; done. Qed.

Lemma lane_abort c : same_lane c (abort_batch_tail c).
Proof.
  unfold abort_batch_tail, discard_queued. set (c1 := c <| c_pending := None |> <| c_tx_queue := _ |>).
  assert (same_lane c c1) as H1 by done. clearbody c1. cbn zeta.
  match goal with |- same_lane c (if _ then ?x <| c_batch_aborted := true |> else ?x) => set (c2 := x) end.
  assert (same_lane c1 c2) as H2.
  { subst c2. destruct (c_pending c) as [r|]; [|done].
    transitivity (c1 <| c_tx := c_tx c1 <| tx_voided := inc32 (tx_voided (c_tx c1)) |> |>); [done|apply lane_push_session]. }
  clearbody c2. transitivity c1; [done|]. transitivity c2; [done|]. case_if; done.
Qed.

(** The capture as it is held for decoding. *)
Definition held_as (ev : RxCompletedEvent) : HeldCapture :=
  MkHeldCapture true ev (of_capture (samples ev) (sample_count ev)) (search_new SNIFFED_BIT_LENGTHS).

Lemma push_sniffer_answering c ev : held c = false -> is_forward24_length (sample_count ev) = true ->
  let seq := wrapping_add 32 (tp_sniff_seq (c_table_path c)) 1 in
  let c' := push_sniffer_capture c ev in
  c_phy c' = c_phy c /\ c_wire_ticks_total c' = c_wire_ticks_total c /\
  answering c' = (c_answer c, c_bus_epoch c, forward_edge_tick (c_answer_slot c),
                  c_table_path c <| tp_sniff_seq := seq |> <| tp_held := held_as (ev <| sniff_seq := seq |>) |>).
Proof.
  intros Hh Hl. unfold push_sniffer_capture. change (hc_held (tp_held (c_table_path c))) with (held c). rewrite Hh.
  cbn zeta. change (sample_count (ev <| sniff_seq := _ |>)) with (sample_count ev). rewrite Hl. done.
Qed.

Lemma route_forward_lane c ev : exists c', route_forward_capture c ev = push_sniffer_capture c' ev /\ same_lane c c'.
Proof.
  unfold route_forward_capture. pose proof (lane_abort c) as H. generalize dependent (abort_batch_tail c). intros c1 H.
  eexists. split; [reflexivity|]. transitivity c1; [done|]. case_if; [|done].
  match goal with |- same_lane _ (push_session_event_for ?x _ _) => transitivity x; [done|apply lane_push_session] end.
Qed.

Lemma capture_tick c env : calm c -> tx_busy (c_phy c) = false -> not_due c -> held c = false ->
  let s := tick (c_phy c) (env_bus_is_high env) in
  let epoch := wrapping_add 8 (c_bus_epoch c) 1 in
  let seq := wrapping_add 32 (tp_sniff_seq (c_table_path c)) 1 in
  rx_state s = Completed -> is_forward24_length (sample_count (last_rx s)) = true ->
  let c' := isr_tick c env in
  exists ev, samples ev = samples (last_rx s) /\ sample_count ev = sample_count (last_rx s) /\
    rx_epoch ev = epoch /\ sniff_seq ev = seq /\
    c_phy c' = acknowledge_rx_frame s /\ c_wire_ticks_total c' = inc32 (c_wire_ticks_total c) /\
    answering c' = (c_answer c, epoch, wrapping_sub 32 (inc32 (c_wire_ticks_total c)) (idlecnt s),
                    c_table_path c <| tp_sniff_seq := seq |> <| tp_held := held_as ev |>).
Proof.
  intros Hc Hb Hn Hh s epoch seq Hr Hl c'. pose proof (listening_arm c env Hc Hb Hn) as Hs.
  pose proof (same_lane_answering _ _ Hs) as Ha. destruct Hs as (E1 & _ & _ & _ & E2 & _).
  destruct (sampled_answering c env) as (F1 & F2 & F3). rewrite E1 in F1. rewrite E2 in F3. rewrite Ha in F2.
  subst c'. rewrite isr_tick_stages. unfold reported_tick.
  rewrite free_not_landing by (done || now rewrite E1). rewrite step_not_held by now rewrite (held_answering _ _ F2).
  generalize dependent (sampled_tick c env). intros c5 F1 F2 F3. clear Ha E1 E2. fold s in F1.
  unfold drain_completed_rx, take_completed_rx_event. rewrite F1, bool_decide_eq_true_2 by done. cbn [negb].
  set (c6 := c5 <| c_phy := acknowledge_rx_frame s |>).
  assert (frame_length_class (sample_count (last_rx s)) = ClassForward) as ->.
  { unfold is_forward24_length, frame_length_class in *. bprop.
    assert (FORWARD_LENGTH_MIN_SAMPLES <= FORWARD24_LENGTH_MIN_SAMPLES) by easy.
    destruct (Z.leb_spec FORWARD_LENGTH_MIN_SAMPLES (sample_count (last_rx s))); [done|lia]. }
  cbn zeta beta iota. unfold note_forward_capture, stamp_rx_timing. cbn zeta beta iota.
  match goal with |- context [route_forward_capture ?x ?e] => set (c7 := x); set (ev := e) end.
  assert (idlecnt (c_phy c6) = idlecnt s) as Ei by (unfold c6, acknowledge_rx_frame; cbn; now case_if).
  assert (c_phy c7 = acknowledge_rx_frame s /\ c_wire_ticks_total c7 = inc32 (c_wire_ticks_total c) /\
    answering c7 = (c_answer c, epoch, wrapping_sub 32 (inc32 (c_wire_ticks_total c)) (idlecnt s), c_table_path c)) as (G1 & G2 & G3).
  { injection F2 as A1 A2 A3 A4. rewrite <- F3, <- A1, <- A4. subst epoch. rewrite <- A2, <- Ei. done. }
  assert (samples ev = samples (last_rx s) /\ sample_count ev = sample_count (last_rx s) /\ rx_epoch ev = epoch) as (V1 & V2 & V3).
  { injection F2 as A1 A2 A3 A4. subst epoch. rewrite <- A2. done. }
  clearbody c7 ev. clear c6 Ei F1 F2 F3. destruct (route_forward_lane c7 ev) as (c9 & -> & Hs).
  pose proof (same_lane_answering _ _ Hs) as Ha. rewrite G3 in Ha. destruct Hs as (H1 & _ & _ & _ & H2 & _ & _).
  rewrite G1 in H1. rewrite G2 in H2. rewrite <- V2 in Hl.
  destruct (push_sniffer_answering c9 ev) as (P1 & P2 & P3); [rewrite <- Hh; unfold held; now injection Ha as _ _ _ ->|done|].
  injection Ha as A1 A2 A3 A4. rewrite A1, A2, A3, A4 in P3. rewrite P1, P2, P3, H1, H2.
  exists (ev <| sniff_seq := seq |>). split_and!; done.
Qed.

(** *** The tick that decodes it *)

(** The search ends on this tick with a 24-bit frame the table answers. *)
Lemma step_held_answers c ev search decode table byte cell :
  tp_held (c_table_path c) = held_as ev ->
  search_step (search_new SNIFFED_BIT_LENGTHS) (of_capture (samples ev) (sample_count ev)) = (search, Done (Some decode)) ->
  bit_len decode = FORWARD24_BITS ->
  let frame := (nth 0 (pd_data decode) 0, nth 1 (pd_data decode) 0, nth 2 (pd_data decode) 0) in
  answer (tp_table (c_table_path c)) frame (wrapping_sub 32 (sniff_seq ev) 1) (c_wire_ticks_total c) = (table, Some byte) ->
  stage (c_answer c) (rx_epoch ev) (encode byte BACKWARD_DATA_BITS) = (cell, true) ->
  let c' := step_held_capture c in
  c_phy c' = c_phy c /\ c_wire_ticks_total c' = c_wire_ticks_total c /\ c_answer c' = cell /\
  c_bus_epoch c' = c_bus_epoch c /\ c_answer_slot c' = c_answer_slot c /\ held c' = false.
Proof.
  intros Hh Hsearch Hbits frame Ha Hst c'. subst c'. unfold step_held_capture. rewrite Hh. cbn [hc_held held_as negb hc_search hc_window].
  rewrite Hsearch. cbn zeta. cbn [hc_ev held_as set_field] in *. rewrite Hbits. change (FORWARD24_BITS =? FORWARD24_BITS) with true. cbv iota.
  match goal with |- context [set_held c ?h] => set (c1 := set_held c h) end.
  match goal with |- context [answer_from_table c1 ?f ?e] => set (ev1 := e); change f with frame end.
  match goal with |- context [push_to_sniffer_ring ?x ev1] => set (c2 := x) end.
  assert (c_phy c2 = c_phy c /\ c_wire_ticks_total c2 = c_wire_ticks_total c /\ c_answer c2 = cell /\
    c_bus_epoch c2 = c_bus_epoch c /\ c_answer_slot c2 = c_answer_slot c /\ held c2 = false) as G.
  { subst c2. unfold answer_from_table. cbn zeta.
    change (answer (tp_table (c_table_path c1)) frame _ _) with
      (answer (tp_table (c_table_path c)) frame (wrapping_sub 32 (sniff_seq ev) 1) (c_wire_ticks_total c)).
    rewrite Ha.
    match goal with |- context [stage (c_answer ?x) ?e ?hb] => change (stage (c_answer x) e hb) with (stage (c_answer c) (rx_epoch ev) (encode byte BACKWARD_DATA_BITS)) end.
    rewrite Hst. done. }
  clearbody c2. destruct G as (G1 & G2 & G3 & G4 & G5 & G6).
  destruct (lane_push_sniffer c2 ev1) as (L1 & L2 & L3 & _ & L4 & L5 & L6).
  split_and!; try congruence. unfold held in *. now rewrite L6.
Qed.

Lemma decode_tick c env ev search decode table byte cell : calm c -> tx_busy (c_phy c) = false -> not_due c ->
  tp_held (c_table_path c) = held_as ev ->
  rx_state (tick (c_phy c) (env_bus_is_high env)) <> Completed ->
  search_step (search_new SNIFFED_BIT_LENGTHS) (of_capture (samples ev) (sample_count ev)) = (search, Done (Some decode)) ->
  bit_len decode = FORWARD24_BITS ->
  let frame := (nth 0 (pd_data decode) 0, nth 1 (pd_data decode) 0, nth 2 (pd_data decode) 0) in
  answer (tp_table (c_table_path c)) frame (wrapping_sub 32 (sniff_seq ev) 1) (inc32 (c_wire_ticks_total c)) = (table, Some byte) ->
  stage (c_answer c) (rx_epoch ev) (encode byte BACKWARD_DATA_BITS) = (cell, true) ->
  let c' := isr_tick c env in
  c_phy c' = tick (c_phy c) (env_bus_is_high env) /\ c_wire_ticks_total c' = inc32 (c_wire_ticks_total c) /\ c_answer c' = cell /\
  c_bus_epoch c' = c_bus_epoch c /\ forward_edge_tick (c_answer_slot c') = forward_edge_tick (c_answer_slot c) /\ held c' = false.
Proof.
  intros Hc Hb Hn Hh Hr Hsearch Hbits frame Ha Hst c'. pose proof (listening_arm c env Hc Hb Hn) as Hs.
  pose proof (same_lane_answering _ _ Hs) as Ea. destruct Hs as (E1 & _ & _ & _ & E2 & _).
  destruct (sampled_answering c env) as (F1 & F2 & F3). rewrite E1 in F1. rewrite E2 in F3. rewrite Ea in F2.
  injection F2 as A1 A2 A3 A4.
  subst c'. rewrite isr_tick_stages. unfold reported_tick. rewrite free_not_landing by (done || now rewrite E1).
  rewrite <- F1 in *. rewrite <- F3, <- A4 in Ha. rewrite <- A4 in Hh. rewrite <- A1 in Hst.
  destruct (step_held_answers _ ev search decode table byte cell Hh Hsearch Hbits Ha Hst) as (G1 & G2 & G3 & G4 & G5 & G6).
  generalize dependent (step_held_capture (sampled_tick c env)). intros c6 G1 G2 G3 G4 G5 G6.
  rewrite <- G1 in Hr. destruct (drain_nothing c6 Hr) as (L1 & L2 & L3 & _ & L4 & L5 & L6).
  split_and!; try congruence. unfold held in *. now rewrite L6.
Qed.

(** *** The tick that starts the answer, and those that transmit it *)

Lemma answer_tick c env : calm c -> tx_busy (c_phy c) = false -> staged_epoch (c_answer c) = Some (c_bus_epoch c) ->
  line_under_answer c = LineIdle -> held c = false ->
  ANSWER_ARM_TARGET_IDLE_TICKS <= ticks_since_forward_edge c <= ANSWER_ARM_MAX_IDLE_TICKS ->
  let hb := MkHalfBitBuffer (ac_data (c_answer c)) (ac_len (c_answer c)) in
  let c' := isr_tick c env in
  tx_busy (tick (fst (load_tx (c_phy c) hb true)) (env_bus_is_high env)) = true ->
  c_phy c' = tick (fst (load_tx (c_phy c) hb true)) (env_bus_is_high env) /\ staged_epoch (c_answer c') = None /\ held c' = false.
Proof.
  intros Hc Hb Hst Hl Hh Ht hb c' Hbusy. subst c'. destruct (armed_tick_calm c env Hc) as (c0 & E & Hs & H0).
  destruct Hs as (E1 & E2 & E3 & _ & E4 & E5 & E6).
  assert (ticks_since_forward_edge c0 = ticks_since_forward_edge c) as Et by (unfold ticks_since_forward_edge; now rewrite E4, E5).
  assert (line_under_answer c0 = LineIdle) as Hl0.
  { rewrite <- Hl. unfold line_under_answer, reception_began_in_the_backward_window. now rewrite E1, E5. }
  pose proof (calm_answer_arm c0 H0) as Ha. cbn zeta in Ha. rewrite E1, E2, E3, Et in Ha.
  destruct (Ha Hb Hst Hl0 Ht) as (A1 & A2 & _ & A4). rewrite <- E in A1, A2, A4. fold hb in A1. clear Ha.
  assert (held (armed_tick c env) = false) as Hh' by (unfold held in *; now rewrite A4, E6).
  rewrite <- A1 in *. destruct (sampled_answering c env) as (S1 & _). rewrite <- S1 in Hbusy.
  assert (tick_lands c env = false) as Hland by (unfold tick_lands; rewrite Hbusy; apply andb_false_r).
  assert (core_wf (sampled_tick c env)) as Hw.
  { destruct (sampled_tick_link c env (calm_wf c Hc)) as [H _]. now rewrite Hland in H. }
  destruct (steady_tick c env Hh' Hland) as (T1 & T2 & _).
  - rewrite <- S1. intros Hr. pose proof (completed_free _ (cw_base _ Hw) Hr). congruence.
  - split; [exact T1|]. pose proof (held_answering _ _ T2) as Eh. clear - T2 A2 Hh' Eh.
    generalize dependent (isr_tick c env). intros c' E Eh. rewrite Eh. split; [|exact Hh'].
    generalize dependent (armed_tick c env). intros c3 A2 Hh' E Eh. injection E as -> _ _ _. exact A2.
Qed.

Lemma transmitting_arm c env : calm c -> tx_busy (c_phy c) = true -> same_lane c (armed_tick c env).
Proof.
  intros Hc Hb. destruct (armed_tick_calm c env Hc) as (c0 & -> & Hs & H0). rewrite calm_busy_arm; [done..|].
  destruct Hs as (-> & _). exact Hb.
Qed.

(** While it transmits the core is its PHY. *)
Lemma transmitting_tick c env : calm c -> tx_busy (c_phy c) = true -> held c = false ->
  let s := tick (c_phy c) (env_bus_is_high env) in
  let c' := isr_tick c env in
  (tx_busy s = false -> rx_state s <> Completed) ->
  held c' = false /\ c_answer c' = c_answer c /\
  if tx_busy s then c_phy c' = s
  else tx_busy (c_phy c') = false /\ bus_state (c_phy c') = bus_state s /\ rx_state (c_phy c') = rx_state s.
Proof.
  intros Hc Hb Hh s c' Hdone. pose proof (transmitting_arm c env Hc Hb) as Hs. pose proof (same_lane_answering _ _ Hs) as Ea.
  destruct Hs as (E1 & _ & _ & E2 & _). destruct (sampled_answering c env) as (F1 & F2 & _).
  destruct (sampled_tick_link c env (calm_wf c Hc)) as (W & _ & _ & _ & Hans). rewrite E1 in F1. rewrite Ea in F2. fold s in F1.
  assert (c_active_is_answer c = true) as Hisans.
  { pose proof (cl_wire _ (calm_observed c Hc)) as Hw. cbn in Hw. unfold wire_of in Hw. rewrite Hb in Hw.
    now destruct (c_active_is_answer c). }
  assert (tick_lands c env = negb (tx_busy s)) as El by (unfold tick_lands; now rewrite E1, Hb, F1).
  rewrite E2, Hisans in Hans. subst c'. rewrite isr_tick_stages. unfold reported_tick. rewrite El in *.
  generalize dependent (sampled_tick c env). intros c5 F1 F2 W Hans. clear El E1 E2 Ea.
  pose proof (held_answering _ _ F2) as Eh. rewrite Hh in Eh. injection F2 as A1 A2 A3 A4. destruct (tx_busy s) eqn:Hbs; cbn [negb] in *.
  - rewrite step_not_held by done. assert (rx_state (c_phy c5) <> Completed) as Hr.
    { intros Hr. pose proof (completed_free _ (cw_base _ W) Hr). congruence. }
    destruct (drain_nothing c5 Hr) as (L1 & L2 & _ & _ & _ & _ & L6). unfold held in *. rewrite L1, L2, L6. done.
  - unfold report_tx_completion. rewrite F1. destruct (poll_frame s) as (_ & P2 & _ & _ & _ & _ & P3).
    assert (rx_state (fst (poll_tx_state s)) = rx_state s) as P4 by (unfold poll_tx_state; repeat case_if; done).
    destruct (poll_tx_state s) as [phy poll]. cbn [fst] in *. cbn zeta.
    change (c_active_is_answer (c5 <| c_phy := phy |>)) with (c_active_is_answer c5). rewrite Hans. cbv iota.
    match goal with |- context [report_answer_completion ?x poll] => set (c6 := report_answer_completion x poll) end.
    assert (c_phy c6 = phy /\ c_answer c6 = c_answer c5 /\ c_table_path c6 = c_table_path c5) as (G1 & G2 & G3) by (subst c6; now destruct poll).
    clearbody c6. rewrite step_not_held by (unfold held in *; now rewrite G3).
    destruct (drain_nothing c6) as (L1 & L2 & _ & _ & _ & _ & L6); [rewrite G1, P4; auto|].
    unfold held in *. rewrite L1, L2, L6, G1, G2, G3, P2, P3, P4. done.
Qed.

End CalmTick.
