(* ===== verification/WireAnswer.v ===== *)
(** * A query on the wire, answered on the wire

    Composes the development: a unit puts a 24-bit query on the line
    ([Loopback]); the interrupt core captures it ([Receiver], [Reception]),
    decodes it ([Manchester]), finds the answer in its table ([AnswerTable]),
    stages it ([Mailbox]), waits for its window and transmits it ([CalmTick]);
    and the unit that asked receives the answer. *)

From S2P Require Import Prelude HalfBits Manchester ManchesterIdeal PhyFsm RxDecode Loopback Receiver Reception.
From S2P Require Import Ring Mailbox AnswerTable IsrCore Isr IsrLink CalmTick.

Module WireAnswer.
Import HalfBits Manchester ManchesterIdeal PhyFsm RxDecode Loopback Receiver Reception Ring Mailbox AnswerTable
  IsrCore Isr IsrLink CalmTick.

#[local] Opaque isr_tick.

(** ** The line of two units *)

Definition at_level (env : tick_env) (level : bool) : tick_env :=
  MkTickEnv level (env_core env) (env_clock env) (env_word env).

Definition network : Type := DaliBitbangPhy * PhyIsrCore.

Definition net_level (n : network) : bool := hal_high (fst n) && hal_high (c_phy (snd n)).

(** Both sample the level driven since the tick before. *)
Definition net_tick (n : network) (env : tick_env) : network :=
  (tick (fst n) (net_level n), isr_tick (snd n) (at_level env (net_level n))).

Definition net_run (n : network) (envs : list tick_env) : network := foldl net_tick n envs.

Fixpoint net_levels (n : network) (envs : list tick_env) : list bool :=
  match envs with
  | [] => []
  | env :: envs => net_level n :: net_levels (net_tick n env) envs
  end.

Lemma net_run_app n l1 l2 : net_run n (l1 ++ l2) = net_run (net_run n l1) l2.
Proof. apply foldl_app. Qed.

Lemma net_levels_app n l1 l2 : net_levels n (l1 ++ l2) = net_levels n l1 ++ net_levels (net_run n l1) l2.
Proof. revert n. induction l1 as [|env l1 IH]; intros n; [done|]. cbn [net_levels app]. now rewrite IH. Qed.

(** ** The core listens *)

(** As [not_due], [k] ticks from now. *)
Definition not_due_after (c : PhyIsrCore) (k : nat) : Prop :=
  staged_epoch (c_answer c) = None \/
  staged_epoch (c_answer c) = Some (c_bus_epoch c) /\
  wrapping_sub 32 (c_wire_ticks_total c + Z.of_nat k) (forward_edge_tick (c_answer_slot c)) < ANSWER_ARM_TARGET_IDLE_TICKS.

Lemma wrapping_sub_mod w a a' b : 0 <= w -> wrap w a = wrap w a' -> wrapping_sub w a b = wrapping_sub w a' b.
Proof.
  unfold wrapping_sub, wrap. intros Hw E. rewrite <- (Zminus_mod_idemp_l a), <- (Zminus_mod_idemp_l a'). now rewrite E.
Qed.

Lemma wrap_inc32 z k : wrap 32 (inc32 z + k) = wrap 32 (z + 1 + k).
Proof. unfold inc32, wrapping_add, wrap. apply Zplus_mod_idemp_l. Qed.

Lemma not_due_now c : not_due_after c 0 -> not_due c.
Proof.
  intros [H|[H1 H2]]; [now left|right]. split; [done|]. rewrite Z.add_0_r in H2. unfold ticks_since_forward_edge.
  case_if; [|exact H2]. change ANSWER_ARM_TARGET_IDLE_TICKS with 59 in *. change (umax 16) with 65535 in *. lia.
Qed.

(** The parts the lemmas below thread along. *)
Record listening (c : PhyIsrCore) : Prop := {
  li_calm : calm c;
  li_free : tx_busy (c_phy c) = false;
  li_held : held c = false;
}.

Lemma free_high c : core_wf c -> tx_busy (c_phy c) = false -> hal_high (c_phy c) = true.
Proof.
  intros Hc Hb. pose proof (cb_phy _ (cw_base _ Hc)) as Hw. destruct (hal_high (c_phy c)) eqn:E; [done|].
  apply (wf_released _ Hw) in E. rewrite (wf_tx_busy _ Hw) in Hb. congruence.
Qed.

Lemma phy_of_wf c : calm c -> phy_wf (c_phy c).
Proof. intros Hc. exact (cb_phy _ (cw_base _ (calm_wf _ Hc))). Qed.

(** As long as no capture completes and no answer is due, the core is a
    receiver of the levels the other unit drives. *)
Lemma net_listen envs a c : let n := length envs in
  listening c -> (forall k, (k < n)%nat -> not_due_after c k) ->
  (forall k, (1 <= k <= n)%nat -> rx_state (run_ticks (c_phy c) (take k (drive_trace n a))) <> Completed) ->
  net_levels (a, c) envs = drive_trace n a /\
  exists c', net_run (a, c) envs = (Nat.iter n self_tick a, c') /\ listening c' /\
    c_phy c' = run_ticks (c_phy c) (drive_trace n a) /\ answering c' = answering c /\
    wrap 32 (c_wire_ticks_total c') = wrap 32 (c_wire_ticks_total c + Z.of_nat n).
Proof.
  cbn zeta. revert a c. induction envs as [|env envs IH]; intros a c [Hc Hf Hh] Hd Hr.
  { split; [done|]. exists c. split_and!; try done. now rewrite Z.add_0_r. }
  cbn [length drive_trace net_levels] in *. change (net_run (a, c) (env :: envs)) with (net_run (net_tick (a, c) env) envs).
  unfold net_tick. cbn [fst snd].
  assert (net_level (a, c) = hal_high a) as Hlev
    by (unfold net_level; cbn [fst snd]; now rewrite (free_high c (calm_wf c Hc) Hf), andb_true_r).
  rewrite Hlev. set (env1 := at_level env (hal_high a)).
  pose proof (Hr 1%nat ltac:(lia)) as Hr1. change (run_ticks (c_phy c) (take 1 _)) with (tick (c_phy c) (hal_high a)) in Hr1.
  destruct (listening_tick c env1 Hc Hf (not_due_now c (Hd 0%nat ltac:(lia))) Hh Hr1) as (T1 & T2 & T3).
  change (env_bus_is_high env1) with (hal_high a) in *.
  pose proof (calm_tick c env1 Hc) as Hc1. fold (self_tick a). generalize dependent (isr_tick c env1). intros c1 T1 T2 T3 Hc1.
  assert (listening c1) as Hl1.
  { split; [done| |now rewrite (held_answering _ _ T2)]. rewrite T1. now apply tick_busy_off; [apply phy_of_wf|]. }
  pose proof T2 as T2'. injection T2 as A1 A2 A3 A4.
  destruct (IH (self_tick a) c1 Hl1) as (L & c' & R1 & R2 & R3 & R4 & R5).
  - intros k Hk. specialize (Hd (S k) ltac:(lia)). unfold not_due_after in *. rewrite A1, A2, A3, T3.
    rewrite (wrapping_sub_mod 32 _ (c_wire_ticks_total c + Z.of_nat (S k))); [exact Hd|lia|].
    rewrite wrap_inc32. f_equal. lia.
  - intros k Hk. specialize (Hr (S k) ltac:(lia)). cbn [take] in Hr. rewrite T1. exact Hr.
  - rewrite L. split; [done|]. exists c'. rewrite R1, R3, R4, R5, T1, T2', T3, wrap_inc32, Nat.iter_succ_r.
    split_and!; try done. f_equal. lia.
Qed.

(** ** The core answers *)

Record sends (c : PhyIsrCore) (p : DaliBitbangPhy) : Prop := {
  se_calm : calm c;
  se_held : held c = false;
  se_staged : staged_epoch (c_answer c) = None;
  se_wf : phy_wf p;
  se_busy : if tx_busy p then c_phy c = p
            else tx_busy (c_phy c) = false /\ bus_state (c_phy c) = Idle /\ rx_state (c_phy c) <> Completed;
}.

Lemma sends_level c p : sends c p -> hal_high (c_phy c) = hal_high p.
Proof.
  intros []. destruct (tx_busy p) eqn:Hb; [now rewrite se_busy0|]. destruct se_busy0 as (Hf & _ & _).
  rewrite (free_high c (calm_wf c se_calm0) Hf). destruct (hal_high p) eqn:E; [done|].
  apply (wf_released p se_wf0) in E. rewrite (wf_tx_busy p se_wf0) in Hb. congruence.
Qed.

Lemma sends_tick c p env : sends c p -> env_bus_is_high env = hal_high p -> sends (isr_tick c env) (self_tick p).
Proof.
  intros Hs Hlev. pose proof (sends_level c p Hs) as Hh. destruct Hs. pose proof (tick_wf p (hal_high p) se_wf0) as Hw.
  fold (self_tick p) in Hw. pose proof (calm_tick c env se_calm0) as Hc1. destruct (tx_busy p) eqn:Hb.
  - rewrite <- se_busy0 in Hb. pose proof (transmitting_tick c env se_calm0 Hb se_held0) as T.
    rewrite Hlev, se_busy0 in T. fold (self_tick p) in T. cbn zeta in T.
    assert (tx_busy (self_tick p) = false -> rx_state (self_tick p) <> Completed) as Hn.
    { intros _ Hr. rewrite se_busy0 in Hb. apply tick_completes in Hr as [Hr|Hr].
      - apply (wf_completed _ se_wf0) in Hr. rewrite (wf_tx_busy _ se_wf0), Hr in Hb. discriminate.
      - rewrite (wf_tx_busy _ se_wf0), Hr in Hb. discriminate. }
    destruct (T Hn) as (T1 & T2 & T3). split; [done|done|now rewrite T2|done|].
    destruct (tx_busy (self_tick p)) eqn:Hb1; [exact T3|]. destruct T3 as (B1 & B2 & B3). rewrite B2, B3. split_and!; try done; auto.
    rewrite (wf_tx_busy _ Hw) in Hb1. rewrite se_busy0, (wf_tx_busy _ se_wf0) in Hb. now apply tick_tx_ends.
  - destruct se_busy0 as (Hf & Hi & Hr). rewrite (free_high c (calm_wf c se_calm0) Hf) in Hh.
    assert (not_due c) as Hn by now left.
    assert (rx_state (tick (c_phy c) true) = rx_state (c_phy c)) as Er.
    { rewrite tick_dispatch, Hi. unfold tick_idle. case_if; done. }
    destruct (listening_tick c env se_calm0 Hf Hn se_held0) as (T1 & T2 & _); [rewrite Hlev, <- Hh, Er; exact Hr|].
    rewrite Hlev, <- Hh in T1. split; [done|now rewrite (held_answering _ _ T2)| |done|].
    + generalize dependent (isr_tick c env). intros c1 _ _ T2. injection T2 as -> _ _ _. done.
    + unfold self_tick. rewrite <- Hh, (tick_busy_off p true se_wf0 Hb), T1, Er.
      split_and!; [now apply tick_busy_off; [apply phy_of_wf|]|now apply rx_idle_high|exact Hr].
Qed.

(** While the core answers, the other unit receives the answer's waveform. *)
Lemma net_answer envs a c p : phy_wf a -> transmitting (bus_state a) = false -> sends c p ->
  net_levels (a, c) envs = drive_trace (length envs) p /\
  exists c', net_run (a, c) envs = (run_ticks a (drive_trace (length envs) p), c').
Proof.
  revert a c p. induction envs as [|env envs IH]; intros a c p Ha Hat Hs; [split; [done|now exists c]|].
  cbn [length drive_trace net_levels]. change (net_run (a, c) (env :: envs)) with (net_run (net_tick (a, c) env) envs).
  assert (hal_high a = true) as Hah by (destruct (hal_high a) eqn:E; [done|]; apply (wf_released a Ha) in E; congruence).
  assert (net_level (a, c) = hal_high p) as Hlev by (unfold net_level; cbn [fst snd]; now rewrite Hah, (sends_level c p Hs)).
  unfold net_tick. cbn [fst snd]. rewrite Hlev.
  destruct (IH (tick a (hal_high p)) (isr_tick c (at_level env (hal_high p))) (self_tick p)) as (L & c' & R).
  - now apply tick_wf.
  - now apply tick_not_tx.
  - now apply sends_tick.
  - rewrite L. split; [done|]. exists c'. exact R.
Qed.

(** ** The query *)

Lemma length_drive_trace n a : length (drive_trace n a) = n.
Proof. revert a. induction n as [|n IH]; intros a; [done|]. cbn [drive_trace length]. now rewrite IH. Qed.

Lemma drive_trace_take n k a : (k <= n)%nat -> take k (drive_trace n a) = drive_trace k a.
Proof.
  intros Hk. replace n with (k + (n - k))%nat by lia. rewrite drive_trace_add, take_app_length'; [done|].
  symmetry. apply length_drive_trace.
Qed.

Lemma drive_trace_S n a : drive_trace (S n) a = drive_trace n a ++ [hal_high (Nat.iter n self_tick a)].
Proof. replace (S n) with (n + 1)%nat by lia. now rewrite drive_trace_add. Qed.

(** The ticks until the query's capture is complete. *)
Definition query_ticks (d : Z) : nat := length (reception_levels (data_bits d 24)).

(** The core's time between the capture and the start of the answer. *)
Definition answer_wait : nat := 43.

Lemma length_bit_waves bits : length (flat_map bit_wave bits) = (8 * length bits)%nat.
Proof.
  induction bits as [|b bits IH]; [done|]. change (flat_map bit_wave (b :: bits)) with (bit_wave b ++ flat_map bit_wave bits).
  rewrite length_app, IH. destruct b; cbn; lia.
Qed.

Lemma query_ticks_waveform d : (query_ticks d + answer_wait
  = 4 + length (frame_waveform (data_bits d 24)) + (answer_wait - Z.to_nat (idle_after (last_bit (data_bits d 24)))))%nat.
Proof.
  unfold query_ticks, reception_levels. rewrite length_frame_waveform, !length_app, !length_replicate, length_data_bits.
  rewrite length_bit_waves, length_data_bits.
  unfold answer_wait. destruct (last_bit _); cbn; lia.
Qed.

Lemma query_trace a d : phy_wf a -> bus_state a = Idle ->
  let a0 := fst (start_tx a (encode_to_half_bits d 24)) in
  drive_trace (query_ticks d + answer_wait) a0 = reception_levels (data_bits d 24) ++ replicate answer_wait true /\
  tx_done (Nat.iter (query_ticks d + answer_wait) self_tick a0).
Proof.
  intros Ha Hi a0. subst a0. set (bits := data_bits d 24).
  assert (represents (encode_to_half_bits d 24) (frame_half_bits bits)) as Hrep by (apply (represents_encode d 24); lia).
  rewrite query_ticks_waveform. fold bits.
  destruct (tx_waveform (answer_wait - Z.to_nat (idle_after (last_bit bits))) a _ bits Ha Hi Hrep) as (_ & -> & Hdone).
  split; [|exact Hdone]. rewrite frame_waveform_bits. unfold reception_levels. rewrite <- !app_assoc. do 3 f_equal.
  rewrite <- !replicate_add. f_equal. unfold answer_wait. destruct (last_bit bits); cbn; lia.
Qed.

(** ** The capture *)

(** The core holds the capture of query [d], in the frame's epoch, [16] ticks
    after the frame's last edge. *)
Record captured (c c' : PhyIsrCore) (d : Z) (ev : RxCompletedEvent) : Prop := {
  ca_calm : calm c';
  ca_free : tx_busy (c_phy c') = false;
  ca_idle : bus_state (c_phy c') = Idle;
  ca_empty : rx_state (c_phy c') <> Completed;
  ca_answer : c_answer c' = c_answer c;
  ca_table : tp_table (c_table_path c') = tp_table (c_table_path c);
  ca_held : tp_held (c_table_path c') = held_as ev;
  ca_epoch : rx_epoch ev = c_bus_epoch c';
  ca_seq : sniff_seq ev = wrapping_add 32 (latest_capture c) 1;
  ca_total : wrap 32 (c_wire_ticks_total c') = wrap 32 (c_wire_ticks_total c + Z.of_nat (query_ticks d));
  ca_edge : forward_edge_tick (c_answer_slot c') = wrapping_sub 32 (c_wire_ticks_total c') 16;
  ca_window : ideal_window (of_capture (samples ev) (sample_count ev)) (data_bits d 24);
}.

(** What the core is before the query. *)
Record attentive (c : PhyIsrCore) : Prop := {
  at_link : calm_link (observe c);
  at_held : held c = false;
  at_idle : bus_state (c_phy c) = Idle;
  at_empty : rx_state (c_phy c) <> Completed;
  at_unstaged : ac_state (c_answer c) = ANSWER_IDLE;
}.

Lemma attentive_listening c : core_wf c -> attentive c -> listening c.
Proof.
  intros Hc []. split; [now split| |done]. now rewrite (wf_tx_busy _ (cb_phy _ (cw_base _ Hc))), at_idle0.
Qed.

Lemma query_ticks_pos d : exists n, query_ticks d = S n.
Proof. unfold query_ticks, reception_levels. rewrite length_app, length_replicate. cbn. eauto. Qed.

Lemma net_captures a c d envs : let a0 := fst (start_tx a (encode_to_half_bits d 24)) in let n := query_ticks d in
  phy_wf a -> bus_state a = Idle -> core_wf c -> attentive c -> length envs = n ->
  net_levels (a0, c) envs = reception_levels (data_bits d 24) /\
  exists c' ev, net_run (a0, c) envs = (Nat.iter n self_tick a0, c') /\ captured c c' d ev.
Proof.
  intros a0 n Ha Hai Hc Hat Hlen. pose proof (attentive_listening c Hc Hat) as Hl. destruct Hat as [_ _ Hi Hr Hst]. destruct (query_trace a d Ha Hai) as [Htr _]. fold a0 in Htr.
  assert (drive_trace n a0 = reception_levels (data_bits d 24)) as Hrl.
  { rewrite <- (drive_trace_take (query_ticks d + answer_wait)), Htr by lia. now rewrite take_app_length'. }
  assert (forall k, (k <= n)%nat -> drive_trace k a0 = take k (reception_levels (data_bits d 24))) as Hpre.
  { intros k Hk. now rewrite <- Hrl, drive_trace_take. }
  destruct (query_ticks_pos d) as [n' En]. fold n in En.
  destruct (exists_last (l := envs)) as (envs' & env & ->); [intros ->; cbn in Hlen; lia|].
  rewrite length_app in Hlen. cbn [length] in Hlen. assert (length envs' = n') as Hlen' by lia.
  destruct (net_listen envs' a0 c Hl) as (L & c1 & R1 & R2 & R3 & R4 & R5).
  - left. unfold staged_epoch. now rewrite Hst.
  - intros k Hk. rewrite drive_trace_take by lia. rewrite Hpre by lia. apply reception_pending; [done|done|].
    fold (query_ticks d). lia.
  - rewrite net_levels_app, net_run_app, R1, L, Hlen'. cbn [net_levels]. change (net_run ?x [env]) with (net_tick x env).
    assert (net_level (Nat.iter n' self_tick a0, c1) = hal_high (Nat.iter n' self_tick a0)) as Hlev.
    { unfold net_level. cbn [fst snd]. destruct R2 as [Hc1 Hf1 _]. now rewrite (free_high c1 (calm_wf c1 Hc1) Hf1), andb_true_r. }
    unfold net_tick. cbn [fst snd]. rewrite Hlev. rewrite <- drive_trace_S, <- En, Hrl. split; [done|].
    destruct R2 as [Hc1 Hf1 Hh1]. set (env1 := at_level env _).
    assert (tick (c_phy c1) (env_bus_is_high env1) = run_ticks (c_phy c) (reception_levels (data_bits d 24))) as Hs.
    { rewrite R3, Hlen', <- Hrl, En, drive_trace_S, run_ticks_app. done. }
    assert (phy_wf (c_phy c)) as Hwf by (apply phy_of_wf, Hl).
    destruct (reception_done (data_bits d 24) (c_phy c) Hwf Hi ltac:(rewrite length_data_bits; lia)) as (Hidle & tail & Htl & Hdone).
    rewrite <- Hs in Hidle, Hdone.
    injection R4 as A1 A2 A3 A4.
    destruct (capture_tick c1 env1 Hc1 Hf1) as (ev & V1 & V2 & V3 & V4 & P1 & P2 & P3).
    + left. unfold staged_epoch. now rewrite A1, Hst.
    + exact Hh1.
    + apply Hdone.
    + rewrite (rd_count _ _ Hdone). unfold is_forward24_length. rewrite length_app. unfold ideal_bytes. cbn [length].
      rewrite length_app, length_map, length_data_bits. cbn [length]. change FORWARD24_LENGTH_MIN_SAMPLES with 23.
      destruct (Z.leb_spec 23 (Z.of_nat (S (24 + 2) + length tail))); [done|lia].
    + pose proof (calm_tick c1 env1 Hc1) as Hc2. 
      assert (Nat.iter n self_tick a0 = self_tick (Nat.iter n' self_tick a0)) as -> by now rewrite En.
      exists (isr_tick c1 env1), ev. split; [done|].
      generalize dependent (isr_tick c1 env1). intros c2 P1 P2 P3 Hc2. injection P3 as B1 B2 B3 B4.
      assert (bus_state (c_phy c2) = Idle) as Hi2 by (rewrite P1; unfold acknowledge_rx_frame; case_if; apply Hdone).
      split; try done.
      * now rewrite (wf_tx_busy _ (phy_of_wf _ Hc2)), Hi2.
      * rewrite P1. unfold acknowledge_rx_frame. rewrite (rd_rx_state _ _ Hdone). rewrite bool_decide_eq_true_2 by done. done.
      * congruence.
      * rewrite B4. cbn. now rewrite A4.
      * rewrite B4. done.
      * congruence.
      * rewrite V4. unfold latest_capture. now rewrite A4.
      * rewrite P2. fold n. rewrite En. replace (inc32 (c_wire_ticks_total c1)) with (inc32 (c_wire_ticks_total c1) + 0) by lia. rewrite wrap_inc32.
        replace (c_wire_ticks_total c1 + 1 + 0) with (c_wire_ticks_total c1 + 1) by lia. unfold wrap in *. rewrite <- Zplus_mod_idemp_l, R5, Zplus_mod_idemp_l. f_equal. lia.
      * rewrite B3, P2. change (hal_high (Nat.iter n' self_tick a0)) with (env_bus_is_high env1). now rewrite Hidle.
      * rewrite V1, V2. apply (rx_done_window _ _ tail Hdone); [rewrite length_data_bits; lia|done].
Qed.

(** ** The decision and the wait *)

Definition frame_of (d : Z) : Z * Z * Z := (wrap 8 (Z.shiftr d 16), wrap 8 (Z.shiftr d 8), wrap 8 d).

Lemma answer_of_lookup t frame prev now v : lookup_frame t frame prev now = Answer v ->
  snd (answer t frame prev now) = Some v.
Proof.
  unfold lookup_frame, answer.
  assert (snd (decide_frame t frame prev now (MkRefusals 0 0 0)) = snd (decide_frame t frame prev now (refusals t))) as ->.
  { unfold decide_frame. destruct (read_live t frame) as [r|]; [|done]. destruct (lr_torn r); [done|].
    destruct (lr_index r) as [i|]; [|done]. case_if; [done|]. repeat destruct (entry_answer _ _ _ _ _); try done. now destruct (lease_alive t now). }
  destruct (decide_frame _ _ _ _ _) as [r [| | | | | |b]]; cbn; congruence.
Qed.

(** [k] ticks after the tick that follows the capture. *)
Lemma since_capture t k : 0 <= k < 2 ^ 31 -> wrapping_sub 32 (inc32 t + k) (wrapping_sub 32 t 16) = 17 + k.
Proof.
  intros Hk. unfold inc32, wrapping_add, wrapping_sub, wrap.
  rewrite Zminus_mod_idemp_r, <- Zminus_mod_idemp_l, Zplus_mod_idemp_l, Zminus_mod_idemp_l.
  replace (t + 1 + k - (t - 16)) with (17 + k) by lia. apply Z.mod_small. lia.
Qed.

Lemma stage_idle cell epoch hb : ac_state cell = ANSWER_IDLE -> 0 < hb_length hb <= MAX_DATA_HALF_BITS ->
  stage cell epoch hb = (MkAnswerCell ANSWER_STAGED epoch (hb_data hb) (hb_length hb), true).
Proof.
  intros Hs Hl. unfold stage. destruct cell as [st ep dt ln]. cbn in Hs. subst st.
  destruct (Z.eqb_spec (hb_length hb) 0); [lia|]. destruct (Z.ltb_spec MAX_DATA_HALF_BITS (hb_length hb)); [lia|]. done.
Qed.

Lemma idle_high_tick s : bus_state s = Idle -> rx_state (tick s true) = rx_state s.
Proof. exact (idle_highs_state 1 s). Qed.

Lemma low_run_highs n s : low_run_ticks (run_ticks s (replicate (S n) true)) = 0.
Proof.
  rewrite replicate_S_end, run_ticks_app. change (run_ticks ?x [true]) with (tick x true). apply tick_runs.
Qed.

(** The core is about to transmit answer [v] on an idle line. *)
Record due (c : PhyIsrCore) (v : Z) : Prop := {
  du_listening : listening c;
  du_idle : bus_state (c_phy c) = Idle;
  du_line : line_under_answer c = LineIdle;
  du_staged : staged_epoch (c_answer c) = Some (c_bus_epoch c);
  du_frame : MkHalfBitBuffer (ac_data (c_answer c)) (ac_len (c_answer c)) = encode v BACKWARD_DATA_BITS;
  du_since : ticks_since_forward_edge c = ANSWER_ARM_TARGET_IDLE_TICKS;
}.

Lemma net_decodes a c c2 d ev v env : captured c c2 d ev -> hal_high a = true -> ac_state (c_answer c) = ANSWER_IDLE ->
  in_u 32 (latest_capture c) ->
  lookup_frame (tp_table (c_table_path c)) (frame_of d) (latest_capture c)
    (wrap 32 (c_wire_ticks_total c + Z.of_nat (query_ticks d) + 1)) = Answer v ->
  net_level (a, c2) = true /\
  exists c3, net_tick (a, c2) env = (self_tick a, c3) /\ listening c3 /\
    c_phy c3 = tick (c_phy c2) true /\ c_wire_ticks_total c3 = inc32 (c_wire_ticks_total c2) /\
    c_answer c3 = MkAnswerCell ANSWER_STAGED (c_bus_epoch c3) (hb_data (encode v BACKWARD_DATA_BITS))
                    (hb_length (encode v BACKWARD_DATA_BITS)) /\
    forward_edge_tick (c_answer_slot c3) = forward_edge_tick (c_answer_slot c2).
Proof.
  intros [] Ha Hst Hseq Hlook.
  assert (net_level (a, c2) = true) as Hlev.
  { unfold net_level. cbn [fst snd]. now rewrite Ha, (free_high c2 (calm_wf c2 ca_calm0) ca_free0). }
  split; [exact Hlev|]. unfold net_tick. cbn [fst snd]. rewrite Hlev. set (env1 := at_level env true).
  destruct (search_ideal _ _ SNIFFED_BIT_LENGTHS ca_window0) as [sc Hsearch]; [rewrite length_data_bits; lia|reflexivity|].
  rewrite length_data_bits, push_bits_24 in Hsearch.
  destruct (search_step (search_new SNIFFED_BIT_LENGTHS) _) as [search r] eqn:Es. cbn [snd] in Hsearch. subst r.
  assert (inc32 (c_wire_ticks_total c2) = wrap 32 (c_wire_ticks_total c + Z.of_nat (query_ticks d) + 1)) as Et.
  { unfold inc32, wrapping_add, wrap in *. now rewrite <- Zplus_mod_idemp_l, ca_total0, Zplus_mod_idemp_l. }
  assert (wrapping_sub 32 (sniff_seq ev) 1 = latest_capture c) as Eq.
  { rewrite ca_seq0. unfold wrapping_sub, wrapping_add, wrap. rewrite Zminus_mod_idemp_l.
    replace (latest_capture c + 1 - 1) with (latest_capture c) by lia. apply wrap_id, Hseq. }
  apply answer_of_lookup in Hlook. rewrite <- Et, <- Eq, <- ca_table0 in Hlook.
  destruct (answer (tp_table (c_table_path c2)) _ _ _) as [table found] eqn:Ean. cbn [snd] in Hlook. subst found.
  destruct (encode_wf v BACKWARD_DATA_BITS ltac:(easy)) as [_ Elen].
  pose proof (stage_idle (c_answer c2) (rx_epoch ev) (encode v BACKWARD_DATA_BITS)) as Estage.
  rewrite ca_answer0, Elen in Estage. specialize (Estage Hst ltac:(easy)). rewrite <- Elen, <- ca_answer0 in Estage.
  assert (rx_state (tick (c_phy c2) (env_bus_is_high env1)) <> Completed) as Hr by (cbn; now rewrite idle_high_tick).
  assert (not_due c2) as Hn by (left; unfold staged_epoch; now rewrite ca_answer0, Hst).
  destruct (decode_tick c2 env1 ev search _ table v _ ca_calm0 ca_free0 Hn ca_held0 Hr Es eq_refl Ean Estage)
    as (T1 & T2 & T3 & T4 & T5 & T6).
  pose proof (calm_tick c2 env1 ca_calm0) as Hc3. exists (isr_tick c2 env1). unfold self_tick. rewrite Ha.
  split; [done|]. generalize dependent (isr_tick c2 env1). intros c3 T1 T2 T3 T4 T5 T6 Hc3.
  split; [|split_and!; try done; now rewrite T3, T4, ca_epoch0].
  split; [done| |done]. rewrite T1. apply tick_busy_off; [now apply phy_of_wf|done].
Qed.

Lemma wait_succ a : Nat.iter answer_wait self_tick a = Nat.iter 42 self_tick (self_tick a).
Proof. unfold answer_wait. generalize 42%nat. intros n. apply Nat.iter_succ_r. Qed.

Lemma net_decides a c c2 d ev v envs : captured c c2 d ev -> drive_trace answer_wait a = replicate answer_wait true ->
  ac_state (c_answer c) = ANSWER_IDLE -> in_u 32 (latest_capture c) ->
  lookup_frame (tp_table (c_table_path c)) (frame_of d) (latest_capture c)
    (wrap 32 (c_wire_ticks_total c + Z.of_nat (query_ticks d) + 1)) = Answer v ->
  length envs = answer_wait ->
  net_levels (a, c2) envs = replicate answer_wait true /\
  exists c4, net_run (a, c2) envs = (Nat.iter answer_wait self_tick a, c4) /\ due c4 v.
Proof.
  intros Hcap Htr Hst Hseq Hlook Hlen. destruct envs as [|env envs]; [discriminate|]. injection Hlen as Hlen.
  cbn [net_levels]. change (net_run (a, c2) (env :: envs)) with (net_run (net_tick (a, c2) env) envs).
  assert (hal_high a = true) as Ha by exact (f_equal (hd true) Htr).
  assert (drive_trace 42 (self_tick a) = replicate 42 true) as Htr' by exact (f_equal (@tl bool) Htr).
  clear Htr. rename Htr' into Htr.
  destruct (net_decodes a c c2 d ev v env Hcap Ha Hst Hseq Hlook) as (-> & c3 & -> & Hl3 & P1 & P2 & P3 & P4).
  rewrite (ca_edge _ _ _ _ Hcap) in P4.
  assert (bus_state (c_phy c3) = Idle) as Hi3 by (rewrite P1; apply rx_idle_high, (ca_idle _ _ _ _ Hcap)).
  assert (rx_state (c_phy c3) <> Completed) as Hr3.
  { rewrite P1, idle_high_tick by apply (ca_idle _ _ _ _ Hcap). exact (ca_empty _ _ _ _ Hcap). }
  assert (staged_epoch (c_answer c3) = Some (c_bus_epoch c3)) as Hst3 by now rewrite P3.
  destruct (net_listen envs (self_tick a) c3 Hl3) as (L & c4 & R1 & R2 & R3 & R4 & R5).
  - intros k Hk. right. split; [done|]. rewrite P2, P4, since_capture by lia. change ANSWER_ARM_TARGET_IDLE_TICKS with 59. lia.
  - intros k Hk. rewrite Hlen, Htr in *. rewrite take_replicate, Nat.min_l by lia. now rewrite idle_highs_state.
  - rewrite Hlen in *. rewrite L, R1, Htr. split; [done|]. exists c4.
    rewrite <- wait_succ. split; [reflexivity|]. rewrite Htr in R3. injection R4 as A1 A2 A3 A4.
    destruct (rx_idle_highs 41 _ Hi3) as [Hi4 Hdb]. rewrite <- R3 in Hi4, Hdb.
    split; [done|done| |now rewrite A1, A2| |].
    + unfold line_under_answer. rewrite R3, (low_run_highs 41). rewrite <- R3, Hi4. unfold line_debouncing. now rewrite Hdb.
    + rewrite A1, P3. cbn [ac_data ac_len]. now destruct (encode v BACKWARD_DATA_BITS).
    + unfold ticks_since_forward_edge. rewrite A3, P4.
      rewrite (wrapping_sub_mod 32 _ (inc32 (c_wire_ticks_total c2) + 42)), since_capture; [done|lia|lia|].
      now rewrite R5, P2.
Qed.

(** ** The answer on the wire *)

Lemma loaded s hb answer : 0 < hb_length hb <= MAX_DATA_HALF_BITS -> let p := fst (load_tx s hb answer) in
  hal_high p = hal_high s /\ tx_armed p = TX_ARM_LEAD_TICKS /\ bus_state p = Tx /\ tx_busy p = true.
Proof.
  intros Hl. unfold load_tx. destruct (Z.eqb_spec (hb_length hb) 0); [lia|].
  destruct (Z.ltb_spec MAX_DATA_HALF_BITS (hb_length hb)); [lia|]. done.
Qed.

Lemma armed_stays_busy p : bus_state p = Tx -> tx_armed p = TX_ARM_LEAD_TICKS -> hal_high p = true -> tx_busy p = true ->
  tx_busy (self_tick p) = true.
Proof.
  intros H1 H2 H3 H4. unfold self_tick. rewrite tick_dispatch, H1, H3. change (tx_busy p) with (tx_busy (tick_counters p true)) in H4.
  change (tx_armed p) with (tx_armed (tick_counters p true)) in H2. generalize dependent (tick_counters p true). intros s H2 H4.
  unfold tick_tx, tick_tx_armed. rewrite H2. exact H4.
Qed.

Lemma due_sends c v env : due c v -> env_bus_is_high env = true ->
  let p := fst (load_tx (c_phy c) (encode v BACKWARD_DATA_BITS) true) in
  hal_high p = true /\ sends (isr_tick c env) (self_tick p).
Proof.
  intros [[Hc Hf Hh] Hi Hline Hst Hfr Hsince] Hlev p.
  assert (phy_wf (c_phy c)) as Hw by now apply phy_of_wf.
  destruct (encode_wf v BACKWARD_DATA_BITS ltac:(easy)) as [El En].
  assert (p = fst (load_tx (c_phy c) (encode v BACKWARD_DATA_BITS) true)) as Ep by reflexivity. clearbody p.
  generalize dependent (encode v BACKWARD_DATA_BITS). intros hb Hfr El En Ep.
  assert (0 < hb_length hb <= MAX_DATA_HALF_BITS) as Hl by (rewrite En; easy).
  assert (phy_wf p) as Hwp.
  { rewrite Ep. apply load_tx_wf; [done|now rewrite Hi|]. split; [done|]. rewrite En. easy. }
  destruct (loaded (c_phy c) hb true Hl) as (P1 & P2 & P3 & P4). rewrite <- Ep in P1, P2, P3, P4.
  rewrite (free_high c (calm_wf c Hc) Hf) in P1.
  split; [exact P1|]. pose proof (armed_stays_busy p P3 P2 P1 P4) as Hb1.
  rewrite <- Hfr in Ep. pose proof (answer_tick c env Hc Hf Hst Hline Hh) as T. cbn zeta in T.
  rewrite <- Ep, Hlev in T. 
  replace (tick p true) with (self_tick p) in T by (unfold self_tick; now rewrite P1).
  destruct (T ltac:(rewrite Hsince; easy) Hb1) as (T1 & T2 & T3).
  split; [now apply calm_tick|done|done|now apply tick_wf|]. now rewrite Hb1.
Qed.

Lemma wait_gap : (16 + answer_wait + 4 = 63)%nat.
Proof. reflexivity. Qed.

#[local] Opaque answer_wait.

(** From the capture of the query to the end of its answer. *)
Definition exchange_ticks (d : Z) : nat := query_ticks d + answer_wait + frame_ticks 8.

(** C4: a query on the wire is answered on the wire.  A unit transmits the
    24-bit query [d]; the core is listening, with nothing of its own to send,
    and its table holds the answer [v] for that frame, in step with the captures
    so far and, where it is bound to the lease, under a lease that still runs
    when the query is decoded.  Then, tick by tick and without any task's help,
    the core captures and decodes the query, arms and transmits the answer: 63
    ticks (6552 us) of recessive line separate the query's last dominant sample
    from the answer's first, inside the 5.5 to 10.5 ms a backward frame is
    allowed, the line carries exactly the waveform of [v], and the unit that
    asked ends up with a backward capture that decodes to [v]. *)
Theorem query_answered_on_wire a c d v envs m :
  phy_reachable a -> bus_state a = Idle -> isr_reachable c -> attentive c -> in_u 32 (latest_capture c) -> in_u 8 v ->
  lookup_frame (tp_table (c_table_path c)) (frame_of d) (latest_capture c)
    (wrap 32 (c_wire_ticks_total c + Z.of_nat (query_ticks d) + 1)) = Answer v ->
  length envs = (exchange_ticks d + m)%nat ->
  let n := (fst (start_tx a (encode_to_half_bits d 24)), c) in
  (exists query, reception_levels (data_bits d 24) = query ++ false :: replicate 16 true /\
     net_levels n envs = query ++ false :: replicate 63 true ++ frame_waveform (data_bits v 8) ++ replicate m true) /\
  exists ev, snd (take_completed_rx_event (fst (net_run n envs))) = Some ev /\
    decode_backward_byte ev = Some v /\ frame_length_class (sample_count ev) = ClassBackward.
Proof.
  intros Ha Hai Hc Hat Hseq Hv Hlook Hlen n. pose proof (phy_reachable_wf_aux a Ha) as Hwa.
  apply isr_reachable_core_wf in Hc. unfold exchange_ticks in Hlen. subst n.
  rewrite <- (take_drop (query_ticks d) envs), <- (take_drop answer_wait (drop (query_ticks d) envs)).
  set (e1 := take (query_ticks d) envs). set (e2 := take answer_wait (drop (query_ticks d) envs)).
  assert (length e1 = query_ticks d) as L1 by (unfold e1; rewrite length_take; lia).
  assert (length e2 = answer_wait) as L2 by (unfold e2; rewrite length_take, length_drop; lia).
  destruct (drop answer_wait (drop (query_ticks d) envs)) as [|env e3] eqn:E3.
  { apply (f_equal length) in E3. rewrite !length_drop in E3. cbn [length] in E3. unfold frame_ticks in Hlen. lia. }
  assert (S (length e3) = (frame_ticks 8 + m)%nat) as L3.
  { apply (f_equal length) in E3. rewrite !length_drop in E3. cbn [length] in E3. lia. }
  clearbody e1 e2. clear E3 Hlen envs. rewrite !net_levels_app, !net_run_app.
  set (a0 := fst (start_tx a (encode_to_half_bits d 24))).
  pose proof (net_captures a c d e1 Hwa Hai Hc Hat L1) as Hcapt. cbn zeta in Hcapt. fold a0 in Hcapt.
  destruct Hcapt as (-> & c2 & ev & -> & Hcap).
  destruct (query_trace a d Hwa Hai) as [Htr Hdone]. fold a0 in Htr, Hdone.
  set (a2 := Nat.iter (query_ticks d) self_tick a0) in *.
  assert (drive_trace answer_wait a2 = replicate answer_wait true) as Htr2.
  { rewrite drive_trace_add in Htr. fold a2 in Htr. apply app_inj_1 in Htr as [_ H]; [exact H|]. apply length_drive_trace. }
  destruct (net_decides a2 c c2 d ev v e2 Hcap Htr2 (at_unstaged c Hat) Hseq Hlook L2) as (-> & c4 & -> & Hdue).
  set (a4 := Nat.iter answer_wait self_tick a2) in *.
  assert (a4 = Nat.iter (query_ticks d + answer_wait) self_tick a0) as Ea4 by (symmetry; rewrite Nat.add_comm; apply Nat.iter_add).
  rewrite <- Ea4 in Hdone. destruct Hdone as [Hi4 Hh4 _ _].
  assert (phy_wf a4) as Hw4.
  { rewrite Ea4. apply Nat.iter_invariant; [intros s Hs; now apply tick_wf|].
    apply (phy_do_wf a (OpStartTx (encode_to_half_bits d 24))); [|exact Hwa].
    destruct (encode_wf d 24 ltac:(lia)) as [H1 H2]. split; [exact H1|]. unfold encode_to_half_bits. rewrite H2. clear; unfold in_u; lia. }
  set (env1 := at_level env true). destruct (due_sends c4 v env1 Hdue eq_refl) as [Hp Hsends].
  destruct (du_listening c4 v Hdue) as [Hc4 Hf4 _].
  assert (net_level (a4, c4) = true) as Hlev.
  { unfold net_level. cbn [fst snd]. now rewrite Hh4, (free_high c4 (calm_wf c4 Hc4) Hf4). }
  cbn [net_levels]. change (net_run (a4, c4) (env :: e3)) with (net_run (net_tick (a4, c4) env) e3).
  unfold net_tick. rewrite Hlev. cbn [fst snd]. fold env1.
  destruct (net_answer e3 (tick a4 true) (isr_tick c4 env1) _ (tick_wf a4 true Hw4)
    ltac:(apply tick_not_tx; now rewrite Hi4) Hsends) as (-> & c5 & ->).
  set (p := fst (load_tx (c_phy c4) (encode v BACKWARD_DATA_BITS) true)) in *. cbn [fst].
  assert (true :: drive_trace (length e3) (self_tick p) = replicate 4 true ++ frame_waveform (data_bits v 8) ++ replicate m true) as Hwave.
  { transitivity (drive_trace (S (length e3)) p); [cbn [drive_trace]; now rewrite Hp|]. rewrite L3.
    assert (represents (encode v BACKWARD_DATA_BITS) (frame_half_bits (data_bits v 8))) as Hrep by (apply (represents_encode v 8); lia).
    destruct (load_waveform m (c_phy c4) _ _ true (phy_of_wf c4 Hc4) (du_idle c4 v Hdue) Hrep) as (_ & Hw & _).
    fold p in Hw. rewrite length_frame_waveform, length_data_bits in Hw. unfold frame_ticks. exact Hw. }
  split.
  - destruct (reception_levels_end (data_bits d 24)) as [query Eq]. exists query. split; [exact Eq|].
    rewrite Eq, <- app_assoc. cbn [app]. rewrite Hwave. apply (f_equal (fun l => query ++ false :: l)).
    rewrite !app_assoc, <- !replicate_add, wait_gap. reflexivity.
  - change (run_ticks (tick a4 true) ?l) with (run_ticks a4 (true :: l)). rewrite Hwave.
    destruct (rx_waveform (data_bits v 8) m a4 Hw4 Hi4 ltac:(rewrite length_data_bits; lia)) as (tail & Htail & Hrx).
    exact (rx_done_answer _ v tail Hrx Htail Hv).
Qed.

(** QUERY DEVICE STATUS to short address 5, answered by a fresh core. *)
Lemma query_answered_on_wire_witness :
  let d := 11 * 65536 + 254 * 256 + 48 in
  let n := (fst (start_tx phy_new (encode_to_half_bits d 24)), isr_do core_new (OpPublishTable example_image 0)) in
  let envs := replicate (exchange_ticks d) (quiet_env true) in
  exists ev, snd (take_completed_rx_event (fst (net_run n envs))) = Some ev /\
    decode_backward_byte ev = Some 68 /\ frame_length_class (sample_count ev) = ClassBackward.
Proof.
  intros d n envs. refine (proj2 (query_answered_on_wire phy_new _ d 68 envs 0 _ _ _ _ _ _ _ _)).
  - constructor.
  - reflexivity.
  - apply isr_reach_step; [constructor|reflexivity].
  - split; [split; reflexivity || discriminate|reflexivity|reflexivity|discriminate|reflexivity].
  - split; [discriminate|reflexivity].
  - split; [discriminate|reflexivity].
  - vm_compute. reflexivity.
  - unfold envs. rewrite length_replicate, Nat.add_0_r. reflexivity.
Defined.

End WireAnswer.
