(* ===== verification/Gear.v ===== *)
(** * Device-type command sets

    Models [crates/dali2rust-domain/src/dali/devices]: [mod.rs] (the trait
    [DeviceCommandMetadata], here a class), [dt6_led.rs], [dt7_switching.rs] and
    [dt8_color.rs]; and [net/address.rs], [net/routing.rs] and [frame.rs], which
    their frames are built from. *)

From S2P Require Import Prelude.

Module Gear.

(** ** Frames ([frame.rs]) *)

(** [ForwardFrame(u16)] is its raw value. *)
Definition frame_new (address_byte command_byte : Z) : Z := Z.lor (shl 16 address_byte 8) command_byte.
Definition address_byte (frame : Z) : Z := wrap 8 (Z.shiftr frame 8).
Definition command_byte (frame : Z) : Z := Z.land frame 0xFF.
Definition is_direct_arc_power (frame : Z) : bool := Z.land (address_byte frame) 1 =? 0.

Definition HALF_BITS_PER_SECOND : Z := 2400.
Definition HALF_BITS_PER_BIT : Z := 2.
Definition US_PER_SECOND : Z := 1000000.
Definition SEND_TWICE_SEPARATE_US : Z := 105000.

Definition forward_frame_us (data_bits : Z) : Z :=
  (data_bits + 1) * HALF_BITS_PER_BIT * US_PER_SECOND / HALF_BITS_PER_SECOND.
Definition send_twice_span_ms (data_bits : Z) : Z :=
  div_ceil (SEND_TWICE_SEPARATE_US + forward_frame_us data_bits) 1000.

(** ** Addresses ([net/address.rs], [net/routing.rs]) *)

Inductive DaliAddress :=
  | Short (a : Z) | Group (a : Z) | Broadcast | BroadcastUnaddressed.

#[global] Instance DaliAddress_eq_dec : EqDecision DaliAddress.
Proof. solve_decision. Defined.

(** [Err(OutOfRange)] is [None]: no caller looks at its fields. *)
Definition short (addr : Z) : option DaliAddress := if 63 <? addr then None else Some (Short addr).
Definition group (addr : Z) : option DaliAddress := if 15 <? addr then None else Some (Group addr).

Definition encode_address_byte (a : DaliAddress) : Z :=
  match a with
  | Short a => shl 8 (Z.land a 0x3F) 1
  | Group a => Z.lor (shl 8 (Z.land a 0x0F) 1) 0x80
  | Broadcast => 0xFE
  | BroadcastUnaddressed => 0xFC
  end.

Definition decode_wire_address (wire : Z) : option DaliAddress :=
  if (wire =? 0xFE) || (wire =? 0xFF) then Some Broadcast
  else if (wire =? 0xFC) || (wire =? 0xFD) then Some BroadcastUnaddressed
  else if Z.land wire 0xE0 =? 0x80 then group (Z.land (Z.shiftr wire 1) 0x0F)
  else if Z.land wire 0x80 =? 0 then short (Z.land (Z.shiftr wire 1) 0x3F)
  else None.

Record Route := MkRoute { target : DaliAddress; expects_reply : bool }.

Definition route_new (target : DaliAddress) (is_query : bool) : Route :=
  MkRoute target (is_query && match target with Short _ => true | _ => false end).

(** ** The trait [DeviceCommandMetadata] *)

Inductive DeviceType :=
  | Fluorescent | Emergency | Discharge | LowVoltageHalogen | Incandescent | DcConverter
  | Led | Switching | Color.

Definition code (t : DeviceType) : Z :=
  match t with
  | Fluorescent => 0 | Emergency => 1 | Discharge => 2 | LowVoltageHalogen => 3 | Incandescent => 4
  | DcConverter => 5 | Led => 6 | Switching => 7 | Color => 8
  end.

Definition DeviceType_from_u8 (value : Z) : option DeviceType :=
  match value with
  | 0 => Some Fluorescent | 1 => Some Emergency | 2 => Some Discharge | 3 => Some LowVoltageHalogen
  | 4 => Some Incandescent | 5 => Some DcConverter | 6 => Some Led | 7 => Some Switching | 8 => Some Color
  | _ => None
  end.

Record CommandMetadata := MkMetadata {
  md_device_type : option DeviceType; md_opcode : Z; md_expects_backward : bool; md_requires_repeat : bool }.

Class DeviceCommandMetadata (C : Type) := metadata : C -> CommandMetadata.

(** The trait's provided methods. *)
Section Provided.
Context {C : Type} `{DeviceCommandMetadata C}.
Definition device_opcode (c : C) : Z := md_opcode (metadata c).
Definition device_is_query (c : C) : bool := md_expects_backward (metadata c).
Definition device_requires_repeat (c : C) : bool := md_requires_repeat (metadata c).
Definition device_to_forward_frame (c : C) (address : DaliAddress) : Z :=
  frame_new (Z.lor (encode_address_byte address) 1) (device_opcode c).
End Provided.

(** ** Device type 6: LED *)

Inductive Dt6Command :=
  | D6_ReferenceSystemPower | D6_EnableCurrentProtector | D6_DisableCurrentProtector | D6_SelectDimmingCurve
  | D6_StoreDtrAsFastFadeTime | D6_QueryGearType | D6_QueryDimmingCurve | D6_QueryPossibleOperatingMode
  | D6_QueryFeatures | D6_QueryFailureStatus | D6_QueryShortCircuit | D6_QueryOpenCircuit
  | D6_QueryLoadDecrease | D6_QueryLoadIncrease | D6_QueryCurrentProtectorActive | D6_QueryThermalShutdown
  | D6_QueryThermalOverload | D6_QueryReferenceRunning | D6_QueryReferenceMeasurementFailed | D6_QueryCurrentProtectorEnabled
  | D6_QueryOperatingMode | D6_QueryFastFadeTime | D6_QueryMinFastFadeTime | D6_QueryExtendedVersionNumber.

Definition dt6_opcode (c : Dt6Command) : Z :=
  match c with
  | D6_ReferenceSystemPower => 0xE0
  | D6_EnableCurrentProtector => 0xE1
  | D6_DisableCurrentProtector => 0xE2
  | D6_SelectDimmingCurve => 0xE3
  | D6_StoreDtrAsFastFadeTime => 0xE4
  | D6_QueryGearType => 0xED
  | D6_QueryDimmingCurve => 0xEE
  | D6_QueryPossibleOperatingMode => 0xEF
  | D6_QueryFeatures => 0xF0
  | D6_QueryFailureStatus => 0xF1
  | D6_QueryShortCircuit => 0xF2
  | D6_QueryOpenCircuit => 0xF3
  | D6_QueryLoadDecrease => 0xF4
  | D6_QueryLoadIncrease => 0xF5
  | D6_QueryCurrentProtectorActive => 0xF6
  | D6_QueryThermalShutdown => 0xF7
  | D6_QueryThermalOverload => 0xF8
  | D6_QueryReferenceRunning => 0xF9
  | D6_QueryReferenceMeasurementFailed => 0xFA
  | D6_QueryCurrentProtectorEnabled => 0xFB
  | D6_QueryOperatingMode => 0xFC
  | D6_QueryFastFadeTime => 0xFD
  | D6_QueryMinFastFadeTime => 0xFE
  | D6_QueryExtendedVersionNumber => 0xFF
  end.

Definition dt6_from_opcode (opcode : Z) : option Dt6Command :=
  match opcode with
  | 0xE0 => Some D6_ReferenceSystemPower
  | 0xE1 => Some D6_EnableCurrentProtector
  | 0xE2 => Some D6_DisableCurrentProtector
  | 0xE3 => Some D6_SelectDimmingCurve
  | 0xE4 => Some D6_StoreDtrAsFastFadeTime
  | 0xED => Some D6_QueryGearType
  | 0xEE => Some D6_QueryDimmingCurve
  | 0xEF => Some D6_QueryPossibleOperatingMode
  | 0xF0 => Some D6_QueryFeatures
  | 0xF1 => Some D6_QueryFailureStatus
  | 0xF2 => Some D6_QueryShortCircuit
  | 0xF3 => Some D6_QueryOpenCircuit
  | 0xF4 => Some D6_QueryLoadDecrease
  | 0xF5 => Some D6_QueryLoadIncrease
  | 0xF6 => Some D6_QueryCurrentProtectorActive
  | 0xF7 => Some D6_QueryThermalShutdown
  | 0xF8 => Some D6_QueryThermalOverload
  | 0xF9 => Some D6_QueryReferenceRunning
  | 0xFA => Some D6_QueryReferenceMeasurementFailed
  | 0xFB => Some D6_QueryCurrentProtectorEnabled
  | 0xFC => Some D6_QueryOperatingMode
  | 0xFD => Some D6_QueryFastFadeTime
  | 0xFE => Some D6_QueryMinFastFadeTime
  | 0xFF => Some D6_QueryExtendedVersionNumber
  | _ => None
  end.

Definition dt6_opcode_requires_repeat (opcode : Z) : bool := (0xE0 <=? opcode) && (opcode <=? 0xE4).

#[global] Instance dt6_metadata : DeviceCommandMetadata Dt6Command := fun c =>
  MkMetadata (Some Led) (dt6_opcode c) (0xED <=? dt6_opcode c) (dt6_opcode_requires_repeat (dt6_opcode c)).

Record FailureStatusBits := MkFailure {
  short_circuit : bool; open_circuit : bool; load_decrease : bool; load_increase : bool;
  current_protector_active : bool; thermal_shut_down : bool; thermal_overload : bool;
  reference_measurement_failed : bool }.

(** [raw & mask != 0] *)
Definition has_bits (raw mask : Z) : bool := negb (Z.land raw mask =? 0).

Definition decode_failure_status (raw : Z) : FailureStatusBits :=
  MkFailure (has_bits raw 0x01) (has_bits raw 0x02) (has_bits raw 0x04) (has_bits raw 0x08)
    (has_bits raw 0x10) (has_bits raw 0x20) (has_bits raw 0x40) (has_bits raw 0x80).

(** ** Device type 7: switching *)

Inductive Threshold := UpSwitchOn | UpSwitchOff | DownSwitchOn | DownSwitchOff.

Inductive Dt7Command :=
  | D7_ReferenceSystemPower | D7_StoreDtrAsThreshold (t : Threshold) | D7_StoreDtrAsErrorHoldOffTime
  | D7_QueryFeatures | D7_QuerySwitchStatus | D7_QueryThreshold (t : Threshold) | D7_QueryErrorHoldOffTime
  | D7_QueryGearType | D7_QueryReferenceRunning | D7_QueryReferenceMeasurementFailed
  | D7_QueryExtendedVersionNumber.

Definition threshold_index (t : Threshold) : Z :=
  match t with UpSwitchOn => 0 | UpSwitchOff => 1 | DownSwitchOn => 2 | DownSwitchOff => 3 end.

Definition threshold_from_index (index : Z) : option Threshold :=
  match index with
  | 0 => Some UpSwitchOn | 1 => Some UpSwitchOff | 2 => Some DownSwitchOn | 3 => Some DownSwitchOff
  | _ => None
  end.

Definition threshold_factory (t : Threshold) : Z :=
  match t with UpSwitchOn => 1 | UpSwitchOff | DownSwitchOn => 0xFF | DownSwitchOff => 0 end.

Definition within_range (t : Threshold) (dtr : Z) : Z :=
  match t with UpSwitchOn | UpSwitchOff => if dtr =? 0 then 1 else dtr | _ => dtr end.

Definition dt7_opcode (c : Dt7Command) : Z :=
  match c with
  | D7_ReferenceSystemPower => 0xE0
  | D7_StoreDtrAsThreshold t => 0xE1 + threshold_index t
  | D7_StoreDtrAsErrorHoldOffTime => 0xE5
  | D7_QueryFeatures => 0xF0
  | D7_QuerySwitchStatus => 0xF1
  | D7_QueryThreshold t => 0xF2 + threshold_index t
  | D7_QueryErrorHoldOffTime => 0xF6
  | D7_QueryGearType => 0xF7
  | D7_QueryReferenceRunning => 0xF9
  | D7_QueryReferenceMeasurementFailed => 0xFA
  | D7_QueryExtendedVersionNumber => 0xFF
  end.

Definition dt7_from_opcode (opcode : Z) : option Dt7Command :=
  if (0xE1 <=? opcode) && (opcode <=? 0xE4)
  then option_map D7_StoreDtrAsThreshold (threshold_from_index (opcode - 0xE1))
  else if (0xF2 <=? opcode) && (opcode <=? 0xF5)
  then option_map D7_QueryThreshold (threshold_from_index (opcode - 0xF2))
  else
    match opcode with
    | 0xE0 => Some D7_ReferenceSystemPower
    | 0xE5 => Some D7_StoreDtrAsErrorHoldOffTime
    | 0xF0 => Some D7_QueryFeatures
    | 0xF1 => Some D7_QuerySwitchStatus
    | 0xF6 => Some D7_QueryErrorHoldOffTime
    | 0xF7 => Some D7_QueryGearType
    | 0xF9 => Some D7_QueryReferenceRunning
    | 0xFA => Some D7_QueryReferenceMeasurementFailed
    | 0xFF => Some D7_QueryExtendedVersionNumber
    | _ => None
    end.

Definition dt7_opcode_requires_repeat (opcode : Z) : bool := (0xE0 <=? opcode) && (opcode <=? 0xEF).

#[global] Instance dt7_metadata : DeviceCommandMetadata Dt7Command := fun c =>
  MkMetadata (Some Switching) (dt7_opcode c) (dt7_opcode D7_QueryFeatures <=? dt7_opcode c)
    (dt7_opcode_requires_repeat (dt7_opcode c)).

(** ** Device type 8: colour *)

Inductive Dt8Command :=
  | D8_SetTemporaryXCoordinate | D8_SetTemporaryYCoordinate | D8_Activate
  | D8_XCoordinateStepUp | D8_XCoordinateStepDown | D8_YCoordinateStepUp
  | D8_YCoordinateStepDown | D8_SetTemporaryColourTemperature | D8_ColourTemperatureStepCooler
  | D8_ColourTemperatureStepWarmer | D8_SetTemporaryPrimaryNDimLevel | D8_SetTemporaryRgbDimLevel
  | D8_SetTemporaryWafDimLevel | D8_SetTemporaryRgbwafControl | D8_CopyReportToTemporary
  | D8_StoreColourTemperatureTcLimit | D8_StoreGearFeaturesStatus | D8_QueryGearFeaturesStatus
  | D8_QueryColourStatus | D8_QueryColourTypeFeatures | D8_QueryColourValue
  | D8_QueryRgbwafControl.

Definition dt8_is_query (c : Dt8Command) : bool :=
  match c with
  | D8_QueryGearFeaturesStatus | D8_QueryColourStatus | D8_QueryColourTypeFeatures | D8_QueryColourValue
  | D8_QueryRgbwafControl => true
  | _ => false
  end.

Definition dt8_opcode (c : Dt8Command) : Z :=
  match c with
  | D8_SetTemporaryXCoordinate => 0xE0
  | D8_SetTemporaryYCoordinate => 0xE1
  | D8_Activate => 0xE2
  | D8_XCoordinateStepUp => 0xE3
  | D8_XCoordinateStepDown => 0xE4
  | D8_YCoordinateStepUp => 0xE5
  | D8_YCoordinateStepDown => 0xE6
  | D8_SetTemporaryColourTemperature => 0xE7
  | D8_ColourTemperatureStepCooler => 0xE8
  | D8_ColourTemperatureStepWarmer => 0xE9
  | D8_SetTemporaryPrimaryNDimLevel => 0xEA
  | D8_SetTemporaryRgbDimLevel => 0xEB
  | D8_SetTemporaryWafDimLevel => 0xEC
  | D8_SetTemporaryRgbwafControl => 0xED
  | D8_CopyReportToTemporary => 0xEE
  | D8_StoreColourTemperatureTcLimit => 0xF2
  | D8_StoreGearFeaturesStatus => 0xF3
  | D8_QueryGearFeaturesStatus => 0xF7
  | D8_QueryColourStatus => 0xF8
  | D8_QueryColourTypeFeatures => 0xF9
  | D8_QueryColourValue => 0xFA
  | D8_QueryRgbwafControl => 0xFB
  end.

Definition dt8_from_opcode (opcode : Z) : option Dt8Command :=
  match opcode with
  | 0xE0 => Some D8_SetTemporaryXCoordinate
  | 0xE1 => Some D8_SetTemporaryYCoordinate
  | 0xE2 => Some D8_Activate
  | 0xE3 => Some D8_XCoordinateStepUp
  | 0xE4 => Some D8_XCoordinateStepDown
  | 0xE5 => Some D8_YCoordinateStepUp
  | 0xE6 => Some D8_YCoordinateStepDown
  | 0xE7 => Some D8_SetTemporaryColourTemperature
  | 0xE8 => Some D8_ColourTemperatureStepCooler
  | 0xE9 => Some D8_ColourTemperatureStepWarmer
  | 0xEA => Some D8_SetTemporaryPrimaryNDimLevel
  | 0xEB => Some D8_SetTemporaryRgbDimLevel
  | 0xEC => Some D8_SetTemporaryWafDimLevel
  | 0xED => Some D8_SetTemporaryRgbwafControl
  | 0xEE => Some D8_CopyReportToTemporary
  | 0xF2 => Some D8_StoreColourTemperatureTcLimit
  | 0xF3 => Some D8_StoreGearFeaturesStatus
  | 0xF7 => Some D8_QueryGearFeaturesStatus
  | 0xF8 => Some D8_QueryColourStatus
  | 0xF9 => Some D8_QueryColourTypeFeatures
  | 0xFA => Some D8_QueryColourValue
  | 0xFB => Some D8_QueryRgbwafControl
  | _ => None
  end.

Definition dt8_opcode_requires_repeat (opcode : Z) : bool := (0xEF <=? opcode) && (opcode <=? 0xF6).

#[global] Instance dt8_metadata : DeviceCommandMetadata Dt8Command := fun c =>
  MkMetadata (Some Color) (dt8_opcode c) (dt8_is_query c) (dt8_opcode_requires_repeat (dt8_opcode c)).

Definition in_range (v lo hi : Z) : bool := (lo <=? v) && (v <=? hi).

Definition colour_value_is_wide (v : Z) : bool :=
  in_range v 0 8 || in_range v 64 81 || in_range v 128 131 || in_range v 192 200 || in_range v 224 232.

Definition colour_value_is_defined (v : Z) : bool :=
  colour_value_is_wide v || in_range v 9 15 || (v =? 82) || in_range v 201 208 || in_range v 233 240.

Inductive ColorType := XyCoordinate | ColorTemperature | PrimaryN | Rgbwaf.

Definition COLOUR_STATUS_TYPE_ACTIVE_MASK : Z := 0xF0.

Definition active_colour_type (status : Z) : option ColorType :=
  match Z.land status COLOUR_STATUS_TYPE_ACTIVE_MASK with
  | 0x10 => Some XyCoordinate
  | 0x20 => Some ColorTemperature
  | 0x40 => Some PrimaryN
  | 0x80 => Some Rgbwaf
  | _ => None
  end.

Definition gear_features_store_operand (automatic_activation : bool) : Z := if automatic_activation then 1 else 0.
Definition gear_features_automatic_activation (features : Z) : bool := has_bits features 1.

Definition RGBWAF_CONTROL_NORMALISED : Z := 0x80.
Definition rgbwaf_control_drives (answer driven : Z) : bool := Z.land answer driven =? 0.
Definition rgbwaf_control_is_target (answer driven : Z) : bool :=
  (Z.land answer 0xC0 =? RGBWAF_CONTROL_NORMALISED) && (Z.land answer driven =? 0).

Definition SRGB_TO_DIM_LEVEL : list Z :=
  [0; 1; 1; 1; 1; 1; 1; 1; 1; 1; 1; 1; 1; 1; 1; 1; 1; 1; 2; 2; 2; 2; 2; 2; 2; 2; 3; 3; 3; 3; 3; 3; 4; 4; 4;
    4; 4; 5; 5; 5; 5; 6; 6; 6; 6; 7; 7; 7; 8; 8; 8; 8; 9; 9; 9; 10; 10; 10; 11; 11; 11; 12; 12; 13; 13; 13;
    14; 14; 15; 15; 16; 16; 16; 17; 17; 18; 18; 19; 19; 20; 20; 21; 21; 22; 23; 23; 24; 24; 25; 25; 26; 27;
    27; 28; 28; 29; 30; 30; 31; 32; 32; 33; 34; 34; 35; 36; 37; 37; 38; 39; 40; 40; 41; 42; 43; 44; 44; 45;
    46; 47; 48; 49; 49; 50; 51; 52; 53; 54; 55; 56; 57; 58; 59; 60; 61; 62; 63; 64; 65; 66; 67; 68; 69; 70;
    71; 72; 73; 74; 75; 76; 77; 79; 80; 81; 82; 83; 84; 86; 87; 88; 89; 91; 92; 93; 94; 96; 97; 98; 99; 101;
    102; 103; 105; 106; 108; 109; 110; 112; 113; 114; 116; 117; 119; 120; 122; 123; 125; 126; 128; 129; 131;
    132; 134; 135; 137; 139; 140; 142; 143; 145; 147; 148; 150; 152; 153; 155; 157; 158; 160; 162; 164; 165;
    167; 169; 171; 173; 174; 176; 178; 180; 182; 184; 186; 187; 189; 191; 193; 195; 197; 199; 201; 203; 205;
    207; 209; 211; 213; 215; 217; 219; 221; 223; 226; 228; 230; 232; 234; 236; 238; 241; 243; 245; 247; 249;
    252; 254].

Definition DIM_LEVEL_TO_SRGB : list Z :=
  [0; 1; 18; 26; 32; 37; 41; 45; 48; 52; 55; 58; 61; 63; 66; 68; 70; 73; 75; 77; 79; 81; 83; 84; 86; 88; 90;
    91; 93; 95; 96; 98; 99; 101; 102; 104; 105; 106; 108; 109; 110; 112; 113; 114; 115; 117; 118; 119; 120;
    121; 123; 124; 125; 126; 127; 128; 129; 130; 131; 132; 133; 134; 135; 136; 137; 138; 139; 140; 141; 142;
    143; 144; 145; 146; 147; 148; 149; 150; 150; 151; 152; 153; 154; 155; 156; 156; 157; 158; 159; 160; 160;
    161; 162; 163; 164; 164; 165; 166; 167; 168; 168; 169; 170; 171; 171; 172; 173; 173; 174; 175; 176; 176;
    177; 178; 179; 179; 180; 181; 181; 182; 183; 183; 184; 185; 185; 186; 187; 187; 188; 189; 189; 190; 191;
    191; 192; 193; 193; 194; 194; 195; 196; 196; 197; 198; 198; 199; 199; 200; 201; 201; 202; 202; 203; 204;
    204; 205; 205; 206; 207; 207; 208; 208; 209; 209; 210; 211; 211; 212; 212; 213; 213; 214; 214; 215; 216;
    216; 217; 217; 218; 218; 219; 219; 220; 220; 221; 221; 222; 223; 223; 224; 224; 225; 225; 226; 226; 227;
    227; 228; 228; 229; 229; 230; 230; 231; 231; 232; 232; 233; 233; 234; 234; 235; 235; 236; 236; 237; 237;
    238; 238; 239; 239; 240; 240; 241; 241; 242; 242; 242; 243; 243; 244; 244; 245; 245; 246; 246; 247; 247;
    248; 248; 249; 249; 249; 250; 250; 251; 251; 252; 252; 253; 253; 254; 254; 254; 255; 255].

(** Indexing by a [u8] is always in range of the 256 entries. *)
Definition srgb_channel_to_dim_level (srgb : Z) : Z := default 0 (aget SRGB_TO_DIM_LEVEL srgb).
Definition dim_level_to_srgb_channel (dim : Z) : Z := default 0 (aget DIM_LEVEL_TO_SRGB dim).

End Gear.
