(* ===== verification/GearCommand.v ===== *)
(** * Control-gear commands and their wire form

    Models [crates/dali2rust-domain/src/dali/pres]: [standard.rs], [special.rs],
    [extended.rs], [command.rs], [opcode.rs] and [codec.rs]. *)

From S2P Require Import Prelude Gear.

Module GearCommand.
Import Gear.

(** ** Standard commands *)

Inductive StandardCommand :=
  | DirectArcPower (level : Z) | Off | Up | Down | StepUp
  | StepDown | RecallMaxLevel | RecallMinLevel | StepDownAndOff | OnAndStepUp
  | EnableDapcSequence | GoToLastActiveLevel | GoToScene (scene : Z) | Reset | StoreActualLevelInDtr0
  | SavePersistentVariables | SetOperatingMode | ResetMemoryBank | IdentifyDevice | SetMaxLevel
  | SetMinLevel | SetSystemFailureLevel | SetPowerOnLevel | SetFadeTime | SetFadeRate
  | SetExtendedFadeTime | SetScene (scene : Z) | RemoveScene (scene : Z) | AddToGroup (group : Z) | RemoveFromGroup (group : Z)
  | SetShortAddress | EnableWriteMemory | QueryStatus | QueryControlGearPresent | QueryLampFailure
  | QueryLampPowerOn | QueryLimitError | QueryResetState | QueryMissingShortAddress | QueryVersionNumber
  | QueryContentDtr0 | QueryDeviceType | QueryPhysicalMinimum | QueryPowerFailure | QueryContentDtr1
  | QueryContentDtr2 | QueryOperatingMode | QueryLightSourceType | QueryActualLevel | QueryMaxLevel
  | QueryMinLevel | QueryPowerOnLevel | QuerySystemFailureLevel | QueryFadeTimeFadeRate | QueryManufacturerSpecificMode
  | QueryControlGearFailure | QueryExtendedFadeTime | QueryNextDeviceType | QuerySceneLevel (scene : Z) | QueryGroups0To7
  | QueryGroups8To15 | QueryRandomAddressH | QueryRandomAddressM | QueryRandomAddressL.

Inductive CommandEncoding :=
  | EncDirectArc (level : Z) | EncSimple (opcode : Z) | EncScene (base scene : Z) | EncQuery (opcode : Z)
  | EncQueryWithParam (base param : Z) | EncConfig (opcode : Z) | EncConfigWithParam (base param : Z).

Definition encoding_arc_power (c : StandardCommand) : option CommandEncoding :=
  match c with
  | DirectArcPower level => Some (EncDirectArc level)
  | Off => Some (EncSimple 0x00)
  | Up => Some (EncSimple 0x01)
  | Down => Some (EncSimple 0x02)
  | StepUp => Some (EncSimple 0x03)
  | StepDown => Some (EncSimple 0x04)
  | RecallMaxLevel => Some (EncSimple 0x05)
  | RecallMinLevel => Some (EncSimple 0x06)
  | StepDownAndOff => Some (EncSimple 0x07)
  | OnAndStepUp => Some (EncSimple 0x08)
  | EnableDapcSequence => Some (EncSimple 0x09)
  | GoToLastActiveLevel => Some (EncSimple 0x0A)
  | GoToScene scene => Some (EncScene 0x10 scene)
  | _ => None
  end.

Definition encoding_config (c : StandardCommand) : option CommandEncoding :=
  match c with
  | Reset => Some (EncConfig 0x20)
  | StoreActualLevelInDtr0 => Some (EncConfig 0x21)
  | SavePersistentVariables => Some (EncConfig 0x22)
  | SetOperatingMode => Some (EncConfig 0x23)
  | ResetMemoryBank => Some (EncConfig 0x24)
  | IdentifyDevice => Some (EncConfig 0x25)
  | SetMaxLevel => Some (EncConfig 0x2A)
  | SetMinLevel => Some (EncConfig 0x2B)
  | SetSystemFailureLevel => Some (EncConfig 0x2C)
  | SetPowerOnLevel => Some (EncConfig 0x2D)
  | SetFadeTime => Some (EncConfig 0x2E)
  | SetFadeRate => Some (EncConfig 0x2F)
  | SetExtendedFadeTime => Some (EncConfig 0x30)
  | SetScene scene => Some (EncConfigWithParam 0x40 scene)
  | RemoveScene scene => Some (EncConfigWithParam 0x50 scene)
  | AddToGroup group => Some (EncConfigWithParam 0x60 group)
  | RemoveFromGroup group => Some (EncConfigWithParam 0x70 group)
  | SetShortAddress => Some (EncConfig 0x80)
  | EnableWriteMemory => Some (EncConfig 0x81)
  | _ => None
  end.

Definition encoding_query (c : StandardCommand) : option CommandEncoding :=
  match c with
  | QueryStatus => Some (EncQuery 0x90)
  | QueryControlGearPresent => Some (EncQuery 0x91)
  | QueryLampFailure => Some (EncQuery 0x92)
  | QueryLampPowerOn => Some (EncQuery 0x93)
  | QueryLimitError => Some (EncQuery 0x94)
  | QueryResetState => Some (EncQuery 0x95)
  | QueryMissingShortAddress => Some (EncQuery 0x96)
  | QueryVersionNumber => Some (EncQuery 0x97)
  | QueryContentDtr0 => Some (EncQuery 0x98)
  | QueryDeviceType => Some (EncQuery 0x99)
  | QueryPhysicalMinimum => Some (EncQuery 0x9A)
  | QueryPowerFailure => Some (EncQuery 0x9B)
  | QueryContentDtr1 => Some (EncQuery 0x9C)
  | QueryContentDtr2 => Some (EncQuery 0x9D)
  | QueryOperatingMode => Some (EncQuery 0x9E)
  | QueryLightSourceType => Some (EncQuery 0x9F)
  | QueryActualLevel => Some (EncQuery 0xA0)
  | QueryMaxLevel => Some (EncQuery 0xA1)
  | QueryMinLevel => Some (EncQuery 0xA2)
  | QueryPowerOnLevel => Some (EncQuery 0xA3)
  | QuerySystemFailureLevel => Some (EncQuery 0xA4)
  | QueryFadeTimeFadeRate => Some (EncQuery 0xA5)
  | QueryManufacturerSpecificMode => Some (EncQuery 0xA6)
  | QueryControlGearFailure => Some (EncQuery 0xAA)
  | QueryExtendedFadeTime => Some (EncQuery 0xA8)
  | QueryNextDeviceType => Some (EncQuery 0xA7)
  | QuerySceneLevel scene => Some (EncQueryWithParam 0xB0 scene)
  | QueryGroups0To7 => Some (EncQuery 0xC0)
  | QueryGroups8To15 => Some (EncQuery 0xC1)
  | QueryRandomAddressH => Some (EncQuery 0xC2)
  | QueryRandomAddressM => Some (EncQuery 0xC3)
  | QueryRandomAddressL => Some (EncQuery 0xC4)
  | _ => None
  end.

(** [None] is the [unreachable!] at the end. *)
Definition encoding (c : StandardCommand) : option CommandEncoding :=
  match encoding_arc_power c with
  | Some enc => Some enc
  | None =>
      match encoding_config c with
      | Some enc => Some enc
      | None => encoding_query c
      end
  end.

Definition standard_is_query (c : StandardCommand) : bool :=
  match encoding c with Some (EncQuery _) | Some (EncQueryWithParam _ _) => true | _ => false end.

Definition standard_requires_repeat (c : StandardCommand) : bool :=
  match encoding c with Some (EncConfig _) | Some (EncConfigWithParam _ _) => true | _ => false end.

Definition standard_to_forward_frame (c : StandardCommand) (address : DaliAddress) : option Z :=
  let addr := encode_address_byte address in
  match encoding c with
  | None => None
  | Some (EncDirectArc level) => Some (frame_new addr level)
  | Some (EncSimple opcode) => Some (frame_new (Z.lor addr 0x01) opcode)
  | Some (EncScene base scene) => Some (frame_new (Z.lor addr 0x01) (Z.lor base (Z.land scene 0x0F)))
  | Some (EncQuery opcode) => Some (frame_new (Z.lor addr 0x01) opcode)
  | Some (EncQueryWithParam base param) => Some (frame_new (Z.lor addr 0x01) (Z.lor base (Z.land param 0x0F)))
  | Some (EncConfig opcode) => Some (frame_new (Z.lor addr 0x01) opcode)
  | Some (EncConfigWithParam base param) => Some (frame_new (Z.lor addr 0x01) (Z.lor base (Z.land param 0x0F)))
  end.

(** ** Special commands *)

Inductive SpecialCommand :=
  | Terminate | Dtr0 (data : Z) | Initialise (data : Z) | Randomise | Compare
  | Withdraw | Ping | SearchAddrH (data : Z) | SearchAddrM (data : Z) | SearchAddrL (data : Z)
  | ProgramShortAddress (data : Z) | VerifyShortAddress (data : Z) | QueryShortAddress | PhysicalSelection | EnableDeviceType (data : Z)
  | Dtr1 (data : Z) | Dtr2 (data : Z) | WriteMemoryLocation (data : Z) | WriteMemoryLocationNoReply (data : Z).

Definition wire_bytes (c : SpecialCommand) : Z * Z :=
  match c with
  | Terminate => (0xA1, 0x00)
  | Dtr0 data => (0xA3, data)
  | Initialise data => (0xA5, data)
  | Randomise => (0xA7, 0x00)
  | Compare => (0xA9, 0x00)
  | Withdraw => (0xAB, 0x00)
  | Ping => (0xAD, 0x00)
  | SearchAddrH data => (0xB1, data)
  | SearchAddrM data => (0xB3, data)
  | SearchAddrL data => (0xB5, data)
  | ProgramShortAddress addr => (0xB7, addr)
  | VerifyShortAddress addr => (0xB9, addr)
  | QueryShortAddress => (0xBB, 0x00)
  | PhysicalSelection => (0xBD, 0x00)
  | EnableDeviceType dt => (0xC1, dt)
  | Dtr1 data => (0xC3, data)
  | Dtr2 data => (0xC5, data)
  | WriteMemoryLocation data => (0xC7, data)
  | WriteMemoryLocationNoReply data => (0xC9, data)
  end.

Definition special_to_forward_frame (c : SpecialCommand) : Z := let '(addr, cmd) := wire_bytes c in frame_new addr cmd.

Definition special_expects_backward (c : SpecialCommand) : bool :=
  match c with
  | Compare | VerifyShortAddress _ | QueryShortAddress | WriteMemoryLocation _ => true
  | _ => false
  end.

Definition special_requires_repeat (c : SpecialCommand) : bool :=
  match c with Initialise _ | Randomise => true | _ => false end.

Inductive QueryShortAddressAnswer := QsaAddress (a : Z) | QsaUnaddressed | QsaMultiple | QsaNone.

Definition qsa_decode (byte : option Z) (violation : bool) : QueryShortAddressAnswer :=
  if violation then QsaMultiple
  else match byte with
       | Some raw => if raw =? 0xFF then QsaUnaddressed
                     else if negb (Z.land raw 0x01 =? 0) then QsaAddress (Z.land (Z.shiftr raw 1) 0x3F)
                     else QsaNone
       | None => QsaNone
       end.

(** ** Extended commands *)

Definition QUERY_EXTENDED_VERSION_NUMBER_OPCODE : Z := 0xFF.

Inductive ExtendedCommand :=
  | Dt6 (c : Dt6Command) | Dt7 (c : Dt7Command) | Dt8 (c : Dt8Command) | ExtendedVersion (device_type : Z).

Definition extended_from_opcode (opcode : Z) : option ExtendedCommand :=
  match option_map Dt6 (dt6_from_opcode opcode) with
  | Some c => Some c
  | None => option_map Dt8 (dt8_from_opcode opcode)
  end.

Definition extended_to_forward_frame (c : ExtendedCommand) (address : DaliAddress) : Z :=
  match c with
  | Dt6 c => device_to_forward_frame c address
  | Dt7 c => device_to_forward_frame c address
  | Dt8 c => device_to_forward_frame c address
  | ExtendedVersion _ =>
      frame_new (Z.lor (encode_address_byte address) 0x01) QUERY_EXTENDED_VERSION_NUMBER_OPCODE
  end.

Definition extended_is_query (c : ExtendedCommand) : bool :=
  match c with
  | Dt6 c => device_is_query c | Dt7 c => device_is_query c | Dt8 c => dt8_is_query c
  | ExtendedVersion _ => true
  end.

Definition extended_requires_repeat (c : ExtendedCommand) : bool :=
  match c with
  | Dt6 c => device_requires_repeat c | Dt7 c => device_requires_repeat c | Dt8 c => device_requires_repeat c
  | ExtendedVersion _ => false
  end.

Definition enable_device_type (c : ExtendedCommand) : Z :=
  match c with
  | Dt6 c => code (default Led (md_device_type (metadata c)))
  | Dt7 c => code (default Led (md_device_type (metadata c)))
  | Dt8 c => code (default Led (md_device_type (metadata c)))
  | ExtendedVersion device_type => device_type
  end.

(** ** [DaliCommand] *)

Inductive DaliCommand :=
  | Standard (address : DaliAddress) (command : StandardCommand)
  | Extended (address : DaliAddress) (command : ExtendedCommand)
  | Special (command : SpecialCommand).

Definition command_address (c : DaliCommand) : option DaliAddress :=
  match c with Standard a _ => Some a | Extended a _ => Some a | Special _ => None end.

Definition to_forward_frame (c : DaliCommand) : option Z :=
  match c with
  | Standard address command => standard_to_forward_frame command address
  | Extended address command => Some (extended_to_forward_frame command address)
  | Special cmd => Some (special_to_forward_frame cmd)
  end.

Definition is_query (c : DaliCommand) : bool :=
  match c with
  | Standard _ command => standard_is_query command
  | Extended _ command => extended_is_query command
  | Special cmd => special_expects_backward cmd
  end.

Definition requires_repeat (c : DaliCommand) : bool :=
  match c with
  | Standard _ command => standard_requires_repeat command
  | Extended _ command => extended_requires_repeat command
  | Special cmd => special_requires_repeat cmd
  end.

Inductive DaliResponse := RespAnswer (value : Z) | NoAnswer | Violation.

Definition from_backward (frame : option Z) : DaliResponse :=
  match frame with Some f => RespAnswer f | None => NoAnswer end.

Definition response_value (r : DaliResponse) : option Z :=
  match r with RespAnswer v => Some v | _ => None end.

Definition is_yes (r : DaliResponse) : bool :=
  match r with RespAnswer _ | Violation => true | NoAnswer => false end.

(** ** Opcode tables *)

Definition QUERY_OPCODES : list Z :=
  [0x90; 0x91; 0x92; 0x93; 0x94; 0x95; 0x96; 0x97; 0x98; 0x99; 0x9A; 0x9B; 0x9C; 0x9D; 0x9E; 0x9F; 0xA0; 0xA1; 0xA2; 0xA3; 0xA4; 0xA5; 0xA6; 0xA7; 0xA8; 0xAA; 0xC2; 0xC3; 0xC4].

(** The [while] loop of [is_query_opcode] scans the table. *)
Definition READ_MEMORY_LOCATION_OPCODE : Z := 0xC5.
Definition is_query_opcode (opcode : Z) : bool :=
  if ((0xB0 <=? opcode) && (opcode <=? 0xBF)) || (opcode =? 0xC0) || (opcode =? 0xC1) then true
  else existsb (fun q => q =? opcode) QUERY_OPCODES.

Definition is_config_opcode_range (opcode : Z) : bool := (0x80 <=? opcode) && (opcode <=? 0x8F).

(** ** Decoding the wire *)

Definition try_decode_special (wire_address command : Z) : option SpecialCommand :=
  match wire_address with
  | 0xA1 => if command =? 0x00 then Some Terminate else None
  | 0xA3 => Some (Dtr0 command)
  | 0xA5 => Some (Initialise command)
  | 0xA7 => if command =? 0x00 then Some Randomise else None
  | 0xA9 => if command =? 0x00 then Some Compare else None
  | 0xAB => if command =? 0x00 then Some Withdraw else None
  | 0xAD => if command =? 0x00 then Some Ping else None
  | 0xB1 => Some (SearchAddrH command)
  | 0xB3 => Some (SearchAddrM command)
  | 0xB5 => Some (SearchAddrL command)
  | 0xB7 => Some (ProgramShortAddress command)
  | 0xB9 => Some (VerifyShortAddress command)
  | 0xBB => if command =? 0x00 then Some QueryShortAddress else None
  | 0xBD => if command =? 0x00 then Some PhysicalSelection else None
  | 0xC1 => Some (EnableDeviceType command)
  | 0xC3 => Some (Dtr1 command)
  | 0xC5 => Some (Dtr2 command)
  | 0xC7 => Some (WriteMemoryLocation command)
  | 0xC9 => Some (WriteMemoryLocationNoReply command)
  | _ => None
  end.

Definition decode_arc_power_control (command : Z) : option StandardCommand :=
  match command with
  | 0x00 => Some Off
  | 0x01 => Some Up
  | 0x02 => Some Down
  | 0x03 => Some StepUp
  | 0x04 => Some StepDown
  | 0x05 => Some RecallMaxLevel
  | 0x06 => Some RecallMinLevel
  | 0x07 => Some StepDownAndOff
  | 0x08 => Some OnAndStepUp
  | 0x09 => Some EnableDapcSequence
  | 0x0A => Some GoToLastActiveLevel
  | _ => None
  end.

Definition decode_scene_and_group_command (command : Z) : option StandardCommand :=
  if in_range command 0x10 0x1F then Some (GoToScene (Z.land command 0x0F))
  else if in_range command 0x40 0x4F then Some (SetScene (Z.land command 0x0F))
  else if in_range command 0x50 0x5F then Some (RemoveScene (Z.land command 0x0F))
  else if in_range command 0x60 0x6F then Some (AddToGroup (Z.land command 0x0F))
  else if in_range command 0x70 0x7F then Some (RemoveFromGroup (Z.land command 0x0F))
  else None.

Definition decode_configuration_command (command : Z) : option StandardCommand :=
  match command with
  | 0x20 => Some Reset
  | 0x21 => Some StoreActualLevelInDtr0
  | 0x22 => Some SavePersistentVariables
  | 0x23 => Some SetOperatingMode
  | 0x24 => Some ResetMemoryBank
  | 0x25 => Some IdentifyDevice
  | 0x2A => Some SetMaxLevel
  | 0x2B => Some SetMinLevel
  | 0x2C => Some SetSystemFailureLevel
  | 0x2D => Some SetPowerOnLevel
  | 0x2E => Some SetFadeTime
  | 0x2F => Some SetFadeRate
  | 0x30 => Some SetExtendedFadeTime
  | 0x81 => Some EnableWriteMemory
  | 0x80 => Some SetShortAddress
  | _ => None
  end.

Definition decode_query_command (command : Z) : option StandardCommand :=
  if in_range command 0xB0 0xBF then Some (QuerySceneLevel (Z.land command 0x0F))
  else
    match command with
    | 0x90 => Some QueryStatus
    | 0x91 => Some QueryControlGearPresent
    | 0x92 => Some QueryLampFailure
    | 0x93 => Some QueryLampPowerOn
    | 0x94 => Some QueryLimitError
    | 0x95 => Some QueryResetState
    | 0x96 => Some QueryMissingShortAddress
    | 0x97 => Some QueryVersionNumber
    | 0x98 => Some QueryContentDtr0
    | 0x99 => Some QueryDeviceType
    | 0x9A => Some QueryPhysicalMinimum
    | 0x9B => Some QueryPowerFailure
    | 0x9C => Some QueryContentDtr1
    | 0x9D => Some QueryContentDtr2
    | 0x9E => Some QueryOperatingMode
    | 0x9F => Some QueryLightSourceType
    | 0xA0 => Some QueryActualLevel
    | 0xA1 => Some QueryMaxLevel
    | 0xA2 => Some QueryMinLevel
    | 0xA3 => Some QueryPowerOnLevel
    | 0xA4 => Some QuerySystemFailureLevel
    | 0xA5 => Some QueryFadeTimeFadeRate
    | 0xA6 => Some QueryManufacturerSpecificMode
    | 0xA7 => Some QueryNextDeviceType
    | 0xAA => Some QueryControlGearFailure
    | 0xA8 => Some QueryExtendedFadeTime
    | 0xC0 => Some QueryGroups0To7
    | 0xC1 => Some QueryGroups8To15
    | 0xC2 => Some QueryRandomAddressH
    | 0xC3 => Some QueryRandomAddressM
    | 0xC4 => Some QueryRandomAddressL
    | _ => None
    end.

(** [Err(DecodeError)] is [None]. *)
Definition decode_standard_command (command : Z) : option StandardCommand :=
  match decode_arc_power_control command with
  | Some cmd => Some cmd
  | None =>
      match decode_scene_and_group_command command with
      | Some cmd => Some cmd
      | None =>
          match decode_configuration_command command with
          | Some cmd => Some cmd
          | None => decode_query_command command
          end
      end
  end.

Definition dali_command_from_wire (wire_address command : Z) : option DaliCommand :=
  match try_decode_special wire_address command with
  | Some special => Some (Special special)
  | None =>
      match decode_wire_address wire_address with
      | None => None
      | Some address =>
          if Z.land wire_address 0x01 =? 0 then Some (Standard address (DirectArcPower command))
          else
            match extended_from_opcode command with
            | Some extended => Some (Extended address extended)
            | None => option_map (Standard address) (decode_standard_command command)
            end
      end
  end.

(** ** Round trips *)

Definition address_ok (a : DaliAddress) : Prop :=
  match a with Short a => in_u 6 a | Group a => in_u 4 a | _ => True end.

Definition standard_ok (c : StandardCommand) : Prop :=
  match c with
  | DirectArcPower level => in_u 8 level
  | GoToScene x | SetScene x | RemoveScene x | AddToGroup x | RemoveFromGroup x | QuerySceneLevel x => in_u 4 x
  | _ => True
  end.

Definition special_ok (c : SpecialCommand) : Prop := in_u 8 (snd (wire_bytes c)).

Definition extended_ok (c : ExtendedCommand) : Prop :=
  match c with ExtendedVersion t => in_u 8 t | _ => True end.

Definition command_ok (c : DaliCommand) : Prop :=
  match c with
  | Standard a c => address_ok a /\ standard_ok c
  | Extended a c => address_ok a /\ extended_ok c
  | Special c => special_ok c
  end.

Lemma frame_bytes a b : in_u 8 a -> in_u 8 b ->
  address_byte (frame_new a b) = a /\ command_byte (frame_new a b) = b /\ in_u 16 (frame_new a b).
Proof.
  intros Ha Hb. assert (frame_new a b = 256 * a + b) as E.
  { unfold frame_new, shl. rewrite Z.shiftl_mul_pow2, wrap_id by (unfold in_u in *; lia).
    rewrite lor_disjoint by (done || lia). lia. }
  unfold address_byte, command_byte. rewrite E, Z.shiftr_div_pow2 by lia. change 255 with (Z.ones 8).
  rewrite Z.land_ones by lia. unfold wrap, in_u in *. change (2 ^ 8) with 256 in *. dlia.
Qed.

Definition special_address (w : Z) : bool :=
  existsb (Z.eqb w) [0xA1; 0xA3; 0xA5; 0xA7; 0xA9; 0xAB; 0xAD; 0xB1; 0xB3; 0xB5; 0xB7; 0xB9; 0xBB; 0xBD;
                     0xC1; 0xC3; 0xC5; 0xC7; 0xC9].

Lemma try_decode_special_none w c : special_address w = false -> try_decode_special w c = None.
Proof.
  destruct w as [|p|p]; [done| |done]. do 8 (destruct p as [p|p|]; try done).
Qed.

(** An address byte, in its DAPC (even) and command (odd) form. *)
Lemma address_byte_forms a : address_ok a ->
  let b := encode_address_byte a in
  (in_u 8 b /\ Z.land b 1 = 0 /\ decode_wire_address b = Some a /\ special_address b = false) /\
  (in_u 8 (Z.lor b 1) /\ Z.land (Z.lor b 1) 1 = 1 /\ decode_wire_address (Z.lor b 1) = Some a
   /\ special_address (Z.lor b 1) = false).
Proof.
  destruct a as [a|a| |]; cbn [address_ok]; [revert a; by_evaluation..| |]; intros _; easy.
Qed.

(** Decoding the frame of a command of each kind. *)
Lemma wire_special c : special_ok c ->
  let f := special_to_forward_frame c in
  in_u 16 f /\ dali_command_from_wire (address_byte f) (command_byte f) = Some (Special c).
Proof.
  unfold special_ok, special_to_forward_frame. intros Hd.
  assert (in_u 8 (fst (wire_bytes c))) as Ha by (destruct c; easy).
  destruct (wire_bytes c) as [a d] eqn:E. cbn [fst snd] in *. cbn zeta.
  destruct (frame_bytes a d Ha Hd) as (-> & -> & Hf). split; [done|].
  unfold dali_command_from_wire. destruct c; cbn in E; simplify_eq; done.
Qed.

Lemma wire_addressed a opcode : address_ok a -> in_u 8 opcode ->
  let f := frame_new (Z.lor (encode_address_byte a) 1) opcode in
  in_u 16 f /\ dali_command_from_wire (address_byte f) (command_byte f) =
    match extended_from_opcode opcode with
    | Some e => Some (Extended a e)
    | None => option_map (Standard a) (decode_standard_command opcode)
    end.
Proof.
  intros Ha Ho. destruct (address_byte_forms a Ha) as [_ (Hb & Hodd & Hdec & Hsp)]. cbn zeta.
  destruct (frame_bytes _ opcode Hb Ho) as (-> & -> & Hf). split; [done|].
  unfold dali_command_from_wire. now rewrite try_decode_special_none, Hdec, Hodd by done.
Qed.

Lemma wire_dapc a level : address_ok a -> in_u 8 level ->
  let f := frame_new (encode_address_byte a) level in
  in_u 16 f /\ dali_command_from_wire (address_byte f) (command_byte f) = Some (Standard a (DirectArcPower level)).
Proof.
  intros Ha Ho. destruct (address_byte_forms a Ha) as [(Hb & Heven & Hdec & Hsp) _]. cbn zeta.
  destruct (frame_bytes _ level Hb Ho) as (-> & -> & Hf). split; [done|].
  unfold dali_command_from_wire. now rewrite try_decode_special_none, Hdec, Heven by done.
Qed.

(** The opcode byte of a standard command other than DAPC. *)
Definition standard_opcode (c : StandardCommand) : Z :=
  match encoding c with
  | Some (EncSimple o) | Some (EncQuery o) | Some (EncConfig o) => o
  | Some (EncScene b x) | Some (EncQueryWithParam b x) | Some (EncConfigWithParam b x) => Z.lor b (Z.land x 0x0F)
  | _ => 0
  end.

#[global] Instance StandardCommand_eq_dec : EqDecision StandardCommand.
Proof. solve_decision. Defined.
#[global] Instance Dt6Command_eq_dec : EqDecision Dt6Command.
Proof. solve_decision. Defined.
#[global] Instance Dt7Command_eq_dec : EqDecision Dt7Command.
Proof. unfold EqDecision, Decision. repeat decide equality. Defined.
#[global] Instance Dt8Command_eq_dec : EqDecision Dt8Command.
Proof. solve_decision. Defined.
#[global] Instance ExtendedCommand_eq_dec : EqDecision ExtendedCommand.
Proof. solve_decision. Defined.

Definition is_dapc (c : StandardCommand) : bool := match c with DirectArcPower _ => true | _ => false end.

Lemma standard_opcode_decodes c : standard_ok c -> is_dapc c = false ->
  in_u 8 (standard_opcode c) /\ extended_from_opcode (standard_opcode c) = None /\
  decode_standard_command (standard_opcode c) = Some c.
Proof.
  assert (forall x, in_u 4 x -> Forall (fun c =>
    in_u 8 (standard_opcode c) /\ extended_from_opcode (standard_opcode c) = None /\
    decode_standard_command (standard_opcode c) = Some c)
    [GoToScene x; SetScene x; RemoveScene x; AddToGroup x; RemoveFromGroup x; QuerySceneLevel x]) as Hparam
    by by_evaluation.
  intros Hok Hd. destruct c; try discriminate; try (split; [easy|split; reflexivity]);
    cbn [standard_ok] in Hok; specialize (Hparam _ Hok);
    rewrite List.Forall_forall in Hparam; apply Hparam; cbn; tauto.
Qed.

Lemma standard_frame c a : is_dapc c = false ->
  standard_to_forward_frame c a = Some (frame_new (Z.lor (encode_address_byte a) 1) (standard_opcode c)).
Proof. destruct c; try discriminate; reflexivity. Qed.

(** Device-type opcodes are shared between the device types, and the wire does
    not carry the type: decoding prefers device type 6, then 8. *)
Definition extended_opcode (c : ExtendedCommand) : Z :=
  match c with
  | Dt6 c => device_opcode c | Dt7 c => device_opcode c | Dt8 c => device_opcode c
  | ExtendedVersion _ => QUERY_EXTENDED_VERSION_NUMBER_OPCODE
  end.

Definition canonical (c : DaliCommand) : DaliCommand :=
  match c with
  | Extended a e => Extended a (default e (extended_from_opcode (extended_opcode e)))
  | _ => c
  end.

Lemma extended_opcode_decodes e :
  in_u 8 (extended_opcode e) /\ exists e', extended_from_opcode (extended_opcode e) = Some e'.
Proof.
  destruct e as [c|c|c|t]; [destruct c|destruct c as [|t| | | |t| | | | |]; try destruct t|destruct c|];
    (split; [easy|eexists; reflexivity]).
Qed.

(** C35: command round trip.  Every command with in-range parameters has a
    forward frame, and the frame's two bytes decode to that command: exactly
    for standard and special commands; for device-type commands, to the
    command that decoding assigns to the opcode (device type 6 first, then 8),
    with the same address and opcode. *)
Theorem command_wire_roundtrip c :
  command_ok c ->
  exists f, to_forward_frame c = Some f /\ in_u 16 f /\
    dali_command_from_wire (address_byte f) (command_byte f) = Some (canonical c).
Proof.
  destruct c as [a c|a e|c]; cbn [command_ok to_forward_frame canonical].
  - intros [Ha Hc]. destruct (is_dapc c) eqn:Hd.
    + destruct c; try discriminate. eexists. split; [reflexivity|]. now apply wire_dapc.
    + rewrite standard_frame by done. eexists. split; [reflexivity|].
      destruct (standard_opcode_decodes c Hc Hd) as (Ho & He & Hs).
      destruct (wire_addressed a _ Ha Ho) as [Hf Hdec]. split; [done|]. now rewrite Hdec, He, Hs.
  - intros [Ha _]. eexists. split; [reflexivity|].
    destruct (extended_opcode_decodes e) as (Ho & e' & He).
    destruct (wire_addressed a _ Ha Ho) as [Hf Hdec]. rewrite He in *. cbn [default].
    destruct e; (split; [exact Hf|exact Hdec]).
  - intros Hc. eexists. split; [reflexivity|]. now apply wire_special.
Qed.

Lemma command_wire_roundtrip_witness :
  exists f, to_forward_frame (Standard (Group 3) (GoToScene 7)) = Some f /\ in_u 16 f /\
    dali_command_from_wire (address_byte f) (command_byte f) = Some (Standard (Group 3) (GoToScene 7)).
Proof. apply (command_wire_roundtrip (Standard (Group 3) (GoToScene 7))). split; easy. Defined.

Definition reencodes (w c : Z) : bool :=
  match dali_command_from_wire w c with
  | Some cmd => bool_decide (to_forward_frame cmd = Some (frame_new w c))
  | None => true
  end.

Lemma reencodes_all w : in_u 8 w -> forall c, in_u 8 c -> reencodes w c = true.
Proof.
  assert (forall w, in_u 8 w -> forallb (reencodes w) (seqZ 0 256) = true) as H by by_evaluation.
  intros Hw c Hc. specialize (H w Hw). rewrite forallb_forall in H. apply H.
  apply list_elem_of_In, elem_of_seqZ. unfold in_u in Hc. lia.
Qed.

(** decoding loses nothing.  Whatever two bytes decode to, the command's
    forward frame is those two bytes again (all 65,536 frames). *)
Theorem wire_command_roundtrip w c cmd :
  in_u 8 w -> in_u 8 c -> dali_command_from_wire w c = Some cmd ->
  to_forward_frame cmd = Some (frame_new w c).
Proof.
  intros Hw Hc Hd. pose proof (reencodes_all w Hw c Hc) as H. unfold reencodes in H. rewrite Hd in H.
  now apply bool_decide_eq_true in H.
Qed.

Lemma wire_command_roundtrip_witness :
  to_forward_frame (Special (ProgramShortAddress 11)) = Some (frame_new 0xB7 11).
Proof. apply (wire_command_roundtrip 0xB7 11); [easy|easy|reflexivity]. Defined.

Lemma standard_not_both c : standard_is_query c && standard_requires_repeat c = false.
Proof. now destruct c. Qed.

Lemma query_opcode_agrees opcode c :
  in_u 8 opcode -> decode_standard_command opcode = Some c -> standard_is_query c = is_query_opcode opcode.
Proof.
  assert (forall o, in_u 8 o -> match decode_standard_command o with
    | Some c => standard_is_query c = is_query_opcode o | None => is_query_opcode o = false end) as H.
  { intros o. enough (forall o, in_u 8 o -> bool_decide (match decode_standard_command o with
      | Some c => standard_is_query c | None => false end = is_query_opcode o) = true) as H.
    { intros Ho. specialize (H o Ho). apply bool_decide_eq_true in H. now destruct (decode_standard_command o). }
    by_evaluation. }
  intros Ho Hd. specialize (H opcode Ho). now rewrite Hd in H.
Qed.

(** A command is sent once or twice, never both asked and repeated: no
    command that expects a backward frame requires the send-twice repetition,
    and the opcode table [QUERY_OPCODES] agrees with the command set on every
    standard opcode. *)
Theorem queries_are_not_repeated :
  (forall c, is_query c && requires_repeat c = false) /\
  (forall opcode c, in_u 8 opcode -> decode_standard_command opcode = Some c ->
     standard_is_query c = is_query_opcode opcode).
Proof.
  split; [|apply query_opcode_agrees].
  intros [a c|a e|c]; cbn [is_query requires_repeat]; [apply standard_not_both| |now destruct c].
  destruct e as [c|c|c|t]; [now destruct c| |now destruct c|done].
  now destruct c as [|t| | | |t| | | | |]; try destruct t.
Qed.

End GearCommand.
