(* ===== verification/GearState.v ===== *)
(** * Gear state, level arithmetic and transmission timing

    Models, of [crates/dali2rust-domain/src/dali]: [status.rs] (the status
    byte), [level_transition.rs] (the level a gear reaches after a step
    command), [ses/session.rs] (frame priorities and settling times) and
    [ses/transaction.rs] (retry backoff); and the colour-channel tables of
    [devices/dt8_color.rs] through [Gear]. *)

From S2P Require Import Prelude Gear GearCommand.

Module GearState.
Import Gear GearCommand.

(** ** The status byte *)

Record StatusFlags := MkStatus {
  sf_raw : Z; lamp_failure : bool; gear_failure : bool; lamp_on : bool; limit_error : bool;
  fade_running : bool; reset_state : bool; missing_short_address : bool; power_cycle_seen : bool }.

Definition status_decode (raw : Z) : StatusFlags :=
  MkStatus raw (has_bits raw 0x02) (has_bits raw 0x01) (has_bits raw 0x04) (has_bits raw 0x08)
    (has_bits raw 0x10) (has_bits raw 0x20) (has_bits raw 0x40) (has_bits raw 0x80).

Definition or_if (b : bool) (mask raw : Z) : Z := if b then Z.lor raw mask else raw.

Definition status_encode (f : StatusFlags) : Z :=
  let raw := 0 in
  let raw := or_if (gear_failure f) 0x01 raw in
  let raw := or_if (lamp_failure f) 0x02 raw in
  let raw := or_if (lamp_on f) 0x04 raw in
  let raw := or_if (limit_error f) 0x08 raw in
  let raw := or_if (fade_running f) 0x10 raw in
  let raw := or_if (reset_state f) 0x20 raw in
  let raw := or_if (missing_short_address f) 0x40 raw in
  or_if (power_cycle_seen f) 0x80 raw.

(** ** Level transitions *)

Inductive LevelTransition :=
  | TrRecallMaxLevel | TrRecallMinLevel | TrStepUp | TrStepDown | TrStepDownAndOff | TrOnAndStepUp
  | TrGoToLastActiveLevel | TrUp | TrDown.

Record LevelContext := MkLevelContext {
  target_level : option Z; min_level : option Z; max_level : option Z; last_active_level : option Z }.

Inductive TransitionOutcome := Level (level : Z) | Unchanged | OnAtUnknownLevel | Unknown.

Definition absolute (value stored : option Z) : TransitionOutcome :=
  match value, stored with
  | None, _ => OnAtUnknownLevel
  | Some level, Some stored => if level =? stored then Unchanged else Level level
  | Some level, None => Level level
  end.

Definition unresolved (t : LevelTransition) : TransitionOutcome :=
  match t with TrOnAndStepUp => OnAtUnknownLevel | _ => Unknown end.

Definition step_level (t : LevelTransition) (ctx : LevelContext) : TransitionOutcome :=
  match target_level ctx, min_level ctx, max_level ctx with
  | Some target, Some min, Some max =>
      if max <? min then unresolved t
      else
        match t with
        | TrStepUp =>
            if target =? 0 then Unchanged else if max <=? target then Unchanged
            else if min <=? target then Level (sat_add 8 target 1) else Unknown
        | TrStepDown =>
            if target =? 0 then Unchanged else if target <=? min then Unchanged
            else if target <=? max then Level (sat_sub target 1) else Unknown
        | TrStepDownAndOff =>
            if target =? 0 then Unchanged else if target <=? min then Level 0
            else if target <=? max then Level (sat_sub target 1) else Unknown
        | TrOnAndStepUp =>
            if target =? 0 then Level min else if max <=? target then Unchanged
            else if min <=? target then Level (sat_add 8 target 1) else OnAtUnknownLevel
        | _ => Unknown
        end
  | _, _, _ => unresolved t
  end.

Definition dim (t : LevelTransition) (ctx : LevelContext) : TransitionOutcome :=
  match target_level ctx with
  | None => Unknown
  | Some target =>
      let at_bound := match t with
                      | TrUp => match max_level ctx with Some max => max <=? target | None => false end
                      | _ => match min_level ctx with Some min => target <=? min | None => false end
                      end in
      if (target =? 0) || at_bound then Unchanged else OnAtUnknownLevel
  end.

Definition resolve (t : LevelTransition) (ctx : LevelContext) : TransitionOutcome :=
  match t with
  | TrRecallMaxLevel => absolute (max_level ctx) (target_level ctx)
  | TrRecallMinLevel => absolute (min_level ctx) (target_level ctx)
  | TrGoToLastActiveLevel => absolute (last_active_level ctx) (target_level ctx)
  | TrStepUp | TrStepDown | TrStepDownAndOff | TrOnAndStepUp => step_level t ctx
  | TrUp | TrDown => dim t ctx
  end.

(** ** Frame priorities and settling times *)

Inductive DaliPriority := PTransaction | PUserAction | PConfiguration | PAutomatic | PPeriodicQuery.

Definition min_settle_us (p : DaliPriority) : Z :=
  match p with
  | PTransaction => 13500 | PUserAction => 14900 | PConfiguration => 16300 | PAutomatic => 17900
  | PPeriodicQuery => 19500
  end.

Definition max_settle_us (p : DaliPriority) : Z :=
  match p with
  | PTransaction => 14700 | PUserAction => 16100 | PConfiguration => 17700 | PAutomatic => 19300
  | PPeriodicQuery => 21100
  end.

Definition contains_settle_us (p : DaliPriority) (settle_us : Z) : bool :=
  (min_settle_us p <=? settle_us) && (settle_us <=? max_settle_us p).

Inductive TransactionPriority := TTransaction | TUserAction | TConfiguration | TAutomatic | TPeriodicQuery.

Definition first_frame (p : TransactionPriority) : DaliPriority :=
  match p with
  | TTransaction => PTransaction | TUserAction => PUserAction | TConfiguration => PConfiguration
  | TAutomatic => PAutomatic | TPeriodicQuery => PPeriodicQuery
  end.

Definition from_priority (priority : Z) : option TransactionPriority :=
  match priority with
  | 1 => Some TTransaction | 2 => Some TUserAction | 3 => Some TConfiguration | 4 => Some TAutomatic
  | 5 => Some TPeriodicQuery | _ => None
  end.

Definition is_configuration_special (c : SpecialCommand) : bool :=
  match c with WriteMemoryLocation _ | WriteMemoryLocationNoReply _ => true | _ => false end.

Definition command_priority (cmd : DaliCommand) : TransactionPriority :=
  let configures := match cmd with
                    | Standard _ command => standard_requires_repeat command
                    | Extended _ command => extended_requires_repeat command
                    | Special command => is_configuration_special command
                    end in
  if configures then TConfiguration else TUserAction.

(** The clock's [monotonic_ms()] is the argument [now]; durations are in microseconds. *)
Record DaliSession := MkSession { last_transmission_ms : option Z }.

Definition session_new : DaliSession := MkSession None.

Definition min_wait_before_next (s : DaliSession) (settle_us now : Z) : Z :=
  match last_transmission_ms s with
  | Some last_ms =>
      let elapsed_us := sat_mul 64 (sat_sub now last_ms) 1000 in
      if elapsed_us <? settle_us then settle_us - elapsed_us else 0
  | None => 0
  end.

Definition record_transmission (s : DaliSession) (now : Z) : DaliSession := MkSession (Some now).

(** ** Retries *)

Record RetryPolicy := MkRetryPolicy {
  max_attempts : Z; base_backoff_ms : Z; jitter_ms : Z; query_contention_retry : bool }.

Definition retry_new (max_attempts base_backoff_ms jitter_ms : Z) : RetryPolicy :=
  MkRetryPolicy max_attempts base_backoff_ms jitter_ms true.

#[global] Instance eta_RetryPolicy : Eta RetryPolicy := fun p =>
  MkRetryPolicy (max_attempts p) (base_backoff_ms p) (jitter_ms p) (query_contention_retry p).

Definition with_query_contention_retry (p : RetryPolicy) (on : bool) : RetryPolicy :=
  p <| query_contention_retry := on |>.

Definition effective_max_attempts (p : RetryPolicy) : Z := if max_attempts p =? 0 then 1 else max_attempts p.

Definition bounded_jitter (p : RetryPolicy) (jitter_sample : Z) : Z :=
  if jitter_ms p =? 0 then 0 else jitter_sample mod (sat_add 64 (jitter_ms p) 1).

(** In milliseconds. *)
Definition backoff_delay (p : RetryPolicy) (retry_index jitter_sample : Z) : Z :=
  let shift := Z.min retry_index 20 in
  let multiplier := shl 64 1 shift in
  let base := sat_mul 64 (base_backoff_ms p) multiplier in
  let jitter := bounded_jitter p jitter_sample in
  sat_add 64 base jitter.

(** ** Properties *)

(** The status byte round trip: the flags decoded from a byte encode to it
    again, and flags encode to a byte that decodes to the same flags. *)
Lemma status_roundtrip :
  (forall raw, in_u 8 raw -> status_encode (status_decode raw) = raw) /\
  (forall f, status_decode (status_encode f) =
     MkStatus (status_encode f) (lamp_failure f) (gear_failure f) (lamp_on f) (limit_error f) (fade_running f)
       (reset_state f) (missing_short_address f) (power_cycle_seen f)).
Proof.
  split; [by_evaluation|]. intros [r b0 b1 b2 b3 b4 b5 b6 b7].
  destruct b0, b1, b2, b3, b4, b5, b6, b7; reflexivity.
Qed.

(** What IEC 62386-102 asks of a gear that is off ([0]) or between its bounds. *)
Definition stepped (t : LevelTransition) (target min max : Z) : Z :=
  match t with
  | TrStepUp => if target =? 0 then 0 else Z.min max (target + 1)
  | TrStepDown => if target =? 0 then 0 else Z.max min (target - 1)
  | TrStepDownAndOff => if target =? 0 then 0 else if target =? min then 0 else target - 1
  | TrOnAndStepUp => if target =? 0 then min else Z.min max (target + 1)
  | TrRecallMaxLevel => max
  | TrRecallMinLevel => min
  | _ => target
  end.

(** The level an outcome leaves the gear at. *)
Definition outcome_level (target : Z) (o : TransitionOutcome) : option Z :=
  match o with Level l => Some l | Unchanged => Some target | _ => None end.

Definition steps (t : LevelTransition) : bool :=
  match t with
  | TrStepUp | TrStepDown | TrStepDownAndOff | TrOnAndStepUp | TrRecallMaxLevel | TrRecallMinLevel => true
  | _ => false
  end.

(** Level arithmetic.  With the gear's bounds known and the gear off or
    between them, every step and recall command resolves to the level the
    standard prescribes, which is again off or between the bounds. *)
Theorem resolve_steps t target min max last :
  steps t = true -> 1 <= min <= max -> max <= 254 -> target = 0 \/ min <= target <= max ->
  let o := resolve t (MkLevelContext (Some target) (Some min) (Some max) last) in
  outcome_level target o = Some (stepped t target min max) /\
  (stepped t target min max = 0 \/ min <= stepped t target min max <= max).
Proof.
  intros Ht Hmin Hmax Htarget. cbn zeta. unfold resolve, step_level, absolute, stepped. cbn.
  destruct t; try discriminate; repeat case_if; cbn; unfold sat_add, sat_sub, umax;
    try (f_equal; lia); try lia; split; (f_equal; lia) || lia.
Qed.

Lemma resolve_steps_witness :
  let o := resolve TrStepDownAndOff (MkLevelContext (Some 86) (Some 86) (Some 254) None) in
  outcome_level 86 o = Some (stepped TrStepDownAndOff 86 86 254) /\
  (stepped TrStepDownAndOff 86 86 254 = 0 \/ 86 <= stepped TrStepDownAndOff 86 86 254 <= 254).
Proof.
  apply (resolve_steps TrStepDownAndOff 86 86 254 None); [reflexivity|split; discriminate|discriminate|].
  right; split; discriminate.
Defined.

(** Priorities do not overlap.  A settling time lies in the window of at
    most one priority, and a higher priority's whole window ends before a
    lower one's starts, so a frame of higher priority always wins the bus. *)
Lemma settle_windows_disjoint p q settle :
  (contains_settle_us p settle = true -> contains_settle_us q settle = true -> p = q) /\
  (min_settle_us p < min_settle_us q -> max_settle_us p < min_settle_us q).
Proof.
  unfold contains_settle_us. split.
  - intros H1 H2. bprop. destruct p, q; (reflexivity || (cbn in *; lia)).
  - destruct p, q; cbn; lia.
Qed.

(** The session keeps the settling time: after waiting as long as
    [min_wait_before_next] says, at least the settling time has passed since
    the last transmission, and no wait is longer than the settling time. *)
Theorem session_wait_suffices s last settle now :
  in_u 64 now -> in_u 64 last -> last <= now -> in_u 32 settle -> last_transmission_ms s = Some last ->
  let wait := min_wait_before_next s settle now in
  0 <= wait <= settle /\ settle <= (now - last) * 1000 + wait.
Proof.
  intros Hn Hl Hle Hs Hlast. unfold min_wait_before_next. rewrite Hlast. cbn zeta. unfold in_u in *.
  unfold sat_mul, sat_sub, umax. case_if; lia.
Qed.

Lemma session_wait_suffices_witness :
  let wait := min_wait_before_next (record_transmission session_new 1000) (min_settle_us PUserAction) 1003 in
  0 <= wait <= min_settle_us PUserAction /\ min_settle_us PUserAction <= (1003 - 1000) * 1000 + wait.
Proof.
  apply (session_wait_suffices (record_transmission session_new 1000) 1000 (min_settle_us PUserAction) 1003);
    (split; discriminate || reflexivity) || discriminate || reflexivity.
Defined.

(** Backoff grows and stays bounded: with the same jitter sample a later
    retry never waits less, and the delay is at least the doubled base and at
    most that plus the jitter, without wrapping. *)
Theorem backoff_bounds p i j sample :
  in_u 8 i -> in_u 8 j -> i <= j -> in_u 64 sample -> in_u 64 (jitter_ms p) -> 0 <= base_backoff_ms p < 2 ^ 40 ->
  jitter_ms p < 2 ^ 40 ->
  backoff_delay p i sample <= backoff_delay p j sample /\
  base_backoff_ms p * 2 ^ Z.min i 20 <= backoff_delay p i sample
    <= base_backoff_ms p * 2 ^ Z.min i 20 + jitter_ms p.
Proof.
  intros Hi Hj Hij Hs Hjit Hb Hj40. unfold in_u in *.
  assert (0 <= bounded_jitter p sample <= jitter_ms p) as Hjb.
  { unfold bounded_jitter, sat_add, umax. case_if; [lia|]. rewrite Z.min_r by lia.
    pose proof (Z.mod_pos_bound sample (jitter_ms p + 1)). lia. }
  assert (forall k, 0 <= k -> backoff_delay p k sample = base_backoff_ms p * 2 ^ Z.min k 20 + bounded_jitter p sample) as E.
  { intros k Hk. unfold backoff_delay, shl. rewrite Z.shiftl_mul_pow2, Z.mul_1_l by lia.
    assert (2 ^ Z.min k 20 <= 2 ^ 20) by (apply Z.pow_le_mono_r; lia).
    assert (0 < 2 ^ Z.min k 20) by (apply Z.pow_pos_nonneg; lia).
    rewrite wrap_id by (unfold in_u; lia). unfold sat_mul, sat_add, umax.
    assert (base_backoff_ms p * 2 ^ Z.min k 20 <= 2 ^ 40 * 2 ^ 20) by (apply Z.mul_le_mono_nonneg; lia). lia. }
  rewrite !E by lia. split; [|lia].
  assert (2 ^ Z.min i 20 <= 2 ^ Z.min j 20) by (apply Z.pow_le_mono_r; lia). nia.
Qed.

Lemma backoff_bounds_witness :
  backoff_delay (retry_new 3 3 3) 1 7 <= backoff_delay (retry_new 3 3 3) 2 7 /\
  3 * 2 ^ Z.min 1 20 <= backoff_delay (retry_new 3 3 3) 1 7 <= 3 * 2 ^ Z.min 1 20 + 3.
Proof.
  apply (backoff_bounds (retry_new 3 3 3) 1 2 7);
    (split; discriminate || reflexivity) || discriminate || reflexivity.
Defined.

(** Colour channels.  A channel sent to a gear and read back keeps the
    level it was sent as; any other dim level moves by at most one step on the
    way to sRGB and back; and both tables are monotone, so a brighter channel
    never becomes dimmer. *)
Lemma colour_tables_stable :
  (forall v, in_u 8 v ->
     srgb_channel_to_dim_level (dim_level_to_srgb_channel (srgb_channel_to_dim_level v)) = srgb_channel_to_dim_level v) /\
  (forall d, in_u 8 d -> Z.abs (srgb_channel_to_dim_level (dim_level_to_srgb_channel d) - d) <= 1) /\
  (forall v, in_u 8 v -> v <> 255 ->
     srgb_channel_to_dim_level v <= srgb_channel_to_dim_level (v + 1) /\
     dim_level_to_srgb_channel v <= dim_level_to_srgb_channel (v + 1)).
Proof. split_and!; by_evaluation. Qed.

End GearState.
