(* ===== verification/Dev103.v ===== *)
(** * Control devices: addresses, frames and commands

    Models [crates/dali2rust-domain/src/dali/dev103]: [address.rs], [frame.rs]
    and [command.rs]. *)

From S2P Require Import Prelude Gear.

Module Dev103.
Import Gear.

(** ** Device addresses *)

Inductive Device103Address :=
  | DShort (a : Z) | DGroup (g : Z) | DBroadcast | DBroadcastUnaddressed | DSpecial (s : Z).

Definition MAX_SHORT_ADDRESS : Z := 63.
Definition COMMAND_BIT : Z := 0x01.

Definition device_encode (a : Device103Address) : Z :=
  match a with
  | DShort a => Z.lor (shl 8 a 1) COMMAND_BIT
  | DGroup g => Z.lor (Z.lor 0x80 (shl 8 g 1)) COMMAND_BIT
  | DBroadcast => 0xFF
  | DBroadcastUnaddressed => 0xFD
  | DSpecial s => Z.lor (Z.lor 0xC0 (shl 8 s 1)) COMMAND_BIT
  end.

Definition device_decode (byte : Z) : option Device103Address :=
  let b := Z.lor byte COMMAND_BIT in
  if b =? 0xFF then Some DBroadcast
  else if b =? 0xFD then Some DBroadcastUnaddressed
  else if Z.land b 0x80 =? 0 then Some (DShort (Z.land (Z.shiftr b 1) 0x3F))
  else if Z.land b 0xC0 =? 0x80 then Some (DGroup (Z.land (Z.shiftr b 1) 0x1F))
  else if Z.land b 0xE0 =? 0xC0 then Some (DSpecial (Z.land (Z.shiftr b 1) 0x0F))
  else None.

Definition device_is_unicast (a : Device103Address) : bool := match a with DShort _ => true | _ => false end.

(** ** Instance addresses *)

Inductive InstanceAddress :=
  | INumber (n : Z) | IGroup (g : Z) | IType (t : Z) | IFeatureNumber (n : Z) | IFeatureGroup (g : Z)
  | IFeatureType (t : Z) | IFeatureBroadcast | IFeatureDevice | IDevice | IBroadcast.

Definition instance_encode (i : InstanceAddress) : Z :=
  match i with
  | INumber n => Z.land n 0x1F
  | IGroup g => Z.lor 0x80 (Z.land g 0x1F)
  | IType t => Z.lor 0xC0 (Z.land t 0x1F)
  | IFeatureNumber n => Z.lor 0x20 (Z.land n 0x1F)
  | IFeatureGroup g => Z.lor 0xA0 (Z.land g 0x1F)
  | IFeatureType t => Z.lor 0x60 (Z.land t 0x1F)
  | IFeatureBroadcast => 0xFD
  | IFeatureDevice => 0xFC
  | IDevice => 0xFE
  | IBroadcast => 0xFF
  end.

Definition instance_decode (byte : Z) : option InstanceAddress :=
  if byte =? 0xFE then Some IDevice
  else if byte =? 0xFF then Some IBroadcast
  else if byte =? 0xFD then Some IFeatureBroadcast
  else if byte =? 0xFC then Some IFeatureDevice
  else
    let value := Z.land byte 0x1F in
    match Z.land byte 0xE0 with
    | 0x00 => Some (INumber value)
    | 0x80 => Some (IGroup value)
    | 0xC0 => Some (IType value)
    | 0x20 => Some (IFeatureNumber value)
    | 0xA0 => Some (IFeatureGroup value)
    | 0x60 => Some (IFeatureType value)
    | _ => None
    end.

Definition instance_is_unicast (i : InstanceAddress) : bool := match i with INumber _ => true | _ => false end.

(** ** Operands *)

(** [ShortAddressOperand(u8)] is its byte. *)
Definition operand_new (address : Z) : option Z := if address <=? MAX_SHORT_ADDRESS then Some address else None.
Definition operand_address (byte : Z) : option Z := if byte <=? MAX_SHORT_ADDRESS then Some byte else None.

Inductive InitialiseScope103 := ScopeDevice (a : Z) | ScopeUnaddressed | ScopeAll.

Definition scope_encode (s : InitialiseScope103) : Z :=
  match s with ScopeDevice a => Z.land a 0x3F | ScopeUnaddressed => 0x7F | ScopeAll => 0xFF end.

Definition scope_decode (byte : Z) : option InitialiseScope103 :=
  if byte =? 0x7F then Some ScopeUnaddressed
  else if byte =? 0xFF then Some ScopeAll
  else if byte <=? MAX_SHORT_ADDRESS then Some (ScopeDevice byte)
  else None.

(** ** Frames: [ForwardFrame24] is its three bytes *)

Definition ForwardFrame24 : Type := Z * Z * Z.

Definition frame24_command (address : Device103Address) (instance : InstanceAddress) (opcode : Z) : ForwardFrame24 :=
  (device_encode address, instance_encode instance, opcode).
Definition frame24_special (selector data : Z) : ForwardFrame24 := (device_encode (DSpecial 0), selector, data).
Definition frame24_is_command (f : ForwardFrame24) : bool := Z.land (fst (fst f)) 0x01 =? 0x01.
Definition frame24_address (f : ForwardFrame24) : option Device103Address := device_decode (fst (fst f)).
Definition frame24_instance (f : ForwardFrame24) : option InstanceAddress := instance_decode (snd (fst f)).
Definition frame24_opcode (f : ForwardFrame24) : Z := snd f.

(** ** Commands *)

Record Command103Metadata := MkMeta103 {
  m_opcode : Z; m_expects_backward : bool; m_send_twice : bool; m_uses_dtr0 : bool }.

Definition FIRST_DEVICE_QUERY : Z := 0x30.

Inductive Device103Command :=
  | Dc_IdentifyDevice | Dc_ResetPowerCycleSeen | Dc_Reset
  | Dc_ResetMemoryBank | Dc_SetShortAddress | Dc_EnableWriteMemory
  | Dc_EnableApplicationController | Dc_DisableApplicationController | Dc_SetOperatingMode
  | Dc_AddToDeviceGroups0To15 | Dc_AddToDeviceGroups16To31 | Dc_RemoveFromDeviceGroups0To15
  | Dc_RemoveFromDeviceGroups16To31 | Dc_StartQuiescentMode | Dc_StopQuiescentMode
  | Dc_EnablePowerCycleNotification | Dc_DisablePowerCycleNotification | Dc_SavePersistentVariables
  | Dc_QueryDeviceStatus | Dc_QueryApplicationControllerError | Dc_QueryInputDeviceError
  | Dc_QueryMissingShortAddress | Dc_QueryVersionNumber | Dc_QueryNumberOfInstances
  | Dc_QueryContentDtr0 | Dc_QueryContentDtr1 | Dc_QueryContentDtr2
  | Dc_QueryRandomAddressH | Dc_QueryRandomAddressM | Dc_QueryRandomAddressL
  | Dc_ReadMemoryLocation | Dc_QueryApplicationControlEnabled | Dc_QueryOperatingMode
  | Dc_QueryManufacturerSpecificMode | Dc_QueryQuiescentMode | Dc_QueryDeviceGroups0To7
  | Dc_QueryDeviceGroups8To15 | Dc_QueryDeviceGroups16To23 | Dc_QueryDeviceGroups24To31
  | Dc_QueryPowerCycleNotification | Dc_QueryDeviceCapabilities | Dc_QueryExtendedVersionNumber
  | Dc_QueryResetState.

(** The discriminant, [self as u8]. *)
Definition device_code (c : Device103Command) : Z :=
  match c with
  | Dc_IdentifyDevice => 0x00
  | Dc_ResetPowerCycleSeen => 0x01
  | Dc_Reset => 0x10
  | Dc_ResetMemoryBank => 0x11
  | Dc_SetShortAddress => 0x14
  | Dc_EnableWriteMemory => 0x15
  | Dc_EnableApplicationController => 0x16
  | Dc_DisableApplicationController => 0x17
  | Dc_SetOperatingMode => 0x18
  | Dc_AddToDeviceGroups0To15 => 0x19
  | Dc_AddToDeviceGroups16To31 => 0x1A
  | Dc_RemoveFromDeviceGroups0To15 => 0x1B
  | Dc_RemoveFromDeviceGroups16To31 => 0x1C
  | Dc_StartQuiescentMode => 0x1D
  | Dc_StopQuiescentMode => 0x1E
  | Dc_EnablePowerCycleNotification => 0x1F
  | Dc_DisablePowerCycleNotification => 0x20
  | Dc_SavePersistentVariables => 0x21
  | Dc_QueryDeviceStatus => 0x30
  | Dc_QueryApplicationControllerError => 0x31
  | Dc_QueryInputDeviceError => 0x32
  | Dc_QueryMissingShortAddress => 0x33
  | Dc_QueryVersionNumber => 0x34
  | Dc_QueryNumberOfInstances => 0x35
  | Dc_QueryContentDtr0 => 0x36
  | Dc_QueryContentDtr1 => 0x37
  | Dc_QueryContentDtr2 => 0x38
  | Dc_QueryRandomAddressH => 0x39
  | Dc_QueryRandomAddressM => 0x3A
  | Dc_QueryRandomAddressL => 0x3B
  | Dc_ReadMemoryLocation => 0x3C
  | Dc_QueryApplicationControlEnabled => 0x3D
  | Dc_QueryOperatingMode => 0x3E
  | Dc_QueryManufacturerSpecificMode => 0x3F
  | Dc_QueryQuiescentMode => 0x40
  | Dc_QueryDeviceGroups0To7 => 0x41
  | Dc_QueryDeviceGroups8To15 => 0x42
  | Dc_QueryDeviceGroups16To23 => 0x43
  | Dc_QueryDeviceGroups24To31 => 0x44
  | Dc_QueryPowerCycleNotification => 0x45
  | Dc_QueryDeviceCapabilities => 0x46
  | Dc_QueryExtendedVersionNumber => 0x47
  | Dc_QueryResetState => 0x48
  end.

Definition Device103Command_ALL : list Device103Command :=
  [Dc_IdentifyDevice; Dc_ResetPowerCycleSeen; Dc_Reset; Dc_ResetMemoryBank; Dc_SetShortAddress;
   Dc_EnableWriteMemory; Dc_EnableApplicationController; Dc_DisableApplicationController;
   Dc_SetOperatingMode; Dc_AddToDeviceGroups0To15; Dc_AddToDeviceGroups16To31;
   Dc_RemoveFromDeviceGroups0To15; Dc_RemoveFromDeviceGroups16To31; Dc_StartQuiescentMode;
   Dc_StopQuiescentMode; Dc_EnablePowerCycleNotification; Dc_DisablePowerCycleNotification;
   Dc_SavePersistentVariables; Dc_QueryDeviceStatus; Dc_QueryApplicationControllerError;
   Dc_QueryInputDeviceError; Dc_QueryMissingShortAddress; Dc_QueryVersionNumber; Dc_QueryNumberOfInstances;
   Dc_QueryContentDtr0; Dc_QueryContentDtr1; Dc_QueryContentDtr2; Dc_QueryRandomAddressH;
   Dc_QueryRandomAddressM; Dc_QueryRandomAddressL; Dc_ReadMemoryLocation; Dc_QueryApplicationControlEnabled;
   Dc_QueryOperatingMode; Dc_QueryManufacturerSpecificMode; Dc_QueryQuiescentMode; Dc_QueryDeviceGroups0To7;
   Dc_QueryDeviceGroups8To15; Dc_QueryDeviceGroups16To23; Dc_QueryDeviceGroups24To31;
   Dc_QueryPowerCycleNotification; Dc_QueryDeviceCapabilities; Dc_QueryExtendedVersionNumber;
   Dc_QueryResetState].

Definition device_metadata (c : Device103Command) : Command103Metadata :=
  let opcode := device_code c in
  let expects_backward := FIRST_DEVICE_QUERY <=? opcode in
  MkMeta103 opcode expects_backward (negb expects_backward)
    match c with
    | Dc_ResetMemoryBank | Dc_SetShortAddress | Dc_SetOperatingMode | Dc_ReadMemoryLocation
    | Dc_QueryExtendedVersionNumber => true
    | _ => false
    end.

Definition device_from_opcode (opcode : Z) : option Device103Command :=
  List.find (fun c => device_code c =? opcode) Device103Command_ALL.

Definition device_frame (c : Device103Command) (address : Device103Address) : ForwardFrame24 :=
  frame24_command address IDevice (m_opcode (device_metadata c)).

Inductive Instance103Command :=
  | Ic_SetEventPriority | Ic_EnableInstance | Ic_DisableInstance
  | Ic_SetPrimaryInstanceGroup | Ic_SetInstanceGroup1 | Ic_SetInstanceGroup2
  | Ic_SetEventScheme | Ic_SetEventFilter | Ic_QueryInstanceType
  | Ic_QueryResolution | Ic_QueryInstanceError | Ic_QueryInstanceStatus
  | Ic_QueryEventPriority | Ic_QueryInstanceEnabled | Ic_QueryPrimaryInstanceGroup
  | Ic_QueryInstanceGroup1 | Ic_QueryInstanceGroup2 | Ic_QueryEventScheme
  | Ic_QueryInputValue | Ic_QueryInputValueLatch | Ic_QueryFeatureType
  | Ic_QueryNextFeatureType | Ic_QueryEventFilter0To7 | Ic_QueryEventFilter8To15
  | Ic_QueryEventFilter16To23.

Definition instance_metadata (c : Instance103Command) : Command103Metadata :=
  match c with
  | Ic_SetEventPriority => MkMeta103 0x61 false true true
  | Ic_EnableInstance => MkMeta103 0x62 false true false
  | Ic_DisableInstance => MkMeta103 0x63 false true false
  | Ic_SetPrimaryInstanceGroup => MkMeta103 0x64 false true true
  | Ic_SetInstanceGroup1 => MkMeta103 0x65 false true true
  | Ic_SetInstanceGroup2 => MkMeta103 0x66 false true true
  | Ic_SetEventScheme => MkMeta103 0x67 false true true
  | Ic_SetEventFilter => MkMeta103 0x68 false true true
  | Ic_QueryInstanceType => MkMeta103 0x80 true false false
  | Ic_QueryResolution => MkMeta103 0x81 true false false
  | Ic_QueryInstanceError => MkMeta103 0x82 true false false
  | Ic_QueryInstanceStatus => MkMeta103 0x83 true false false
  | Ic_QueryEventPriority => MkMeta103 0x84 true false false
  | Ic_QueryInstanceEnabled => MkMeta103 0x86 true false false
  | Ic_QueryPrimaryInstanceGroup => MkMeta103 0x88 true false false
  | Ic_QueryInstanceGroup1 => MkMeta103 0x89 true false false
  | Ic_QueryInstanceGroup2 => MkMeta103 0x8A true false false
  | Ic_QueryEventScheme => MkMeta103 0x8B true false false
  | Ic_QueryInputValue => MkMeta103 0x8C true false false
  | Ic_QueryInputValueLatch => MkMeta103 0x8D true false false
  | Ic_QueryFeatureType => MkMeta103 0x8E true false false
  | Ic_QueryNextFeatureType => MkMeta103 0x8F true false false
  | Ic_QueryEventFilter0To7 => MkMeta103 0x90 true false false
  | Ic_QueryEventFilter8To15 => MkMeta103 0x91 true false false
  | Ic_QueryEventFilter16To23 => MkMeta103 0x92 true false false
  end.

Definition instance_frame (c : Instance103Command) (address : Device103Address) (instance : InstanceAddress)
    : ForwardFrame24 := frame24_command address instance (m_opcode (instance_metadata c)).

Inductive Special103Command :=
  | Sc_Terminate | Sc_Initialise | Sc_Randomise | Sc_Compare | Sc_Withdraw
  | Sc_SearchAddrH | Sc_SearchAddrM | Sc_SearchAddrL | Sc_ProgramShortAddress | Sc_VerifyShortAddress
  | Sc_QueryShortAddress | Sc_WriteMemoryLocation | Sc_WriteMemoryLocationNoReply | Sc_Dtr0 | Sc_Dtr1
  | Sc_Dtr2 | Sc_SendTestframe.

(** The discriminant, [self as u8]. *)
Definition special_code (c : Special103Command) : Z :=
  match c with
  | Sc_Terminate => 0x00
  | Sc_Initialise => 0x01
  | Sc_Randomise => 0x02
  | Sc_Compare => 0x03
  | Sc_Withdraw => 0x04
  | Sc_SearchAddrH => 0x05
  | Sc_SearchAddrM => 0x06
  | Sc_SearchAddrL => 0x07
  | Sc_ProgramShortAddress => 0x08
  | Sc_VerifyShortAddress => 0x09
  | Sc_QueryShortAddress => 0x0A
  | Sc_WriteMemoryLocation => 0x20
  | Sc_WriteMemoryLocationNoReply => 0x21
  | Sc_Dtr0 => 0x30
  | Sc_Dtr1 => 0x31
  | Sc_Dtr2 => 0x32
  | Sc_SendTestframe => 0x33
  end.

Definition Special103Command_ALL : list Special103Command :=
  [Sc_Terminate; Sc_Initialise; Sc_Randomise; Sc_Compare; Sc_Withdraw; Sc_SearchAddrH; Sc_SearchAddrM;
   Sc_SearchAddrL; Sc_ProgramShortAddress; Sc_VerifyShortAddress; Sc_QueryShortAddress;
   Sc_WriteMemoryLocation; Sc_WriteMemoryLocationNoReply; Sc_Dtr0; Sc_Dtr1; Sc_Dtr2; Sc_SendTestframe].

Definition selector (c : Special103Command) : Z * bool * bool :=
  let expects_backward :=
    match c with Sc_Compare | Sc_VerifyShortAddress | Sc_QueryShortAddress | Sc_WriteMemoryLocation => true
    | _ => false end in
  let send_twice := match c with Sc_Initialise | Sc_Randomise => true | _ => false end in
  (special_code c, expects_backward, send_twice).

Definition from_selector (s : Z) : option Special103Command :=
  List.find (fun c => special_code c =? s) Special103Command_ALL.

Definition special_frame (c : Special103Command) (data : Z) : ForwardFrame24 :=
  frame24_special (fst (fst (selector c))) data.
Definition special_expects_backward (c : Special103Command) : bool := snd (fst (selector c)).
Definition special_send_twice (c : Special103Command) : bool := snd (selector c).

Inductive Button301Command :=
  | Bt_SetShortTimer | Bt_SetDoubleTimer | Bt_SetRepeatTimer
  | Bt_SetStuckTimer | Bt_QueryShortTimer | Bt_QueryShortTimerMin
  | Bt_QueryDoubleTimer | Bt_QueryDoubleTimerMin | Bt_QueryRepeatTimer
  | Bt_QueryStuckTimer.

Definition button_metadata (c : Button301Command) : Command103Metadata :=
  match c with
  | Bt_SetShortTimer => MkMeta103 0x00 false true true
  | Bt_SetDoubleTimer => MkMeta103 0x01 false true true
  | Bt_SetRepeatTimer => MkMeta103 0x02 false true true
  | Bt_SetStuckTimer => MkMeta103 0x03 false true true
  | Bt_QueryShortTimer => MkMeta103 0x0A true false false
  | Bt_QueryShortTimerMin => MkMeta103 0x0B true false false
  | Bt_QueryDoubleTimer => MkMeta103 0x0C true false false
  | Bt_QueryDoubleTimerMin => MkMeta103 0x0D true false false
  | Bt_QueryRepeatTimer => MkMeta103 0x0E true false false
  | Bt_QueryStuckTimer => MkMeta103 0x0F true false false
  end.

Inductive Occupancy303Command :=
  | Oc_CatchMovement | Oc_SetHoldTimer | Oc_SetReportTimer
  | Oc_SetDeadtimeTimer | Oc_CancelHoldTimer | Oc_SetDetectionRange
  | Oc_SetSensitivity | Oc_QueryInstanceCapabilities | Oc_QueryDetectionRange
  | Oc_QuerySensitivity | Oc_QueryDeadtimeTimer | Oc_QueryHoldTimer
  | Oc_QueryReportTimer | Oc_QueryCatching.

Definition occupancy_metadata (c : Occupancy303Command) : Command103Metadata :=
  match c with
  | Oc_CatchMovement => MkMeta103 0x20 false false false
  | Oc_SetHoldTimer => MkMeta103 0x21 false true true
  | Oc_SetReportTimer => MkMeta103 0x22 false true true
  | Oc_SetDeadtimeTimer => MkMeta103 0x23 false true true
  | Oc_CancelHoldTimer => MkMeta103 0x24 false false false
  | Oc_SetDetectionRange => MkMeta103 0x25 false true true
  | Oc_SetSensitivity => MkMeta103 0x26 false true true
  | Oc_QueryInstanceCapabilities => MkMeta103 0x29 true false false
  | Oc_QueryDetectionRange => MkMeta103 0x2A true false false
  | Oc_QuerySensitivity => MkMeta103 0x2B true false false
  | Oc_QueryDeadtimeTimer => MkMeta103 0x2C true false false
  | Oc_QueryHoldTimer => MkMeta103 0x2D true false false
  | Oc_QueryReportTimer => MkMeta103 0x2E true false false
  | Oc_QueryCatching => MkMeta103 0x2F true false false
  end.

Inductive LightSensor304Command :=
  | Ls_SetReportTimer | Ls_SetHysteresis | Ls_SetDeadtimeTimer
  | Ls_SetHysteresisMin | Ls_QueryHysteresisMin | Ls_QueryDeadtimeTimer
  | Ls_QueryReportTimer | Ls_QueryHysteresis.

Definition light_metadata (c : LightSensor304Command) : Command103Metadata :=
  match c with
  | Ls_SetReportTimer => MkMeta103 0x30 false true true
  | Ls_SetHysteresis => MkMeta103 0x31 false true true
  | Ls_SetDeadtimeTimer => MkMeta103 0x32 false true true
  | Ls_SetHysteresisMin => MkMeta103 0x33 false true true
  | Ls_QueryHysteresisMin => MkMeta103 0x3C true false false
  | Ls_QueryDeadtimeTimer => MkMeta103 0x3D true false false
  | Ls_QueryReportTimer => MkMeta103 0x3E true false false
  | Ls_QueryHysteresis => MkMeta103 0x3F true false false
  end.

Inductive AbsoluteInput302Command :=
  | Ai_SetReportTimer | Ai_SetDeadtimeTimer | Ai_QueryDeadtimeTimer
  | Ai_QueryReportTimer | Ai_QuerySwitch.

Definition absolute_metadata (c : AbsoluteInput302Command) : Command103Metadata :=
  match c with
  | Ai_SetReportTimer => MkMeta103 0x10 false true true
  | Ai_SetDeadtimeTimer => MkMeta103 0x11 false true true
  | Ai_QueryDeadtimeTimer => MkMeta103 0x1D true false false
  | Ai_QueryReportTimer => MkMeta103 0x1E true false false
  | Ai_QuerySwitch => MkMeta103 0x1F true false false
  end.

(** ** Feedback features: two opcode maps *)

Inductive FeedbackOpcodeMap := DiiaCorrected | Ed1.

Definition map_code (m : FeedbackOpcodeMap) : Z := match m with DiiaCorrected => 1 | Ed1 => 2 end.
Definition map_from_code (code : Z) : option FeedbackOpcodeMap :=
  match code with 1 => Some DiiaCorrected | 2 => Some Ed1 | _ => None end.

Definition FEEDBACK_QUERY_RELOCATION : Z := 0x20.

Inductive Feedback332Command :=
  | Fb_Activate | Fb_Stop | Fb_Select (group : Z)
  | Fb_SetTiming | Fb_SetActiveBrightness | Fb_SetActiveColour
  | Fb_SetInactiveBrightness | Fb_SetInactiveColour | Fb_SetActiveVolume
  | Fb_SetActivePitch | Fb_QueryCapability | Fb_QueryActive
  | Fb_QueryTiming | Fb_QueryActiveBrightness | Fb_QueryActiveColour
  | Fb_QueryInactiveBrightness | Fb_QueryInactiveColour | Fb_QueryActiveVolume
  | Fb_QueryActivePitch | Fb_QueryColourCapability.

Definition feedback_metadata (c : Feedback332Command) (map : FeedbackOpcodeMap) : Command103Metadata :=
  let '(corrected_opcode, expects_backward, send_twice, uses_dtr0) :=
    match c with
    | Fb_Activate => (0x10, false, false, false)
    | Fb_Stop => (0x11, false, false, false)
    | Fb_Select group => (0x20 + Z.land group 0x1F, false, false, false)
    | Fb_SetTiming => (0x12, false, true, true)
    | Fb_SetActiveBrightness => (0x13, false, true, true)
    | Fb_SetActiveColour => (0x14, false, true, true)
    | Fb_SetInactiveBrightness => (0x15, false, true, true)
    | Fb_SetInactiveColour => (0x16, false, true, true)
    | Fb_SetActiveVolume => (0x17, false, true, true)
    | Fb_SetActivePitch => (0x18, false, true, true)
    | Fb_QueryCapability => (0x4F, true, false, false)
    | Fb_QueryActive => (0x4E, true, false, false)
    | Fb_QueryTiming => (0x4D, true, false, false)
    | Fb_QueryActiveBrightness => (0x4C, true, false, false)
    | Fb_QueryActiveColour => (0x4B, true, false, false)
    | Fb_QueryInactiveBrightness => (0x4A, true, false, false)
    | Fb_QueryInactiveColour => (0x49, true, false, false)
    | Fb_QueryActiveVolume => (0x48, true, false, false)
    | Fb_QueryActivePitch => (0x47, true, false, false)
    | Fb_QueryColourCapability => (0x46, true, false, false)
    end in
  let opcode := match map, expects_backward with
                | Ed1, true => corrected_opcode - FEEDBACK_QUERY_RELOCATION
                | _, _ => corrected_opcode
                end in
  MkMeta103 opcode expects_backward send_twice uses_dtr0.

Inductive Manual333Command :=
  | Mn_QueryManualConfig103 | Mn_QueryManualConfig3xx.

Definition manual_metadata (c : Manual333Command) : Command103Metadata :=
  match c with
  | Mn_QueryManualConfig103 => MkMeta103 0x0E true false false
  | Mn_QueryManualConfig3xx => MkMeta103 0x0F true false false
  end.

(** [frame] of the instance and feature commands. *)
Definition occupancy_frame (c : Occupancy303Command) (address : Device103Address) (instance : InstanceAddress)
    : ForwardFrame24 := frame24_command address instance (m_opcode (occupancy_metadata c)).
Definition feedback_frame (c : Feedback332Command) (address : Device103Address) (feature : InstanceAddress)
    (map : FeedbackOpcodeMap) : ForwardFrame24 := frame24_command address feature (m_opcode (feedback_metadata c map)).
Definition manual_frame (c : Manual333Command) (address : Device103Address) (feature : InstanceAddress)
    : ForwardFrame24 := frame24_command address feature (m_opcode (manual_metadata c)).

(** ** Round trips *)

#[global] Instance Device103Address_eq_dec : EqDecision Device103Address.
Proof. solve_decision. Defined.
#[global] Instance InstanceAddress_eq_dec : EqDecision InstanceAddress.
Proof. solve_decision. Defined.
#[global] Instance InitialiseScope103_eq_dec : EqDecision InitialiseScope103.
Proof. solve_decision. Defined.
#[global] Instance Device103Command_eq_dec : EqDecision Device103Command.
Proof. solve_decision. Defined.
#[global] Instance Special103Command_eq_dec : EqDecision Special103Command.
Proof. solve_decision. Defined.

Definition device_ok (a : Device103Address) : Prop :=
  match a with DShort a => in_u 6 a | DGroup g => in_u 5 g | DSpecial s => in_u 4 s | _ => True end.

Definition instance_ok (i : InstanceAddress) : Prop :=
  match i with
  | INumber n | IGroup n | IType n | IFeatureNumber n | IFeatureGroup n | IFeatureType n => in_u 5 n
  | _ => True
  end.

Lemma device_roundtrip a : device_ok a ->
  in_u 8 (device_encode a) /\ Z.land (device_encode a) 1 = 1 /\ device_decode (device_encode a) = Some a.
Proof. destruct a; cbn [device_ok]; try (intros _; easy); first [revert a|revert g|revert s]; by_evaluation. Qed.

Lemma instance_roundtrip i : instance_ok i ->
  in_u 8 (instance_encode i) /\ instance_decode (instance_encode i) = Some i.
Proof. destruct i; cbn [instance_ok]; try (intros _; easy); first [revert n|revert g|revert t]; by_evaluation. Qed.

Lemma device_decode_encode byte : in_u 8 byte ->
  match device_decode byte with Some a => device_encode a = Z.lor byte 1 /\ device_ok a | None => True end.
Proof.
  enough (forall byte, in_u 8 byte -> match device_decode byte with
    | Some a => bool_decide (device_encode a = Z.lor byte 1) &&
        match a with DShort a => in_ub 6 a | DGroup g => in_ub 5 g | DSpecial s => in_ub 4 s | _ => true end
    | None => true end = true) as H.
  { intros Hb. specialize (H byte Hb). destruct (device_decode byte) as [a|]; [|done].
    apply andb_true_iff in H as [H1 H2]. apply bool_decide_eq_true in H1. split; [done|].
    destruct a; cbn; (now apply in_ub_spec) || done. }
  by_evaluation.
Qed.

Lemma instance_decode_encode byte : in_u 8 byte ->
  match instance_decode byte with Some i => instance_encode i = byte | None => True end.
Proof.
  enough (forall byte, in_u 8 byte -> match instance_decode byte with
    | Some i => instance_encode i =? byte | None => true end = true) as H.
  { intros Hb. specialize (H byte Hb). destruct (instance_decode byte) as [a|]; [|done]. now apply Z.eqb_eq. }
  by_evaluation.
Qed.

Lemma device_from_opcode_code c : device_from_opcode (device_code c) = Some c.
Proof. now destruct c. Qed.

Lemma from_selector_code c : from_selector (special_code c) = Some c.
Proof. now destruct c. Qed.

Lemma device_from_opcode_inv o c : device_from_opcode o = Some c -> device_code c = o.
Proof. intros H. apply List.find_some in H as [_ H]. now apply Z.eqb_eq. Qed.

Lemma from_selector_inv o c : from_selector o = Some c -> special_code c = o.
Proof. intros H. apply List.find_some in H as [_ H]. now apply Z.eqb_eq. Qed.

(** control-device frames round trip.  The address, the instance and the
    command of a well-formed 24-bit command frame are recovered from its bytes,
    and a frame is recognised as a command; special frames give back their
    command and data. *)
Theorem frame24_roundtrip a i c sc data :
  device_ok a -> instance_ok i ->
  let f := device_frame c a in
  let g := frame24_command a i data in
  (frame24_is_command f = true /\ frame24_address f = Some a /\ frame24_instance f = Some IDevice /\
   device_from_opcode (frame24_opcode f) = Some c) /\
  (frame24_address g = Some a /\ frame24_instance g = Some i /\ frame24_opcode g = data) /\
  (frame24_address (special_frame sc data) = Some (DSpecial 0) /\
   from_selector (snd (fst (special_frame sc data))) = Some sc /\ frame24_opcode (special_frame sc data) = data).
Proof.
  intros Ha Hi. destruct (device_roundtrip a Ha) as (_ & Hodd & Hdec). destruct (instance_roundtrip i Hi) as [_ Hid].
  cbn zeta. unfold frame24_is_command, frame24_address, frame24_instance, frame24_opcode, device_frame, frame24_command,
    special_frame. cbn [fst snd]. rewrite Hodd, Hdec, Hid.
  split_and!; try reflexivity; [apply device_from_opcode_code|apply from_selector_code].
Qed.

Lemma frame24_roundtrip_witness :
  frame24_address (device_frame Dc_QueryDeviceStatus (DShort 5)) = Some (DShort 5) /\
  device_from_opcode (frame24_opcode (device_frame Dc_QueryDeviceStatus (DShort 5))) = Some Dc_QueryDeviceStatus.
Proof.
  destruct (frame24_roundtrip (DShort 5) (INumber 3) Dc_QueryDeviceStatus Sc_Compare 0 ltac:(easy) ltac:(easy))
    as [(_ & H1 & _ & H2) _]. split; [exact H1|exact H2].
Defined.

(** address bytes decode without loss.  A byte that decodes to a device
    address encodes back to it (with the command bit set) and its fields are
    in range; a byte that decodes to an instance address encodes back to it
    exactly; and the scope operand of INITIALISE round trips. *)
Theorem address_bytes_roundtrip byte :
  in_u 8 byte ->
  match device_decode byte with Some a => device_encode a = Z.lor byte 1 /\ device_ok a | None => True end /\
  match instance_decode byte with Some i => instance_encode i = byte | None => True end /\
  match scope_decode byte with Some s => scope_encode s = byte | None => True end.
Proof.
  intros Hb. split_and!; [now apply device_decode_encode|now apply instance_decode_encode|].
  enough (forall byte, in_u 8 byte -> match scope_decode byte with
    | Some i => scope_encode i =? byte | None => true end = true) as H.
  { specialize (H byte Hb). destruct (scope_decode byte); [|done]. now apply Z.eqb_eq. }
  by_evaluation.
Qed.

Lemma address_bytes_roundtrip_witness : device_encode (DGroup 4) = Z.lor 0x89 1 /\ device_ok (DGroup 4).
Proof. destruct (address_bytes_roundtrip 0x89 ltac:(easy)) as [H _]. exact H. Defined.

Definition feedback_ok (c : Feedback332Command) : Prop := match c with Fb_Select g => in_u 5 g | _ => True end.

Lemma feedback_select g : in_u 5 g -> m_opcode (feedback_metadata (Fb_Select g) DiiaCorrected) = 0x20 + g.
Proof. revert g. by_evaluation. Qed.

(** The corrected feedback opcodes are unambiguous: with the DiiA opcode map two
    feedback commands with one opcode are the same command, so a recipient can
    tell them apart; the first-edition map is not, its queries fall into the
    range of the SELECT commands. *)
Lemma feedback_opcodes_unambiguous c d :
  (feedback_ok c -> feedback_ok d ->
   m_opcode (feedback_metadata c DiiaCorrected) = m_opcode (feedback_metadata d DiiaCorrected) -> c = d) /\
  m_opcode (feedback_metadata (Fb_Select 6) Ed1) = m_opcode (feedback_metadata Fb_QueryColourCapability Ed1).
Proof.
  split; [|reflexivity]. intros Hc Hd E.
  destruct c, d; try reflexivity; cbn [feedback_ok] in *;
    repeat match goal with H : in_u 5 ?g |- _ => rewrite (feedback_select g H) in E; unfold in_u in H; revert H end;
    intros; (f_equal; lia) || (cbv in E; discriminate) || (exfalso; cbn in E; lia).
Qed.

End Dev103.
