(* ===== verification/BusUnit.v ===== *)
(** * The controller as a control device on the bus

    Models [crates/dali2rust-domain/src/dali/dev103/bus_unit.rs]:
    [Device103Unit], its reaction to every captured frame ([feed]), its timers
    ([tick]), the adoption of the stored state ([hydrate]) and the table from
    which the interrupt answers for it ([answer_table]).  [BusUnitNvm] and
    [BusUnitSnapshot] are those of [crates/dali2rust-platform/src/bus_unit.rs].

    [entropy: &mut dyn FnMut() -> u32] is called at most once per operation; the
    value it returns is the argument [draw]. *)

From S2P Require Import Prelude Gear AnswerTable Dev103.

Module BusUnit.
Import Gear AnswerTable Dev103.

(** ** Data *)

Record BusUnitIdentity := MkIdentity {
  firmware_version : list Z; hardware_version : list Z; identification_number : list Z }.

Record BusUnitNvm := MkNvm {
  short_address : option Z; random_address : Z; device_groups : Z; operating_mode : Z;
  power_cycle_notification : bool; application_active : bool }.

#[global] Instance eta_BusUnitNvm : Eta BusUnitNvm := fun n =>
  MkNvm (short_address n) (random_address n) (device_groups n) (operating_mode n)
    (power_cycle_notification n) (application_active n).

#[global] Instance BusUnitNvm_eq_dec : EqDecision BusUnitNvm.
Proof. solve_decision. Defined.

Record BusUnitSnapshot := MkSnapshot {
  snap_nvm : BusUnitNvm; snap_revision : Z; acknowledged_wire_sequence : Z; acknowledged_quiescence : Z }.

Record PowerNotice := MkPowerNotice { pn_short_address : option Z; pn_device_groups : Z }.

Definition ANSWER_YES : Z := 0xFF.
Definition ANSWER_MASK : Z := 0xFF.
Definition FACTORY_RANDOM_ADDRESS : Z := 0x00FFFFFF.
Definition INITIALISATION_MS : Z := 15 * 60 * 1000.
Definition QUIESCENT_MS : Z := 15 * 60 * 1000.
Definition IDENTIFY_MS : Z := 10000.
Definition POWER_NOTIFICATION_EARLIEST_MS : Z := 1300.
Definition POWER_NOTIFICATION_LATEST_MS : Z := 4500.
Definition SEND_TWICE_SPAN_MS : Z := send_twice_span_ms 24.
Definition VERSION_2_0 : Z := 0x08.
Definition VERSION_NOT_IMPLEMENTED : Z := 0xFF.
Definition RANDOM_ADDRESS_SPAN : Z := 0x00FFFFFF.
Definition DEVICE_INSTANCE : Z := 0xFE.
Definition SPECIAL : Z := device_encode (DSpecial 0).
Definition DIRECT_WRITE_MEMORY : Z := device_encode (DSpecial 2).
Definition DTR1_DTR0 : Z := device_encode (DSpecial 3).
Definition DTR2_DTR1 : Z := device_encode (DSpecial 4).
Definition LAST_MEMORY_LOCATION : Z := 0xFF.
Definition CAPABILITY_APPLICATION_CONTROLLER : Z := 0x01.
Definition STANDARD_OPERATING_MODE : Z := 0x00.
Definition MANUFACTURER_MODES_FROM : Z := 0x80.
Definition UPPER_GROUPS_SHIFT : Z := 16.
Definition STATUS_CONTROLLER_ERROR : Z := 0x10.
Definition BANK0_LAST_LOCATION : Z := 0x1A.

Definition FACTORY_NVM : BusUnitNvm := MkNvm None FACTORY_RANDOM_ADDRESS 0 STANDARD_OPERATING_MODE false true.

Inductive InitialisationState := Disabled | Enabled | Withdrawn.

#[global] Instance InitialisationState_eq_dec : EqDecision InitialisationState.
Proof. solve_decision. Defined.

Inductive UnitFrame := Forward24 (bytes : ForwardFrame24) | Other.

(** [TestFrame] with its accessors. *)
Record TestFrame := MkTestFrame { tf_data : Z; tf_dtr : Z * Z * Z }.

Inductive TestFrameBits := TfForward16 (b0 b1 : Z) | TfForward24 (b0 b1 b2 : Z).

Definition tf_priority (t : TestFrame) : Z := Z.land (tf_data t) 0x07.
Definition tf_repeats (t : TestFrame) : Z := Z.land (Z.shiftr (tf_data t) 3) 0x03.
Definition tf_in_transaction (t : TestFrame) : bool := has_bits (tf_data t) 0x40.
Definition tf_bits (t : TestFrame) : TestFrameBits :=
  let '(dtr0, dtr1, dtr2) := tf_dtr t in
  if has_bits (tf_data t) 0x20 then TfForward16 dtr0 dtr1 else TfForward24 dtr0 dtr1 dtr2.

Record UnitEffects := MkEffects {
  nvm_changed : bool; identify : option bool; e_quiescent : option bool;
  e_test_frame : option TestFrame; power_notification : option PowerNotice }.

#[global] Instance eta_UnitEffects : Eta UnitEffects := fun e =>
  MkEffects (nvm_changed e) (identify e) (e_quiescent e) (e_test_frame e) (power_notification e).

Definition effects_default : UnitEffects := MkEffects false None None None None.

Inductive PowerOn := Pending | Notifying (at_ms : Z) | Done.

Record Device103Unit := MkUnit {
  nvm : BusUnitNvm;
  revision : option Z;
  wire_sequence : Z;
  bank0 : list (option Z);
  dtr : option Z * option Z * option Z;
  search : option Z * option Z * option Z;
  initialisation : InitialisationState;
  initialisation_until_ms : Z;
  quiescent_until_ms : option Z;
  identify_until_ms : option Z;
  write_enabled : bool;
  power_cycle_seen : bool;
  power_on : PowerOn;
  pending_twice : option (ForwardFrame24 * Z) }.

#[global] Instance eta_Device103Unit : Eta Device103Unit := fun u =>
  MkUnit (nvm u) (revision u) (wire_sequence u) (bank0 u) (dtr u) (search u) (initialisation u)
    (initialisation_until_ms u) (quiescent_until_ms u) (identify_until_ms u) (write_enabled u)
    (power_cycle_seen u) (power_on u) (pending_twice u).

(** [dtr[i]] and [search[i]]. *)
Definition at0 {A} (t : A * A * A) : A := let '(a, _, _) := t in a.
Definition at1 {A} (t : A * A * A) : A := let '(_, b, _) := t in b.
Definition at2 {A} (t : A * A * A) : A := let '(_, _, c) := t in c.
Definition set0 {A} (t : A * A * A) (x : A) : A * A * A := let '(_, b, c) := t in (x, b, c).
Definition set1 {A} (t : A * A * A) (x : A) : A * A * A := let '(a, _, c) := t in (a, x, c).
Definition set2 {A} (t : A * A * A) (x : A) : A * A * A := let '(a, b, _) := t in (a, b, x).

(** ** Free functions *)

Definition stops_identification (c : Special103Command) : bool :=
  match c with Sc_Initialise | Sc_Compare | Sc_VerifyShortAddress | Sc_QueryShortAddress => false | _ => true end.

Definition keeps_write_enabled (c : Special103Command) : bool :=
  match c with
  | Sc_WriteMemoryLocation | Sc_WriteMemoryLocationNoReply | Sc_Dtr0 | Sc_Dtr1 | Sc_Dtr2 => true
  | _ => false
  end.

Definition passed (now_ms until_ms : Z) : bool := wrapping_sub 32 now_ms until_ms <? umax 32 / 2.

Definition power_notification_delay (draw : Z) : Z :=
  let span := POWER_NOTIFICATION_LATEST_MS - POWER_NOTIFICATION_EARLIEST_MS + 1 in
  POWER_NOTIFICATION_EARLIEST_MS + draw mod span.

Definition remaining_until (until_ms now_ms : Z) : option Z :=
  if passed now_ms until_ms then None else Some (wrapping_sub 32 until_ms now_ms).

Definition is_newer (candidate adopted : Z) : bool :=
  let ahead := wrapping_sub 32 candidate adopted in
  negb (ahead =? 0) && (ahead <? umax 32 / 2).

Definition step_location (offset : Z) : Z := if offset <? LAST_MEMORY_LOCATION then offset + 1 else offset.

(** The outer option is an operand the unit ignores; the inner one "no address". *)
Definition short_address_operand (value : Z) : option (option Z) :=
  if value =? ANSWER_MASK then Some None
  else if value <=? MAX_SHORT_ADDRESS then Some (Some value)
  else None.

Definition byte_entry (answer : Z) : Z := always answer.
Definition yes_if (condition : bool) : Z := if condition then always ANSWER_YES else 0.

Definition bank0_write (bank : list (option Z)) (at_ : nat) (bytes : list Z) : list (option Z) :=
  foldl (fun bank '(i, b) => <[(at_ + i)%nat := Some b]> bank) bank (zip (seq 0 (length bytes)) bytes).

Definition bank0_of (identity : BusUnitIdentity) : list (option Z) :=
  let bank := replicate 27 (Some 0) in
  let bank := <[0%nat := Some BANK0_LAST_LOCATION]> bank in
  let bank := <[1%nat := None]> bank in
  let parts := [VERSION_2_0; VERSION_NOT_IMPLEMENTED; VERSION_2_0] in
  let bank := bank0_write bank 0x09 (firmware_version identity) in
  let bank := bank0_write bank 0x0B (identification_number identity) in
  let bank := bank0_write bank 0x13 (hardware_version identity) in
  let bank := bank0_write bank 0x15 parts in
  bank0_write bank 0x18 [1; 0; 0].

(** ** [Device103Unit]: queries *)

Definition unit_new (identity : BusUnitIdentity) : Device103Unit :=
  MkUnit FACTORY_NVM None 0 (bank0_of identity) (Some 0, Some 0, Some 0) (Some 0xFF, Some 0xFF, Some 0xFF)
    Disabled 0 None None false true Pending None.

Definition is_hydrated (u : Device103Unit) : bool := is_some (revision u).
Definition quiescent (u : Device103Unit) : bool := is_some (quiescent_until_ms u).
Definition quiescent_remaining_ms (u : Device103Unit) (now_ms : Z) : option Z :=
  match quiescent_until_ms u with Some until => remaining_until until now_ms | None => None end.
Definition identifying (u : Device103Unit) : bool := is_some (identify_until_ms u).
Definition initialising (u : Device103Unit) : bool := negb (bool_decide (initialisation u = Disabled)).

Definition reset_state (u : Device103Unit) : bool :=
  (device_groups (nvm u) =? 0) && (random_address (nvm u) =? FACTORY_RANDOM_ADDRESS).

Definition status_byte (u : Device103Unit) : Z :=
  foldl (fun status '(set, bit) => if set : bool then Z.lor status bit else status) 0
    [(quiescent u, 0x02); (negb (is_some (short_address (nvm u))), 0x04); (application_active (nvm u), 0x08);
     (power_cycle_seen u, 0x20); (reset_state u, 0x40)].

Definition memory_answer (u : Device103Unit) : option Z :=
  match at1 (dtr u), at0 (dtr u) with
  | Some 0, Some offset =>
      if BANK0_LAST_LOCATION <? offset then None
      else match aget (bank0 u) offset with Some (Some b) => Some b | _ => None end
  | _, _ => None
  end.

Definition search_address (u : Device103Unit) : option Z :=
  match search u with
  | (Some h, Some m, Some l) => Some (Z.lor (Z.lor (shl 32 h 16) (shl 32 m 8)) l)
  | _ => None
  end.

Definition selected (u : Device103Unit) : bool := bool_decide (search_address u = Some (random_address (nvm u))).

Definition compare (u : Device103Unit) : bool :=
  bool_decide (initialisation u = Enabled) &&
  match search_address u with Some s => random_address (nvm u) <=? s | None => false end.

Definition accepts (u : Device103Unit) (address : Z) : bool :=
  negb (Z.land address COMMAND_BIT =? 0) &&
  addresses_the_device address (default NO_SHORT_ADDRESS (short_address (nvm u))) (device_groups (nvm u)).

(** [to_le_bytes()[i]] of a 32-bit word. *)
Definition byte_of (w i : Z) : Z := wrap 8 (Z.shiftr w (8 * i)).

Definition status_entry (u : Device103Unit) (c : Device103Command) : option Z :=
  let status := status_byte u in
  match c with
  | Dc_QueryDeviceStatus => Some (by_lease (Some status) (Some (Z.lor status STATUS_CONTROLLER_ERROR)))
  | Dc_QueryApplicationControllerError => Some (by_lease None (Some ANSWER_MASK))
  | Dc_QueryMissingShortAddress => Some (yes_if (negb (is_some (short_address (nvm u)))))
  | Dc_QueryVersionNumber => Some (byte_entry VERSION_2_0)
  | Dc_QueryNumberOfInstances => Some (byte_entry 0)
  | _ => None
  end.

Definition entry_of (known : option Z) : Z := match known with Some b => byte_entry b | None => 0 end.

Definition register_entry (u : Device103Unit) (c : Device103Command) : option Z :=
  let random := random_address (nvm u) in
  match c with
  | Dc_QueryContentDtr0 => Some (entry_of (at0 (dtr u)))
  | Dc_QueryContentDtr1 => Some (entry_of (at1 (dtr u)))
  | Dc_QueryContentDtr2 => Some (entry_of (at2 (dtr u)))
  | Dc_QueryRandomAddressH => Some (entry_of (Some (byte_of random 2)))
  | Dc_QueryRandomAddressM => Some (entry_of (Some (byte_of random 1)))
  | Dc_QueryRandomAddressL => Some (entry_of (Some (byte_of random 0)))
  | _ => None
  end.

Definition mode_entry (u : Device103Unit) (c : Device103Command) : option Z :=
  let mode := operating_mode (nvm u) in
  match c with
  | Dc_ReadMemoryLocation => Some (entry_of (memory_answer u))
  | Dc_QueryApplicationControlEnabled =>
      Some (by_lease (if application_active (nvm u) then Some ANSWER_YES else None) None)
  | Dc_QueryOperatingMode => Some (byte_entry mode)
  | Dc_QueryManufacturerSpecificMode => Some (yes_if (MANUFACTURER_MODES_FROM <=? mode))
  | Dc_QueryQuiescentMode => Some (yes_if (quiescent u))
  | _ => None
  end.

Definition membership_entry (u : Device103Unit) (c : Device103Command) : option Z :=
  let groups := device_groups (nvm u) in
  match c with
  | Dc_QueryDeviceGroups0To7 => Some (byte_entry (byte_of groups 0))
  | Dc_QueryDeviceGroups8To15 => Some (byte_entry (byte_of groups 1))
  | Dc_QueryDeviceGroups16To23 => Some (byte_entry (byte_of groups 2))
  | Dc_QueryDeviceGroups24To31 => Some (byte_entry (byte_of groups 3))
  | Dc_QueryPowerCycleNotification => Some (yes_if (power_cycle_notification (nvm u)))
  | Dc_QueryDeviceCapabilities => Some (byte_entry CAPABILITY_APPLICATION_CONTROLLER)
  | Dc_QueryResetState => Some (yes_if (reset_state u))
  | _ => None
  end.

Definition query_entry (u : Device103Unit) (c : Device103Command) : Z :=
  default 0 (or_else (or_else (or_else (status_entry u c) (register_entry u c)) (mode_entry u c))
               (membership_entry u c)).

Definition answer_table (u : Device103Unit) : AnswerTableImage :=
  if negb (is_hydrated u) then image_SILENT
  else
    let image := image_SILENT <| img_short_address := default NO_SHORT_ADDRESS (short_address (nvm u)) |>
                   <| img_groups := device_groups (nvm u) |> in
    let image := foldl (fun image c =>
        if m_expects_backward (device_metadata c)
        then fst (set_device_query image (m_opcode (device_metadata c)) (query_entry u c)) else image)
      image Device103Command_ALL in
    let set_entry image i e := image <| img_entries := aset (img_entries image) i e |> in
    let image := set_entry image COMPARE_ENTRY (yes_if (compare u)) in
    let image := set_entry image VERIFY_SHORT_ADDRESS_ENTRY
                   (yes_if (initialising u && is_some (short_address (nvm u)))) in
    set_entry image QUERY_SHORT_ADDRESS_ENTRY
      (if initialising u && selected u then byte_entry (default ANSWER_MASK (short_address (nvm u))) else 0).

(** ** Adoption, loss, timers *)

Definition hydrate (u : Device103Unit) (s : BusUnitSnapshot) : Device103Unit * bool :=
  let newer := match revision u with None => true | Some adopted => is_newer (snap_revision s) adopted end in
  if negb newer || negb (acknowledged_wire_sequence s =? wire_sequence u) then (u, false)
  else
    let address := match short_address (snap_nvm s) with
                   | Some a => if a <=? MAX_SHORT_ADDRESS then Some a else None
                   | None => None
                   end in
    (u <| revision := Some (snap_revision s) |> <| nvm := snap_nvm s <| short_address := address |> |>, true).

Definition lost_capture (u : Device103Unit) : Device103Unit :=
  u <| dtr := (None, None, None) |> <| search := (None, None, None) |> <| initialisation := Disabled |>
    <| write_enabled := false |> <| pending_twice := None |>.

Definition power_on_step (u : Device103Unit) (now_ms draw : Z) : Device103Unit * option PowerNotice :=
  let rest := (u, None) in
  match power_on u with
  | Pending =>
      if is_hydrated u then
        (u <| power_on := if power_cycle_notification (nvm u)
                          then Notifying (wrapping_add 32 now_ms (power_notification_delay draw)) else Done |>, None)
      else rest
  | Notifying at_ms =>
      if passed now_ms at_ms then
        (u <| power_on := Done |>,
         if power_cycle_notification (nvm u)
         then Some (MkPowerNotice (short_address (nvm u)) (device_groups (nvm u))) else None)
      else rest
  | Done => rest
  end.

Definition expired (until : option Z) (now_ms : Z) : bool :=
  match until with Some until => passed now_ms until | None => false end.

Definition tick (u : Device103Unit) (now_ms draw : Z) : Device103Unit * UnitEffects :=
  let '(u, notice) := power_on_step u now_ms draw in
  let effects := effects_default <| power_notification := notice |> in
  let u := if initialising u && passed now_ms (initialisation_until_ms u)
           then u <| initialisation := Disabled |> else u in
  let '(u, effects) := if expired (quiescent_until_ms u) now_ms
    then (u <| quiescent_until_ms := None |>, effects <| e_quiescent := Some false |>) else (u, effects) in
  if expired (identify_until_ms u) now_ms
  then (u <| identify_until_ms := None |>, effects <| identify := Some false |>) else (u, effects).

Definition second_of_pair (u : Device103Unit) (bytes : ForwardFrame24) (now_ms : Z) : Device103Unit * bool :=
  let pair := match pending_twice u with
              | Some (first, at_) => bool_decide (first = bytes) && (wrapping_sub 32 now_ms at_ <? SEND_TWICE_SPAN_MS)
              | None => false
              end in
  (u <| pending_twice := if pair then None else Some (bytes, now_ms) |>, pair).

(** ** [Step]: the reaction to one frame *)

Record Step := MkStep { unit_ : Device103Unit; now_ms : Z; twice : bool; effects : UnitEffects }.

#[global] Instance eta_Step : Eta Step := fun s => MkStep (unit_ s) (now_ms s) (twice s) (effects s).

(** [self.unit.f = v]. *)
Definition on_unit (f : Device103Unit -> Device103Unit) (s : Step) : Step := s <| unit_ := f (unit_ s) |>.

Definition stop_identification (s : Step) : Step :=
  match identify_until_ms (unit_ s) with
  | Some _ => on_unit (fun u => u <| identify_until_ms := None |>) s <| effects := effects s <| identify := Some false |> |>
  | None => s
  end.

Definition set_nvm (change : BusUnitNvm -> BusUnitNvm) (s : Step) : Step :=
  let before := nvm (unit_ s) in
  let s := on_unit (fun u => u <| nvm := change before |>) s in
  if bool_decide (nvm (unit_ s) = before) then s
  else on_unit (fun u => u <| wire_sequence := wrapping_add 32 (wire_sequence u) 1 |>) s
         <| effects := effects s <| nvm_changed := true |> |>.

Definition step_quiescent (start : bool) (s : Step) : Step :=
  let s := if start || quiescent (unit_ s) then s <| effects := effects s <| e_quiescent := Some start |> |> else s in
  let s := if start then on_unit (fun u => u <| power_on := Done |>) s else s in
  on_unit (fun u => u <| quiescent_until_ms := if start then Some (wrapping_add 32 (now_ms s) QUIESCENT_MS) else None |>) s.

Definition reset (s : Step) : Step :=
  let s := set_nvm (fun n => n <| device_groups := 0 |> <| random_address := FACTORY_RANDOM_ADDRESS |>) s in
  let s := on_unit (fun u => u <| search := (Some 0xFF, Some 0xFF, Some 0xFF) |> <| write_enabled := false |>
                               <| power_cycle_seen := false |>) s in
  step_quiescent false s.

Definition operating_mode_ (s : Step) : Step :=
  if bool_decide (at0 (dtr (unit_ s)) = Some STANDARD_OPERATING_MODE)
  then set_nvm (fun n => n <| operating_mode := STANDARD_OPERATING_MODE |>) s else s.

Definition groups (c : Device103Command) (s : Step) : Step :=
  let args := match c with
              | Dc_AddToDeviceGroups0To15 => Some (0, true)
              | Dc_AddToDeviceGroups16To31 => Some (UPPER_GROUPS_SHIFT, true)
              | Dc_RemoveFromDeviceGroups0To15 => Some (0, false)
              | Dc_RemoveFromDeviceGroups16To31 => Some (UPPER_GROUPS_SHIFT, false)
              | _ => None
              end in
  match args, at1 (dtr (unit_ s)), at2 (dtr (unit_ s)) with
  | Some (shift, add), Some low, Some high =>
      let bits := shl 32 (Z.lor low (shl 16 high 8)) shift in
      set_nvm (fun n => n <| device_groups :=
        if add : bool then Z.lor (device_groups n) bits
        else Z.land (device_groups n) (Z.lxor bits (umax 32)) |>) s
  | _, _, _ => s
  end.

(** [true] when the command was one of these. *)
Definition control (c : Device103Command) (s : Step) : Step * bool :=
  match c with
  | Dc_IdentifyDevice =>
      (on_unit (fun u => u <| identify_until_ms := Some (wrapping_add 32 (now_ms s) IDENTIFY_MS) |>) s
         <| effects := effects s <| identify := Some true |> |>, true)
  | Dc_ResetPowerCycleSeen => (on_unit (fun u => u <| power_cycle_seen := false |>) s, true)
  | Dc_Reset => (reset s, true)
  | Dc_SetShortAddress =>
      (match at0 (dtr (unit_ s)) with
       | Some v => match short_address_operand v with
                   | Some address => set_nvm (fun n => n <| short_address := address |>) s
                   | None => s
                   end
       | None => s
       end, true)
  | Dc_EnableWriteMemory => (on_unit (fun u => u <| write_enabled := true |>) s, true)
  | Dc_SetOperatingMode => (operating_mode_ s, true)
  | _ => (s, false)
  end.

Definition configure (c : Device103Command) (s : Step) : Step :=
  match c with
  | Dc_EnableApplicationController => set_nvm (fun n => n <| application_active := true |>) s
  | Dc_DisableApplicationController => set_nvm (fun n => n <| application_active := false |>) s
  | Dc_StartQuiescentMode => step_quiescent true s
  | Dc_StopQuiescentMode => step_quiescent false s
  | Dc_EnablePowerCycleNotification => set_nvm (fun n => n <| power_cycle_notification := true |>) s
  | Dc_DisablePowerCycleNotification => set_nvm (fun n => n <| power_cycle_notification := false |>) s
  | _ => groups c s
  end.

Definition query (c : Device103Command) (s : Step) : Step :=
  match c with
  | Dc_ReadMemoryLocation =>
      let dtr0 := match at1 (dtr (unit_ s)) with
                  | Some 0 => option_map step_location (at0 (dtr (unit_ s)))
                  | Some _ => at0 (dtr (unit_ s))
                  | None => None
                  end in
      on_unit (fun u => u <| dtr := set0 (dtr u) dtr0 |>) s
  | _ => s
  end.

Definition device (c : Device103Command) (s : Step) : Step :=
  let s := match c with
           | Dc_QueryContentDtr0 | Dc_QueryContentDtr1 | Dc_QueryContentDtr2 => s
           | _ => on_unit (fun u => u <| write_enabled := false |>) s
           end in
  if m_expects_backward (device_metadata c) then query c s
  else if twice s then
    let s := if bool_decide (c = Dc_IdentifyDevice) then s else stop_identification s in
    let '(s, done) := control c s in
    if done : bool then s else configure c s
  else s.

Definition initialise_addresses_us (u : Device103Unit) (data : Z) : bool :=
  match short_address (nvm u) with
  | None => (data =? 0xFF) || (data =? 0x7F)
  | Some short => (data =? 0xFF) || (data =? short)
  end.

Definition initialise (data : Z) (s : Step) : Step :=
  if negb (twice s) || negb (initialise_addresses_us (unit_ s) data) then s
  else
    let s := if bool_decide (initialisation (unit_ s) = Disabled)
             then on_unit (fun u => u <| initialisation := Enabled |>) s else s in
    on_unit (fun u => u <| initialisation_until_ms := wrapping_add 32 (now_ms s) INITIALISATION_MS |>) s.

Definition randomise (draw : Z) (s : Step) : Step :=
  if negb (twice s) || negb (initialising (unit_ s)) then s
  else set_nvm (fun n => n <| random_address := draw mod RANDOM_ADDRESS_SPAN |>) s.

Definition withdraw (s : Step) : Step :=
  if selected (unit_ s) then on_unit (fun u => u <| initialisation := Withdrawn |>) s else s.

Definition search_command (c : Special103Command) (data : Z) (s : Step) : Step :=
  if negb (initialising (unit_ s)) then s
  else
    match c with
    | Sc_Withdraw => withdraw s
    | Sc_SearchAddrH => on_unit (fun u => u <| search := set0 (search u) (Some data) |>) s
    | Sc_SearchAddrM => on_unit (fun u => u <| search := set1 (search u) (Some data) |>) s
    | Sc_SearchAddrL => on_unit (fun u => u <| search := set2 (search u) (Some data) |>) s
    | Sc_ProgramShortAddress =>
        if selected (unit_ s) then
          match short_address_operand data with
          | Some address => set_nvm (fun n => n <| short_address := address |>) s
          | None => s
          end
        else s
    | _ => s
    end.

Definition bank0_writable (u : Device103Unit) : bool := write_enabled u && bool_decide (at1 (dtr u) = Some 0).

Definition write_memory (s : Step) : Step :=
  if bank0_writable (unit_ s)
  then on_unit (fun u => u <| dtr := set0 (dtr u) (option_map step_location (at0 (dtr u))) |>) s else s.

Definition direct_write (offset : Z) (s : Step) : Step :=
  if bank0_writable (unit_ s)
  then on_unit (fun u => u <| dtr := set0 (dtr u) (Some (step_location offset)) |>) s else s.

Definition test_frame (data : Z) (s : Step) : Step :=
  if has_bits data 0x80 || negb (in_range (Z.land data 0x07) 1 5) then s
  else if quiescent (unit_ s) then s
  else
    match dtr (unit_ s) with
    | (Some dtr0, Some dtr1, dtr2) =>
        match or_else dtr2 (if has_bits data 0x20 then Some 0 else None) with
        | Some dtr2 => s <| effects := effects s <| e_test_frame := Some (MkTestFrame data (dtr0, dtr1, dtr2)) |> |>
        | None => s
        end
    | _ => s
    end.

Definition special (c : Special103Command) (data draw : Z) (s : Step) : Step :=
  let s := if keeps_write_enabled c then s else on_unit (fun u => u <| write_enabled := false |>) s in
  let s := if stops_identification c && (twice s || negb (special_send_twice c)) then stop_identification s else s in
  match c with
  | Sc_Terminate => on_unit (fun u => u <| initialisation := Disabled |>) s
  | Sc_Initialise => initialise data s
  | Sc_Randomise => randomise draw s
  | Sc_WriteMemoryLocation | Sc_WriteMemoryLocationNoReply => write_memory s
  | Sc_Dtr0 => on_unit (fun u => u <| dtr := set0 (dtr u) (Some data) |>) s
  | Sc_Dtr1 => on_unit (fun u => u <| dtr := set1 (dtr u) (Some data) |>) s
  | Sc_Dtr2 => on_unit (fun u => u <| dtr := set2 (dtr u) (Some data) |>) s
  | Sc_SendTestframe => test_frame data s
  | _ => search_command c data s
  end.

Definition step_frame (f : ForwardFrame24) (draw : Z) (s : Step) : Step :=
  let '(address, instance, data) := f in
  if address =? SPECIAL then
    match from_selector instance with Some c => special c data draw s | None => s end
  else if address =? DIRECT_WRITE_MEMORY then direct_write instance (stop_identification s)
  else if address =? DTR1_DTR0 then
    on_unit (fun u => u <| dtr := (Some data, Some instance, at2 (dtr u)) |>) (stop_identification s)
  else if address =? DTR2_DTR1 then
    on_unit (fun u => u <| dtr := (at0 (dtr u), Some data, Some instance) |>) (stop_identification s)
  else if (instance =? DEVICE_INSTANCE) && accepts (unit_ s) address then
    match device_from_opcode data with Some c => device c s | None => s end
  else s.

Definition feed (u : Device103Unit) (frame : UnitFrame) (now_ms draw : Z) : Device103Unit * UnitEffects :=
  match frame with
  | Other => (u <| pending_twice := None |>, effects_default)
  | Forward24 bytes =>
      if negb (is_hydrated u) then (lost_capture u, effects_default)
      else
        let '(u, twice) := second_of_pair u bytes now_ms in
        let s := step_frame bytes draw (MkStep u now_ms twice effects_default) in
        (unit_ s, effects s)
  end.

(** ** The state invariant *)

Definition opt_u32 (o : option Z) : Prop := match o with Some x => in_u 32 x | None => True end.

Record nvm_wf (n : BusUnitNvm) : Prop := {
  nw_short : match short_address n with Some a => 0 <= a <= MAX_SHORT_ADDRESS | None => True end;
  nw_random : in_u 24 (random_address n);
  nw_groups : in_u 32 (device_groups n);
  nw_mode : in_u 8 (operating_mode n);
}.

Definition triple_u8 (t : option Z * option Z * option Z) : Prop :=
  opt_u8 (at0 t) /\ opt_u8 (at1 t) /\ opt_u8 (at2 t).

Record unit_wf (u : Device103Unit) : Prop := {
  uw_nvm : nvm_wf (nvm u);
  uw_revision : opt_u32 (revision u);
  uw_sequence : in_u 32 (wire_sequence u);
  uw_bank0 : Forall opt_u8 (bank0 u) /\ length (bank0 u) = 27%nat;
  uw_dtr : triple_u8 (dtr u);
  uw_search : triple_u8 (search u);
  uw_init : in_u 32 (initialisation_until_ms u);
  uw_quiescent : opt_u32 (quiescent_until_ms u);
  uw_identify : opt_u32 (identify_until_ms u);
}.

Definition frame_ok (f : ForwardFrame24) : Prop := let '(a, i, d) := f in in_u 8 a /\ in_u 8 i /\ in_u 8 d.

Record step_wf (s : Step) : Prop := { sw_unit : unit_wf (unit_ s); sw_now : in_u 32 (now_ms s) }.

Lemma set0_u8 t x : triple_u8 t -> opt_u8 x -> triple_u8 (set0 t x).
Proof. destruct t as [[a b] c]. unfold triple_u8. cbn. tauto. Qed.
Lemma set1_u8 t x : triple_u8 t -> opt_u8 x -> triple_u8 (set1 t x).
Proof. destruct t as [[a b] c]. unfold triple_u8. cbn. tauto. Qed.
Lemma set2_u8 t x : triple_u8 t -> opt_u8 x -> triple_u8 (set2 t x).
Proof. destruct t as [[a b] c]. unfold triple_u8. cbn. tauto. Qed.

Lemma step_location_u8 x : in_u 8 x -> in_u 8 (step_location x).
Proof. unfold step_location, LAST_MEMORY_LOCATION, in_u. case_if; lia. Qed.

Lemma map_step_location_u8 o : opt_u8 o -> opt_u8 (option_map step_location o).
Proof. destruct o; [apply step_location_u8|done]. Qed.

Lemma wrapping_add_u32 a b : in_u 32 (wrapping_add 32 a b).
Proof. apply wrap_range. lia. Qed.

#[local] Hint Resolve set0_u8 set1_u8 set2_u8 step_location_u8 map_step_location_u8 wrapping_add_u32 : unit.

(** Updates of one field of the unit. *)
Ltac unit_field H := destruct H as [[] ?]; split; [split|]; cbn; auto with unit; try easy.

Lemma stop_identification_wf s : step_wf s -> step_wf (stop_identification s).
Proof. intros H. unfold stop_identification. destruct (identify_until_ms (unit_ s)); [unit_field H|done]. Qed.

Lemma set_nvm_wf f s : step_wf s -> nvm_wf (f (nvm (unit_ s))) -> step_wf (set_nvm f s).
Proof. intros H Hf. unfold set_nvm. case_if; unit_field H. Qed.

Lemma step_quiescent_wf b s : step_wf s -> step_wf (step_quiescent b s).
Proof. intros H. unfold step_quiescent. destruct b; cbn; [|case_if]; unit_field H. Qed.

Lemma reset_wf s : step_wf s -> step_wf (reset s).
Proof.
  intros H. unfold reset. apply step_quiescent_wf.
  assert (step_wf (set_nvm (fun n => n <| device_groups := 0 |> <| random_address := FACTORY_RANDOM_ADDRESS |>) s)) as H1.
  { apply set_nvm_wf; [done|]. destruct H as [[[] ? ? ? ? ? ? ? ?] ?]. split; cbn; easy. }
  clear H. unit_field H1.
Qed.

Lemma short_address_operand_wf v a : in_u 8 v -> short_address_operand v = Some a ->
  match a with Some a => 0 <= a <= MAX_SHORT_ADDRESS | None => True end.
Proof. unfold short_address_operand. intros Hv. repeat case_if; intros [= <-]; [done|]. unfold in_u in *. lia. Qed.

Lemma set_short_address_wf v s : step_wf s -> in_u 8 v ->
  step_wf match short_address_operand v with
          | Some address => set_nvm (fun n => n <| short_address := address |>) s | None => s end.
Proof.
  intros H Hv. destruct (short_address_operand v) as [a|] eqn:E; [|done]. apply set_nvm_wf; [done|].
  apply short_address_operand_wf in E; [|done]. destruct H as [[[] ? ? ? ? ? ? ? ?] ?]. split; cbn; done.
Qed.

Lemma dtr_parts s : step_wf s -> triple_u8 (dtr (unit_ s)).
Proof. intros [[] _]. done. Qed.

Lemma control_wf c s : step_wf s -> step_wf (fst (control c s)).
Proof.
  intros H. pose proof (dtr_parts s H) as (H0 & _ & _).
  destruct c; try exact H; cbn [control fst]; [unit_field H|unit_field H|now apply reset_wf| |unit_field H|].
  - destruct (at0 (dtr (unit_ s))); [now apply set_short_address_wf|done].
  - unfold operating_mode_. case_if; [|done]. apply set_nvm_wf; [done|].
    destruct H as [[[] ? ? ? ? ? ? ? ?] ?]. split; cbn; easy.
Qed.

Lemma groups_wf c s : step_wf s -> step_wf (groups c s).
Proof.
  intros H. unfold groups.
  set (args := match c with Dc_AddToDeviceGroups0To15 => _ | _ => _ end). destruct args as [[shift add]|]; [|done].
  destruct (at1 (dtr (unit_ s))), (at2 (dtr (unit_ s))); try done.
  apply set_nvm_wf; [done|]. destruct H as [[[] ? ? ? ? ? ? ? ?] ?]. split; cbn; try done.
  assert (forall a, in_u 32 (shl 32 a shift)) by (intros; apply wrap_range; lia).
  destruct add; [now apply in_u_lor|]. apply in_u_land; [lia|done|]. apply Z.lxor_nonneg.
  unfold umax. specialize (H (Z.lor z (shl 16 z0 8))). unfold in_u in H. lia.
Qed.

Lemma configure_wf c s : step_wf s -> step_wf (configure c s).
Proof.
  intros H. destruct c; cbn [configure]; try (now apply groups_wf); try (now apply step_quiescent_wf);
    (apply set_nvm_wf; [done|]; destruct H as [[[] ? ? ? ? ? ? ? ?] ?]; split; cbn; done).
Qed.

Lemma query_wf c s : step_wf s -> step_wf (query c s).
Proof.
  intros H. unfold query. pose proof (dtr_parts s H) as (H0 & H1 & _). destruct c; try done.
  assert (opt_u8 match at1 (dtr (unit_ s)) with
                 | Some 0 => option_map step_location (at0 (dtr (unit_ s)))
                 | Some _ => at0 (dtr (unit_ s)) | None => None end) as Hd.
  { destruct (at1 _) as [[|p|p]|]; auto with unit; done. }
  unit_field H.
Qed.

Lemma device_wf c s : step_wf s -> step_wf (device c s).
Proof.
  intros H. unfold device.
  set (s1 := match c with Dc_QueryContentDtr0 | Dc_QueryContentDtr1 | Dc_QueryContentDtr2 => _ | _ => _ end).
  assert (step_wf s1) as H1 by (subst s1; destruct c; try exact H; unit_field H). clearbody s1. clear H.
  case_if; [now apply query_wf|]. destruct (twice s1); [|done].
  set (s2 := if bool_decide _ then s1 else _).
  assert (step_wf s2) as H2 by (subst s2; case_if; [done|now apply stop_identification_wf]). clearbody s2.
  pose proof (control_wf c s2 H2) as H3. destruct (control c s2) as [s3 done_]. destruct done_; [done|].
  now apply configure_wf.
Qed.

Lemma initialise_wf d s : step_wf s -> step_wf (initialise d s).
Proof. intros H. unfold initialise. case_if; [done|]. cbn. case_if; unit_field H. Qed.

Lemma randomise_wf draw s : step_wf s -> 0 <= draw -> step_wf (randomise draw s).
Proof.
  intros H Hd. unfold randomise. case_if; [done|]. apply set_nvm_wf; [done|].
  destruct H as [[[] ? ? ? ? ? ? ? ?] ?]. split; cbn; try done.
  unfold in_u, RANDOM_ADDRESS_SPAN. pose proof (Z.mod_pos_bound draw 0xFFFFFF). lia.
Qed.

Lemma search_command_wf c d s : step_wf s -> in_u 8 d -> step_wf (search_command c d s).
Proof.
  intros H Hd. unfold search_command. case_if; [done|].
  destruct c; try done; unfold withdraw; try case_if; try done; try (now apply set_short_address_wf); unit_field H.
Qed.

Lemma write_memory_wf s : step_wf s -> step_wf (write_memory s).
Proof. intros H. pose proof (dtr_parts s H) as (H0 & _). unfold write_memory. case_if; [unit_field H|done]. Qed.

Lemma direct_write_wf o s : step_wf s -> in_u 8 o -> step_wf (direct_write o s).
Proof. intros H Ho. apply step_location_u8 in Ho. unfold direct_write. case_if; [unit_field H|done]. Qed.

Lemma test_frame_wf d s : step_wf s -> step_wf (test_frame d s).
Proof.
  intros H. unfold test_frame. case_if; [done|]. case_if; [done|].
  destruct (dtr (unit_ s)) as [[[?|] [?|]] ?]; try done. destruct (or_else _ _); [|done]. unit_field H.
Qed.

Lemma special_wf c d draw s : step_wf s -> in_u 8 d -> 0 <= draw -> step_wf (special c d draw s).
Proof.
  intros H Hd Hdraw. unfold special.
  set (s1 := if keeps_write_enabled c then s else _).
  assert (step_wf s1) as H1 by (subst s1; case_if; [done|unit_field H]). clearbody s1.
  set (s2 := if stops_identification c && _ then _ else s1).
  assert (step_wf s2) as H2 by (subst s2; case_if; [now apply stop_identification_wf|done]). clearbody s2. clear H H1.
  destruct c; try (now apply search_command_wf); try (now apply write_memory_wf);
    [|now apply initialise_wf|now apply randomise_wf| | | |now apply test_frame_wf]; unit_field H2.
Qed.

Lemma step_frame_wf f draw s : step_wf s -> frame_ok f -> 0 <= draw -> step_wf (step_frame f draw s).
Proof.
  destruct f as [[a i] d]. intros H (Ha & Hi & Hd) Hdraw. unfold step_frame.
  pose proof (stop_identification_wf s H) as Hs. repeat case_if.
  - destruct (from_selector i); [now apply special_wf|done].
  - now apply direct_write_wf.
  - pose proof (dtr_parts _ Hs) as (_ & _ & H2). unit_field Hs.
  - pose proof (dtr_parts _ Hs) as (H2 & _ & _). unit_field Hs.
  - destruct (device_from_opcode d); [now apply device_wf|done].
  - done.
Qed.

(** ** Reachable states *)

Definition snapshot_ok (s : BusUnitSnapshot) : Prop :=
  opt_u8 (short_address (snap_nvm s)) /\ in_u 24 (random_address (snap_nvm s)) /\
  in_u 32 (device_groups (snap_nvm s)) /\ in_u 8 (operating_mode (snap_nvm s)) /\ in_u 32 (snap_revision s).

Definition identity_ok (i : BusUnitIdentity) : Prop :=
  Forall (in_u 8) (firmware_version i) /\ Forall (in_u 8) (hardware_version i) /\
  Forall (in_u 8) (identification_number i).

(** The calls the firmware makes on the unit. *)
Inductive unit_call :=
  | CallHydrate (s : BusUnitSnapshot) | CallFeed (f : UnitFrame) (now draw : Z) | CallTick (now draw : Z)
  | CallLostCapture.

Definition unit_do (u : Device103Unit) (c : unit_call) : Device103Unit :=
  match c with
  | CallHydrate s => fst (hydrate u s)
  | CallFeed f now draw => fst (feed u f now draw)
  | CallTick now draw => fst (tick u now draw)
  | CallLostCapture => lost_capture u
  end.

Definition call_ok (c : unit_call) : Prop :=
  match c with
  | CallHydrate s => snapshot_ok s
  | CallFeed (Forward24 f) now draw => frame_ok f /\ in_u 32 now /\ in_u 32 draw
  | CallFeed Other now draw => in_u 32 now /\ in_u 32 draw
  | CallTick now draw => in_u 32 now /\ in_u 32 draw
  | CallLostCapture => True
  end.

Inductive unit_reachable (i : BusUnitIdentity) : Device103Unit -> Prop :=
  | ur_new : unit_reachable i (unit_new i)
  | ur_step u c : unit_reachable i u -> call_ok c -> unit_reachable i (unit_do u c).

Lemma bank0_write_wf bank k bytes :
  Forall opt_u8 bank -> Forall (in_u 8) bytes ->
  Forall opt_u8 (bank0_write bank k bytes) /\ length (bank0_write bank k bytes) = length bank.
Proof.
  intros Hb. unfold bank0_write. generalize (seq 0 (length bytes)). intros l. revert l bank Hb.
  induction bytes as [|b bytes IH]; intros [|i l] bank Hb Hbytes; try done.
  cbn [zip zip_with foldl]. apply Forall_cons_1 in Hbytes as [H1 H2].
  destruct (IH l (<[(k + i)%nat := Some b]> bank)) as [H3 H4]; [now apply Forall_insert|done|].
  rewrite length_insert in H4. done.
Qed.

Lemma unit_new_wf i : identity_ok i -> unit_wf (unit_new i).
Proof.
  intros (Hf & Hh & Hi). split; try easy; try (split; easy).
  cbn [unit_new bank0]. unfold bank0_of.
  set (b0 := <[1%nat := None]> _).
  assert (Forall opt_u8 b0 /\ length b0 = 27%nat) as [H0 L0] by (split; [repeat constructor; easy|done]). clearbody b0.
  destruct (bank0_write_wf b0 0x09 _ H0 Hf) as [H1 L1].
  destruct (bank0_write_wf _ 0x0B _ H1 Hi) as [H2 L2].
  destruct (bank0_write_wf _ 0x13 _ H2 Hh) as [H3 L3].
  destruct (bank0_write_wf _ 0x15 [VERSION_2_0; VERSION_NOT_IMPLEMENTED; VERSION_2_0] H3) as [H4 L4];
    [repeat constructor; easy|].
  destruct (bank0_write_wf _ 0x18 [1; 0; 0] H4) as [H5 L5]; [repeat constructor; easy|].
  split; [exact H5|congruence].
Qed.

Lemma hydrate_wf u s : unit_wf u -> snapshot_ok s -> unit_wf (fst (hydrate u s)).
Proof.
  intros H (Hs & Hr & Hg & Hm & Hrev). unfold hydrate.
  case_if; [done|]. destruct H as [[]]. split; cbn; try done. split; cbn; try done.
  destruct (short_address (snap_nvm s)); [|done]. cbn in Hs. case_if; [|done]. unfold in_u in Hs. lia.
Qed.

Lemma power_on_step_wf u now draw : unit_wf u -> unit_wf (fst (power_on_step u now draw)).
Proof. intros H. unfold power_on_step. destruct (power_on u); repeat case_if; cbn; destruct H; try done; split; done. Qed.

Lemma unit_tick_wf u now draw : unit_wf u -> unit_wf (fst (tick u now draw)).
Proof.
  intros H. unfold tick. pose proof (power_on_step_wf u now draw H) as H1.
  destruct (power_on_step u now draw) as [u1 n]. cbn [fst] in H1. clear H.
  repeat case_if; destruct H1; split; done.
Qed.

Lemma feed_wf u f now draw : unit_wf u -> call_ok (CallFeed f now draw) -> unit_wf (fst (feed u f now draw)).
Proof.
  intros H Hok. unfold feed. destruct f as [bytes|].
  - destruct Hok as (Hf & Hn & Hd). case_if; [destruct H; split; done|].
    unfold second_of_pair. cbn [fst]. apply (step_frame_wf bytes draw); [|done|unfold in_u in *; lia].
    split; [|done]. destruct H; split; done.
  - destruct H; split; done.
Qed.

Lemma unit_reachable_wf_aux i u : identity_ok i -> unit_reachable i u -> unit_wf u.
Proof.
  intros Hi. induction 1 as [|u c _ IH Hc]; [now apply unit_new_wf|].
  destruct c; cbn [unit_do].
  - now apply hydrate_wf. - now apply feed_wf. - now apply unit_tick_wf. - destruct IH; split; done.
Qed.

(** ** Changes of the stored state *)

(** From [u0], with no change reported: nothing stored has changed at [s]. *)
Definition untouched (u0 : Device103Unit) (s : Step) : Prop :=
  nvm (unit_ s) = nvm u0 /\ wire_sequence (unit_ s) = wire_sequence u0 /\ nvm_changed (effects s) = false.

(** Nothing has changed, or exactly one change was made, counted and reported. *)
Definition counted (u0 : Device103Unit) (s : Step) : Prop :=
  untouched u0 s \/
  (nvm (unit_ s) <> nvm u0 /\ wire_sequence (unit_ s) = wrapping_add 32 (wire_sequence u0) 1 /\
   nvm_changed (effects s) = true).

Lemma set_nvm_counted u0 f s : untouched u0 s -> counted u0 (set_nvm f s).
Proof.
  intros (H1 & H2 & H3). unfold set_nvm. cbn. case_bool_decide as E.
  - left. split_and!; cbn; [congruence|done|done].
  - right. split_and!; cbn; [congruence|congruence|done].
Qed.

Lemma stop_identification_untouched u0 s : untouched u0 s -> untouched u0 (stop_identification s).
Proof. intros H. unfold stop_identification. destruct (identify_until_ms (unit_ s)); exact H. Qed.

Lemma step_quiescent_counted u0 b s : counted u0 s -> counted u0 (step_quiescent b s).
Proof. intros H. unfold step_quiescent. destruct b; cbn; [|case_if]; exact H. Qed.

Lemma step_quiescent_untouched u0 b s : untouched u0 s -> untouched u0 (step_quiescent b s).
Proof. intros H. unfold step_quiescent. destruct b; cbn; [|case_if]; exact H. Qed.

Lemma reset_counted u0 s : untouched u0 s -> counted u0 (reset s).
Proof.
  intros H. unfold reset. apply step_quiescent_counted.
  exact (set_nvm_counted u0 (fun n => n <| device_groups := 0 |> <| random_address := FACTORY_RANDOM_ADDRESS |>) s H).
Qed.

Lemma control_configure_counted u0 c s :
  untouched u0 s -> counted u0 (let '(s, d) := control c s in if d : bool then s else configure c s).
Proof.
  intros H. destruct c; cbn [control configure];
    try (left; exact H); try (apply set_nvm_counted; exact H); try (left; now apply step_quiescent_untouched);
    try (now apply reset_counted).
  all: unfold operating_mode_, groups; try case_if; try (left; exact H); try (apply set_nvm_counted; exact H).
  all: repeat match goal with |- context [match ?x with Some _ => _ | None => _ end] => destruct x end;
    try (left; exact H); try (apply set_nvm_counted; exact H).
Qed.

Lemma device_touches u0 c s :
  untouched u0 s -> counted u0 (device c s) /\ (twice s = false -> untouched u0 (device c s)).
Proof.
  intros H. unfold device.
  set (s1 := match c with Dc_QueryContentDtr0 | Dc_QueryContentDtr1 | Dc_QueryContentDtr2 => _ | _ => _ end).
  assert (untouched u0 s1 /\ twice s1 = twice s) as [H1 E] by (subst s1; destruct c; split; exact H || reflexivity).
  clearbody s1. clear H. rewrite <- E. case_if.
  - assert (untouched u0 (query c s1)) by (unfold query; destruct c; exact H1). split; [now left|done].
  - destruct (twice s1); [split; [|discriminate]|split; [now left|done]].
    apply control_configure_counted. case_if; [done|now apply stop_identification_untouched].
Qed.

(** The special commands that store something: RANDOMISE, and PROGRAM SHORT ADDRESS. *)
Definition programs (u : Device103Unit) (f : ForwardFrame24) : bool :=
  let '(address, instance, _) := f in
  (address =? SPECIAL) && (instance =? special_code Sc_ProgramShortAddress) && initialising u && selected u.

Lemma search_command_touches u0 c d s :
  untouched u0 s -> counted u0 (search_command c d s) /\
  (c <> Sc_ProgramShortAddress \/ initialising (unit_ s) && selected (unit_ s) = false ->
   untouched u0 (search_command c d s)).
Proof.
  intros H. unfold search_command, withdraw. destruct (initialising (unit_ s)); cbn [negb andb]; [|split; [now left|done]].
  destruct c; try (split; [now left|intros; exact H]).
  - destruct (selected (unit_ s)); (split; [left; exact H|intros; exact H]).
  - destruct (selected (unit_ s)); [|split; [left; exact H|done]].
    split; [|intros [?|?]; done].
    destruct (short_address_operand d); [now apply set_nvm_counted|now left].
Qed.

Lemma special_touches u0 c d draw s :
  untouched u0 s -> counted u0 (special c d draw s) /\
  (twice s = false ->
   c <> Sc_ProgramShortAddress \/ initialising (unit_ s) && selected (unit_ s) = false ->
   untouched u0 (special c d draw s)).
Proof.
  intros H. unfold special.
  set (s1 := if keeps_write_enabled c then s else _).
  set (s2 := if stops_identification c && _ then _ else s1).
  assert (untouched u0 s2 /\ twice s2 = twice s /\ initialising (unit_ s2) = initialising (unit_ s)
          /\ selected (unit_ s2) = selected (unit_ s)) as (H2 & Et & Ei & Es).
  { subst s2 s1. repeat case_if; unfold stop_identification; try destruct (identify_until_ms _);
      split_and!; try exact H; reflexivity. }
  clearbody s2. clear s1 H. rewrite <- Et, <- Ei, <- Es.
  destruct c; try (apply search_command_touches; exact H2);
    try (split; [now apply search_command_touches|intros _; now apply search_command_touches]).
  - split; [left|intros _ _]; exact H2.
  - unfold initialise. split; [left|intros _ _]; repeat case_if; exact H2.
  - unfold randomise. destruct (twice s2); cbn [negb orb]; [|split; [left|intros _ _]; exact H2].
    split; [|discriminate]. case_if; [left; exact H2|now apply set_nvm_counted].
  - unfold write_memory. split; [left|intros _ _]; case_if; exact H2.
  - unfold write_memory. split; [left|intros _ _]; case_if; exact H2.
  - split; [left|intros _ _]; exact H2.
  - split; [left|intros _ _]; exact H2.
  - split; [left|intros _ _]; exact H2.
  - unfold test_frame. split; [left|intros _ _]; repeat case_if; try exact H2;
      destruct (dtr (unit_ s2)) as [[[?|] [?|]] ?]; try exact H2; destruct (or_else _ _); exact H2.
Qed.

Lemma step_frame_touches f draw u0 s :
  untouched u0 s -> initialising (unit_ s) = initialising u0 -> selected (unit_ s) = selected u0 ->
  counted u0 (step_frame f draw s) /\
  (twice s = false -> programs u0 f = false -> untouched u0 (step_frame f draw s)).
Proof.
  destruct f as [[a i] d]. intros H Ei Es. pose proof (stop_identification_untouched u0 s H) as Hs.
  unfold step_frame, programs. destruct (a =? SPECIAL); cbn [andb].
  - destruct (from_selector i) as [c|] eqn:Ec; [|split; [now left|done]].
    destruct (special_touches u0 c d draw s H) as [H1 H2]. split; [done|]. intros Ht Hp. apply H2; [done|].
    apply from_selector_inv in Ec. subst i. rewrite Ei, Es.
    destruct (decide (c = Sc_ProgramShortAddress)) as [->|]; [right|now left].
    rewrite Z.eqb_refl in Hp. exact Hp.
  - unfold direct_write. repeat case_if; try (split; [left|intros _ _]; (exact Hs || exact H)).
    destruct (device_from_opcode d) as [c|]; [|split; [now left|done]].
    destruct (device_touches u0 c s H) as [Hc Hu]. split; [done|]. intros Ht _. now apply Hu.
Qed.

(** ** Properties *)


Definition example_identity : BusUnitIdentity := MkIdentity [2; 7] [1; 0] [0; 0; 0; 0; 0; 0; 0; 9].

Definition example_snapshot : BusUnitSnapshot :=
  MkSnapshot (FACTORY_NVM <| short_address := Some 5 |> <| random_address := 0x123456 |>) 1 0 0.

Lemma example_snapshot_ok : snapshot_ok example_snapshot.
Proof. repeat split; discriminate || reflexivity. Qed.

Lemma example_identity_ok : identity_ok example_identity.
Proof. repeat split; repeat constructor; discriminate || reflexivity. Qed.


(** stored changes are confirmed, counted and reported.  A captured frame
    changes the stored state at most once, and then the wire sequence advances
    by one and the change is reported; it changes nothing unless it is the
    second frame of a send-twice pair or programs the short address of a unit
    that is being commissioned and selected. *)
Theorem feed_changes_counted u f now draw :
  let '(u', e) := feed u (Forward24 f) now draw in
  ((nvm u' = nvm u /\ wire_sequence u' = wire_sequence u /\ nvm_changed e = false) \/
   (nvm u' <> nvm u /\ wire_sequence u' = wrapping_add 32 (wire_sequence u) 1 /\ nvm_changed e = true)) /\
  (nvm u' <> nvm u -> snd (second_of_pair u f now) = true \/ programs u f = true).
Proof.
  unfold feed. destruct (is_hydrated u); cbn [negb]; [|split; [now left|done]].
  destruct (second_of_pair u f now) as [u1 t] eqn:E. cbn [snd].
  assert (u1 = u <| pending_twice := pending_twice u1 |>) as Eu.
  { unfold second_of_pair in E. injection E as <- _. destruct u. reflexivity. }
  set (s0 := MkStep u1 now t effects_default).
  assert (untouched u s0 /\ initialising (unit_ s0) = initialising u /\ selected (unit_ s0) = selected u)
    as (H & Hi & Hs) by (subst s0; unfold untouched; cbn [unit_ effects]; rewrite Eu; split_and!; reflexivity).
  destruct (step_frame_touches f draw u s0 H Hi Hs) as [H1 H2]. split; [exact H1|].
  intros Hne. destruct t; [now left|right]. destruct (programs u f) eqn:Ep; [done|].
  exfalso. apply Hne. now destruct (H2 eq_refl eq_refl).
Qed.

(** ** The table the interrupt answers from *)

(** What the unit answers to a query command, with and without the lease. *)
Definition query_answer (u : Device103Unit) (c : Device103Command) (alive : bool) : option Z :=
  let yes (b : bool) := if b then Some ANSWER_YES else None in
  let n := nvm u in
  match c with
  | Dc_QueryDeviceStatus => Some (if alive then status_byte u else Z.lor (status_byte u) STATUS_CONTROLLER_ERROR)
  | Dc_QueryApplicationControllerError => yes (negb alive)
  | Dc_QueryMissingShortAddress => yes (negb (is_some (short_address n)))
  | Dc_QueryVersionNumber => Some VERSION_2_0
  | Dc_QueryNumberOfInstances => Some 0
  | Dc_QueryContentDtr0 => at0 (dtr u)
  | Dc_QueryContentDtr1 => at1 (dtr u)
  | Dc_QueryContentDtr2 => at2 (dtr u)
  | Dc_QueryRandomAddressH => Some (byte_of (random_address n) 2)
  | Dc_QueryRandomAddressM => Some (byte_of (random_address n) 1)
  | Dc_QueryRandomAddressL => Some (byte_of (random_address n) 0)
  | Dc_ReadMemoryLocation => memory_answer u
  | Dc_QueryApplicationControlEnabled => yes (alive && application_active n)
  | Dc_QueryOperatingMode => Some (operating_mode n)
  | Dc_QueryManufacturerSpecificMode => yes (MANUFACTURER_MODES_FROM <=? operating_mode n)
  | Dc_QueryQuiescentMode => yes (quiescent u)
  | Dc_QueryDeviceGroups0To7 => Some (byte_of (device_groups n) 0)
  | Dc_QueryDeviceGroups8To15 => Some (byte_of (device_groups n) 1)
  | Dc_QueryDeviceGroups16To23 => Some (byte_of (device_groups n) 2)
  | Dc_QueryDeviceGroups24To31 => Some (byte_of (device_groups n) 3)
  | Dc_QueryPowerCycleNotification => yes (power_cycle_notification n)
  | Dc_QueryDeviceCapabilities => Some CAPABILITY_APPLICATION_CONTROLLER
  | Dc_QueryResetState => yes (reset_state u)
  | _ => None
  end.

(** The unit's answer to a frame, by its own reading of the frame. *)
Definition unit_answer (u : Device103Unit) (f : ForwardFrame24) (alive : bool) : option Z :=
  let '(address, instance, data) := f in
  if negb (is_hydrated u) then None
  else if address =? SPECIAL then
    match from_selector instance with
    | Some Sc_Compare => if compare u then Some ANSWER_YES else None
    | Some Sc_VerifyShortAddress =>
        if initialising u && bool_decide (short_address (nvm u) = Some data) then Some ANSWER_YES else None
    | Some Sc_QueryShortAddress =>
        if initialising u && selected u then Some (default ANSWER_MASK (short_address (nvm u))) else None
    | _ => None
    end
  else if (instance =? DEVICE_INSTANCE) && accepts u address then
    match device_from_opcode data with Some c => query_answer u c alive | None => None end
  else None.

Lemma byte_of_u8 w i : in_u 8 (byte_of w i).
Proof. apply wrap_range. lia. Qed.

Lemma memory_answer_u8 u : unit_wf u -> opt_u8 (memory_answer u).
Proof.
  intros []. destruct uw_bank1 as [Hb _]. unfold memory_answer.
  destruct (at1 (dtr u)) as [[| |]|]; try exact I. destruct (at0 (dtr u)) as [o|]; [|exact I].
  case_if; [exact I|]. unfold aget. destruct (bank0 u !! Z.to_nat o) as [[b|]|] eqn:E; try exact I.
  exact (Forall_lookup_1 _ _ _ _ Hb E).
Qed.

Lemma status_byte_u8 u : in_u 8 (status_byte u).
Proof.
  unfold status_byte. cbn. destruct (quiescent u), (is_some (short_address (nvm u))), (application_active (nvm u)),
    (power_cycle_seen u), (reset_state u); easy.
Qed.

Lemma entry_of_by_lease k : entry_of k = by_lease k k.
Proof. now destruct k. Qed.

Lemma yes_if_by_lease b : yes_if b = by_lease (if b then Some ANSWER_YES else None) (if b then Some ANSWER_YES else None).
Proof. now destruct b. Qed.

Lemma query_entry_by_lease u c : m_expects_backward (device_metadata c) = true ->
  query_entry u c = by_lease (query_answer u c true) (query_answer u c false).
Proof.
  intros H. unfold query_entry. destruct c; try discriminate H; cbn [status_entry register_entry mode_entry membership_entry
    or_else default query_answer negb andb]; rewrite ?entry_of_by_lease, ?yes_if_by_lease; try reflexivity.
Qed.

Lemma query_answer_u8 u c alive : unit_wf u -> opt_u8 (query_answer u c alive).
Proof.
  intros H. pose proof (memory_answer_u8 u H) as Hm. destruct H. destruct uw_nvm0, uw_dtr0 as (H0 & H1 & H2).
  destruct c; cbn [query_answer]; try exact I; try done; try apply byte_of_u8; try (case_if; easy); try easy.
  destruct alive; [apply status_byte_u8|]. apply in_u_lor; [lia|apply status_byte_u8|easy].
Qed.

Lemma answer_table_image u : is_hydrated u = true ->
  img_short_address (answer_table u) = default NO_SHORT_ADDRESS (short_address (nvm u)) /\
  img_groups (answer_table u) = device_groups (nvm u).
Proof. intros H. unfold answer_table. rewrite H. split; reflexivity. Qed.

(** The entries of the device queries are those of the commands with these opcodes. *)
Lemma answer_table_queries u opcode : is_hydrated u = true -> 48 <= opcode < 80 ->
  default 0 (aget (img_entries (answer_table u)) (opcode - 48)) =
  match device_from_opcode opcode with Some c => query_entry u c | None => 0 end.
Proof.
  intros H Ho. unfold answer_table. rewrite H. cbn [negb].
  assert (exists k, (k < 32)%nat /\ opcode = 48 + Z.of_nat k) as (k & Hk & ->) by (exists (Z.to_nat (opcode - 48)); lia).
  do 32 (destruct k as [|k]; [reflexivity|]). lia.
Qed.

Lemma answer_table_specials u : is_hydrated u = true ->
  default 0 (aget (img_entries (answer_table u)) COMPARE_ENTRY) = yes_if (compare u) /\
  default 0 (aget (img_entries (answer_table u)) VERIFY_SHORT_ADDRESS_ENTRY) =
    yes_if (initialising u && is_some (short_address (nvm u))) /\
  default 0 (aget (img_entries (answer_table u)) QUERY_SHORT_ADDRESS_ENTRY) =
    (if initialising u && selected u then byte_entry (default ANSWER_MASK (short_address (nvm u))) else 0).
Proof. intros H. unfold answer_table. rewrite H. split_and!; reflexivity. Qed.

(** The answer a decision puts on the wire. *)
Definition answered (d : TableLookup) : option Z := match d with Answer a => Some a | _ => None end.

Lemma image_decision_answered image frame alive :
  answered (image_decision image frame true alive) =
  match answer_entry_index frame (img_short_address image) (img_groups image) with
  | None => None
  | Some i => entry_answer i (default 0 (aget (img_entries image) i)) frame (img_short_address image) alive
  end.
Proof.
  unfold image_decision. destruct (answer_entry_index _ _ _) as [i|]; [|done]. cbn [negb].
  destruct (entry_answer i _ _ _ alive); [done|]. destruct (entry_answer i _ _ _ true); [|done]. now destruct alive.
Qed.

Lemma entry_answer_silent i f sa alive : entry_answer i 0 f sa alive = None.
Proof. unfold entry_answer. destruct f as [[? ?] ?]. case_if; [done|]. now destruct alive. Qed.

Lemma silent_entries i : default 0 (aget (img_entries image_SILENT) i) = 0.
Proof.
  unfold aget, image_SILENT. cbn [img_entries]. destruct (replicate 35 0 !! Z.to_nat i) eqn:E; [|done].
  now apply lookup_replicate_1 in E as [-> _].
Qed.

Lemma entry_answer_yes i b f sa alive : i <> VERIFY_SHORT_ADDRESS_ENTRY \/ snd f = sa ->
  entry_answer i (yes_if b) f sa alive = if b then Some ANSWER_YES else None.
Proof.
  intros Hi. rewrite yes_if_by_lease, entry_answer_by_lease by (destruct b; easy).
  destruct (Z.eqb_spec i VERIFY_SHORT_ADDRESS_ENTRY), (Z.eqb_spec (snd f) sa); cbn [andb negb];
    try (now destruct alive); tauto.
Qed.

Lemma entry_answer_byte i v f sa alive : in_u 8 v -> i <> VERIFY_SHORT_ADDRESS_ENTRY ->
  entry_answer i (byte_entry v) f sa alive = Some v.
Proof.
  intros Hv Hi. unfold byte_entry, always. rewrite entry_answer_by_lease by easy.
  destruct (Z.eqb_spec i VERIFY_SHORT_ADDRESS_ENTRY); [done|]. now destruct alive.
Qed.

Lemma special_answer u i d alive : unit_wf u -> is_hydrated u = true -> in_u 8 d ->
  answered (image_decision (answer_table u) (SPECIAL, i, d) true alive) = unit_answer u (SPECIAL, i, d) alive.
Proof.
  intros Hwf H Hd. rewrite image_decision_answered. destruct (answer_table_image u H) as [-> ->].
  destruct (answer_table_specials u H) as (Hc & Hv & Hq).
  unfold unit_answer, answer_entry_index. rewrite H. change (SPECIAL =? SPECIAL_COMMAND) with true.
  rewrite Z.eqb_refl. cbn [negb].
  destruct (Z.eqb_spec i 3) as [->|]; [change (from_selector 3) with (Some Sc_Compare)|
    destruct (Z.eqb_spec i 9) as [->|]; [change (from_selector 9) with (Some Sc_VerifyShortAddress)|
      destruct (Z.eqb_spec i 10) as [->|]; [change (from_selector 10) with (Some Sc_QueryShortAddress)|]]].
  - rewrite Hc. apply entry_answer_yes. now left.
  - rewrite Hv. destruct (short_address (nvm u)) as [a|]; cbn [is_some default id];
      destruct (initialising u); cbn [andb]; change (yes_if false) with 0; try (rewrite entry_answer_silent; done).
    destruct (Z.eqb_spec d a) as [->|Hne].
    + rewrite bool_decide_eq_true_2 by done. apply entry_answer_yes. now right.
    + rewrite bool_decide_eq_false_2 by congruence. rewrite yes_if_by_lease, entry_answer_by_lease by easy.
      cbn [snd id]. apply Z.eqb_neq in Hne. now rewrite Hne.
  - rewrite Hq. destruct (initialising u && selected u); [|apply entry_answer_silent].
    apply entry_answer_byte; [|discriminate]. pose proof (nw_short _ (uw_nvm _ Hwf)) as Hs.
    destruct (short_address (nvm u)); [|easy]. cbn. unfold in_u, MAX_SHORT_ADDRESS in *. lia.
  - destruct (from_selector i) as [c|] eqn:Ec; [|done]. apply from_selector_inv in Ec.
    destruct c; cbn in Ec; (reflexivity || lia).
Qed.

Lemma query_outside_table u d c alive : device_from_opcode d = Some c -> d < 48 \/ 80 <= d -> query_answer u c alive = None.
Proof. intros Hd Hr. apply device_from_opcode_inv in Hd. subst d. destruct c; cbn in Hr; (reflexivity || lia). Qed.

Lemma device_answer u a d alive : unit_wf u -> is_hydrated u = true -> in_u 8 d -> a <> SPECIAL ->
  answered (image_decision (answer_table u) (a, DEVICE_INSTANCE, d) true alive)
  = unit_answer u (a, DEVICE_INSTANCE, d) alive.
Proof.
  intros Hwf H Hd Ha. rewrite image_decision_answered. destruct (answer_table_image u H) as [-> ->].
  unfold unit_answer, answer_entry_index, accepts. rewrite H. change SPECIAL_COMMAND with SPECIAL.
  change AnswerTable.COMMAND_BIT with COMMAND_BIT.
  destruct (Z.eqb_spec a SPECIAL); [done|]. change INSTANCE_DEVICE with DEVICE_INSTANCE. rewrite Z.eqb_refl.
  cbn [negb orb andb]. rewrite orb_false_r.
  destruct (Z.land a COMMAND_BIT =? 0); [done|]. destruct (addresses_the_device a _ _); cbn [negb andb]; [|done].
  unfold DEVICE_QUERY_FIRST_OPCODE, DEVICE_QUERY_ENTRIES.
  destruct (Z.ltb_spec d 48); cbn [orb].
  { destruct (device_from_opcode d) eqn:Ed; [|done]. rewrite (query_outside_table u d _ alive Ed) by lia. done. }
  assert (wrapping_sub 8 d 48 = d - 48) as ->.
  { unfold wrapping_sub. apply wrap_id. unfold in_u in *. lia. }
  destruct (Z.leb_spec 32 (d - 48)).
  { destruct (device_from_opcode d) eqn:Ed; [|done]. rewrite (query_outside_table u d _ alive Ed) by lia. done. }
  rewrite answer_table_queries by (done || lia).
  destruct (device_from_opcode d) as [c|] eqn:Ed; [|apply entry_answer_silent].
  apply device_from_opcode_inv in Ed.
  rewrite query_entry_by_lease by (cbn; rewrite Ed; apply Z.leb_le; unfold FIRST_DEVICE_QUERY; lia).
  rewrite entry_answer_by_lease by now apply query_answer_u8.
  destruct (Z.eqb_spec (d - 48) VERIFY_SHORT_ADDRESS_ENTRY) as [E|]; [unfold VERIFY_SHORT_ADDRESS_ENTRY, DEVICE_QUERY_ENTRIES in E; lia|].
  now destruct alive.
Qed.

Lemma other_answer u a i d alive : a <> SPECIAL -> i <> DEVICE_INSTANCE ->
  answered (image_decision (answer_table u) (a, i, d) true alive) = unit_answer u (a, i, d) alive.
Proof.
  intros Ha Hi. rewrite image_decision_answered. unfold unit_answer, answer_entry_index.
  change SPECIAL_COMMAND with SPECIAL. change INSTANCE_DEVICE with DEVICE_INSTANCE.
  destruct (Z.eqb_spec a SPECIAL); [done|]. destruct (Z.eqb_spec i DEVICE_INSTANCE); [done|].
  rewrite orb_true_r. now destruct (is_hydrated u).
Qed.

Lemma table_answers u f alive : unit_wf u -> frame_ok f ->
  answered (image_decision (answer_table u) f true alive) = unit_answer u f alive.
Proof.
  destruct f as [[a i] d]. intros Hwf (Ha & Hi & Hd). destruct (is_hydrated u) eqn:H.
  - destruct (Z.eq_dec a SPECIAL) as [->|Hna]; [now apply special_answer|].
    destruct (Z.eq_dec i DEVICE_INSTANCE) as [->|Hni]; [now apply device_answer|now apply other_answer].
  - rewrite image_decision_answered. unfold unit_answer, answer_table. rewrite H. cbn [negb].
    destruct (answer_entry_index _ _ _); [|done]. now rewrite silent_entries, entry_answer_silent.
Qed.



(** ** Send-twice pairs *)

Notation pending s := (pending_twice (unit_ s)).

Lemma set_nvm_pending f s : pending (set_nvm f s) = pending s.
Proof. unfold set_nvm. case_if; reflexivity. Qed.

Lemma stop_identification_pending s : pending (stop_identification s) = pending s.
Proof. unfold stop_identification. destruct (identify_until_ms _); reflexivity. Qed.

Lemma step_quiescent_pending b s : pending (step_quiescent b s) = pending s.
Proof. unfold step_quiescent. destruct b; cbn; [|case_if]; reflexivity. Qed.

Lemma control_pending c s : pending (fst (control c s)) = pending s.
Proof.
  destruct c; try reflexivity; cbn [control fst].
  - unfold reset. rewrite step_quiescent_pending.
    exact (set_nvm_pending (fun n => n <| device_groups := 0 |> <| random_address := FACTORY_RANDOM_ADDRESS |>) s).
  - destruct (at0 (dtr (unit_ s))) as [v|]; [|done].
    destruct (short_address_operand v); [apply set_nvm_pending|done].
  - unfold operating_mode_. case_if; [apply set_nvm_pending|done].
Qed.

Lemma configure_pending c s : pending (configure c s) = pending s.
Proof.
  destruct c; cbn [configure]; try apply set_nvm_pending; try apply step_quiescent_pending;
    unfold groups; destruct (at1 (dtr (unit_ s))), (at2 (dtr (unit_ s))); try apply set_nvm_pending; reflexivity.
Qed.

Lemma device_pending c s : pending (device c s) = pending s.
Proof.
  unfold device.
  set (s1 := match c with Dc_QueryContentDtr0 | Dc_QueryContentDtr1 | Dc_QueryContentDtr2 => _ | _ => _ end).
  assert (pending s1 = pending s) as <- by (subst s1; destruct c; reflexivity). clearbody s1. case_if.
  - unfold query. destruct c; reflexivity.
  - destruct (twice s1); [|done]. set (s2 := if bool_decide _ then s1 else _).
    assert (pending s2 = pending s1) as <- by (subst s2; case_if; [done|apply stop_identification_pending]).
    clearbody s2. rewrite <- (control_pending c s2). destruct (control c s2) as [s3 d]. cbn [fst].
    destruct d; [done|apply configure_pending].
Qed.

Lemma special_pending c d draw s : pending (special c d draw s) = pending s.
Proof.
  unfold special. set (s1 := if keeps_write_enabled c then s else _).
  set (s2 := if stops_identification c && _ then _ else s1).
  assert (pending s2 = pending s) as <-.
  { subst s2 s1. repeat case_if; rewrite ?stop_identification_pending; reflexivity. }
  clearbody s2. clear s1.
  assert (pending (search_command c d s2) = pending s2) as Hs.
  { unfold search_command, withdraw. case_if; [done|]. destruct c; try case_if; try done.
    destruct (short_address_operand d); [apply set_nvm_pending|done]. }
  destruct c; try exact Hs; unfold initialise, randomise, write_memory, test_frame; repeat case_if;
    try reflexivity; try apply set_nvm_pending;
    destruct (dtr (unit_ s2)) as [[[?|] [?|]] ?]; try reflexivity; destruct (or_else _ _); reflexivity.
Qed.

Lemma step_frame_pending f draw s : pending (step_frame f draw s) = pending s.
Proof.
  destruct f as [[a i] d]. unfold step_frame. repeat case_if.
  - destruct (from_selector i); [apply special_pending|done].
  - unfold direct_write. case_if; [|now rewrite stop_identification_pending].
    cbn. now rewrite stop_identification_pending.
  - cbn. now rewrite stop_identification_pending.
  - cbn. now rewrite stop_identification_pending.
  - destruct (device_from_opcode d); [apply device_pending|done].
  - done.
Qed.

Lemma feed_pending u f now draw : is_hydrated u = true ->
  pending_twice (fst (feed u (Forward24 f) now draw)) =
  if snd (second_of_pair u f now) then None else Some (f, now).
Proof. intros H. unfold feed. rewrite H. cbn [negb second_of_pair fst]. apply step_frame_pending. Qed.

(** send-twice.  After a frame that is not itself the second of a pair, a
    frame counts as its repetition exactly when it is the same frame, comes
    next, and comes within the span the standard allows; a frame that completed
    a pair does not start another, and any other traffic breaks the pair. *)
Theorem send_twice_pairs u f g t1 draw d :
  is_hydrated u = true -> in_u 32 t1 -> 0 <= d < 2 ^ 32 ->
  let u1 := fst (feed u (Forward24 f) t1 draw) in
  snd (second_of_pair u1 g (wrapping_add 32 t1 d)) =
    negb (snd (second_of_pair u f t1)) && bool_decide (f = g) && (d <? SEND_TWICE_SPAN_MS) /\
  snd (second_of_pair (fst (feed u1 Other t1 draw)) g (wrapping_add 32 t1 d)) = false.
Proof.
  intros H Ht Hd. cbn zeta. split; [|reflexivity]. unfold second_of_pair at 1. cbn [snd].
  rewrite feed_pending by done. destruct (snd (second_of_pair u f t1)); cbn [negb andb]; [done|].
  assert (wrapping_sub 32 (wrapping_add 32 t1 d) t1 = d) as ->; [|done].
  unfold wrapping_sub, wrapping_add, wrap. rewrite Zminus_mod_idemp_l.
  replace (t1 + d - t1) with d by lia. now apply Z.mod_small.
Qed.

Lemma send_twice_pairs_witness :
  let u := fst (hydrate (unit_new example_identity) example_snapshot) in
  let u1 := fst (feed u (Forward24 (11, 254, 29)) 1000 0) in
  snd (second_of_pair u1 (11, 254, 29) (wrapping_add 32 1000 115)) = true /\
  snd (second_of_pair (fst (feed u1 Other 1000 0)) (11, 254, 29) (wrapping_add 32 1000 115)) = false.
Proof.
  cbn zeta.
  destruct (send_twice_pairs (fst (hydrate (unit_new example_identity) example_snapshot)) (11, 254, 29) (11, 254, 29)
    1000 0 115 eq_refl ltac:(easy) ltac:(easy)) as [H1 H2].
  split; [rewrite H1; reflexivity|exact H2].
Defined.

(** C37: no lost updates.  A snapshot is adopted only if it is newer and
    acknowledges every change made over the bus; what is adopted is the
    snapshot with out-of-range short addresses dropped; and after a frame has
    changed the stored state, every snapshot taken before that change is
    refused. *)
Theorem hydrate_no_lost_update u s f now draw :
  in_u 32 (wire_sequence u) ->
  (snd (hydrate u s) = true ->
     nvm (fst (hydrate u s)) = snap_nvm s <| short_address :=
       match short_address (snap_nvm s) with Some a => if a <=? MAX_SHORT_ADDRESS then Some a else None | None => None end |> /\
     acknowledged_wire_sequence s = wire_sequence u /\
     match revision u with Some r => is_newer (snap_revision s) r = true | None => True end) /\
  (snd (hydrate u s) = false -> fst (hydrate u s) = u) /\
  (let u' := fst (feed u (Forward24 f) now draw) in
   nvm u' <> nvm u -> acknowledged_wire_sequence s = wire_sequence u -> snd (hydrate u' s) = false).
Proof.
  intros Hseq. split; [|split].
  - unfold hydrate. destruct (negb _ || negb _) eqn:E; [discriminate|]. intros _. bprop.
    split; [reflexivity|]. split; [done|]. now destruct (revision u).
  - unfold hydrate. destruct (negb _ || negb _); [done|discriminate].
  - cbn zeta. intros Hne Hack.
    assert (wire_sequence (fst (feed u (Forward24 f) now draw)) = wrapping_add 32 (wire_sequence u) 1) as Hs.
    { unfold feed in *. destruct (is_hydrated u); cbn [negb] in *; [|done].
      destruct (second_of_pair u f now) as [u1 t] eqn:E.
      assert (u1 = u <| pending_twice := pending_twice u1 |>) as Eu
        by (unfold second_of_pair in E; injection E as <- _; destruct u; reflexivity).
      set (s0 := MkStep u1 now t effects_default) in *.
      assert (untouched u s0 /\ initialising (unit_ s0) = initialising u /\ selected (unit_ s0) = selected u)
        as (H & Hi & Hsel) by (subst s0; unfold untouched; cbn [unit_ effects]; rewrite Eu; split_and!; reflexivity).
      destruct (step_frame_touches f draw u s0 H Hi Hsel) as [[(H1 & _)|(_ & H1 & _)] _]; [done|exact H1]. }
    unfold hydrate. rewrite Hs, Hack.
    destruct (Z.eqb_spec (wire_sequence u) (wrapping_add 32 (wire_sequence u) 1)) as [E|]; [|now rewrite orb_true_r].
    exfalso. unfold wrapping_add, wrap, in_u in *. dlia.
Qed.

Lemma hydrate_no_lost_update_witness :
  let u := fst (hydrate (unit_new example_identity) example_snapshot) in
  snd (hydrate (unit_new example_identity) example_snapshot) = true /\
  nvm u = snap_nvm example_snapshot <| short_address := Some 5 |>.
Proof.
  cbn zeta. split; [reflexivity|].
  apply (hydrate_no_lost_update (unit_new example_identity) example_snapshot (11, 254, 29) 0 0 ltac:(easy)).
  reflexivity.
Defined.

(** ** Timers and commissioning *)

Lemma passed_after t0 d k : in_u 32 t0 -> 0 <= d < 2 ^ 31 - 1 -> 0 <= k < 2 ^ 31 - 1 ->
  passed (wrapping_add 32 t0 d) (wrapping_add 32 t0 k) = (k <=? d).
Proof.
  intros Ht Hd Hk. unfold passed, wrapping_sub, wrapping_add, wrap. change (umax 32 / 2) with (2 ^ 31 - 1).
  rewrite <- Zminus_mod. replace (t0 + d - (t0 + k)) with (d - k) by lia.
  destruct (Z.leb_spec k d).
  - rewrite Z.mod_small by lia. lia.
  - replace (d - k) with (2 ^ 32 + (d - k) + (-1) * 2 ^ 32) by lia. rewrite Z.mod_add, Z.mod_small by lia. lia.
Qed.

Lemma power_on_step_modes u now draw :
  let u1 := fst (power_on_step u now draw) in
  quiescent_until_ms u1 = quiescent_until_ms u /\ identify_until_ms u1 = identify_until_ms u /\
  initialisation u1 = initialisation u /\ initialisation_until_ms u1 = initialisation_until_ms u.
Proof. unfold power_on_step. destruct (power_on u); repeat case_if; done. Qed.

Lemma tick_modes u now draw :
  let '(u', e) := tick u now draw in
  quiescent_until_ms u' = (if expired (quiescent_until_ms u) now then None else quiescent_until_ms u) /\
  e_quiescent e = (if expired (quiescent_until_ms u) now then Some false else None) /\
  identify_until_ms u' = (if expired (identify_until_ms u) now then None else identify_until_ms u) /\
  identify e = (if expired (identify_until_ms u) now then Some false else None) /\
  initialisation u' = (if initialising u && passed now (initialisation_until_ms u) then Disabled else initialisation u).
Proof.
  pose proof (power_on_step_modes u now draw) as (H1 & H2 & H3 & H4). unfold tick.
  destruct (power_on_step u now draw) as [u1 n]. cbn [fst] in *.
  rewrite <- H1, <- H2, <- H3, <- H4. assert (initialising u = initialising u1) as -> by (unfold initialising; now rewrite H3).
  clear. destruct (initialising u1 && _); cbn [quiescent_until_ms identify_until_ms set_field];
    destruct (expired (quiescent_until_ms u1) now); cbn [quiescent_until_ms identify_until_ms set_field];
    destruct (expired (identify_until_ms u1) now); split_and!; reflexivity.
Qed.

(** the modes end on time.  Quiescent mode, identification and the
    initialisation state, started at [t0], are ended by the first tick at or
    after their duration and by no earlier one, across the wrap of the
    millisecond counter (for ticks within 24 days); and the end of quiescence
    and of identification is reported. *)
Theorem modes_end_on_time u t0 d draw :
  in_u 32 t0 -> 0 <= d < 2 ^ 31 - 1 ->
  let '(u', e) := tick u (wrapping_add 32 t0 d) draw in
  (quiescent_until_ms u = Some (wrapping_add 32 t0 QUIESCENT_MS) ->
     quiescent u' = (d <? QUIESCENT_MS) /\ e_quiescent e = if d <? QUIESCENT_MS then None else Some false) /\
  (identify_until_ms u = Some (wrapping_add 32 t0 IDENTIFY_MS) ->
     identifying u' = (d <? IDENTIFY_MS) /\ identify e = if d <? IDENTIFY_MS then None else Some false) /\
  (initialisation u = Enabled -> initialisation_until_ms u = wrapping_add 32 t0 INITIALISATION_MS ->
     initialisation u' = if d <? INITIALISATION_MS then Enabled else Disabled).
Proof.
  intros Ht Hd. pose proof (tick_modes u (wrapping_add 32 t0 d) draw) as Hm.
  destruct (tick u (wrapping_add 32 t0 d) draw) as [u' e]. destruct Hm as (H1 & H2 & H3 & H4 & H5).
  pose proof (fun k Hk => passed_after t0 d k Ht Hd Hk) as Hp.
  unfold quiescent, identifying. rewrite H1, H2, H3, H4, H5.
  split_and!; [intros -> ..|intros Hi ->; unfold initialising; rewrite Hi]; cbn [expired]; rewrite Hp by easy.
  - rewrite Z.ltb_antisym. now destruct (QUIESCENT_MS <=? d).
  - rewrite Z.ltb_antisym. now destruct (IDENTIFY_MS <=? d).
  - rewrite Z.ltb_antisym. now destruct (INITIALISATION_MS <=? d).
Qed.

(** A unit five milliseconds before the counter wraps. *)
Definition quiescent_unit : Device103Unit :=
  unit_new example_identity <| quiescent_until_ms := Some (wrapping_add 32 (2 ^ 32 - 5) QUIESCENT_MS) |>.

Lemma modes_end_on_time_witness :
  quiescent (fst (tick quiescent_unit (wrapping_add 32 (2 ^ 32 - 5) 899999) 0)) = true /\
  quiescent (fst (tick quiescent_unit (wrapping_add 32 (2 ^ 32 - 5) 900000) 0)) = false.
Proof.
  split.
  - exact (proj1 (proj1 (modes_end_on_time quiescent_unit (2 ^ 32 - 5) 899999 0
      ltac:(split; [discriminate|reflexivity]) ltac:(split; [discriminate|reflexivity])) eq_refl)).
  - exact (proj1 (proj1 (modes_end_on_time quiescent_unit (2 ^ 32 - 5) 900000 0
      ltac:(split; [discriminate|reflexivity]) ltac:(split; [discriminate|reflexivity])) eq_refl)).
Defined.

(** What three search-address frames leave. *)
Lemma feed_search c k d u now draw :
  is_hydrated u = true -> initialisation u = Enabled ->
  (c, k) = (Sc_SearchAddrH, @set0 (option Z)) \/ (c, k) = (Sc_SearchAddrM, @set1 (option Z)) \/
  (c, k) = (Sc_SearchAddrL, @set2 (option Z)) ->
  let u' := fst (feed u (Forward24 (special_frame c d)) now draw) in
  is_hydrated u' = true /\ initialisation u' = Enabled /\ nvm u' = nvm u /\ search u' = k (search u) (Some d).
Proof.
  intros Hh Hi Hc. cbn zeta. unfold feed, special_frame, frame24_special. rewrite Hh.
  change (device_encode (DSpecial 0)) with SPECIAL. cbn [negb second_of_pair fst unit_ step_frame].
  rewrite Z.eqb_refl. change (fst (fst (selector c))) with (special_code c). rewrite from_selector_code.
  destruct u. cbn in Hh, Hi. subst initialisation0.
  destruct Hc as [[= -> ->]|[[= -> ->]|[= -> ->]]]; unfold special, stop_identification; cbn;
    rewrite orb_true_r; destruct identify_until_ms0; cbn; done.
Qed.

(** the search address bisects.  On a unit being commissioned, after the
    three bytes of a 24-bit search address, COMPARE is answered exactly when the
    unit's random address is at most the search address, and the unit is the
    selected one exactly when they are equal, so a bisection over COMPARE finds
    the smallest random address on the bus and no other unit is programmed. *)
Theorem search_address_compares u h m l t1 t2 t3 draw :
  is_hydrated u = true -> initialisation u = Enabled -> unit_wf u -> in_u 8 h -> in_u 8 m -> in_u 8 l ->
  let u1 := fst (feed u (Forward24 (special_frame Sc_SearchAddrH h)) t1 draw) in
  let u2 := fst (feed u1 (Forward24 (special_frame Sc_SearchAddrM m)) t2 draw) in
  let u3 := fst (feed u2 (Forward24 (special_frame Sc_SearchAddrL l)) t3 draw) in
  nvm u3 = nvm u /\
  compare u3 = (random_address (nvm u) <=? 65536 * h + 256 * m + l) /\
  selected u3 = (random_address (nvm u) =? 65536 * h + 256 * m + l).
Proof.
  intros Hh Hi Hwf Hbh Hbm Hbl u1 u2 u3.
  destruct (feed_search Sc_SearchAddrH set0 h u t1 draw Hh Hi) as (Hh1 & Hi1 & Hn1 & Hs1); [tauto|]. fold u1 in Hh1, Hi1, Hn1, Hs1.
  destruct (feed_search Sc_SearchAddrM set1 m u1 t2 draw Hh1 Hi1) as (Hh2 & Hi2 & Hn2 & Hs2); [tauto|]. fold u2 in Hh2, Hi2, Hn2, Hs2.
  destruct (feed_search Sc_SearchAddrL set2 l u2 t3 draw Hh2 Hi2) as (Hh3 & Hi3 & Hn3 & Hs3); [tauto|]. fold u3 in Hh3, Hi3, Hn3, Hs3.
  assert (nvm u3 = nvm u) as Hn by congruence. split; [done|].
  assert (search_address u3 = Some (65536 * h + 256 * m + l)) as Hsa.
  { unfold search_address. rewrite Hs3, Hs2, Hs1. destruct (search u) as [[? ?] ?]. cbn [set0 set1 set2]. f_equal.
    unfold shl. rewrite !Z.shiftl_mul_pow2, !wrap_id by (unfold in_u in *; lia). unfold in_u in *.
    rewrite (lor_disjoint h 16 (m * 2 ^ 8)) by (unfold in_u; lia).
    replace (h * 2 ^ 16 + m * 2 ^ 8) with ((h * 2 ^ 8 + m) * 2 ^ 8) by lia.
    rewrite lor_disjoint by (unfold in_u; lia). lia. }
  unfold compare, selected. rewrite Hi3, Hsa, Hn, bool_decide_eq_true_2 by done. split; [reflexivity|].
  destruct (Z.eqb_spec (random_address (nvm u)) (65536 * h + 256 * m + l)) as [->|Hne].
  - now apply bool_decide_eq_true_2.
  - apply bool_decide_eq_false_2. congruence.
Qed.

Definition commissioned_unit : Device103Unit :=
  fst (hydrate (unit_new example_identity) example_snapshot) <| initialisation := Enabled |>.

Lemma search_address_compares_witness :
  let u1 := fst (feed commissioned_unit (Forward24 (special_frame Sc_SearchAddrH 0x12)) 1 0) in
  let u2 := fst (feed u1 (Forward24 (special_frame Sc_SearchAddrM 0x34)) 2 0) in
  let u3 := fst (feed u2 (Forward24 (special_frame Sc_SearchAddrL 0x56)) 3 0) in
  compare u3 = true /\ selected u3 = true.
Proof.
  cbn zeta.
  assert (unit_wf commissioned_unit) as Hwf.
  { destruct (hydrate_wf _ _ (unit_new_wf _ example_identity_ok) example_snapshot_ok). split; done. }
  destruct (search_address_compares commissioned_unit 0x12 0x34 0x56 1 2 3 0 eq_refl eq_refl Hwf
    ltac:(split; [discriminate|reflexivity]) ltac:(split; [discriminate|reflexivity])
    ltac:(split; [discriminate|reflexivity])) as (_ & Hc & Hs).
  split; [rewrite Hc; reflexivity|rewrite Hs; reflexivity].
Defined.

End BusUnit.
