(* ===== verification/Events.v ===== *)
(** * Events of input devices

    Models [crates/dali2rust-domain/src/dali/dev103/event.rs]: the decoder of
    event frames, the power notification the controller sends, and the event
    information of push buttons, occupancy and magnitude sensors. *)

From S2P Require Import Prelude Gear Dev103.

Module Events.
Import Gear Dev103.

Inductive EventScheme := SchInstance | SchDevice | SchDeviceInstance | SchDeviceGroup | SchInstanceGroup.

#[global] Instance EventScheme_eq_dec : EqDecision EventScheme.
Proof. solve_decision. Defined.

Definition scheme_code (s : EventScheme) : Z :=
  match s with
  | SchInstance => 0 | SchDevice => 1 | SchDeviceInstance => 2 | SchDeviceGroup => 3 | SchInstanceGroup => 4
  end.

Definition scheme_from_code (code : Z) : option EventScheme :=
  match code with
  | 0 => Some SchInstance | 1 => Some SchDevice | 2 => Some SchDeviceInstance | 3 => Some SchDeviceGroup
  | 4 => Some SchInstanceGroup | _ => None
  end.

Definition identifies_device (s : EventScheme) : bool :=
  match s with SchDevice | SchDeviceInstance => true | _ => false end.

Record EventSource := MkEventSource {
  scheme : EventScheme; es_short_address : option Z; es_device_group : option Z; es_instance_group : option Z;
  es_instance_number : option Z; es_instance_type : option Z }.

Inductive ManualConfigSource :=
  | McInstance3xx (instance_type variable_bit : Z)
  | McInstance103 (instance_type variable_bit : Z)
  | McShortAddress (previous : option Z)
  | McDevice (variable_bit : Z)
  | McDeviceFeature (feature_type variable_bit : Z)
  | McInstanceFeature (feature_type variable_bit : Z).

Inductive InputEvent :=
  | EvInstance (source : EventSource) (info : Z)
  | EvPowerCycle (short_address device_group : option Z)
  | EvManualConfig (short_address : option Z) (source : ManualConfigSource).

Definition EVENT_INFO_MASK : Z := 0x03FF.

(** [u32::trailing_zeros] of a non-zero word. *)
Definition trailing_zeros (w : Z) : Z :=
  match List.find (fun i => Z.testbit w (Z.of_nat i)) (seq 0 32) with Some i => Z.of_nat i | None => 32 end.

Definition power_notification (short_address : option Z) (device_groups : Z) : ForwardFrame24 :=
  let lowest_group := if negb (device_groups =? 0) then Some (trailing_zeros device_groups) else None in
  let group_bits := match lowest_group with Some g => Z.lor 0x10 (Z.shiftr g 1) | None => 0 end in
  let group_low := match lowest_group with Some g => shl 8 (Z.land g 0x01) 7 | None => 0 end in
  let address := match short_address with Some a => Z.lor 0x40 (Z.land a 0x3F) | None => 0 end in
  (0xFE, Z.lor 0xE0 group_bits, Z.lor group_low address).

Definition decode_source (b0 b1 : Z) : option EventSource :=
  let sc :=
    match Z.land (Z.shiftr b0 6) 0x03, Z.land (Z.shiftr b1 7) 0x01 with
    | 0, 0 | 1, 0 => Some SchDevice
    | 0, _ | 1, _ => Some SchDeviceInstance
    | 2, 1 => Some SchInstance
    | 2, _ => Some SchDeviceGroup
    | _, 0 => Some SchInstanceGroup
    | _, _ => None
    end in
  match sc with
  | None => None
  | Some sc =>
      let upper := Z.land (Z.shiftr b0 1) 0x1F in
      let lower := Z.land (Z.shiftr b1 2) 0x1F in
      Some (MkEventSource sc
        (then_some (identifies_device sc) (Z.land (Z.shiftr b0 1) 0x3F))
        (then_some (bool_decide (sc = SchDeviceGroup)) upper)
        (then_some (bool_decide (sc = SchInstanceGroup)) upper)
        (match sc with SchInstance | SchDeviceInstance => Some lower | _ => None end)
        (match sc with SchInstance => Some upper | SchDeviceInstance => None | _ => Some lower end))
  end.

Definition manual_config_short (bits : Z) : option (option Z) :=
  if bits =? 0 then Some None
  else if has_bits bits 0x40 then Some (Some (Z.land bits 0x3F))
  else None.

Definition manual_config_previous_short (b1 b2 : Z) : option (option Z) :=
  if has_bits b1 0x40 then None
  else
    let previous := Z.lor (shl 8 (Z.land b1 0x1F) 1) (Z.shiftr b2 7) in
    if has_bits b1 0x20 then Some (Some previous)
    else if previous =? 0 then Some None
    else None.

Definition manual_config_feature (device_level select : bool) (b1 b2 : Z) : ManualConfigSource :=
  let variable_bit := Z.lor (shl 8 (Z_of_bool select) 2) (Z.land (Z.shiftr b1 5) 0x03) in
  let feature_type := Z.lor (shl 8 (Z.land b1 0x1F) 1) (Z.shiftr b2 7) in
  if device_level then McDeviceFeature feature_type variable_bit else McInstanceFeature feature_type variable_bit.

Definition decode_manual_config (b0 b1 b2 : Z) : option InputEvent :=
  match manual_config_short (Z.land b2 0x7F) with
  | None => None
  | Some short_address =>
      let variable_bit := Z.land (Z.shiftr b1 4) 0x07 in
      let field := Z.lor (shl 8 (Z.land b1 0x0F) 1) (Z.shiftr b2 7) in
      let select := has_bits b0 0x02 in
      let source :=
        match has_bits b0 0x08, has_bits b0 0x04 with
        | false, false => if select then Some (McInstance3xx field variable_bit) else Some (McInstance103 field variable_bit)
        | false, true =>
            if select then option_map McShortAddress (manual_config_previous_short b1 b2)
            else if (field =? 0) && negb (variable_bit =? 0) then Some (McDevice variable_bit)
            else None
        | true, device_level => Some (manual_config_feature device_level select b1 b2)
        end in
      option_map (EvManualConfig short_address) source
  end.

Definition decode_power_cycle (b1 b2 : Z) : InputEvent :=
  let group_valid := Z.land (Z.shiftr b1 4) 0x01 =? 1 in
  let group := Z.lor (shl 8 (Z.land b1 0x0F) 1) (Z.land (Z.shiftr b2 7) 0x01) in
  let address_valid := Z.land (Z.shiftr b2 6) 0x01 =? 1 in
  EvPowerCycle (then_some address_valid (Z.land b2 0x3F)) (then_some group_valid group).

Definition decode_event (frame : ForwardFrame24) : option InputEvent :=
  if frame24_is_command frame then None
  else
    let '(b0, b1, b2) := frame in
    if (b0 =? 0xFE) && (Z.land b1 0xE0 =? 0xE0) then Some (decode_power_cycle b1 b2)
    else if (Z.land b0 0xF0 =? 0xE0) && has_bits b1 0x80 then decode_manual_config b0 b1 b2
    else
      let info := Z.lor (shl 16 (Z.land b1 0x03) 8) b2 in
      match decode_source b0 b1 with Some source => Some (EvInstance source info) | None => None end.

#[global] Instance EventSource_eq_dec : EqDecision EventSource.
Proof. solve_decision. Defined.
#[global] Instance ManualConfigSource_eq_dec : EqDecision ManualConfigSource.
Proof. solve_decision. Defined.
#[global] Instance InputEvent_eq_dec : EqDecision InputEvent.
Proof. solve_decision. Defined.

(** ** Event information *)

Inductive ButtonEvent :=
  | Release | Press | ShortPress | DoublePress | LongPressStart | LongPressRepeat | LongPressStop
  | ButtonFree | ButtonStuck.

Definition button_code (e : ButtonEvent) : Z :=
  match e with
  | Release => 0x000
  | Press => 0x001
  | ShortPress => 0x002
  | DoublePress => 0x005
  | LongPressStart => 0x009
  | LongPressRepeat => 0x00B
  | LongPressStop => 0x00C
  | ButtonFree => 0x00E
  | ButtonStuck => 0x00F
  end.

Definition button_from_info (info : Z) : option ButtonEvent :=
  match Z.land info EVENT_INFO_MASK with
  | 0x000 => Some Release
  | 0x001 => Some Press
  | 0x002 => Some ShortPress
  | 0x005 => Some DoublePress
  | 0x009 => Some LongPressStart
  | 0x00B => Some LongPressRepeat
  | 0x00C => Some LongPressStop
  | 0x00E => Some ButtonFree
  | 0x00F => Some ButtonStuck
  | _ => None
  end.

Definition is_pressed (e : ButtonEvent) : bool := Z.land (button_code e) 0x001 =? 0x001.

Record OccupancyEvent := MkOccupancy { movement : bool; occupied : bool; still : bool; movement_based : bool }.

Definition occupancy_from_info (info : Z) : option OccupancyEvent :=
  if has_bits info 0x3F0 then None
  else Some (MkOccupancy (has_bits info 1) (has_bits info 2) (has_bits info 4) (has_bits info 8)).

Definition occupancy_to_info (e : OccupancyEvent) : Z :=
  Z.lor (Z.lor (Z.lor (if movement e then 1 else 0) (if occupied e then 2 else 0)) (if still e then 4 else 0))
    (if movement_based e then 8 else 0).

Definition is_transition (e : OccupancyEvent) : bool := negb (still e).

Definition magnitude_from_info (info : Z) : Z := Z.land info EVENT_INFO_MASK.

Inductive TypedInputEvent :=
  | TyButton (e : ButtonEvent) | TyOccupancy (e : OccupancyEvent) | TyPosition (raw : Z) | TyIlluminance (raw : Z)
  | TyGeneric (instance_type : option Z) (info : Z).

Definition type_event (instance_type : option Z) (info : Z) : TypedInputEvent :=
  let generic := TyGeneric instance_type info in
  match instance_type with
  | Some 1 => match button_from_info info with Some e => TyButton e | None => generic end
  | Some 3 => match occupancy_from_info info with Some e => TyOccupancy e | None => generic end
  | Some 2 => TyPosition (magnitude_from_info info)
  | Some 4 => TyIlluminance (magnitude_from_info info)
  | _ => generic
  end.

#[global] Instance ButtonEvent_eq_dec : EqDecision ButtonEvent.
Proof. solve_decision. Defined.
#[global] Instance OccupancyEvent_eq_dec : EqDecision OccupancyEvent.
Proof. solve_decision. Defined.
#[global] Instance TypedInputEvent_eq_dec : EqDecision TypedInputEvent.
Proof. solve_decision. Defined.

(** ** Properties *)

Definition opt_le (max : Z) (o : option Z) : Prop := match o with Some x => 0 <= x <= max | None => True end.

(** The lowest device group, as Table 7 of IEC 62386-103 asks. *)
Definition lowest_group (groups : Z) (o : option Z) : Prop :=
  match o with
  | None => groups = 0
  | Some g => 0 <= g < 32 /\ Z.testbit groups g = true /\ forall j, 0 <= j < g -> Z.testbit groups j = false
  end.

Lemma find_first (p : nat -> bool) n i :
  List.find p (seq 0 n) = Some i -> (i < n)%nat /\ p i = true /\ forall j, (j < i)%nat -> p j = false.
Proof.
  assert (forall a, List.find p (seq a n) = Some i ->
    (a <= i < a + n)%nat /\ p i = true /\ forall j, (a <= j < i)%nat -> p j = false) as H.
  { induction n as [|n IH]; intros a; cbn [seq List.find]; [discriminate|]. destruct (p a) eqn:E.
    - intros [= <-]. split; [lia|]. split; [done|]. intros; lia.
    - intros H. apply IH in H as (H1 & H2 & H3). split; [lia|]. split; [done|].
      intros j Hj. destruct (decide (j = a)) as [->|]; [done|]. apply H3. lia. }
  intros Hf. destruct (H 0%nat Hf) as (H1 & H2 & H3). split; [lia|]. split; [done|]. intros. apply H3. lia.
Qed.

Lemma trailing_zeros_lowest w : in_u 32 w -> w <> 0 -> lowest_group w (Some (trailing_zeros w)).
Proof.
  intros Hw Hne. unfold trailing_zeros. destruct (List.find _ _) as [i|] eqn:E.
  - apply find_first in E as (H1 & H2 & H3). split; [lia|]. split; [done|].
    intros j Hj. rewrite <- (Z2Nat.id j) by lia. apply H3. lia.
  - exfalso. apply Hne, Z.bits_inj'. intros j Hj. rewrite Z.testbit_0_l.
    destruct (Z.ltb_spec j 32).
    + pose proof (List.find_none _ _ E (Z.to_nat j)) as Hn. cbv beta in Hn. rewrite Z2Nat.id in Hn by lia.
      apply Hn, in_seq. lia.
    + rewrite <- (wrap_id 32 w Hw), testbit_wrap by lia. destruct (Z.ltb_spec j 32); [lia|done].
Qed.

(** The frame of Table 7 for a short address and a lowest group. *)
Definition power_cycle_frame (sa g : option Z) : ForwardFrame24 :=
  (0xFE, Z.lor 0xE0 match g with Some g => Z.lor 0x10 (Z.shiftr g 1) | None => 0 end,
   Z.lor match g with Some g => shl 8 (Z.land g 0x01) 7 | None => 0 end
         match sa with Some a => Z.lor 0x40 (Z.land a 0x3F) | None => 0 end).

Lemma power_cycle_frame_decodes sa g : opt_le 63 sa -> opt_le 31 g ->
  decode_event (power_cycle_frame sa g) = Some (EvPowerCycle sa g).
Proof.
  intros Hsa Hg. destruct sa as [a|], g as [g|]; cbn [opt_le] in *.
  - assert (in_u 6 a) as Ha by (unfold in_u; lia). assert (in_u 5 g) as Hg' by (unfold in_u; lia).
    clear Hsa Hg. revert g Hg'. revert a Ha. by_evaluation.
  - assert (in_u 6 a) as Ha by (unfold in_u; lia). clear Hsa Hg. revert a Ha. by_evaluation.
  - assert (in_u 5 g) as Hg' by (unfold in_u; lia). clear Hsa Hg. revert g Hg'. by_evaluation.
  - reflexivity.
Qed.

(** the power notification the unit sends decodes, at any control device
    that receives it, to the unit's short address (or none) and its lowest
    device group (or none), whatever the address and the group mask are. *)
Theorem power_notification_roundtrip sa groups (Hsa : opt_le 63 sa) (Hg : in_u 32 groups) :
  exists g, lowest_group groups g /\
    decode_event (power_notification sa groups) = Some (EvPowerCycle sa g).
Proof.
  exists (if decide (groups = 0) then None else Some (trailing_zeros groups)).
  destruct (decide (groups = 0)) as [->|Hne].
  - split; [reflexivity|]. exact (power_cycle_frame_decodes sa None Hsa I).
  - pose proof (trailing_zeros_lowest _ Hg Hne) as Hlow. split; [done|].
    unfold power_notification. rewrite (proj2 (Z.eqb_neq _ _) Hne).
    apply (power_cycle_frame_decodes sa (Some (trailing_zeros groups)) Hsa). cbn in *. lia.
Qed.

Lemma power_notification_roundtrip_witness :
  opt_le 63 (Some 5) /\ in_u 32 0x600 /\
  exists g, lowest_group 0x600 g /\ decode_event (power_notification (Some 5) 0x600) = Some (EvPowerCycle (Some 5) g).
Proof.
  split; [cbn; lia|]. split; [unfold in_u; lia|].
  apply (power_notification_roundtrip (Some 5) 0x600); [cbn; lia|unfold in_u; lia].
Defined.

(** *** Instance events *)

(** The event source of Table 3, field by field: the two address bytes. *)
Definition source_bytes (s : EventSource) : option (Z * Z) :=
  match s with
  | MkEventSource SchDevice (Some a) None None None (Some t) => Some (shl 8 a 1, shl 8 t 2)
  | MkEventSource SchDeviceInstance (Some a) None None (Some n) None => Some (shl 8 a 1, Z.lor 0x80 (shl 8 n 2))
  | MkEventSource SchInstance None None None (Some n) (Some t) => Some (Z.lor 0x80 (shl 8 t 1), Z.lor 0x80 (shl 8 n 2))
  | MkEventSource SchDeviceGroup None (Some g) None None (Some t) => Some (Z.lor 0x80 (shl 8 g 1), shl 8 t 2)
  | MkEventSource SchInstanceGroup None None (Some g) None (Some t) => Some (Z.lor 0xC0 (shl 8 g 1), shl 8 t 2)
  | _ => None
  end.
Definition source_in_range (s : EventSource) : Prop :=
  opt_le 63 (es_short_address s) /\ opt_le 31 (es_device_group s) /\ opt_le 31 (es_instance_group s) /\
  opt_le 31 (es_instance_number s) /\ opt_le 31 (es_instance_type s).
#[global] Instance opt_le_dec max o : Decision (opt_le max o).
Proof. destruct o; apply _. Defined.
#[global] Instance source_in_range_dec s : Decision (source_in_range s).
Proof. unfold source_in_range. apply _. Defined.

(** The frame of an instance event: source bytes, then ten bits of information. *)
Definition event_frame (s : EventSource) (info : Z) : option ForwardFrame24 :=
  option_map (fun '(b0, b1) => (b0, Z.lor b1 (Z.shiftr info 8), Z.land info 0xFF)) (source_bytes s).

(** Whether [decode_event] reads an instance event in a frame with these first bytes. *)
Definition reads_source (b0 b1 : Z) : bool :=
  negb (Z.land b0 1 =? 1) && negb ((b0 =? 0xFE) && (Z.land b1 0xE0 =? 0xE0)) &&
  negb ((Z.land b0 0xF0 =? 0xE0) && has_bits b1 0x80).

Lemma decode_event_instance b0 b1 b2 s i :
  decode_event (b0, b1, b2) = Some (EvInstance s i) <->
  reads_source b0 b1 = true /\ decode_source b0 b1 = Some s /\ i = Z.lor (shl 16 (Z.land b1 0x03) 8) b2.
Proof.
  unfold decode_event, reads_source, frame24_is_command, decode_power_cycle, decode_manual_config. cbn [fst].
  destruct (Z.land b0 1 =? 1); [easy|]. destruct ((b0 =? 0xFE) && _); [easy|].
  destruct ((Z.land b0 0xF0 =? 0xE0) && _); cbn [negb andb].
  - split; [|easy]. destruct (manual_config_short _); [|easy].
    match goal with |- option_map _ ?o = _ -> _ => destruct o; easy end.
  - destruct (decode_source b0 b1); [|naive_solver]. split; [intros [= <- <-]; auto|intros (_ & [= <-] & ->); auto].
Qed.

Definition source_fits (o : option EventSource) (b0 b1 : Z) : Prop :=
  match o with Some s => source_in_range s /\ source_bytes s = Some (b0, Z.land b1 0xFC) | None => True end.
#[global] Instance source_fits_dec o b0 b1 : Decision (source_fits o b0 b1).
Proof. destruct o; apply _. Defined.

Lemma decode_source_bytes : forall b0, in_u 8 b0 -> forall b1, in_u 8 b1 ->
  source_fits (if reads_source b0 b1 then decode_source b0 b1 else None) b0 b1.
Proof. by_evaluation. Qed.

Lemma info_fields : forall b1, in_u 8 b1 -> forall b2, in_u 8 b2 ->
  let i := Z.lor (shl 16 (Z.land b1 0x03) 8) b2 in
  in_u 10 i /\ Z.shiftr i 8 = Z.land b1 0x03 /\ Z.land i 0xFF = b2 /\ Z.lor (Z.land b1 0xFC) (Z.shiftr i 8) = b1.
Proof. by_evaluation. Qed.

Lemma info_of_fields : forall i, in_u 10 i ->
  in_u 2 (Z.shiftr i 8) /\ in_u 8 (Z.land i 0xFF) /\ i = Z.lor (shl 16 (Z.shiftr i 8) 8) (Z.land i 0xFF).
Proof. by_evaluation. Qed.

Lemma opt_le_in_u w o : opt_le (2 ^ w - 1) o -> match o with Some x => in_u w x | None => True end.
Proof. destruct o; cbn; unfold in_u; lia. Qed.

Lemma source_bytes_decode s b0 b1 : source_in_range s -> source_bytes s = Some (b0, b1) ->
  forall t, in_u 2 t ->
    reads_source b0 (Z.lor b1 t) = true /\ decode_source b0 (Z.lor b1 t) = Some s /\ Z.land (Z.lor b1 t) 0x03 = t.
Proof.
  destruct s as [c sa dg ig n ty]. intros (H1 & H2 & H3 & H4 & H5). cbn in H1, H2, H3, H4, H5.
  apply (opt_le_in_u 6) in H1. apply (opt_le_in_u 5) in H2, H3, H4, H5.
  destruct c, sa as [sa|], dg as [dg|], ig as [ig|], n as [n|], ty as [ty|]; cbn [source_bytes];
    try (intros; discriminate); intros [= <- <-]; clear - H1 H2 H3 H4 H5;
    [revert n H4; revert ty H5|revert ty H5; revert sa H1|revert n H4; revert sa H1|revert ty H5; revert dg H2
    |revert ty H5; revert ig H3]; by_evaluation.
Qed.

(** event frames are read without loss: a 24-bit frame decodes to an
    instance event exactly when it is the frame of Table 3 for that source and
    those ten bits of information.  So every field the decoder reports is in
    range, no two frames give one event, and none of the sources of Table 3 is
    mistaken for a power notification or a manual configuration event. *)
Theorem instance_event_exact b0 b1 b2 s i (H0 : in_u 8 b0) (H1 : in_u 8 b1) (H2 : in_u 8 b2) :
  decode_event (b0, b1, b2) = Some (EvInstance s i) <->
  source_in_range s /\ in_u 10 i /\ event_frame s i = Some (b0, b1, b2).
Proof.
  rewrite decode_event_instance. split.
  - intros (Hr & Hs & ->). pose proof (decode_source_bytes b0 H0 b1 H1) as Hb. rewrite Hr, Hs in Hb.
    destruct Hb as [Hrange Hbytes]. destruct (info_fields b1 H1 b2 H2) as (Hi & _ & Hlow & Hb1).
    split_and!; [done|done|]. unfold event_frame. rewrite Hbytes. cbn [option_map]. now rewrite Hb1, Hlow.
  - intros (Hrange & Hi & Hf). unfold event_frame in Hf. destruct (source_bytes s) as [[c0 c1]|] eqn:Hb; [|easy].
    cbn in Hf. injection Hf as <- <- <-. destruct (info_of_fields i Hi) as (Ht & _ & Heq).
    destruct (source_bytes_decode s c0 c1 Hrange Hb _ Ht) as (Hr & Hs & Hlow). split_and!; [done|done|].
    now rewrite Hlow.
Qed.

Lemma instance_event_exact_witness :
  in_u 8 0x82 /\ in_u 8 0x8C /\ in_u 8 0x02 /\
  (decode_event (0x82, 0x8C, 0x02) = Some (EvInstance (MkEventSource SchInstance None None None (Some 3) (Some 1)) 2) <->
   source_in_range (MkEventSource SchInstance None None None (Some 3) (Some 1)) /\ in_u 10 2 /\
   event_frame (MkEventSource SchInstance None None None (Some 3) (Some 1)) 2 = Some (0x82, 0x8C, 0x02)).
Proof. do 3 (split; [by vm_compute|]). apply instance_event_exact; by vm_compute. Defined.

(** The typed reading of the event information is exact: an event of a
    push button is a button event exactly when its information is that event's
    code, an occupancy event exactly when its information is its bits, and
    whatever has no reading is passed on whole, never dropped. *)
Theorem typed_events_exact :
  (forall i, in_u 10 i -> forall e, type_event (Some 1) i = TyButton e <-> i = button_code e) /\
  (forall i, in_u 10 i -> forall e, type_event (Some 3) i = TyOccupancy e <-> i = occupancy_to_info e) /\
  (forall i, in_u 10 i -> type_event (Some 2) i = TyPosition i /\ type_event (Some 4) i = TyIlluminance i) /\
  (forall t i t' i', type_event t i = TyGeneric t' i' -> t' = t /\ i' = i).
Proof.
  split_and!.
  - intros i Hi e. destruct e; revert i Hi; by_evaluation.
  - intros i Hi [[] [] [] []]; revert i Hi; by_evaluation.
  - intros i Hi. assert (magnitude_from_info i = i) as E by (revert i Hi; by_evaluation).
    cbn [type_event]. now rewrite E.
  - intros t i t' i'. unfold type_event. destruct t as [t|]; [|now intros [= <- <-]].
    cbv zeta. repeat case_match; intros; simplify_eq; auto.
Qed.

End Events.
