(* ===== verification/Arbitration.v ===== *)
(** * Redundancy: who controls the bus

    Models [crates/dali2rust-redundancy-runtime/src/runtime]: [arbitration.rs]
    (the state machine of a primary and a standby controller),
    [arbitration_worker.rs] (the thread that runs it), [supervisor.rs]; and
    [crates/dali2rust-platform/src]: [arbitration.rs] (the answering lease) and
    [liveness.rs] (the beats of the watched workers).

    A call on the outside of this component is an argument: the settings read
    ports and the outcome of each publication are fields of [TurnInput], the
    clock is an argument as in the code.  What a turn publishes is returned as a
    list. *)

From stdpp Require Import strings.
From S2P Require Import Prelude Gear AnswerTable Dev103 BusUnit.
Open Scope Z_scope.

Module Arbitration.
Import BusUnit.

(** ** The state machine *)

Inductive TransitionReason := PeerSilent | PeerAnswered | Manual | Handover | Boot.

Definition reason_code (r : TransitionReason) : Z :=
  match r with PeerSilent => 0 | PeerAnswered => 1 | Manual => 2 | Handover => 3 | Boot => 4 end.

Inductive ArbitrationState :=
  | Disabled
  | Listening (until_ms : Z)
  | Passive (missed : Z)
  | Active.

Inductive ArbitrationAction := Idle | Probe | Claim (r : TransitionReason) | StandDown (r : TransitionReason).

#[global] Instance TransitionReason_eq_dec : EqDecision TransitionReason.
Proof. solve_decision. Defined.
#[global] Instance ArbitrationState_eq_dec : EqDecision ArbitrationState.
Proof. solve_decision. Defined.
#[global] Instance ArbitrationAction_eq_dec : EqDecision ArbitrationAction.
Proof. solve_decision. Defined.

Record RedundancySettingsView := MkSettings {
  enabled : bool; standby_role : bool; probe_interval_ms : Z; takeover_after_missed : Z; boot_listen_ms : Z;
  peer_device_short_address : option Z; peer_url : string }.

Definition listening_turn (until_ms now_ms : Z) (settings : RedundancySettingsView) (application_active : bool) :
  ArbitrationState * ArbitrationAction :=
  if 0 <? as_signed 32 (wrapping_sub 32 until_ms now_ms) then (Listening until_ms, Idle)
  else if application_active then (Active, Idle)
  else if standby_role settings then (Passive 0, Probe)
  else (Passive 0, Idle).

Definition passive_turn (missed : Z) (settings : RedundancySettingsView) (application_active : bool)
  (verdict : option bool) : ArbitrationState * ArbitrationAction :=
  if application_active then (Active, Idle)
  else if negb (standby_role settings) then (Passive missed, Idle)
  else
    match verdict with
    | Some true => (Passive 0, Probe)
    | Some false =>
        let missed := sat_add 8 missed 1 in
        if Z.max (takeover_after_missed settings) 1 <=? missed then (Active, Claim PeerSilent)
        else (Passive missed, Probe)
    | None => (Passive missed, Probe)
    end.

Definition active_turn (settings : RedundancySettingsView) (application_active : bool) (verdict : option bool) :
  ArbitrationState * ArbitrationAction :=
  if negb application_active then (Passive 0, Idle)
  else if negb (standby_role settings) then (Active, Idle)
  else
    match verdict with
    | Some true => (Passive 0, StandDown PeerAnswered)
    | _ => (Active, Probe)
    end.

Definition arbitration_step (state : ArbitrationState) (now_ms : Z) (settings : RedundancySettingsView)
  (application_active : bool) (verdict : option bool) : ArbitrationState * ArbitrationAction :=
  if negb (enabled settings) then (Disabled, Idle)
  else
    match state with
    | Disabled => listening_turn (wrapping_add 32 now_ms (boot_listen_ms settings)) now_ms settings application_active
    | Listening until_ms => listening_turn until_ms now_ms settings application_active
    | Passive missed => passive_turn missed settings application_active verdict
    | Active => active_turn settings application_active verdict
    end.

(** ** The worker *)

Definition TRANSITION_LOG_DEPTH : nat := 8.

Record RecordedTransition := MkTransition {
  now_active : bool; reason : Z; detected_at_ms : Z; completed_at_ms : Z; tr_last_peer_answer_ms : Z;
  missed_probes : Z }.

Definition took_ms (t : RecordedTransition) : Z := wrapping_sub 32 (completed_at_ms t) (detected_at_ms t).

Record ArbitrationWorkerCounters := MkWorkerCounters {
  probes_published : Z; probes_ingress_rejected : Z; probes_owned : Z; probes_unowned : Z; takeovers : Z;
  stand_downs : Z; role_publish_failed : Z; ignored_events : Z }.
#[global] Instance eta_ArbitrationWorkerCounters : Eta ArbitrationWorkerCounters := fun c =>
  MkWorkerCounters (probes_published c) (probes_ingress_rejected c) (probes_owned c) (probes_unowned c) (takeovers c)
    (stand_downs c) (role_publish_failed c) (ignored_events c).

Record WorkerState := MkWorker {
  fsm : ArbitrationState; verdict : option bool; last_peer_answer_ms : Z; missed : Z; last_probe_ms : option Z;
  probe_pending : bool; handover_sent : bool;
  counters : ArbitrationWorkerCounters; transitions : list RecordedTransition }.
#[global] Instance eta_WorkerState : Eta WorkerState := fun s =>
  MkWorker (fsm s) (verdict s) (last_peer_answer_ms s) (missed s) (last_probe_ms s) (probe_pending s)
    (handover_sent s) (counters s) (transitions s).

Definition worker_new : WorkerState :=
  MkWorker Disabled None 0 0 None false false (MkWorkerCounters 0 0 0 0 0 0 0 0) [].

Inductive ApplicationActiveMover := Unmoved | Command | Wire.

(** What the worker puts on the bus. *)
Inductive Published :=
  | PubProbe
  | PubRole (active : bool)
  | PubTransition (t : RecordedTransition).

(** One turn's reads: the settings, the role and who moved it, whether the
    adapter is enabled, whether the command queue takes a command, and the
    clock when a role change completes. *)
Record TurnInput := MkTurnInput {
  ti_settings : RedundancySettingsView; ti_active : bool; ti_moved_by : ApplicationActiveMover;
  ti_adapter_enabled : bool; ti_queued : bool; ti_completed_ms : Z }.

Definition is_active (s : ArbitrationState) : bool := match s with Active => true | _ => false end.

Definition bump (get : ArbitrationWorkerCounters -> Z)
  (set : Z -> ArbitrationWorkerCounters -> ArbitrationWorkerCounters) (s : WorkerState) : WorkerState :=
  s <| counters := set (wrapping_add 32 (get (counters s)) 1) (counters s) |>.

Definition push_transition (record : RecordedTransition) (s : WorkerState) : WorkerState :=
  let rows := transitions s in
  let rows := if (TRANSITION_LOG_DEPTH <=? length rows)%nat then tail rows else rows in
  s <| transitions := rows ++ [record] |>.

Definition publish_probe (i : TurnInput) (s : WorkerState) : WorkerState * list Published :=
  if negb (ti_adapter_enabled i) then (s, [])
  else if ti_queued i then (bump probes_published (fun n c => c <| probes_published := n |>) s, [PubProbe])
  else (bump probes_ingress_rejected (fun n c => c <| probes_ingress_rejected := n |>) s, []).

Definition set_role (i : TurnInput) (detected : Z) (active : bool) (r : TransitionReason) (s : WorkerState) :
  WorkerState * list Published :=
  if negb (ti_queued i) then (bump role_publish_failed (fun n c => c <| role_publish_failed := n |>) s, [])
  else
    let record := MkTransition active (reason_code r) detected (ti_completed_ms i) (last_peer_answer_ms s) (missed s) in
    (push_transition record s, [PubRole active; PubTransition record]).

Definition probe_due (s : WorkerState) (now_ms interval : Z) : bool :=
  match last_probe_ms s with None => true | Some last => interval <=? wrapping_sub 32 now_ms last end.

Definition probe_when_due (i : TurnInput) (now_ms interval : Z) (s : WorkerState) : WorkerState * list Published :=
  if probe_due s now_ms interval
  then publish_probe i (s <| probe_pending := false |> <| last_probe_ms := Some now_ms |>)
  else (s <| probe_pending := true |>, []).

Definition wait_ms (s : WorkerState) (now_ms interval : Z) : Z :=
  let interval := Z.max interval 1 in
  if negb (probe_pending s) then interval
  else
    match last_probe_ms s with
    | None => interval
    | Some last => Z.max (sat_sub interval (wrapping_sub 32 now_ms last)) 1
    end.

Definition act (i : TurnInput) (now_ms : Z) (action : ArbitrationAction) (interval : Z) (s : WorkerState) :
  WorkerState * list Published :=
  match action with
  | Idle => (s, [])
  | Probe => probe_when_due i now_ms interval s
  | Claim r => set_role i now_ms true r (bump takeovers (fun n c => c <| takeovers := n |>) s)
  | StandDown r => set_role i now_ms false r (bump stand_downs (fun n c => c <| stand_downs := n |>) s)
  end.

Definition unsettled (s : ArbitrationState) : bool := match s with Listening _ | Disabled => true | _ => false end.

Definition record_followed (i : TurnInput) (now_ms : Z) (prev next : ArbitrationState) (action : ArbitrationAction)
  (s : WorkerState) : WorkerState * list Published :=
  match action with
  | Claim _ | StandDown _ => (s, [])
  | _ =>
      let settled := unsettled prev && negb (unsettled next) in
      let r :=
        if settled then Some Boot
        else if eqb (is_active prev) (is_active next) then None
        else if handover_sent s || (match ti_moved_by i with Wire => true | _ => false end) then Some Handover
        else Some Manual in
      match r with
      | None => (s, [])
      | Some r =>
          let record := MkTransition (is_active next) (reason_code r) now_ms now_ms (last_peer_answer_ms s) 0 in
          (push_transition record (s <| handover_sent := false |>), [PubTransition record])
      end
  end.

Definition is_claim (a : ArbitrationAction) : bool := match a with Claim _ => true | _ => false end.

Definition run_turn (i : TurnInput) (now_ms : Z) (s : WorkerState) : WorkerState * ArbitrationAction * list Published :=
  let v := verdict s in
  let s := s <| verdict := None |> in
  let s := if bool_decide (v = Some true) then s <| last_peer_answer_ms := now_ms |> else s in
  let '(next, action) := arbitration_step (fsm s) now_ms (ti_settings i) (ti_active i) v in
  let s := s <| missed := match next, action with
                          | _, Claim _ => sat_add 8 (missed s) 1
                          | Passive m, _ => m
                          | _, _ => 0
                          end |> in
  let prev := fsm s in
  let s := s <| fsm := next |> in
  let '(s, out1) := act i now_ms action (probe_interval_ms (ti_settings i)) s in
  let s := if is_claim action then s <| missed := 0 |> else s in
  let '(s, out2) := record_followed i now_ms prev next action s in
  (s, action, out1 ++ out2).

(** The events the worker handles; every other payload is counted. *)
Inductive ArbitrationEvent := EvProbed (owned : bool) | EvHandoverSent | EvSettingsChanged | EvOther.

Definition note_verdict (owned : bool) (s : WorkerState) : WorkerState := s <| verdict := Some owned |>.

Definition note_probe (owned : bool) (s : WorkerState) : WorkerState :=
  let s := if owned then bump probes_owned (fun n c => c <| probes_owned := n |>) s
           else bump probes_unowned (fun n c => c <| probes_unowned := n |>) s in
  note_verdict owned s.

Definition note_event (e : ArbitrationEvent) (s : WorkerState) : WorkerState :=
  match e with
  | EvProbed owned => note_probe owned s
  | EvHandoverSent => s <| handover_sent := true |>
  | EvSettingsChanged => s
  | EvOther => bump ignored_events (fun n c => c <| ignored_events := n |>) s
  end.

(** One pass of [run_loop]: an event, another frame or a timeout, then a turn. *)
Definition loop_pass (e : option ArbitrationEvent) (i : TurnInput) (now_ms : Z) (s : WorkerState) :
  WorkerState * ArbitrationAction * list Published :=
  run_turn i now_ms (match e with Some e => note_event e s | None => s end).

(** ** Liveness *)

Definition CLOCK_READ_SKEW_MS : Z := 100.

Record LivenessBeat := MkBeat { beat_name : string; last_ms : Z; seen : bool; stale_after_ms : Z }.
#[global] Instance eta_LivenessBeat : Eta LivenessBeat := fun b =>
  MkBeat (beat_name b) (last_ms b) (seen b) (stale_after_ms b).

Definition beat_new (name : string) (stale_after : Z) : LivenessBeat := MkBeat name 0 false stale_after.
Definition beat (now_ms : Z) (b : LivenessBeat) : LivenessBeat := b <| last_ms := now_ms |> <| seen := true |>.

Definition age_ms (now_ms : Z) (b : LivenessBeat) : option Z :=
  if negb (seen b) then None
  else
    let delta := wrapping_sub 32 now_ms (last_ms b) in
    let ahead := wrap 32 (- delta) in
    Some (if ahead <=? CLOCK_READ_SKEW_MS then 0 else delta).

Definition is_fresh (now_ms : Z) (b : LivenessBeat) : bool :=
  match age_ms now_ms b with Some age => age <=? stale_after_ms b | None => false end.

Definition stale (now_ms : Z) (w : list LivenessBeat) : option string :=
  option_map beat_name (List.find (fun b => negb (is_fresh now_ms b)) w).
Definition stale_age (now_ms : Z) (w : list LivenessBeat) : option (string * option Z) :=
  option_map (fun b => (beat_name b, age_ms now_ms b)) (List.find (fun b => negb (is_fresh now_ms b)) w).
Definition all_fresh (now_ms : Z) (w : list LivenessBeat) : bool :=
  match stale now_ms w with None => true | Some _ => false end.

(** ** The answering lease *)

Definition LEASE_TTL_MS : Z := 3000.

Record ArbitrationAnswerCounters := MkAnswerCounters {
  answered : Z; suppressed_lease : Z; cell_busy : Z; aborted : Z; window_closed : Z; out_of_window : Z }.

Record AnswerInputs := MkAnswerInputs {
  bus_unit : option BusUnitSnapshot; lease_until_ms : Z; answer_counts : ArbitrationAnswerCounters }.
#[global] Instance eta_AnswerInputs : Eta AnswerInputs := fun a =>
  MkAnswerInputs (bus_unit a) (lease_until_ms a) (answer_counts a).

Definition answer_inputs_new : AnswerInputs := MkAnswerInputs None 0 (MkAnswerCounters 0 0 0 0 0 0).
Definition publish_bus_unit (snapshot : BusUnitSnapshot) (a : AnswerInputs) : AnswerInputs :=
  a <| bus_unit := Some snapshot |>.
Definition mirror_answers (counts : ArbitrationAnswerCounters) (a : AnswerInputs) : AnswerInputs :=
  a <| answer_counts := counts |>.

Definition lease_remaining_ms (now_ms : Z) (a : AnswerInputs) : Z :=
  let remaining := wrapping_sub 32 (lease_until_ms a) now_ms in
  if remaining <=? LEASE_TTL_MS then remaining
  else if remaining <=? LEASE_TTL_MS + CLOCK_READ_SKEW_MS then LEASE_TTL_MS
  else 0.
Definition lease_alive (now_ms : Z) (a : AnswerInputs) : bool := 0 <? lease_remaining_ms now_ms a.
Definition extend_lease (now_ms ttl_ms : Z) (a : AnswerInputs) : AnswerInputs :=
  let ttl_ms := Z.min ttl_ms LEASE_TTL_MS in
  if lease_remaining_ms now_ms a <? ttl_ms then a <| lease_until_ms := wrapping_add 32 now_ms ttl_ms |> else a.
Definition is_answering (now_ms : Z) (a : AnswerInputs) : bool :=
  lease_alive now_ms a && match bus_unit a with Some u => application_active (snap_nvm u) | None => false end.

(** ** The supervisor *)

Definition SUPERVISOR_PERIOD_MS : Z := 1000.
Definition WORKER_STALE_AFTER_MS : Z := 3000.

Inductive SupervisorTurn := Defend | WorkerStale (name : string).

Record SupervisorInputs := MkSupervisor {
  answer_inputs : AnswerInputs; watch : list LivenessBeat; defended : Z; stood_down_worker_stale : Z;
  period_ms : Z; lease_ttl_ms : Z }.
#[global] Instance eta_SupervisorInputs : Eta SupervisorInputs := fun s =>
  MkSupervisor (answer_inputs s) (watch s) (defended s) (stood_down_worker_stale s) (period_ms s) (lease_ttl_ms s).

Definition run_supervisor_tick (now_ms : Z) (s : SupervisorInputs) : SupervisorInputs * SupervisorTurn :=
  match stale now_ms (watch s) with
  | Some name =>
      (s <| stood_down_worker_stale := wrapping_add 32 (stood_down_worker_stale s) 1 |>, WorkerStale name)
  | None =>
      (s <| answer_inputs := extend_lease now_ms (lease_ttl_ms s) (answer_inputs s) |>
         <| defended := wrapping_add 32 (defended s) 1 |>, Defend)
  end.

(** ** Taking over *)

(** Silent verdicts since the peer last answered; a turn without a verdict
    neither adds to them nor clears them. *)
Definition silent_run (vs : list (option bool)) : Z :=
  fold_left (fun n v => match v with Some true => 0 | Some false => n + 1 | None => n end) vs 0.

(** The turns of a standby whose role nobody else moves. *)
Fixpoint standby_turns (settings : RedundancySettingsView) (s : ArbitrationState) (vs : list (Z * option bool)) :
  ArbitrationState * list ArbitrationAction :=
  match vs with
  | [] => (s, [])
  | (now, v) :: vs =>
      let '(s, a) := arbitration_step s now settings false v in
      let '(s, l) := standby_turns settings s vs in (s, a :: l)
  end.

Definition takeover_need (settings : RedundancySettingsView) : Z := Z.max (takeover_after_missed settings) 1.

Lemma standby_turns_app settings s vs ws :
  standby_turns settings s (vs ++ ws) =
  let '(s1, l1) := standby_turns settings s vs in
  let '(s2, l2) := standby_turns settings s1 ws in (s2, l1 ++ l2).
Proof.
  revert s. induction vs as [|[now v] vs IH]; intros s; cbn.
  - now destruct (standby_turns settings s ws).
  - destruct (arbitration_step _ _ _ _ _) as [s1 a]. rewrite IH.
    destruct (standby_turns settings s1 vs) as [s2 l2]. now destruct (standby_turns settings s2 ws).
Qed.

Lemma silent_run_snoc vs v :
  silent_run (vs ++ [v]) = match v with Some true => 0 | Some false => silent_run vs + 1 | None => silent_run vs end.
Proof. unfold silent_run. now rewrite fold_left_app. Qed.

Lemma silent_run_nonneg vs : 0 <= silent_run vs.
Proof. induction vs as [|v vs IH] using rev_ind; [done|]. rewrite silent_run_snoc. destruct v as [[]|]; lia. Qed.

(** One turn of a passive standby whose silent run is below the threshold. *)
Lemma passive_step settings now vs v :
  enabled settings = true -> standby_role settings = true -> in_u 8 (takeover_after_missed settings) ->
  silent_run vs < takeover_need settings ->
  arbitration_step (Passive (silent_run vs)) now settings false v =
    if takeover_need settings <=? silent_run (vs ++ [v]) then (Active, Claim PeerSilent)
    else (Passive (silent_run (vs ++ [v])), Probe).
Proof.
  intros He Hs Hu Hlow. pose proof (silent_run_nonneg vs). unfold arbitration_step, passive_turn, takeover_need in *.
  rewrite He, Hs, silent_run_snoc. cbn [negb]. unfold in_u in Hu.
  destruct v as [[]|]; cbv zeta.
  - case_if; [lia|done].
  - rewrite sat_add_small by lia. reflexivity.
  - case_if; [lia|done].
Qed.

(** the standby takes over exactly after the configured number of
    consecutive unanswered probes.  Whatever verdicts came before, as long as no
    run of silent ones reached the threshold ([takeover_after_missed], at least
    one) the standby has only probed and its counter is that run; and then one
    more verdict makes it claim the bus if and only if the run it completes
    reaches the threshold.  A turn without a verdict changes nothing. *)
Theorem takeover_exact settings vs now v
  (He : enabled settings = true) (Hs : standby_role settings = true)
  (Hu : in_u 8 (takeover_after_missed settings))
  (Hquiet : forall k, silent_run (take k vs.*2) < takeover_need settings) :
  let '(s, actions) := standby_turns settings (Passive 0) vs in
  s = Passive (silent_run vs.*2) /\ actions = replicate (length vs) Probe /\
  arbitration_step s now settings false v =
    if takeover_need settings <=? silent_run (vs.*2 ++ [v]) then (Active, Claim PeerSilent)
    else (Passive (silent_run (vs.*2 ++ [v])), Probe).
Proof.
  assert (standby_turns settings (Passive 0) vs = (Passive (silent_run vs.*2), replicate (length vs) Probe)) as ->.
  { induction vs as [|[t w] vs IH] using rev_ind; [done|].
    rewrite fmap_app in *. cbn [fmap list_fmap snd] in *.
    rewrite standby_turns_app, IH by
      (intros k; destruct (decide (k <= length vs.*2)%nat);
       [specialize (Hquiet k); now rewrite take_app_le in Hquiet by done
       |specialize (Hquiet (length vs.*2)); rewrite take_app_length in Hquiet; now rewrite take_ge by lia]).
    pose proof (Hquiet (length vs.*2)) as H1. rewrite take_app_length in H1.
    pose proof (Hquiet (S (length vs.*2))) as H2. rewrite take_ge in H2 by (rewrite length_app; cbn; lia).
    cbn [standby_turns]. rewrite (passive_step settings t vs.*2 w) by done.
    destruct (Z.leb_spec (takeover_need settings) (silent_run (vs.*2 ++ [w]))); [lia|].
    rewrite length_app. cbn [length]. now rewrite replicate_add. }
  split; [done|]. split; [done|]. apply passive_step; try done.
  specialize (Hquiet (length vs.*2)). now rewrite take_ge in Hquiet by lia.
Qed.

Lemma takeover_exact_witness :
  let settings := MkSettings true true 400 2 5000 (Some 1) "" in
  let vs := [(100, Some false); (500, Some true); (900, None); (1300, Some false)] in
  (forall k, silent_run (take k vs.*2) < takeover_need settings) /\
  (let '(s, actions) := standby_turns settings (Passive 0) vs in
   s = Passive (silent_run vs.*2) /\ actions = replicate (length vs) Probe /\
   arbitration_step s 1700 settings false (Some false) =
     if takeover_need settings <=? silent_run (vs.*2 ++ [Some false]) then (Active, Claim PeerSilent)
     else (Passive (silent_run (vs.*2 ++ [Some false])), Probe)).
Proof.
  intros settings vs.
  assert (forall k, silent_run (take k vs.*2) < takeover_need settings) as H
    by (intros k; do 4 (destruct k as [|k]; [reflexivity|]); rewrite take_ge by (cbn; lia); reflexivity).
  split; [exact H|]. exact (takeover_exact settings vs 1700 (Some false) eq_refl eq_refl ltac:(by vm_compute) H).
Defined.

(** ** Role changes *)

Lemma step_claim st now settings act v r s' :
  arbitration_step st now settings act v = (s', Claim r) ->
  enabled settings = true /\ standby_role settings = true /\ act = false /\ v = Some false /\
  r = PeerSilent /\ s' = Active /\
  exists m, st = Passive m /\ takeover_need settings <= sat_add 8 m 1.
Proof.
  unfold arbitration_step, listening_turn, passive_turn, active_turn, takeover_need.
  destruct (enabled settings), (standby_role settings), act, st as [|u|m|], v as [[]|]; cbn [negb]; cbv zeta;
    intros H; repeat case_if_in H; simplify_eq; eauto 10.
Qed.

Lemma step_stand_down st now settings act v r s' :
  arbitration_step st now settings act v = (s', StandDown r) ->
  enabled settings = true /\ standby_role settings = true /\ act = true /\ v = Some true /\ st = Active /\
  r = PeerAnswered /\ s' = Passive 0.
Proof.
  unfold arbitration_step, listening_turn, passive_turn, active_turn.
  destruct (enabled settings), (standby_role settings), act, st as [|u|m|], v as [[]|]; cbn [negb]; cbv zeta;
    intros H; repeat case_if_in H; simplify_eq; auto 10.
Qed.

Lemma step_probe st now settings act v s' :
  arbitration_step st now settings act v = (s', Probe) -> enabled settings = true /\ standby_role settings = true.
Proof.
  unfold arbitration_step, listening_turn, passive_turn, active_turn.
  destruct (enabled settings), (standby_role settings), act, st as [|u|m|], v as [[]|]; cbn [negb]; cbv zeta;
    intros H; repeat case_if_in H; simplify_eq; auto.
Qed.

(** Without a role change of its own, a settled machine holds the role the unit has. *)
Lemma step_follows st now settings act v s' a :
  arbitration_step st now settings act v = (s', a) ->
  (forall r, a <> Claim r) -> (forall r, a <> StandDown r) -> unsettled s' = false -> is_active s' = act.
Proof.
  unfold arbitration_step, listening_turn, passive_turn, active_turn.
  destruct (enabled settings), (standby_role settings), act, st as [|u|m|], v as [[]|]; cbn [negb]; cbv zeta;
    intros H Hc Hd Hs; repeat case_if_in H; simplify_eq; try done; exfalso; first [by eapply Hc|by eapply Hd].
Qed.

Lemma step_disabled st now settings act v :
  enabled settings = false -> arbitration_step st now settings act v = (Disabled, Idle).
Proof. unfold arbitration_step. now intros ->. Qed.

(** What a turn does to the machine, and what it puts on the bus. *)
Lemma act_frame i now a interval s :
  let s' := fst (act i now a interval s) in
  fsm s' = fsm s /\ verdict s' = verdict s /\
  last_probe_ms s' = (if bool_decide (a = Probe) && probe_due s now interval then Some now else last_probe_ms s).
Proof.
  destruct a; cbn [act]; [done| |unfold set_role, push_transition; destruct (ti_queued i); done..].
  rewrite bool_decide_true by done. unfold probe_when_due, publish_probe.
  destruct (probe_due s now interval), (ti_adapter_enabled i), (ti_queued i); done.
Qed.

Lemma record_followed_frame i now prev next a s :
  let s' := fst (record_followed i now prev next a s) in
  fsm s' = fsm s /\ verdict s' = verdict s /\ last_probe_ms s' = last_probe_ms s.
Proof. unfold record_followed, push_transition. destruct a; try done; repeat case_match; done. Qed.

Lemma record_followed_out i now prev next a s p :
  In p (snd (record_followed i now prev next a s)) -> exists t, p = PubTransition t.
Proof.
  unfold record_followed. destruct a; cbn [snd In]; try done; repeat case_match; cbn [snd In];
    intros Hin; repeat (destruct Hin as [<-|Hin]); try done; eauto.
Qed.

Lemma act_out i now a interval s p :
  In p (snd (act i now a interval s)) ->
  match p with
  | PubProbe => a = Probe /\ ti_adapter_enabled i = true /\ ti_queued i = true /\ probe_due s now interval = true
  | PubRole true => (exists r, a = Claim r) /\ ti_queued i = true
  | PubRole false => (exists r, a = StandDown r) /\ ti_queued i = true
  | PubTransition _ => True
  end.
Proof.
  destruct a; cbn [act]; [done| | |]; unfold probe_when_due, publish_probe, set_role; repeat case_if; cbn [snd In];
    intros Hin; repeat (destruct Hin as [<-|Hin]); try done; split_and!; eauto.
Qed.

(** The justification of everything a turn publishes. *)
Definition justified (i : TurnInput) (now : Z) (s : WorkerState) (a : ArbitrationAction) (p : Published) : Prop :=
  match p with
  | PubProbe => a = Probe /\ ti_adapter_enabled i = true /\ ti_queued i = true /\
                probe_due s now (probe_interval_ms (ti_settings i)) = true
  | PubRole true => (exists r, a = Claim r) /\ ti_queued i = true
  | PubRole false => (exists r, a = StandDown r) /\ ti_queued i = true
  | PubTransition _ => True
  end.

Lemma run_turn_step i now s :
  let '(s', a, out) := run_turn i now s in
  arbitration_step (fsm s) now (ti_settings i) (ti_active i) (verdict s) = (fsm s', a) /\
  verdict s' = None /\
  last_probe_ms s' = (if bool_decide (a = Probe) && probe_due s now (probe_interval_ms (ti_settings i))
                      then Some now else last_probe_ms s) /\
  forall p, In p out -> justified i now s a p.
Proof.
  unfold run_turn. set (s1 := if bool_decide _ then _ else _).
  assert (fsm s1 = fsm s /\ last_probe_ms s1 = last_probe_ms s /\ verdict s1 = None) as (E1 & E2 & E3)
    by (unfold s1; case_if; done). clearbody s1.
  rewrite E1. destruct (arbitration_step _ _ _ _ _) as [next a] eqn:Hstep.
  set (s2 := s1 <| missed := _ |> <| fsm := next |>).
  assert (fsm s2 = next /\ last_probe_ms s2 = last_probe_ms s /\ verdict s2 = None) as (F1 & F2 & F3) by done.
  clearbody s2. set (iv := probe_interval_ms (ti_settings i)).
  pose proof (act_frame i now a iv s2) as (A1 & A2 & A3). pose proof (act_out i now a iv s2) as Ho.
  assert (probe_due s2 now iv = probe_due s now iv) as Hd by (unfold probe_due; now rewrite F2).
  cbn [fsm]. destruct (act i now a iv s2) as [s3 out1]. cbn [fst snd] in *.
  set (s4 := if is_claim a then _ else _).
  assert (fsm s4 = fsm s3 /\ last_probe_ms s4 = last_probe_ms s3 /\ verdict s4 = verdict s3) as (G1 & G2 & G3)
    by (unfold s4; case_if; done). clearbody s4. cbn zeta.
  match goal with |- context [record_followed i now ?prev next a s4] =>
    pose proof (record_followed_frame i now prev next a s4) as (B1 & B2 & B3);
    pose proof (record_followed_out i now prev next a s4) as Ho2; destruct (record_followed i now prev next a s4) as [s5 out2]
  end. cbn [fst snd] in *.
  split_and!; [congruence..| |].
  - rewrite B3, G2, A3, Hd, F2. done.
  - intros p [Hp|Hp]%in_app_or.
    + apply Ho in Hp. unfold justified. destruct p as [|[]|]; [|done..]. now rewrite Hd in Hp.
    + apply Ho2 in Hp as [t ->]. done.
Qed.

(** role changes are justified.  The worker asks for the controller role
    only as an enabled standby whose unit is not active and whose silent probes
    have reached the threshold with this turn's verdict; it gives the role up
    only as an enabled standby that is active and just heard its peer answer; a
    primary and a disabled unit never do either, nor probe; and in every other
    turn that leaves it settled, the machine simply holds the role the unit has. *)
Theorem role_changes_justified i now s :
  let '(s', a, out) := run_turn i now s in
  let settings := ti_settings i in
  (In (PubRole true) out -> enabled settings = true /\ standby_role settings = true /\ ti_active i = false /\
     verdict s = Some false /\ fsm s' = Active /\
     exists m, fsm s = Passive m /\ takeover_need settings <= sat_add 8 m 1) /\
  (In (PubRole false) out -> enabled settings = true /\ standby_role settings = true /\ ti_active i = true /\
     verdict s = Some true /\ fsm s = Active /\ fsm s' = Passive 0) /\
  (enabled settings = false \/ standby_role settings = false ->
     a = Idle /\ forall p, In p out -> exists t, p = PubTransition t) /\
  ((forall r, a <> Claim r) -> (forall r, a <> StandDown r) -> unsettled (fsm s') = false ->
     is_active (fsm s') = ti_active i).
Proof.
  pose proof (run_turn_step i now s) as H. destruct (run_turn i now s) as [[s' a] out].
  destruct H as (Hstep & _ & _ & Hout). cbn zeta. split_and!.
  - intros Hin. apply Hout in Hin as [[r ->] _]. apply step_claim in Hstep as (? & ? & ? & ? & ? & ? & ?). auto 10.
  - intros Hin. apply Hout in Hin as [[r ->] _]. apply step_stand_down in Hstep as (? & ? & ? & ? & ? & ? & ?). auto 10.
  - intros Hoff.
    assert (a = Idle) as ->.
    { destruct a as [| |r|r]; [done|apply step_probe in Hstep|apply step_claim in Hstep|apply step_stand_down in Hstep];
        destruct Hstep as (? & ? & _) || destruct Hstep; destruct Hoff; congruence. }
    split; [done|]. intros p Hp. apply Hout in Hp. destruct p as [|[]|t]; cbn in Hp; [|..|eauto];
      destruct Hp as [Hx _]; [done|destruct Hx; done..].
  - intros. by eapply step_follows.
Qed.

(** ** Probing *)

(** A worker and its clock; the log holds the true time of every probe put on
    the bus and the interval configured then, latest first. *)
Inductive worker_trace : Z -> WorkerState -> list (Z * Z) -> Prop :=
  | wt_start t : 0 <= t -> worker_trace t worker_new []
  | wt_pass t s log t' e i s' a out :
      worker_trace t s log -> t <= t' -> in_u 32 (probe_interval_ms (ti_settings i)) ->
      loop_pass e i (wrap 32 t') s = (s', a, out) ->
      worker_trace t' s' (if existsb (fun p => match p with PubProbe => true | _ => false end) out
                          then (t', probe_interval_ms (ti_settings i)) :: log else log).

Definition spaced (log : list (Z * Z)) : Prop :=
  forall k t1 iv1 t2 iv2, log !! k = Some (t2, iv2) -> log !! S k = Some (t1, iv1) -> t1 + iv2 <= t2.

Lemma note_event_frame e s : fsm (note_event e s) = fsm s /\ last_probe_ms (note_event e s) = last_probe_ms s.
Proof. destruct e as [[]| | |]; done. Qed.

Lemma wrapping_sub_wrap w a b : 0 <= w -> wrapping_sub w (wrap w a) (wrap w b) = wrap w (a - b).
Proof. intros. unfold wrapping_sub, wrap. now rewrite <- Zminus_mod. Qed.

Lemma wrap_le w a : 0 <= w -> 0 <= a -> wrap w a <= a.
Proof. intros. unfold wrap. apply Z.mod_le; [lia|]. apply Z.pow_pos_nonneg; lia. Qed.

(** The last probe is logged no later than the worker remembers it. *)
Lemma worker_trace_spaced t s log : worker_trace t s log ->
  0 <= t /\ spaced log /\
  match log with
  | [] => True
  | (tp, _) :: _ => exists tl, last_probe_ms s = Some (wrap 32 tl) /\ tp <= tl <= t
  end.
Proof.
  induction 1 as [|t s log t' e i s' a out H (IH0 & IH1 & IH2) Ht Hiv Hpass]; [by split_and!|].
  unfold loop_pass in Hpass. set (s1 := match e with Some e => _ | None => s end) in Hpass.
  assert (last_probe_ms s1 = last_probe_ms s) as E by (unfold s1; destruct e; [apply note_event_frame|done]).
  clearbody s1. pose proof (run_turn_step i (wrap 32 t') s1) as Hs. rewrite Hpass in Hs.
  destruct Hs as (_ & _ & Hl & Hout). split; [lia|].
  destruct (existsb _ out) eqn:Hex.
  - apply existsb_exists in Hex as (p & Hp & Hq). destruct p; try done.
    apply Hout in Hp as (-> & _ & _ & Hdue). rewrite bool_decide_true, Hdue in Hl by done. cbn [andb] in Hl.
    split; [|exists t'; split; [done|lia]].
    intros k t1 iv1 t2 iv2 Hk1 Hk2. destruct k as [|k]; [|by eapply IH1].
    cbn in Hk1, Hk2. injection Hk1 as <- <-. destruct log as [|[tp ivp] log]; [done|]. injection Hk2 as -> ->.
    destruct IH2 as (tl & Htl & Hle). unfold probe_due in Hdue. rewrite E, Htl in Hdue.
    rewrite wrapping_sub_wrap in Hdue by lia. apply Z.leb_le in Hdue.
    pose proof (wrap_le 32 (t' - tl)). lia.
  - split; [done|]. destruct log as [|[tp ivp] log]; [done|]. destruct IH2 as (tl & Htl & Hle).
    rewrite E in Hl. destruct (bool_decide _ && _); [exists t'|exists tl]; (split; [congruence|lia]).
Qed.

(** probes are paced, and none is forgotten.  In any run of the worker two
    probes on the bus are at least the interval apart that was configured for
    the second; and when a probe is wanted before it is due, the worker sleeps
    no longer than the interval and wakes exactly when it is due. *)
Theorem probes_paced :
  (forall t s log, worker_trace t s log -> spaced log) /\
  (forall s t iv last, in_u 32 iv -> 0 < iv -> probe_pending s = true -> last_probe_ms s = Some (wrap 32 last) ->
     last <= t -> t < last + iv ->
     let w := wait_ms s (wrap 32 t) iv in
     1 <= w <= iv /\ probe_due s (wrap 32 (t + w)) iv = true /\
     forall d, 0 <= d < w -> probe_due s (wrap 32 (t + d)) iv = false).
Proof.
  split; [intros t s log H; now apply worker_trace_spaced in H as (_ & ? & _)|].
  intros s t iv last Hiv Hpos Hpend Hlast Hle Hlt. unfold in_u in Hiv.
  assert (forall d, 0 <= d <= iv -> t + d - last < 2 ^ 32 -> wrapping_sub 32 (wrap 32 (t + d)) (wrap 32 last) = t + d - last) as Hw.
  { intros d Hd Hb. rewrite wrapping_sub_wrap, wrap_id by (unfold in_u; lia). lia. }
  assert (wrapping_sub 32 (wrap 32 t) (wrap 32 last) = t - last) as Hw0
    by (rewrite <- (Z.add_0_r t) at 1; rewrite Hw; lia).
  unfold wait_ms, probe_due. rewrite Hpend, Hlast, Hw0. cbn [negb]. cbv zeta. unfold sat_sub.
  split_and!; [lia|lia| |].
  - rewrite Hw by lia. apply Z.leb_le. lia.
  - intros d Hd. rewrite Hw by lia. apply Z.leb_gt. lia.
Qed.

(** ** The lease *)

(** The lease of [a] ends at the true time [u]: it was stamped no later than
    the latest of the clocks that are read at [t], and the 32-bit clock has not
    come round since. *)
Definition lease_ends (a : AnswerInputs) (u t : Z) : Prop :=
  lease_until_ms a = wrap 32 u /\ u <= t + LEASE_TTL_MS /\ t < u + 2 ^ 32 - LEASE_TTL_MS - CLOCK_READ_SKEW_MS.

Lemma lease_remaining_exact a u t : lease_ends a u t -> lease_remaining_ms (wrap 32 t) a = Z.max 0 (u - t).
Proof.
  unfold lease_ends, lease_remaining_ms, LEASE_TTL_MS, CLOCK_READ_SKEW_MS. intros (-> & H1 & H2).
  rewrite wrapping_sub_wrap by lia. unfold wrap. cbv zeta. destruct (Z_le_gt_dec t u) as [Hle|Hgt].
  - rewrite Z.mod_small by lia. case_if; lia.
  - replace (u - t) with (u - t + 2 ^ 32 + (-1) * 2 ^ 32) by ring. rewrite Z.mod_add, Z.mod_small by lia.
    repeat case_if; lia.
Qed.

Lemma lease_alive_exact a u t : lease_ends a u t -> lease_alive (wrap 32 t) a = (t <? u).
Proof. intros H. unfold lease_alive. rewrite (lease_remaining_exact a u t H). lia. Qed.

Definition lease_end_after (u t ttl : Z) : Z := if Z.max 0 (u - t) <? Z.min ttl LEASE_TTL_MS then t + Z.min ttl LEASE_TTL_MS else u.

Lemma extend_lease_ends a u t ttl : lease_ends a u t ->
  lease_ends (extend_lease (wrap 32 t) ttl a) (lease_end_after u t ttl) t.
Proof.
  intros H. unfold extend_lease, lease_end_after. rewrite (lease_remaining_exact a u t H). cbv zeta. case_if; [|done].
  unfold lease_ends, LEASE_TTL_MS, CLOCK_READ_SKEW_MS in *. cbn [lease_until_ms set_field]. split_and!; [|lia..].
  unfold wrapping_add, wrap. now rewrite Zplus_mod_idemp_l.
Qed.

Lemma beat_age b now : seen (beat now b) = true /\ last_ms (beat now b) = now. Proof. done. Qed.

(** A beat at the true time [t0] is fresh for exactly [stale_after_ms]. *)
Lemma is_fresh_exact b t0 t : seen b = true -> last_ms b = wrap 32 t0 -> t0 <= t -> t < t0 + 2 ^ 32 - CLOCK_READ_SKEW_MS ->
  0 <= stale_after_ms b -> is_fresh (wrap 32 t) b = (t - t0 <=? stale_after_ms b).
Proof.
  intros Hs Hl Hle Hlt Hst. unfold is_fresh, age_ms, CLOCK_READ_SKEW_MS in *. rewrite Hs, Hl, wrapping_sub_wrap by lia.
  cbn [negb]. cbv zeta. rewrite (wrap_id 32 (t - t0)) by (unfold in_u; lia). unfold wrap.
  destruct (Z.eq_dec t t0) as [->|Hne].
  - rewrite Z.sub_diag. reflexivity.
  - replace (- (t - t0)) with (2 ^ 32 - (t - t0) + (-1) * 2 ^ 32) by ring. rewrite Z.mod_add, Z.mod_small by lia.
    case_if; lia.
Qed.

(** *** Runs of the supervisor and of the workers it watches *)

Inductive WatchEvent := Tick | Turned (k : nat).
#[global] Instance WatchEvent_eq_dec : EqDecision WatchEvent.
Proof. solve_decision. Defined.

Definition watch_step (now : Z) (e : WatchEvent) (s : SupervisorInputs) : SupervisorInputs :=
  match e with
  | Tick => fst (run_supervisor_tick now s)
  | Turned k => s <| watch := alter (beat now) k (watch s) |>
  end.

(** Events at true times that do not go back. *)
Fixpoint watch_run (evs : list (Z * WatchEvent)) (s : SupervisorInputs) : SupervisorInputs :=
  match evs with [] => s | (t, e) :: evs => watch_run evs (watch_step (wrap 32 t) e s) end.
Fixpoint timed (t : Z) (evs : list (Z * WatchEvent)) (t' : Z) : Prop :=
  match evs with [] => t <= t' | (t1, _) :: evs => t <= t1 /\ timed t1 evs t' end.

Lemma timed_le t evs t' : timed t evs t' -> t <= t'.
Proof. revert t. induction evs as [|[t1 e] evs IH]; cbn; [done|]. intros t [? ?%IH]. lia. Qed.

Lemma watch_step_ttl now e s : lease_ttl_ms (watch_step now e s) = lease_ttl_ms s.
Proof. destruct e; cbn; [|done]. unfold run_supervisor_tick. now destruct (stale _ _). Qed.

Lemma watch_step_ends t e s u : lease_ends (answer_inputs s) u t ->
  lease_ends (answer_inputs (watch_step (wrap 32 t) e s))
    (if bool_decide (e = Tick) && all_fresh (wrap 32 t) (watch s) then lease_end_after u t (lease_ttl_ms s) else u) t.
Proof.
  intros H. destruct e as [|k]; cbn [watch_step]; [|done]. unfold run_supervisor_tick, all_fresh.
  rewrite bool_decide_true by done. cbn [andb]. destruct (stale _ _); [done|]. cbn. now apply extend_lease_ends.
Qed.

Lemma lease_end_after_range u t ttl : u <= lease_end_after u t ttl <= Z.max u (t + LEASE_TTL_MS).
Proof. unfold lease_end_after, LEASE_TTL_MS. case_if; lia. Qed.

Lemma lease_ends_later a u t t' : lease_ends a u t -> t <= t' ->
  t' < u + 2 ^ 32 - LEASE_TTL_MS - CLOCK_READ_SKEW_MS -> lease_ends a u t'.
Proof. unfold lease_ends. intros (? & ? & _) ? ?. split_and!; [done|lia|done]. Qed.

(** No event shortens a lease, within one turn of the clock. *)
Lemma watch_run_ends evs : forall t t' u s, timed t evs t' -> lease_ends (answer_inputs s) u t ->
  t' < u + 2 ^ 32 - LEASE_TTL_MS - CLOCK_READ_SKEW_MS ->
  exists u', u <= u' /\ lease_ends (answer_inputs (watch_run evs s)) u' t'.
Proof.
  induction evs as [|[t1 e] evs IH]; intros t t' u s Ht He Hb; cbn in Ht |- *.
  - exists u. split; [lia|]. by eapply lease_ends_later.
  - destruct Ht as [H1 H2]. pose proof (timed_le _ _ _ H2).
    pose proof (lease_ends_later _ _ _ t1 He H1 ltac:(lia)) as He1. apply (watch_step_ends t1 e) in He1.
    match type of He1 with lease_ends _ ?u1 _ => assert (u <= u1) as Hu by
      (case_if; [apply lease_end_after_range|lia]); destruct (IH t1 t' u1 _ H2 He1) as (u' & Hu' & Hend); [lia|] end.
    exists u'. split; [lia|done].
Qed.

Lemma all_fresh_lookup now w k b : all_fresh now w = true -> w !! k = Some b -> is_fresh now b = true.
Proof.
  unfold all_fresh, stale. intros Ha Hk. destruct (List.find _ w) eqn:E; [done|].
  apply (List.find_none _ _ E b) in Hk as Hn || (apply list_elem_of_lookup_2, list_elem_of_In in Hk;
    pose proof (List.find_none _ _ E b Hk) as Hn). now apply negb_false_iff in Hn.
Qed.

Definition turns (k : nat) (e : Z * WatchEvent) : bool := match snd e with Turned j => bool_decide (j = k) | Tick => false end.

(** While a watched worker is silent, no lease runs past its last turn by more
    than the staleness bound and the lease's length. *)
Lemma silent_watch_run k b t0 evs : forall t t' u s,
  watch s !! k = Some b -> seen b = true -> last_ms b = wrap 32 t0 -> 0 <= stale_after_ms b ->
  t0 <= t -> timed t evs t' -> t' < t0 + 2 ^ 32 - CLOCK_READ_SKEW_MS -> existsb (turns k) evs = false ->
  lease_ends (answer_inputs s) u t -> t' < u + 2 ^ 32 - LEASE_TTL_MS - CLOCK_READ_SKEW_MS ->
  u <= t0 + stale_after_ms b + LEASE_TTL_MS ->
  exists u', u' <= t0 + stale_after_ms b + LEASE_TTL_MS /\ lease_ends (answer_inputs (watch_run evs s)) u' t'.
Proof.
  induction evs as [|[t1 e] evs IH]; intros t t' u s Hk Hs Hl Hst Hle Ht Hb Hq He Hu Hmax; cbn in Ht, Hq |- *.
  - exists u. split; [done|]. by eapply lease_ends_later.
  - destruct Ht as [H1 H2]. pose proof (timed_le _ _ _ H2). apply orb_false_iff in Hq as [Hq1 Hq2].
    pose proof (lease_ends_later _ _ _ t1 He H1 ltac:(lia)) as He1. apply (watch_step_ends t1 e) in He1.
    assert (watch (watch_step (wrap 32 t1) e s) !! k = Some b) as Hk1.
    { destruct e as [|j]; cbn; [unfold run_supervisor_tick; now destruct (stale _ _)|].
      unfold turns in Hq1. cbn in Hq1. apply bool_decide_eq_false in Hq1. by rewrite list_lookup_alter_ne. }
    eapply (IH t1 t'); [exact Hk1|done..|lia|done|done|done|exact He1| |]; case_if; try done.
    + pose proof (lease_end_after_range u t1 (lease_ttl_ms s)). lia.
    + match goal with Hf : all_fresh _ _ = true |- _ => apply (all_fresh_lookup _ _ _ _ Hf) in Hk end. rewrite (is_fresh_exact b t0 t1) in Hk by (done || lia).
      apply Z.leb_le in Hk. pose proof (lease_end_after_range u t1 (lease_ttl_ms s)). lia.
Qed.

(** a defended bus stays defended.  A supervisor tick that finds every
    watched worker fresh keeps the answering lease alive for its whole length,
    whatever ticks and turns of workers follow, across the wrap of the
    millisecond clock: no later event shortens it. *)
Theorem defended_lease_lasts s t u evs t'
  (Hlease : lease_ends (answer_inputs s) u t)
  (Htick : snd (run_supervisor_tick (wrap 32 t) s) = Defend)
  (Hevs : timed t evs t')
  (Hin : t' < t + Z.min (lease_ttl_ms s) LEASE_TTL_MS) :
  lease_alive (wrap 32 t') (answer_inputs (watch_run evs (watch_step (wrap 32 t) Tick s))) = true.
Proof.
  pose proof (timed_le _ _ _ Hevs). pose proof (watch_step_ends t Tick s u Hlease) as He.
  rewrite bool_decide_true in He by done. unfold run_supervisor_tick in Htick. unfold all_fresh in He.
  destruct (stale _ _); [done|]. cbn [andb] in He.
  assert (t + Z.min (lease_ttl_ms s) LEASE_TTL_MS <= lease_end_after u t (lease_ttl_ms s)) as Hlen
    by (unfold lease_end_after; case_if; lia).
  destruct (watch_run_ends evs t t' _ _ Hevs He) as (u' & Hu' & Hend); [unfold LEASE_TTL_MS, CLOCK_READ_SKEW_MS in *; lia|].
  rewrite (lease_alive_exact _ _ _ Hend). apply Z.ltb_lt. lia.
Qed.

Lemma defended_lease_lasts_witness :
  let s := MkSupervisor answer_inputs_new [beat 1000 (beat_new "registry" 3000)] 0 0 1000 3000 in
  let evs := [(1500, Turned 0); (2000, Tick)] in
  lease_ends (answer_inputs s) 0 1000 /\
  lease_alive (wrap 32 3500) (answer_inputs (watch_run evs (watch_step (wrap 32 1000) Tick s))) = true.
Proof.
  intros s evs. assert (lease_ends (answer_inputs s) 0 1000) as H by (by vm_compute). split; [exact H|].
  apply (defended_lease_lasts s 1000 0 evs 3500 H eq_refl); unfold LEASE_TTL_MS; cbn; lia.
Defined.

(** C38: a wedged worker ends the answering.  Once a watched worker's last turn
    is older than its staleness bound plus the lease, the unit no longer
    answers for the bus, however often the supervisor ticked and however busy
    the other workers were, and whoever stamped the lease before; the bound
    holds for a whole turn of the 32-bit clock. *)
Theorem wedged_worker_ends_answering s t0 u k b evs t
  (Hk : watch s !! k = Some b) (Hs : seen b = true) (Hl : last_ms b = wrap 32 t0) (Hst : 0 <= stale_after_ms b)
  (Hlease : lease_ends (answer_inputs s) u t0)
  (Hevs : timed t0 evs t) (Hquiet : existsb (turns k) evs = false)
  (Hlate : t0 + stale_after_ms b + LEASE_TTL_MS <= t)
  (Hclock : t < Z.min u t0 + 2 ^ 32 - LEASE_TTL_MS - CLOCK_READ_SKEW_MS) :
  is_answering (wrap 32 t) (answer_inputs (watch_run evs s)) = false.
Proof.
  destruct (silent_watch_run k b t0 evs t0 t u s) as (u' & Hu' & Hend);
    try done; try (unfold lease_ends, LEASE_TTL_MS, CLOCK_READ_SKEW_MS in *; lia).
  unfold is_answering. rewrite (lease_alive_exact _ _ _ Hend). destruct (Z.ltb_spec t u'); [lia|done].
Qed.

Lemma wedged_worker_ends_answering_witness :
  let b := beat 1000 (beat_new "registry" 3000) in
  let s := MkSupervisor (publish_bus_unit (MkSnapshot FACTORY_NVM 1 0 0) (MkAnswerInputs None 3000 (MkAnswerCounters 0 0 0 0 0 0)))
             [b] 0 0 1000 3000 in
  let evs := [(1500, Tick); (2500, Tick); (3500, Tick); (4500, Tick); (5500, Tick)] in
  lease_ends (answer_inputs s) 3000 1000 /\ is_answering (wrap 32 1000) (answer_inputs s) = true /\
  is_answering (wrap 32 7000) (answer_inputs (watch_run evs s)) = false.
Proof.
  intros b s evs. assert (lease_ends (answer_inputs s) 3000 1000) as H by (by vm_compute). split; [exact H|].
  split; [reflexivity|].
  apply (wedged_worker_ends_answering s 1000 3000 0 b evs 7000 eq_refl eq_refl eq_refl); try (by vm_compute);
    try done; unfold LEASE_TTL_MS; cbn; lia.
Defined.

End Arbitration.
