(* ===== verification/RulesBase.v ===== *)
(** * Strings, results and the small sort of the rule components

    The parts of the Rust standard library the rule crates use, and the one
    sorting routine of the platform crate:

    - [str] is a Rust string as its Unicode scalar values; [str_len] is its
      length in UTF-8 bytes ([str::len]), [as_bytes] its encoding, [from_utf8]
      the strict decoder and [str_gt] the order of two names;
    - [Result] with [let?] for the [?] operator;
    - [find_pos] for [iter().position];
    - [insertion_sort_by] of src/crates/dali2rust-platform/src/small_sort.rs,
      swap by swap, with the lemmas that it permutes and sorts. *)

From stdpp Require Import sorting strings.
From S2P Require Import Prelude.

(** ** Results *)

Inductive Result (T E : Type) : Type :=
| Ok (value : T)
| Err (error : E).
Arguments Ok {T E} _.
Arguments Err {T E} _.

Notation "'let?' x ':=' e 'in' k" := (match e with Ok x => k | Err err => Err err end)
  (at level 200, x binder, e at level 200, k at level 200) : oxi_scope.

(** Case analysis on the innermost scrutinees of [H : _ = Err e], closing the branches that succeed. *)
Ltac err_cases H :=
  repeat (try discriminate H;
    match type of H with
    | context [match ?x with _ => _ end] =>
        lazymatch x with
        | context [match _ with _ => _ end] => fail
        | _ => destruct x eqn:?
        end
    end);
  try discriminate H.

(** [option.ok_or(e)] and [result.map(f)]. *)
Definition ok_or {T E} (o : option T) (e : E) : Result T E :=
  match o with Some v => Ok v | None => Err e end.
Definition result_map {T U E} (f : T -> U) (r : Result T E) : Result U E :=
  match r with Ok v => Ok (f v) | Err e => Err e end.

Lemma ok_or_Ok {T E} (o : option T) (e : E) v : ok_or o e = Ok v <-> o = Some v.
Proof. destruct o; cbn; split; congruence. Qed.

(** A fold that stops at the first error: [for x in l { f(x)?; }]. *)
Fixpoint try_each {A E} (f : A -> Result unit E) (l : list A) : Result unit E :=
  match l with
  | [] => Ok tt
  | x :: l => match f x with Ok _ => try_each f l | Err e => Err e end
  end.

Lemma try_each_Ok {A E} (f : A -> Result unit E) l :
  try_each f l = Ok tt <-> Forall (fun x => f x = Ok tt) l.
Proof.
  induction l as [|x l IH]; cbn; [split; constructor|].
  rewrite Forall_cons_iff. destruct (f x) as [[]|e]; [tauto|]. split; [discriminate|intros [? _]; discriminate].
Qed.

(** The error of a failing [for] loop is the error of some element. *)
Lemma try_each_Err {A E} (f : A -> Result unit E) l e :
  try_each f l = Err e -> exists x, x ∈ l /\ f x = Err e.
Proof.
  induction l as [|x l IH]; cbn; [discriminate|]. destruct (f x) as [[]|e'] eqn:Hx; intros H.
  - destruct (IH H) as (y & Hy & He). exists y. split; [now right|done].
  - injection H as ->. exists x. split; [left|done].
Qed.

(** ** Strings *)

Definition str : Type := list Z.
#[global] Instance str_eq_dec : EqDecision str.
Proof. unfold str. apply _. Defined.

(** The [str] of an ASCII literal. *)
Definition ascii_str (s : String.string) : str :=
  map (fun a => Z.of_N (Ascii.N_of_ascii a)) (String.list_ascii_of_string s).
Arguments ascii_str s%_string.

Definition str_eqb (a b : str) : bool := bool_decide (a = b).
Lemma str_eqb_spec a b : str_eqb a b = true <-> a = b.
Proof. apply bool_decide_eq_true. Qed.
Lemma str_eqb_refl a : str_eqb a a = true.
Proof. now apply str_eqb_spec. Qed.
Lemma str_eqb_neq a b : str_eqb a b = false <-> a <> b.
Proof. apply bool_decide_eq_false. Qed.

(** [char::encode_utf8]. *)
Definition encode_utf8 (c : Z) : list Z :=
  if c <? 0x80 then [c]
  else if c <? 0x800 then [Z.lor 0xC0 (Z.shiftr c 6); Z.lor 0x80 (Z.land c 0x3F)]
  else if c <? 0x10000 then
    [Z.lor 0xE0 (Z.shiftr c 12); Z.lor 0x80 (Z.land (Z.shiftr c 6) 0x3F); Z.lor 0x80 (Z.land c 0x3F)]
  else
    [Z.lor 0xF0 (Z.shiftr c 18); Z.lor 0x80 (Z.land (Z.shiftr c 12) 0x3F);
     Z.lor 0x80 (Z.land (Z.shiftr c 6) 0x3F); Z.lor 0x80 (Z.land c 0x3F)].

Definition as_bytes (s : str) : list Z := s ≫= encode_utf8.
Definition str_len (s : str) : Z := Z.of_nat (length (as_bytes s)).

(** A Unicode scalar value: no surrogate, at most U+10FFFF. *)
Definition is_scalar (c : Z) : bool :=
  (0 <=? c) && (c <=? 0x10FFFF) && negb ((0xD800 <=? c) && (c <=? 0xDFFF)).

Definition continuation_byte (b : Z) : bool := (0x80 <=? b) && (b <=? 0xBF).

(** [core::str::from_utf8]: the shortest encoding of scalar values only. *)
Fixpoint from_utf8 (bytes : list Z) : option str :=
  match bytes with
  | [] => Some []
  | b0 :: rest =>
      if b0 <? 0x80 then option_map (cons b0) (from_utf8 rest)
      else match rest with
           | b1 :: rest1 =>
               if negb (continuation_byte b1) then None
               else if (0xC2 <=? b0) && (b0 <=? 0xDF) then
                 option_map (cons ((b0 - 0xC0) * 64 + (b1 - 0x80))) (from_utf8 rest1)
               else match rest1 with
                    | b2 :: rest2 =>
                        if negb (continuation_byte b2) then None
                        else if (0xE0 <=? b0) && (b0 <=? 0xEF) then
                          let c := ((b0 - 0xE0) * 64 + (b1 - 0x80)) * 64 + (b2 - 0x80) in
                          if (0x800 <=? c) && is_scalar c then option_map (cons c) (from_utf8 rest2) else None
                        else match rest2 with
                             | b3 :: rest3 =>
                                 if negb (continuation_byte b3) then None
                                 else if (0xF0 <=? b0) && (b0 <=? 0xF4) then
                                   let c := (((b0 - 0xF0) * 64 + (b1 - 0x80)) * 64 + (b2 - 0x80)) * 64
                                            + (b3 - 0x80) in
                                   if (0x10000 <=? c) && is_scalar c
                                   then option_map (cons c) (from_utf8 rest3) else None
                                 else None
                             | [] => None
                             end
                    | [] => None
                    end
           | [] => None
           end
  end.

(** [char::is_control]: the general category Cc. *)
Definition is_control (c : Z) : bool := (c <? 0x20) || ((0x7F <=? c) && (c <=? 0x9F)).

(** [a > b] on strings: UTF-8 byte order is scalar order. *)
Fixpoint str_gt (a b : str) : bool :=
  match a, b with
  | [], _ => false
  | _ :: _, [] => true
  | x :: a, y :: b => (y <? x) || ((x =? y) && str_gt a b)
  end.

(** [str::parse::<i32>]: an optional sign, at least one decimal digit, no overflow. *)
Fixpoint digits (acc : Z) (s : str) : option Z :=
  match s with
  | [] => Some acc
  | c :: s => if (48 <=? c) && (c <=? 57) then digits (acc * 10 + (c - 48)) s else None
  end.
Definition parse_i32 (s : str) : option Z :=
  let '(sign, body) :=
    match s with
    | 43 :: body => (1, body)
    | 45 :: body => (-1, body)
    | _ => (1, s)
    end in
  match body with
  | [] => None
  | _ => match digits 0 body with
         | Some n => if (- 2 ^ 31 <=? sign * n) && (sign * n <? 2 ^ 31) then Some (sign * n) else None
         | None => None
         end
  end.

Lemma str_gt_irrefl a : str_gt a a = false.
Proof. induction a as [|x a IH]; cbn; [done|]. rewrite IH, andb_false_r, orb_false_r. lia. Qed.

Lemma str_gt_trans a : forall b c, str_gt a b = true -> str_gt b c = true -> str_gt a c = true.
Proof.
  induction a as [|x a IH]; intros [|y b] [|z c]; cbn; try done.
  rewrite !orb_true_iff, !andb_true_iff, !Z.ltb_lt, !Z.eqb_eq.
  intros [H|[-> H]] [H'|[-> H']]; [left; lia|left; lia|left; lia|right; split; [done|eauto]].
Qed.

Lemma str_gt_total a : forall b, str_gt a b = false -> str_gt b a = false -> a = b.
Proof.
  induction a as [|x a IH]; intros [|y b]; cbn; try done.
  rewrite !orb_false_iff, !andb_false_iff, !Z.ltb_ge, !Z.eqb_neq. intros [H1 H2] [H3 H4].
  assert (x = y) as -> by lia. f_equal. apply IH; [destruct H2|destruct H4]; done.
Qed.

Lemma str_gt_asym a b : str_gt a b = true -> str_gt b a = false.
Proof.
  intros H. destruct (str_gt b a) eqn:E; [|done].
  pose proof (str_gt_trans _ _ _ H E) as Hc. now rewrite str_gt_irrefl in Hc.
Qed.

Lemma str_gt_neg_trans a b c : str_gt a b = false -> str_gt b c = false -> str_gt a c = false.
Proof.
  intros H1 H2. destruct (str_gt a c) eqn:E; [|done].
  destruct (str_gt b a) eqn:Hba; [now rewrite (str_gt_trans _ _ _ Hba E) in H2|].
  rewrite (str_gt_total _ _ H1 Hba) in E. congruence.
Qed.

(** ** Searching *)

(** [iter().position(p)]. *)
Fixpoint find_pos {A} (p : A -> bool) (l : list A) : option nat :=
  match l with
  | [] => None
  | x :: l => if p x then Some 0%nat else option_map S (find_pos p l)
  end.

Lemma find_pos_Some {A} (p : A -> bool) l i :
  find_pos p l = Some i -> exists x, l !! i = Some x /\ p x = true /\ (i < length l)%nat.
Proof.
  revert i. induction l as [|x l IH]; cbn; intros i H; [done|]. destruct (p x) eqn:Hp.
  - injection H as <-. exists x. split; [done|]. split; [done|lia].
  - destruct (find_pos p l) as [j|]; [|done]. injection H as <-.
    destruct (IH j eq_refl) as (y & Hy & ? & ?). exists y. split; [done|]. split; [done|lia].
Qed.

Lemma find_pos_first {A} (p : A -> bool) l i j x :
  find_pos p l = Some i -> (j < i)%nat -> l !! j = Some x -> p x = false.
Proof.
  revert i j. induction l as [|y l IH]; cbn; intros i j H Hj Hx; [done|]. destruct (p y) eqn:Hp.
  - injection H as <-. lia.
  - destruct (find_pos p l) as [k|] eqn:Hk; [|done]. injection H as <-.
    destruct j; [now injection Hx as ->|]. eapply IH; eauto. lia.
Qed.

Lemma find_elem {A} (p : A -> bool) l x : find p l = Some x -> x ∈ l /\ p x = true.
Proof. intros H. apply find_some in H as [H ?]. split; [now apply list_elem_of_In|done]. Qed.

(** ** The insertion sort of the platform crate *)

Section SmallSort.
Context {T : Type} (is_after : T -> T -> bool).

(** [items.swap(at - 1, at)]. *)
Definition swap_at (items : list T) (p : nat) (a b : T) : list T := <[S p := a]> (<[p := b]> items).

(** [while at > 0 && is_after(&items[at - 1], &items[at])]. *)
Fixpoint sink (items : list T) (at_ : nat) : list T :=
  match at_ with
  | O => items
  | S p =>
      match items !! p, items !! S p with
      | Some a, Some b => if is_after a b then sink (swap_at items p a b) p else items
      | _, _ => items
      end
  end.

(** [for end in 1..items.len()]. *)
Definition insertion_sort_by (items : list T) : list T :=
  foldl sink items (seq 1 (length items - 1)).

Lemma swap_at_split pre a b post :
  swap_at (pre ++ a :: b :: post) (length pre) a b = pre ++ b :: a :: post.
Proof.
  unfold swap_at. rewrite insert_app_r_alt by lia. rewrite Nat.sub_diag. cbn [list_insert insert].
  rewrite insert_app_r_alt by lia. replace (S (length pre) - length pre)%nat with 1%nat by lia. done.
Qed.

(** Sinking the element after a prefix inserts it into that prefix, from the back. *)
Fixpoint insert_back (rev_pre : list T) (x : T) (post : list T) : list T :=
  match rev_pre with
  | [] => x :: post
  | a :: rev_pre => if is_after a x then insert_back rev_pre x (a :: post)
                    else rev (a :: rev_pre) ++ x :: post
  end.

Lemma sink_insert_back rev_pre x post :
  sink (rev rev_pre ++ x :: post) (length rev_pre) = insert_back rev_pre x post.
Proof.
  revert post. induction rev_pre as [|a rp IH]; intros post; [done|].
  cbn [length sink insert_back rev]. rewrite <- app_assoc. cbn [app].
  rewrite lookup_app_r by (rewrite length_rev; lia). rewrite lookup_app_r by (rewrite length_rev; lia).
  rewrite length_rev, Nat.sub_diag. replace (S (length rp) - length rp)%nat with 1%nat by lia.
  cbn. destruct (is_after a x) eqn:E; [|done].
  rewrite <- (length_rev rp), swap_at_split, length_rev. apply IH.
Qed.

Lemma insert_back_perm rp x post : insert_back rp x post ≡ₚ rev rp ++ x :: post.
Proof.
  revert post. induction rp as [|a rp IH]; intros post; cbn; [done|].
  destruct (is_after a x); [|done]. rewrite IH, <- app_assoc. cbn. now rewrite (Permutation_swap a x).
Qed.

Lemma insert_back_length rp x post : length (insert_back rp x post) = (length rp + S (length post))%nat.
Proof. rewrite insert_back_perm, length_app, length_rev. done. Qed.

(** Strictness and negative transitivity of the comparison. *)
Definition sorts : Prop :=
  (forall a b, is_after a b = true -> is_after b a = false) /\
  (forall a b c, is_after a b = false -> is_after b c = false -> is_after a c = false).
Definition le_item (a b : T) : Prop := is_after a b = false.

Lemma insert_back_sorted rp x post :
  sorts ->
  StronglySorted le_item (rev rp ++ post) ->
  Forall (fun y => is_after y x = true) post ->
  StronglySorted le_item (insert_back rp x post).
Proof.
  intros [Hasym Htrans]. revert post. induction rp as [|a rp IH]; intros post Hs Hp; cbn.
  - constructor; [done|]. eapply Forall_impl; [|exact Hp]. intros y Hy. now apply Hasym.
  - cbn in Hs. rewrite <- app_assoc in Hs. cbn in Hs. destruct (is_after a x) eqn:E.
    + apply IH; [done|]. constructor; [done|done].
    + rewrite <- app_assoc. cbn.
      assert (forall y, y ∈ rev rp ++ [a] -> le_item y x) as Hle.
      { intros y Hy. apply elem_of_app in Hy as [Hy|Hy].
        - apply Htrans with a; [|done]. apply StronglySorted_app in Hs as (Hc & _ & _).
          apply Hc; [done|left].
        - apply list_elem_of_singleton in Hy as ->. done. }
      assert (Forall (le_item x) post) as Hxp.
      { eapply Forall_impl; [|exact Hp]. intros y Hy. now apply Hasym. }
      change (rev rp ++ a :: x :: post) with (rev rp ++ [a] ++ x :: post).
      change (rev rp ++ a :: post) with (rev rp ++ [a] ++ post) in Hs.
      rewrite app_assoc in Hs |- *. apply StronglySorted_app in Hs as (Hc & Hs1 & Hs2).
      apply StronglySorted_app. split; [|split].
      * intros y z Hy Hz. apply elem_of_cons in Hz as [->|Hz]; [now apply Hle|]. now apply Hc.
      * done.
      * constructor; [|done]. done.
Qed.
End SmallSort.

Section SmallSortFacts.
Context {T : Type} (is_after : T -> T -> bool).

(** The outer loop: a prefix of [k] items sorted so far, the rest untouched. *)
Lemma insertion_steps k pre rest :
  length pre = k ->
  foldl (sink is_after) (pre ++ rest) (seq k (length rest)) =
  foldl (fun acc x => insert_back is_after (rev acc) x []) pre rest.
Proof.
  revert k pre. induction rest as [|x rest IH]; intros k pre Hk; cbn; [now rewrite app_nil_r|].
  assert (sink is_after (pre ++ x :: rest) k = insert_back is_after (rev pre) x [] ++ rest) as ->.
  { rewrite <- (rev_involutive pre) at 1. rewrite <- Hk, <- (length_rev pre), sink_insert_back.
    clear. generalize (rev pre) as rp. intros rp. change rest with ([] ++ rest) at 1.
    generalize (@nil T) as post. induction rp as [|a rp IH]; intros post; cbn; [done|].
    destruct (is_after a x); [apply (IH (a :: post))|]. now rewrite <- !app_assoc. }
  apply IH. rewrite insert_back_length, length_rev. cbn. lia.
Qed.

Lemma insertion_sort_by_fold items :
  insertion_sort_by is_after items = foldl (fun acc x => insert_back is_after (rev acc) x []) [] items.
Proof.
  unfold insertion_sort_by. destruct items as [|x items]; [done|].
  change (x :: items) with ([x] ++ items) at 1. cbn [length]. rewrite Nat.sub_succ, Nat.sub_0_r.
  now rewrite (insertion_steps 1 [x] items).
Qed.

Lemma insertion_sort_by_perm items : insertion_sort_by is_after items ≡ₚ items.
Proof.
  rewrite insertion_sort_by_fold.
  enough (forall acc, foldl (fun acc x => insert_back is_after (rev acc) x []) acc items ≡ₚ acc ++ items) as H
    by apply (H []).
  induction items as [|x items IH]; intros acc; cbn; [now rewrite app_nil_r|].
  now rewrite IH, insert_back_perm, rev_involutive, <- app_assoc.
Qed.

Lemma insertion_sort_by_sorted items :
  sorts is_after -> StronglySorted (le_item is_after) (insertion_sort_by is_after items).
Proof.
  intros Hs. rewrite insertion_sort_by_fold.
  enough (forall acc, StronglySorted (le_item is_after) acc ->
            StronglySorted (le_item is_after) (foldl (fun acc x => insert_back is_after (rev acc) x []) acc items))
    as H by (apply H; constructor).
  induction items as [|x items IH]; intros acc Hacc; cbn; [done|].
  apply IH, insert_back_sorted; [done| |constructor]. now rewrite rev_involutive, app_nil_r.
Qed.
End SmallSortFacts.
