(* ===== verification/RulesModel.v ===== *)
(** * The data of a rule document

    src/crates/dali2rust-rules-model/src/{refs,time,value,trigger,condition,
    action,rule}.rs: the references a rule names, its day sets, readings,
    triggers, conditions and actions, the blocks and rules, and the [kind]
    functions with the names the interfaces print.  A [String] is a [str] of
    RulesBase, machine integers are [Z]; a constructor carries the name of its
    enum and of its variant.  Serialisation (serde) is not modelled. *)

From stdpp Require Import gmap strings.
From S2P Require Import Prelude RulesBase.

Module RulesModel.
#[local] Open Scope string_scope.
#[local] Open Scope Z_scope.
#[local] Open Scope list_scope.

(** ** refs.rs *)

Record LampRef := mkLampRef { lamp_adapter_id : Z; lamp_id : Z }.
Record GroupRef := mkGroupRef { group_adapter_id : Z; group_id : Z }.
Record DeviceRef := mkDeviceRef { device_adapter_id : Z; device_short_address : Z }.
Record SceneRef := mkSceneRef { scene_adapter_id : Z; scene_id : Z }.
Record InputRef := mkInputRef { input_adapter_id : Z; input_short_address : Z; input_instance_number : Z }.
Record InputDeviceRef := mkInputDeviceRef { idev_adapter_id : Z; idev_short_address : Z }.
Record InputGroupSelector := mkInputGroupSelector {
  sel_adapter_id : Z; sel_instance_group : Z; sel_instance_type : option Z }.

Inductive InputSelector :=
| InputSelector_Instance (input : InputRef)
| InputSelector_Group (sel : InputGroupSelector).

Inductive LightTarget :=
| LightTarget_Lamp (lamp : LampRef)
| LightTarget_Group (group : GroupRef)
| LightTarget_Broadcast (adapter_id : Z).

#[global] Instance LampRef_eq_dec : EqDecision LampRef.
Proof. solve_decision. Defined.
#[global] Instance GroupRef_eq_dec : EqDecision GroupRef.
Proof. solve_decision. Defined.
#[global] Instance InputRef_eq_dec : EqDecision InputRef.
Proof. solve_decision. Defined.
#[global] Instance LightTarget_eq_dec : EqDecision LightTarget.
Proof. solve_decision. Defined.

(** ** time.rs *)

(** [DurationMs(u32)] is its value. *)
Definition DurationMs : Type := Z.
Record TimeOfDay := mkTimeOfDay { hour : Z; minute : Z }.
Inductive SolarEvent := SolarEvent_Sunrise | SolarEvent_Sunset.
Inductive TimeBound :=
| TimeBound_Clock (t : TimeOfDay)
| TimeBound_Solar (event : SolarEvent) (offset_ms : Z).

Inductive Weekday := Mon | Tue | Wed | Thu | Fri | Sat | Sun.
#[global] Instance Weekday_eq_dec : EqDecision Weekday.
Proof. solve_decision. Defined.

Definition Weekday_ALL : list Weekday := [Mon; Tue; Wed; Thu; Fri; Sat; Sun].
Definition WEEKDAY_NAMES : list string := ["mon"; "tue"; "wed"; "thu"; "fri"; "sat"; "sun"].

Definition weekday_index (d : Weekday) : Z :=
  match d with Mon => 0 | Tue => 1 | Wed => 2 | Thu => 3 | Fri => 4 | Sat => 5 | Sun => 6 end.
Definition weekday_name (d : Weekday) : string := nth (Z.to_nat (weekday_index d)) WEEKDAY_NAMES EmptyString.
Definition weekday_from_name (name : string) : option Weekday :=
  find (fun d => bool_decide (weekday_name d = name)) Weekday_ALL.

(** [DaySet(u8)] is its mask. *)
Definition DaySet : Type := Z.
Definition ALL_DAYS_MASK : Z := 0x7F.
Definition day_set_empty : DaySet := 0.
Definition day_set_insert (s : DaySet) (day : Weekday) : DaySet := Z.lor s (shl 8 1 (weekday_index day)).

(** The [loop] of [insert_range]: it walks the week until the index of [to]; with
    both indices below 7 it stops within seven steps (the fuel). *)
Fixpoint insert_range_loop (fuel : nat) (s d to_ : Z) : DaySet :=
  let s := Z.lor s (shl 8 1 d) in
  match fuel with
  | O => s
  | S fuel => if d =? to_ then s else insert_range_loop fuel s ((d + 1) mod 7) to_
  end.
Definition day_set_insert_range (s : DaySet) (from to_ : Weekday) : DaySet :=
  insert_range_loop 7 s (weekday_index from) (weekday_index to_).
Definition day_set_contains (s : DaySet) (day : Weekday) : bool :=
  negb (Z.land s (shl 8 1 (weekday_index day)) =? 0).
Definition day_set_is_empty (s : DaySet) : bool := Z.land s ALL_DAYS_MASK =? 0.

(** ** value.rs *)

Inductive ValueKind :=
  | ValueKind_LampLevel | ValueKind_LampCct | ValueKind_LampIsOn | ValueKind_LampLastLevel
  | ValueKind_GroupAnyOn | ValueKind_GroupAllOff | ValueKind_GroupMemberCount | ValueKind_InputOccupied
  | ValueKind_InputLight | ValueKind_InputPosition | ValueKind_InputLastEventAge | ValueKind_TimeNow
  | ValueKind_TimeHour | ValueKind_TimeMinute | ValueKind_TimeWeekday | ValueKind_SunRise
  | ValueKind_SunSet | ValueKind_SunIsUp | ValueKind_Var | ValueKind_EventValue | ValueKind_EventDevice
  | ValueKind_EventInstance | ValueKind_EventOption.
#[global] Instance ValueKind_eq_dec : EqDecision ValueKind.
Proof. solve_decision. Defined.

(** [self as usize]. *)
Definition value_kind_index (k : ValueKind) : nat :=
  match k with
  | ValueKind_LampLevel => 0 | ValueKind_LampCct => 1 | ValueKind_LampIsOn => 2
  | ValueKind_LampLastLevel => 3 | ValueKind_GroupAnyOn => 4 | ValueKind_GroupAllOff => 5
  | ValueKind_GroupMemberCount => 6 | ValueKind_InputOccupied => 7 | ValueKind_InputLight => 8
  | ValueKind_InputPosition => 9 | ValueKind_InputLastEventAge => 10 | ValueKind_TimeNow => 11
  | ValueKind_TimeHour => 12 | ValueKind_TimeMinute => 13 | ValueKind_TimeWeekday => 14
  | ValueKind_SunRise => 15 | ValueKind_SunSet => 16 | ValueKind_SunIsUp => 17 | ValueKind_Var => 18
  | ValueKind_EventValue => 19 | ValueKind_EventDevice => 20 | ValueKind_EventInstance => 21
  | ValueKind_EventOption => 22
  end%nat.

Definition ValueKind_ALL : list ValueKind :=
  [ValueKind_LampLevel; ValueKind_LampCct; ValueKind_LampIsOn; ValueKind_LampLastLevel;
  ValueKind_GroupAnyOn; ValueKind_GroupAllOff; ValueKind_GroupMemberCount; ValueKind_InputOccupied;
  ValueKind_InputLight; ValueKind_InputPosition; ValueKind_InputLastEventAge; ValueKind_TimeNow;
  ValueKind_TimeHour; ValueKind_TimeMinute; ValueKind_TimeWeekday; ValueKind_SunRise; ValueKind_SunSet;
  ValueKind_SunIsUp; ValueKind_Var; ValueKind_EventValue; ValueKind_EventDevice; ValueKind_EventInstance;
  ValueKind_EventOption].

Definition VALUE_KIND_NAMES : list string :=
  ["lamp_level"; "lamp_cct"; "lamp_is_on"; "lamp_last_level"; "group_any_on"; "group_all_off";
  "group_member_count"; "input_occupied"; "input_light"; "input_position"; "input_last_event_age";
  "time_now"; "time_hour"; "time_minute"; "time_weekday"; "sun_rise"; "sun_set"; "sun_is_up"; "var";
  "event_value"; "event_device"; "event_instance"; "event_option"].

Definition value_kind_name (k : ValueKind) : string := nth (value_kind_index k) VALUE_KIND_NAMES EmptyString.

Inductive Reading :=
| Reading_LampLevel (lamp : LampRef)
| Reading_LampCct (lamp : LampRef)
| Reading_LampIsOn (lamp : LampRef)
| Reading_LampLastLevel (lamp : LampRef)
| Reading_GroupAnyOn (group : GroupRef)
| Reading_GroupAllOff (group : GroupRef)
| Reading_GroupMemberCount (group : GroupRef)
| Reading_InputOccupied (input : InputRef)
| Reading_InputLight (input : InputRef)
| Reading_InputPosition (input : InputRef)
| Reading_InputLastEventAge (input : InputRef)
| Reading_TimeNow
| Reading_TimeHour
| Reading_TimeMinute
| Reading_TimeWeekday
| Reading_SunRise
| Reading_SunSet
| Reading_SunIsUp
| Reading_Var (name : str)
| Reading_EventValue
| Reading_EventDevice
| Reading_EventInstance
| Reading_EventOption.

Definition reading_kind (r : Reading) : ValueKind :=
  match r with
  | Reading_LampLevel _ => ValueKind_LampLevel
  | Reading_LampCct _ => ValueKind_LampCct
  | Reading_LampIsOn _ => ValueKind_LampIsOn
  | Reading_LampLastLevel _ => ValueKind_LampLastLevel
  | Reading_GroupAnyOn _ => ValueKind_GroupAnyOn
  | Reading_GroupAllOff _ => ValueKind_GroupAllOff
  | Reading_GroupMemberCount _ => ValueKind_GroupMemberCount
  | Reading_InputOccupied _ => ValueKind_InputOccupied
  | Reading_InputLight _ => ValueKind_InputLight
  | Reading_InputPosition _ => ValueKind_InputPosition
  | Reading_InputLastEventAge _ => ValueKind_InputLastEventAge
  | Reading_TimeNow => ValueKind_TimeNow
  | Reading_TimeHour => ValueKind_TimeHour
  | Reading_TimeMinute => ValueKind_TimeMinute
  | Reading_TimeWeekday => ValueKind_TimeWeekday
  | Reading_SunRise => ValueKind_SunRise
  | Reading_SunSet => ValueKind_SunSet
  | Reading_SunIsUp => ValueKind_SunIsUp
  | Reading_Var _ => ValueKind_Var
  | Reading_EventValue => ValueKind_EventValue
  | Reading_EventDevice => ValueKind_EventDevice
  | Reading_EventInstance => ValueKind_EventInstance
  | Reading_EventOption => ValueKind_EventOption
  end.

Inductive ValueExpr :=
| ValueExpr_Literal (n : Z)
| ValueExpr_Reading (r : Reading)
| ValueExpr_Offset (reading : Reading) (delta : Z).

(** [ValueExpr::reading]. *)
Definition expr_reading (e : ValueExpr) : option Reading :=
  match e with
  | ValueExpr_Literal _ => None
  | ValueExpr_Reading r | ValueExpr_Offset r _ => Some r
  end.

Inductive VarValue :=
| VarValue_Int (i : Z)
| VarValue_Text (s : str).

(** ** trigger.rs *)

Inductive TriggerKind :=
  | TriggerKind_InputEvent | TriggerKind_InputOccupancy | TriggerKind_InputLightCross
  | TriggerKind_InputPositionChange | TriggerKind_InputDevicePowerCycled
  | TriggerKind_InputDeviceManualConfigChanged | TriggerKind_AtTime | TriggerKind_AtSolar
  | TriggerKind_Every | TriggerKind_LampTurns | TriggerKind_LampLevelCross | TriggerKind_GroupBecomes
  | TriggerKind_SceneRecalled | TriggerKind_DeviceOnlineTransition | TriggerKind_HclOverride
  | TriggerKind_TimerFires | TriggerKind_ControllerStarts | TriggerKind_ControllerBecomesActive
  | TriggerKind_RuleFails | TriggerKind_HttpTrigger | TriggerKind_MqttMessage.
#[global] Instance TriggerKind_eq_dec : EqDecision TriggerKind.
Proof. solve_decision. Defined.

(** [self as usize]. *)
Definition trigger_kind_index (k : TriggerKind) : nat :=
  match k with
  | TriggerKind_InputEvent => 0 | TriggerKind_InputOccupancy => 1 | TriggerKind_InputLightCross => 2
  | TriggerKind_InputPositionChange => 3 | TriggerKind_InputDevicePowerCycled => 4
  | TriggerKind_InputDeviceManualConfigChanged => 5 | TriggerKind_AtTime => 6 | TriggerKind_AtSolar => 7
  | TriggerKind_Every => 8 | TriggerKind_LampTurns => 9 | TriggerKind_LampLevelCross => 10
  | TriggerKind_GroupBecomes => 11 | TriggerKind_SceneRecalled => 12
  | TriggerKind_DeviceOnlineTransition => 13 | TriggerKind_HclOverride => 14 | TriggerKind_TimerFires => 15
  | TriggerKind_ControllerStarts => 16 | TriggerKind_ControllerBecomesActive => 17
  | TriggerKind_RuleFails => 18 | TriggerKind_HttpTrigger => 19 | TriggerKind_MqttMessage => 20
  end%nat.

Definition TriggerKind_ALL : list TriggerKind :=
  [TriggerKind_InputEvent; TriggerKind_InputOccupancy; TriggerKind_InputLightCross;
  TriggerKind_InputPositionChange; TriggerKind_InputDevicePowerCycled;
  TriggerKind_InputDeviceManualConfigChanged; TriggerKind_AtTime; TriggerKind_AtSolar; TriggerKind_Every;
  TriggerKind_LampTurns; TriggerKind_LampLevelCross; TriggerKind_GroupBecomes; TriggerKind_SceneRecalled;
  TriggerKind_DeviceOnlineTransition; TriggerKind_HclOverride; TriggerKind_TimerFires;
  TriggerKind_ControllerStarts; TriggerKind_ControllerBecomesActive; TriggerKind_RuleFails;
  TriggerKind_HttpTrigger; TriggerKind_MqttMessage].

Definition TRIGGER_KIND_NAMES : list string :=
  ["input_event"; "input_occupancy"; "input_light_cross"; "input_position_change";
  "input_device_power_cycled"; "input_device_manual_config_changed"; "at_time"; "at_solar"; "every";
  "lamp_turns"; "lamp_level_cross"; "group_becomes"; "scene_recalled"; "device_online_transition";
  "hcl_override"; "timer_fires"; "controller_starts"; "controller_becomes_active"; "rule_fails";
  "http_trigger"; "mqtt_message"].

Definition trigger_kind_name (k : TriggerKind) : string := nth (trigger_kind_index k) TRIGGER_KIND_NAMES EmptyString.

Definition is_input_class (k : TriggerKind) : bool :=
  match k with
  | TriggerKind_InputEvent | TriggerKind_InputOccupancy | TriggerKind_InputLightCross
  | TriggerKind_InputPositionChange | TriggerKind_InputDevicePowerCycled
  | TriggerKind_InputDeviceManualConfigChanged => true
  | _ => false
  end.

Inductive InputEventMatch :=
| InputEventMatch_Press | InputEventMatch_Release | InputEventMatch_ShortPress | InputEventMatch_DoublePress
| InputEventMatch_LongPressStart | InputEventMatch_LongPressRepeat | InputEventMatch_LongPressStop
| InputEventMatch_ButtonFree | InputEventMatch_ButtonStuck | InputEventMatch_Movement
| InputEventMatch_NoMovement | InputEventMatch_AnyEvent | InputEventMatch_Raw (data : Z).
Inductive OccupancyState := OccupancyState_Occupied | OccupancyState_Vacant.
Inductive CrossDirection := CrossDirection_Above | CrossDirection_Below.
Inductive PowerTransition := PowerTransition_On | PowerTransition_Off.
Inductive GroupAggregate := GroupAggregate_AnyOn | GroupAggregate_AllOff.
Inductive OnlineTransition := OnlineTransition_ComesOnline | OnlineTransition_GoesOffline.
Inductive OverrideTransition := OverrideTransition_Starts | OverrideTransition_Clears.
#[global] Instance PowerTransition_eq_dec : EqDecision PowerTransition.
Proof. solve_decision. Defined.
#[global] Instance OnlineTransition_eq_dec : EqDecision OnlineTransition.
Proof. solve_decision. Defined.
#[global] Instance OverrideTransition_eq_dec : EqDecision OverrideTransition.
Proof. solve_decision. Defined.

Inductive Trigger :=
| Trigger_InputEvent (source : InputSelector) (event : InputEventMatch)
| Trigger_InputOccupancy (source : InputRef) (becomes : OccupancyState)
| Trigger_InputLightCross (source : InputRef) (direction : CrossDirection) (threshold : Z)
| Trigger_InputPositionChange (source : InputRef)
| Trigger_InputDevicePowerCycled (device : InputDeviceRef)
| Trigger_InputDeviceManualConfigChanged (device : InputDeviceRef)
| Trigger_AtTime (time : TimeOfDay) (days : DaySet)
| Trigger_AtSolar (event : SolarEvent) (offset_ms : Z)
| Trigger_Every (period_ms : DurationMs)
| Trigger_LampTurns (lamp : LampRef) (to_ : PowerTransition)
| Trigger_LampLevelCross (lamp : LampRef) (direction : CrossDirection) (threshold : Z)
| Trigger_GroupBecomes (group : GroupRef) (becomes : GroupAggregate)
| Trigger_SceneRecalled (adapter_id scene : Z)
| Trigger_DeviceOnlineTransition (device : DeviceRef) (transition : OnlineTransition)
| Trigger_HclOverride (target : LightTarget) (transition : OverrideTransition)
| Trigger_TimerFires (timer : str)
| Trigger_ControllerStarts
| Trigger_ControllerBecomesActive
| Trigger_RuleFails (rule : str)
| Trigger_HttpTrigger
| Trigger_MqttMessage (topic : str) (payload : option str).

Definition trigger_kind (t : Trigger) : TriggerKind :=
  match t with
  | Trigger_InputEvent _ _ => TriggerKind_InputEvent
  | Trigger_InputOccupancy _ _ => TriggerKind_InputOccupancy
  | Trigger_InputLightCross _ _ _ => TriggerKind_InputLightCross
  | Trigger_InputPositionChange _ => TriggerKind_InputPositionChange
  | Trigger_InputDevicePowerCycled _ => TriggerKind_InputDevicePowerCycled
  | Trigger_InputDeviceManualConfigChanged _ => TriggerKind_InputDeviceManualConfigChanged
  | Trigger_AtTime _ _ => TriggerKind_AtTime
  | Trigger_AtSolar _ _ => TriggerKind_AtSolar
  | Trigger_Every _ => TriggerKind_Every
  | Trigger_LampTurns _ _ => TriggerKind_LampTurns
  | Trigger_LampLevelCross _ _ _ => TriggerKind_LampLevelCross
  | Trigger_GroupBecomes _ _ => TriggerKind_GroupBecomes
  | Trigger_SceneRecalled _ _ => TriggerKind_SceneRecalled
  | Trigger_DeviceOnlineTransition _ _ => TriggerKind_DeviceOnlineTransition
  | Trigger_HclOverride _ _ => TriggerKind_HclOverride
  | Trigger_TimerFires _ => TriggerKind_TimerFires
  | Trigger_ControllerStarts => TriggerKind_ControllerStarts
  | Trigger_ControllerBecomesActive => TriggerKind_ControllerBecomesActive
  | Trigger_RuleFails _ => TriggerKind_RuleFails
  | Trigger_HttpTrigger => TriggerKind_HttpTrigger
  | Trigger_MqttMessage _ _ => TriggerKind_MqttMessage
  end.

Definition mqtt_topic (t : Trigger) : option str :=
  match t with Trigger_MqttMessage topic _ => Some topic | _ => None end.

(** [Vec::contains] on names. *)
Definition contains (l : list str) (x : str) : bool := existsb (str_eqb x) l.

Definition distinct_mqtt_topics (triggers : list Trigger) : list str :=
  foldl (fun topics topic => if contains topics topic then topics else topics ++ [topic])
        [] (omap mqtt_topic triggers).

(** ** condition.rs *)

Inductive ConditionKind :=
  | ConditionKind_TimeInRange | ConditionKind_DayIn | ConditionKind_SunIs | ConditionKind_LampIs
  | ConditionKind_LampLevel | ConditionKind_LampCct | ConditionKind_GroupState
  | ConditionKind_InputOccupancy | ConditionKind_InputLight | ConditionKind_HclState
  | ConditionKind_DeviceOnline | ConditionKind_RuleEnabled | ConditionKind_LastFiredOlderThan
  | ConditionKind_TimerRunning | ConditionKind_ControllerActive | ConditionKind_VarCompare.
#[global] Instance ConditionKind_eq_dec : EqDecision ConditionKind.
Proof. solve_decision. Defined.

(** [self as usize]. *)
Definition condition_kind_index (k : ConditionKind) : nat :=
  match k with
  | ConditionKind_TimeInRange => 0 | ConditionKind_DayIn => 1 | ConditionKind_SunIs => 2
  | ConditionKind_LampIs => 3 | ConditionKind_LampLevel => 4 | ConditionKind_LampCct => 5
  | ConditionKind_GroupState => 6 | ConditionKind_InputOccupancy => 7 | ConditionKind_InputLight => 8
  | ConditionKind_HclState => 9 | ConditionKind_DeviceOnline => 10 | ConditionKind_RuleEnabled => 11
  | ConditionKind_LastFiredOlderThan => 12 | ConditionKind_TimerRunning => 13
  | ConditionKind_ControllerActive => 14 | ConditionKind_VarCompare => 15
  end%nat.

Definition ConditionKind_ALL : list ConditionKind :=
  [ConditionKind_TimeInRange; ConditionKind_DayIn; ConditionKind_SunIs; ConditionKind_LampIs;
  ConditionKind_LampLevel; ConditionKind_LampCct; ConditionKind_GroupState; ConditionKind_InputOccupancy;
  ConditionKind_InputLight; ConditionKind_HclState; ConditionKind_DeviceOnline; ConditionKind_RuleEnabled;
  ConditionKind_LastFiredOlderThan; ConditionKind_TimerRunning; ConditionKind_ControllerActive;
  ConditionKind_VarCompare].

Definition CONDITION_KIND_NAMES : list string :=
  ["time_in_range"; "day_in"; "sun_is"; "lamp_is"; "lamp_level"; "lamp_cct"; "group_state";
  "input_occupancy"; "input_light"; "hcl_state"; "device_online"; "rule_enabled"; "last_fired_older_than";
  "timer_running"; "controller_active"; "var_compare"].

Definition condition_kind_name (k : ConditionKind) : string := nth (condition_kind_index k) CONDITION_KIND_NAMES EmptyString.

Inductive Cmp := Cmp_Eq | Cmp_Ne | Cmp_Ge | Cmp_Le | Cmp_Gt | Cmp_Lt.
Definition cmp_symbol (c : Cmp) : string :=
  match c with
  | Cmp_Eq => "==" | Cmp_Ne => "!=" | Cmp_Ge => ">=" | Cmp_Le => "<=" | Cmp_Gt => ">" | Cmp_Lt => "<"
  end.
Inductive HclState := HclState_Enabled | HclState_Overridden.
Inductive VarOperand :=
| VarOperand_Text (s : str)
| VarOperand_Value (e : ValueExpr).

Inductive Condition :=
| Condition_TimeInRange (start end_ : TimeBound)
| Condition_DayIn (days : DaySet)
| Condition_SunIs (up : bool)
| Condition_LampIs (lamp : LampRef) (on : bool)
| Condition_LampLevel (lamp : LampRef) (cmp : Cmp) (value : ValueExpr)
| Condition_LampCct (lamp : LampRef) (cmp : Cmp) (value : ValueExpr)
| Condition_GroupState (group : GroupRef) (state : GroupAggregate)
| Condition_InputOccupancy (input : InputRef) (occupied : bool)
| Condition_InputLight (input : InputRef) (above : bool) (threshold : ValueExpr)
| Condition_HclState (target : LightTarget) (state : HclState)
| Condition_DeviceOnline (device : DeviceRef)
| Condition_RuleEnabled (rule : str)
| Condition_LastFiredOlderThan (rule : str) (than_ms : DurationMs)
| Condition_TimerRunning (timer : str)
| Condition_ControllerActive
| Condition_VarCompare (name : str) (cmp : Cmp) (value : VarOperand).

Definition condition_kind (c : Condition) : ConditionKind :=
  match c with
  | Condition_TimeInRange _ _ => ConditionKind_TimeInRange
  | Condition_DayIn _ => ConditionKind_DayIn
  | Condition_SunIs _ => ConditionKind_SunIs
  | Condition_LampIs _ _ => ConditionKind_LampIs
  | Condition_LampLevel _ _ _ => ConditionKind_LampLevel
  | Condition_LampCct _ _ _ => ConditionKind_LampCct
  | Condition_GroupState _ _ => ConditionKind_GroupState
  | Condition_InputOccupancy _ _ => ConditionKind_InputOccupancy
  | Condition_InputLight _ _ _ => ConditionKind_InputLight
  | Condition_HclState _ _ => ConditionKind_HclState
  | Condition_DeviceOnline _ => ConditionKind_DeviceOnline
  | Condition_RuleEnabled _ => ConditionKind_RuleEnabled
  | Condition_LastFiredOlderThan _ _ => ConditionKind_LastFiredOlderThan
  | Condition_TimerRunning _ => ConditionKind_TimerRunning
  | Condition_ControllerActive => ConditionKind_ControllerActive
  | Condition_VarCompare _ _ _ => ConditionKind_VarCompare
  end.

(** [impl From<VarValue> for VarOperand]. *)
Definition operand_from (value : VarValue) : VarOperand :=
  match value with
  | VarValue_Text s => VarOperand_Text s
  | VarValue_Int i => VarOperand_Value (ValueExpr_Literal i)
  end.

(** ** action.rs *)

Inductive ActionKind :=
  | ActionKind_LightOn | ActionKind_LightOff | ActionKind_LightToggle | ActionKind_LightLevel
  | ActionKind_LightDim | ActionKind_LightDimHold | ActionKind_LightCct | ActionKind_LightXy
  | ActionKind_LightRgb | ActionKind_LightLastActive | ActionKind_LightStopFade | ActionKind_LightRecallMax
  | ActionKind_LightRecallMin | ActionKind_SceneRecall | ActionKind_SceneApply | ActionKind_SceneCycle
  | ActionKind_HclResume | ActionKind_HclHold | ActionKind_HclEnable | ActionKind_HclDisable
  | ActionKind_InputFeedbackOn | ActionKind_InputFeedbackOff | ActionKind_PanelSelect
  | ActionKind_InputCancelHold | ActionKind_InputCatchMovement | ActionKind_Wait | ActionKind_After
  | ActionKind_TimerStart | ActionKind_TimerRestart | ActionKind_TimerCancel | ActionKind_Call
  | ActionKind_Repeat | ActionKind_Conditional | ActionKind_VarSet | ActionKind_VarAdd
  | ActionKind_RuleEnable | ActionKind_RuleDisable | ActionKind_MqttPublish | ActionKind_Log
  | ActionKind_StatCount.
#[global] Instance ActionKind_eq_dec : EqDecision ActionKind.
Proof. solve_decision. Defined.

(** [self as usize]. *)
Definition action_kind_index (k : ActionKind) : nat :=
  match k with
  | ActionKind_LightOn => 0 | ActionKind_LightOff => 1 | ActionKind_LightToggle => 2
  | ActionKind_LightLevel => 3 | ActionKind_LightDim => 4 | ActionKind_LightDimHold => 5
  | ActionKind_LightCct => 6 | ActionKind_LightXy => 7 | ActionKind_LightRgb => 8
  | ActionKind_LightLastActive => 9 | ActionKind_LightStopFade => 10 | ActionKind_LightRecallMax => 11
  | ActionKind_LightRecallMin => 12 | ActionKind_SceneRecall => 13 | ActionKind_SceneApply => 14
  | ActionKind_SceneCycle => 15 | ActionKind_HclResume => 16 | ActionKind_HclHold => 17
  | ActionKind_HclEnable => 18 | ActionKind_HclDisable => 19 | ActionKind_InputFeedbackOn => 20
  | ActionKind_InputFeedbackOff => 21 | ActionKind_PanelSelect => 22 | ActionKind_InputCancelHold => 23
  | ActionKind_InputCatchMovement => 24 | ActionKind_Wait => 25 | ActionKind_After => 26
  | ActionKind_TimerStart => 27 | ActionKind_TimerRestart => 28 | ActionKind_TimerCancel => 29
  | ActionKind_Call => 30 | ActionKind_Repeat => 31 | ActionKind_Conditional => 32
  | ActionKind_VarSet => 33 | ActionKind_VarAdd => 34 | ActionKind_RuleEnable => 35
  | ActionKind_RuleDisable => 36 | ActionKind_MqttPublish => 37 | ActionKind_Log => 38
  | ActionKind_StatCount => 39
  end%nat.

Definition ActionKind_ALL : list ActionKind :=
  [ActionKind_LightOn; ActionKind_LightOff; ActionKind_LightToggle; ActionKind_LightLevel;
  ActionKind_LightDim; ActionKind_LightDimHold; ActionKind_LightCct; ActionKind_LightXy;
  ActionKind_LightRgb; ActionKind_LightLastActive; ActionKind_LightStopFade; ActionKind_LightRecallMax;
  ActionKind_LightRecallMin; ActionKind_SceneRecall; ActionKind_SceneApply; ActionKind_SceneCycle;
  ActionKind_HclResume; ActionKind_HclHold; ActionKind_HclEnable; ActionKind_HclDisable;
  ActionKind_InputFeedbackOn; ActionKind_InputFeedbackOff; ActionKind_PanelSelect;
  ActionKind_InputCancelHold; ActionKind_InputCatchMovement; ActionKind_Wait; ActionKind_After;
  ActionKind_TimerStart; ActionKind_TimerRestart; ActionKind_TimerCancel; ActionKind_Call;
  ActionKind_Repeat; ActionKind_Conditional; ActionKind_VarSet; ActionKind_VarAdd; ActionKind_RuleEnable;
  ActionKind_RuleDisable; ActionKind_MqttPublish; ActionKind_Log; ActionKind_StatCount].

Definition ACTION_KIND_NAMES : list string :=
  ["light_on"; "light_off"; "light_toggle"; "light_level"; "light_dim"; "light_dim_hold"; "light_cct";
  "light_xy"; "light_rgb"; "light_last_active"; "light_stop_fade"; "light_recall_max"; "light_recall_min";
  "scene_recall"; "scene_apply"; "scene_cycle"; "hcl_resume"; "hcl_hold"; "hcl_enable"; "hcl_disable";
  "input_feedback_on"; "input_feedback_off"; "panel_select"; "input_cancel_hold"; "input_catch_movement";
  "wait"; "after"; "timer_start"; "timer_restart"; "timer_cancel"; "call"; "repeat"; "conditional";
  "var_set"; "var_add"; "rule_enable"; "rule_disable"; "mqtt_publish"; "log"; "stat_count"].

Definition action_kind_name (k : ActionKind) : string := nth (action_kind_index k) ACTION_KIND_NAMES EmptyString.

Inductive LevelSpec := LevelSpec_Absolute (e : ValueExpr) | LevelSpec_Relative (delta : Z).
Inductive CctSpec := CctSpec_Absolute (e : ValueExpr) | CctSpec_Relative (delta_k : Z).
Inductive DimDirection := DimDirection_Up | DimDirection_Down.

Inductive LightOp :=
| LightOp_On (level : option ValueExpr)
| LightOp_Off
| LightOp_Toggle (level : option ValueExpr)
| LightOp_Level (level : LevelSpec)
| LightOp_Dim (delta : Z)
| LightOp_DimHold (direction : DimDirection)
| LightOp_Cct (cct : CctSpec)
| LightOp_Xy (x_1e4 y_1e4 : Z)
| LightOp_Rgb (r g b : Z)
| LightOp_LastActive
| LightOp_StopFade
| LightOp_RecallMax
| LightOp_RecallMin.

Definition light_op_kind (op : LightOp) : ActionKind :=
  match op with
  | LightOp_On _ => ActionKind_LightOn
  | LightOp_Off => ActionKind_LightOff
  | LightOp_Toggle _ => ActionKind_LightToggle
  | LightOp_Level _ => ActionKind_LightLevel
  | LightOp_Dim _ => ActionKind_LightDim
  | LightOp_DimHold _ => ActionKind_LightDimHold
  | LightOp_Cct _ => ActionKind_LightCct
  | LightOp_Xy _ _ => ActionKind_LightXy
  | LightOp_Rgb _ _ _ => ActionKind_LightRgb
  | LightOp_LastActive => ActionKind_LightLastActive
  | LightOp_StopFade => ActionKind_LightStopFade
  | LightOp_RecallMax => ActionKind_LightRecallMax
  | LightOp_RecallMin => ActionKind_LightRecallMin
  end.

Record LightAction := mkLightAction { op : LightOp; target : LightTarget; action_hold_hcl : option bool }.

Inductive SceneAction :=
| SceneAction_Recall (scene : ValueExpr) (target : option LightTarget)
| SceneAction_Apply (scene : ValueExpr)
| SceneAction_Cycle (scenes : list Z).

Definition scene_action_kind (a : SceneAction) : ActionKind :=
  match a with
  | SceneAction_Recall _ _ => ActionKind_SceneRecall
  | SceneAction_Apply _ => ActionKind_SceneApply
  | SceneAction_Cycle _ => ActionKind_SceneCycle
  end.

Inductive HclAction :=
| HclAction_Resume (target : LightTarget)
| HclAction_Hold (target : LightTarget)
| HclAction_Enable (schedule : str)
| HclAction_Disable (schedule : str).

Definition hcl_action_kind (a : HclAction) : ActionKind :=
  match a with
  | HclAction_Resume _ => ActionKind_HclResume
  | HclAction_Hold _ => ActionKind_HclHold
  | HclAction_Enable _ => ActionKind_HclEnable
  | HclAction_Disable _ => ActionKind_HclDisable
  end.

Inductive InputAction :=
| InputAction_FeedbackOn (input : InputRef)
| InputAction_FeedbackOff (input : InputRef)
| InputAction_PanelSelect (adapter_id group : Z) (selected : ValueExpr)
| InputAction_CancelHold (input : InputRef)
| InputAction_CatchMovement (input : InputRef).

Definition input_action_kind (a : InputAction) : ActionKind :=
  match a with
  | InputAction_FeedbackOn _ => ActionKind_InputFeedbackOn
  | InputAction_FeedbackOff _ => ActionKind_InputFeedbackOff
  | InputAction_PanelSelect _ _ _ => ActionKind_PanelSelect
  | InputAction_CancelHold _ => ActionKind_InputCancelHold
  | InputAction_CatchMovement _ => ActionKind_InputCatchMovement
  end.

Inductive StateAction :=
| StateAction_VarSet (name : str) (value : VarValue)
| StateAction_VarAdd (name : str) (delta : ValueExpr)
| StateAction_RuleEnable (rule : str)
| StateAction_RuleDisable (rule : str)
| StateAction_MqttPublish (topic payload : str) (retain : bool)
| StateAction_Log (text : str)
| StateAction_StatCount (name : str).

Definition state_action_kind (a : StateAction) : ActionKind :=
  match a with
  | StateAction_VarSet _ _ => ActionKind_VarSet
  | StateAction_VarAdd _ _ => ActionKind_VarAdd
  | StateAction_RuleEnable _ => ActionKind_RuleEnable
  | StateAction_RuleDisable _ => ActionKind_RuleDisable
  | StateAction_MqttPublish _ _ _ => ActionKind_MqttPublish
  | StateAction_Log _ => ActionKind_Log
  | StateAction_StatCount _ => ActionKind_StatCount
  end.

Inductive Action :=
| Action_Light (a : LightAction)
| Action_Scene (a : SceneAction)
| Action_Hcl (a : HclAction)
| Action_Input (a : InputAction)
| Action_Flow (a : FlowAction)
| Action_State (a : StateAction)
with FlowAction :=
| FlowAction_Wait (duration_ms : DurationMs)
| FlowAction_After (delay_ms : DurationMs) (actions : list Action)
| FlowAction_TimerStart (timer : str) (duration_ms : DurationMs)
| FlowAction_TimerRestart (timer : str) (duration_ms : DurationMs)
| FlowAction_TimerCancel (timer : str)
| FlowAction_Call (block : str)
| FlowAction_Repeat (count : Z) (actions : list Action)
| FlowAction_Conditional (condition : Condition) (then_actions else_actions : list Action).

Definition flow_action_kind (a : FlowAction) : ActionKind :=
  match a with
  | FlowAction_Wait _ => ActionKind_Wait
  | FlowAction_After _ _ => ActionKind_After
  | FlowAction_TimerStart _ _ => ActionKind_TimerStart
  | FlowAction_TimerRestart _ _ => ActionKind_TimerRestart
  | FlowAction_TimerCancel _ => ActionKind_TimerCancel
  | FlowAction_Call _ => ActionKind_Call
  | FlowAction_Repeat _ _ => ActionKind_Repeat
  | FlowAction_Conditional _ _ _ => ActionKind_Conditional
  end.

Definition action_kind (a : Action) : ActionKind :=
  match a with
  | Action_Light a => light_op_kind (op a)
  | Action_Scene a => scene_action_kind a
  | Action_Hcl a => hcl_action_kind a
  | Action_Input a => input_action_kind a
  | Action_Flow a => flow_action_kind a
  | Action_State a => state_action_kind a
  end.

(** ** rule.rs *)

Definition DEFAULT_COOLDOWN_INPUT_MS : Z := 0.
Definition DEFAULT_COOLDOWN_STATE_MS : Z := 200.

Record DefBlock := mkDefBlock { block_name : str; block_actions : list Action }.
Record Rule := mkRule {
  rule_name : str;
  rule_enabled : bool;
  cooldown_ms : Z;
  rule_hold_hcl : bool;
  triggers : list Trigger;
  conditions : list Condition;
  actions : list Action
}.
Record RuleSet := mkRuleSet { lang_id : Z; blocks : list DefBlock; rules : list Rule }.

#[global] Instance Rule_eta : Eta Rule := fun r =>
  mkRule (rule_name r) (rule_enabled r) (cooldown_ms r) (rule_hold_hcl r) (triggers r) (conditions r) (actions r).
#[global] Instance RuleSet_eta : Eta RuleSet := fun s => mkRuleSet (lang_id s) (blocks s) (rules s).

Definition default_cooldown_ms (ts : list Trigger) : Z :=
  if existsb (fun t => is_input_class (trigger_kind t)) ts
  then DEFAULT_COOLDOWN_INPUT_MS else DEFAULT_COOLDOWN_STATE_MS.

(** [RuleSet::empty], [block], [rule], [mqtt_topics], [set_rule_enabled]. *)
Definition rule_set_empty (lang_id : Z) : RuleSet := mkRuleSet lang_id [] [].
Definition find_block (blocks : list DefBlock) (name : str) : option DefBlock :=
  find (fun b => str_eqb (block_name b) name) blocks.
Definition set_block (set : RuleSet) (name : str) : option DefBlock := find_block (blocks set) name.
Definition set_rule (set : RuleSet) (name : str) : option Rule :=
  find (fun r => str_eqb (rule_name r) name) (rules set).
Definition mqtt_topics (set : RuleSet) : list str :=
  distinct_mqtt_topics (concat (map triggers (rules set))).
(** [rules.iter().position(|r| r.name == name)]. *)
Definition rule_position (set : RuleSet) (name : str) : option nat :=
  find_pos (fun r => str_eqb (rule_name r) name) (rules set).
Definition document_set_rule_enabled (set : RuleSet) (name : str) (enabled : bool) : option RuleSet :=
  match rule_position set name with
  | Some i => match rules set !! i with
              | Some r => Some (set <| rules := <[i := r <| rule_enabled := enabled |>]> (rules set) |>)
              | None => None
              end
  | None => None
  end.

(** ** Induction on actions

    Actions nest through the lists of [after], [repeat] and [if]; the principle
    gives the hypothesis for every member of those lists. *)

Section ActionInd.
Context (P : Action -> Prop).
Context (Hleaf : forall a, (forall f, a <> Action_Flow f) -> P a).
Context (Hwait : forall d, P (Action_Flow (FlowAction_Wait d))).
Context (Hafter : forall d l, Forall P l -> P (Action_Flow (FlowAction_After d l))).
Context (Hstart : forall t d, P (Action_Flow (FlowAction_TimerStart t d))).
Context (Hrestart : forall t d, P (Action_Flow (FlowAction_TimerRestart t d))).
Context (Hcancel : forall t, P (Action_Flow (FlowAction_TimerCancel t))).
Context (Hcall : forall b, P (Action_Flow (FlowAction_Call b))).
Context (Hrepeat : forall c l, Forall P l -> P (Action_Flow (FlowAction_Repeat c l))).
Context (Hcond : forall c l1 l2, Forall P l1 -> Forall P l2 ->
           P (Action_Flow (FlowAction_Conditional c l1 l2))).

Fixpoint Action_nested_ind (a : Action) : P a :=
  let list_ind := fix list_ind (l : list Action) : Forall P l :=
    match l with
    | [] => @List.Forall_nil Action P
    | a :: l => @List.Forall_cons Action P a l (Action_nested_ind a) (list_ind l)
    end in
  match a with
  | Action_Flow f =>
      match f with
      | FlowAction_Wait d => Hwait d
      | FlowAction_After d l => Hafter d l (list_ind l)
      | FlowAction_TimerStart t d => Hstart t d
      | FlowAction_TimerRestart t d => Hrestart t d
      | FlowAction_TimerCancel t => Hcancel t
      | FlowAction_Call b => Hcall b
      | FlowAction_Repeat c l => Hrepeat c l (list_ind l)
      | FlowAction_Conditional c l1 l2 => Hcond c l1 l2 (list_ind l1) (list_ind l2)
      end
  | Action_Light x => Hleaf (Action_Light x) ltac:(discriminate)
  | Action_Scene x => Hleaf (Action_Scene x) ltac:(discriminate)
  | Action_Hcl x => Hleaf (Action_Hcl x) ltac:(discriminate)
  | Action_Input x => Hleaf (Action_Input x) ltac:(discriminate)
  | Action_State x => Hleaf (Action_State x) ltac:(discriminate)
  end.
End ActionInd.

(** ** The names of the kinds are those of the discriminants *)

Lemma kind_tables_aligned :
  (forall k, VALUE_KIND_NAMES !! value_kind_index k = Some (value_kind_name k) /\
             ValueKind_ALL !! value_kind_index k = Some k) /\
  (forall k, TRIGGER_KIND_NAMES !! trigger_kind_index k = Some (trigger_kind_name k) /\
             TriggerKind_ALL !! trigger_kind_index k = Some k) /\
  (forall k, CONDITION_KIND_NAMES !! condition_kind_index k = Some (condition_kind_name k) /\
             ConditionKind_ALL !! condition_kind_index k = Some k) /\
  (forall k, ACTION_KIND_NAMES !! action_kind_index k = Some (action_kind_name k) /\
             ActionKind_ALL !! action_kind_index k = Some k).
Proof. repeat split; destruct k; reflexivity. Qed.

(** ** Day sets *)

Lemma day_set_insert_spec s d d' :
  in_u 8 s -> day_set_contains (day_set_insert s d) d' = bool_decide (d = d') || day_set_contains s d'.
Proof.
  revert s. destruct d, d'; cbv [weekday_index day_set_insert day_set_contains]; by_evaluation.
Qed.

(** A range of days, wrapping through Sunday. *)
Definition in_day_range (from to_ d : Weekday) : bool :=
  (weekday_index d - weekday_index from) mod 7 <=? (weekday_index to_ - weekday_index from) mod 7.

Lemma day_set_insert_range_spec s from to_ d :
  in_u 8 s ->
  day_set_contains (day_set_insert_range s from to_) d = in_day_range from to_ d || day_set_contains s d.
Proof.
  revert s. destruct from, to_, d; by_evaluation.
Qed.

(** ** Distinct topics *)

Lemma contains_spec l x : contains l x = true <-> x ∈ l.
Proof.
  unfold contains. rewrite existsb_exists. split.
  - intros (y & Hy & He). apply str_eqb_spec in He as ->. now apply list_elem_of_In.
  - intros Hx. exists x. split; [now apply list_elem_of_In|apply str_eqb_refl].
Qed.

(** Appending what is not yet there: no duplicates, same members. *)
Lemma push_distinct (l acc : list str) :
  NoDup acc ->
  let r := foldl (fun acc x => if contains acc x then acc else acc ++ [x]) acc l in
  NoDup r /\ forall x, x ∈ r <-> x ∈ acc \/ x ∈ l.
Proof.
  cbn zeta. revert acc. induction l as [|y l IH]; intros acc Hnd; cbn; [set_solver|].
  destruct (contains acc y) eqn:E.
  - apply contains_spec in E. destruct (IH acc Hnd) as [? Hm]. split; [done|].
    intros x. rewrite Hm, elem_of_cons. set_solver.
  - assert (y ∉ acc) as Hy by (intros Hy; apply contains_spec in Hy; congruence).
    destruct (IH (acc ++ [y])) as [? Hm].
    { apply list.NoDup_app. split; [done|]. split; [set_solver|]. apply NoDup_singleton. }
    split; [done|]. intros x. rewrite Hm. set_solver.
Qed.

End RulesModel.
