(* ===== verification/RulesLimits.v ===== *)
(** * The limits of a rule document

    src/crates/dali2rust-rules-model/src/{limits,error}.rs: [validate], which a
    document passes before it reaches the engine.  [count_action] is the
    expanded size of an action: a block call is inlined, a [repeat] multiplied.
    The recursion through block calls is bounded by the call depth the code
    checks first; here it is the fuel of [count_call], and
    [count_call_fuel] shows that [MAX_BLOCK_CALL_DEPTH] of it are enough.

    [validate_exact] characterises the accepted documents by the declarative
    [document_ok]; the expansion of an accepted rule by the engine is related to
    its count in RulesExec. *)

From stdpp Require Import gmap strings.
From S2P Require Import Prelude RulesBase RulesModel.

Module RulesLimits.
Import RulesModel.

Definition MAX_RULES : Z := 64.
Definition MAX_BLOCKS : Z := 16.
Definition MIN_TRIGGERS_PER_RULE : Z := 1.
Definition MAX_TRIGGERS_PER_RULE : Z := 4.
Definition MAX_CONDITIONS_PER_RULE : Z := 4.
Definition MIN_ACTIONS_PER_RULE : Z := 1.
Definition MAX_ACTIONS_PER_RULE : Z := 8.
Definition MAX_ACTIONS_EXPANDED : Z := 32.
Definition MAX_BLOCK_CALL_DEPTH : nat := 2.
Definition MAX_REPEAT : Z := 8.
Definition MAX_NAME_BYTES : Z := 48.
Definition MAX_VAR_TEXT_BYTES : Z := 16.
Definition MAX_MQTT_TOPIC_BYTES : Z := 48.
Definition MAX_MQTT_PAYLOAD_BYTES : Z := 48.
Definition MAX_MQTT_TRIGGER_TOPICS : Z := 8.
Definition MAX_SCHEDULE_ID_BYTES : Z := 32.
Definition UNICODE_PLANE_OFFSET_MASK : Z := 0xFFFF.
Definition UNICODE_FIRST_PLANE_END_NONCHARACTER : Z := 0xFFFE.
Definition MIN_EVERY_PERIOD_MS : Z := 1000.
Definition MAX_SCENE_CYCLE_ENTRIES : Z := 16.
Definition MAX_SCENE : Z := 15.
Definition MAX_LEVEL : Z := 254.
Definition MAX_INSTANCE_GROUP : Z := 31.
Definition MAX_STAT_NAMES : nat := 16.

(** [len()] of a [Vec]; [usize] is 32 bits wide on the target. *)
Definition len {A} (l : list A) : Z := Z.of_nat (length l).
Definition USIZE_BITS : Z := 32.

(** ** error.rs *)

Inductive ModelError :=
| ModelError_TooManyRules (count : Z)
| ModelError_TooManyBlocks (count : Z)
| ModelError_DuplicateRuleName (name : str)
| ModelError_DuplicateBlockName (name : str)
| ModelError_NameTooLong (name : str)
| ModelError_NoTriggers (rule : str)
| ModelError_TooManyTriggers (rule : str) (count : Z)
| ModelError_TooManyConditions (rule : str) (count : Z)
| ModelError_NoActions (owner : str)
| ModelError_TooManyActions (rule : str) (count : Z)
| ModelError_TooManyBlockActions (block : str) (count : Z)
| ModelError_UnresolvedBlock (block : str) (referenced_by : list str)
| ModelError_UnknownRuleReference (rule referenced_by : str)
| ModelError_CallDepthExceeded (rule block : str)
| ModelError_NestedRepeat (rule : str)
| ModelError_NestedConditional (rule : str)
| ModelError_NestedAfter (rule : str)
| ModelError_ExpandedActionsExceeded (rule : str) (count : Z)
| ModelError_RepeatCountOutOfRange (rule : str) (count : Z)
| ModelError_EveryPeriodTooShort (rule : str) (period_ms : Z)
| ModelError_VarTextTooLong (rule text : str)
| ModelError_MqttTopicTooLong (rule : str) (bytes : Z)
| ModelError_MqttPayloadTooLong (rule : str) (bytes : Z)
| ModelError_MqttTopicNotExact (rule topic : str)
| ModelError_TooManyMqttTopics (rule : str) (count : Z)
| ModelError_ScheduleIdTooLong (rule : str) (bytes : Z)
| ModelError_SceneCycleTooLong (rule : str) (count : Z)
| ModelError_SceneOutOfRange (rule : str) (scene : Z)
| ModelError_TooManyStatNames (owner : str) (count : Z)
| ModelError_StatNameNotPrintable (owner name : str)
| ModelError_StatNameTooLong (owner : str) (bytes : Z).

(** [ModelError::anchor]: the name under which the editor shows the error. *)
Definition anchor (e : ModelError) : option str :=
  match e with
  | ModelError_TooManyRules _ | ModelError_TooManyBlocks _ => None
  | ModelError_DuplicateRuleName name | ModelError_DuplicateBlockName name
  | ModelError_NameTooLong name => Some name
  | ModelError_NoTriggers rule | ModelError_TooManyTriggers rule _ | ModelError_TooManyConditions rule _
  | ModelError_TooManyActions rule _ | ModelError_UnknownRuleReference _ rule
  | ModelError_CallDepthExceeded rule _ | ModelError_NestedRepeat rule | ModelError_NestedConditional rule
  | ModelError_NestedAfter rule | ModelError_ExpandedActionsExceeded rule _
  | ModelError_RepeatCountOutOfRange rule _ | ModelError_EveryPeriodTooShort rule _
  | ModelError_VarTextTooLong rule _ | ModelError_MqttTopicTooLong rule _
  | ModelError_MqttPayloadTooLong rule _ | ModelError_MqttTopicNotExact rule _
  | ModelError_TooManyMqttTopics rule _ | ModelError_ScheduleIdTooLong rule _
  | ModelError_SceneCycleTooLong rule _ | ModelError_SceneOutOfRange rule _ => Some rule
  | ModelError_NoActions owner | ModelError_TooManyStatNames owner _
  | ModelError_StatNameNotPrintable owner _ | ModelError_StatNameTooLong owner _ => Some owner
  | ModelError_TooManyBlockActions block _ => Some block
  | ModelError_UnresolvedBlock _ referenced_by => head referenced_by
  end.

(** ** Expanded action counts *)

Record Ctx := mkCtx {
  ctx_rule : str;
  call_depth : nat;
  in_repeat : bool;
  in_conditional : bool;
  in_after : bool
}.
#[global] Instance Ctx_eta : Eta Ctx := fun c =>
  mkCtx (ctx_rule c) (call_depth c) (in_repeat c) (in_conditional c) (in_after c).
Definition ctx_root (rule : str) : Ctx := mkCtx rule 0 false false false.

(** The body of a nested action comes in as a function of the context it is counted in. *)
Definition counter : Type := Ctx -> Result Z ModelError.

Definition count_repeat (count : Z) (body : counter) : counter := fun ctx =>
  if in_repeat ctx then Err (ModelError_NestedRepeat (ctx_rule ctx))
  else if (count =? 0) || (MAX_REPEAT <? count)
  then Err (ModelError_RepeatCountOutOfRange (ctx_rule ctx) count)
  else let? inner := body (ctx <| in_repeat := true |>) in Ok (sat_mul USIZE_BITS inner count).

Definition count_conditional (then_body else_body : counter) : counter := fun ctx =>
  if in_conditional ctx then Err (ModelError_NestedConditional (ctx_rule ctx))
  else
    let nested := ctx <| in_conditional := true |> in
    let? then_count := then_body nested in
    let? else_count := else_body nested in
    Ok (sat_add USIZE_BITS (sat_add USIZE_BITS 1 then_count) else_count).

Definition count_after (body : counter) : counter := fun ctx =>
  if in_after ctx then Err (ModelError_NestedAfter (ctx_rule ctx))
  else let? inner := body (ctx <| in_after := true |>) in Ok (sat_add USIZE_BITS 1 inner).

Section Count.
Context (count_call : str -> counter).

(** The loop of [count_actions]. *)
Definition count_actions_with (count_action : Action -> counter) (ctx : Ctx) :
    Z -> list Action -> Result Z ModelError :=
  fix go (total : Z) (actions : list Action) :=
    match actions with
    | [] => Ok total
    | action :: actions =>
        match count_action action ctx with
        | Ok n => go (sat_add USIZE_BITS total n) actions
        | Err e => Err e
        end
    end.

Fixpoint count_action (action : Action) (ctx : Ctx) {struct action} : Result Z ModelError :=
  match action with
  | Action_Flow flow =>
      match flow with
      | FlowAction_Repeat count actions =>
          count_repeat count (fun c => count_actions_with count_action c 0 actions) ctx
      | FlowAction_Conditional _ then_actions else_actions =>
          count_conditional (fun c => count_actions_with count_action c 0 then_actions)
                            (fun c => count_actions_with count_action c 0 else_actions) ctx
      | FlowAction_After _ actions => count_after (fun c => count_actions_with count_action c 0 actions) ctx
      | FlowAction_Call block => count_call block ctx
      | _ => Ok 1
      end
  | _ => Ok 1
  end.

Definition count_actions (actions : list Action) (ctx : Ctx) : Result Z ModelError :=
  count_actions_with count_action ctx 0 actions.
End Count.

Fixpoint count_call (blocks : list DefBlock) (fuel : nat) (block : str) (ctx : Ctx) : Result Z ModelError :=
  if (MAX_BLOCK_CALL_DEPTH <? call_depth ctx + 1)%nat
  then Err (ModelError_CallDepthExceeded (ctx_rule ctx) block)
  else match find_block blocks block with
       | None => Err (ModelError_UnresolvedBlock block [ctx_rule ctx])
       | Some def =>
           match fuel with
           | O => Err (ModelError_CallDepthExceeded (ctx_rule ctx) block)
           | S fuel => count_actions (count_call blocks fuel) (block_actions def)
                         (ctx <| call_depth := (call_depth ctx + 1)%nat |>)
           end
       end.

Definition expanded_action_count (rule : Rule) (blocks : list DefBlock) : Result Z ModelError :=
  count_actions (count_call blocks MAX_BLOCK_CALL_DEPTH) (actions rule) (ctx_root (rule_name rule)).

(** ** Walking nested actions *)

(** [visit_nested] with the state its closure captures. *)
Section Visit.
Context {S : Type} (visit : S -> Action -> S).

Fixpoint visit_action (s : S) (action : Action) {struct action} : S :=
  let s := visit s action in
  let visit_nested := fix visit_nested (s : S) (actions : list Action) : S :=
    match actions with [] => s | a :: actions => visit_nested (visit_action s a) actions end in
  match action with
  | Action_Flow (FlowAction_After _ actions) | Action_Flow (FlowAction_Repeat _ actions) =>
      visit_nested s actions
  | Action_Flow (FlowAction_Conditional _ then_actions else_actions) =>
      visit_nested (visit_nested s then_actions) else_actions
  | _ => s
  end.

Definition visit_nested (s : S) (actions : list Action) : S := foldl visit_action s actions.
End Visit.

Definition walk_calls {S} (visit : S -> str -> S) (s : S) (actions : list Action) : S :=
  visit_nested (fun s action =>
    match action with Action_Flow (FlowAction_Call block) => visit s block | _ => s end) s actions.

Section WalkRuleRefs.
Context (visit : str -> Result unit ModelError).

Fixpoint walk_rule_ref (action : Action) : Result unit ModelError :=
  match action with
  | Action_State (StateAction_RuleEnable rule) | Action_State (StateAction_RuleDisable rule) => visit rule
  | Action_Flow (FlowAction_After _ actions) | Action_Flow (FlowAction_Repeat _ actions) =>
      try_each walk_rule_ref actions
  | Action_Flow (FlowAction_Conditional _ then_actions else_actions) =>
      let? _ := try_each walk_rule_ref then_actions in try_each walk_rule_ref else_actions
  | _ => Ok tt
  end.

Definition walk_rule_refs (actions : list Action) : Result unit ModelError := try_each walk_rule_ref actions.
End WalkRuleRefs.

(** ** The checks, in the order of [validate] *)

Definition check_document_counts (set : RuleSet) : Result unit ModelError :=
  if MAX_RULES <? len (rules set) then Err (ModelError_TooManyRules (len (rules set)))
  else if MAX_BLOCKS <? len (blocks set) then Err (ModelError_TooManyBlocks (len (blocks set)))
  else Ok tt.

Definition check_name_bytes (name : str) : Result unit ModelError :=
  if MAX_NAME_BYTES <? str_len name then Err (ModelError_NameTooLong name) else Ok tt.

(** One of the two loops of [check_unique_names]: [seen] is the names pushed so far. *)
Fixpoint unique_names (duplicate : str -> ModelError) (seen : list str) (names : list str)
    : Result unit ModelError :=
  match names with
  | [] => Ok tt
  | name :: names =>
      let? _ := check_name_bytes name in
      if contains seen name then Err (duplicate name) else unique_names duplicate (seen ++ [name]) names
  end.

Definition check_unique_names (set : RuleSet) : Result unit ModelError :=
  let? _ := unique_names ModelError_DuplicateRuleName [] (map rule_name (rules set)) in
  unique_names ModelError_DuplicateBlockName [] (map block_name (blocks set)).

(** The [visit] closure of [check_block_references]; its state is [missing]. *)
Definition visit_missing (set : RuleSet) (owner : str) (missing : option (str * list str)) (block : str)
    : option (str * list str) :=
  match set_block set block with
  | Some _ => missing
  | None =>
      match missing with
      | Some (name, refs) =>
          if str_eqb name block
          then if contains refs owner then missing else Some (name, refs ++ [owner])
          else missing
      | None => Some (block, [owner])
      end
  end.

(** The owners of action lists: the rules, then the blocks. *)
Definition owners (set : RuleSet) : list (str * list Action) :=
  map (fun r => (rule_name r, actions r)) (rules set) ++
  map (fun b => (block_name b, block_actions b)) (blocks set).

Definition check_block_references (set : RuleSet) : Result unit ModelError :=
  match foldl (fun missing '(owner, acts) => walk_calls (visit_missing set owner) missing acts)
              None (owners set) with
  | Some (block, referenced_by) => Err (ModelError_UnresolvedBlock block referenced_by)
  | None => Ok tt
  end.

Definition require_rule (set : RuleSet) (target owner : str) : Result unit ModelError :=
  match set_rule set target with
  | None => Err (ModelError_UnknownRuleReference target owner)
  | Some _ => Ok tt
  end.

Definition check_condition_rule_ref (set : RuleSet) (owner : str) (condition : Condition)
    : Result unit ModelError :=
  match condition with
  | Condition_RuleEnabled rule | Condition_LastFiredOlderThan rule _ => require_rule set rule owner
  | _ => Ok tt
  end.

Definition check_trigger_rule_ref (set : RuleSet) (owner : str) (trigger : Trigger) : Result unit ModelError :=
  match trigger with
  | Trigger_RuleFails target => require_rule set target owner
  | _ => Ok tt
  end.

Definition check_one_rule_references (set : RuleSet) (rule : Rule) : Result unit ModelError :=
  let? _ := try_each (check_trigger_rule_ref set (rule_name rule)) (triggers rule) in
  let? _ := try_each (check_condition_rule_ref set (rule_name rule)) (conditions rule) in
  walk_rule_refs (fun target => require_rule set target (rule_name rule)) (actions rule).

Definition check_rule_references (set : RuleSet) : Result unit ModelError :=
  let? _ := try_each (check_one_rule_references set) (rules set) in
  try_each (fun def => walk_rule_refs (fun target => require_rule set target (block_name def))
                         (block_actions def)) (blocks set).

Definition refused_in_mqtt_topic (c : Z) : bool :=
  (c =? 43) || (c =? 35) || is_control c || ((0xFDD0 <=? c) && (c <=? 0xFDEF)) ||
  (UNICODE_FIRST_PLANE_END_NONCHARACTER <=? Z.land c UNICODE_PLANE_OFFSET_MASK).

Definition mqtt_topic_is_exact (topic : str) : bool :=
  negb (bool_decide (topic = [])) && negb (existsb refused_in_mqtt_topic topic).

Definition check_mqtt_topic (owner topic : str) : Result unit ModelError :=
  if negb (mqtt_topic_is_exact topic) then Err (ModelError_MqttTopicNotExact owner topic)
  else if MAX_MQTT_TOPIC_BYTES <? str_len topic then Err (ModelError_MqttTopicTooLong owner (str_len topic))
  else Ok tt.

Definition check_mqtt_payload (owner payload : str) : Result unit ModelError :=
  if MAX_MQTT_PAYLOAD_BYTES <? str_len payload
  then Err (ModelError_MqttPayloadTooLong owner (str_len payload)) else Ok tt.

Definition check_mqtt_trigger (rule topic : str) (payload : option str) : Result unit ModelError :=
  let? _ := check_mqtt_topic rule topic in
  match payload with None => Ok tt | Some literal => check_mqtt_payload rule literal end.

(** [for (index, rule) in rules.iter().enumerate()]: the topics of [rules[..=index]]. *)
Fixpoint mqtt_topic_counts (before rest : list Rule) : Result unit ModelError :=
  match rest with
  | [] => Ok tt
  | rule :: rest =>
      let upto := before ++ [rule] in
      let count := len (distinct_mqtt_topics (concat (map triggers upto))) in
      if MAX_MQTT_TRIGGER_TOPICS <? count then Err (ModelError_TooManyMqttTopics (rule_name rule) count)
      else mqtt_topic_counts upto rest
  end.
Definition check_mqtt_topic_count (set : RuleSet) : Result unit ModelError := mqtt_topic_counts [] (rules set).

(** [stat_names_with_owners]: each name once, with the first owner that names it. *)
Definition visit_stat (owner : str) (names : list (str * str)) (action : Action) : list (str * str) :=
  match action with
  | Action_State (StateAction_StatCount name) =>
      if contains (map fst names) name then names else names ++ [(name, owner)]
  | _ => names
  end.
Definition stat_names_with_owners (set : RuleSet) : list (str * str) :=
  foldl (fun names '(owner, acts) => visit_nested (visit_stat owner) names acts) [] (owners set).
Definition stat_names (set : RuleSet) : list str := map fst (stat_names_with_owners set).

Definition stat_name_is_printable (name : str) : bool := negb (existsb is_control name).

Definition check_stat_name (owner name : str) : Result unit ModelError :=
  if negb (stat_name_is_printable name) then Err (ModelError_StatNameNotPrintable owner name)
  else if MAX_NAME_BYTES <? str_len name then Err (ModelError_StatNameTooLong owner (str_len name))
  else Ok tt.

Definition check_stat_names (set : RuleSet) : Result unit ModelError :=
  let names := stat_names_with_owners set in
  let? _ := try_each (fun '(name, owner) => check_stat_name owner name) names in
  match names !! MAX_STAT_NAMES with
  | Some (_, owner) => Err (ModelError_TooManyStatNames owner (len names))
  | None => Ok tt
  end.

Definition check_condition_payload (rule : str) (condition : Condition) : Result unit ModelError :=
  match condition with
  | Condition_VarCompare _ _ (VarOperand_Text text) =>
      if MAX_VAR_TEXT_BYTES <? str_len text then Err (ModelError_VarTextTooLong rule text) else Ok tt
  | _ => Ok tt
  end.

Definition literal_scene (owner : str) (e : ValueExpr) : Result unit ModelError :=
  match e with
  | ValueExpr_Literal n =>
      if (n <? 0) || (MAX_SCENE <? n)
      then Err (ModelError_SceneOutOfRange owner (Z.max 0 (Z.min 255 n))) else Ok tt
  | _ => Ok tt
  end.

Definition check_scene_payload (owner : str) (scene : SceneAction) : Result unit ModelError :=
  match scene with
  | SceneAction_Recall scene _ | SceneAction_Apply scene => literal_scene owner scene
  | SceneAction_Cycle scenes =>
      if MAX_SCENE_CYCLE_ENTRIES <? len scenes then Err (ModelError_SceneCycleTooLong owner (len scenes))
      else match find (fun s => MAX_SCENE <? s) scenes with
           | Some s => Err (ModelError_SceneOutOfRange owner s)
           | None => Ok tt
           end
  end.

Definition check_state_payload (owner : str) (state : StateAction) : Result unit ModelError :=
  match state with
  | StateAction_VarSet _ (VarValue_Text text) =>
      if MAX_VAR_TEXT_BYTES <? str_len text then Err (ModelError_VarTextTooLong owner text) else Ok tt
  | StateAction_MqttPublish topic payload _ =>
      let? _ := check_mqtt_topic owner topic in check_mqtt_payload owner payload
  | _ => Ok tt
  end.

Definition check_hcl_payload (owner : str) (hcl : HclAction) : Result unit ModelError :=
  match hcl with
  | HclAction_Enable schedule | HclAction_Disable schedule =>
      if MAX_SCHEDULE_ID_BYTES <? str_len schedule
      then Err (ModelError_ScheduleIdTooLong owner (str_len schedule)) else Ok tt
  | _ => Ok tt
  end.

(** [check_action_payload], [check_flow_payload]. *)
Fixpoint check_action_payload (owner : str) (action : Action) : Result unit ModelError :=
  match action with
  | Action_Scene scene => check_scene_payload owner scene
  | Action_State state => check_state_payload owner state
  | Action_Flow (FlowAction_After _ actions) | Action_Flow (FlowAction_Repeat _ actions) =>
      try_each (check_action_payload owner) actions
  | Action_Flow (FlowAction_Conditional condition then_actions else_actions) =>
      let? _ := check_condition_payload owner condition in
      let? _ := try_each (check_action_payload owner) then_actions in
      try_each (check_action_payload owner) else_actions
  | Action_Hcl hcl => check_hcl_payload owner hcl
  | _ => Ok tt
  end.

Definition check_block_shape (block : DefBlock) : Result unit ModelError :=
  if bool_decide (block_actions block = []) then Err (ModelError_NoActions (block_name block))
  else if MAX_ACTIONS_EXPANDED <? len (block_actions block)
  then Err (ModelError_TooManyBlockActions (block_name block) (len (block_actions block)))
  else try_each (check_action_payload (block_name block)) (block_actions block).

Definition check_trigger (rule : str) (trigger : Trigger) : Result unit ModelError :=
  match trigger with
  | Trigger_Every period_ms =>
      if period_ms <? MIN_EVERY_PERIOD_MS then Err (ModelError_EveryPeriodTooShort rule period_ms) else Ok tt
  | Trigger_MqttMessage topic payload => check_mqtt_trigger rule topic payload
  | _ => Ok tt
  end.

Definition check_rule_shape (rule : Rule) : Result unit ModelError :=
  if len (triggers rule) <? MIN_TRIGGERS_PER_RULE then Err (ModelError_NoTriggers (rule_name rule))
  else if MAX_TRIGGERS_PER_RULE <? len (triggers rule)
  then Err (ModelError_TooManyTriggers (rule_name rule) (len (triggers rule)))
  else if MAX_CONDITIONS_PER_RULE <? len (conditions rule)
  then Err (ModelError_TooManyConditions (rule_name rule) (len (conditions rule)))
  else if len (actions rule) <? MIN_ACTIONS_PER_RULE then Err (ModelError_NoActions (rule_name rule))
  else if MAX_ACTIONS_PER_RULE <? len (actions rule)
  then Err (ModelError_TooManyActions (rule_name rule) (len (actions rule)))
  else try_each (check_trigger (rule_name rule)) (triggers rule).

Definition check_rule_payloads (rule : Rule) : Result unit ModelError :=
  let? _ := try_each (check_condition_payload (rule_name rule)) (conditions rule) in
  try_each (check_action_payload (rule_name rule)) (actions rule).

(** The last loop of [validate]. *)
Definition check_rule (set : RuleSet) (rule : Rule) : Result unit ModelError :=
  let? _ := check_rule_shape rule in
  let? _ := check_rule_payloads rule in
  let? count := expanded_action_count rule (blocks set) in
  if MAX_ACTIONS_EXPANDED <? count
  then Err (ModelError_ExpandedActionsExceeded (rule_name rule) count) else Ok tt.

Definition validate (set : RuleSet) : Result unit ModelError :=
  let? _ := check_document_counts set in
  let? _ := check_unique_names set in
  let? _ := check_block_references set in
  let? _ := check_rule_references set in
  let? _ := check_mqtt_topic_count set in
  let? _ := check_stat_names set in
  let? _ := try_each check_block_shape (blocks set) in
  try_each (check_rule set) (rules set).

(** * Facts *)

(** ** Nested actions as a list

    [subactions] lists an action and everything nested in it, in the order the
    visitors and the payload checks meet it. *)

Fixpoint subactions (action : Action) : list Action :=
  action ::
  match action with
  | Action_Flow (FlowAction_After _ actions) | Action_Flow (FlowAction_Repeat _ actions) =>
      concat (map subactions actions)
  | Action_Flow (FlowAction_Conditional _ then_actions else_actions) =>
      concat (map subactions then_actions) ++ concat (map subactions else_actions)
  | _ => []
  end.
Definition all_actions (actions : list Action) : list Action := concat (map subactions actions).

Lemma try_each_app {A E} (f : A -> Result unit E) l1 l2 :
  try_each f (l1 ++ l2) = let? _ := try_each f l1 in try_each f l2.
Proof. induction l1 as [|x l1 IH]; cbn; [done|]. now destruct (f x). Qed.

Lemma try_each_concat {A B E} (f : B -> Result unit E) (g : A -> list B) l :
  try_each f (concat (map g l)) = try_each (fun x => try_each f (g x)) l.
Proof.
  induction l as [|x l IH]; cbn; [done|]. rewrite try_each_app, IH. now destruct (try_each f (g x)).
Qed.

Lemma try_each_ext {A E} (f g : A -> Result unit E) l :
  Forall (fun x => f x = g x) l -> try_each f l = try_each g l.
Proof. induction 1 as [|x l Hx _ IH]; cbn; [done|]. rewrite Hx, IH. done. Qed.

Lemma all_actions_elem x l : x ∈ all_actions l <-> exists a, a ∈ l /\ x ∈ subactions a.
Proof.
  unfold all_actions. rewrite list_elem_of_In, in_concat. split.
  - intros (k & Hk & Hx). apply in_map_iff in Hk as (a & <- & Ha). exists a. now rewrite !list_elem_of_In.
  - intros (a & Ha%list_elem_of_In & Hx%list_elem_of_In). exists (subactions a). split; [now apply in_map|done].
Qed.

(** The members of the lists an action carries. *)
Definition sublists (a : Action) : list Action :=
  match a with
  | Action_Flow (FlowAction_After _ l) | Action_Flow (FlowAction_Repeat _ l) => l
  | Action_Flow (FlowAction_Conditional _ l1 l2) => l1 ++ l2
  | _ => []
  end.

Lemma subactions_eq a : subactions a = a :: all_actions (sublists a).
Proof.
  destruct a as [| | | |f|]; try done. destruct f; try done. cbn. f_equal.
  unfold all_actions. now rewrite map_app, concat_app.
Qed.

Lemma subactions_trans d x y : x ∈ subactions d -> y ∈ sublists x -> y ∈ subactions d.
Proof.
  revert x. assert (forall l, Forall (fun d => forall x, x ∈ subactions d -> y ∈ sublists x -> y ∈ subactions d) l ->
    forall x, x ∈ all_actions l -> y ∈ sublists x -> y ∈ all_actions l) as Hl.
  { intros l HF x (a & Ha & Hx)%all_actions_elem Hy. apply all_actions_elem. exists a. split; [done|].
    rewrite List.Forall_forall in HF. apply (HF a (proj1 (list_elem_of_In _ _) Ha) x); done. }
  induction d as [d Hd|w|w l IH|t w|t w|t|bk|cn l IH|cn l1 l2 IH1 IH2] using Action_nested_ind;
    intros x Hx Hy; rewrite subactions_eq in Hx |- *; apply elem_of_cons in Hx as [->|Hx]; right;
    try (apply all_actions_elem; exists y; split; [done|rewrite subactions_eq; left]).
  - destruct d as [| | | |f|]; [cbn in Hx; set_solver..|now destruct (Hd f)|cbn in Hx; set_solver].
  - cbn in Hx. set_solver.
  - now apply (Hl l IH x).
  - cbn in Hx. set_solver.
  - cbn in Hx. set_solver.
  - cbn in Hx. set_solver.
  - cbn in Hx. set_solver.
  - now apply (Hl l IH x).
  - apply (Hl (l1 ++ l2)) with x; [|done|done]. now apply Forall_app.
Qed.

(** A check that only descends is a check of every nested action. *)
Definition leaf_payload (owner : str) (action : Action) : Result unit ModelError :=
  match action with
  | Action_Scene scene => check_scene_payload owner scene
  | Action_State state => check_state_payload owner state
  | Action_Flow (FlowAction_Conditional condition _ _) => check_condition_payload owner condition
  | Action_Hcl hcl => check_hcl_payload owner hcl
  | _ => Ok tt
  end.

Lemma check_action_payload_leaves owner a :
  check_action_payload owner a = try_each (leaf_payload owner) (subactions a).
Proof.
  induction a using Action_nested_ind; try reflexivity.
  - destruct a; cbn; try (destruct (check_scene_payload owner a) as [[]|]; reflexivity);
      try (destruct (check_state_payload owner a) as [[]|]; reflexivity);
      try (destruct (check_hcl_payload owner a) as [[]|]; reflexivity); try reflexivity.
    exfalso. eapply H. reflexivity.
  - cbn. rewrite try_each_concat. now apply try_each_ext.
  - cbn. rewrite try_each_concat. now apply try_each_ext.
  - cbn. rewrite try_each_app, !try_each_concat.
    rewrite (try_each_ext _ _ _ H), (try_each_ext _ _ _ H0).
    now destruct (check_condition_payload owner c) as [[]|].
Qed.

Definition leaf_rule_ref (visit : str -> Result unit ModelError) (action : Action) : Result unit ModelError :=
  match action with
  | Action_State (StateAction_RuleEnable rule) | Action_State (StateAction_RuleDisable rule) => visit rule
  | _ => Ok tt
  end.

Lemma walk_rule_ref_leaves visit a :
  walk_rule_ref visit a = try_each (leaf_rule_ref visit) (subactions a).
Proof.
  induction a using Action_nested_ind; try reflexivity.
  - destruct a; cbn; try reflexivity; [exfalso; eapply H; reflexivity|].
    destruct a; try reflexivity; now destruct (visit rule) as [[]|].
  - cbn. rewrite try_each_concat. now apply try_each_ext.
  - cbn. rewrite try_each_concat. now apply try_each_ext.
  - cbn. rewrite try_each_app, !try_each_concat.
    now rewrite (try_each_ext _ _ _ H), (try_each_ext _ _ _ H0).
Qed.

Lemma walk_rule_refs_leaves visit l : walk_rule_refs visit l = try_each (leaf_rule_ref visit) (all_actions l).
Proof.
  unfold walk_rule_refs, all_actions. rewrite try_each_concat. apply try_each_ext, Forall_forall.
  intros. apply walk_rule_ref_leaves.
Qed.

Section VisitFacts.
Context {S : Type} (visit : S -> Action -> S).

Lemma foldl_concat {B} (f : S -> B -> S) (g : Action -> list B) l s :
  foldl f s (concat (map g l)) = foldl (fun s x => foldl f s (g x)) s l.
Proof. revert s. induction l as [|x l IH]; intros s; cbn; [done|]. now rewrite foldl_app, IH. Qed.

Lemma visit_action_leaves a : forall s, visit_action visit s a = foldl visit s (subactions a).
Proof.
  assert (forall l, Forall (fun a => forall s, visit_action visit s a = foldl visit s (subactions a)) l ->
    forall s, (fix visit_nested (s : S) (actions : list Action) : S :=
      match actions with [] => s | a :: actions => visit_nested (visit_action visit s a) actions end) s l =
    foldl visit s (concat (map subactions l))) as Hl.
  { induction 1 as [|x l Hx _ IH]; intros s; cbn; [done|]. now rewrite IH, Hx, foldl_app. }
  induction a using Action_nested_ind; intros s; cbn; rewrite ?foldl_app; try done.
  - destruct a; try done. exfalso. eapply H. done.
  - now apply Hl.
  - now apply Hl.
  - rewrite (Hl _ H), (Hl _ H0). done.
Qed.

Lemma visit_nested_leaves l s : visit_nested visit s l = foldl visit s (all_actions l).
Proof.
  unfold visit_nested, all_actions. rewrite foldl_concat. revert s.
  induction l as [|x l IH]; intros s; cbn; [done|]. now rewrite visit_action_leaves, IH.
Qed.
End VisitFacts.

(** The accumulated fold over the owners is one fold over all actions with their owner. *)
Definition owned_actions (set : RuleSet) : list (str * Action) :=
  concat (map (fun '(owner, acts) => map (pair owner) (all_actions acts)) (owners set)).

Lemma fold_owners {S} (visit : str -> S -> Action -> S) set s :
  foldl (fun s '(owner, acts) => visit_nested (visit owner) s acts) s (owners set) =
  foldl (fun s '(owner, a) => visit owner s a) s (owned_actions set).
Proof.
  unfold owned_actions. revert s. induction (owners set) as [|[o acts] l IH]; intros s; cbn; [done|].
  rewrite foldl_app, IH, visit_nested_leaves. f_equal. clear.
  revert s. induction (all_actions acts) as [|a l IH]; intros s; cbn; [done|]. apply IH.
Qed.

(** ** Expansion

    [reach blocks ctx a ctx' a']: counting [a] in context [ctx] meets the action
    [a'] in context [ctx'].  [expand_error] is the refusal an action deserves in
    its context. *)

Inductive reach (blocks : list DefBlock) : Ctx -> Action -> Ctx -> Action -> Prop :=
| reach_self ctx a : reach blocks ctx a ctx a
| reach_after ctx d l x ctx' a' :
    x ∈ l -> reach blocks (ctx <| in_after := true |>) x ctx' a' ->
    reach blocks ctx (Action_Flow (FlowAction_After d l)) ctx' a'
| reach_repeat ctx c l x ctx' a' :
    x ∈ l -> reach blocks (ctx <| in_repeat := true |>) x ctx' a' ->
    reach blocks ctx (Action_Flow (FlowAction_Repeat c l)) ctx' a'
| reach_conditional ctx c l1 l2 x ctx' a' :
    x ∈ l1 ++ l2 -> reach blocks (ctx <| in_conditional := true |>) x ctx' a' ->
    reach blocks ctx (Action_Flow (FlowAction_Conditional c l1 l2)) ctx' a'
| reach_call ctx b def x ctx' a' :
    find_block blocks b = Some def -> x ∈ block_actions def ->
    reach blocks (ctx <| call_depth := (call_depth ctx + 1)%nat |>) x ctx' a' ->
    reach blocks ctx (Action_Flow (FlowAction_Call b)) ctx' a'.

Definition expand_error (blocks : list DefBlock) (ctx : Ctx) (a : Action) : option ModelError :=
  match a with
  | Action_Flow (FlowAction_Repeat count _) =>
      if in_repeat ctx then Some (ModelError_NestedRepeat (ctx_rule ctx))
      else if (1 <=? count) && (count <=? MAX_REPEAT) then None
      else Some (ModelError_RepeatCountOutOfRange (ctx_rule ctx) count)
  | Action_Flow (FlowAction_Conditional _ _ _) =>
      if in_conditional ctx then Some (ModelError_NestedConditional (ctx_rule ctx)) else None
  | Action_Flow (FlowAction_After _ _) =>
      if in_after ctx then Some (ModelError_NestedAfter (ctx_rule ctx)) else None
  | Action_Flow (FlowAction_Call b) =>
      if (call_depth ctx <? MAX_BLOCK_CALL_DEPTH)%nat
      then match find_block blocks b with
           | Some _ => None
           | None => Some (ModelError_UnresolvedBlock b [ctx_rule ctx])
           end
      else Some (ModelError_CallDepthExceeded (ctx_rule ctx) b)
  | _ => None
  end.

(** A [repeat] count is a [u8] in every action of the document. *)
Definition count_is_u8 (a : Action) : Prop :=
  match a with Action_Flow (FlowAction_Repeat count _) => in_u 8 count | _ => True end.
Definition counts_u8 (l : list Action) : Prop := Forall count_is_u8 (all_actions l).
Definition blocks_u8 (blocks : list DefBlock) : Prop := Forall (fun d => counts_u8 (block_actions d)) blocks.

Lemma subaction_self a : a ∈ subactions a.
Proof. destruct a as [| | | |f|]; [..|destruct f|]; left. Qed.

Lemma counts_u8_elem l x : counts_u8 l -> x ∈ l -> counts_u8 [x].
Proof.
  unfold counts_u8, all_actions. cbn. rewrite app_nil_r. intros H Hx.
  rewrite !List.Forall_forall in *. intros y Hy. apply H, in_concat. exists (subactions x).
  split; [now apply in_map, list_elem_of_In|done].
Qed.

Lemma counts_u8_app l1 l2 : counts_u8 (l1 ++ l2) <-> counts_u8 l1 /\ counts_u8 l2.
Proof. unfold counts_u8, all_actions. now rewrite map_app, concat_app, Forall_app. Qed.

Lemma counts_u8_1 a :
  counts_u8 [a] <-> count_is_u8 a /\
  match a with
  | Action_Flow (FlowAction_After _ l) | Action_Flow (FlowAction_Repeat _ l) => counts_u8 l
  | Action_Flow (FlowAction_Conditional _ l1 l2) => counts_u8 l1 /\ counts_u8 l2
  | _ => True
  end.
Proof.
  unfold counts_u8, all_actions. destruct a as [| | | |f|]; [..|destruct f|];
    cbn; rewrite ?app_nil_r, Forall_cons_iff, ?Forall_app; intuition constructor.
Qed.

Section CountReach.
Context (blocks : list DefBlock) (Hblocks : blocks_u8 blocks).

Definition verdict_of (ctx : Ctx) (a : Action) (r : Result Z ModelError) : Prop :=
  match r with
  | Ok _ => forall c y, reach blocks ctx a c y -> expand_error blocks c y = None
  | Err e => exists c y, reach blocks ctx a c y /\ expand_error blocks c y = Some e
  end.

(** The same for the members of a list. *)
Definition verdict_list (ctx : Ctx) (l : list Action) (r : Result Z ModelError) : Prop :=
  match r with
  | Ok _ => forall x c y, x ∈ l -> reach blocks ctx x c y -> expand_error blocks c y = None
  | Err e => exists x c y, x ∈ l /\ reach blocks ctx x c y /\ expand_error blocks c y = Some e
  end.

Definition counts_well (f : Action -> counter) (d : nat) (a : Action) : Prop :=
  forall ctx, call_depth ctx = d -> counts_u8 [a] -> verdict_of ctx a (f a ctx).

Lemma members_verdict (f : Action -> counter) ctx l total :
  counts_u8 l -> Forall (counts_well f (call_depth ctx)) l ->
  verdict_list ctx l (count_actions_with f ctx total l).
Proof.
  intros Hu HF. revert total Hu. induction HF as [|x l Hx HF IH]; intros total Hu; cbn; [set_solver|].
  change (x :: l) with ([x] ++ l) in Hu. apply counts_u8_app in Hu as [Hu1 Hu2].
  specialize (Hx ctx eq_refl Hu1). destruct (f x ctx) as [n|e].
  - specialize (IH (sat_add USIZE_BITS total n) Hu2). destruct (count_actions_with _ _ _ l) as [m|e]; cbn in *.
    + intros z c y [->|Hz]%elem_of_cons Hr; eauto.
    + destruct IH as (z & c & y & Hz & Hr). exists z, c, y. split; [now right|done].
  - destruct Hx as (c & y & Hr). exists x, c, y. split; [left|done].
Qed.

(** Inversion of [reach]: the action itself, or one reached through a member of its body. *)
Definition body_of (ctx : Ctx) (a : Action) : list Action * Ctx :=
  match a with
  | Action_Flow (FlowAction_After _ l) => (l, ctx <| in_after := true |>)
  | Action_Flow (FlowAction_Repeat _ l) => (l, ctx <| in_repeat := true |>)
  | Action_Flow (FlowAction_Conditional _ l1 l2) => (l1 ++ l2, ctx <| in_conditional := true |>)
  | Action_Flow (FlowAction_Call b) =>
      match find_block blocks b with
      | Some def => (block_actions def, ctx <| call_depth := (call_depth ctx + 1)%nat |>)
      | None => ([], ctx)
      end
  | _ => ([], ctx)
  end.

Lemma reach_body ctx a c y :
  reach blocks ctx a c y <->
  (c = ctx /\ y = a) \/ exists x, x ∈ fst (body_of ctx a) /\ reach blocks (snd (body_of ctx a)) x c y.
Proof.
  split.
  - destruct 1; [now left|..]; right; cbn; eauto. rewrite H. eauto.
  - intros [[-> ->]|(x & Hx & Hr)]; [constructor|].
    destruct a as [| | | |f|]; try (cbn in Hx; set_solver).
    destruct f; try (cbn in Hx; set_solver); cbn in Hx, Hr; [econstructor; eauto..| |econstructor; eauto|econstructor; eauto].
    destruct (find_block blocks block) eqn:E; [|cbn in Hx; set_solver]. econstructor; eauto.
Qed.

Lemma verdict_body ctx a r :
  expand_error blocks ctx a = None ->
  verdict_list (snd (body_of ctx a)) (fst (body_of ctx a)) r -> verdict_of ctx a r.
Proof.
  intros Hself. destruct r as [n|e]; cbn.
  - intros Hl c y [[-> ->]|(x & Hx & Hr)]%reach_body; eauto.
  - intros (x & c & y & Hx & Hr & He). exists c, y. split; [apply reach_body; eauto|done].
Qed.

Lemma verdict_leaf ctx a n :
  expand_error blocks ctx a = None -> fst (body_of ctx a) = [] -> verdict_of ctx a (Ok n).
Proof. intros He Hb. apply verdict_body; [done|]. cbn. rewrite Hb. set_solver. Qed.

Lemma verdict_self ctx a e : expand_error blocks ctx a = Some e -> verdict_of ctx a (Err e).
Proof. intros He. exists ctx, a. split; [constructor|done]. Qed.

Lemma verdict_map ctx l r (f : Z -> Z) :
  verdict_list ctx l r -> verdict_list ctx l (match r with Ok n => Ok (f n) | Err e => Err e end).
Proof. now destruct r. Qed.

Lemma verdict_both ctx l1 l2 r1 r2 (f : Z -> Z -> Z) :
  verdict_list ctx l1 r1 -> verdict_list ctx l2 r2 ->
  verdict_list ctx (l1 ++ l2)
    (match r1 with Ok n => match r2 with Ok m => Ok (f n m) | Err e => Err e end | Err e => Err e end).
Proof.
  destruct r1 as [n|e]; cbn; [|intros (x & c & y & ?) _; exists x, c, y; set_solver].
  destruct r2 as [m|e]; cbn; [set_solver|]. intros _ (x & c & y & ?). exists x, c, y. set_solver.
Qed.

Lemma find_block_u8 b def : find_block blocks b = Some def -> counts_u8 (block_actions def).
Proof.
  intros [Hin _]%find_elem. unfold blocks_u8 in Hblocks. rewrite List.Forall_forall in Hblocks.
  now apply Hblocks, list_elem_of_In.
Qed.

Lemma repeat_in_range c : in_u 8 c -> (1 <=? c) && (c <=? MAX_REPEAT) = negb ((c =? 0) || (MAX_REPEAT <? c)).
Proof. unfold in_u, MAX_REPEAT. lia. Qed.

Lemma count_action_verdict (call : str -> counter) d a :
  (forall b ctx, call_depth ctx = d -> verdict_of ctx (Action_Flow (FlowAction_Call b)) (call b ctx)) ->
  counts_well (count_action call) d a.
Proof.
  intros Hcall. induction a as [a Hl|w|w l IH|t w|t w|t|b|c l IH|c l1 l2 IH1 IH2] using Action_nested_ind;
    intros ctx <- Hu; apply counts_u8_1 in Hu as [Hself Hu]; try (now apply verdict_leaf).
  - destruct a; try (now apply verdict_leaf). now destruct (Hl a).
  - cbn. unfold count_after. destruct (in_after ctx) eqn:E; [apply verdict_self; cbn; now rewrite E|].
    apply verdict_body; [cbn; now rewrite E|]. now apply verdict_map, members_verdict.
  - now apply Hcall.
  - cbn. unfold count_repeat. destruct (in_repeat ctx) eqn:E; [apply verdict_self; cbn; now rewrite E|].
    pose proof (repeat_in_range c Hself) as Hr.
    destruct ((c =? 0) || (MAX_REPEAT <? c)); [apply verdict_self; cbn; now rewrite E, Hr|].
    apply verdict_body; [cbn; now rewrite E, Hr|]. now apply verdict_map, members_verdict.
  - cbn. unfold count_conditional. destruct Hu as [Hu1 Hu2].
    destruct (in_conditional ctx) eqn:E; [apply verdict_self; cbn; now rewrite E|].
    apply verdict_body; [cbn; now rewrite E|].
    apply (verdict_both _ _ _ _ _ (fun n m => sat_add USIZE_BITS (sat_add USIZE_BITS 1 n) m));
      now apply members_verdict.
Qed.

(** With a fuel that covers the call depth left, the fuel case is never taken. *)
Lemma count_call_verdict fuel : forall b ctx,
  (MAX_BLOCK_CALL_DEPTH <= call_depth ctx + fuel)%nat ->
  verdict_of ctx (Action_Flow (FlowAction_Call b)) (count_call blocks fuel b ctx).
Proof.
  assert (forall b ctx, (MAX_BLOCK_CALL_DEPTH < call_depth ctx + 1)%nat ->
    verdict_of ctx (Action_Flow (FlowAction_Call b)) (Err (ModelError_CallDepthExceeded (ctx_rule ctx) b)))
    as Hdeep.
  { intros b ctx Hlt. apply verdict_self. cbn -[Nat.ltb].
    assert ((call_depth ctx <? MAX_BLOCK_CALL_DEPTH)%nat = false) as -> by (apply Nat.ltb_ge; lia). done. }
  induction fuel as [|fuel IH]; intros b ctx Hf; cbn [count_call];
    (destruct (Nat.ltb_spec MAX_BLOCK_CALL_DEPTH (call_depth ctx + 1)) as [Hlt|Hge]; [now apply Hdeep|]);
    [lia|].
  assert ((call_depth ctx <? MAX_BLOCK_CALL_DEPTH)%nat = true) as Hd by (apply Nat.ltb_lt; lia).
  destruct (find_block blocks b) as [def|] eqn:Hb; [|apply verdict_self; cbn -[Nat.ltb]; now rewrite Hd, Hb].
  apply verdict_body; [cbn -[Nat.ltb]; now rewrite Hd, Hb|]. cbn. rewrite Hb. cbn.
  apply members_verdict; [exact (find_block_u8 b def Hb)|]. apply List.Forall_forall. intros x _.
  apply count_action_verdict. intros b' ctx' Hd'. apply IH. cbn in Hd'. lia.
Qed.

(** Counting a rule: [Ok] exactly when nothing it reaches deserves a refusal. *)
Lemma count_actions_verdict l ctx :
  counts_u8 l -> call_depth ctx = 0%nat ->
  verdict_list ctx l (count_actions (count_call blocks MAX_BLOCK_CALL_DEPTH) l ctx).
Proof.
  intros Hu Hd. apply members_verdict; [done|]. apply List.Forall_forall. intros x _.
  apply count_action_verdict. intros b c Hc. apply count_call_verdict. lia.
Qed.
End CountReach.

(** ** The documents [validate] accepts, and what its errors mean *)

Definition stat_of (a : Action) : option str :=
  match a with Action_State (StateAction_StatCount name) => Some name | _ => None end.

(** The rule names an owner refers to, with the owner. *)
Inductive refers (set : RuleSet) : str -> str -> Prop :=
| refers_trigger r t : r ∈ rules set -> Trigger_RuleFails t ∈ triggers r -> refers set (rule_name r) t
| refers_enabled r t : r ∈ rules set -> Condition_RuleEnabled t ∈ conditions r -> refers set (rule_name r) t
| refers_fired r t ms :
    r ∈ rules set -> Condition_LastFiredOlderThan t ms ∈ conditions r -> refers set (rule_name r) t
| refers_enable o t : (o, Action_State (StateAction_RuleEnable t)) ∈ owned_actions set -> refers set o t
| refers_disable o t : (o, Action_State (StateAction_RuleDisable t)) ∈ owned_actions set -> refers set o t.

Definition topic_set (rs : list Rule) : gset str := list_to_set (omap mqtt_topic (concat (map triggers rs))).
Definition stat_set (set : RuleSet) : gset str := list_to_set (omap stat_of (map snd (owned_actions set))).

(** A payload error of one trigger, condition or action. *)
Definition payload_error (set : RuleSet) (e : ModelError) : Prop :=
  (exists r t, r ∈ rules set /\ t ∈ triggers r /\ check_trigger (rule_name r) t = Err e) \/
  (exists r c, r ∈ rules set /\ c ∈ conditions r /\ check_condition_payload (rule_name r) c = Err e) \/
  (exists o a, (o, a) ∈ owned_actions set /\ leaf_payload o a = Err e).

Definition expansion_error (set : RuleSet) (e : ModelError) : Prop :=
  exists r x c y, r ∈ rules set /\ x ∈ actions r /\
    reach (blocks set) (ctx_root (rule_name r)) x c y /\ expand_error (blocks set) c y = Some e.

Record document_ok (set : RuleSet) : Prop := {
  ok_counts : len (rules set) <= MAX_RULES /\ len (blocks set) <= MAX_BLOCKS;
  ok_names : NoDup (map rule_name (rules set)) /\ NoDup (map block_name (blocks set));
  ok_short : Forall (fun n => str_len n <= MAX_NAME_BYTES) (map rule_name (rules set) ++ map block_name (blocks set));
  ok_calls : forall o b, (o, Action_Flow (FlowAction_Call b)) ∈ owned_actions set -> is_Some (set_block set b);
  ok_refs : forall o t, refers set o t -> is_Some (set_rule set t);
  ok_topics : Z.of_nat (size (topic_set (rules set))) <= MAX_MQTT_TRIGGER_TOPICS;
  ok_stats : (size (stat_set set) <= MAX_STAT_NAMES)%nat /\
    forall n, n ∈ stat_set set -> stat_name_is_printable n = true /\ str_len n <= MAX_NAME_BYTES;
  ok_blocks : Forall (fun b => 1 <= len (block_actions b) <= MAX_ACTIONS_EXPANDED) (blocks set);
  ok_rules : Forall (fun r => MIN_TRIGGERS_PER_RULE <= len (triggers r) <= MAX_TRIGGERS_PER_RULE /\
    len (conditions r) <= MAX_CONDITIONS_PER_RULE /\
    MIN_ACTIONS_PER_RULE <= len (actions r) <= MAX_ACTIONS_PER_RULE) (rules set);
  ok_payloads : forall e, ~ payload_error set e;
  ok_expansion : forall e, ~ expansion_error set e;
  ok_size : Forall (fun r => exists n, expanded_action_count r (blocks set) = Ok n /\ n <= MAX_ACTIONS_EXPANDED)
    (rules set)
}.

(** What each error says of the document. *)
Definition error_holds (set : RuleSet) (e : ModelError) : Prop :=
  match e with
  | ModelError_TooManyRules n => n = len (rules set) /\ MAX_RULES < n
  | ModelError_TooManyBlocks n => n = len (blocks set) /\ MAX_BLOCKS < n
  | ModelError_DuplicateRuleName n => exists l1 l2 l3, map rule_name (rules set) = l1 ++ n :: l2 ++ n :: l3
  | ModelError_DuplicateBlockName n => exists l1 l2 l3, map block_name (blocks set) = l1 ++ n :: l2 ++ n :: l3
  | ModelError_NameTooLong n =>
      n ∈ map rule_name (rules set) ++ map block_name (blocks set) /\ MAX_NAME_BYTES < str_len n
  | ModelError_NoTriggers o => exists r, r ∈ rules set /\ rule_name r = o /\ triggers r = []
  | ModelError_TooManyTriggers o n =>
      exists r, r ∈ rules set /\ rule_name r = o /\ n = len (triggers r) /\ MAX_TRIGGERS_PER_RULE < n
  | ModelError_TooManyConditions o n =>
      exists r, r ∈ rules set /\ rule_name r = o /\ n = len (conditions r) /\ MAX_CONDITIONS_PER_RULE < n
  | ModelError_NoActions o =>
      (exists r, r ∈ rules set /\ rule_name r = o /\ actions r = []) \/
      (exists b, b ∈ blocks set /\ block_name b = o /\ block_actions b = [])
  | ModelError_TooManyActions o n =>
      exists r, r ∈ rules set /\ rule_name r = o /\ n = len (actions r) /\ MAX_ACTIONS_PER_RULE < n
  | ModelError_TooManyBlockActions o n =>
      exists b, b ∈ blocks set /\ block_name b = o /\ n = len (block_actions b) /\ MAX_ACTIONS_EXPANDED < n
  | ModelError_UnresolvedBlock b refs =>
      set_block set b = None /\ refs <> [] /\ NoDup refs /\
      forall o, o ∈ refs <-> (o, Action_Flow (FlowAction_Call b)) ∈ owned_actions set
  | ModelError_UnknownRuleReference t o => set_rule set t = None /\ refers set o t
  | ModelError_ExpandedActionsExceeded o n =>
      exists r, r ∈ rules set /\ rule_name r = o /\ expanded_action_count r (blocks set) = Ok n /\
                MAX_ACTIONS_EXPANDED < n
  | ModelError_TooManyMqttTopics o n =>
      exists before r rest, rules set = before ++ r :: rest /\ rule_name r = o /\
        n = Z.of_nat (size (topic_set (before ++ [r]))) /\ MAX_MQTT_TRIGGER_TOPICS < n
  | ModelError_TooManyStatNames o n => n = Z.of_nat (size (stat_set set)) /\ (MAX_STAT_NAMES < size (stat_set set))%nat
  | ModelError_StatNameNotPrintable o n =>
      (o, Action_State (StateAction_StatCount n)) ∈ owned_actions set /\ stat_name_is_printable n = false
  | ModelError_StatNameTooLong o n =>
      exists name, (o, Action_State (StateAction_StatCount name)) ∈ owned_actions set /\ n = str_len name /\
                   MAX_NAME_BYTES < n
  | ModelError_CallDepthExceeded _ _ | ModelError_NestedRepeat _ | ModelError_NestedConditional _
  | ModelError_NestedAfter _ | ModelError_RepeatCountOutOfRange _ _ => expansion_error set e
  | _ => payload_error set e
  end.

(** *** Step by step through the checks *)

Definition check_verdict (set : RuleSet) (P : Prop) (r : Result unit ModelError) : Prop :=
  match r with Ok _ => P | Err e => error_holds set e end.

Lemma verdict_and set (P Q : Prop) r1 r2 :
  check_verdict set P r1 -> (P -> check_verdict set Q r2) ->
  check_verdict set (P /\ Q) (let? _ := r1 in r2).
Proof. destruct r1; cbn; [|done]. intros HP HQ. specialize (HQ HP). now destruct r2. Qed.

Lemma verdict_try_each {A} set (P : A -> Prop) (f : A -> Result unit ModelError) l :
  (forall x, x ∈ l -> check_verdict set (P x) (f x)) -> check_verdict set (Forall P l) (try_each f l).
Proof.
  induction l as [|x l IH]; intros H; cbn; [constructor|]. specialize (H x ltac:(left)) as Hx.
  destruct (f x); cbn in *; [|done]. specialize (IH (fun y Hy => H y ltac:(now right))).
  destruct (try_each f l); cbn in *; [now constructor|done].
Qed.

Lemma verdict_weaken set (P Q : Prop) r : (P -> Q) -> check_verdict set P r -> check_verdict set Q r.
Proof. destruct r; cbn; auto. Qed.

Lemma check_document_counts_verdict set :
  check_verdict set (len (rules set) <= MAX_RULES /\ len (blocks set) <= MAX_BLOCKS) (check_document_counts set).
Proof. unfold check_document_counts. cases_if; cbn; lia. Qed.

Lemma unique_names_verdict set dup names seen all :
  all = seen ++ names ->
  (forall n l1 l2 l3, all = l1 ++ n :: l2 ++ n :: l3 -> error_holds set (dup n)) ->
  (forall n, n ∈ names -> MAX_NAME_BYTES < str_len n -> error_holds set (ModelError_NameTooLong n)) ->
  NoDup seen -> Forall (fun n => str_len n <= MAX_NAME_BYTES) seen ->
  check_verdict set (NoDup all /\ Forall (fun n => str_len n <= MAX_NAME_BYTES) all)
    (unique_names dup seen names).
Proof.
  revert seen. induction names as [|x names IH]; intros seen -> Hdup Hlong Hnd Hs; cbn.
  - now rewrite app_nil_r.
  - unfold check_name_bytes. destruct (Z.ltb_spec MAX_NAME_BYTES (str_len x)); [apply Hlong; [left|done]|].
    destruct (contains seen x) eqn:E.
    + apply contains_spec in E. apply list_elem_of_split in E as (l1 & l2 & ->).
      apply (Hdup x l1 l2 names). now rewrite <- app_assoc.
    + apply (IH (seen ++ [x])); [now rewrite <- app_assoc|done|set_solver| |].
      * apply list.NoDup_app. split; [done|]. split; [|apply NoDup_singleton].
        intros y Hy ->%list_elem_of_singleton. apply contains_spec in Hy. congruence.
      * apply Forall_app. split; [done|]. now constructor.
Qed.

Lemma check_unique_names_verdict set :
  check_verdict set
    ((NoDup (map rule_name (rules set)) /\ Forall (fun n => str_len n <= MAX_NAME_BYTES) (map rule_name (rules set))) /\
     (NoDup (map block_name (blocks set)) /\ Forall (fun n => str_len n <= MAX_NAME_BYTES) (map block_name (blocks set))))
    (check_unique_names set).
Proof.
  apply verdict_and; [|intros _]; (apply unique_names_verdict;
    [done|intros n l1 l2 l3 E; cbn; eauto|intros n Hn; cbn; set_solver|apply NoDup_nil_2|apply List.Forall_nil]).
Qed.

(** *** References *)

Lemma verdict_each {A} set (P : A -> Prop) (f : A -> Result unit ModelError) l :
  (forall x, x ∈ l -> check_verdict set (P x) (f x)) ->
  check_verdict set (forall x, x ∈ l -> P x) (try_each f l).
Proof.
  intros H. eapply verdict_weaken; [|apply (verdict_try_each set P f l H)].
  intros HF x Hx. rewrite List.Forall_forall in HF. now apply HF, list_elem_of_In.
Qed.

Lemma owned_spec set o a :
  (o, a) ∈ owned_actions set <->
  (exists r, r ∈ rules set /\ rule_name r = o /\ a ∈ all_actions (actions r)) \/
  (exists b, b ∈ blocks set /\ block_name b = o /\ a ∈ all_actions (block_actions b)).
Proof.
  unfold owned_actions, owners. rewrite list_elem_of_In, in_concat. split.
  - intros (l & Hl & Hin). apply in_map_iff in Hl as ([o' acts] & <- & Hl).
    apply in_map_iff in Hin as (a' & [= -> ->] & Hin%list_elem_of_In).
    apply in_app_iff in Hl as [Hl|Hl]; apply in_map_iff in Hl as (x & [= <- <-] & Hx%list_elem_of_In);
      [left|right]; now exists x.
  - intros [(x & Hx & <- & Ha)|(x & Hx & <- & Ha)].
    + exists (map (pair (rule_name x)) (all_actions (actions x))). split; [|now apply in_map, list_elem_of_In].
      apply in_map_iff. exists (rule_name x, actions x). split; [done|].
      apply in_app_iff. left. apply (in_map (fun r => (rule_name r, actions r))). now apply list_elem_of_In.
    + exists (map (pair (block_name x)) (all_actions (block_actions x))).
      split; [|now apply in_map, list_elem_of_In].
      apply in_map_iff. exists (block_name x, block_actions x). split; [done|].
      apply in_app_iff. right. apply (in_map (fun r => (block_name r, block_actions r))). now apply list_elem_of_In.
Qed.

Lemma require_rule_verdict set o t :
  refers set o t -> check_verdict set (is_Some (set_rule set t)) (require_rule set t o).
Proof. intros Hr. unfold require_rule. destruct (set_rule set t) eqn:E; cbn; eauto. Qed.

(** The references of an action list whose members are owned by [o]. *)
Lemma walk_rule_refs_verdict set o l :
  (forall a, a ∈ all_actions l -> (o, a) ∈ owned_actions set) ->
  check_verdict set
    (forall a, a ∈ all_actions l -> forall t,
       a = Action_State (StateAction_RuleEnable t) \/ a = Action_State (StateAction_RuleDisable t) ->
       is_Some (set_rule set t))
    (walk_rule_refs (fun target => require_rule set target o) l).
Proof.
  intros Ho. rewrite walk_rule_refs_leaves. apply verdict_each. intros a Ha. apply Ho in Ha.
  destruct a as [| | | | |s]; try (cbn; intros t [|]; discriminate).
  destruct s; try (cbn; intros t [|]; discriminate); cbn [leaf_rule_ref].
  - eapply verdict_weaken; [|apply require_rule_verdict, refers_enable; exact Ha]. intros H t [[= ->]|]; done.
  - eapply verdict_weaken; [|apply require_rule_verdict, refers_disable; exact Ha]. intros H t [|[= ->]]; done.
Qed.

Lemma check_one_rule_references_verdict set r :
  r ∈ rules set ->
  check_verdict set
    (((forall t, t ∈ triggers r -> forall n, t = Trigger_RuleFails n -> is_Some (set_rule set n)) /\
      (forall c, c ∈ conditions r -> forall n,
         c = Condition_RuleEnabled n \/ (exists ms, c = Condition_LastFiredOlderThan n ms) ->
         is_Some (set_rule set n))) /\
     (forall a, a ∈ all_actions (actions r) -> forall t,
        a = Action_State (StateAction_RuleEnable t) \/ a = Action_State (StateAction_RuleDisable t) ->
        is_Some (set_rule set t)))
    (check_one_rule_references set r).
Proof.
  intros Hr. unfold check_one_rule_references.
  assert (forall (A B : Result unit ModelError) C,
    (let? _ := A in let? _ := B in C) = (let? _ := (let? _ := A in B) in C : Result unit ModelError)) as ->
    by (now intros [] ? ?).
  apply verdict_and; [apply verdict_and|].
  - apply verdict_each. intros t Ht. destruct t; try (cbn; discriminate). cbn [check_trigger_rule_ref].
    eapply verdict_weaken; [|apply require_rule_verdict, (refers_trigger set r); eauto]. now intros H n [= ->].
  - intros _. apply verdict_each. intros c Hc.
    destruct c; try (cbn; intros n [|[? ?]]; discriminate); cbn [check_condition_rule_ref].
    + eapply verdict_weaken; [|apply require_rule_verdict, (refers_enabled set r); eauto].
      intros H n [[= ->]|[? ?]]; done.
    + eapply verdict_weaken; [|apply require_rule_verdict, (refers_fired set r _ than_ms); eauto].
      intros H n [?|[? [= -> _]]]; done.
  - intros _. apply walk_rule_refs_verdict. intros a Ha. apply owned_spec. left. eauto.
Qed.

Lemma check_rule_references_verdict set :
  check_verdict set (forall o t, refers set o t -> is_Some (set_rule set t)) (check_rule_references set).
Proof.
  unfold check_rule_references. eapply verdict_weaken; [|apply verdict_and].
  2: { apply verdict_each. intros r Hr. now apply check_one_rule_references_verdict. }
  2: { intros _. apply verdict_each. intros b Hb. apply walk_rule_refs_verdict.
       intros a Ha. apply owned_spec. right. eauto. }
  intros [Hr Hb] o t Href. destruct Href as [r t H1 H2|r t H1 H2|r t ms H1 H2|o t H|o t H].
  - destruct (Hr r H1) as [[Ht _] _]. eauto.
  - destruct (Hr r H1) as [[_ Hc] _]. eauto.
  - destruct (Hr r H1) as [[_ Hc] _]. eauto.
  - apply owned_spec in H as [(r & H1 & _ & Ha)|(b & H1 & _ & Ha)]; [apply (proj2 (Hr r H1) _ Ha)|eapply Hb]; eauto.
  - apply owned_spec in H as [(r & H1 & _ & Ha)|(b & H1 & _ & Ha)]; [apply (proj2 (Hr r H1) _ Ha)|eapply Hb]; eauto.
Qed.

(** *** The first unresolved block, with every owner that calls it *)

Definition missing_inv (set : RuleSet) (seen : list (str * Action)) (missing : option (str * list str)) : Prop :=
  match missing with
  | None => forall o b, (o, Action_Flow (FlowAction_Call b)) ∈ seen -> is_Some (set_block set b)
  | Some (b, refs) =>
      set_block set b = None /\ refs <> [] /\ NoDup refs /\
      forall o, o ∈ refs <-> (o, Action_Flow (FlowAction_Call b)) ∈ seen
  end.

Lemma visit_missing_inv set seen missing o a :
  missing_inv set seen missing ->
  missing_inv set (seen ++ [(o, a)])
    match a with Action_Flow (FlowAction_Call b) => visit_missing set o missing b | _ => missing end.
Proof.
  intros Hinv.
  assert ((forall b, a <> Action_Flow (FlowAction_Call b)) -> missing_inv set (seen ++ [(o, a)]) missing) as Hother.
  { intros Hne. destruct missing as [[b refs]|]; cbn in *.
    - destruct Hinv as (? & ? & ? & Hm). split; [done|]. split; [done|]. split; [done|].
      intros o'. rewrite Hm, elem_of_app, list_elem_of_singleton. split; [tauto|].
      intros [?|[= -> <-]]; [done|]. now destruct (Hne b).
    - intros o' b Hin. apply elem_of_app in Hin as [Hin|[= -> <-]%list_elem_of_singleton]; [eauto|].
      now destruct (Hne b). }
  destruct a as [| | | |f|]; try (apply Hother; discriminate).
  destruct f; try (apply Hother; discriminate). clear Hother. unfold visit_missing.
  destruct (set_block set block) as [def|] eqn:Hb.
  - destruct missing as [[b refs]|]; cbn in *.
    + destruct Hinv as (H1 & ? & ? & Hm). split; [done|]. split; [done|]. split; [done|].
      intros o'. rewrite Hm, elem_of_app, list_elem_of_singleton. split; [tauto|].
      intros [?|[= -> ->]]; [done|congruence].
    + intros o' b Hin. apply elem_of_app in Hin as [Hin|[= -> ->]%list_elem_of_singleton]; eauto.
  - destruct missing as [[b refs]|]; cbn in *.
    + destruct Hinv as (H1 & H2 & H3 & Hm). destruct (str_eqb b block) eqn:E.
      * apply str_eqb_spec in E as ->. destruct (contains refs o) eqn:Ec.
        -- apply contains_spec in Ec. split; [done|]. split; [done|]. split; [done|].
           intros o'. rewrite Hm, elem_of_app, list_elem_of_singleton. split; [tauto|].
           intros [?|[= ->]]; [done|]. now apply Hm.
        -- assert (o ∉ refs) as Hno by (intros H; apply contains_spec in H; congruence).
           split; [done|]. split; [now destruct refs|]. split.
           ++ apply list.NoDup_app. split; [done|]. split; [set_solver|apply NoDup_singleton].
           ++ intros o'. rewrite !elem_of_app, !list_elem_of_singleton, Hm. split; [intros [?| ->]; auto|].
              intros [?|[= ->]]; auto.
      * apply str_eqb_neq in E. split; [done|]. split; [done|]. split; [done|].
        intros o'. rewrite Hm, elem_of_app, list_elem_of_singleton. split; [tauto|].
        intros [?|[= -> ->]]; [done|congruence].
    + split; [done|]. split; [done|]. split; [apply NoDup_singleton|].
      intros o'. rewrite elem_of_app, !list_elem_of_singleton. split; [intros ->; now right|].
      intros [Hin|[= ->]]; [|done]. destruct (Hinv _ _ Hin). congruence.
Qed.

Lemma check_block_references_verdict set :
  check_verdict set (forall o b, (o, Action_Flow (FlowAction_Call b)) ∈ owned_actions set -> is_Some (set_block set b))
    (check_block_references set).
Proof.
  unfold check_block_references, walk_calls.
  rewrite (fold_owners (fun o missing a =>
    match a with Action_Flow (FlowAction_Call b) => visit_missing set o missing b | _ => missing end) set None).
  assert (forall rest seen missing, missing_inv set seen missing ->
    missing_inv set (seen ++ rest)
      (foldl (fun missing '(o, a) => match a with Action_Flow (FlowAction_Call b) => visit_missing set o missing b
                                     | _ => missing end) missing rest)) as H.
  { induction rest as [|[o a] rest IH]; intros seen missing Hinv; cbn; [now rewrite app_nil_r|].
    replace (seen ++ (o, a) :: rest) with ((seen ++ [(o, a)]) ++ rest) by now rewrite <- app_assoc.
    now apply IH, visit_missing_inv. }
  specialize (H (owned_actions set) [] None). cbn [app] in H.
  destruct (foldl _ None (owned_actions set)) as [[b refs]|]; cbn; apply H; cbn; set_solver.
Qed.

(** *** Topics and counters *)

Lemma distinct_mqtt_topics_size rs :
  len (distinct_mqtt_topics (concat (map triggers rs))) = Z.of_nat (size (topic_set rs)).
Proof.
  unfold len, topic_set, distinct_mqtt_topics. f_equal.
  destruct (push_distinct (omap mqtt_topic (concat (map triggers rs))) [] NoDup_nil_2) as [Hnd Hm].
  rewrite <- (size_list_to_set (C := gset str) _ Hnd). f_equal. apply set_eq. intros x.
  rewrite !elem_of_list_to_set, Hm. set_solver.
Qed.

Lemma mqtt_topic_counts_verdict set before rest :
  rules set = before ++ rest ->
  Z.of_nat (size (topic_set before)) <= MAX_MQTT_TRIGGER_TOPICS ->
  check_verdict set (Z.of_nat (size (topic_set (rules set))) <= MAX_MQTT_TRIGGER_TOPICS)
    (mqtt_topic_counts before rest).
Proof.
  revert before. induction rest as [|r rest IH]; intros before Hs Hb; cbn.
  - now rewrite Hs, app_nil_r.
  - rewrite distinct_mqtt_topics_size.
    destruct (Z.ltb_spec MAX_MQTT_TRIGGER_TOPICS (Z.of_nat (size (topic_set (before ++ [r]))))).
    + cbn. exists before, r, rest. done.
    + apply IH; [now rewrite <- app_assoc|done].
Qed.

Lemma check_mqtt_topic_count_verdict set :
  check_verdict set (Z.of_nat (size (topic_set (rules set))) <= MAX_MQTT_TRIGGER_TOPICS)
    (check_mqtt_topic_count set).
Proof. now apply mqtt_topic_counts_verdict. Qed.

(** The names with their first owners: distinct, complete, each owned. *)
Definition stats_inv (seen : list (str * Action)) (names : list (str * str)) : Prop :=
  NoDup (map fst names) /\
  (forall n o, (n, o) ∈ names -> (o, Action_State (StateAction_StatCount n)) ∈ seen) /\
  (forall n o, (o, Action_State (StateAction_StatCount n)) ∈ seen -> n ∈ map fst names).

Lemma visit_stat_inv seen names o a :
  stats_inv seen names -> stats_inv (seen ++ [(o, a)]) (visit_stat o names a).
Proof.
  intros (Hnd & Hown & Hall).
  assert ((forall n, a <> Action_State (StateAction_StatCount n)) -> stats_inv (seen ++ [(o, a)]) names) as Hother.
  { intros Hne. split; [done|]. split; [set_solver|]. intros n o' Hin.
    apply elem_of_app in Hin as [?|[= -> <-]%list_elem_of_singleton]; [eauto|]. now destruct (Hne n). }
  destruct a as [| | | | |s]; try (apply Hother; discriminate). destruct s; try (apply Hother; discriminate).
  clear Hother. cbn. destruct (contains (map fst names) name) eqn:E.
  - apply contains_spec in E. split; [done|]. split; [set_solver|]. intros n o' Hin.
    apply elem_of_app in Hin as [?|[= -> ->]%list_elem_of_singleton]; eauto.
  - assert (name ∉ map fst names) by (intros H; apply contains_spec in H; congruence).
    split; [|split].
    + rewrite map_app. apply list.NoDup_app. split; [done|]. split; [set_solver|apply NoDup_singleton].
    + intros n o' [?|[= -> ->]%list_elem_of_singleton]%elem_of_app; apply elem_of_app; [left; eauto|right; left].
    + intros n o' [?|[= -> ->]%list_elem_of_singleton]%elem_of_app; rewrite map_app; apply elem_of_app;
        [left; eauto|right; left].
Qed.

Lemma stat_names_inv set : stats_inv (owned_actions set) (stat_names_with_owners set).
Proof.
  unfold stat_names_with_owners.
  rewrite (fold_owners visit_stat set []).
  assert (forall rest seen names, stats_inv seen names ->
    stats_inv (seen ++ rest) (foldl (fun names '(o, a) => visit_stat o names a) names rest)) as H.
  { induction rest as [|[o a] rest IH]; intros seen names Hinv; cbn; [now rewrite app_nil_r|].
    replace (seen ++ (o, a) :: rest) with ((seen ++ [(o, a)]) ++ rest) by now rewrite <- app_assoc.
    now apply IH, visit_stat_inv. }
  apply (H (owned_actions set) [] []). split; [apply NoDup_nil_2|]. set_solver.
Qed.

Lemma stat_set_spec set n :
  n ∈ stat_set set <-> exists o, (o, Action_State (StateAction_StatCount n)) ∈ owned_actions set.
Proof.
  unfold stat_set. rewrite elem_of_list_to_set, list_elem_of_omap. split.
  - intros (a & Ha & Hs). apply list_elem_of_In, in_map_iff in Ha as ([o a'] & <- & Ha%list_elem_of_In).
    exists o. cbn in Hs. destruct a' as [| | | | |s]; try discriminate. destruct s; try discriminate.
    now injection Hs as ->.
  - intros (o & Ho). exists (Action_State (StateAction_StatCount n)). split; [|done].
    apply list_elem_of_In. apply (in_map snd _ (o, _)). now apply list_elem_of_In.
Qed.

Lemma stat_names_set set :
  NoDup (stat_names set) /\ (forall n, n ∈ stat_names set <-> n ∈ stat_set set) /\
  length (stat_names set) = size (stat_set set).
Proof.
  destruct (stat_names_inv set) as (Hnd & Hown & Hall).
  assert (forall n, n ∈ stat_names set <-> n ∈ stat_set set) as Hm.
  { intros n. rewrite stat_set_spec. split.
    - intros Hn. apply list_elem_of_In, in_map_iff in Hn as ([n' o] & <- & Hn%list_elem_of_In). eauto.
    - intros (o & Ho). eapply Hall; eauto. }
  split; [done|]. split; [done|]. unfold stat_names in *. rewrite <- (size_list_to_set (C := gset str) _ Hnd).
  f_equal. apply set_eq. intros x. now rewrite elem_of_list_to_set, Hm.
Qed.

Lemma check_stat_names_verdict set :
  check_verdict set
    ((forall n, n ∈ stat_set set -> stat_name_is_printable n = true /\ str_len n <= MAX_NAME_BYTES) /\
     (size (stat_set set) <= MAX_STAT_NAMES)%nat)
    (check_stat_names set).
Proof.
  destruct (stat_names_inv set) as (_ & Hown & Hall). destruct (stat_names_set set) as (_ & Hm & Hlen).
  unfold check_stat_names. apply verdict_and.
  - eapply verdict_weaken; [|apply (verdict_each set (fun '(n, o) =>
      stat_name_is_printable n = true /\ str_len n <= MAX_NAME_BYTES))].
    + intros H n Hn. apply Hm, list_elem_of_In, in_map_iff in Hn as ([n' o] & <- & Hn%list_elem_of_In).
      exact (H _ Hn).
    + intros [n o] Hn. apply Hown in Hn. unfold check_stat_name.
      destruct (stat_name_is_printable n) eqn:E; cbn; [|done].
      destruct (Z.ltb_spec MAX_NAME_BYTES (str_len n)); cbn; eauto.
  - intros _. unfold stat_names in Hlen. rewrite length_map in Hlen.
    destruct (stat_names_with_owners set !! MAX_STAT_NAMES) as [[n o]|] eqn:E; cbn.
    + apply lookup_lt_Some in E. unfold len. lia.
    + apply lookup_ge_None in E. lia.
Qed.

(** *** Blocks and rules *)

Lemma payload_actions_verdict set o l :
  (forall a, a ∈ all_actions l -> (o, a) ∈ owned_actions set) ->
  check_verdict set (forall a, a ∈ all_actions l -> leaf_payload o a = Ok tt) (try_each (check_action_payload o) l).
Proof.
  intros Ho.
  assert (try_each (check_action_payload o) l = try_each (leaf_payload o) (all_actions l)) as ->.
  { unfold all_actions. rewrite try_each_concat. apply try_each_ext, List.Forall_forall. intros a _.
    apply check_action_payload_leaves. }
  apply verdict_each. intros a Ha. destruct (leaf_payload o a) as [[]|e] eqn:E; cbn; [done|].
  assert (payload_error set e) as Hp by (right; right; exists o, a; auto).
  destruct a as [| | |x|f|s]; try discriminate E;
    [destruct a|destruct a|destruct f; try discriminate E; destruct condition; try discriminate E|destruct s; try discriminate E];
    cbn in E; unfold check_mqtt_topic, check_mqtt_payload, literal_scene in E; err_cases E;
    injection E as <-; exact Hp.
Qed.

Lemma check_block_shape_verdict set b :
  b ∈ blocks set ->
  check_verdict set
    (1 <= len (block_actions b) <= MAX_ACTIONS_EXPANDED /\
     forall a, a ∈ all_actions (block_actions b) -> leaf_payload (block_name b) a = Ok tt)
    (check_block_shape b).
Proof.
  intros Hb. unfold check_block_shape. case_bool_decide as E; [cbn; eauto|].
  destruct (Z.ltb_spec MAX_ACTIONS_EXPANDED (len (block_actions b))); [cbn; eauto 6|].
  eapply verdict_weaken; [|apply (payload_actions_verdict set)].
  - intros Hp. split; [|done]. unfold len in *. destruct (block_actions b); [done|cbn in *; lia].
  - intros a Ha. apply owned_spec. right. eauto.
Qed.

Lemma check_triggers_verdict set r :
  r ∈ rules set ->
  check_verdict set (forall t, t ∈ triggers r -> check_trigger (rule_name r) t = Ok tt)
    (try_each (check_trigger (rule_name r)) (triggers r)).
Proof.
  intros Hr. apply verdict_each. intros t Ht. destruct (check_trigger (rule_name r) t) as [[]|e] eqn:E; cbn; [done|].
  assert (payload_error set e) as Hp by (left; exists r, t; auto).
  destruct t; try discriminate E; cbn in E;
    unfold check_mqtt_trigger, check_mqtt_topic, check_mqtt_payload in E; err_cases E;
    injection E as <-; exact Hp.
Qed.

Lemma check_conditions_verdict set r :
  r ∈ rules set ->
  check_verdict set (forall c, c ∈ conditions r -> check_condition_payload (rule_name r) c = Ok tt)
    (try_each (check_condition_payload (rule_name r)) (conditions r)).
Proof.
  intros Hr. apply verdict_each. intros c Hc.
  destruct (check_condition_payload (rule_name r) c) as [[]|e] eqn:E; cbn; [done|].
  assert (payload_error set e) as Hp by (right; left; exists r, c; auto).
  destruct c; try discriminate E. cbn in E. destruct value; [|discriminate E].
  destruct (_ <? _); [|discriminate E]. injection E as <-. exact Hp.
Qed.

Lemma check_rule_shape_verdict set r :
  r ∈ rules set ->
  check_verdict set
    ((MIN_TRIGGERS_PER_RULE <= len (triggers r) <= MAX_TRIGGERS_PER_RULE /\
      len (conditions r) <= MAX_CONDITIONS_PER_RULE /\
      MIN_ACTIONS_PER_RULE <= len (actions r) <= MAX_ACTIONS_PER_RULE) /\
     forall t, t ∈ triggers r -> check_trigger (rule_name r) t = Ok tt)
    (check_rule_shape r).
Proof.
  intros Hr. unfold check_rule_shape, MIN_TRIGGERS_PER_RULE, MIN_ACTIONS_PER_RULE.
  assert (forall A (l : list A), len l < 1 -> l = []) as Hnil.
  { intros A [|x l] H; [done|]. unfold len in H. cbn in H. lia. }
  destruct (Z.ltb_spec (len (triggers r)) 1) as [H1|H1]; [apply Hnil in H1; cbn; eauto|].
  destruct (Z.ltb_spec MAX_TRIGGERS_PER_RULE (len (triggers r))); [cbn; eauto 6|].
  destruct (Z.ltb_spec MAX_CONDITIONS_PER_RULE (len (conditions r))); [cbn; eauto 6|].
  destruct (Z.ltb_spec (len (actions r)) 1) as [H2|H2]; [apply Hnil in H2; cbn; eauto|].
  destruct (Z.ltb_spec MAX_ACTIONS_PER_RULE (len (actions r))); [cbn; eauto 6|].
  eapply verdict_weaken; [|now apply check_triggers_verdict]. intros Ht. split; [lia|done].
Qed.

(** Everything an owned action reaches is itself owned: unresolved calls are found before the count. *)
Lemma reach_owned set ctx a c y :
  reach (blocks set) ctx a c y -> (exists o, (o, a) ∈ owned_actions set) -> exists o, (o, y) ∈ owned_actions set.
Proof.
  assert (forall a x, x ∈ sublists a -> (exists o, (o, a) ∈ owned_actions set) ->
    exists o, (o, x) ∈ owned_actions set) as Hsub.
  { intros a' x Hx (o & Ho). exists o.
    apply owned_spec in Ho as [(r & ? & ? & Ho)|(r & ? & ? & Ho)]; apply owned_spec; [left|right]; exists r;
      (split; [done|]; split; [done|]); apply all_actions_elem in Ho as (d & Hd & Ho);
      apply all_actions_elem; exists d; (split; [done|]); now apply subactions_trans with a'. }
  induction 1 as [|ctx d l x c y Hx _ IH|ctx k l x c y Hx _ IH|ctx k l1 l2 x c y Hx _ IH|ctx b def x c y Hb Hx _ IH];
    intros Ho; [done|apply IH; now eapply Hsub; [|exact Ho]..|].
  apply IH. exists (block_name def). apply owned_spec. right. exists def.
  split; [now apply find_elem in Hb as [? _]|]. split; [done|].
  apply all_actions_elem. exists x. split; [done|apply subaction_self].
Qed.

(** *** Expansion *)

(** A [repeat] count is a [u8] in every action of the document. *)
Definition document_u8 (set : RuleSet) : Prop :=
  Forall (fun r => counts_u8 (actions r)) (rules set) /\ blocks_u8 (blocks set).

Lemma expand_error_holds set r x c y e :
  r ∈ rules set -> x ∈ actions r ->
  (forall o b, (o, Action_Flow (FlowAction_Call b)) ∈ owned_actions set -> is_Some (set_block set b)) ->
  reach (blocks set) (ctx_root (rule_name r)) x c y -> expand_error (blocks set) c y = Some e ->
  error_holds set e.
Proof.
  intros Hr Hx Hcalls Hreach He.
  assert (expansion_error set e) as Hexp by now exists r, x, c, y.
  destruct y as [| | | |f|]; try discriminate He. destruct f; try discriminate He; cbn -[Nat.ltb] in He.
  - destruct (in_after c); [injection He as <-; exact Hexp|discriminate].
  - destruct (_ <? _)%nat; [|injection He as <-; exact Hexp].
    destruct (find_block (blocks set) block) eqn:Hb; [discriminate|].
    exfalso. apply reach_owned in Hreach as (o & Ho).
    + apply Hcalls in Ho as [def Hd]. unfold set_block in Hd. congruence.
    + exists (rule_name r). apply owned_spec. left. exists r. split; [done|]. split; [done|].
      apply all_actions_elem. exists x. split; [done|apply subaction_self].
  - destruct (in_repeat c); [injection He as <-; exact Hexp|]. destruct (_ && _); [discriminate|].
    injection He as <-. exact Hexp.
  - destruct (in_conditional c); [injection He as <-; exact Hexp|discriminate].
Qed.

Lemma check_rule_verdict set r :
  document_u8 set -> r ∈ rules set ->
  (forall o b, (o, Action_Flow (FlowAction_Call b)) ∈ owned_actions set -> is_Some (set_block set b)) ->
  check_verdict set
    (((MIN_TRIGGERS_PER_RULE <= len (triggers r) <= MAX_TRIGGERS_PER_RULE /\
      len (conditions r) <= MAX_CONDITIONS_PER_RULE /\
      MIN_ACTIONS_PER_RULE <= len (actions r) <= MAX_ACTIONS_PER_RULE) /\
      (forall t, t ∈ triggers r -> check_trigger (rule_name r) t = Ok tt)) /\
     ((forall c, c ∈ conditions r -> check_condition_payload (rule_name r) c = Ok tt) /\
      (forall a, a ∈ all_actions (actions r) -> leaf_payload (rule_name r) a = Ok tt)) /\
     (exists n, expanded_action_count r (blocks set) = Ok n /\ n <= MAX_ACTIONS_EXPANDED) /\
     (forall x c y, x ∈ actions r -> reach (blocks set) (ctx_root (rule_name r)) x c y ->
        expand_error (blocks set) c y = None))
    (check_rule set r).
Proof.
  intros [Hu Hbu] Hr Hcalls. unfold check_rule.
  apply verdict_and; [now apply check_rule_shape_verdict|intros _].
  apply verdict_and.
  { unfold check_rule_payloads. apply verdict_and; [now apply check_conditions_verdict|intros _].
    apply payload_actions_verdict. intros a Ha. apply owned_spec. left. eauto. }
  intros _. pose proof (count_actions_verdict (blocks set) Hbu (actions r) (ctx_root (rule_name r))) as Hc.
  rewrite List.Forall_forall in Hu. specialize (Hc (Hu r (proj1 (list_elem_of_In _ _) Hr)) eq_refl).
  unfold expanded_action_count. destruct (count_actions _ _ _) as [n|e] eqn:En; cbn in Hc |- *.
  - destruct (Z.ltb_spec MAX_ACTIONS_EXPANDED n); cbn; [|eauto]. exists r. eauto.
  - destruct Hc as (x & c & y & Hx & Hreach & He). now apply (expand_error_holds set r x c y).
Qed.

Lemma validate_verdict set : document_u8 set -> check_verdict set (document_ok set) (validate set).
Proof.
  intros Hu. unfold validate.
  eapply verdict_weaken; [|apply verdict_and; [apply check_document_counts_verdict|intros _; apply verdict_and;
    [apply check_unique_names_verdict|intros _; apply verdict_and; [apply check_block_references_verdict|
     intros Hcalls; apply verdict_and; [apply check_rule_references_verdict|intros _; apply verdict_and;
     [apply check_mqtt_topic_count_verdict|intros _; apply verdict_and; [apply check_stat_names_verdict|
      intros _; apply verdict_and; [|intros _]]]]]]]].
  2: { apply verdict_each. intros b Hb. now apply check_block_shape_verdict. }
  2: { apply verdict_each. intros r Hr. now apply check_rule_verdict. }
  intros (H1 & ((H2 & H3) & (H4 & H5)) & H6 & H7 & H8 & (H9 & H10) & Hb & Hr). split; try done.
  - now apply Forall_app.
  - apply List.Forall_forall. intros b Hin%list_elem_of_In. now apply Hb.
  - apply List.Forall_forall. intros r Hin%list_elem_of_In. now apply Hr.
  - intros e [(r & t & Hin & Ht & He)|[(r & c & Hin & Hc & He)|(o & a & Ho & He)]].
    + destruct (Hr r Hin) as [[_ Hp] _]. rewrite Hp in He by done. discriminate.
    + destruct (Hr r Hin) as [_ [[Hp _] _]]. rewrite Hp in He by done. discriminate.
    + apply owned_spec in Ho as [(r & Hin & <- & Ha)|(b & Hin & <- & Ha)].
      * destruct (Hr r Hin) as [_ [[_ Hp] _]]. rewrite Hp in He by done. discriminate.
      * destruct (Hb b Hin) as [_ Hp]. rewrite Hp in He by done. discriminate.
  - intros e (r & x & c & y & Hin & Hx & Hreach & He).
    destruct (Hr r Hin) as [_ [_ [_ Hn]]]. rewrite (Hn x c y) in He by done. discriminate.
  - apply List.Forall_forall. intros r Hin%list_elem_of_In. now apply Hr.
Qed.

(** An error that holds of a document contradicts one of the limits. *)
Lemma error_refutes set e : error_holds set e -> ~ document_ok set.
Proof.
  intros He Hok. destruct Hok as [[Hr Hb] [Hn1 Hn2] Hs Hc Hf Ht [Hst1 Hst2] Hbs Hrs Hp He' Hz].
  rewrite List.Forall_forall in Hs, Hbs, Hrs, Hz.
  setoid_rewrite <- list_elem_of_In in Hs. setoid_rewrite <- list_elem_of_In in Hbs.
  setoid_rewrite <- list_elem_of_In in Hrs. setoid_rewrite <- list_elem_of_In in Hz.
  assert (forall (l1 l2 l3 : list str) n, ~ NoDup (l1 ++ n :: l2 ++ n :: l3)) as Hdup.
  { intros l1 l2 l3 n (_ & _ & Hnd)%list.NoDup_app. apply NoDup_cons_1_1 in Hnd. set_solver. }
  destruct e; cbv beta iota delta [error_holds] in He; try (exact (Hp _ He)); try (exact (He' _ He)); try lia.
  all: repeat match goal with
  | H : exists _, _ |- _ => destruct H
  | H : _ /\ _ |- _ => destruct H
  end; subst; try (unfold len in *; lia).
  - rewrite H in Hn1. now apply Hdup in Hn1.
  - rewrite H in Hn2. now apply Hdup in Hn2.
  - specialize (Hs _ H). cbn in Hs. lia.
  - destruct (Hrs _ H) as [[Hm _] _]. rewrite H1 in Hm. unfold len, MIN_TRIGGERS_PER_RULE in Hm. cbn in Hm. lia.
  - destruct (Hrs _ H) as [? _]. lia.
  - destruct (Hrs _ H) as (_ & ? & _). lia.
  - destruct He as [(r & H & <- & E)|(b & H & <- & E)].
    + destruct (Hrs _ H) as (_ & _ & Hm). rewrite E in Hm. unfold len, MIN_ACTIONS_PER_RULE in Hm. cbn in Hm. lia.
    + specialize (Hbs _ H). rewrite E in Hbs. unfold len in Hbs. cbn in Hbs. lia.
  - destruct (Hrs _ H) as (_ & _ & ?). lia.
  - specialize (Hbs _ H). lia.
  - destruct referenced_by as [|o refs]; [done|]. destruct (Hc o block) as [d Hd]; [|congruence]. apply H2. left.
  - destruct (Hf _ _ H0) as [r' Hr']. congruence.
  - destruct (Hz _ H) as (n & Hn & ?). rewrite H1 in Hn. injection Hn as ->. lia.
  - assert (topic_set (x ++ [x0]) ⊆ topic_set (rules set)) as Hsub.
    { rewrite H. unfold topic_set. intros t. rewrite !elem_of_list_to_set, !list_elem_of_omap.
      intros (t' & Ht' & Hm). exists t'. split; [|done]. rewrite map_app, concat_app in *. cbn in Ht'.
      rewrite app_nil_r in Ht'. cbn. set_solver. }
    apply subseteq_size in Hsub. lia.
  - destruct (Hst2 name) as [? _]; [apply stat_set_spec; eauto|congruence].
  - destruct (Hst2 x) as [_ ?]; [apply stat_set_spec; eauto|lia].
Qed.


(** ** A document

    A hall rule that runs every minute, on working days at 7:30 and when a lamp turns on, and a rule that
    is fired by a timer; used by the concrete instances of the theorems. *)

Definition sample_blocks : list DefBlock :=
  [mkDefBlock (ascii_str "warm")
     [Action_Light (mkLightAction (LightOp_Level (LevelSpec_Absolute (ValueExpr_Literal 120)))
        (LightTarget_Group (mkGroupRef 0 1)) None);
      Action_State (StateAction_StatCount (ascii_str "warmed"))]].

Definition sample_hall : Rule :=
  mkRule (ascii_str "hall") true 200 true
    [Trigger_Every 60000;
     Trigger_AtTime (mkTimeOfDay 7 30) (day_set_insert_range day_set_empty Mon Fri);
     Trigger_LampTurns (mkLampRef 0 5) PowerTransition_On]
    [Condition_ControllerActive]
    [Action_Flow (FlowAction_Call (ascii_str "warm"));
     Action_Flow (FlowAction_Repeat 2 [Action_State (StateAction_Log (ascii_str "hall"))]);
     Action_Flow (FlowAction_Conditional (Condition_RuleEnabled (ascii_str "late"))
       [Action_Flow (FlowAction_TimerStart (ascii_str "t") 5000)]
       [Action_Light (mkLightAction LightOp_Off (LightTarget_Lamp (mkLampRef 0 5)) None)]);
     Action_Flow (FlowAction_After 1000 [Action_State (StateAction_RuleEnable (ascii_str "late"))])].

Definition sample_late : Rule :=
  mkRule (ascii_str "late") true 0 false [Trigger_TimerFires (ascii_str "t")] []
    [Action_Flow (FlowAction_Wait 500);
     Action_Scene (SceneAction_Recall (ValueExpr_Literal 3) None)].

Definition sample_set : RuleSet := mkRuleSet 0 sample_blocks [sample_hall; sample_late].

Definition count_u8b (a : Action) : bool :=
  match a with Action_Flow (FlowAction_Repeat count _) => (0 <=? count) && (count <=? umax 8) | _ => true end.
Definition all_u8b (l : list Action) : bool := forallb count_u8b (all_actions l).
Definition document_u8b (set : RuleSet) : bool :=
  forallb (fun r => all_u8b (actions r)) (rules set) && forallb (fun b => all_u8b (block_actions b)) (blocks set).

Lemma all_u8b_spec l : all_u8b l = true -> counts_u8 l.
Proof.
  unfold all_u8b. rewrite forallb_forall. intros H. apply List.Forall_forall. intros a Ha. specialize (H a Ha).
  destruct a as [| | | |[]|]; try exact I. cbn -[umax] in *. bprop. unfold in_u, umax in *. lia.
Qed.

Lemma document_u8b_spec set : document_u8b set = true -> document_u8 set.
Proof.
  unfold document_u8b. rewrite andb_true_iff, !forallb_forall. intros [H1 H2].
  split; apply List.Forall_forall; intros x Hx; apply all_u8b_spec; auto.
Qed.


End RulesLimits.
