(* ===== verification/RulesState.v ===== *)
(** * The state of the rule engine

    src/crates/dali2rust-rules-runtime/src/runtime/engine/{world,outcome,input,
    counters,state}.rs: the world snapshot a run reads, the effects and
    outcomes it produces, the inputs it reacts to, its counters, and the
    volatile state ([Volatile]) with its small operations.  [FlatStep] of
    exec.rs is here because a pending continuation stores a list of them.
    A [BTreeMap] is a [gmap]: no theorem below depends on its iteration order. *)

From stdpp Require Import gmap strings.
From S2P Require Import Prelude RulesBase RulesModel RulesLimits.

Module RulesState.
Import RulesModel RulesLimits.

(** ** world.rs *)

Record WallTime := mkWallTime { minutes_of_day : Z; weekday : Z }.
Record SunTimes := mkSunTimes { sunrise_min : Z; sunset_min : Z }.
Record LampState := mkLampState {
  ls_adapter_id : Z; ls_id : Z; is_on : bool; level : option Z;
  cct_kelvin : option Z; last_level : option Z; bound : bool
}.
Record GroupState := mkGroupState {
  gs_adapter_id : Z; gs_id : Z; any_on : bool; all_off : bool; member_count : Z
}.
Record DeviceState := mkDeviceState { ds_adapter_id : Z; ds_short_address : Z; online : bool }.
Record InputState := mkInputState {
  is_adapter_id : Z; is_short_address : Z; is_instance_number : Z; is_instance_type : option Z;
  occupied : option bool; light : option Z; position : option Z; last_event_age_ms : option Z
}.
(** [HclTargetKey] is [LightTarget]. *)
Record HclTargetState := mkHclTargetState { hcl_target_key : LightTarget; hcl_enabled : bool; overridden : bool }.
#[global] Instance HclTargetState_eta : Eta HclTargetState := fun h =>
  mkHclTargetState (hcl_target_key h) (hcl_enabled h) (overridden h).

(** [hcl_per_target]: one row per target, flags or-ed into the first. *)
Definition merge_hcl_row (merged : list HclTargetState) (row : HclTargetState) : list HclTargetState :=
  match find_pos (fun m => bool_decide (hcl_target_key m = hcl_target_key row)) merged with
  | Some i =>
      match merged !! i with
      | Some m => <[i := m <| hcl_enabled := hcl_enabled m || hcl_enabled row |>
                           <| overridden := overridden m || overridden row |>]> merged
      | None => merged
      end
  | None => merged ++ [row]
  end.
Definition hcl_per_target (rows : list HclTargetState) : list HclTargetState := foldl merge_hcl_row [] rows.

Record WorldSnapshot := mkWorld {
  now_ms : Z;
  wall : option WallTime;
  sun : option SunTimes;
  controller_active : bool;
  lamps : list LampState;
  groups : list GroupState;
  devices : list DeviceState;
  inputs : list InputState;
  hcl : list HclTargetState;
  hcl_schedules : list str
}.
Definition world_empty (now_ms : Z) : WorldSnapshot := mkWorld now_ms None None true [] [] [] [] [] [].

Definition world_lamp (w : WorldSnapshot) (adapter_id id : Z) : option LampState :=
  find (fun l => (ls_adapter_id l =? adapter_id) && (ls_id l =? id)) (lamps w).
Definition world_group (w : WorldSnapshot) (adapter_id id : Z) : option GroupState :=
  find (fun g => (gs_adapter_id g =? adapter_id) && (gs_id g =? id)) (groups w).
Definition world_device (w : WorldSnapshot) (adapter_id short_address : Z) : option DeviceState :=
  find (fun d => (ds_adapter_id d =? adapter_id) && (ds_short_address d =? short_address)) (devices w).
Definition world_input (w : WorldSnapshot) (adapter_id sa inst : Z) : option InputState :=
  find (fun i => (is_adapter_id i =? adapter_id) && (is_short_address i =? sa) && (is_instance_number i =? inst))
       (inputs w).
Definition world_hcl_target (w : WorldSnapshot) (target : LightTarget) : option HclTargetState :=
  find (fun h => bool_decide (hcl_target_key h = target)) (hcl w).
Definition any_lamp_on (w : WorldSnapshot) (adapter_id : Z) : bool :=
  existsb (fun l => (ls_adapter_id l =? adapter_id) && is_on l) (lamps w).

(** ** outcome.rs *)

Inductive LightVerb :=
| LightVerb_On (level : option Z)
| LightVerb_Off
| LightVerb_Level (level : Z)
| LightVerb_Dim (delta : Z)
| LightVerb_Cct (kelvin : Z)
| LightVerb_CctRelative (delta_k : Z)
| LightVerb_Xy (x_1e4 y_1e4 : Z)
| LightVerb_Rgb (r g b : Z)
| LightVerb_LastActive
| LightVerb_StopFade
| LightVerb_RecallMax
| LightVerb_RecallMin
| LightVerb_DimUp
| LightVerb_DimDown.

Definition stands_alone (v : LightVerb) : bool :=
  match v with
  | LightVerb_StopFade | LightVerb_RecallMax | LightVerb_RecallMin | LightVerb_DimUp | LightVerb_DimDown => true
  | _ => false
  end.

Inductive Effect :=
| Effect_Light (target : LightTarget) (verb : LightVerb) (hold_hcl : bool)
| Effect_SceneRecall (scene : Z) (target : option LightTarget) (hold_hcl : bool)
| Effect_SceneApply (scene : Z) (hold_hcl : bool)
| Effect_HclResume (target : LightTarget)
| Effect_HclHold (target : LightTarget)
| Effect_HclSchedule (schedule : str) (enabled : bool)
| Effect_InputFeedback (input : InputRef) (on : bool)
| Effect_PanelSelect (adapter_id group selected : Z)
| Effect_CancelHold (input : InputRef)
| Effect_CatchMovement (input : InputRef)
| Effect_MqttPublish (topic payload : str) (retain : bool)
| Effect_Log (text : str).

Inductive PartialReason := ConditionUnevaluable | EffectBudget | ChainDepth.

Record ActivationOutcome := mkOutcome {
  out_rule : str;
  out_dry : bool;
  out_effects : list Effect;
  out_partial : option PartialReason;
  out_trigger_kind : TriggerKind
}.

(** ** input.rs *)

Inductive InputEventKind :=
| InputEventKind_Press | InputEventKind_Release | InputEventKind_ShortPress | InputEventKind_DoublePress
| InputEventKind_LongPressStart | InputEventKind_LongPressRepeat | InputEventKind_LongPressStop
| InputEventKind_ButtonStuck | InputEventKind_ButtonFree | InputEventKind_BecameOccupied
| InputEventKind_BecameVacant | InputEventKind_Movement | InputEventKind_NoMovement
| InputEventKind_LightCrossedAbove | InputEventKind_LightCrossedBelow | InputEventKind_PositionChanged
| InputEventKind_Generic.
#[global] Instance InputEventKind_eq_dec : EqDecision InputEventKind.
Proof. solve_decision. Defined.

Inductive EngineInput :=
| In_InputEvent (adapter_id : Z) (short_address instance_number instance_type : option Z)
    (instance_groups : list (option Z)) (kind : InputEventKind) (value : Z)
| In_LampChanged (adapter_id lamp_id : Z) (is_on : bool) (level : option Z) (was_on : bool)
    (previous_level : option Z)
| In_GroupChanged (adapter_id group_id : Z) (any_on was_any_on : bool)
| In_SceneRecalled (adapter_id scene_id : Z)
| In_DevicePresence (adapter_id short_address : Z) (online : bool)
| In_HclOverride (started : bool) (target : LightTarget)
| In_ControllerActive (active : bool)
| In_ControllerStarts
| In_PowerCycled (adapter_id : Z) (short_address : option Z)
| In_ManualConfigChanged (adapter_id short_address : Z)
| In_RunRule (name : str) (dry : bool)
| In_Tick
| In_RuleFailed (name : str)
| In_MqttMessage (topic : str) (payload : list Z) (truncated : bool).

(** ** counters.rs *)

Record EngineCounters := mkCounters {
  activations_total : Z;
  activations_dry : Z;
  suppressed_cooldown : Z;
  suppressed_disabled : Z;
  conditions_rejected : Z;
  partial_outcomes : Z;
  chain_depth_exceeded : Z;
  effects_emitted : Z;
  actions_failed : Z;
  continuations_scheduled : Z;
  continuations_fired : Z;
  continuations_dropped : Z;
  ticks_time_unsynced : Z
}.
#[global] Instance EngineCounters_eta : Eta EngineCounters := fun c =>
  mkCounters (activations_total c) (activations_dry c) (suppressed_cooldown c) (suppressed_disabled c)
    (conditions_rejected c) (partial_outcomes c) (chain_depth_exceeded c) (effects_emitted c)
    (actions_failed c) (continuations_scheduled c) (continuations_fired c) (continuations_dropped c)
    (ticks_time_unsynced c).
Definition counters_default : EngineCounters := mkCounters 0 0 0 0 0 0 0 0 0 0 0 0 0.

(** [bump]: a saturating [u32]. *)
Definition bump (c : Z) : Z := sat_add 32 c 1.

(** ** state.rs *)

Definition MAX_CHAIN_DEPTH : Z := 4.
Definition CHAIN_WINDOW_MS : Z := 2000.
Definition MAX_PENDING_CONTINUATIONS : Z := 32.
Definition MAX_TIMERS : Z := 16.
Definition MAX_VARS : Z := 16.
Definition INPUT_VALUE_MASK_10BIT : Z := 0x3FF.

Record EventCtx := mkEventCtx {
  ev_value : option Z; ev_device : option Z; ev_instance : option Z; ev_option : option Z }.
Definition event_ctx_default : EventCtx := mkEventCtx None None None None.

Inductive ChainKey :=
| ChainKey_Lamp (adapter_id id : Z)
| ChainKey_Group (adapter_id id : Z)
| ChainKey_AdapterWide (adapter_id : Z)
| ChainKey_Scene (scene : Z)
| ChainKey_Hcl (target : LightTarget)
| ChainKey_BrokerTopic (topic : str).
#[global] Instance ChainKey_eq_dec : EqDecision ChainKey.
Proof. solve_decision. Defined.

Record ChainEntry := mkChainEntry { chain_key : ChainKey; chain_depth : Z; chain_at_ms : Z }.
Record NamedTimer := mkTimer { timer_name : str; timer_due_ms : Z }.

(** exec.rs: the flat program of a rule. *)
Inductive FlatStep :=
| FlatStep_Prim (action : Action)
| FlatStep_Wait (ms : Z)
| FlatStep_Branch (condition : Condition) (then_len else_len : nat)
| FlatStep_AfterSched (delay_ms : Z) (body : list FlatStep)
| FlatStep_Fail.

Record Continuation := mkContinuation {
  cont_seq : Z;
  cont_due_ms : Z;
  cont_rule : str;
  cont_trigger_kind : TriggerKind;
  cont_depth : Z;
  cont_budget_left : nat;
  cont_ctx : EventCtx;
  cont_steps : list FlatStep
}.

Record EverySlot := mkEverySlot {
  every_rule : str; every_trigger_idx : nat; every_period_ms : Z; every_due_ms : Z }.
#[global] Instance EverySlot_eta : Eta EverySlot := fun e =>
  mkEverySlot (every_rule e) (every_trigger_idx e) (every_period_ms e) (every_due_ms e).

Record Volatile := mkVolatile {
  last_activation_ms : gmap str Z;
  cycle_pos : gmap str Z;
  vars : gmap str VarValue;
  timers : list NamedTimer;
  continuations : list Continuation;
  every : list EverySlot;
  chain : list ChainEntry;
  light_edge : gmap (Z * Z * Z) Z;
  stats : gmap str Z;
  prev_week_min : option Z;
  seq_ : Z
}.
#[global] Instance Volatile_eta : Eta Volatile := fun v =>
  mkVolatile (last_activation_ms v) (cycle_pos v) (vars v) (timers v) (continuations v) (every v) (chain v)
    (light_edge v) (stats v) (prev_week_min v) (seq_ v).
Definition volatile_default : Volatile := mkVolatile ∅ ∅ ∅ [] [] [] [] ∅ ∅ None 0.

(** [next_seq] returns the new value, so the caller reads [seq_] of the result. *)
Definition next_seq (v : Volatile) : Volatile := v <| seq_ := wrapping_add 64 (seq_ v) 1 |>.

Definition in_chain_window (now : Z) (e : ChainEntry) : bool := sat_sub now (chain_at_ms e) <=? CHAIN_WINDOW_MS.
Definition prune_chain (v : Volatile) (now : Z) : Volatile :=
  v <| chain := List.filter (in_chain_window now) (chain v) |>.

(** [iter().max()] of the depths, plus one; 0 without an entry. *)
Definition chain_depth_for (v : Volatile) (keys : list ChainKey) (now : Z) : Z :=
  let depths := map chain_depth
    (List.filter (fun e => in_chain_window now e && existsb (fun k => bool_decide (chain_key e = k)) keys)
       (chain v)) in
  match depths with
  | [] => 0
  | d :: ds => sat_add 32 (foldl Z.max d ds) 1
  end.

Definition record_chain (v : Volatile) (key : ChainKey) (depth now : Z) : Volatile :=
  v <| chain := chain v ++ [mkChainEntry key depth now] |>.

Definition find_timer (v : Volatile) (name : str) : option NamedTimer :=
  find (fun t => str_eqb (timer_name t) name) (timers v).
Definition cancel_timer (v : Volatile) (name : str) : Volatile :=
  v <| timers := List.filter (fun t => negb (str_eqb (timer_name t) name)) (timers v) |>.

Definition retain_rule_names (v : Volatile) (survives : str -> bool) : Volatile :=
  v <| last_activation_ms := filter (fun kv => survives kv.1 = true) (last_activation_ms v) |>
    <| cycle_pos := filter (fun kv => survives kv.1 = true) (cycle_pos v) |>.

Definition keep_stats (v : Volatile) (names : list str) : Volatile :=
  let kept := stats v in
  v <| stats := foldl (fun m name => <[name := default 0 (kept !! name)]> m) ∅ names |>.

Definition count_stat (v : Volatile) (name : str) : Volatile :=
  match stats v !! name with
  | Some count => v <| stats := <[name := wrapping_add 32 count 1]> (stats v) |>
  | None => v
  end.

Definition lamp_chain_keys (adapter_id lamp_id : Z) : list ChainKey :=
  [ChainKey_Lamp adapter_id lamp_id; ChainKey_AdapterWide adapter_id].
Definition group_chain_keys (adapter_id group_id : Z) : list ChainKey :=
  [ChainKey_Group adapter_id group_id; ChainKey_AdapterWide adapter_id].
(** The [Some] entries of [target_chain_keys], in order. *)
Definition target_chain_keys (target : LightTarget) : list ChainKey :=
  match target with
  | LightTarget_Lamp l => [ChainKey_Lamp (lamp_adapter_id l) (lamp_id l)]
  | LightTarget_Group g => [ChainKey_Group (group_adapter_id g) (group_id g); ChainKey_AdapterWide (group_adapter_id g)]
  | LightTarget_Broadcast adapter_id => [ChainKey_AdapterWide adapter_id]
  end.

(** ** Facts *)

(** The depth a stimulus inherits: one more than the deepest recent entry under its keys. *)
Lemma chain_depth_for_ge v keys now e :
  e ∈ chain v -> in_chain_window now e = true -> chain_key e ∈ keys -> 0 <= chain_depth e < umax 32 ->
  chain_depth e < chain_depth_for v keys now.
Proof.
  intros He Hw Hk Hd. unfold chain_depth_for.
  assert (In (chain_depth e) (map chain_depth (List.filter (fun e => in_chain_window now e &&
    existsb (fun k => bool_decide (chain_key e = k)) keys) (chain v)))) as Hin.
  { apply in_map, filter_In. split; [now apply list_elem_of_In|]. rewrite Hw. cbn. apply existsb_exists.
    exists (chain_key e). split; [now apply list_elem_of_In|]. now apply bool_decide_eq_true. }
  destruct (map chain_depth _) as [|d ds]; [done|]. cbn -[Z.max].
  assert (forall ds d, d <= foldl Z.max d ds /\ forall x, In x ds -> x <= foldl Z.max d ds) as Hmax.
  { clear. induction ds as [|y ds IH]; intros d; cbn; [split; [lia|done]|]. destruct (IH (Z.max d y)) as [H1 H2].
    split; [lia|]. intros x [->|Hx]; [lia|auto]. }
  specialize (Hmax ds d) as [H1 H2]. assert (chain_depth e <= foldl Z.max d ds) by (destruct Hin as [<-|?]; auto).
  unfold sat_add, umax in *. lia.
Qed.

Lemma keep_stats_lookup v names name :
  stats (keep_stats v names) !! name =
  if contains names name then Some (default 0 (stats v !! name)) else None.
Proof.
  unfold keep_stats. cbn -[contains].
  enough (forall (m : gmap str Z),
    foldl (fun m name => <[name := default 0 (stats v !! name)]> m) m names !! name =
    if contains names name then Some (default 0 (stats v !! name)) else m !! name) as H
    by (rewrite H, lookup_empty; reflexivity).
  induction names as [|n names IH]; intros m; cbn; [done|]. rewrite IH. change (contains (n :: names) name) with (str_eqb name n || contains names name).
  destruct (str_eqb name n) eqn:E.
  - apply str_eqb_spec in E as ->. rewrite lookup_insert_eq. now destruct (contains names n).
  - apply str_eqb_neq in E. now rewrite lookup_insert_ne.
Qed.

End RulesState.
