(* ===== verification/RulesEval.v ===== *)
(** * Reading values and conditions

    src/crates/dali2rust-rules-runtime/src/runtime/engine/eval.rs: a reading or
    a condition over the world snapshot, the volatile state, the enabled bits
    and the event; [Unevaluable] where the snapshot does not know. *)

From stdpp Require Import gmap.
From S2P Require Import Prelude RulesBase RulesModel RulesLimits RulesState.

Module RulesEval.
Import RulesModel RulesState.

Inductive Unevaluable_t := Unevaluable.
Definition EvalResult (T : Type) : Type := Result T Unevaluable_t.

Record EvalEnv := mkEvalEnv {
  world : WorldSnapshot;
  vol : Volatile;
  env_rules : RuleSet;
  enabled : list bool;
  ctx : EventCtx
}.

Definition i64_MIN : Z := - 2 ^ 63.
Definition i64_MAX : Z := 2 ^ 63 - 1.
(** [i64::saturating_add]. *)
Definition sat_i64 (a b : Z) : Z := Z.max i64_MIN (Z.min i64_MAX (a + b)).

Definition or_unevaluable (o : option Z) : EvalResult Z := ok_or o Unevaluable.

Definition lamp_reading (env : EvalEnv) (reading : Reading) (adapter id : Z) : EvalResult Z :=
  let? lamp := ok_or (world_lamp (world env) adapter id) Unevaluable in
  match reading with
  | Reading_LampLevel _ => or_unevaluable (level lamp)
  | Reading_LampCct _ => or_unevaluable (cct_kelvin lamp)
  | Reading_LampIsOn _ => Ok (Z_of_bool (is_on lamp))
  | _ => or_unevaluable (last_level lamp)
  end.

Definition group_reading (env : EvalEnv) (reading : Reading) (adapter id : Z) : EvalResult Z :=
  let? group := ok_or (world_group (world env) adapter id) Unevaluable in
  match reading with
  | Reading_GroupAnyOn _ => Ok (Z_of_bool (any_on group))
  | Reading_GroupAllOff _ => Ok (Z_of_bool (all_off group))
  | _ => Ok (member_count group)
  end.

Definition numeric_10bit (value : option Z) : EvalResult Z :=
  match value with
  | Some v => if negb (v =? INPUT_VALUE_MASK_10BIT) then Ok v else Err Unevaluable
  | None => Err Unevaluable
  end.

Definition input_reading (env : EvalEnv) (reading : Reading) (input : InputRef) : EvalResult Z :=
  let? st := ok_or (world_input (world env) (input_adapter_id input) (input_short_address input)
                      (input_instance_number input)) Unevaluable in
  match reading with
  | Reading_InputOccupied _ => or_unevaluable (option_map Z_of_bool (occupied st))
  | Reading_InputLight _ => numeric_10bit (light st)
  | Reading_InputPosition _ => numeric_10bit (position st)
  | _ => or_unevaluable (last_event_age_ms st)
  end.

Definition time_reading (env : EvalEnv) (reading : Reading) : EvalResult Z :=
  let? wall := ok_or (wall (world env)) Unevaluable in
  match reading with
  | Reading_TimeNow => Ok (minutes_of_day wall)
  | Reading_TimeHour => Ok (minutes_of_day wall / 60)
  | Reading_TimeMinute => Ok (minutes_of_day wall mod 60)
  | _ => Ok (weekday wall)
  end.

Definition sun_is_up (env : EvalEnv) : EvalResult bool :=
  let? wall := ok_or (wall (world env)) Unevaluable in
  let? sun := ok_or (sun (world env)) Unevaluable in
  let t := minutes_of_day wall in
  Ok ((sunrise_min sun <=? t) && (t <? sunset_min sun)).

Definition sun_reading (env : EvalEnv) (reading : Reading) : EvalResult Z :=
  let? sun := ok_or (sun (world env)) Unevaluable in
  match reading with
  | Reading_SunRise => Ok (sunrise_min sun)
  | Reading_SunSet => Ok (sunset_min sun)
  | _ => let? up := sun_is_up env in Ok (Z_of_bool up)
  end.

Definition var_int (env : EvalEnv) (name : str) : EvalResult Z :=
  match vars (vol env) !! name with
  | Some (VarValue_Int v) => Ok v
  | _ => Err Unevaluable
  end.

Definition eval_reading (env : EvalEnv) (reading : Reading) : EvalResult Z :=
  match reading with
  | Reading_LampLevel lamp | Reading_LampCct lamp | Reading_LampIsOn lamp | Reading_LampLastLevel lamp =>
      lamp_reading env reading (lamp_adapter_id lamp) (lamp_id lamp)
  | Reading_GroupAnyOn group | Reading_GroupAllOff group | Reading_GroupMemberCount group =>
      group_reading env reading (group_adapter_id group) (group_id group)
  | Reading_InputOccupied input | Reading_InputLight input | Reading_InputPosition input
  | Reading_InputLastEventAge input => input_reading env reading input
  | Reading_TimeNow | Reading_TimeHour | Reading_TimeMinute | Reading_TimeWeekday => time_reading env reading
  | Reading_SunRise | Reading_SunSet | Reading_SunIsUp => sun_reading env reading
  | Reading_Var name => var_int env name
  | Reading_EventValue => or_unevaluable (ev_value (ctx env))
  | Reading_EventDevice => or_unevaluable (ev_device (ctx env))
  | Reading_EventInstance => or_unevaluable (ev_instance (ctx env))
  | Reading_EventOption => or_unevaluable (ev_option (ctx env))
  end.

Definition eval_value (env : EvalEnv) (expr : ValueExpr) : EvalResult Z :=
  match expr with
  | ValueExpr_Literal v => Ok v
  | ValueExpr_Reading r => eval_reading env r
  | ValueExpr_Offset reading delta => let? v := eval_reading env reading in Ok (sat_i64 v delta)
  end.

(** [i32] division truncates ([Z.quot]), [rem_euclid] is [Z.modulo]; [as u16] of a
    value below 1440 changes nothing. *)
Definition solar_minute (sun : SunTimes) (event : SolarEvent) (offset_ms : Z) : Z :=
  let base := match event with
              | SolarEvent_Sunrise => sunrise_min sun
              | SolarEvent_Sunset => sunset_min sun
              end in
  (base + Z.quot offset_ms 60000) mod 1440.

Definition resolve_time_bound (env : EvalEnv) (bound : TimeBound) : EvalResult Z :=
  match bound with
  | TimeBound_Clock t => Ok (hour t * 60 + minute t)
  | TimeBound_Solar event offset_ms =>
      let? sun := ok_or (sun (world env)) Unevaluable in Ok (solar_minute sun event offset_ms)
  end.

Definition minute_in_range (t start end_ : Z) : bool :=
  if start <=? end_ then (start <=? t) && (t <=? end_) else (start <=? t) || (t <=? end_).

Definition compare_i64 (cmp : Cmp) (left right : Z) : bool :=
  match cmp with
  | Cmp_Eq => left =? right
  | Cmp_Ne => negb (left =? right)
  | Cmp_Ge => right <=? left
  | Cmp_Le => left <=? right
  | Cmp_Gt => right <? left
  | Cmp_Lt => left <? right
  end.

Definition compare_var (env : EvalEnv) (name : str) (cmp : Cmp) (operand : VarOperand) : EvalResult bool :=
  match vars (vol env) !! name, operand with
  | Some (VarValue_Text t), VarOperand_Text rhs =>
      Ok (match cmp with Cmp_Eq => str_eqb t rhs | Cmp_Ne => negb (str_eqb t rhs) | _ => false end)
  | Some (VarValue_Int v), VarOperand_Value expr =>
      let? rhs := eval_value env expr in Ok (compare_i64 cmp v rhs)
  | _, _ => Ok (match cmp with Cmp_Ne => true | _ => false end)
  end.

Definition time_in_range_cond (env : EvalEnv) (start end_ : TimeBound) : EvalResult bool :=
  let? wall := ok_or (wall (world env)) Unevaluable in
  let? s := resolve_time_bound env start in
  let? e := resolve_time_bound env end_ in
  Ok (minute_in_range (minutes_of_day wall) s e).

Definition day_in_cond (env : EvalEnv) (days : DaySet) : EvalResult bool :=
  let? wall := ok_or (wall (world env)) Unevaluable in
  let? day := ok_or (Weekday_ALL !! Z.to_nat (weekday wall)) Unevaluable in
  Ok (day_set_contains days day).

Definition lamp_level_cond (env : EvalEnv) (lamp : LampRef) (cmp : Cmp) (value : ValueExpr) : EvalResult bool :=
  let? state := ok_or (world_lamp (world env) (lamp_adapter_id lamp) (lamp_id lamp)) Unevaluable in
  match level state with
  | None => Ok false
  | Some lvl => let? rhs := eval_value env value in Ok (compare_i64 cmp lvl rhs)
  end.

Definition lamp_is_cond (env : EvalEnv) (lamp : LampRef) (on : bool) : EvalResult bool :=
  let? state := ok_or (world_lamp (world env) (lamp_adapter_id lamp) (lamp_id lamp)) Unevaluable in
  Ok (eqb (is_on state) on).

Definition reading_cmp (env : EvalEnv) (reading : Reading) (cmp : Cmp) (value : ValueExpr) : EvalResult bool :=
  let? lhs := eval_reading env reading in
  let? rhs := eval_value env value in
  Ok (compare_i64 cmp lhs rhs).

Definition group_state_cond (env : EvalEnv) (group : GroupRef) (state : GroupAggregate) : EvalResult bool :=
  let? g := ok_or (world_group (world env) (group_adapter_id group) (group_id group)) Unevaluable in
  Ok (match state with GroupAggregate_AnyOn => any_on g | GroupAggregate_AllOff => all_off g end).

Definition input_light_cond (env : EvalEnv) (input : InputRef) (above : bool) (threshold : ValueExpr)
    : EvalResult bool :=
  let? lhs := eval_reading env (Reading_InputLight input) in
  let? bound := eval_value env threshold in
  Ok (if above then bound <? lhs else lhs <? bound).

Definition hcl_state (env : EvalEnv) (target : LightTarget) (state : HclState) : bool :=
  match world_hcl_target (world env) target with
  | Some row => match state with HclState_Enabled => hcl_enabled row | HclState_Overridden => overridden row end
  | None => false
  end.

(** [rule_enabled]: the volatile bit of the first rule of that name. *)
Definition rule_bit (rules : RuleSet) (enabled : list bool) (name : str) : bool :=
  match rule_position rules name with
  | Some idx => default false (enabled !! idx)
  | None => false
  end.
Definition rule_enabled_now (env : EvalEnv) (name : str) : bool := rule_bit (env_rules env) (enabled env) name.

Definition last_fired_older (env : EvalEnv) (rule : str) (than_ms : Z) : bool :=
  match last_activation_ms (vol env) !! rule with
  | Some at_ => than_ms <? sat_sub (now_ms (world env)) at_
  | None => true
  end.

Definition eval_condition (env : EvalEnv) (condition : Condition) : EvalResult bool :=
  match condition with
  | Condition_TimeInRange start end_ => time_in_range_cond env start end_
  | Condition_DayIn days => day_in_cond env days
  | Condition_SunIs up => let? v := sun_is_up env in Ok (eqb v up)
  | Condition_LampIs lamp on => lamp_is_cond env lamp on
  | Condition_LampLevel lamp cmp value => lamp_level_cond env lamp cmp value
  | Condition_LampCct lamp cmp value => reading_cmp env (Reading_LampCct lamp) cmp value
  | Condition_GroupState group state => group_state_cond env group state
  | Condition_InputOccupancy input occupied =>
      let? lhs := eval_reading env (Reading_InputOccupied input) in
      Ok (eqb (negb (lhs =? 0)) occupied)
  | Condition_InputLight input above threshold => input_light_cond env input above threshold
  | Condition_HclState target state => Ok (hcl_state env target state)
  | Condition_DeviceOnline device =>
      Ok (match world_device (world env) (device_adapter_id device) (device_short_address device) with
          | Some d => online d
          | None => false
          end)
  | Condition_RuleEnabled rule => Ok (rule_enabled_now env rule)
  | Condition_LastFiredOlderThan rule than_ms => Ok (last_fired_older env rule than_ms)
  | Condition_TimerRunning timer => Ok (match find_timer (vol env) timer with Some _ => true | None => false end)
  | Condition_ControllerActive => Ok (controller_active (world env))
  | Condition_VarCompare name cmp value => compare_var env name cmp value
  end.

(** ** Facts *)

(** A range that wraps midnight is the cyclic interval from [start] to [end_]. *)
Lemma minute_in_range_cyclic t s e :
  0 <= t < 1440 -> 0 <= s < 1440 -> 0 <= e < 1440 ->
  minute_in_range t s e = ((t - s) mod 1440 <=? (e - s) mod 1440).
Proof.
  intros Ht Hs He. unfold minute_in_range.
  assert (forall a, -1440 < a < 1440 -> a mod 1440 = if a <? 0 then a + 1440 else a) as Hm.
  { intros a Ha. destruct (Z.ltb_spec a 0); [|apply Z.mod_small; lia].
    replace a with (a + 1440 + (-1) * 1440) at 1 by lia. rewrite Z.mod_add by lia. apply Z.mod_small. lia. }
  rewrite !Hm by lia. destruct (Z.leb_spec s e), (Z.ltb_spec (t - s) 0), (Z.ltb_spec (e - s) 0); lia.
Qed.

Lemma solar_minute_range sun event offset : 0 <= solar_minute sun event offset < 1440.
Proof. unfold solar_minute. apply Z.mod_pos_bound. lia. Qed.

(** Negation of a comparison: evaluating [Eq]/[Ne], [Ge]/[Lt], [Le]/[Gt] on the same values. *)
Definition cmp_negate (c : Cmp) : Cmp :=
  match c with
  | Cmp_Eq => Cmp_Ne | Cmp_Ne => Cmp_Eq | Cmp_Ge => Cmp_Lt | Cmp_Lt => Cmp_Ge | Cmp_Le => Cmp_Gt | Cmp_Gt => Cmp_Le
  end.
Lemma compare_i64_negate c l r : compare_i64 (cmp_negate c) l r = negb (compare_i64 c l r).
Proof. destruct c; cbn; lia. Qed.

End RulesEval.
