(* ===== verification/RulesExec.v ===== *)
(** * Expanding and executing a rule

    src/crates/dali2rust-rules-runtime/src/runtime/engine/exec.rs: a rule's
    actions are expanded into a flat program ([flatten_rule]: calls inlined,
    repeats multiplied, a branch node followed by its two regions), and
    [run_steps] interprets it with a budget; [wait] and [after] end in pending
    continuations.  [run_loop] recurses on the budget the code decrements, so
    it is total without fuel; the calls of [flatten_call] recurse on the call
    depth left, as in RulesLimits. *)

From stdpp Require Import gmap.
From S2P Require Import Prelude RulesBase RulesModel RulesLimits RulesState RulesEval.

Module RulesExec.
Import RulesModel RulesLimits RulesState RulesEval.

(** ** Expansion *)

Definition FLATTEN_STEP_CAP : nat := 256.

Record FlattenCtx := mkFlattenCtx {
  f_call_depth : nat; f_in_repeat : bool; f_in_conditional : bool; f_in_after : bool }.
#[global] Instance FlattenCtx_eta : Eta FlattenCtx := fun c =>
  mkFlattenCtx (f_call_depth c) (f_in_repeat c) (f_in_conditional c) (f_in_after c).
Definition flatten_ctx_default : FlattenCtx := mkFlattenCtx 0 false false false.

(** What appends steps to [out] in a context. *)
Definition flattener : Type := list FlatStep -> FlattenCtx -> list FlatStep.

Definition flatten_after (delay_ms : Z) (body : flattener) : flattener := fun out ctx =>
  if f_in_after ctx then out ++ [FlatStep_Fail]
  else out ++ [FlatStep_AfterSched delay_ms (body [] (ctx <| f_in_after := true |>))].

(** [for _ in 0..count]. *)
Fixpoint repeat_body (count : nat) (body out : list FlatStep) : list FlatStep :=
  match count with
  | O => out
  | S count =>
      if (FLATTEN_STEP_CAP <? length out + length body)%nat then out ++ [FlatStep_Fail]
      else repeat_body count body (out ++ body)
  end.

Definition flatten_repeat (count : Z) (body : flattener) : flattener := fun out ctx =>
  if f_in_repeat ctx || (count =? 0) || (MAX_REPEAT <? count) then out ++ [FlatStep_Fail]
  else repeat_body (Z.to_nat count) (body [] (ctx <| f_in_repeat := true |>)) out.

Definition flatten_branch (condition : Condition) (then_body else_body : flattener) : flattener := fun out ctx =>
  if f_in_conditional ctx then out ++ [FlatStep_Fail]
  else
    let node := length out in
    let nested := ctx <| f_in_conditional := true |> in
    let out := then_body (out ++ [FlatStep_Branch condition 0 0]) nested in
    let then_len := (length out - node - 1)%nat in
    let out := else_body out nested in
    let else_len := (length out - node - 1 - then_len)%nat in
    <[node := FlatStep_Branch condition then_len else_len]> out.

Section Flatten.
Context (flatten_call : str -> flattener).

(** The loop of [flatten_list]. *)
Definition flatten_list_with (flatten_action : Action -> flattener) (ctx : FlattenCtx) :
    list FlatStep -> list Action -> list FlatStep :=
  fix go (out : list FlatStep) (actions : list Action) :=
    match actions with
    | [] => out
    | action :: actions =>
        if (FLATTEN_STEP_CAP <=? length out)%nat then out ++ [FlatStep_Fail]
        else go (flatten_action action out ctx) actions
    end.

Fixpoint flatten_action (action : Action) (out : list FlatStep) (ctx : FlattenCtx) {struct action}
    : list FlatStep :=
  match action with
  | Action_Flow flow =>
      match flow with
      | FlowAction_Wait duration_ms => out ++ [FlatStep_Wait duration_ms]
      | FlowAction_After delay_ms actions =>
          flatten_after delay_ms (fun o c => flatten_list_with flatten_action c o actions) out ctx
      | FlowAction_Call block => flatten_call block out ctx
      | FlowAction_Repeat count actions =>
          flatten_repeat count (fun o c => flatten_list_with flatten_action c o actions) out ctx
      | FlowAction_Conditional condition then_actions else_actions =>
          flatten_branch condition (fun o c => flatten_list_with flatten_action c o then_actions)
                                   (fun o c => flatten_list_with flatten_action c o else_actions) out ctx
      | _ => out ++ [FlatStep_Prim action]
      end
  | _ => out ++ [FlatStep_Prim action]
  end.

Definition flatten_list (actions : list Action) : flattener := fun out ctx =>
  flatten_list_with flatten_action ctx out actions.
End Flatten.

Fixpoint flatten_call (blocks : list DefBlock) (fuel : nat) (block : str) (out : list FlatStep) (ctx : FlattenCtx)
    : list FlatStep :=
  match find_block blocks block with
  | None => out ++ [FlatStep_Fail]
  | Some def =>
      let next_depth := (f_call_depth ctx + 1)%nat in
      if (MAX_BLOCK_CALL_DEPTH <? next_depth)%nat then out ++ [FlatStep_Fail]
      else match fuel with
           | O => out ++ [FlatStep_Fail]
           | S fuel => flatten_list (flatten_call blocks fuel) (block_actions def) out
                         (ctx <| f_call_depth := next_depth |>)
           end
  end.

Definition flatten_rule (actions : list Action) (blocks : list DefBlock) : list FlatStep :=
  flatten_list (flatten_call blocks MAX_BLOCK_CALL_DEPTH) actions [] flatten_ctx_default.

(** ** Execution *)

Record ExecEnv := mkExecEnv {
  e_world : WorldSnapshot;
  e_rules : RuleSet;
  e_enabled : list bool;
  e_vol : Volatile;
  e_counters : EngineCounters
}.
#[global] Instance ExecEnv_eta : Eta ExecEnv := fun e =>
  mkExecEnv (e_world e) (e_rules e) (e_enabled e) (e_vol e) (e_counters e).

Record Job := mkJob {
  job_rule : str;
  job_trigger_kind : TriggerKind;
  job_depth : Z;
  job_dry : bool;
  job_hold_hcl : bool;
  job_ctx : EventCtx;
  job_budget_left : nat;
  job_steps : list FlatStep
}.
#[global] Instance Job_eta : Eta Job := fun j =>
  mkJob (job_rule j) (job_trigger_kind j) (job_depth j) (job_dry j) (job_hold_hcl j) (job_ctx j)
    (job_budget_left j) (job_steps j).

Definition budget_for_activation : nat := Z.to_nat MAX_ACTIONS_EXPANDED.

Record RunOutput := mkRunOutput { run_effects : list Effect; run_partial : option PartialReason }.
#[global] Instance RunOutput_eta : Eta RunOutput := fun o => mkRunOutput (run_effects o) (run_partial o).

(** [note_partial] keeps the first reason. *)
Definition note_partial (out : RunOutput) (reason : PartialReason) : RunOutput :=
  match run_partial out with
  | None => out <| run_partial := Some reason |>
  | Some _ => out
  end.

Definition bump_failed (env : ExecEnv) : ExecEnv :=
  env <| e_counters := (e_counters env) <| actions_failed := bump (actions_failed (e_counters env)) |> |>.

Definition eval_env (env : ExecEnv) (ctx : EventCtx) : EvalEnv :=
  mkEvalEnv (e_world env) (e_vol env) (e_rules env) (e_enabled env) ctx.
Definition eval_in (env : ExecEnv) (ctx : EventCtx) (condition : Condition) : EvalResult bool :=
  eval_condition (eval_env env ctx) condition.
Definition value_in (env : ExecEnv) (ctx : EventCtx) (expr : ValueExpr) : EvalResult Z :=
  eval_value (eval_env env ctx) expr.

Definition clamp_level (value : Z) : Z := Z.max 0 (Z.min MAX_LEVEL value).
Definition clamp_kelvin (value : Z) : Z := Z.max 0 (Z.min (umax 16) value).

Definition opt_level (env : ExecEnv) (job : Job) (level : option ValueExpr) : EvalResult (option Z) :=
  match level with
  | None => Ok None
  | Some expr => let? v := value_in env (job_ctx job) expr in Ok (Some (clamp_level v))
  end.

Definition toggle_verb (env : ExecEnv) (job : Job) (level : option ValueExpr) (target : LightTarget)
    : EvalResult LightVerb :=
  let? currently_on :=
    match target with
    | LightTarget_Lamp l =>
        let? s := ok_or (world_lamp (e_world env) (lamp_adapter_id l) (lamp_id l)) Unevaluable in Ok (is_on s)
    | LightTarget_Group g =>
        let? s := ok_or (world_group (e_world env) (group_adapter_id g) (group_id g)) Unevaluable in Ok (any_on s)
    | LightTarget_Broadcast adapter_id => Ok (any_lamp_on (e_world env) adapter_id)
    end in
  if currently_on : bool then Ok LightVerb_Off
  else let? l := opt_level env job level in Ok (LightVerb_On l).

Definition level_verb (env : ExecEnv) (job : Job) (lvl : LevelSpec) (target : LightTarget)
    : EvalResult LightVerb :=
  match lvl with
  | LevelSpec_Absolute expr =>
      let? v := value_in env (job_ctx job) expr in Ok (LightVerb_Level (clamp_level v))
  | LevelSpec_Relative delta =>
      match target with
      | LightTarget_Lamp l =>
          let? lamp := ok_or (world_lamp (e_world env) (lamp_adapter_id l) (lamp_id l)) Unevaluable in
          let? cur := or_unevaluable (level lamp) in
          Ok (LightVerb_Level (clamp_level (cur + delta)))
      | _ => Err Unevaluable
      end
  end.

Definition cct_verb (env : ExecEnv) (job : Job) (cct : CctSpec) (target : LightTarget) : EvalResult LightVerb :=
  match cct with
  | CctSpec_Absolute expr =>
      let? v := value_in env (job_ctx job) expr in Ok (LightVerb_Cct (clamp_kelvin v))
  | CctSpec_Relative delta_k =>
      match target with
      | LightTarget_Lamp l =>
          match world_lamp (e_world env) (lamp_adapter_id l) (lamp_id l) ≫= cct_kelvin with
          | Some cur => Ok (LightVerb_Cct (clamp_kelvin (cur + delta_k)))
          | None => Ok (LightVerb_CctRelative delta_k)
          end
      | _ => Err Unevaluable
      end
  end.

Definition light_verb (env : ExecEnv) (job : Job) (op : LightOp) (target : LightTarget)
    : EvalResult (option LightVerb) :=
  match op with
  | LightOp_On level => let? l := opt_level env job level in Ok (Some (LightVerb_On l))
  | LightOp_Off => Ok (Some LightVerb_Off)
  | LightOp_Toggle level => result_map Some (toggle_verb env job level target)
  | LightOp_Level level => result_map Some (level_verb env job level target)
  | LightOp_Dim delta => Ok (Some (LightVerb_Dim delta))
  | LightOp_DimHold DimDirection_Up => Ok (Some LightVerb_DimUp)
  | LightOp_DimHold DimDirection_Down => Ok (Some LightVerb_DimDown)
  | LightOp_Cct cct => result_map Some (cct_verb env job cct target)
  | LightOp_Xy x y => Ok (Some (LightVerb_Xy x y))
  | LightOp_Rgb r g b => Ok (Some (LightVerb_Rgb r g b))
  | LightOp_LastActive => Ok (Some LightVerb_LastActive)
  | LightOp_StopFade => Ok (Some LightVerb_StopFade)
  | LightOp_RecallMax => Ok (Some LightVerb_RecallMax)
  | LightOp_RecallMin => Ok (Some LightVerb_RecallMin)
  end.

(** A primitive returns the environment with its result: some change it before they fail. *)
Definition PrimResult : Type := ExecEnv * EvalResult (option Effect).

Definition prim_light (env : ExecEnv) (job : Job) (a : LightAction) : PrimResult :=
  (env, let? verb := light_verb env job (op a) (target a) in
        match verb with
        | None => Ok None
        | Some verb => Ok (Some (Effect_Light (target a) verb (default (job_hold_hcl job) (action_hold_hcl a))))
        end).

Definition scene_number (env : ExecEnv) (job : Job) (expr : ValueExpr) : EvalResult Z :=
  let? value := value_in env (job_ctx job) expr in
  if (0 <=? value) && (value <=? MAX_SCENE) then Ok value else Err Unevaluable.

Definition cycle_effect (env : ExecEnv) (job : Job) (scenes : list Z) : PrimResult :=
  if bool_decide (scenes = []) then (env, Err Unevaluable)
  else
    let pos := default 0 (cycle_pos (e_vol env) !! job_rule job) mod len scenes in
    let env :=
      if job_dry job then env
      else env <| e_vol := (e_vol env)
             <| cycle_pos := <[job_rule job := (pos + 1) mod len scenes]> (cycle_pos (e_vol env)) |> |> in
    (env, Ok (Some (Effect_SceneRecall (nth (Z.to_nat pos) scenes 0) None (job_hold_hcl job)))).

Definition prim_scene (env : ExecEnv) (job : Job) (scene : SceneAction) : PrimResult :=
  match scene with
  | SceneAction_Recall scene target =>
      (env, let? n := scene_number env job scene in
            Ok (Some (Effect_SceneRecall n target (job_hold_hcl job))))
  | SceneAction_Apply scene =>
      (env, let? n := scene_number env job scene in Ok (Some (Effect_SceneApply n (job_hold_hcl job))))
  | SceneAction_Cycle scenes => cycle_effect env job scenes
  end.

Definition prim_hcl (hcl : HclAction) : Effect :=
  match hcl with
  | HclAction_Resume target => Effect_HclResume target
  | HclAction_Hold target => Effect_HclHold target
  | HclAction_Enable schedule => Effect_HclSchedule schedule true
  | HclAction_Disable schedule => Effect_HclSchedule schedule false
  end.

Definition prim_input (env : ExecEnv) (job : Job) (input : InputAction) : EvalResult (option Effect) :=
  match input with
  | InputAction_FeedbackOn input => Ok (Some (Effect_InputFeedback input true))
  | InputAction_FeedbackOff input => Ok (Some (Effect_InputFeedback input false))
  | InputAction_PanelSelect adapter_id group selected =>
      let? value := value_in env (job_ctx job) selected in
      if negb ((0 <=? value) && (value <=? MAX_INSTANCE_GROUP)) then Err Unevaluable
      else Ok (Some (Effect_PanelSelect adapter_id group value))
  | InputAction_CancelHold input => Ok (Some (Effect_CancelHold input))
  | InputAction_CatchMovement input => Ok (Some (Effect_CatchMovement input))
  end.

Definition arm_timer (env : ExecEnv) (job : Job) (name : str) (duration_ms : Z) : ExecEnv * EvalResult unit :=
  if job_dry job then (env, Ok tt)
  else if MAX_TIMERS <=? len (timers (e_vol env)) then (env, Err Unevaluable)
  else (env <| e_vol := (e_vol env)
          <| timers := timers (e_vol env) ++ [mkTimer name (sat_add 64 (now_ms (e_world env)) duration_ms)] |> |>,
        Ok tt).

Definition cancel_timer_in (env : ExecEnv) (name : str) : ExecEnv := env <| e_vol := cancel_timer (e_vol env) name |>.

Definition prim_timer (env : ExecEnv) (job : Job) (flow : FlowAction) : ExecEnv * EvalResult unit :=
  match flow with
  | FlowAction_TimerStart timer duration_ms =>
      match find_timer (e_vol env) timer with
      | Some _ => (env, Ok tt)
      | None => arm_timer env job timer duration_ms
      end
  | FlowAction_TimerRestart timer duration_ms =>
      arm_timer (if job_dry job then env else cancel_timer_in env timer) job timer duration_ms
  | FlowAction_TimerCancel timer =>
      (if job_dry job then env else cancel_timer_in env timer, Ok tt)
  | _ => (env, Err Unevaluable)
  end.

Definition var_set (env : ExecEnv) (job : Job) (name : str) (value : VarValue) : ExecEnv * EvalResult unit :=
  if match value with VarValue_Text text => MAX_VAR_TEXT_BYTES <? str_len text | VarValue_Int _ => false end
  then (env, Err Unevaluable)
  else if job_dry job then (env, Ok tt)
  else if bool_decide (vars (e_vol env) !! name = None) && (MAX_VARS <=? Z.of_nat (size (vars (e_vol env))))
  then (env, Err Unevaluable)
  else (env <| e_vol := (e_vol env) <| vars := <[name := value]> (vars (e_vol env)) |> |>, Ok tt).

Definition var_add (env : ExecEnv) (job : Job) (name : str) (delta : ValueExpr) : ExecEnv * EvalResult unit :=
  match value_in env (job_ctx job) delta with
  | Err e => (env, Err e)
  | Ok step =>
      match vars (e_vol env) !! name with
      | Some (VarValue_Int cur) => var_set env job name (VarValue_Int (sat_i64 cur step))
      | Some (VarValue_Text _) => (env, Err Unevaluable)
      | None => var_set env job name (VarValue_Int step)
      end
  end.

(** [flip_rule_bit] on the engine's fields. *)
Definition flip_rule_bit (enabled : list bool) (vol : Volatile) (counters : EngineCounters) (idx : nat) (rule : str)
    (value : bool) : list bool * Volatile * EngineCounters :=
  let enabled := <[idx := value]> enabled in
  if negb value then
    let kept := List.filter (fun c => negb (str_eqb (cont_rule c) rule)) (continuations vol) in
    let dropped := len (continuations vol) - len kept in
    (enabled, vol <| continuations := kept |>,
     counters <| continuations_dropped := sat_add 32 (continuations_dropped counters) (wrap 32 dropped) |>)
  else (enabled, vol, counters).

Definition set_rule_bit (env : ExecEnv) (job : Job) (rule : str) (value : bool) : ExecEnv * EvalResult unit :=
  match rule_position (e_rules env) rule with
  | None => (env, Err Unevaluable)
  | Some idx =>
      if job_dry job then (env, Ok tt)
      else let '(enabled, vol, counters) :=
             flip_rule_bit (e_enabled env) (e_vol env) (e_counters env) idx rule value in
           (env <| e_enabled := enabled |> <| e_vol := vol |> <| e_counters := counters |>, Ok tt)
  end.

Definition no_effect (r : ExecEnv * EvalResult unit) : PrimResult :=
  (fst r, result_map (fun _ => None) (snd r)).

Definition prim_state (env : ExecEnv) (job : Job) (state : StateAction) : PrimResult :=
  match state with
  | StateAction_VarSet name value => no_effect (var_set env job name value)
  | StateAction_VarAdd name delta => no_effect (var_add env job name delta)
  | StateAction_RuleEnable rule => no_effect (set_rule_bit env job rule true)
  | StateAction_RuleDisable rule => no_effect (set_rule_bit env job rule false)
  | StateAction_MqttPublish topic payload retain => (env, Ok (Some (Effect_MqttPublish topic payload retain)))
  | StateAction_Log text => (env, Ok (Some (Effect_Log text)))
  | StateAction_StatCount name =>
      (if job_dry job then env else env <| e_vol := count_stat (e_vol env) name |>, Ok None)
  end.

Definition prim_action (env : ExecEnv) (job : Job) (action : Action) : PrimResult :=
  match action with
  | Action_Light light => prim_light env job light
  | Action_Scene scene => prim_scene env job scene
  | Action_Hcl hcl => (env, Ok (Some (prim_hcl hcl)))
  | Action_Input input => (env, prim_input env job input)
  | Action_Flow flow => no_effect (prim_timer env job flow)
  | Action_State state => prim_state env job state
  end.

Definition run_prim (env : ExecEnv) (job : Job) (action : Action) (out : RunOutput) : ExecEnv * RunOutput :=
  let '(env, executed) := prim_action env job action in
  match executed with
  | Ok (Some effect) => (env, out <| run_effects := run_effects out ++ [effect] |>)
  | Ok None => (env, out)
  | Err Unevaluable => (bump_failed env, note_partial out ConditionUnevaluable)
  end.

Definition schedule_continuation (env : ExecEnv) (job : Job) (delay_ms : Z) (steps : list FlatStep) (out : RunOutput)
    : ExecEnv * RunOutput :=
  let vol := e_vol env in
  let counters := e_counters env in
  if MAX_PENDING_CONTINUATIONS <=? len (continuations vol)
  then (env <| e_counters := counters <| continuations_dropped := bump (continuations_dropped counters) |> |>,
        note_partial out EffectBudget)
  else
    let vol := next_seq vol in
    (env <| e_vol := vol <| continuations := continuations vol ++
                      [mkContinuation (seq_ vol) (sat_add 64 (now_ms (e_world env)) delay_ms) (job_rule job)
                         (job_trigger_kind job) (job_depth job) (job_budget_left job) (job_ctx job) steps] |> |>
         <| e_counters := counters <| continuations_scheduled := bump (continuations_scheduled counters) |> |>,
     out).

(** [run_wait]: the flag says that the run stops here. *)
Definition run_wait (env : ExecEnv) (job : Job) (ms : Z) (out : RunOutput) : ExecEnv * RunOutput * bool :=
  if job_dry job then (env, out, false)
  else (schedule_continuation env job ms (job_steps job) out, true).

Definition run_after (env : ExecEnv) (job : Job) (delay_ms : Z) (body : list FlatStep) (out : RunOutput)
    : ExecEnv * Job * RunOutput :=
  if job_dry job then (env, job <| job_steps := job_steps job ++ body |>, out)
  else let '(env, out) := schedule_continuation env job delay_ms body out in (env, job, out).

(** [drain_front] is [firstn]/[skipn], [prepend] is an append. *)
Definition run_branch (env : ExecEnv) (job : Job) (condition : Condition) (then_len else_len : nat) (out : RunOutput)
    : ExecEnv * Job * RunOutput :=
  let verdict := eval_in env (job_ctx job) condition in
  let then_region := firstn then_len (job_steps job) in
  let steps := skipn then_len (job_steps job) in
  let else_region := firstn else_len steps in
  let steps := skipn else_len steps in
  match verdict with
  | Ok true => (env, job <| job_steps := then_region ++ steps |>, out)
  | Ok false => (env, job <| job_steps := else_region ++ steps |>, out)
  | Err Unevaluable => (bump_failed env, job <| job_steps := steps |>, note_partial out ConditionUnevaluable)
  end.

(** [while let Some(step) = job.steps.pop_front()]. *)
Fixpoint run_loop (budget : nat) (env : ExecEnv) (job : Job) (out : RunOutput) : ExecEnv * RunOutput :=
  match job_steps job with
  | [] => (env, out)
  | step :: rest =>
      match budget with
      | O => (env, note_partial out EffectBudget)
      | S rem =>
          let job := job <| job_steps := rest |> <| job_budget_left := rem |> in
          match step with
          | FlatStep_Prim action =>
              let '(env, out) := run_prim env job action out in run_loop rem env job out
          | FlatStep_Wait ms =>
              let '(env, out, stop) := run_wait env job ms out in
              if stop then (env, out) else run_loop rem env job out
          | FlatStep_Branch condition then_len else_len =>
              let '(env, job, out) := run_branch env job condition then_len else_len out in
              run_loop rem env job out
          | FlatStep_AfterSched delay_ms body =>
              let '(env, job, out) := run_after env job delay_ms body out in run_loop rem env job out
          | FlatStep_Fail =>
              run_loop rem (bump_failed env) job (note_partial out ConditionUnevaluable)
          end
      end
  end.

Definition run_steps (env : ExecEnv) (job : Job) : ExecEnv * RunOutput :=
  run_loop (job_budget_left job) env job (mkRunOutput [] None).

(** [record_effect_chain]: the keys an effect writes, each recorded with the depth of its activation. *)
Definition effect_keys (effect : Effect) : list ChainKey :=
  match effect with
  | Effect_Light target _ _ => target_chain_keys target
  | Effect_SceneRecall scene target _ =>
      ChainKey_Scene scene :: match target with Some target => target_chain_keys target | None => [] end
  | Effect_SceneApply scene _ => [ChainKey_Scene scene]
  | Effect_HclResume target | Effect_HclHold target => [ChainKey_Hcl target]
  | Effect_MqttPublish topic _ _ => [ChainKey_BrokerTopic topic]
  | _ => []
  end.
Definition record_effect_chain (vol : Volatile) (effect : Effect) (depth now : Z) : Volatile :=
  foldl (fun vol key => record_chain vol key depth now) vol (effect_keys effect).

End RulesExec.
