(* ===== verification/RulesFlat.v ===== *)
(** * The expansion of accepted rules

    [flatten_rule] of RulesExec never fails on a rule that [validate] of
    RulesLimits accepts, its program has exactly the counted size, and its
    branch nodes delimit well-formed regions ([program]). *)

From stdpp Require Import gmap strings.
From S2P Require Import Prelude RulesBase RulesModel RulesLimits RulesState RulesEval RulesExec.

Module RulesFlat.
Import RulesModel RulesLimits RulesState RulesExec.

(** ** Flat programs *)

(** The number of steps, those of [after] bodies included. *)
Fixpoint step_weight (s : FlatStep) : nat :=
  match s with
  | FlatStep_AfterSched _ body =>
      S ((fix go (l : list FlatStep) := match l with [] => 0 | s :: l => step_weight s + go l end%nat) body)
  | _ => 1
  end.
Definition weights (l : list FlatStep) : nat := foldr (fun s n => (step_weight s + n)%nat) 0%nat l.

(** No [Fail] step, in [after] bodies neither. *)
Fixpoint step_sound (s : FlatStep) : bool :=
  match s with
  | FlatStep_Fail => false
  | FlatStep_AfterSched _ body => forallb step_sound body
  | _ => true
  end.
Definition sound (l : list FlatStep) : bool := forallb step_sound l.

(** Programs: every branch node is followed by its two regions, both programs. *)
Inductive program : list FlatStep -> Prop :=
| program_nil : program []
| program_prim a l : program l -> program (FlatStep_Prim a :: l)
| program_wait ms l : program l -> program (FlatStep_Wait ms :: l)
| program_after d body l : program body -> program l -> program (FlatStep_AfterSched d body :: l)
| program_branch c l1 l2 l :
    program l1 -> program l2 -> program l ->
    program (FlatStep_Branch c (length l1) (length l2) :: l1 ++ l2 ++ l).
#[local] Hint Constructors program : core.

Lemma program_app l1 l2 : program l1 -> program l2 -> program (l1 ++ l2).
Proof.
  induction 1 as [| | | |c r1 r2 l H1 _ H2 _ Hl IH]; intros; cbn; auto.
  rewrite <- !app_assoc. constructor; auto.
Qed.

Lemma program_sound l : program l -> sound l = true.
Proof.
  unfold sound. induction 1; cbn; rewrite ?forallb_app; auto.
  - now rewrite IHprogram1, IHprogram2.
  - now rewrite IHprogram1, IHprogram2, IHprogram3.
Qed.

Lemma step_weight_after d body : step_weight (FlatStep_AfterSched d body) = S (weights body).
Proof. reflexivity. Qed.

Lemma weights_cons s l : weights (s :: l) = (step_weight s + weights l)%nat.
Proof. reflexivity. Qed.

Lemma weights_app l1 l2 : weights (l1 ++ l2) = (weights l1 + weights l2)%nat.
Proof. induction l1 as [|s l1 IH]; [done|]. cbn [app]. rewrite !weights_cons, IH. lia. Qed.

Lemma step_weight_pos s : (1 <= step_weight s)%nat.
Proof. destruct s; cbn; lia. Qed.

Lemma weights_length l : (length l <= weights l)%nat.
Proof.
  induction l as [|s l IH]; [cbn; lia|]. rewrite weights_cons. cbn [length]. pose proof (step_weight_pos s). lia.
Qed.

Fixpoint copies (n : nat) (l : list FlatStep) : list FlatStep :=
  match n with O => [] | S n => l ++ copies n l end.

Lemma copies_facts n l :
  weights (copies n l) = (n * weights l)%nat /\ length (copies n l) = (n * length l)%nat /\
  (program l -> program (copies n l)) /\ (sound l = true -> sound (copies n l) = true).
Proof.
  induction n as [|n (H1 & H2 & H3 & H4)]; cbn; [auto|]. rewrite weights_app, length_app, H1, H2.
  repeat split; try lia; intros H.
  - apply program_app; auto.
  - unfold sound in *. now rewrite forallb_app, H, H4.
Qed.

Lemma repeat_body_spec n body out :
  exists ls, repeat_body n body out = out ++ ls /\
    (sound ls = true -> ls = copies n body) /\
    ((length out + n * length body <= FLATTEN_STEP_CAP)%nat -> ls = copies n body).
Proof.
  revert out. induction n as [|n IH]; intros out; [exists []; cbn; now rewrite app_nil_r|].
  cbn [repeat_body copies]. destruct (Nat.ltb_spec FLATTEN_STEP_CAP (length out + length body)) as [Hlt|Hge].
  - exists [FlatStep_Fail]. split; [done|]. split; [done|]. intros Hc. exfalso. cbn in Hc. nia.
  - destruct (IH (out ++ body)) as (ls & -> & H1 & H2). exists (body ++ ls). split; [now rewrite <- app_assoc|].
    split.
    + unfold sound. rewrite forallb_app, andb_true_iff. intros [_ Hs]. now rewrite H1.
    + intros Hc. rewrite H2; [done|]. rewrite length_app. cbn in Hc. lia.
Qed.

(** ** Expansion against the count *)

Definition flat_ctx (c : Ctx) : FlattenCtx :=
  mkFlattenCtx (call_depth c) (in_repeat c) (in_conditional c) (in_after c).

(** What the steps [ls] appended to [out] have to do with the counted [r]. *)
Definition expands (total : Z) (out ls : list FlatStep) (r : Result Z ModelError) : Prop :=
  match r with
  | Err _ => sound ls = false
  | Ok n =>
      total <= n <= umax USIZE_BITS /\
      (sound ls = true -> program ls /\ n = Z.min (umax USIZE_BITS) (total + Z.of_nat (weights ls))) /\
      (n <= 255 -> Z.of_nat (length out) + (n - total) <= 255 -> sound ls = true)
  end.

(** A counter and a flattener of one action agree. *)
Definition agrees (cnt : counter) (flat : flattener) (c : Ctx) : Prop :=
  forall out, exists ls, flat out (flat_ctx c) = out ++ ls /\ expands 0 out ls (cnt c).

Lemma expands_fail total out e : expands total out [FlatStep_Fail] (Err e).
Proof. reflexivity. Qed.

Lemma expands_one total out s :
  step_weight s = 1%nat -> program [s] -> 0 <= total < umax USIZE_BITS ->
  expands total out [s] (Ok (total + 1)).
Proof.
  intros Hw Hp Ht. split; [lia|]. split; [|intros _ _; now apply program_sound].
  intros _. split; [done|]. rewrite weights_cons, Hw. cbn -[umax USIZE_BITS]. lia.
Qed.

Lemma agrees_list (ca : Action -> counter) (fa : Action -> flattener) c l :
  Forall (fun a => agrees (ca a) (fa a) c) l ->
  forall total out, 0 <= total <= umax USIZE_BITS ->
  exists ls, flatten_list_with fa (flat_ctx c) out l = out ++ ls /\
             expands total out ls (count_actions_with ca c total l).
Proof.
  induction 1 as [|a l Ha _ IH]; intros total out Ht; cbn [flatten_list_with count_actions_with].
  - exists []. split; [now rewrite app_nil_r|]. split; [lia|]. split; [|done].
    intros _. split; [constructor|]. cbn -[umax USIZE_BITS]. lia.
  - destruct (Nat.leb_spec FLATTEN_STEP_CAP (length out)) as [Hcap|Hcap].
    + exists [FlatStep_Fail]. split; [done|].
      assert (forall total, 0 <= total <= umax USIZE_BITS ->
        match count_actions_with ca c total l with Ok n => total <= n <= umax USIZE_BITS | Err _ => True end) as Hrange.
      { intros t Ht'. destruct (IH t [] Ht') as (ls & _ & He). destruct (count_actions_with _ _ t l); [apply He|done]. }
      destruct (Ha []) as (ls1 & _ & H1). destruct (ca a c) as [n1|e]; [|done].
      destruct H1 as [Hn1 _]. specialize (Hrange (sat_add USIZE_BITS total n1)).
      destruct (count_actions_with _ _ _ l) as [n|e]; [|done].
      assert (total <= sat_add USIZE_BITS total n1 <= umax USIZE_BITS) as Hs by (unfold sat_add; lia).
      split; [lia|]. split; [done|]. intros _ Hlen. unfold FLATTEN_STEP_CAP in Hcap. lia.
    + destruct (Ha out) as (ls1 & -> & H1). destruct (ca a c) as [n1|e].
      * destruct H1 as (Hn1 & Hs1 & Hf1).
        destruct (IH (sat_add USIZE_BITS total n1) (out ++ ls1)) as (ls2 & -> & H2).
        { unfold sat_add. lia. }
        exists (ls1 ++ ls2). split; [now rewrite <- app_assoc|].
        assert (sound (ls1 ++ ls2) = sound ls1 && sound ls2) as Hss by apply forallb_app.
        destruct (count_actions_with _ _ _ l) as [n|e]; cbn [expands] in *; [|now rewrite Hss, H2, andb_false_r].
        destruct H2 as (Hn2 & Hs2 & Hf2). rewrite Hss. split; [unfold sat_add in Hn2; lia|]. split.
        -- intros [S1 S2]%andb_true_iff. destruct (Hs1 S1) as [P1 E1]. destruct (Hs2 S2) as [P2 E2].
           split; [now apply program_app|]. rewrite weights_app. unfold sat_add in *. lia.
        -- intros Hsmall Hlen. assert (n1 <= n /\ sat_add USIZE_BITS total n1 = total + n1) as [? E].
           { unfold sat_add, umax, USIZE_BITS in *. lia. }
           assert (sound ls1 = true) as S1 by (apply Hf1; lia). rewrite S1. destruct (Hs1 S1) as [_ E1].
           apply Hf2; [done|]. rewrite length_app, E. pose proof (weights_length ls1).
           assert (Z.of_nat (weights ls1) = n1) by (unfold umax, USIZE_BITS in *; lia). lia.
      * destruct (IH 0 (out ++ ls1)) as (ls2 & -> & _); [unfold umax, USIZE_BITS; lia|].
        exists (ls1 ++ ls2). split; [now rewrite <- app_assoc|]. cbn in *. unfold sound in *.
        now rewrite forallb_app, H1.
Qed.

Lemma expands_err ls out total e : sound ls = false -> expands total out ls (Err e).
Proof. done. Qed.

Lemma agrees_after cnt flat d c :
  agrees cnt flat (c <| in_after := true |>) ->
  agrees (count_after cnt) (flatten_after d flat) c.
Proof.
  intros Hb out. unfold count_after, flatten_after. cbn [f_in_after flat_ctx].
  destruct (in_after c); [exists [FlatStep_Fail]; done|].
  destruct (Hb []) as (ls & E & He).
  change (flat_ctx (c <| in_after := true |>)) with ((flat_ctx c) <| f_in_after := true |>) in E.
  rewrite E. cbn [app]. exists [FlatStep_AfterSched d ls]. split; [done|].
  assert (sound [FlatStep_AfterSched d ls] = sound ls) as Hs by (cbn; apply andb_true_r).
  destruct (cnt (c <| in_after := true |>)) as [n|e]; [|apply expands_err; rewrite Hs; exact He].
  destruct He as (Hn & Hp & Hsm). unfold expands. rewrite Hs. split; [unfold sat_add; lia|]. split.
  - intros S1. destruct (Hp S1) as [P1 E1]. split; [constructor; [done|constructor]|].
    rewrite weights_cons, step_weight_after. cbn -[umax USIZE_BITS]. unfold sat_add. lia.
  - intros H1 H2. assert (sat_add USIZE_BITS 1 n = 1 + n) as E1.
    { unfold sat_add, umax, USIZE_BITS in *. lia. }
    rewrite E1 in *. apply Hsm; cbn; lia.
Qed.

Lemma agrees_repeat cnt flat k c :
  in_u 8 k -> agrees cnt flat (c <| in_repeat := true |>) ->
  agrees (count_repeat k cnt) (flatten_repeat k flat) c.
Proof.
  intros Hk Hb out. unfold in_u in Hk. unfold count_repeat, flatten_repeat. cbn [f_in_repeat flat_ctx].
  destruct (in_repeat c); [exists [FlatStep_Fail]; done|]. cbn [orb].
  destruct ((k =? 0) || (MAX_REPEAT <? k)) eqn:Ek; [exists [FlatStep_Fail]; done|]. bprop.
  destruct (Hb []) as (body & E & He).
  change (flat_ctx (c <| in_repeat := true |>)) with ((flat_ctx c) <| f_in_repeat := true |>) in E.
  rewrite E. cbn [app].
  destruct (repeat_body_spec (Z.to_nat k) body out) as (ls & -> & Hls & Hfit). exists ls. split; [done|].
  assert (sound ls = true -> sound body = true) as Hsb.
  { intros S1. rewrite (Hls S1) in S1. destruct (Z.to_nat k) as [|m] eqn:Em; [lia|]. cbn in S1.
    unfold sound in *. rewrite forallb_app in S1. now apply andb_true_iff in S1 as [? _]. }
  destruct (copies_facts (Z.to_nat k) body) as (W & L & P & S).
  unfold MAX_REPEAT in *.
  destruct (cnt (c <| in_repeat := true |>)) as [n|e].
  - destruct He as (Hn & Hp & Hsm). unfold expands. split; [unfold sat_mul, umax, USIZE_BITS in *; nia|]. split.
    + intros S1. destruct (Hp (Hsb S1)) as [P1 E1]. rewrite (Hls S1). split; [auto|].
      rewrite W. unfold sat_mul, umax, USIZE_BITS in *. nia.
    + intros H1 H2. assert (sat_mul USIZE_BITS n k = n * k) as E1 by (unfold sat_mul, umax, USIZE_BITS in *; lia).
      rewrite E1 in *. assert (n <= 255) by nia. assert (sound body = true) as S1 by (apply Hsm; cbn; lia).
      destruct (Hp S1) as [_ E2]. pose proof (weights_length body).
      assert (Z.of_nat (weights body) = n) by (unfold umax, USIZE_BITS in *; lia).
      rewrite Hfit; [auto|]. unfold FLATTEN_STEP_CAP. nia.
  - destruct (sound ls) eqn:S1; [|done]. unfold expands in He. now rewrite (Hsb eq_refl) in He.
Qed.

Lemma agrees_branch cnt1 flat1 cnt2 flat2 cond c :
  agrees cnt1 flat1 (c <| in_conditional := true |>) -> agrees cnt2 flat2 (c <| in_conditional := true |>) ->
  agrees (count_conditional cnt1 cnt2) (flatten_branch cond flat1 flat2) c.
Proof.
  intros Hb1 Hb2 out. unfold count_conditional, flatten_branch. cbn [f_in_conditional flat_ctx].
  destruct (in_conditional c); [exists [FlatStep_Fail]; done|].
  change ((flat_ctx c) <| f_in_conditional := true |>) with (flat_ctx (c <| in_conditional := true |>)).
  cbv zeta. set (c' := c <| in_conditional := true |>) in *.
  destruct (Hb1 (out ++ [FlatStep_Branch cond 0 0])) as (l1 & -> & H1).
  destruct (Hb2 ((out ++ [FlatStep_Branch cond 0 0]) ++ l1)) as (l2 & -> & H2).
  exists (FlatStep_Branch cond (length l1) (length l2) :: l1 ++ l2). split.
  { rewrite !length_app. cbn [length].
    replace (length out + 1 + length l1 - length out - 1)%nat with (length l1) by lia.
    replace (length out + 1 + length l1 + length l2 - length out - 1 - length l1)%nat with (length l2) by lia.
    rewrite <- !app_assoc. rewrite insert_app_r_alt by lia. now rewrite Nat.sub_diag. }
  assert (sound (FlatStep_Branch cond (length l1) (length l2) :: l1 ++ l2) = sound l1 && sound l2) as Hs.
  { cbn. apply forallb_app. }
  destruct (cnt1 c') as [n1|e]; [|apply expands_err; rewrite Hs; unfold expands in H1; now rewrite H1].
  destruct (cnt2 c') as [n2|e]; [|apply expands_err; rewrite Hs; unfold expands in H2; now rewrite H2, andb_false_r].
  destruct H1 as (Hn1 & Hp1 & Hs1), H2 as (Hn2 & Hp2 & Hs2). unfold expands. rewrite Hs.
  split; [unfold sat_add; lia|]. split.
  - intros [S1 S2]%andb_true_iff. destruct (Hp1 S1) as [P1 E1], (Hp2 S2) as [P2 E2]. split.
    + rewrite <- (app_nil_r l2) at 2. apply program_branch; auto.
    + rewrite weights_cons, weights_app. cbn -[umax USIZE_BITS]. unfold sat_add in *. lia.
  - intros Hsm Hlen.
    assert (sat_add USIZE_BITS (sat_add USIZE_BITS 1 n1) n2 = 1 + n1 + n2) as E
      by (unfold sat_add, umax, USIZE_BITS in *; lia).
    rewrite E in *. assert (sound l1 = true) as S1 by (apply Hs1; [lia|rewrite length_app; cbn; lia]).
    rewrite S1. destruct (Hp1 S1) as [_ E1]. pose proof (weights_length l1).
    assert (Z.of_nat (weights l1) = n1) by (unfold umax, USIZE_BITS in *; lia).
    apply Hs2; [lia|]. rewrite !length_app. cbn [length]. lia.
Qed.

Lemma agrees_action ccall fcall a :
  (forall b c, agrees (ccall b) (fcall b) c) ->
  counts_u8 [a] -> forall c, agrees (count_action ccall a) (flatten_action fcall a) c.
Proof.
  intros Hcall.
  assert (forall s c, step_weight s = 1%nat -> program [s] ->
    agrees (fun _ => Ok 1) (fun out _ => out ++ [s]) c) as Hone.
  { intros s c Hw Hp out. exists [s]. split; [done|].
    apply (expands_one 0 out s Hw Hp). unfold umax, USIZE_BITS. lia. }
  assert (forall l c, counts_u8 l ->
    Forall (fun a => counts_u8 [a] -> forall c, agrees (count_action ccall a) (flatten_action fcall a) c) l ->
    agrees (fun c => count_actions_with (count_action ccall) c 0 l)
           (fun o c => flatten_list_with (flatten_action fcall) c o l) c) as Hl.
  { intros l c Hu HF out. apply (agrees_list (count_action ccall) (flatten_action fcall));
      [|unfold umax, USIZE_BITS; lia].
    rewrite List.Forall_forall in HF |- *. intros x Hx. apply HF; [done|].
    eapply counts_u8_elem; [done|now apply list_elem_of_In]. }
  induction a as [a Hleaf|w|w l IH|t w|t w|t|b|k l IH|cn l1 l2 IH1 IH2] using Action_nested_ind;
    intros Hu c; apply counts_u8_1 in Hu as [Hself Hu].
  - destruct a; try (now apply (Hone (FlatStep_Prim _)); auto using program). now destruct (Hleaf a).
  - apply (Hone (FlatStep_Wait w)); auto using program.
  - apply agrees_after, Hl; done.
  - apply (Hone (FlatStep_Prim _)); auto using program.
  - apply (Hone (FlatStep_Prim _)); auto using program.
  - apply (Hone (FlatStep_Prim _)); auto using program.
  - apply Hcall.
  - apply agrees_repeat; [done|]. now apply Hl.
  - apply agrees_branch; apply Hl; tauto.
Qed.

Lemma agrees_call blocks fuel :
  blocks_u8 blocks -> forall b c, agrees (count_call blocks fuel b) (flatten_call blocks fuel b) c.
Proof.
  intros Hb. induction fuel as [|fuel IH]; intros b c out; cbn [count_call flatten_call f_call_depth flat_ctx].
  - destruct (MAX_BLOCK_CALL_DEPTH <? call_depth c + 1)%nat, (find_block blocks b); now exists [FlatStep_Fail].
  - destruct (MAX_BLOCK_CALL_DEPTH <? call_depth c + 1)%nat, (find_block blocks b) as [def|] eqn:Hd;
      try (now exists [FlatStep_Fail]).
    change ((flat_ctx c) <| f_call_depth := (call_depth c + 1)%nat |>)
      with (flat_ctx (c <| call_depth := (call_depth c + 1)%nat |>)).
    apply (agrees_list (count_action (count_call blocks fuel)) (flatten_action (flatten_call blocks fuel)));
      [|unfold umax, USIZE_BITS; lia].
    pose proof (find_block_u8 blocks Hb b def Hd) as Hu. apply List.Forall_forall. intros x Hx.
    apply agrees_action; [done|]. eapply counts_u8_elem; [done|now apply list_elem_of_In].
Qed.

(** ** A rule's program *)

Lemma flatten_rule_expands blocks name l :
  blocks_u8 blocks -> counts_u8 l ->
  expands 0 [] (flatten_rule l blocks) (count_actions (count_call blocks MAX_BLOCK_CALL_DEPTH) l (ctx_root name)).
Proof.
  intros Hb Hu. unfold flatten_rule, flatten_list, count_actions.
  destruct (agrees_list (count_action (count_call blocks MAX_BLOCK_CALL_DEPTH))
    (flatten_action (flatten_call blocks MAX_BLOCK_CALL_DEPTH)) (ctx_root name) l) with (total := 0) (out := @nil FlatStep)
    as (ls & E & He).
  - apply List.Forall_forall. intros x Hx. apply agrees_action; [intros; now apply agrees_call|].
    eapply counts_u8_elem; [done|now apply list_elem_of_In].
  - unfold umax, USIZE_BITS. lia.
  - change flatten_ctx_default with (flat_ctx (ctx_root name)). rewrite E. exact He.
Qed.

(** C17: The compiler's count and the engine's expansion agree: a rule counts to at most 32 actions exactly
    when the engine expands it without a [Fail] step into a program of at most 32 steps (those of [after]
    bodies included), and then the count is that number of steps and every branch node delimits its two
    regions.  So the nesting, call-depth and repeat checks repeated in the engine never fire on an accepted
    document, and the 256-step cap is never met. *)
Theorem accepted_rules_expand (set : RuleSet) (r : Rule) :
  document_u8 set -> r ∈ rules set ->
  let steps := flatten_rule (actions r) (blocks set) in
  ((exists n, expanded_action_count r (blocks set) = Ok n /\ n <= MAX_ACTIONS_EXPANDED) <->
   (sound steps = true /\ (weights steps <= 32)%nat)) /\
  (sound steps = true -> (weights steps <= 32)%nat ->
   program steps /\ expanded_action_count r (blocks set) = Ok (Z.of_nat (weights steps))).
Proof.
  intros [Hu Hb] Hr steps. rewrite List.Forall_forall in Hu. apply list_elem_of_In in Hr. specialize (Hu r Hr).
  pose proof (flatten_rule_expands (blocks set) (rule_name r) (actions r) Hb Hu) as He. fold steps in He.
  unfold expanded_action_count, MAX_ACTIONS_EXPANDED.
  destruct (count_actions _ (actions r) (ctx_root (rule_name r))) as [n|e].
  - destruct He as (Hn & Hp & Hsm).
    assert (sound steps = true -> (weights steps <= 32)%nat -> n = Z.of_nat (weights steps) /\ program steps) as Hw.
    { intros S1 Hle. destruct (Hp S1) as [P1 E1]. unfold umax, USIZE_BITS in *. split; [lia|done]. }
    split; [split|].
    + intros (n' & [= <-] & Hle). assert (sound steps = true) as S1 by (apply Hsm; cbn; lia).
      split; [done|]. destruct (Hp S1) as [_ E1]. unfold umax, USIZE_BITS in *. lia.
    + intros [S1 Hle]. exists n. split; [done|]. destruct (Hw S1 Hle). lia.
    + intros S1 Hle. destruct (Hw S1 Hle) as [-> ?]. done.
  - cbn in He. split; [split|]; [intros (n & ? & _); discriminate|intros [S1 _]; congruence|congruence].
Qed.

(** The hall rule counts to nine actions and expands to nine steps. *)
Lemma accepted_rules_expand_witness :
  program (flatten_rule (actions sample_hall) sample_blocks) /\
  expanded_action_count sample_hall sample_blocks = Ok 9.
Proof.
  apply (accepted_rules_expand sample_set sample_hall);
    [apply document_u8b_spec; vm_compute; reflexivity|left|vm_compute; reflexivity|].
  apply Nat.leb_le. vm_compute. reflexivity.
Defined.

End RulesFlat.
