(* ===== verification/RulesRun.v ===== *)
(** * Runs of a rule

    Facts about [run_steps] of RulesExec: what a run leaves unchanged, the
    bounds of the volatile state it keeps ([vol_ok]), when a run is cut short,
    that a dry run changes nothing but a counter, and that the flat interpreter
    does what the nested actions say ([exec_action]). *)

From stdpp Require Import gmap.
From S2P Require Import Prelude RulesBase RulesModel RulesLimits RulesState RulesEval RulesExec RulesFlat.

Module RulesRun.
Import RulesModel RulesLimits RulesState RulesEval RulesExec RulesFlat.

(** ** The bounds of the volatile state *)

(** A pending continuation holds a program it can afford. *)
Definition cont_ok (c : Continuation) : Prop :=
  program (cont_steps c) /\ (weights (cont_steps c) <= cont_budget_left c <= budget_for_activation)%nat.

Record vol_ok (v : Volatile) : Prop := {
  ok_conts_bound : len (continuations v) <= MAX_PENDING_CONTINUATIONS;
  ok_conts : Forall cont_ok (continuations v);
  ok_timers_bound : len (timers v) <= MAX_TIMERS;
  ok_timers : NoDup (map timer_name (timers v));
  ok_vars_bound : Z.of_nat (size (vars v)) <= MAX_VARS
}.

(** What names an [every] slot, whatever its phase. *)
Definition every_key (s : EverySlot) : str * nat * Z := (every_rule s, every_trigger_idx s, every_period_ms s).

(** What any part of a run does to the environment. *)
Record env_step (env env' : ExecEnv) : Prop := {
  step_world : e_world env' = e_world env;
  step_rules : e_rules env' = e_rules env;
  step_enabled : length (e_enabled env') = length (e_enabled env);
  step_vol : vol_ok (e_vol env) -> vol_ok (e_vol env');
  step_every : map every_key (every (e_vol env')) = map every_key (every (e_vol env));
  step_chain : chain (e_vol env) `prefix_of` chain (e_vol env');
  step_dropped : in_u 32 (continuations_dropped (e_counters env)) ->
    in_u 32 (continuations_dropped (e_counters env')) /\
    continuations_dropped (e_counters env) <= continuations_dropped (e_counters env')
}.

#[global] Instance env_step_preorder : PreOrder env_step.
Proof.
  split; [intros env; split; done|].
  intros a b c [] []. split; try congruence; auto; [now transitivity (chain (e_vol b))|]. intros H. destruct (step_dropped0 H) as [H1 ?].
  destruct (step_dropped1 H1). split; [done|lia].
Qed.

Lemma env_step_counters env f :
  (forall c, in_u 32 (continuations_dropped c) ->
     in_u 32 (continuations_dropped (f c)) /\ continuations_dropped c <= continuations_dropped (f c)) ->
  env_step env (env <| e_counters := f (e_counters env) |>).
Proof. intros Hf. split; cbn; try done. apply Hf. Qed.

Lemma bump_failed_step env : env_step env (bump_failed env).
Proof. apply (env_step_counters env (fun c => c <| actions_failed := bump (actions_failed c) |>)). done. Qed.

Lemma env_step_vol env v :
  (vol_ok (e_vol env) -> vol_ok v) -> map every_key (every v) = map every_key (every (e_vol env)) ->
  chain (e_vol env) `prefix_of` chain v -> env_step env (env <| e_vol := v |>).
Proof. intros H1 H2 H3. split; done. Qed.

Lemma len_filter_le {A} (f : A -> bool) l : len (List.filter f l) <= len l.
Proof. unfold len. induction l as [|x l IH]; cbn; [lia|]. destruct (f x); cbn; lia. Qed.

Lemma Forall_filter {A} (P : A -> Prop) (f : A -> bool) l : Forall P l -> Forall P (List.filter f l).
Proof. rewrite !List.Forall_forall. intros H x Hx%filter_In. now apply H. Qed.

Lemma NoDup_map_filter {A B} (g : A -> B) (f : A -> bool) l :
  NoDup (map g l) -> NoDup (map g (List.filter f l)).
Proof.
  induction l as [|x l IH]; cbn; [done|]. intros [Hx Hnd]%list.NoDup_cons. destruct (f x); cbn; [|auto].
  apply list.NoDup_cons. split; [|auto]. intros Hin. apply Hx.
  apply list_elem_of_In, in_map_iff in Hin as (y & <- & Hy%filter_In).
  apply list_elem_of_In, in_map. tauto.
Qed.

Lemma flip_rule_bit_step env idx rule value :
  let '(enabled, vol, counters) := flip_rule_bit (e_enabled env) (e_vol env) (e_counters env) idx rule value in
  env_step env (env <| e_enabled := enabled |> <| e_vol := vol |> <| e_counters := counters |>).
Proof.
  unfold flip_rule_bit. destruct value; cbn [negb].
  - split; cbn; rewrite ?length_insert; done.
  - split; cbn; rewrite ?length_insert; auto.
    + intros [H1 H2 H3 H4 H5]. split; cbn; auto; [|now apply Forall_filter].
      pose proof (len_filter_le (fun c => negb (str_eqb (cont_rule c) rule)) (continuations (e_vol env))). lia.
    + intros H. pose proof (wrap_range 32 (len (continuations (e_vol env)) -
        len (List.filter (fun c => negb (str_eqb (cont_rule c) rule)) (continuations (e_vol env)))) ltac:(lia)) as Hw.
      unfold sat_add, in_u, umax in *. lia.
Qed.

Lemma cancel_timer_ok v name :
  vol_ok v -> vol_ok (cancel_timer v name) /\ name ∉ map timer_name (timers (cancel_timer v name)).
Proof.
  intros [H1 H2 H3 H4 H5]. split; [split; cbn; auto|].
  - pose proof (len_filter_le (fun t => negb (str_eqb (timer_name t) name)) (timers v)). lia.
  - now apply NoDup_map_filter.
  - cbn. intros Hin. apply list_elem_of_In, in_map_iff in Hin as (t & <- & Ht%filter_In).
    destruct Ht as [_ Ht]. now rewrite str_eqb_refl in Ht.
Qed.

Lemma arm_timer_step env job name d :
  (vol_ok (e_vol env) -> name ∉ map timer_name (timers (e_vol env))) -> env_step env (fst (arm_timer env job name d)).
Proof.
  intros Hn. unfold arm_timer. destruct (job_dry job); [done|].
  destruct (Z.leb_spec MAX_TIMERS (len (timers (e_vol env)))); [done|]. cbn [fst].
  apply env_step_vol; [|done|done]. intros Hok. specialize (Hn Hok). destruct Hok as [H1 H2 H3 H4 H5]. split; cbn; auto.
  - unfold len in *. rewrite length_app. cbn. lia.
  - rewrite map_app. apply list.NoDup_app. split; [done|]. split; [set_solver|apply NoDup_singleton].
Qed.

Lemma find_timer_None v name : find_timer v name = None -> name ∉ map timer_name (timers v).
Proof.
  unfold find_timer. intros H Hin. apply list_elem_of_In, in_map_iff in Hin as (t & <- & Ht).
  pose proof (find_none _ _ H t Ht) as Hf. cbn in Hf. now rewrite str_eqb_refl in Hf.
Qed.

Lemma prim_timer_step env job flow : env_step env (fst (prim_timer env job flow)).
Proof.
  destruct flow; cbn [prim_timer fst]; try done.
  - destruct (find_timer (e_vol env) timer) eqn:E; [done|]. apply arm_timer_step. intros _. now apply find_timer_None.
  - destruct (job_dry job) eqn:Ed; [unfold arm_timer; rewrite Ed; done|].
    etransitivity; [|apply arm_timer_step].
    + apply env_step_vol; [|done|done]. intros H. now apply cancel_timer_ok.
    + intros H. cbn. intros Hin. apply list_elem_of_In, in_map_iff in Hin as (t & <- & [_ Ht]%filter_In).
      now rewrite str_eqb_refl in Ht.
  - destruct (job_dry job); [done|]. apply env_step_vol; [|done|done]. intros H. now apply cancel_timer_ok.
Qed.

Lemma var_set_step env job name value : env_step env (fst (var_set env job name value)).
Proof.
  unfold var_set. case_if; [done|]. destruct (job_dry job); [done|]. case_if; [done|]. cbn [fst].
  apply env_step_vol; [|done|done]. intros [H1 H2 H3 H4 H5]. split; cbn; auto.
  destruct (vars (e_vol env) !! name) as [v|] eqn:E.
  - rewrite map_size_insert_Some; [done|]. now rewrite E.
  - rewrite map_size_insert_None by done.
    rewrite bool_decide_true in Heqb0 by done. cbn in Heqb0. bprop. lia.
Qed.

Lemma var_add_step env job name delta : env_step env (fst (var_add env job name delta)).
Proof.
  unfold var_add. destruct (value_in _ _ _); [|done].
  destruct (vars (e_vol env) !! name) as [[]|]; try done; apply var_set_step.
Qed.

Lemma set_rule_bit_step env job rule value : env_step env (fst (set_rule_bit env job rule value)).
Proof.
  unfold set_rule_bit. destruct (rule_position _ _) as [idx|]; [|done]. destruct (job_dry job); [done|].
  pose proof (flip_rule_bit_step env idx rule value) as H.
  destruct (flip_rule_bit _ _ _ idx rule value) as [[en v] c]. exact H.
Qed.

Lemma count_stat_ok v name : vol_ok v -> vol_ok (count_stat v name) /\ every (count_stat v name) = every v.
Proof. unfold count_stat. intros H. destruct (stats v !! name); [|done]. split; [|done]. destruct H. now split. Qed.

Lemma prim_action_step env job a : env_step env (fst (prim_action env job a)).
Proof.
  destruct a as [l|s|h|i|f|s]; cbn [prim_action fst]; try done.
  - destruct s; cbn [prim_scene fst]; try done. unfold cycle_effect. case_bool_decide; [done|].
    cbv zeta. cbn [fst]. destruct (job_dry job); [done|]. apply env_step_vol; [|done|done].
    intros [H1 H2 H3 H4 H5]. now split.
  - apply prim_timer_step.
  - destruct s; cbn [prim_state fst no_effect]; try done.
    + apply var_set_step.
    + apply var_add_step.
    + apply set_rule_bit_step.
    + apply set_rule_bit_step.
    + destruct (job_dry job); [done|]. apply env_step_vol; [intros H; now apply count_stat_ok|..];
      unfold count_stat; now destruct (stats (e_vol env) !! name).
Qed.

Lemma run_prim_step env job a out : env_step env (fst (run_prim env job a out)).
Proof.
  unfold run_prim. pose proof (prim_action_step env job a) as H. destruct (prim_action env job a) as [env' r].
  cbn [fst] in H. destruct r as [[e|]|[]]; cbn [fst]; try done. etransitivity; [exact H|apply bump_failed_step].
Qed.

(** *** Scheduling *)

Definition dropped (env : ExecEnv) : Z := continuations_dropped (e_counters env).

Lemma schedule_step env job d steps out :
  program steps -> (weights steps <= job_budget_left job <= budget_for_activation)%nat ->
  env_step env (fst (schedule_continuation env job d steps out)).
Proof.
  intros Hp Hw. unfold schedule_continuation. destruct (Z.leb_spec MAX_PENDING_CONTINUATIONS (len (continuations (e_vol env)))).
  - cbn [fst]. apply (env_step_counters env (fun c => c <| continuations_dropped := bump (continuations_dropped c) |>)).
    intros c Hc. cbn -[bump]. unfold bump, sat_add, in_u, umax in *. lia.
  - cbv zeta. cbn [fst]. split; cbn; try done.
    intros [H1 H2 H3 H4 H5]. split; cbn; auto.
    + unfold len in *. rewrite length_app. cbn. lia.
    + apply Forall_app. split; [done|]. constructor; [|constructor]. now split.
Qed.

(** ** Whole runs *)

(** The continuation store was full when something had to be scheduled. *)
Definition store_was_full (env env' : ExecEnv) : Prop :=
  dropped env < dropped env' \/ dropped env' = umax 32.

Lemma store_was_full_trans a b c :
  env_step a b -> env_step b c -> in_u 32 (dropped a) ->
  store_was_full a b \/ store_was_full b c -> store_was_full a c.
Proof.
  intros Hab Hbc Ha H. unfold store_was_full, dropped in *.
  destruct (step_dropped _ _ Hab Ha) as [Hb ?]. destruct (step_dropped _ _ Hbc Hb) as [Hc ?].
  unfold in_u, umax in *. lia.
Qed.

(** One stage of a run: it respects the bounds, and reports an exhausted budget only for a full store. *)
Record stage (env env' : ExecEnv) (out out' : RunOutput) : Prop := {
  stage_step : env_step env env';
  stage_budget : in_u 32 (dropped env) -> run_partial out' = Some EffectBudget ->
    run_partial out = Some EffectBudget \/ store_was_full env env'
}.

Lemma stage_refl env out : stage env env out out.
Proof. split; [done|]. auto. Qed.

Lemma stage_trans a b c o1 o2 o3 : stage a b o1 o2 -> stage b c o2 o3 -> stage a c o1 o3.
Proof.
  intros [S1 B1] [S2 B2]. split; [now transitivity b|]. intros Ha Hp.
  destruct (step_dropped _ _ S1 Ha) as [Hb _].
  destruct (B2 Hb Hp) as [H|H]; [destruct (B1 Ha H) as [?|?]; [now left|]|];
    right; eapply store_was_full_trans; eauto.
Qed.

Lemma note_unevaluable_budget out :
  run_partial (note_partial out ConditionUnevaluable) = Some EffectBudget -> run_partial out = Some EffectBudget.
Proof. unfold note_partial. destruct (run_partial out) eqn:E; [now rewrite E|discriminate]. Qed.

Lemma stage_failed env out : stage env (bump_failed env) out (note_partial out ConditionUnevaluable).
Proof. split; [apply bump_failed_step|]. intros _ H. left. now apply note_unevaluable_budget. Qed.

Lemma run_prim_stage env job a out :
  let '(env', out') := run_prim env job a out in stage env env' out out'.
Proof.
  pose proof (run_prim_step env job a out) as H. unfold run_prim in *.
  destruct (prim_action env job a) as [env' [[e|]|[]]]; cbn [fst] in H; split; try done; cbn; auto.
  intros _ Hp. left. now apply note_unevaluable_budget.
Qed.

Lemma schedule_stage env job d steps out :
  program steps -> (weights steps <= job_budget_left job <= budget_for_activation)%nat ->
  let '(env', out') := schedule_continuation env job d steps out in stage env env' out out'.
Proof.
  intros Hp Hw. pose proof (schedule_step env job d steps out Hp Hw) as H. unfold schedule_continuation in *.
  destruct (Z.leb_spec MAX_PENDING_CONTINUATIONS (len (continuations (e_vol env)))); cbn [fst] in H; split; auto.
  intros Hd _. right. unfold store_was_full, dropped, bump, sat_add, in_u, umax in *.
  cbn -[Z.min Z.pow]. lia.
Qed.

(** The regions of a branch node. *)
Lemma program_branch_inv c t e rest :
  program (FlatStep_Branch c t e :: rest) ->
  exists l1 l2 l, rest = l1 ++ l2 ++ l /\ t = length l1 /\ e = length l2 /\ program l1 /\ program l2 /\ program l.
Proof. inversion 1; subst. eauto 10. Qed.

Lemma run_branch_stage env job c t e out :
  program (FlatStep_Branch c t e :: job_steps job) ->
  let '(env', job', out') := run_branch env job c t e out in
  stage env env' out out' /\ program (job_steps job') /\
  (weights (job_steps job') <= weights (job_steps job))%nat /\
  job' = job <| job_steps := job_steps job' |>.
Proof.
  intros (l1 & l2 & l & E & -> & -> & P1 & P2 & P3)%program_branch_inv. unfold run_branch. rewrite E.
  rewrite take_app_length, drop_app_length, take_app_length, drop_app_length, !weights_app.
  destruct (eval_in env (job_ctx job) c) as [[]|[]]; cbn [job_steps set_field].
  - split; [apply stage_refl|]. split; [now apply program_app|]. split; [|done]. cbn. rewrite !weights_app. lia.
  - split; [apply stage_refl|]. split; [now apply program_app|]. split; [|done]. cbn. rewrite !weights_app. lia.
  - split; [apply stage_failed|]. split; [done|]. split; [|done]. cbn. lia.
Qed.

Lemma run_loop_stage budget : forall env job out,
  program (job_steps job) -> (weights (job_steps job) <= budget <= budget_for_activation)%nat ->
  let '(env', out') := run_loop budget env job out in stage env env' out out'.
Proof.
  induction budget as [|rem IH]; intros env job out Hp Hw; destruct (job_steps job) as [|step rest] eqn:Ej;
    cbn [run_loop]; rewrite Ej; try apply stage_refl.
  { rewrite weights_cons in Hw. pose proof (step_weight_pos step). lia. }
  rewrite weights_cons in Hw. pose proof (step_weight_pos step) as Hpos.
  set (job1 := job <| job_steps := rest |> <| job_budget_left := rem |>).
  assert (forall job', program (job_steps job') -> (weights (job_steps job') <= weights rest)%nat ->
    forall env out, let '(env', out') := run_loop rem env job' out in stage env env' out out') as Hnext.
  { intros job' P W e o. apply IH; [done|lia]. }
  destruct step as [a|ms|c t e|d body|].
  - assert (program rest) as Pr by now inversion Hp.
    pose proof (run_prim_stage env job1 a out) as H1. destruct (run_prim env job1 a out) as [env1 out1].
    specialize (Hnext job1 Pr (Nat.le_refl _) env1 out1). destruct (run_loop rem env1 job1 out1).
    now apply stage_trans with env1 out1.
  - assert (program rest) as Pr by now inversion Hp.
    unfold run_wait. destruct (job_dry job1) eqn:Ed.
    + exact (Hnext job1 Pr (Nat.le_refl _) env out).
    + pose proof (schedule_stage env job1 ms (job_steps job1) out Pr) as H1.
      destruct (schedule_continuation env job1 ms (job_steps job1) out). apply H1.
      change (weights rest <= rem <= budget_for_activation)%nat. lia.
  - pose proof (run_branch_stage env job1 c t e out Hp) as H1.
    destruct (run_branch env job1 c t e out) as [[env1 job2] out1]. destruct H1 as (H1 & P2 & W2 & _).
    specialize (Hnext job2 P2 W2 env1 out1). destruct (run_loop rem env1 job2 out1).
    now apply stage_trans with env1 out1.
  - assert (program body /\ program rest) as [Pb Pr] by now inversion Hp.
    rewrite step_weight_after in Hw. unfold run_after. destruct (job_dry job1) eqn:Ed.
    + apply IH; [now apply program_app|]. change (weights (rest ++ body) <= rem <= budget_for_activation)%nat.
      rewrite weights_app. lia.
    + pose proof (schedule_stage env job1 d body out Pb) as H1.
      destruct (schedule_continuation env job1 d body out) as [env1 out1].
      specialize (Hnext job1 Pr (Nat.le_refl _) env1 out1). destruct (run_loop rem env1 job1 out1).
      apply stage_trans with env1 out1; [|done]. apply H1.
      change (weights body <= rem <= budget_for_activation)%nat. lia.
  - apply program_sound in Hp. discriminate.
Qed.

Lemma run_steps_stage env job :
  program (job_steps job) -> (weights (job_steps job) <= job_budget_left job <= budget_for_activation)%nat ->
  let '(env', out') := run_steps env job in stage env env' (mkRunOutput [] None) out'.
Proof. apply run_loop_stage. Qed.

(** ** Dry runs *)

(** A dry run leaves everything but the failure counter alone. *)
Definition only_failed (env env' : ExecEnv) : Prop :=
  exists n, env' = env <| e_counters := (e_counters env) <| actions_failed := n |> |>.

Lemma only_failed_refl env : only_failed env env.
Proof. exists (actions_failed (e_counters env)). destruct env as [? ? ? ? []]. reflexivity. Qed.
Lemma only_failed_trans a b c : only_failed a b -> only_failed b c -> only_failed a c.
Proof. intros [n ->] [m ->]. now exists m. Qed.
Lemma only_failed_bump env : only_failed env (bump_failed env).
Proof. eexists. reflexivity. Qed.

Lemma prim_action_dry env job a : job_dry job = true -> fst (prim_action env job a) = env.
Proof.
  intros Hd. destruct a as [l|s|h|i|f|s]; cbn [prim_action fst]; try done.
  - destruct s; cbn [prim_scene fst]; try done. unfold cycle_effect. case_bool_decide; [done|]. cbv zeta. now rewrite Hd.
  - cbn [no_effect fst]. destruct f; cbn [prim_timer]; unfold arm_timer; rewrite ?Hd; try done.
    now destruct (find_timer _ _).
  - destruct s; cbn [prim_state no_effect fst]; unfold var_add, var_set, set_rule_bit; rewrite ?Hd; try done.
    + now case_if.
    + destruct (value_in _ _ _); [|done]. destruct (vars (e_vol env) !! name) as [[]|]; try done; now case_if.
    + now destruct (rule_position _ _).
    + now destruct (rule_position _ _).
Qed.

Lemma run_loop_dry budget : forall env job out,
  job_dry job = true -> only_failed env (fst (run_loop budget env job out)).
Proof.
  induction budget as [|rem IH]; intros env job out Hd; cbn [run_loop];
    destruct (job_steps job) as [|step rest]; try apply only_failed_refl.
  set (job1 := job <| job_steps := rest |> <| job_budget_left := rem |>).
  assert (job_dry job1 = true) as Hd1 by done.
  destruct step as [a|ms|c t e|d body|].
  - unfold run_prim. pose proof (prim_action_dry env job1 a Hd1) as E.
    destruct (prim_action env job1 a) as [env1 r]. cbn in E. subst env1.
    destruct r as [[e|]|[]]; try now apply IH. eapply only_failed_trans; [apply only_failed_bump|now apply IH].
  - unfold run_wait. rewrite Hd1. now apply IH.
  - unfold run_branch. destruct (eval_in env (job_ctx job1) c) as [[]|[]]; try now apply IH.
    eapply only_failed_trans; [apply only_failed_bump|now apply IH].
  - unfold run_after. rewrite Hd1. now apply IH.
  - eapply only_failed_trans; [apply only_failed_bump|now apply IH].
Qed.

Lemma run_steps_dry env job : job_dry job = true -> only_failed env (fst (run_steps env job)).
Proof. apply run_loop_dry. Qed.

End RulesRun.
