(* ===== verification/RulesEngine.v ===== *)
(** * The rule engine

    src/crates/dali2rust-rules-runtime/src/runtime/engine/{matching,activate,
    wheel,mod}.rs: which triggers an input matches, the activation of a rule
    with its guards, the timer wheel serviced by a tick (continuations, named
    timers, [every] slots, wall-clock schedules) and the [Engine] with its
    operations.  The outcome list the code appends to is threaded the same way. *)

From stdpp Require Import gmap.
From S2P Require Import Prelude RulesBase RulesModel RulesLimits RulesState RulesEval RulesExec.

Module RulesEngine.
Import RulesModel RulesLimits RulesState RulesEval RulesExec.

(** ** matching.rs *)

Definition opt_eqb (a b : option Z) : bool := bool_decide (a = b).

Definition instance_is (source : InputRef) (adapter_id : Z) (short_address instance_number : option Z) : bool :=
  (input_adapter_id source =? adapter_id) && opt_eqb (Some (input_short_address source)) short_address &&
  opt_eqb (Some (input_instance_number source)) instance_number.

Definition source_matches (source : InputSelector) (adapter_id : Z)
    (short_address instance_number instance_type : option Z) (instance_groups : list (option Z)) : bool :=
  match source with
  | InputSelector_Instance input => instance_is input adapter_id short_address instance_number
  | InputSelector_Group sel =>
      (sel_adapter_id sel =? adapter_id) &&
      existsb (opt_eqb (Some (sel_instance_group sel))) instance_groups &&
      match sel_instance_type sel with None => true | Some t => opt_eqb (Some t) instance_type end
  end.

Definition derived_from_a_report (kind : InputEventKind) : bool :=
  match kind with InputEventKind_BecameOccupied | InputEventKind_BecameVacant => true | _ => false end.

Definition kind_is (a b : InputEventKind) : bool := bool_decide (a = b).

Definition event_matches (matcher : InputEventMatch) (kind : InputEventKind) (value : Z) : bool :=
  match matcher with
  | InputEventMatch_Press => kind_is kind InputEventKind_Press
  | InputEventMatch_Release => kind_is kind InputEventKind_Release
  | InputEventMatch_ShortPress => kind_is kind InputEventKind_ShortPress
  | InputEventMatch_DoublePress => kind_is kind InputEventKind_DoublePress
  | InputEventMatch_LongPressStart => kind_is kind InputEventKind_LongPressStart
  | InputEventMatch_LongPressRepeat => kind_is kind InputEventKind_LongPressRepeat
  | InputEventMatch_LongPressStop => kind_is kind InputEventKind_LongPressStop
  | InputEventMatch_ButtonFree => kind_is kind InputEventKind_ButtonFree
  | InputEventMatch_ButtonStuck => kind_is kind InputEventKind_ButtonStuck
  | InputEventMatch_Movement => kind_is kind InputEventKind_Movement
  | InputEventMatch_NoMovement => kind_is kind InputEventKind_NoMovement
  | InputEventMatch_AnyEvent => negb (derived_from_a_report kind)
  | InputEventMatch_Raw data => negb (derived_from_a_report kind) && (value =? data)
  end.

Definition occupancy_matches (becomes : OccupancyState) (kind : InputEventKind) : bool :=
  match becomes with
  | OccupancyState_Occupied => kind_is kind InputEventKind_BecameOccupied
  | OccupancyState_Vacant => kind_is kind InputEventKind_BecameVacant
  end.

Definition light_value_kind (kind : InputEventKind) : bool :=
  match kind with InputEventKind_LightCrossedAbove | InputEventKind_LightCrossedBelow => true | _ => false end.

Definition light_crosses (vol : Volatile) (source : Z * Z * Z) (direction : CrossDirection) (threshold value : Z)
    : bool :=
  if value =? INPUT_VALUE_MASK_10BIT then false
  else match light_edge vol !! source with
       | None => false
       | Some prev =>
           match direction with
           | CrossDirection_Above => (prev <=? threshold) && (threshold <? value)
           | CrossDirection_Below => (threshold <=? prev) && (value <? threshold)
           end
       end.

Definition input_event_matches (trigger : Trigger) (vol : Volatile) (adapter_id : Z)
    (short_address instance_number instance_type : option Z) (instance_groups : list (option Z))
    (kind : InputEventKind) (value : Z) : bool :=
  match trigger with
  | Trigger_InputEvent source event =>
      source_matches source adapter_id short_address instance_number instance_type instance_groups &&
      event_matches event kind value
  | Trigger_InputOccupancy source becomes =>
      instance_is source adapter_id short_address instance_number && occupancy_matches becomes kind
  | Trigger_InputLightCross source direction threshold =>
      instance_is source adapter_id short_address instance_number && light_value_kind kind &&
      light_crosses vol (input_adapter_id source, input_short_address source, input_instance_number source)
        direction threshold value
  | Trigger_InputPositionChange source =>
      instance_is source adapter_id short_address instance_number &&
      kind_is kind InputEventKind_PositionChanged
  | _ => false
  end.

Definition lifecycle_matches (trigger : Trigger) (input : EngineInput) : bool :=
  match input, trigger with
  | In_PowerCycled adapter_id short_address, Trigger_InputDevicePowerCycled device =>
      (idev_adapter_id device =? adapter_id) && opt_eqb (Some (idev_short_address device)) short_address
  | In_ManualConfigChanged adapter_id short_address, Trigger_InputDeviceManualConfigChanged device =>
      (idev_adapter_id device =? adapter_id) && (idev_short_address device =? short_address)
  | _, _ => false
  end.

Definition lamp_matches (trigger : Trigger) (adapter_id lamp : Z) (is_on : bool) (level : option Z) (was_on : bool)
    (previous_level : option Z) : bool :=
  match trigger with
  | Trigger_LampTurns l to_ =>
      (lamp_adapter_id l =? adapter_id) && (lamp_id l =? lamp) && negb (eqb was_on is_on) &&
      eqb (bool_decide (to_ = PowerTransition_On)) is_on
  | Trigger_LampLevelCross l direction threshold =>
      (lamp_adapter_id l =? adapter_id) && (lamp_id l =? lamp) &&
      match previous_level, level, direction with
      | Some was, Some now, CrossDirection_Above => (was <=? threshold) && (threshold <? now)
      | Some was, Some now, CrossDirection_Below => (threshold <=? was) && (now <? threshold)
      | _, _, _ => false
      end
  | _ => false
  end.

Definition group_matches (trigger : Trigger) (adapter_id group : Z) (any_on was_any_on : bool) : bool :=
  match trigger with
  | Trigger_GroupBecomes g becomes =>
      (group_adapter_id g =? adapter_id) && (group_id g =? group) &&
      match becomes with
      | GroupAggregate_AnyOn => negb was_any_on && any_on
      | GroupAggregate_AllOff => was_any_on && negb any_on
      end
  | _ => false
  end.

Definition presence_matches (trigger : Trigger) (adapter_id short_address : Z) (online : bool) : bool :=
  match trigger with
  | Trigger_DeviceOnlineTransition device transition =>
      (device_adapter_id device =? adapter_id) && (device_short_address device =? short_address) &&
      eqb (bool_decide (transition = OnlineTransition_ComesOnline)) online
  | _ => false
  end.

Definition state_matches (trigger : Trigger) (input : EngineInput) : bool :=
  match input with
  | In_LampChanged adapter_id lamp_id is_on level was_on previous_level =>
      lamp_matches trigger adapter_id lamp_id is_on level was_on previous_level
  | In_GroupChanged adapter_id group_id any_on was_any_on =>
      group_matches trigger adapter_id group_id any_on was_any_on
  | In_SceneRecalled adapter_id scene_id =>
      match trigger with
      | Trigger_SceneRecalled a scene => (a =? adapter_id) && (scene =? scene_id)
      | _ => false
      end
  | In_DevicePresence adapter_id short_address online => presence_matches trigger adapter_id short_address online
  | In_HclOverride started target =>
      match trigger with
      | Trigger_HclOverride t transition =>
          bool_decide (t = target) && eqb started (bool_decide (transition = OverrideTransition_Starts))
      | _ => false
      end
  | _ => false
  end.

Definition mqtt_matches (trigger : Trigger) (arrived : str) (body : list Z) (truncated : bool) : bool :=
  match trigger with
  | Trigger_MqttMessage topic payload =>
      str_eqb topic arrived &&
      match payload with
      | None => true
      | Some literal => negb truncated && bool_decide (as_bytes literal = body)
      end
  | _ => false
  end.

Definition system_matches (trigger : Trigger) (input : EngineInput) : bool :=
  match input with
  | In_ControllerActive active => active && match trigger with Trigger_ControllerBecomesActive => true | _ => false end
  | In_ControllerStarts => match trigger with Trigger_ControllerStarts => true | _ => false end
  | In_RuleFailed name => match trigger with Trigger_RuleFails rule => str_eqb rule name | _ => false end
  | In_MqttMessage topic payload truncated => mqtt_matches trigger topic payload truncated
  | _ => false
  end.

Definition trigger_matches (trigger : Trigger) (input : EngineInput) (vol : Volatile) : bool :=
  match input with
  | In_InputEvent adapter_id sa inst itype groups kind value =>
      input_event_matches trigger vol adapter_id sa inst itype groups kind value
  | In_PowerCycled _ _ | In_ManualConfigChanged _ _ => lifecycle_matches trigger input
  | In_LampChanged _ _ _ _ _ _ | In_GroupChanged _ _ _ _ | In_SceneRecalled _ _ | In_DevicePresence _ _ _
  | In_HclOverride _ _ => state_matches trigger input
  | In_ControllerActive _ | In_ControllerStarts | In_RuleFailed _ | In_MqttMessage _ _ _ =>
      system_matches trigger input
  | In_RunRule _ _ | In_Tick => false
  end.

Definition rule_matches (rule : Rule) (input : EngineInput) (vol : Volatile) : option TriggerKind :=
  option_map trigger_kind (find (fun t => trigger_matches t input vol) (triggers rule)).

(** ** activate.rs *)

Inductive Mode := Mode_Auto | Mode_Manual | Mode_Dry.
Definition mode_is_dry (m : Mode) : bool := match m with Mode_Dry => true | _ => false end.
Definition mode_is_auto (m : Mode) : bool := match m with Mode_Auto => true | _ => false end.

Definition in_cooldown (env : ExecEnv) (name : str) (cooldown_ms : Z) : bool :=
  if cooldown_ms =? 0 then false
  else match last_activation_ms (e_vol env) !! name with
       | Some at_ => sat_sub (now_ms (e_world env)) at_ <? cooldown_ms
       | None => false
       end.

Fixpoint all_hold (env : EvalEnv) (conds : list Condition) : EvalResult bool :=
  match conds with
  | [] => Ok true
  | c :: conds =>
      match eval_condition env c with
      | Ok true => all_hold env conds
      | Ok false => Ok false
      | Err e => Err e
      end
  end.
Definition conditions_hold (env : ExecEnv) (rule : Rule) (ctx : EventCtx) : EvalResult bool :=
  all_hold (eval_env env ctx) (conditions rule).

Definition refusal (rule : str) (mode : Mode) (kind : TriggerKind) (reason : PartialReason) : ActivationOutcome :=
  mkOutcome rule (mode_is_dry mode) [] (Some reason) kind.

Definition with_counters (env : ExecEnv) (f : EngineCounters -> EngineCounters) : ExecEnv :=
  env <| e_counters := f (e_counters env) |>.

Definition note_wet_partial (env : ExecEnv) (mode : Mode) : ExecEnv :=
  if mode_is_dry mode then env
  else with_counters env (fun c => c <| partial_outcomes := bump (partial_outcomes c) |>).

Definition finish_wet (env : ExecEnv) (run : RunOutput) (depth : Z) (dry : bool) : ExecEnv :=
  if dry then env
  else
    let vol := foldl (fun v e => record_effect_chain v e depth (now_ms (e_world env))) (e_vol env) (run_effects run) in
    let env := with_counters (env <| e_vol := vol |>)
                 (fun c => c <| effects_emitted := sat_add 32 (effects_emitted c) (wrap 32 (len (run_effects run))) |>) in
    match run_partial run with
    | Some _ => with_counters env (fun c => c <| partial_outcomes := bump (partial_outcomes c) |>)
    | None => env
    end.

Definition execute (env : ExecEnv) (rule : Rule) (kind : TriggerKind) (ctx : EventCtx) (depth : Z) (mode : Mode)
    : ExecEnv * ActivationOutcome :=
  let name := rule_name rule in
  let dry := mode_is_dry mode in
  let job := mkJob name kind depth dry (rule_hold_hcl rule) ctx budget_for_activation
               (flatten_rule (actions rule) (blocks (e_rules env))) in
  let env :=
    if dry then with_counters env (fun c => c <| activations_dry := bump (activations_dry c) |>)
    else (with_counters env (fun c => c <| activations_total := bump (activations_total c) |>))
           <| e_vol := (e_vol env) <| last_activation_ms :=
                <[name := now_ms (e_world env)]> (last_activation_ms (e_vol env)) |> |> in
  let '(env, run) := run_steps env job in
  (finish_wet env run depth dry, mkOutcome name dry (run_effects run) (run_partial run) kind).

Definition activate (env : ExecEnv) (rule_idx : nat) (kind : TriggerKind) (ctx : EventCtx) (depth : Z) (mode : Mode)
    (out : list ActivationOutcome) : ExecEnv * list ActivationOutcome :=
  match rules (e_rules env) !! rule_idx with
  | None => (env, out)
  | Some rule =>
      let name := rule_name rule in
      if mode_is_auto mode && in_cooldown env name (cooldown_ms rule)
      then (with_counters env (fun c => c <| suppressed_cooldown := bump (suppressed_cooldown c) |>), out)
      else if MAX_CHAIN_DEPTH <? depth
      then (with_counters env (fun c => c <| chain_depth_exceeded := bump (chain_depth_exceeded c) |>),
            out ++ [refusal name mode kind ChainDepth])
      else match conditions_hold env rule ctx with
           | Ok true => let '(env, outcome) := execute env rule kind ctx depth mode in (env, out ++ [outcome])
           | Ok false =>
               (with_counters env (fun c => c <| conditions_rejected := bump (conditions_rejected c) |>), out)
           | Err Unevaluable => (note_wet_partial env mode, out ++ [refusal name mode kind ConditionUnevaluable])
           end
  end.

(** ** wheel.rs *)

Definition WEEK_MINUTES : Z := 7 * 24 * 60.
Definition WALL_CATCHUP_CAP_MIN : Z := 60.
Definition WALL_POLL_MS : Z := 1000.

(** [rules[*a].name > rules[*b].name]; the indices sorted are those of the rules. *)
Definition rule_name_at (set : RuleSet) (idx : nat) : str := default [] (option_map rule_name (rules set !! idx)).
Definition name_after (set : RuleSet) (a b : nat) : bool := str_gt (rule_name_at set a) (rule_name_at set b).
Definition name_order (set : RuleSet) : list nat :=
  insertion_sort_by (name_after set) (seq 0 (length (rules set))).

Definition is_enabled (env : ExecEnv) (idx : nat) : bool := default false (e_enabled env !! idx).

(** [rules.rule(name).is_none_or(|r| r.hold_hcl)]. *)
Definition resumed_hold_hcl (set : RuleSet) (name : str) : bool :=
  match set_rule set name with Some r => rule_hold_hcl r | None => true end.

Definition resume (env : ExecEnv) (cont : Continuation) : ExecEnv * ActivationOutcome :=
  let job := mkJob (cont_rule cont) (cont_trigger_kind cont) (cont_depth cont) false
               (resumed_hold_hcl (e_rules env) (cont_rule cont)) (cont_ctx cont) (cont_budget_left cont)
               (cont_steps cont) in
  let '(env, run) := run_steps env job in
  (finish_wet env run (cont_depth cont) false,
   mkOutcome (cont_rule cont) false (run_effects run) (run_partial run) (cont_trigger_kind cont)).

(** [(a.due_ms, a.seq) > (b.due_ms, b.seq)]; the pairs are distinct, so the unstable sort of
    the standard library orders them as any sort does. *)
Definition cont_after (a b : Continuation) : bool :=
  (cont_due_ms b <? cont_due_ms a) || ((cont_due_ms a =? cont_due_ms b) && (cont_seq b <? cont_seq a)).

Definition fire_one_continuation (s : ExecEnv * list ActivationOutcome) (cont : Continuation)
    : ExecEnv * list ActivationOutcome :=
  let '(env, out) := s in
  let env := with_counters env (fun c => c <| continuations_fired := bump (continuations_fired c) |>) in
  let '(env, outcome) := resume env cont in (env, out ++ [outcome]).

Definition fire_continuations (env : ExecEnv) (out : list ActivationOutcome) : ExecEnv * list ActivationOutcome :=
  let now := now_ms (e_world env) in
  let all := continuations (e_vol env) in
  let due := List.filter (fun c => cont_due_ms c <=? now) all in
  let env := env <| e_vol := (e_vol env)
               <| continuations := List.filter (fun c => negb (cont_due_ms c <=? now)) all |> |> in
  foldl fire_one_continuation (env, out) (insertion_sort_by cont_after due).

Definition timer_fires_on (name : str) (t : Trigger) : bool :=
  match t with Trigger_TimerFires timer => str_eqb timer name | _ => false end.

Definition fire_timer_rule (name : str) (s : ExecEnv * list ActivationOutcome) (idx : nat)
    : ExecEnv * list ActivationOutcome :=
  let '(env, out) := s in
  if negb (is_enabled env idx) then (env, out)
  else match rules (e_rules env) !! idx with
       | Some rule =>
           if existsb (timer_fires_on name) (triggers rule)
           then activate env idx TriggerKind_TimerFires event_ctx_default 0 Mode_Auto out
           else (env, out)
       | None => (env, out)
       end.

Definition fire_one_timer (s : ExecEnv * list ActivationOutcome) (name : str) : ExecEnv * list ActivationOutcome :=
  foldl (fire_timer_rule name) s (name_order (e_rules (fst s))).

Definition timer_after (a b : NamedTimer) : bool :=
  (timer_due_ms b <? timer_due_ms a) ||
  ((timer_due_ms a =? timer_due_ms b) && str_gt (timer_name a) (timer_name b)).

Definition fire_timers (env : ExecEnv) (out : list ActivationOutcome) : ExecEnv * list ActivationOutcome :=
  let now := now_ms (e_world env) in
  let all := timers (e_vol env) in
  let due := List.filter (fun t => timer_due_ms t <=? now) all in
  let env := env <| e_vol := (e_vol env)
               <| timers := List.filter (fun t => negb (timer_due_ms t <=? now)) all |> |> in
  foldl fire_one_timer (env, out) (map timer_name (insertion_sort_by timer_after due)).

Definition fire_every_slot (s : ExecEnv * list ActivationOutcome) (rule : str) : ExecEnv * list ActivationOutcome :=
  let '(env, out) := s in
  match rule_position (e_rules env) rule with
  | None => (env, out)
  | Some idx =>
      if is_enabled env idx then activate env idx TriggerKind_Every event_ctx_default 0 Mode_Auto out
      else (env, out)
  end.

Definition fire_every (env : ExecEnv) (out : list ActivationOutcome) : ExecEnv * list ActivationOutcome :=
  let now := now_ms (e_world env) in
  let all := every (e_vol env) in
  let due := map every_rule (List.filter (fun slot => every_due_ms slot <=? now) all) in
  let env := env <| e_vol := (e_vol env) <| every :=
               map (fun slot => if every_due_ms slot <=? now
                                then slot <| every_due_ms := sat_add 64 now (every_period_ms slot) |>
                                else slot) all |> |> in
  foldl fire_every_slot (env, out) due.

(** [rebuild_every]: a slot that was already there keeps its phase. *)
Definition every_slot_for (old : list EverySlot) (rule : str) (now : Z) (idx : nat) (period : Z) : EverySlot :=
  let kept := find (fun s => str_eqb (every_rule s) rule && (every_trigger_idx s =? idx)%nat &&
                             (every_period_ms s =? period)) old in
  mkEverySlot rule idx period
    (match kept with Some s => every_due_ms s | None => sat_add 64 now period end).
Definition rule_every_slots (old : list EverySlot) (now : Z) (rule : Rule) : list EverySlot :=
  omap (fun '(idx, t) => match t with
                         | Trigger_Every period => Some (every_slot_for old (rule_name rule) now idx period)
                         | _ => None
                         end) (zip (seq 0 (length (triggers rule))) (triggers rule)).
Definition slot_after (a b : EverySlot) : bool :=
  str_gt (every_rule a) (every_rule b) ||
  (str_eqb (every_rule a) (every_rule b) && (every_trigger_idx b <? every_trigger_idx a)%nat).
Definition rebuild_every (vol : Volatile) (set : RuleSet) (now : Z) : Volatile :=
  vol <| every := insertion_sort_by slot_after
                    (concat (map (rule_every_slots (every vol) now) (rules set))) |>.

Definition week_min (w : WallTime) : Z := weekday w * 24 * 60 + minutes_of_day w.
(** [(to + WEEK_MINUTES - from) % WEEK_MINUTES] on [u32]. *)
Definition cyclic_dist (from to_ : Z) : Z := wrapping_sub 32 (to_ + WEEK_MINUTES) from mod WEEK_MINUTES.
Definition in_window (base window target : Z) : bool :=
  let dist := cyclic_dist base target in (1 <=? dist) && (dist <=? window).

Definition is_wall_trigger (t : Trigger) : bool :=
  match t with Trigger_AtTime _ _ | Trigger_AtSolar _ _ => true | _ => false end.
(** [has_wall_triggers], [wall_triggers_exist]. *)
Definition wall_triggers_exist (set : RuleSet) (enabled : list bool) : bool :=
  existsb (fun '(idx, rule) => default false (enabled !! idx) && existsb is_wall_trigger (triggers rule))
          (zip (seq 0 (length (rules set))) (rules set)).
Definition has_wall_triggers (env : ExecEnv) : bool := wall_triggers_exist (e_rules env) (e_enabled env).

Definition solar_target_minute (env : ExecEnv) (event : SolarEvent) (offset_ms : Z) : option Z :=
  option_map (fun sun => solar_minute sun event offset_ms) (sun (e_world env)).

(** [due_wall_kind]; the flag is [solar_unsynced] after the scan. *)
Fixpoint due_wall_trigger (env : ExecEnv) (ts : list Trigger) (base window : Z) (solar_unsynced : bool)
    : option TriggerKind * bool :=
  match ts with
  | [] => (None, solar_unsynced)
  | Trigger_AtTime time days :: ts =>
      let min := hour time * 60 + minute time in
      let due := existsb (fun d => day_set_contains days d && in_window base window (weekday_index d * 24 * 60 + min))
                         Weekday_ALL in
      if due then (Some TriggerKind_AtTime, solar_unsynced)
      else due_wall_trigger env ts base window solar_unsynced
  | Trigger_AtSolar event offset_ms :: ts =>
      match solar_target_minute env event offset_ms with
      | Some min =>
          let due := existsb (fun d => in_window base window (d * 24 * 60 + min)) (seqZ 0 7) in
          if due then (Some TriggerKind_AtSolar, solar_unsynced)
          else due_wall_trigger env ts base window solar_unsynced
      | None => due_wall_trigger env ts base window true
      end
  | _ :: ts => due_wall_trigger env ts base window solar_unsynced
  end.

Definition fire_wall_rule (base window : Z) (s : ExecEnv * list ActivationOutcome * bool) (idx : nat)
    : ExecEnv * list ActivationOutcome * bool :=
  let '(env, out, unsynced) := s in
  if negb (is_enabled env idx) then (env, out, unsynced)
  else match rules (e_rules env) !! idx with
       | Some rule =>
           match due_wall_trigger env (triggers rule) base window unsynced with
           | (Some kind, unsynced) => (activate env idx kind event_ctx_default 0 Mode_Auto out, unsynced)
           | (None, unsynced) => (env, out, unsynced)
           end
       | None => (env, out, unsynced)
       end.

Definition bump_unsynced (env : ExecEnv) : ExecEnv :=
  with_counters env (fun c => c <| ticks_time_unsynced := bump (ticks_time_unsynced c) |>).

Definition fire_due_wall_rules (env : ExecEnv) (base window : Z) (out : list ActivationOutcome)
    : ExecEnv * list ActivationOutcome :=
  let '(env, out, unsynced) := foldl (fire_wall_rule base window) (env, out, false) (name_order (e_rules env)) in
  (if unsynced : bool then bump_unsynced env else env, out).

Definition set_prev_week_min (env : ExecEnv) (m : option Z) : ExecEnv :=
  env <| e_vol := (e_vol env) <| prev_week_min := m |> |>.

(** The minutes a tick looks back on: at most 60 of them, ending at [now_min]. *)
Definition catchup_window (prev now_min : Z) : Z := Z.min (cyclic_dist prev now_min) WALL_CATCHUP_CAP_MIN.
Definition window_base (now_min window : Z) : Z := wrapping_sub 32 (now_min + WEEK_MINUTES) window mod WEEK_MINUTES.

Definition fire_wall_schedules (env : ExecEnv) (out : list ActivationOutcome)
    : ExecEnv * list ActivationOutcome :=
  match wall (e_world env) with
  | None => (set_prev_week_min (if has_wall_triggers env then bump_unsynced env else env) None, out)
  | Some w =>
      let now_min := week_min w in
      let prev := prev_week_min (e_vol env) in
      let env := set_prev_week_min env (Some now_min) in
      match prev with
      | None => (env, out)
      | Some prev =>
          if negb (has_wall_triggers env) then (env, out)
          else
            let window := catchup_window prev now_min in
            if window =? 0 then (env, out)
            else fire_due_wall_rules env (window_base now_min window) window out
      end
  end.

Definition service_tick (env : ExecEnv) (out : list ActivationOutcome) : ExecEnv * list ActivationOutcome :=
  let '(env, out) := fire_continuations env out in
  let '(env, out) := fire_timers env out in
  let '(env, out) := fire_every env out in
  fire_wall_schedules env out.

(** [consider] over every pending deadline. *)
Definition next_deadline (vol : Volatile) (set : option RuleSet) (enabled : list bool) (now : Z) : option Z :=
  let candidates :=
    map cont_due_ms (continuations vol) ++ map timer_due_ms (timers vol) ++ map every_due_ms (every vol) ++
    match set with
    | Some set => if wall_triggers_exist set enabled then [sat_add 64 now WALL_POLL_MS] else []
    | None => []
    end in
  match candidates with
  | [] => None
  | c :: cs => Some (foldl Z.min c cs)
  end.

(** ** mod.rs *)

Record Engine := mkEngine {
  eng_rules : option RuleSet;
  eng_enabled : list bool;
  eng_vol : Volatile;
  eng_counters : EngineCounters;
  eng_now_ms : Z
}.
#[global] Instance Engine_eta : Eta Engine := fun e =>
  mkEngine (eng_rules e) (eng_enabled e) (eng_vol e) (eng_counters e) (eng_now_ms e).

Definition engine_new (now : Z) : Engine := mkEngine None [] volatile_default counters_default now.

Definition set_rules (eng : Engine) (set : option RuleSet) (now : Z) : Engine :=
  let dropped := len (continuations (eng_vol eng)) in
  let next := default (rule_set_empty 0) set in
  let vol := (eng_vol eng) <| continuations := [] |> in
  let vol := retain_rule_names vol (fun name => existsb (fun r => str_eqb (rule_name r) name) (rules next)) in
  let vol := keep_stats vol (stat_names next) in
  let vol := rebuild_every vol next now in
  mkEngine set (map rule_enabled (rules next)) vol
    ((eng_counters eng) <| continuations_dropped :=
       sat_add 32 (continuations_dropped (eng_counters eng)) (wrap 32 dropped) |>) now.

Definition set_rule_enabled (eng : Engine) (name : str) (on : bool) : Engine * bool :=
  match eng_rules eng ≫= fun set => rule_position set name with
  | None => (eng, false)
  | Some idx =>
      let '(enabled, vol, counters) :=
        flip_rule_bit (eng_enabled eng) (eng_vol eng) (eng_counters eng) idx name on in
      (eng <| eng_enabled := enabled |> <| eng_vol := vol |> <| eng_counters := counters |>, true)
  end.

(** [str::from_utf8(payload).ok()?.parse::<i32>().ok()?], unless truncated. *)
Definition mqtt_value (payload : list Z) (truncated : bool) : option Z :=
  if truncated then None else from_utf8 payload ≫= parse_i32.

Definition input_chain_depth (env : ExecEnv) (input : EngineInput) : Z :=
  let now := now_ms (e_world env) in
  match input with
  | In_LampChanged adapter_id lamp_id _ _ _ _ => chain_depth_for (e_vol env) (lamp_chain_keys adapter_id lamp_id) now
  | In_GroupChanged adapter_id group_id _ _ => chain_depth_for (e_vol env) (group_chain_keys adapter_id group_id) now
  | In_SceneRecalled adapter_id scene_id =>
      chain_depth_for (e_vol env) [ChainKey_Scene scene_id; ChainKey_AdapterWide adapter_id] now
  | In_HclOverride _ target => chain_depth_for (e_vol env) [ChainKey_Hcl target] now
  | In_MqttMessage topic _ _ => chain_depth_for (e_vol env) [ChainKey_BrokerTopic topic] now
  | _ => 0
  end.

Definition input_event_ctx (input : EngineInput) : EventCtx :=
  match input with
  | In_InputEvent _ short_address instance_number _ instance_groups _ value =>
      mkEventCtx (Some value) short_address instance_number (default None (instance_groups !! 0%nat))
  | In_LampChanged _ _ _ level _ _ => mkEventCtx level None None None
  | In_GroupChanged _ _ any_on _ => mkEventCtx (Some (Z_of_bool any_on)) None None None
  | In_SceneRecalled _ scene_id => mkEventCtx (Some scene_id) None None None
  | In_MqttMessage _ payload truncated => mkEventCtx (mqtt_value payload truncated) None None None
  | _ => event_ctx_default
  end.

Definition maintain_edge_cache (env : ExecEnv) (input : EngineInput) : ExecEnv :=
  match input with
  | In_InputEvent adapter_id (Some sa) (Some inst) _ _ kind value =>
      if negb (light_value_kind kind) then env
      else
        let key := (adapter_id, sa, inst) in
        let edge := light_edge (e_vol env) in
        env <| e_vol := (e_vol env) <| light_edge :=
          if value =? INPUT_VALUE_MASK_10BIT then delete key edge else <[key := value]> edge |> |>
  | _ => env
  end.

Definition external_rule (input : EngineInput) (ctx : EventCtx) (depth : Z)
    (s : ExecEnv * list ActivationOutcome) (idx : nat) : ExecEnv * list ActivationOutcome :=
  let '(env, out) := s in
  match rules (e_rules env) !! idx with
  | None => (env, out)
  | Some rule =>
      match rule_matches rule input (e_vol env) with
      | None => (env, out)
      | Some kind =>
          if negb (is_enabled env idx)
          then (with_counters env (fun c => c <| suppressed_disabled := bump (suppressed_disabled c) |>), out)
          else activate env idx kind ctx depth Mode_Auto out
      end
  end.

Definition on_external (env : ExecEnv) (input : EngineInput) (out : list ActivationOutcome)
    : ExecEnv * list ActivationOutcome :=
  let depth := input_chain_depth env input in
  let ctx := input_event_ctx input in
  let '(env, out) := foldl (external_rule input ctx depth) (env, out) (name_order (e_rules env)) in
  (maintain_edge_cache env input, out).

Definition run_rule (env : ExecEnv) (name : str) (dry : bool) (out : list ActivationOutcome)
    : ExecEnv * list ActivationOutcome :=
  match rule_position (e_rules env) name with
  | None => (env, out)
  | Some idx =>
      let enabled := is_enabled env idx in
      if negb dry && negb enabled
      then (with_counters env (fun c => c <| suppressed_disabled := bump (suppressed_disabled c) |>), out)
      else activate env idx TriggerKind_HttpTrigger event_ctx_default 0 (if dry then Mode_Dry else Mode_Manual) out
  end.

Definition dispatch (env : ExecEnv) (input : EngineInput) (out : list ActivationOutcome)
    : ExecEnv * list ActivationOutcome :=
  match input with
  | In_Tick => service_tick env out
  | In_RunRule name dry => run_rule env name dry out
  | other => on_external env other out
  end.

Definition handle (eng : Engine) (input : EngineInput) (world : WorldSnapshot)
    : Engine * list ActivationOutcome :=
  let vol := prune_chain (eng_vol eng) (now_ms world) in
  match eng_rules eng with
  | None => (eng <| eng_now_ms := now_ms world |> <| eng_vol := vol |>, [])
  | Some rules =>
      let '(env, out) := dispatch (mkExecEnv world rules (eng_enabled eng) vol (eng_counters eng)) input [] in
      (mkEngine (Some rules) (e_enabled env) (e_vol env) (e_counters env) (now_ms world), out)
  end.

Definition next_deadline_ms (eng : Engine) : option Z :=
  next_deadline (eng_vol eng) (eng_rules eng) (eng_enabled eng) (eng_now_ms eng).

Definition watches_groups (eng : Engine) : bool :=
  match eng_rules eng with
  | Some set =>
      existsb (fun rule => existsb (fun t => match t with Trigger_GroupBecomes _ _ => true | _ => false end)
                             (triggers rule)) (rules set)
  | None => false
  end.

(** counters.rs: the snapshot adds the gauges. *)
Record EngineCountersSnapshot := mkCountersSnapshot {
  snap_counters : EngineCounters;
  continuations_pending : Z;
  timers_active : Z;
  rules_loaded : Z;
  vars_in_use : Z
}.
Definition engine_counters (eng : Engine) : EngineCountersSnapshot :=
  mkCountersSnapshot (eng_counters eng)
    (wrap 32 (len (continuations (eng_vol eng)))) (wrap 32 (len (timers (eng_vol eng))))
    (wrap 32 (match eng_rules eng with Some r => len (rules r) | None => 0 end))
    (wrap 32 (Z.of_nat (size (vars (eng_vol eng))))).

End RulesEngine.
