(* ===== verification/RulesReach.v ===== *)
(** * Reachable engines

    Every operation of the [Engine] keeps its bounds: at most 32 pending
    continuations, each a program it can afford, at most 16 timers with distinct
    names and 16 variables, one enabled bit per rule and one [every] slot per
    [every] trigger. *)

From stdpp Require Import gmap strings.
From S2P Require Import Prelude RulesBase RulesModel RulesLimits RulesState RulesEval RulesExec RulesFlat RulesRun.
From S2P Require Import RulesEngine.

Module RulesReach.
Import RulesModel RulesLimits RulesState RulesEval RulesExec RulesFlat RulesRun RulesEngine.

(** The rules of a document the validator accepted. *)
Definition accepted (set : RuleSet) : Prop :=
  Forall (fun r => let steps := flatten_rule (actions r) (blocks set) in
            program steps /\ (weights steps <= budget_for_activation)%nat) (rules set).

Lemma validate_accepts set : document_u8 set -> validate set = Ok tt -> accepted set.
Proof.
  intros Hu Hv. pose proof (validate_verdict set Hu) as Hok. rewrite Hv in Hok. cbn in Hok.
  apply List.Forall_forall. intros r Hr.
  pose proof (ok_size set Hok) as Hsz. rewrite List.Forall_forall in Hsz. destruct (Hsz r Hr) as (n & Hn & Hle).
  destruct Hu as [Hu1 Hu2]. rewrite List.Forall_forall in Hu1. specialize (Hu1 r Hr).
  pose proof (flatten_rule_expands (blocks set) (rule_name r) (actions r) Hu2 Hu1) as He.
  unfold expanded_action_count in Hn. rewrite Hn in He. destruct He as (Hr2 & Hp & Hs).
  unfold MAX_ACTIONS_EXPANDED in Hle. destruct (Hp (Hs ltac:(lia) ltac:(cbn; lia))) as [P E].
  split; [exact P|]. unfold budget_for_activation, MAX_ACTIONS_EXPANDED, umax, USIZE_BITS in *. lia.
Qed.

(** ** A piece of [handle]: the environment, and the outcomes it appends *)

Record piece (s s' : ExecEnv * list ActivationOutcome) : Prop := {
  piece_step : env_step (fst s) (fst s');
  piece_out : exists new, snd s' = snd s ++ new /\
    (in_u 32 (dropped (fst s)) ->
     Forall (fun o => out_partial o = Some EffectBudget -> store_was_full (fst s) (fst s')) new)
}.

Lemma piece_silent env env' out : env_step env env' -> piece (env, out) (env', out).
Proof. intros H. split; [done|]. exists []. now rewrite app_nil_r. Qed.

#[global] Instance piece_preorder : PreOrder piece.
Proof.
  split; [intros [env out]; now apply piece_silent|].
  intros [a o1] [b o2] [c o3] [S1 (n1 & E1 & F1)] [S2 (n2 & E2 & F2)]; cbn [fst snd] in *.
  split; [now transitivity b|]. exists (n1 ++ n2). subst. split; [now rewrite app_assoc|]. intros Ha.
  destruct (step_dropped _ _ S1 Ha) as [Hb _]. apply Forall_app. split.
  - eapply List.Forall_impl; [|exact (F1 Ha)]. cbn. intros o Ho Hp. eapply store_was_full_trans; eauto.
  - eapply List.Forall_impl; [|exact (F2 Hb)]. cbn. intros o Ho Hp. eapply store_was_full_trans; eauto.
Qed.

Lemma piece_accepted s s' : piece s s' -> accepted (e_rules (fst s)) -> accepted (e_rules (fst s')).
Proof. intros [H _]. now rewrite (step_rules _ _ H). Qed.

Lemma piece_one env env' out o :
  env_step env env' ->
  (in_u 32 (dropped env) -> out_partial o = Some EffectBudget -> store_was_full env env') ->
  piece (env, out) (env', out ++ [o]).
Proof. intros H1 H2. split; [done|]. exists [o]. split; [done|]. intros Hd. constructor; auto. Qed.

Lemma with_counters_step env f :
  (forall c, continuations_dropped (f c) = continuations_dropped c) -> env_step env (with_counters env f).
Proof. intros Hf. apply env_step_counters. intros c Hc. rewrite Hf. split; [done|lia]. Qed.

Lemma record_effect_chain_frame v e depth now :
  let v' := record_effect_chain v e depth now in
  (vol_ok v -> vol_ok v') /\ map every_key (every v') = map every_key (every v) /\
  chain v' = chain v ++ map (fun k => mkChainEntry k depth now) (effect_keys e).
Proof.
  unfold record_effect_chain. revert v. induction (effect_keys e) as [|k ks IH]; intros v; cbn; [now rewrite app_nil_r|].
  destruct (IH (record_chain v k depth now)) as (H1 & H2 & H3). split; [|split; [exact H2|]].
  - intros [? ? ? ? ?]. apply H1. now split.
  - rewrite H3. cbn. now rewrite <- app_assoc.
Qed.

(** The chain entries of a list of effects. *)
Definition chain_entries (es : list Effect) (depth now : Z) : list ChainEntry :=
  concat (map (fun e => map (fun k => mkChainEntry k depth now) (effect_keys e)) es).

Lemma record_effects_frame es depth now v :
  let v' := foldl (fun v e => record_effect_chain v e depth now) v es in
  (vol_ok v -> vol_ok v') /\ map every_key (every v') = map every_key (every v) /\
  chain v' = chain v ++ chain_entries es depth now.
Proof.
  revert v. induction es as [|e es IH]; intros v; cbn; [now rewrite app_nil_r|].
  destruct (IH (record_effect_chain v e depth now)) as (A & B & C).
  destruct (record_effect_chain_frame v e depth now) as (D & E & F).
  split; [auto|]. split; [congruence|]. rewrite C, F. now rewrite <- app_assoc.
Qed.

Lemma finish_wet_chain env run depth :
  chain (e_vol (finish_wet env run depth false)) =
  chain (e_vol env) ++ chain_entries (run_effects run) depth (now_ms (e_world env)).
Proof.
  unfold finish_wet. cbv zeta.
  destruct (record_effects_frame (run_effects run) depth (now_ms (e_world env)) (e_vol env)) as (_ & _ & <-).
  now destruct (run_partial run).
Qed.

Lemma finish_wet_step env run depth dry : env_step env (finish_wet env run depth dry).
Proof.
  unfold finish_wet. destruct dry; [done|].
  destruct (record_effects_frame (run_effects run) depth (now_ms (e_world env)) (e_vol env)) as (H1 & H2 & H3).
  etransitivity; [apply (env_step_vol env _ H1 H2); rewrite H3; now apply prefix_app_r|]. cbv zeta.
  etransitivity.
  - apply (with_counters_step _ (fun c => c <| effects_emitted := sat_add 32 (effects_emitted c) (wrap 32 (len (run_effects run))) |>)).
    done.
  - destruct (run_partial run); [|done].
    apply (with_counters_step _ (fun c => c <| partial_outcomes := bump (partial_outcomes c) |>)). done.
Qed.

Lemma finish_wet_dropped env run depth dry : dropped (finish_wet env run depth dry) = dropped env.
Proof. unfold finish_wet. destruct dry; [done|]. cbv zeta. now destruct (run_partial run). Qed.

(** A run and its bookkeeping, for a job that fits its budget. *)
Lemma run_piece env job depth dry out kind :
  program (job_steps job) -> (weights (job_steps job) <= job_budget_left job <= budget_for_activation)%nat ->
  let '(env1, run) := run_steps env job in
  piece (env, out)
    (finish_wet env1 run depth dry, out ++ [mkOutcome (job_rule job) dry (run_effects run) (run_partial run) kind]).
Proof.
  intros Hp Hw. pose proof (run_steps_stage env job Hp Hw) as H. destruct (run_steps env job) as [env1 run].
  destruct H as [S B]. apply piece_one; [etransitivity; [exact S|apply finish_wet_step]|].
  intros Hd Hpart. destruct (B Hd Hpart) as [Hc|Hc]; [discriminate|].
  unfold store_was_full in *. now rewrite finish_wet_dropped.
Qed.

Lemma piece_before env env1 out s : env_step env env1 -> piece (env1, out) s -> piece (env, out) s.
Proof. intros H1 H2. transitivity (env1, out); [now apply piece_silent|exact H2]. Qed.

Lemma activate_piece env idx kind ctx depth mode out :
  accepted (e_rules env) -> piece (env, out) (activate env idx kind ctx depth mode out).
Proof.
  intros Hacc. unfold activate. destruct (rules (e_rules env) !! idx) as [rule|] eqn:Hr; [|done].
  assert (program (flatten_rule (actions rule) (blocks (e_rules env))) /\
          (weights (flatten_rule (actions rule) (blocks (e_rules env))) <= budget_for_activation)%nat) as [Hp Hw].
  { unfold accepted in Hacc. rewrite List.Forall_forall in Hacc. apply (Hacc rule), list_elem_of_In.
    eapply list_elem_of_lookup_2; eauto. }
  case_if; [apply piece_silent, with_counters_step; done|].
  case_if.
  { apply piece_one; [apply with_counters_step; done|]. intros _. discriminate. }
  destruct (conditions_hold env rule ctx) as [[]|[]].
  - unfold execute. cbv zeta.
    match goal with |- context [run_steps ?e ?j] => set (env1 := e); set (job := j) end.
    assert (env_step env env1) as H1.
    { subst env1. destruct (mode_is_dry mode); [apply with_counters_step; done|].
      transitivity (with_counters env (fun c => c <| activations_total := bump (activations_total c) |>));
        [apply with_counters_step; done|]. apply env_step_vol; [|done|done]. intros [? ? ? ? ?]. now split. }
    pose proof (run_piece env1 job depth (mode_is_dry mode) out kind Hp) as H2.
    destruct (run_steps env1 job) as [env2 run]. apply (piece_before _ env1); [done|]. apply H2.
    cbn [job_steps job_budget_left job]. lia.
  - apply piece_silent, with_counters_step. done.
  - apply piece_one; [|intros _; discriminate]. unfold note_wet_partial.
    destruct (mode_is_dry mode); [done|]. apply with_counters_step. done.
Qed.

(** Folds of pieces, the rules of the environment staying accepted. *)
Lemma fold_piece {A} (f : ExecEnv * list ActivationOutcome -> A -> ExecEnv * list ActivationOutcome) l s :
  (forall s x, x ∈ l -> accepted (e_rules (fst s)) -> piece s (f s x)) ->
  accepted (e_rules (fst s)) -> piece s (foldl f s l).
Proof.
  revert s. induction l as [|x l IH]; intros s Hf Hacc; cbn; [done|].
  assert (piece s (f s x)) as H1 by (apply Hf; [left|done]).
  etransitivity; [exact H1|]. apply IH; [intros; apply Hf; [now right|done]|].
  now rewrite (step_rules _ _ (piece_step _ _ H1)).
Qed.

Lemma fire_one_continuation_piece s cont : cont_ok cont -> piece s (fire_one_continuation s cont).
Proof.
  destruct s as [env out]. intros [Hp Hw]. unfold fire_one_continuation, resume. cbv zeta.
  set (env1 := with_counters env _).
  match goal with |- context [run_steps ?e ?j] =>
    pose proof (run_piece e j (cont_depth cont) false out (cont_trigger_kind cont) Hp Hw) as H2;
    destruct (run_steps e j) as [env2 run] end.
  apply (piece_before _ env1); [|apply H2]. apply with_counters_step. done.
Qed.

(** A change of the volatile state, then a fold of pieces. *)
Lemma vol_fold_piece {A} env v out (f : ExecEnv * list ActivationOutcome -> A -> ExecEnv * list ActivationOutcome) l :
  accepted (e_rules env) -> (vol_ok (e_vol env) -> vol_ok v) ->
  map every_key (every v) = map every_key (every (e_vol env)) -> chain (e_vol env) `prefix_of` chain v ->
  (forall s x, x ∈ l -> accepted (e_rules (fst s)) -> piece s (f s x)) ->
  piece (env, out) (foldl f (env <| e_vol := v |>, out) l).
Proof.
  intros Hacc H1 H2 H3 Hf. apply (piece_before _ (env <| e_vol := v |>)); [now apply env_step_vol|].
  now apply fold_piece.
Qed.

Lemma fire_continuations_piece env out :
  vol_ok (e_vol env) -> accepted (e_rules env) -> piece (env, out) (fire_continuations env out).
Proof.
  intros Hok Hacc. unfold fire_continuations. cbv zeta.
  apply vol_fold_piece; [done| |done|done|].
  - intros [H1 H2 H3 H4 H5]. split; cbn; auto; [|now apply Forall_filter].
    pose proof (len_filter_le (fun c => negb (cont_due_ms c <=? now_ms (e_world env))) (continuations (e_vol env))). lia.
  - intros s c Hc _. apply fire_one_continuation_piece.
    rewrite (insertion_sort_by_perm cont_after) in Hc. apply list_elem_of_In, filter_In in Hc as [Hc _].
    pose proof (ok_conts _ Hok) as Hall. rewrite List.Forall_forall in Hall. now apply Hall.
Qed.

Lemma fire_timer_rule_piece name s idx : accepted (e_rules (fst s)) -> piece s (fire_timer_rule name s idx).
Proof.
  destruct s as [env out]. intros Hacc. unfold fire_timer_rule. case_if; [done|].
  destruct (rules (e_rules env) !! idx); [|done]. case_if; [|done]. now apply activate_piece.
Qed.

Lemma fire_timers_piece env out : accepted (e_rules env) -> piece (env, out) (fire_timers env out).
Proof.
  intros Hacc. unfold fire_timers. cbv zeta.
  apply vol_fold_piece; [done| |done|done|].
  - intros [H1 H2 H3 H4 H5]. split; cbn; auto; [|now apply NoDup_map_filter].
    pose proof (len_filter_le (fun t => negb (timer_due_ms t <=? now_ms (e_world env))) (timers (e_vol env))). lia.
  - intros s n _ Hs. apply fold_piece; [|done]. intros. now apply fire_timer_rule_piece.
Qed.

Lemma fire_every_piece env out : accepted (e_rules env) -> piece (env, out) (fire_every env out).
Proof.
  intros Hacc. unfold fire_every. cbv zeta.
  apply vol_fold_piece; [done| | |done|].
  - intros [? ? ? ? ?]. now split.
  - cbn. rewrite map_map. apply map_ext. intros slot. now case_if.
  - intros [e o] rule _ Hs. unfold fire_every_slot. destruct (rule_position (e_rules e) rule); [|done].
    case_if; [|done]. now apply activate_piece.
Qed.

Lemma set_prev_step env m : env_step env (set_prev_week_min env m).
Proof. apply env_step_vol; [|done|done]. intros [? ? ? ? ?]. now split. Qed.
Lemma bump_unsynced_step env : env_step env (bump_unsynced env).
Proof. now apply with_counters_step. Qed.

Lemma fire_wall_fold_piece base window l : forall env out b,
  accepted (e_rules env) ->
  piece (env, out) (fst (foldl (fire_wall_rule base window) (env, out, b) l)).
Proof.
  induction l as [|idx l IH]; intros env out b Hacc; cbn [foldl]; [done|].
  assert (exists env1 out1 b1, fire_wall_rule base window (env, out, b) idx = (env1, out1, b1) /\
            piece (env, out) (env1, out1)) as (env1 & out1 & b1 & -> & H1).
  { unfold fire_wall_rule. case_if; [by eexists _, _, _|].
    destruct (rules (e_rules env) !! idx) as [rule|]; [|by eexists _, _, _].
    destruct (due_wall_trigger env (triggers rule) base window b) as [[kind|] u]; [|by eexists _, _, _].
    pose proof (activate_piece env idx kind event_ctx_default 0 Mode_Auto out Hacc) as H.
    destruct (activate env idx kind event_ctx_default 0 Mode_Auto out). by eexists _, _, _. }
  etransitivity; [exact H1|]. apply IH. now apply (piece_accepted _ _ H1).
Qed.

Lemma fire_wall_schedules_piece env out : accepted (e_rules env) -> piece (env, out) (fire_wall_schedules env out).
Proof.
  intros Hacc. unfold fire_wall_schedules. destruct (wall (e_world env)) as [w|].
  - cbv zeta. eapply piece_before; [apply set_prev_step|]. destruct (prev_week_min (e_vol env)); [|done].
    case_if; [done|]. case_if; [done|]. unfold fire_due_wall_rules.
    match goal with |- context [foldl ?f (?e, ?o, false) ?l] =>
      pose proof (fire_wall_fold_piece
        (window_base (week_min w) (catchup_window z (week_min w))) (catchup_window z (week_min w)) l e o false Hacc) as H;
      destruct (foldl f (e, o, false) l) as [[env1 out1] u] end.
    cbn [fst] in H. etransitivity; [exact H|]. apply piece_silent. destruct u; [apply bump_unsynced_step|done].
  - apply piece_silent. case_if; [etransitivity; [apply bump_unsynced_step|]|]; apply set_prev_step.
Qed.

Lemma service_tick_piece env out :
  vol_ok (e_vol env) -> accepted (e_rules env) -> piece (env, out) (service_tick env out).
Proof.
  intros Hok Hacc. unfold service_tick.
  pose proof (fire_continuations_piece env out Hok Hacc) as H1. destruct (fire_continuations env out) as [e1 o1].
  assert (accepted (e_rules e1)) as A1 by now apply (piece_accepted _ _ H1).
  pose proof (fire_timers_piece e1 o1 A1) as H2. destruct (fire_timers e1 o1) as [e2 o2].
  assert (accepted (e_rules e2)) as A2 by now apply (piece_accepted _ _ H2).
  pose proof (fire_every_piece e2 o2 A2) as H3. destruct (fire_every e2 o2) as [e3 o3].
  assert (accepted (e_rules e3)) as A3 by now apply (piece_accepted _ _ H3).
  etransitivity; [exact H1|]. etransitivity; [exact H2|]. etransitivity; [exact H3|].
  now apply fire_wall_schedules_piece.
Qed.

Lemma maintain_edge_cache_step env input : env_step env (maintain_edge_cache env input).
Proof.
  unfold maintain_edge_cache. destruct input; try done. destruct short_address, instance_number; try done.
  case_if; [done|]. apply env_step_vol; [|done|done]. intros [? ? ? ? ?]. now split.
Qed.

Lemma dispatch_piece env input out :
  vol_ok (e_vol env) -> accepted (e_rules env) -> piece (env, out) (dispatch env input out).
Proof.
  intros Hok Hacc.
  assert (piece (env, out) (on_external env input out)) as Hext.
  { unfold on_external.
    pose proof (fold_piece (external_rule input (input_event_ctx input) (input_chain_depth env input))
      (name_order (e_rules env)) (env, out)) as H.
    destruct (foldl _ (env, out) (name_order (e_rules env))) as [env1 out1].
    etransitivity; [apply H; [|exact Hacc]|apply piece_silent, maintain_edge_cache_step].
    intros [e o] idx _ Ha. unfold external_rule. destruct (rules (e_rules e) !! idx) as [rule|]; [|done].
    destruct (rule_matches rule input (e_vol e)); [|done]. case_if; [apply piece_silent, with_counters_step; done|].
    now apply activate_piece. }
  destruct input; try exact Hext; cbn [dispatch].
  - unfold run_rule. destruct (rule_position (e_rules env) name); [|done]. cbv zeta.
    case_if; [apply piece_silent, with_counters_step; done|]. now apply activate_piece.
  - now apply service_tick_piece.
Qed.

(** ** Whole engines *)

(** The document an engine runs: the code falls back to an empty set. *)
Definition loaded (eng : Engine) : RuleSet := default (rule_set_empty 0) (eng_rules eng).

(** The [every] triggers of a rule: its name, the trigger's index, the period. *)
Definition rule_every_keys (r : Rule) : list (str * nat * Z) :=
  omap (fun '(idx, t) => match t with Trigger_Every period => Some (rule_name r, idx, period) | _ => None end)
    (zip (seq 0 (length (triggers r))) (triggers r)).

Record engine_wf (eng : Engine) : Prop := {
  wf_vol : vol_ok (eng_vol eng);
  wf_accepted : accepted (loaded eng);
  wf_enabled : length (eng_enabled eng) = length (rules (loaded eng));
  wf_every : map every_key (every (eng_vol eng)) ≡ₚ concat (map rule_every_keys (rules (loaded eng)));
  wf_dropped : in_u 32 (continuations_dropped (eng_counters eng))
}.

(** The operations of the worker on its engine; a document comes from the compiler,
    which validates it. *)
Inductive EngineOp :=
| Op_SetRules (set : option RuleSet) (now : Z)
| Op_SetRuleEnabled (name : str) (on : bool)
| Op_Handle (input : EngineInput) (world : WorldSnapshot).

Definition engine_op (eng : Engine) (op : EngineOp) : Engine :=
  match op with
  | Op_SetRules set now => set_rules eng set now
  | Op_SetRuleEnabled name on => fst (set_rule_enabled eng name on)
  | Op_Handle input world => fst (handle eng input world)
  end.

Definition op_validated (op : EngineOp) : Prop :=
  match op with
  | Op_SetRules (Some set) _ => document_u8 set /\ validate set = Ok tt
  | _ => True
  end.

Definition handle_env (eng : Engine) (world : WorldSnapshot) : ExecEnv :=
  mkExecEnv world (loaded eng) (eng_enabled eng) (prune_chain (eng_vol eng) (now_ms world)) (eng_counters eng).

Lemma prune_chain_ok v now : vol_ok v -> vol_ok (prune_chain v now).
Proof. intros [? ? ? ? ?]. now split. Qed.

(** What an environment that took a step is as an engine. *)
Lemma step_engine_wf eng env env' now :
  engine_wf eng -> e_rules env = loaded eng -> e_enabled env = eng_enabled eng -> vol_ok (e_vol env) ->
  every (e_vol env) = every (eng_vol eng) -> e_counters env = eng_counters eng -> env_step env env' ->
  engine_wf (mkEngine (eng_rules eng) (e_enabled env') (e_vol env') (e_counters env') now).
Proof.
  intros [W1 W2 W3 W4 W5] E1 E2 Hv E4 E5 [S1 S2 S3 S4 S5 _ S6]. split.
  - now apply S4.
  - exact W2.
  - cbn. now rewrite S3, E2.
  - cbn. rewrite S5, E4. exact W4.
  - cbn. apply S6. now rewrite E5.
Qed.

Lemma handle_piece eng input world set :
  engine_wf eng -> eng_rules eng = Some set ->
  exists env, piece (handle_env eng world, []) (env, snd (handle eng input world)) /\
    fst (handle eng input world) = mkEngine (eng_rules eng) (e_enabled env) (e_vol env) (e_counters env) (now_ms world).
Proof.
  intros [W1 W2 W3 W4 W5] Hs.
  assert (handle_env eng world = mkExecEnv world set (eng_enabled eng) (prune_chain (eng_vol eng) (now_ms world))
            (eng_counters eng)) as He by (unfold handle_env, loaded; now rewrite Hs).
  pose proof (dispatch_piece (handle_env eng world) input [] (prune_chain_ok _ _ W1) W2) as H.
  unfold handle. rewrite Hs. rewrite He in *. destruct (dispatch _ input []) as [env out]. now exists env.
Qed.

Lemma handle_wf eng input world : engine_wf eng -> engine_wf (fst (handle eng input world)).
Proof.
  intros W. destruct (eng_rules eng) as [set|] eqn:Hs.
  - destruct (handle_piece eng input world set W Hs) as (env & [S _] & ->). cbn [fst] in S.
    apply (step_engine_wf eng (handle_env eng world)); try done. apply prune_chain_ok, W.
  - unfold handle. rewrite Hs. cbn [fst]. destruct W as [[? ? ? ? ?] W2 W3 W4 W5]. now split.
Qed.

Lemma set_rule_enabled_wf eng name on : engine_wf eng -> engine_wf (fst (set_rule_enabled eng name on)).
Proof.
  intros W. unfold set_rule_enabled. destruct (eng_rules eng ≫= _) as [idx|]; [|done].
  set (env := mkExecEnv (world_empty 0) (loaded eng) (eng_enabled eng) (eng_vol eng) (eng_counters eng)).
  pose proof (flip_rule_bit_step env idx name on) as H. cbn [e_enabled e_vol e_counters env] in H.
  destruct (flip_rule_bit _ _ _ idx name on) as [[en v] c].
  pose proof (step_engine_wf eng env _ (eng_now_ms eng) W eq_refl eq_refl (wf_vol _ W) eq_refl eq_refl H) as H2.
  destruct eng. exact H2.
Qed.

(** *** Loading a document *)

Lemma rule_every_slots_keys old now r : map every_key (rule_every_slots old now r) = rule_every_keys r.
Proof.
  unfold rule_every_slots, rule_every_keys.
  generalize (zip (seq 0 (length (triggers r))) (triggers r)). intros l.
  induction l as [|[i t] l IH]; cbn; [done|]. destruct t; cbn; [..|]; try exact IH; f_equal; exact IH.
Qed.

Lemma rebuild_every_keys v set now :
  map every_key (every (rebuild_every v set now)) ≡ₚ concat (map rule_every_keys (rules set)).
Proof.
  cbn. rewrite insertion_sort_by_perm, concat_map, map_map.
  erewrite map_ext; [reflexivity|]. intros r. apply rule_every_slots_keys.
Qed.

Lemma set_rules_wf eng set now : engine_wf eng -> op_validated (Op_SetRules set now) -> engine_wf (set_rules eng set now).
Proof.
  intros [[? ? ? ? ?] W2 W3 W4 W5] Hv. split; cbn [set_rules eng_vol eng_enabled eng_counters loaded eng_rules].
  - split; cbn; auto. unfold MAX_PENDING_CONTINUATIONS, len. cbn. lia.
  - destruct set as [set|]; cbn in *; [now apply validate_accepts|]. constructor.
  - unfold loaded. cbn. apply length_map.
  - apply rebuild_every_keys.
  - cbn. pose proof (wrap_range 32 (len (continuations (eng_vol eng))) ltac:(lia)).
    unfold sat_add, in_u, umax in *. lia.
Qed.

Lemma engine_op_wf eng op : op_validated op -> engine_wf eng -> engine_wf (engine_op eng op).
Proof.
  destruct op as [set now|name on|input world]; intros Hv W; cbn [engine_op].
  - now apply set_rules_wf.
  - now apply set_rule_enabled_wf.
  - now apply handle_wf.
Qed.

Lemma engine_new_wf now : engine_wf (engine_new now).
Proof.
  split; cbn; try done.
  - split; cbn; try done; try constructor; try (rewrite map_size_empty); done.
  - constructor.
Qed.

Definition run_ops (now : Z) (ops : list EngineOp) : Engine := foldl engine_op (engine_new now) ops.

Lemma run_ops_wf now ops : Forall op_validated ops -> engine_wf (run_ops now ops).
Proof.
  unfold run_ops. intros Hops. pose proof (engine_new_wf now) as W. revert W. generalize (engine_new now).
  induction Hops as [|op ops Hop _ IH]; intros eng W; cbn; [done|]. apply IH. now apply engine_op_wf.
Qed.

(** ** The theorems *)

(** C14: Whatever documents are loaded (each validated), rules switched and inputs handled, the engine keeps its
    bounds: at most 32 pending continuations, each a sound program that fits the budget it was left, at
    most 16 named timers with distinct names, at most 16 variables, one enabled bit per rule, exactly one
    [every] slot per [every] trigger of the loaded document with that trigger's period, and a dropped
    counter that stays a [u32]. *)
Theorem engine_reachable_wf (now : Z) (ops : list EngineOp) :
  Forall op_validated ops -> engine_wf (run_ops now ops).
Proof. apply run_ops_wf. Qed.


(** A minute after loading the document above, the hall rule has run and left one continuation. *)
Definition sample_ops : list EngineOp :=
  [Op_SetRules (Some sample_set) 0; Op_Handle In_Tick (world_empty 60000);
   Op_SetRuleEnabled (ascii_str "late") false].

Lemma sample_ops_validated : Forall op_validated sample_ops.
Proof.
  constructor; [split; [apply document_u8b_spec|]; vm_compute; reflexivity|].
  constructor; [exact I|]. constructor; [exact I|constructor].
Qed.

Lemma engine_reachable_wf_witness :
  engine_wf (run_ops 0 sample_ops) /\ length (continuations (eng_vol (run_ops 0 sample_ops))) = 1%nat.
Proof. split; [exact (engine_reachable_wf 0 sample_ops sample_ops_validated)|vm_compute; reflexivity]. Defined.


End RulesReach.
