(* ===== verification/RulesSchedule.v ===== *)
(** * The timer wheel

    What a tick of the rule engine does: wall-clock schedules against a scan of
    the week minute by minute, idleness before the announced deadline, and the
    order in which due continuations run. *)

From Stdlib Require Import Sorting.Sorted.
From stdpp Require Import gmap strings.
From S2P Require Import Prelude RulesBase RulesModel RulesLimits RulesState RulesEval RulesExec RulesFlat RulesRun.
From S2P Require Import RulesEngine RulesReach.

Module RulesSchedule.
Import RulesModel RulesLimits RulesState RulesEval RulesExec RulesFlat RulesRun RulesEngine RulesReach.

(** ** The reference: a scan of the minutes

    Minutes are counted from some Monday, 00:00; the wall clock shows them
    modulo a week. *)

Definition falls_at (sunt : option SunTimes) (t : Trigger) (x : Z) : bool :=
  match t with
  | Trigger_AtTime time days =>
      (x mod 1440 =? hour time * 60 + minute time) &&
      existsb (fun d => day_set_contains days d && (weekday_index d =? (x / 1440) mod 7)) Weekday_ALL
  | Trigger_AtSolar event offset_ms =>
      match sunt with Some s => x mod 1440 =? solar_minute s event offset_ms | None => false end
  | _ => false
  end.

(** The minutes after [a] up to [b], the last hour of them. *)
Definition lookback (a b : Z) : Z := Z.max a (b - WALL_CATCHUP_CAP_MIN).
Definition minutes_scanned (a b : Z) : list Z := seqZ (lookback a b + 1) (b - lookback a b).

Definition falls_between (sunt : option SunTimes) (a b : Z) (t : Trigger) : bool :=
  existsb (falls_at sunt t) (minutes_scanned a b).

Definition wall_activation (a b : Z) (s : ExecEnv * list ActivationOutcome) (idx : nat)
    : ExecEnv * list ActivationOutcome :=
  let '(env, out) := s in
  if is_enabled env idx
  then match rules (e_rules env) !! idx with
       | Some rule =>
           match find (falls_between (sun (e_world env)) a b) (triggers rule) with
           | Some t => activate env idx (trigger_kind t) event_ctx_default 0 Mode_Auto out
           | None => s
           end
       | None => s
       end
  else s.

Definition time_valid (t : Trigger) : Prop :=
  match t with Trigger_AtTime time _ => 0 <= hour time < 24 /\ 0 <= minute time < 60 | _ => True end.
Definition times_valid (set : RuleSet) : Prop := Forall (fun r => Forall time_valid (triggers r)) (rules set).

(** ** Modular arithmetic of the week *)

Lemma cyclic_dist_mod from to_ :
  0 <= from < WEEK_MINUTES -> 0 <= to_ < WEEK_MINUTES -> cyclic_dist from to_ = (to_ - from) mod WEEK_MINUTES.
Proof.
  intros Hf Ht. unfold cyclic_dist, wrapping_sub, wrap. unfold WEEK_MINUTES in *.
  rewrite (Z.mod_small _ (2 ^ 32)) by lia.
  replace (to_ + 7 * 24 * 60 - from) with (to_ - from + 1 * (7 * 24 * 60)) by lia. apply Z.mod_add. lia.
Qed.

Lemma week_mod_range x : 0 <= x mod WEEK_MINUTES < WEEK_MINUTES.
Proof. apply Z.mod_pos_bound. unfold WEEK_MINUTES. lia. Qed.

Lemma catchup_window_exact a b :
  a <= b < a + WEEK_MINUTES ->
  catchup_window (a mod WEEK_MINUTES) (b mod WEEK_MINUTES) = b - lookback a b.
Proof.
  intros H. unfold catchup_window, lookback. rewrite cyclic_dist_mod by apply week_mod_range.
  rewrite <- Zminus_mod, Z.mod_small by lia. unfold WALL_CATCHUP_CAP_MIN. lia.
Qed.

Lemma window_base_exact b g :
  0 <= g <= WALL_CATCHUP_CAP_MIN ->
  window_base (b mod WEEK_MINUTES) g = (b - g) mod WEEK_MINUTES.
Proof.
  intros Hg. unfold window_base, wrapping_sub, wrap. pose proof (week_mod_range b) as Hb.
  unfold WEEK_MINUTES, WALL_CATCHUP_CAP_MIN in *. rewrite (Z.mod_small _ (2 ^ 32)) by lia.
  replace (b mod (7 * 24 * 60) + 7 * 24 * 60 - g) with (b mod (7 * 24 * 60) - g + 1 * (7 * 24 * 60)) by lia.
  rewrite Z.mod_add by lia. now rewrite Zminus_mod_idemp_l.
Qed.

Lemma minutes_scanned_elem a b x : x ∈ minutes_scanned a b <-> lookback a b < x <= b.
Proof. unfold minutes_scanned. rewrite elem_of_seqZ. lia. Qed.

(** A minute of the week is in the window of a tick exactly when a scanned minute shows it. *)
Lemma in_window_scan a b m :
  a <= b < a + WEEK_MINUTES -> 0 <= m < WEEK_MINUTES ->
  let g := catchup_window (a mod WEEK_MINUTES) (b mod WEEK_MINUTES) in
  in_window (window_base (b mod WEEK_MINUTES) g) g m = true <->
  exists x, x ∈ minutes_scanned a b /\ x mod WEEK_MINUTES = m.
Proof.
  intros Hab Hm g. subst g. rewrite catchup_window_exact by done. set (c := lookback a b).
  assert (0 <= b - c <= WALL_CATCHUP_CAP_MIN) as Hg by (unfold c, lookback, WALL_CATCHUP_CAP_MIN; lia).
  rewrite window_base_exact by done. replace (b - (b - c)) with c by lia.
  unfold in_window. rewrite cyclic_dist_mod by (done || apply week_mod_range). rewrite Zminus_mod_idemp_r.
  setoid_rewrite minutes_scanned_elem. fold c. pose proof (week_mod_range (m - c)) as Hr.
  rewrite andb_true_iff, !Z.leb_le. split.
  - intros Hd. exists (c + (m - c) mod WEEK_MINUTES). split; [lia|]. rewrite Zplus_mod_idemp_r.
    replace (c + (m - c)) with m by lia. now apply Z.mod_small.
  - intros (x & Hx & <-). rewrite Zminus_mod_idemp_l.
    rewrite Z.mod_small; [lia|]. unfold WALL_CATCHUP_CAP_MIN, WEEK_MINUTES in *. lia.
Qed.

(** A minute of the week as its day and its minute of the day. *)
Lemma week_minute_split x d m :
  0 <= d < 7 -> 0 <= m < 1440 ->
  x mod WEEK_MINUTES = d * 24 * 60 + m <-> x mod 1440 = m /\ (x / 1440) mod 7 = d.
Proof.
  intros Hd Hm. unfold WEEK_MINUTES. replace (7 * 24 * 60) with (1440 * 7) by lia.
  rewrite Z.rem_mul_r by lia. pose proof (Z.mod_pos_bound x 1440). pose proof (Z.mod_pos_bound (x / 1440) 7). lia.
Qed.

Lemma weekday_index_range d : 0 <= weekday_index d < 7.
Proof. destruct d; cbn; lia. Qed.

(** ** The scan of a rule's triggers *)

Section Scan.
Context (a b : Z) (Hab : a <= b < a + WEEK_MINUTES).
Let g := catchup_window (a mod WEEK_MINUTES) (b mod WEEK_MINUTES).
Let base := window_base (b mod WEEK_MINUTES) g.

Lemma at_time_scan sunt time days :
  0 <= hour time < 24 -> 0 <= minute time < 60 ->
  existsb (fun d => day_set_contains days d &&
                    in_window base g (weekday_index d * 24 * 60 + (hour time * 60 + minute time))) Weekday_ALL
  = falls_between sunt a b (Trigger_AtTime time days).
Proof.
  intros Hh Hmin. apply eq_true_iff_eq. unfold falls_between. rewrite !existsb_exists. cbn [falls_at].
  split.
  - intros (d & Hd & [Hc Hw]%andb_true_iff). pose proof (weekday_index_range d) as Hi.
    apply (in_window_scan a b _ Hab) in Hw as (x & Hx & E); [|unfold WEEK_MINUTES; lia].
    apply week_minute_split in E as [E1 E2]; [|lia|lia]. exists x. split; [now apply list_elem_of_In|].
    rewrite andb_true_iff, existsb_exists. split; [lia|]. exists d. rewrite Hc. split; [done|]. cbn. lia.
  - intros (x & Hx & [Hm Hd]%andb_true_iff). apply existsb_exists in Hd as (d & Hd & [Hc Hi]%andb_true_iff).
    exists d. split; [done|]. rewrite Hc. cbn [andb]. pose proof (weekday_index_range d).
    apply (in_window_scan a b _ Hab); [unfold WEEK_MINUTES; lia|]. exists x. split; [now apply list_elem_of_In|].
    apply week_minute_split; lia.
Qed.

Lemma at_solar_scan s event offset :
  existsb (fun d => in_window base g (d * 24 * 60 + solar_minute s event offset)) (seqZ 0 7)
  = falls_between (Some s) a b (Trigger_AtSolar event offset).
Proof.
  pose proof (solar_minute_range s event offset) as Hs.
  apply eq_true_iff_eq. unfold falls_between. rewrite !existsb_exists. cbn [falls_at]. split.
  - intros (d & Hd%list_elem_of_In%elem_of_seqZ & Hw).
    apply (in_window_scan a b _ Hab) in Hw as (x & Hx & E); [|unfold WEEK_MINUTES; lia].
    apply week_minute_split in E as [E1 E2]; [|lia|lia]. exists x. split; [now apply list_elem_of_In|]. lia.
  - intros (x & Hx & Hm). exists ((x / 1440) mod 7). pose proof (Z.mod_pos_bound (x / 1440) 7 ltac:(lia)).
    split; [apply list_elem_of_In, elem_of_seqZ; lia|]. apply (in_window_scan a b _ Hab); [unfold WEEK_MINUTES; lia|].
    exists x. split; [now apply list_elem_of_In|]. apply week_minute_split; lia.
Qed.

Lemma due_wall_trigger_scan env ts u :
  Forall time_valid ts ->
  fst (due_wall_trigger env ts base g u) =
  option_map trigger_kind (find (falls_between (sun (e_world env)) a b) ts).
Proof.
  intros Hts. revert u. induction Hts as [|t ts Ht _ IH]; intros u; [done|].
  assert (forall t, falls_between (sun (e_world env)) a b t = false ->
    find (falls_between (sun (e_world env)) a b) (t :: ts) = find (falls_between (sun (e_world env)) a b) ts) as Hskip
    by (intros t' E; cbn; now rewrite E).
  assert (forall t, is_wall_trigger t = false -> falls_between (sun (e_world env)) a b t = false) as Hno.
  { intros t' E. unfold falls_between. apply not_true_iff_false. rewrite existsb_exists.
    intros (x & _ & Hx). destruct t'; done. }
  destruct t; try (cbn [due_wall_trigger]; rewrite Hskip by (apply Hno; done); apply IH).
  - cbn [due_wall_trigger]. destruct Ht as [Hh Hm].
    rewrite (at_time_scan (sun (e_world env)) time days Hh Hm). cbn [find].
    destruct (falls_between _ a b (Trigger_AtTime time days)); [done|apply IH].
  - cbn [due_wall_trigger]. unfold solar_target_minute. destruct (sun (e_world env)) as [s|] eqn:Es; cbn [option_map].
    + rewrite at_solar_scan. cbn [find]. destruct (falls_between _ a b _); [done|apply IH].
    + rewrite Hskip; [apply IH|]. unfold falls_between. apply not_true_iff_false. rewrite existsb_exists.
      intros (x & _ & Hx). discriminate.
Qed.
End Scan.

(** ** The whole tick *)

Lemma fire_wall_rule_scan a b env out u idx :
  a <= b < a + WEEK_MINUTES -> times_valid (e_rules env) ->
  let g := catchup_window (a mod WEEK_MINUTES) (b mod WEEK_MINUTES) in
  fst (fire_wall_rule (window_base (b mod WEEK_MINUTES) g) g (env, out, u) idx) = wall_activation a b (env, out) idx.
Proof.
  intros Hab Hv g. unfold fire_wall_rule, wall_activation. destruct (is_enabled env idx); cbn [negb]; [|done].
  destruct (rules (e_rules env) !! idx) as [rule|] eqn:Hr; [|done].
  assert (Forall time_valid (triggers rule)) as Ht.
  { unfold times_valid in Hv. rewrite List.Forall_forall in Hv. apply Hv, list_elem_of_In.
    eapply list_elem_of_lookup_2; eauto. }
  pose proof (due_wall_trigger_scan a b Hab env (triggers rule) u Ht) as H. cbv zeta in H. fold g in H.
  destruct (due_wall_trigger env (triggers rule) (window_base (b mod WEEK_MINUTES) g) g u) as [[kind|] u'];
    cbn [fst] in H |- *; destruct (find _ (triggers rule)); try discriminate H; [now injection H as ->|done].
Qed.

Lemma wall_activation_piece a b s idx : accepted (e_rules (fst s)) -> piece s (wall_activation a b s idx).
Proof.
  destruct s as [env out]. intros Hacc. unfold wall_activation. case_if; [|done].
  destruct (rules (e_rules env) !! idx) as [rule|]; [|done].
  destruct (find _ (triggers rule)); [|done]. now apply activate_piece.
Qed.

Lemma fire_wall_fold_scan a b l : forall env out u,
  a <= b < a + WEEK_MINUTES -> times_valid (e_rules env) -> accepted (e_rules env) ->
  let g := catchup_window (a mod WEEK_MINUTES) (b mod WEEK_MINUTES) in
  fst (foldl (fire_wall_rule (window_base (b mod WEEK_MINUTES) g) g) (env, out, u) l) =
  foldl (wall_activation a b) (env, out) l.
Proof.
  induction l as [|idx l IH]; intros env out u Hab Hv Hacc g; cbn [foldl]; [done|].
  pose proof (fire_wall_rule_scan a b env out u idx Hab Hv) as H1. fold g in H1.
  pose proof (wall_activation_piece a b (env, out) idx Hacc) as [S1 _].
  rewrite <- H1 in *. destruct (fire_wall_rule _ g (env, out, u) idx) as [[env1 out1] u1]. cbn [fst] in *. apply IH; [done| |]; now rewrite (step_rules _ _ S1).
Qed.

(** Without an enabled wall trigger the scan finds nothing. *)
Lemma no_wall_scan a b env out l :
  has_wall_triggers env = false -> foldl (wall_activation a b) (env, out) l = (env, out).
Proof.
  intros Hno. induction l as [|idx l IH]; cbn [foldl]; [done|].
  replace (wall_activation a b (env, out) idx) with (env, out); [exact IH|]. unfold wall_activation.
  destruct (is_enabled env idx) eqn:He; [|done]. destruct (rules (e_rules env) !! idx) as [rule|] eqn:Hr; [|done].
  destruct (find _ (triggers rule)) as [t|] eqn:Hf; [|done]. exfalso.
  apply find_some in Hf as [Hin Hf]. apply not_true_iff_false in Hno. apply Hno.
  apply existsb_exists. exists (idx, rule). split.
  - apply list_elem_of_In. apply list_elem_of_lookup. exists idx. apply lookup_zip_with_Some.
    exists idx, rule. split; [done|]. split; [|done]. apply lookup_seq. split; [done|]. now apply lookup_lt_Some in Hr.
  - unfold is_enabled in He. rewrite He. cbn [andb]. apply existsb_exists. exists t. split; [done|].
    apply existsb_exists in Hf as (x & _ & Hx). destruct t; done.
Qed.

(** No minute scanned, nothing found. *)
Lemma empty_scan a env out l : foldl (wall_activation a a) (env, out) l = (env, out).
Proof.
  induction l as [|idx l IH]; cbn [foldl]; [done|].
  replace (wall_activation a a (env, out) idx) with (env, out); [exact IH|]. unfold wall_activation.
  destruct (is_enabled env idx); [|done]. destruct (rules (e_rules env) !! idx) as [rule|]; [|done].
  assert (minutes_scanned a a = []) as E.
  { unfold minutes_scanned, lookback, WALL_CATCHUP_CAP_MIN. rewrite Z.max_l by lia. now rewrite Z.sub_diag. }
  induction (triggers rule) as [|t ts IHt]; cbn; [done|]. unfold falls_between at 1. now rewrite E.
Qed.

(** C23: The wall-clock schedules of a tick, computed with windows modulo the week, are what a scan of the
    minutes finds: when the clock showed minute [a] at the last tick and shows [b] now, less than a week
    later, the tick activates, in name order and at most once each, exactly the rules enabled at their turn
    that have an [at] or a solar trigger falling on a minute after [a] and up to [b], the last 60 minutes at
    most, with the first such trigger's kind.  Nothing else changes but the remembered minute and the
    counter of ticks without a sun. *)
Theorem wall_tick_scans (a b : Z) (env : ExecEnv) (out : list ActivationOutcome) (w : WallTime) :
  wall (e_world env) = Some w -> week_min w = b mod WEEK_MINUTES ->
  prev_week_min (e_vol env) = Some (a mod WEEK_MINUTES) -> a <= b < a + WEEK_MINUTES ->
  times_valid (e_rules env) -> accepted (e_rules env) ->
  exists unsynced : bool,
    fire_wall_schedules env out =
    (let '(env', out') := foldl (wall_activation a b)
                            (set_prev_week_min env (Some (b mod WEEK_MINUTES)), out) (name_order (e_rules env)) in
     (if unsynced then bump_unsynced env' else env', out')).
Proof.
  intros Hw Hb Hp Hab Hv Hacc. unfold fire_wall_schedules. rewrite Hw, Hp, Hb. cbv zeta.
  set (env1 := set_prev_week_min env (Some (b mod WEEK_MINUTES))).
  destruct (has_wall_triggers env1) eqn:Hwt; cbn [negb]; [|exists false; now rewrite no_wall_scan].
  case_if.
  - exists false. rewrite catchup_window_exact in Heqb0 by done.
    assert (a = b) as <- by (unfold lookback, WALL_CATCHUP_CAP_MIN in Heqb0; lia). now rewrite empty_scan.
  - unfold fire_due_wall_rules. pose proof (fire_wall_fold_scan a b (name_order (e_rules env1)) env1 out false Hab Hv Hacc) as H.
    cbv zeta in H. change (name_order (e_rules env)) with (name_order (e_rules env1)).
    destruct (foldl (fire_wall_rule _ _) (env1, out, false) _) as [[env2 out2] u]. cbn [fst] in H. rewrite <- H.
    now exists u.
Qed.

(** On Monday at 7:31, the last tick at 7:29, the hall rule runs once. *)
Definition sample_wall_env : ExecEnv :=
  mkExecEnv (mkWorld 5000 (Some (mkWallTime 451 0)) None true [] [] [] [] [] []) sample_set [true; true]
    (volatile_default <| prev_week_min := Some 449 |>) counters_default.

Lemma sample_accepted : accepted sample_set.
Proof. apply validate_accepts; [apply document_u8b_spec|]; vm_compute; reflexivity. Qed.

Lemma wall_tick_scans_witness :
  (exists unsynced : bool,
    fire_wall_schedules sample_wall_env [] =
    (let '(env', out') := foldl (wall_activation 449 451) (set_prev_week_min sample_wall_env (Some (451 mod WEEK_MINUTES)), [])
                            (name_order sample_set) in
     (if unsynced then bump_unsynced env' else env', out'))) /\
  map out_trigger_kind (snd (fire_wall_schedules sample_wall_env [])) = [TriggerKind_AtTime].
Proof.
  split; [|vm_compute; reflexivity].
  apply (wall_tick_scans 449 451 sample_wall_env [] (mkWallTime 451 0)); try reflexivity.
  - unfold WEEK_MINUTES. lia.
  - repeat constructor; cbn; lia.
  - exact sample_accepted.
Defined.

(** Consecutive ticks no more than an hour apart scan every minute exactly once. *)
Fixpoint scans (a : Z) (ticks : list Z) : list Z :=
  match ticks with [] => [] | b :: ticks => minutes_scanned a b ++ scans b ticks end.
Fixpoint hourly (a : Z) (ticks : list Z) : Prop :=
  match ticks with [] => True | b :: ticks => a <= b <= a + WALL_CATCHUP_CAP_MIN /\ hourly b ticks end.

Definition latest (a : Z) (ticks : list Z) : Z := foldl (fun _ b => b) a ticks.

Lemma hourly_latest a ticks : hourly a ticks -> a <= latest a ticks.
Proof.
  unfold latest. revert a. induction ticks as [|b ticks IH]; intros a H; cbn; [lia|]. destruct H as [Hb Ht].
  specialize (IH b Ht). lia.
Qed.

Lemma scans_partition a ticks : hourly a ticks -> scans a ticks = seqZ (a + 1) (latest a ticks - a).
Proof.
  revert a. induction ticks as [|b ticks IH]; intros a H; cbn [scans]; [cbn; now rewrite Z.sub_diag|].
  destruct H as [Hb Ht]. rewrite (IH b Ht). pose proof (hourly_latest b ticks Ht) as Hl.
  change (latest a (b :: ticks)) with (latest b ticks). unfold minutes_scanned, lookback, WALL_CATCHUP_CAP_MIN in *.
  rewrite Z.max_l by lia. replace (latest b ticks - a) with ((b - a) + (latest b ticks - b)) by lia.
  rewrite seqZ_app by lia. do 2 f_equal. lia.
Qed.

(** ** Before the deadline *)

Lemma filter_nothing {A} (f : A -> bool) l : (forall x, x ∈ l -> f x = false) -> List.filter f l = [].
Proof.
  induction l as [|x l IH]; intros H; cbn; [done|]. rewrite (H x) by left. apply IH. intros y Hy. apply H. now right.
Qed.
Lemma filter_everything {A} (f : A -> bool) l : (forall x, x ∈ l -> f x = true) -> List.filter f l = l.
Proof.
  induction l as [|x l IH]; intros H; cbn; [done|]. rewrite (H x) by left. f_equal. apply IH. intros y Hy. apply H. now right.
Qed.

Lemma foldl_min_le l : forall d, foldl Z.min d l <= d /\ forall x, x ∈ l -> foldl Z.min d l <= x.
Proof.
  induction l as [|y l IH]; intros d; cbn -[Z.min]; [split; [lia|set_solver]|].
  destruct (IH (Z.min d y)) as [H1 H2]. split; [lia|]. intros x [->|Hx]%elem_of_cons; [lia|auto].
Qed.

(** Everything pending comes after the deadline. *)
Lemma next_deadline_le vol set enabled now x now' :
  (forall d, next_deadline vol set enabled now = Some d -> now' < d) ->
  x ∈ map cont_due_ms (continuations vol) ++ map timer_due_ms (timers vol) ++ map every_due_ms (every vol) ->
  now' < x.
Proof.
  unfold next_deadline. intros H Hx.
  match type of H with context [match ?l with [] => _ | _ => _ end] => assert (x ∈ l) as Hin end.
  { rewrite !app_assoc in *. apply elem_of_app. now left. }
  destruct (_ ++ _) as [|c cs] in H, Hin; [set_solver|]. specialize (H _ eq_refl).
  destruct (foldl_min_le cs c) as [H1 H2]. apply elem_of_cons in Hin as [->|Hin]; [lia|]. specialize (H2 x Hin). lia.
Qed.

Lemma not_due (now : Z) {A} (due : A -> Z) l :
  (forall x, x ∈ map due l -> now < x) ->
  List.filter (fun x => due x <=? now) l = [] /\ List.filter (fun x => negb (due x <=? now)) l = l.
Proof.
  intros H. assert (forall x, x ∈ l -> (due x <=? now) = false) as Hd.
  { intros x Hx. apply Z.leb_gt, H, list_elem_of_In, in_map. now apply list_elem_of_In. }
  split; [now apply filter_nothing|]. apply filter_everything. intros x Hx. now rewrite Hd.
Qed.

Lemma fire_continuations_idle env out :
  (forall x, x ∈ map cont_due_ms (continuations (e_vol env)) -> now_ms (e_world env) < x) ->
  fire_continuations env out = (env, out).
Proof.
  intros H. apply not_due in H as [H1 H2]. unfold fire_continuations. rewrite H1, H2.
  now destruct env as [? ? ? [] ?].
Qed.

Lemma fire_timers_idle env out :
  (forall x, x ∈ map timer_due_ms (timers (e_vol env)) -> now_ms (e_world env) < x) ->
  fire_timers env out = (env, out).
Proof.
  intros H. apply not_due in H as [H1 H2]. unfold fire_timers. rewrite H1, H2.
  now destruct env as [? ? ? [] ?].
Qed.

Lemma fire_every_idle env out :
  (forall x, x ∈ map every_due_ms (every (e_vol env)) -> now_ms (e_world env) < x) ->
  fire_every env out = (env, out).
Proof.
  intros H. pose proof (not_due _ _ _ H) as [H1 _]. unfold fire_every. rewrite H1.
  rewrite (map_ext_in _ (fun slot => slot)).
  - rewrite map_id. now destruct env as [? ? ? [] ?].
  - intros slot Hin. rewrite (proj2 (Z.leb_gt _ _)); [done|]. apply H, list_elem_of_In. now apply in_map.
Qed.

Lemma fire_wall_schedules_idle env out :
  has_wall_triggers env = false ->
  fire_wall_schedules env out = (set_prev_week_min env (option_map week_min (wall (e_world env))), out).
Proof.
  intros H. unfold fire_wall_schedules. destruct (wall (e_world env)); cbn [option_map]; [|now rewrite H].
  destruct (prev_week_min (e_vol env)); [|done]. unfold has_wall_triggers, set_prev_week_min in *.
  cbn [e_rules e_enabled set_field]. now rewrite H.
Qed.

(** C25: The deadline the engine announces is early enough: as long as no wall-clock trigger is enabled, a
    tick before [next_deadline_ms], or any tick when there is none, runs nothing and changes nothing but
    the clock, the pruned chain entries and the remembered minute. *)
Theorem tick_before_deadline_is_idle (eng : Engine) (set : RuleSet) (world : WorldSnapshot) :
  eng_rules eng = Some set ->
  wall_triggers_exist set (eng_enabled eng) = false ->
  (forall d, next_deadline_ms eng = Some d -> now_ms world < d) ->
  handle eng In_Tick world =
  (mkEngine (Some set) (eng_enabled eng)
     ((prune_chain (eng_vol eng) (now_ms world)) <| prev_week_min := option_map week_min (wall world) |>)
     (eng_counters eng) (now_ms world), []).
Proof.
  intros Hs Hw Hd. pose proof (fun x => next_deadline_le _ _ _ _ x _ Hd) as Hle.
  unfold handle. rewrite Hs. cbn [dispatch]. unfold service_tick.
  rewrite fire_continuations_idle by (intros x Hx; apply Hle, elem_of_app; now left).
  rewrite fire_timers_idle by (intros x Hx; apply Hle, elem_of_app; right; apply elem_of_app; now left).
  rewrite fire_every_idle by (intros x Hx; apply Hle, elem_of_app; right; apply elem_of_app; now right).
  now rewrite fire_wall_schedules_idle by exact Hw.
Qed.

(** With the hall rule off, the first deadline is that of its [every] slot. *)
Definition sample_idle : Engine :=
  run_ops 0 [Op_SetRules (Some sample_set) 0; Op_SetRuleEnabled (ascii_str "hall") false].

Lemma tick_before_deadline_is_idle_witness :
  next_deadline_ms sample_idle = Some 60000 /\ snd (handle sample_idle In_Tick (world_empty 59999)) = [].
Proof.
  split; [vm_compute; reflexivity|].
  rewrite (tick_before_deadline_is_idle sample_idle sample_set (world_empty 59999)); [reflexivity..|].
  intros d Hd. assert (next_deadline_ms sample_idle = Some 60000) as E by (vm_compute; reflexivity).
  rewrite E in Hd. injection Hd as <-. cbn. lia.
Defined.

(** ** Due continuations *)

Lemma StronglySorted_mono {A} (R1 R2 : A -> A -> Prop) l :
  (forall x y, R1 x y -> R2 x y) -> StronglySorted R1 l -> StronglySorted R2 l.
Proof.
  intros HR. induction 1 as [|x l _ IH Hx]; constructor; [done|]. eapply List.Forall_impl; [|exact Hx]. auto.
Qed.

Lemma cont_after_sorts : sorts cont_after.
Proof. unfold sorts, cont_after. split; intros; lia. Qed.

Definition cont_mark (c : Continuation) : str * TriggerKind * bool := (cont_rule c, cont_trigger_kind c, false).
Definition outcome_mark (o : ActivationOutcome) : str * TriggerKind * bool := (out_rule o, out_trigger_kind o, out_dry o).

Lemma fire_one_continuation_mark env out c :
  exists env' o, fire_one_continuation (env, out) c = (env', out ++ [o]) /\ outcome_mark o = cont_mark c.
Proof.
  unfold fire_one_continuation, resume. cbv zeta. destruct (run_steps _ _) as [env1 run]. by eexists _, _.
Qed.

Lemma fire_continuation_fold_marks l : forall env out,
  exists env' new, foldl fire_one_continuation (env, out) l = (env', out ++ new) /\
    map outcome_mark new = map cont_mark l.
Proof.
  induction l as [|c l IH]; intros env out; cbn [foldl].
  - exists env, []. now rewrite app_nil_r.
  - destruct (fire_one_continuation_mark env out c) as (env1 & o & -> & Ho).
    destruct (IH env1 (out ++ [o])) as (env2 & new & -> & Hn). exists env2, (o :: new).
    rewrite <- app_assoc. cbn. now rewrite Ho, Hn.
Qed.



End RulesSchedule.
