(* ===== verification/RulesGuard.v ===== *)
(** * Guards of the rule engine

    The loop protection of the chain entries, the isolation of a dry run, and
    the order in which the rules of one input are activated. *)

From Stdlib Require Import Sorting.Sorted.
From stdpp Require Import gmap strings.
From S2P Require Import Prelude RulesBase RulesModel RulesLimits RulesState RulesEval RulesExec RulesFlat RulesRun.
From S2P Require Import RulesEngine RulesReach.

Module RulesGuard.
Import RulesModel RulesLimits RulesState RulesEval RulesExec RulesFlat RulesRun RulesEngine RulesReach.

(** ** Inputs that carry a chain depth *)

Definition input_keys (input : EngineInput) : list ChainKey :=
  match input with
  | In_LampChanged adapter_id lamp_id _ _ _ _ => lamp_chain_keys adapter_id lamp_id
  | In_GroupChanged adapter_id group_id _ _ => group_chain_keys adapter_id group_id
  | In_SceneRecalled adapter_id scene_id => [ChainKey_Scene scene_id; ChainKey_AdapterWide adapter_id]
  | In_HclOverride _ target => [ChainKey_Hcl target]
  | In_MqttMessage topic _ _ => [ChainKey_BrokerTopic topic]
  | _ => []
  end.

Lemma chain_depth_for_nil v now : chain_depth_for v [] now = 0.
Proof.
  unfold chain_depth_for. replace (List.filter _ (chain v)) with (@nil ChainEntry); [done|].
  induction (chain v) as [|e l IH]; cbn; [done|]. now rewrite andb_false_r.
Qed.

Lemma input_chain_depth_keys env input :
  input_chain_depth env input = chain_depth_for (e_vol env) (input_keys input) (now_ms (e_world env)).
Proof. destruct input; try reflexivity; cbn [input_keys]; now rewrite chain_depth_for_nil. Qed.

(** Stimuli from outside: everything but a tick and a requested run. *)
Definition external (input : EngineInput) : bool :=
  match input with In_Tick | In_RunRule _ _ => false | _ => true end.

Lemma dispatch_external env input out : external input = true -> dispatch env input out = on_external env input out.
Proof. now destruct input. Qed.

(** The depth at which the rules of an input are activated. *)
Definition stimulus_depth (eng : Engine) (input : EngineInput) (world : WorldSnapshot) : Z :=
  input_chain_depth (handle_env eng world) input.

(** ** What an external input records *)

(** New outcomes of depth [d]: wet, their effects' chain entries recorded, and nothing emitted beyond the limit. *)
Definition recorded (d now : Z) (l : list ChainEntry) (o : ActivationOutcome) : Prop :=
  out_dry o = false /\
  (forall e k, e ∈ out_effects o -> k ∈ effect_keys e -> mkChainEntry k d now ∈ l) /\
  (MAX_CHAIN_DEPTH < d -> out_effects o = [] /\ out_partial o = Some ChainDepth).

Lemma recorded_prefix d now l l' o : l `prefix_of` l' -> recorded d now l o -> recorded d now l' o.
Proof.
  intros [m ->] (H1 & H2 & H3). split; [done|]. split; [|done]. intros e k He Hk. apply elem_of_app. left. eauto.
Qed.

Lemma chain_entries_elem es d now e k : e ∈ es -> k ∈ effect_keys e -> mkChainEntry k d now ∈ chain_entries es d now.
Proof.
  intros He Hk. unfold chain_entries. apply list_elem_of_In, in_concat.
  exists (map (fun k => mkChainEntry k d now) (effect_keys e)). split.
  - apply (in_map (fun e => map (fun k => mkChainEntry k d now) (effect_keys e))). now apply list_elem_of_In.
  - apply (in_map (fun k => mkChainEntry k d now)). now apply list_elem_of_In.
Qed.

Lemma activate_recorded env idx kind ctx d out :
  accepted (e_rules env) ->
  let '(env', out') := activate env idx kind ctx d Mode_Auto out in
  exists new, out' = out ++ new /\ Forall (recorded d (now_ms (e_world env)) (chain (e_vol env'))) new.
Proof.
  intros Hacc. pose proof (activate_piece env idx kind ctx d Mode_Auto out Hacc) as [_ _].
  unfold activate. destruct (rules (e_rules env) !! idx) as [rule|] eqn:Hr; [|exists []; now rewrite app_nil_r].
  case_if; [exists []; now rewrite app_nil_r|]. case_if.
  { eexists. split; [reflexivity|]. constructor; [|constructor]. split; [done|]. split; [set_solver|done]. }
  destruct (conditions_hold env rule ctx) as [[]|[]].
  - unfold execute. cbn [mode_is_dry]. cbv zeta.
    match goal with |- context [run_steps ?e ?j] => pose proof (run_steps_stage e j) as Hs; destruct (run_steps e j) as [env1 run] end.
    assert (program (flatten_rule (actions rule) (blocks (e_rules env))) /\
            (weights (flatten_rule (actions rule) (blocks (e_rules env))) <= budget_for_activation)%nat) as [Hp Hw].
    { unfold accepted in Hacc. rewrite List.Forall_forall in Hacc. apply (Hacc rule), list_elem_of_In.
      eapply list_elem_of_lookup_2; eauto. }
    destruct (Hs Hp) as [S1 _]; [split; [exact Hw|reflexivity]|]. apply step_world in S1. cbn in S1.
    eexists. split; [reflexivity|]. constructor; [|constructor]. split; [done|]. split; [|lia]. cbn [out_effects].
    intros e k He Hk. rewrite finish_wet_chain, S1. apply elem_of_app. right. now apply chain_entries_elem with e.
  - exists []. now rewrite app_nil_r.
  - eexists. split; [reflexivity|]. constructor; [|constructor]. split; [done|]. split; [set_solver|]. lia.
Qed.

Lemma external_fold_recorded input ctx d l : forall env out,
  accepted (e_rules env) ->
  let '(env', out') := foldl (external_rule input ctx d) (env, out) l in
  piece (env, out) (env', out') /\
  exists new, out' = out ++ new /\ Forall (recorded d (now_ms (e_world env)) (chain (e_vol env'))) new.
Proof.
  induction l as [|idx l IH]; intros env out Hacc; cbn [foldl].
  - split; [done|]. exists []. now rewrite app_nil_r.
  - assert (let '(env1, out1) := external_rule input ctx d (env, out) idx in
      piece (env, out) (env1, out1) /\
      exists new, out1 = out ++ new /\ Forall (recorded d (now_ms (e_world env)) (chain (e_vol env1))) new) as H.
    { assert (piece (env, out) (env, out) /\ exists new, out = out ++ new /\
        Forall (recorded d (now_ms (e_world env)) (chain (e_vol env))) new) as Hsame
        by (split; [done|exists []; now rewrite app_nil_r]).
      unfold external_rule. destruct (rules (e_rules env) !! idx) as [rule|]; [|done].
      destruct (rule_matches rule input (e_vol env)) as [kind|]; [|done]. case_if.
      - split; [apply piece_silent, with_counters_step; done|]. exists []. now rewrite app_nil_r.
      - pose proof (activate_piece env idx kind ctx d Mode_Auto out Hacc) as P1.
        pose proof (activate_recorded env idx kind ctx d out Hacc) as R1.
        now destruct (activate env idx kind ctx d Mode_Auto out). }
    destruct (external_rule input ctx d (env, out) idx) as [env1 out1]. destruct H as (P1 & new1 & -> & R1).
    specialize (IH env1 (out ++ new1) (piece_accepted _ _ P1 Hacc)).
    destruct (foldl _ (env1, out ++ new1) l) as [env2 out2]. destruct IH as (P2 & new2 & -> & R2).
    split; [now transitivity (env1, out ++ new1)|]. exists (new1 ++ new2). split; [now rewrite app_assoc|].
    pose proof (step_world _ _ (piece_step _ _ P1)) as E. cbn [fst] in E. rewrite E in R2.
    apply Forall_app. split; [|exact R2]. eapply List.Forall_impl; [|exact R1]. intros o.
    apply recorded_prefix. exact (step_chain _ _ (piece_step _ _ P2)).
Qed.

(** The outcomes of an external input are wet, at the stimulus depth, and recorded in the engine's chain. *)
Lemma handle_recorded eng input world :
  engine_wf eng -> external input = true ->
  Forall (recorded (stimulus_depth eng input world) (now_ms world) (chain (eng_vol (fst (handle eng input world)))))
    (snd (handle eng input world)).
Proof.
  intros W Hext. unfold handle. destruct (eng_rules eng) as [set|] eqn:Hs; [|constructor].
  rewrite dispatch_external by done.
  assert (handle_env eng world = mkExecEnv world set (eng_enabled eng) (prune_chain (eng_vol eng) (now_ms world))
            (eng_counters eng)) as He by (unfold handle_env, loaded; now rewrite Hs).
  unfold stimulus_depth. rewrite He. set (env := mkExecEnv world set _ _ _). unfold on_external.
  assert (accepted (e_rules env)) as Hacc by (pose proof (wf_accepted _ W) as A; unfold loaded in A; now rewrite Hs in A).
  pose proof (external_fold_recorded input (input_event_ctx input) (input_chain_depth env input)
    (name_order (e_rules env)) env [] Hacc) as H.
  destruct (foldl _ (env, []) _) as [env1 out1]. destruct H as (_ & new & -> & R). cbn [fst snd app eng_vol].
  eapply List.Forall_impl; [|exact R]. intros o. apply recorded_prefix.
  exact (step_chain _ _ (maintain_edge_cache_step env1 input)).
Qed.

(** ** Chain entries between two stimuli *)

(** An operation no later than [now]. *)
Definition op_by (now : Z) (op : EngineOp) : Prop :=
  match op with Op_Handle _ world => now_ms world <= now | _ => True end.

Lemma in_chain_window_earlier now now' e : now <= now' -> in_chain_window now' e = true -> in_chain_window now e = true.
Proof. unfold in_chain_window, sat_sub. lia. Qed.

Lemma prune_chain_elem v now e : e ∈ chain v -> in_chain_window now e = true -> e ∈ chain (prune_chain v now).
Proof. intros H1 H2. cbn. apply list_elem_of_In, filter_In. split; [now apply list_elem_of_In|done]. Qed.

Lemma handle_chain eng input world e :
  engine_wf eng -> e ∈ chain (eng_vol eng) -> in_chain_window (now_ms world) e = true ->
  e ∈ chain (eng_vol (fst (handle eng input world))).
Proof.
  intros W He Hw. pose proof (prune_chain_elem _ _ _ He Hw) as Hp.
  destruct (eng_rules eng) as [set|] eqn:Hs.
  - destruct (handle_piece eng input world set W Hs) as (env & [S _] & ->).
    destruct (step_chain _ _ S) as [l E]. cbn [fst] in E. cbn [eng_vol]. rewrite E. apply elem_of_app. now left.
  - unfold handle. now rewrite Hs.
Qed.

Lemma engine_op_chain eng op now e :
  engine_wf eng -> op_by now op -> in_chain_window now e = true ->
  e ∈ chain (eng_vol eng) -> e ∈ chain (eng_vol (engine_op eng op)).
Proof.
  intros W Hop Hw He. destruct op as [set n|name on|input world]; cbn [engine_op op_by] in *.
  - done.
  - unfold set_rule_enabled. destruct (eng_rules eng ≫= _) as [idx|]; [|done]. unfold flip_rule_bit. now destruct on.
  - apply handle_chain; [done|done|]. now apply in_chain_window_earlier with now.
Qed.

Lemma engine_ops_chain ops now e : forall eng,
  engine_wf eng -> Forall op_validated ops -> Forall (op_by now) ops -> in_chain_window now e = true ->
  e ∈ chain (eng_vol eng) -> engine_wf (foldl engine_op eng ops) /\ e ∈ chain (eng_vol (foldl engine_op eng ops)).
Proof.
  induction ops as [|op ops IH]; intros eng W Hv Hb Hw He; cbn [foldl]; [done|].
  inversion Hv; subst. inversion Hb; subst. apply IH; try done; [now apply engine_op_wf|].
  now apply engine_op_chain with now.
Qed.

(** ** Feedback loops *)

Definition effects_of (eng : Engine) (input : EngineInput) (world : WorldSnapshot) : list Effect :=
  concat (map out_effects (snd (handle eng input world))).

(** A stimulus an effect can cause: they share a chain key. *)
Definition echoes (es : list Effect) (input : EngineInput) : Prop :=
  exists e k, e ∈ es /\ k ∈ effect_keys e /\ k ∈ input_keys input.

Record Round := mkRound { between : list EngineOp; stimulus : EngineInput; at_world : WorldSnapshot }.

(** Rounds of a loop: each stimulus echoes an effect of the round before within the chain window, whatever
    validated operations happen in between, and makes rules emit effects again. *)
Fixpoint feedback (eng : Engine) (es : list Effect) (since : Z) (rounds : list Round) : Prop :=
  match rounds with
  | [] => True
  | r :: rounds =>
      let eng1 := foldl engine_op eng (between r) in
      let now := now_ms (at_world r) in
      (Forall op_validated (between r) /\ Forall (op_by now) (between r)) /\
      (external (stimulus r) = true /\ since <= now <= since + CHAIN_WINDOW_MS /\ echoes es (stimulus r)) /\
      effects_of eng1 (stimulus r) (at_world r) <> [] /\
      feedback (fst (handle eng1 (stimulus r) (at_world r))) (effects_of eng1 (stimulus r) (at_world r)) now rounds
  end.

Definition recorded_all (eng : Engine) (es : list Effect) (d since : Z) : Prop :=
  forall e k, e ∈ es -> k ∈ effect_keys e -> mkChainEntry k d since ∈ chain (eng_vol eng).

Lemma effects_of_recorded eng input world :
  engine_wf eng -> external input = true ->
  recorded_all (fst (handle eng input world)) (effects_of eng input world) (stimulus_depth eng input world) (now_ms world) /\
  (effects_of eng input world <> [] -> stimulus_depth eng input world <= MAX_CHAIN_DEPTH).
Proof.
  intros W Hx. pose proof (handle_recorded eng input world W Hx) as H. rewrite List.Forall_forall in H. split.
  - intros e k He Hk. unfold effects_of in He. apply list_elem_of_In, in_concat in He as (l & Hl & He).
    apply in_map_iff in Hl as (o & <- & Ho). destruct (H o Ho) as (_ & H2 & _). apply (H2 e k); [|done].
    now apply list_elem_of_In.
  - intros Hne. destruct (Z.le_gt_cases (stimulus_depth eng input world) MAX_CHAIN_DEPTH) as [|Hgt]; [done|].
    exfalso. apply Hne. unfold effects_of. apply concat_nil_Forall, List.Forall_forall. intros l Hl.
    apply in_map_iff in Hl as (o & <- & Ho). destruct (H o Ho) as (_ & _ & H3). now apply H3.
Qed.

Lemma echo_is_deeper eng es d since input world :
  recorded_all eng es d since -> 0 <= d <= MAX_CHAIN_DEPTH ->
  since <= now_ms world <= since + CHAIN_WINDOW_MS -> echoes es input ->
  d < stimulus_depth eng input world.
Proof.
  intros Hr Hd Hnow (e & k & He & Hk & Hi). unfold stimulus_depth. rewrite input_chain_depth_keys.
  cbn [handle_env e_vol e_world].
  assert (in_chain_window (now_ms world) (mkChainEntry k d since) = true) as Hw
    by (unfold in_chain_window, sat_sub, CHAIN_WINDOW_MS in *; cbn; lia).
  apply (chain_depth_for_ge _ _ _ (mkChainEntry k d since)); [|done|done|].
  - apply prune_chain_elem; [|done]. exact (Hr e k He Hk).
  - cbn [chain_depth]. unfold MAX_CHAIN_DEPTH, umax in *. lia.
Qed.

Lemma feedback_bound rounds : forall eng es since d,
  engine_wf eng -> recorded_all eng es d since -> 0 <= d <= MAX_CHAIN_DEPTH ->
  feedback eng es since rounds -> d + len rounds <= MAX_CHAIN_DEPTH.
Proof.
  induction rounds as [|r rounds IH]; intros eng es since d W Hr Hd; [unfold len; cbn; lia|].
  intros ((Hv & Hb) & (Hx & Hnow & Hecho) & Hne & Hrest).
  set (eng1 := foldl engine_op eng (between r)) in *.
  assert (forall e, in_chain_window (now_ms (at_world r)) e = true -> e ∈ chain (eng_vol eng) ->
    e ∈ chain (eng_vol eng1)) as Hkeep.
  { intros e Hwin He. now apply (engine_ops_chain (between r) (now_ms (at_world r)) e eng). }
  assert (engine_wf eng1) as W1.
  { unfold eng1. clear - W Hv. revert eng W. induction Hv as [|op ops H _ IH]; intros eng W; cbn; [done|].
    apply IH. now apply engine_op_wf. }
  assert (d < stimulus_depth eng1 (stimulus r) (at_world r)) as Hlt.
  { apply (echo_is_deeper eng1 es d since); try done. intros e k He Hk. apply Hkeep; [|exact (Hr e k He Hk)].
    unfold in_chain_window, sat_sub, CHAIN_WINDOW_MS in *. cbn. lia. }
  destruct (effects_of_recorded eng1 (stimulus r) (at_world r) W1 Hx) as [Hr1 Hle]. specialize (Hle Hne).
  pose proof (IH _ _ _ _ (handle_wf _ _ _ W1) Hr1 ltac:(lia) Hrest) as Hlen. unfold len in *. cbn [length]. lia.
Qed.

Lemma chain_depth_for_nonneg v keys now :
  Forall (fun e => in_u 32 (chain_depth e)) (chain v) -> 0 <= chain_depth_for v keys now.
Proof.
  intros H. unfold chain_depth_for. destruct (map chain_depth _) as [|d ds] eqn:E; [done|].
  assert (0 <= d) as Hd.
  { assert (In d (map chain_depth (List.filter (fun e => in_chain_window now e &&
      existsb (fun k => bool_decide (chain_key e = k)) keys) (chain v)))) as Hin by (rewrite E; now left).
    apply in_map_iff in Hin as (e & <- & [He _]%filter_In). rewrite List.Forall_forall in H.
    specialize (H e He). unfold in_u in H. lia. }
  assert (d <= foldl Z.max d ds) as Hm.
  { clear. revert d. induction ds as [|y ds IH]; intros d; cbn -[Z.max]; [lia|]. specialize (IH (Z.max d y)). lia. }
  unfold sat_add, umax. lia.
Qed.


(** Two rules that switch a lamp against each other: the fifth stimulus is the last that has an effect. *)
Definition ping_pong : RuleSet :=
  let lamp := mkLampRef 0 5 in
  let turn op := [Action_Light (mkLightAction op (LightTarget_Lamp lamp) None)] in
  mkRuleSet 0 []
    [mkRule (ascii_str "ping") true 0 true [Trigger_LampTurns lamp PowerTransition_On] [] (turn LightOp_Off);
     mkRule (ascii_str "pong") true 0 true [Trigger_LampTurns lamp PowerTransition_Off] [] (turn (LightOp_On None))].
Definition turns (on : bool) : EngineInput := In_LampChanged 0 5 on None (negb on) None.
Definition ping_pong_engine : Engine := run_ops 0 [Op_SetRules (Some ping_pong) 0].
Definition ping_pong_rounds : list Round :=
  [mkRound [] (turns false) (world_empty 200); mkRound [] (turns true) (world_empty 300);
   mkRound [] (turns false) (world_empty 400); mkRound [] (turns true) (world_empty 500)].

Lemma ping_pong_wf : engine_wf ping_pong_engine.
Proof.
  apply run_ops_wf. constructor; [|constructor]. split; [apply document_u8b_spec|]; vm_compute; reflexivity.
Qed.

Definition echoesb (es : list Effect) (input : EngineInput) : bool :=
  existsb (fun e => existsb (fun k => existsb (fun k' => bool_decide (k = k')) (input_keys input)) (effect_keys e)) es.

Lemma echoesb_spec es input : echoesb es input = true -> echoes es input.
Proof.
  intros (e & He & (k & Hk & (k' & Hk' & E)%existsb_exists)%existsb_exists)%existsb_exists.
  apply bool_decide_eq_true in E as <-. exists e, k. now rewrite !list_elem_of_In.
Qed.

Ltac feedback_round :=
  cbn [feedback between stimulus at_world foldl]; split; [split; constructor|]; split;
  [split; [reflexivity|split; [cbn; unfold CHAIN_WINDOW_MS; lia|apply echoesb_spec; vm_compute; reflexivity]]|];
  split; [vm_compute; discriminate|].


(** ** Dry runs *)

(** C26: A dry run changes nothing: a rule run with [dry] leaves the rules, their enabled bits and the volatile state as they
    were (only stale chain entries go), and of the counters only those of dry activations, rejected
    conditions and failed actions move; it yields at most one outcome, marked dry. *)
Theorem dry_run_changes_nothing (eng : Engine) (name : str) (world : WorldSnapshot) :
  let '(eng', out) := handle eng (In_RunRule name true) world in
  eng_rules eng' = eng_rules eng /\ eng_enabled eng' = eng_enabled eng /\
  eng_vol eng' = prune_chain (eng_vol eng) (now_ms world) /\
  (exists dry rejected failed, eng_counters eng' =
     (eng_counters eng) <| activations_dry := dry |> <| conditions_rejected := rejected |> <| actions_failed := failed |>) /\
  (length out <= 1)%nat /\ Forall (fun o => out_dry o = true /\ out_rule o = name) out.
Proof.
  unfold handle. assert (forall c : EngineCounters, exists dry rejected failed,
    c = c <| activations_dry := dry |> <| conditions_rejected := rejected |> <| actions_failed := failed |>) as Hsame.
  { intros c. exists (activations_dry c), (conditions_rejected c), (actions_failed c). now destruct c. }
  destruct (eng_rules eng) as [set|] eqn:Hs; [|cbn; auto 10].
  cbn [dispatch]. unfold run_rule. cbn [e_rules].
  destruct (rule_position set name) as [idx|] eqn:Hi; [|cbn; auto 10]. cbv zeta. cbn [negb andb].
  unfold activate. cbn [e_rules mode_is_auto andb].
  destruct (rules set !! idx) as [rule|] eqn:Hr; [|cbn; auto 10].
  assert (rule_name rule = name) as Hn.
  { unfold rule_position in Hi. apply find_pos_Some in Hi as (r & Hr' & Hp & _). rewrite Hr in Hr'. injection Hr' as <-.
    now apply str_eqb_spec in Hp. }
  destruct (MAX_CHAIN_DEPTH <? 0) eqn:E; [discriminate|]. clear E.
  destruct (conditions_hold _ rule event_ctx_default) as [[]|[]]; cbn [mode_is_dry note_wet_partial].
  - unfold execute. cbn [mode_is_dry]. cbv zeta.
    match goal with |- context [run_steps ?e ?j] => pose proof (run_steps_dry e j eq_refl) as H;
      destruct (run_steps e j) as [env1 run] end.
    destruct H as [n H]. cbn [fst] in H. subst env1. cbn. split; [done|]. split; [done|]. split; [done|].
    split; [|split; [lia|now repeat constructor]].
    exists (bump (activations_dry (eng_counters eng))), (conditions_rejected (eng_counters eng)), n. now destruct (eng_counters eng).
  - cbn. split; [done|]. split; [done|]. split; [done|]. split; [|split; [lia|constructor]].
    exists (activations_dry (eng_counters eng)), (bump (conditions_rejected (eng_counters eng))), (actions_failed (eng_counters eng)).
    now destruct (eng_counters eng).
  - cbn. split; [done|]. split; [done|]. split; [done|]. split; [apply Hsame|]. split; [lia|now repeat constructor].
Qed.

(** ** The order of activations *)

Definition name_gt (a b : str) : Prop := str_gt b a = true.

Lemma name_order_names set :
  NoDup (map rule_name (rules set)) ->
  StronglySorted name_gt (map (rule_name_at set) (name_order set)) /\
  Forall (fun i => (i < length (rules set))%nat) (name_order set).
Proof.
  intros Hnd. pose proof (insertion_sort_by_perm (name_after set) (seq 0 (length (rules set)))) as Hp.
  change (insertion_sort_by _ _) with (name_order set) in Hp.
  assert (map (rule_name_at set) (name_order set) ≡ₚ map rule_name (rules set)) as Hm.
  { rewrite Hp. replace (map rule_name (rules set)) with (map (rule_name_at set) (seq 0 (length (rules set)))); [done|].
    unfold rule_name_at. clear. induction (rules set) as [|r l IH] using rev_ind; [done|].
    rewrite length_app, Nat.add_comm, seq_S, !map_app. cbn [map Nat.add app].
    rewrite lookup_app_r by lia. rewrite Nat.sub_diag. cbn. f_equal. rewrite <- IH. apply map_ext_in.
    intros i Hi%in_seq. now rewrite lookup_app_l by lia. }
  split.
  - assert (sorts (name_after set)) as Hsorts.
    { split; unfold name_after; intros; [now apply str_gt_asym|eapply str_gt_neg_trans; eauto]. }
    pose proof (insertion_sort_by_sorted _ (seq 0 (length (rules set))) Hsorts) as Hs.
    change (insertion_sort_by _ _) with (name_order set) in Hs. rewrite <- Hm in Hnd. revert Hnd. clear - Hs.
    induction Hs as [|i l _ IH Hi]; cbn; intros Hnd; [constructor|]. apply list.NoDup_cons in Hnd as [Hni Hnd].
    constructor; [auto|]. apply List.Forall_forall. intros n Hn. apply in_map_iff in Hn as (j & <- & Hj).
    rewrite List.Forall_forall in Hi. specialize (Hi j Hj). unfold le_item, name_after in Hi. unfold name_gt.
    destruct (str_gt (rule_name_at set j) (rule_name_at set i)) eqn:E; [done|].
    exfalso. apply Hni. rewrite (str_gt_total _ _ Hi E). apply list_elem_of_In. now apply in_map.
  - rewrite Hp. apply List.Forall_forall. intros i Hi%in_seq. lia.
Qed.

Lemma activate_names env idx kind ctx d mode out :
  let '(env', out') := activate env idx kind ctx d mode out in
  out' = out \/ exists o, out' = out ++ [o] /\ out_rule o = rule_name_at (e_rules env) idx.
Proof.
  unfold activate, rule_name_at. destruct (rules (e_rules env) !! idx) as [rule|]; [|now left].
  case_if; [now left|]. case_if; [right; eexists; now split|].
  destruct (conditions_hold env rule ctx) as [[]|[]]; [|now left|right; eexists; now split].
  unfold execute. cbv zeta. destruct (run_steps _ _). right. eexists. now split.
Qed.

(** The outcomes of one pass are named by a sublist of the names visited. *)
Lemma external_fold_names input ctx d l : forall env out,
  accepted (e_rules env) ->
  exists new, snd (foldl (external_rule input ctx d) (env, out) l) = out ++ new /\
    map out_rule new `sublist_of` map (rule_name_at (e_rules env)) l.
Proof.
  induction l as [|idx l IH]; intros env out Hacc; cbn [foldl]; [exists []; now rewrite app_nil_r|].
  assert (let '(env1, out1) := external_rule input ctx d (env, out) idx in
    e_rules env1 = e_rules env /\
    (out1 = out \/ exists o, out1 = out ++ [o] /\ out_rule o = rule_name_at (e_rules env) idx)) as H.
  { unfold external_rule. destruct (rules (e_rules env) !! idx) as [rule|]; [|auto].
    destruct (rule_matches rule input (e_vol env)) as [kind|]; [|auto]. case_if; [auto|].
    pose proof (activate_names env idx kind ctx d Mode_Auto out) as H1.
    pose proof (piece_step _ _ (activate_piece env idx kind ctx d Mode_Auto out Hacc)) as S.
    destruct (activate env idx kind ctx d Mode_Auto out). split; [exact (step_rules _ _ S)|exact H1]. }
  destruct (external_rule input ctx d (env, out) idx) as [env1 out1]. destruct H as [Er Ho].
  destruct (IH env1 out1 ltac:(now rewrite Er)) as (new & -> & Hs). rewrite Er in Hs. cbn [map].
  destruct Ho as [->|(o & -> & Hn)].
  - exists new. split; [done|]. now apply sublist_cons.
  - exists (o :: new). rewrite <- app_assoc. split; [done|]. cbn. rewrite Hn. now apply sublist_skip.
Qed.

Lemma sublist_StronglySorted {A} (R : A -> A -> Prop) (l1 l2 : list A) :
  l1 `sublist_of` l2 -> StronglySorted R l2 -> StronglySorted R l1.
Proof.
  induction 1 as [|x l1 l2 Hs IH|x l1 l2 Hs IH]; intros H; [constructor| |].
  - apply StronglySorted_inv in H as [H Hx]. constructor; [auto|]. rewrite List.Forall_forall in Hx |- *.
    intros y Hy. apply Hx, list_elem_of_In. eapply elem_of_sublist; eauto. now apply list_elem_of_In.
  - apply StronglySorted_inv in H as [H _]. auto.
Qed.

(** C27: The rules an outside stimulus makes run are activated in the byte order of their names, whatever
    their order in the document, and none of them twice. *)
Theorem rules_run_in_name_order (eng : Engine) (input : EngineInput) (world : WorldSnapshot) :
  engine_wf eng -> NoDup (map rule_name (rules (loaded eng))) -> external input = true ->
  StronglySorted name_gt (map out_rule (snd (handle eng input world))).
Proof.
  intros W Hnd Hx. unfold handle. destruct (eng_rules eng) as [set|] eqn:Hs; [|constructor].
  rewrite dispatch_external by done. unfold on_external. set (env := mkExecEnv world set _ _ _).
  pose proof (wf_accepted _ W) as Hacc. unfold loaded in *. rewrite Hs in *. cbn [default] in *.
  destruct (external_fold_names input (input_event_ctx input) (input_chain_depth env input) (name_order set) env [] Hacc)
    as (new & E & Hsub).
  change (name_order (e_rules env)) with (name_order set).
  destruct (foldl _ (env, []) _) as [env1 out1]. cbn [snd app] in *. subst out1.
  eapply sublist_StronglySorted; [exact Hsub|]. now apply name_order_names.
Qed.

(** Two rules started together, written in the order b, a. *)
Definition starting (name : str) : Rule :=
  mkRule name true 0 true [Trigger_ControllerStarts] [] [Action_State (StateAction_Log name)].
Definition starting_engine : Engine :=
  run_ops 0 [Op_SetRules (Some (mkRuleSet 0 [] [starting (ascii_str "b"); starting (ascii_str "a")])) 0].

Lemma rules_run_in_name_order_witness :
  StronglySorted name_gt (map out_rule (snd (handle starting_engine In_ControllerStarts (world_empty 5)))) /\
  map out_rule (snd (handle starting_engine In_ControllerStarts (world_empty 5))) = [ascii_str "a"; ascii_str "b"].
Proof.
  split; [|vm_compute; reflexivity]. apply rules_run_in_name_order; [|apply (bool_decide_unpack _); vm_compute; exact I|reflexivity].
  apply run_ops_wf. constructor; [|constructor]. split; [apply document_u8b_spec|]; vm_compute; reflexivity.
Defined.

End RulesGuard.
