(* ===== verification/Effects.v ===== *)
(** * State and errors of the runtime

    The runtime's functions take [&mut self] and return [Result]: they are
    functions from a state to a result and the state after it.  [let*] sequences
    plain effects, [let!] is the [?] operator on an effect, and [wp] is the
    weakest precondition a proof about an effect works with. *)

From S2P Require Import Prelude RulesBase.

Definition eff (S A : Type) : Type := S -> A * S.

Definition ret {S A} (a : A) : eff S A := fun s => (a, s).
Definition bind {S A B} (m : eff S A) (k : A -> eff S B) : eff S B := fun s => let '(a, s) := m s in k a s.
Definition bind_ok {S A B E} (m : eff S (Result A E)) (k : A -> eff S (Result B E)) : eff S (Result B E) :=
  fun s => match m s with (Ok a, s) => k a s | (Err e, s) => (Err e, s) end.
Definition modify {S} (f : S -> S) : eff S unit := fun s => (tt, f s).
Definition asks {S A} (f : S -> A) : eff S A := fun s => (f s, s).
(** [result.map_err(f)] of an effect. *)
Definition map_err {S A E F} (f : E -> F) (m : eff S (Result A E)) : eff S (Result A F) :=
  fun s => match m s with (Ok a, s) => (Ok a, s) | (Err e, s) => (Err (f e), s) end.

Notation "'let*' x ':=' m 'in' k" := (bind m (fun x => k))
  (at level 200, x binder, m at level 200, k at level 200) : oxi_scope.
Notation "'let!' x ':=' m 'in' k" := (bind_ok m (fun x => k))
  (at level 200, x binder, m at level 200, k at level 200) : oxi_scope.

(** ** Weakest preconditions *)

Definition wp {S A} (m : eff S A) (Q : A -> S -> Prop) (s : S) : Prop := Q (fst (m s)) (snd (m s)).

Section Wp.
Context {S A B E : Type}.
Implicit Types (m : eff S A) (s : S).

Lemma wp_ret (a : A) Q s : Q a s -> wp (ret a) Q s.
Proof. auto. Qed.

Lemma wp_bind m (k : A -> eff S B) Q s : wp m (fun a => wp (k a) Q) s -> wp (bind m k) Q s.
Proof. unfold wp, bind. now destruct (m s). Qed.

Lemma wp_bind_ok (m : eff S (Result A E)) (k : A -> eff S (Result B E)) Q s :
  wp m (fun r => match r with Ok a => wp (k a) Q | Err e => Q (Err e) end) s -> wp (bind_ok m k) Q s.
Proof. unfold wp, bind_ok. destruct (m s) as [[a|e] s']; auto. Qed.

Lemma wp_map_err {F} (f : E -> F) (m : eff S (Result A E)) Q s :
  wp m (fun r => match r with Ok a => Q (Ok a) | Err e => Q (Err (f e)) end) s -> wp (map_err f m) Q s.
Proof. unfold wp, map_err. destruct (m s) as [[a|e] s']; auto. Qed.

Lemma wp_mono m (Q R : A -> S -> Prop) s : wp m Q s -> (forall a s', Q a s' -> R a s') -> wp m R s.
Proof. unfold wp. auto. Qed.

Lemma wp_conj m (Q R : A -> S -> Prop) s : wp m Q s -> wp m R s -> wp m (fun a s' => Q a s' /\ R a s') s.
Proof. unfold wp. auto. Qed.

Lemma wp_run m (Q : A -> S -> Prop) s a s' : m s = (a, s') -> wp m Q s <-> Q a s'.
Proof. unfold wp. now intros ->. Qed.
End Wp.
