(* ===== verification/Banks.v ===== *)
(** * Memory banks: widths, layouts and the banks a gear model holds

    Models [crates/dali2rust-domain/src/dali/banks]: [mod.rs] (multi-byte values
    with their MASK and TMASK sentinels), [layout.rs] (the fields of the DiiA
    banks and the length of a read that never splits one), [identity.rs] (bank 0)
    and the constants of [part251.rs]; and, of [crates/dali2rust-gear-model/src],
    [luminaire.rs] and [metering.rs].  A byte is a [Z]; a bank is its list of
    bytes. *)

From Stdlib Require Import Ascii String.
From stdpp Require Import sorting.
From S2P Require Import Prelude RulesBase.

Module Banks.

(** ** Values ([banks/mod.rs]) *)

Inductive ValueWidth := U8 | U16 | U24 | U32 | U48 | I8 | I16 | I32.

#[global] Instance ValueWidth_eq_dec : EqDecision ValueWidth.
Proof. solve_decision. Defined.

Definition width_bytes (w : ValueWidth) : Z :=
  match w with U8 | I8 => 1 | U16 | I16 => 2 | U24 => 3 | U32 | I32 => 4 | U48 => 6 end.

Definition mask (w : ValueWidth) : Z :=
  match w with
  | U8 => 0xFF | U16 => 0xFFFF | U24 => 0x00FFFFFF | U32 => 0xFFFFFFFF | U48 => 0xFFFFFFFFFFFF
  | I8 => 0x7F | I16 => 0x7FFF | I32 => 0x7FFFFFFF
  end.

Definition tmask (w : ValueWidth) : Z := mask w - 1.
Definition max_valid (w : ValueWidth) : Z := mask w - 2.
Definition is_signed (w : ValueWidth) : bool := match w with I8 | I16 | I32 => true | _ => false end.

(** [((raw << shift) as i64) >> shift] *)
Definition to_signed (w : ValueWidth) (raw : Z) : Z :=
  let shift := 64 - width_bytes w * 8 in
  Z.shiftr (as_signed 64 (shl 64 raw shift)) shift.

Inductive BankValue := Reading (v : Z) | NotImplemented | TemporarilyUnavailable.

Definition bank_value (v : BankValue) : option Z := match v with Reading v => Some v | _ => None end.
Definition is_temporarily_unavailable (v : BankValue) : bool :=
  match v with TemporarilyUnavailable => true | _ => false end.
Definition is_saturated (v : BankValue) (w : ValueWidth) : bool :=
  match v with Reading v => v =? max_valid w | _ => false end.

Definition classify (raw : Z) (w : ValueWidth) : BankValue :=
  if raw =? mask w then NotImplemented
  else if raw =? tmask w then TemporarilyUnavailable
  else Reading raw.

(** [bytes.get(a..b)] *)
Definition slice (bytes : list Z) (a b : Z) : option (list Z) :=
  if (a <=? b) && (b <=? Z.of_nat (List.length bytes))
  then Some (take (Z.to_nat (b - a)) (drop (Z.to_nat a) bytes)) else None.

(** [iter().fold(0, |acc, byte| (acc << 8) | byte)] in 64 bits. *)
Definition be_fold (bytes : list Z) : Z := fold_left (fun acc byte => Z.lor (shl 64 acc 8) byte) bytes 0.

Definition read_value (bytes : list Z) (offset : Z) (w : ValueWidth) : option BankValue :=
  match slice bytes offset (offset + width_bytes w) with
  | None => None
  | Some s => Some (classify (be_fold s) w)
  end.

(** The bytes [encode_value] writes to the first [width.bytes()] slots. *)
Definition encode_bytes (raw : Z) (w : ValueWidth) : list Z :=
  map (fun i => Z.land (Z.shiftr raw (8 * (width_bytes w - 1 - i))) 0xFF) (seqZ 0 (width_bytes w)).
Definition encode_value (raw : Z) (w : ValueWidth) (out : list Z) : list Z :=
  take (List.length out) (encode_bytes raw w) ++ drop (Z.to_nat (width_bytes w)) out.

(** ** Fields ([banks/layout.rs]) *)

Record BankField := MkField { fd_offset : Z; fd_width : ValueWidth }.

Definition fields (l : list (Z * ValueWidth)) : list BankField := map (fun '(o, w) => MkField o w) l.

Definition META : list BankField := fields [(0x00, U8); (0x01, U8); (0x02, U8)].

Definition BANK_ENERGY : list BankField :=
  META ++ fields [(0x03, U8); (0x04, I8); (0x05, U48); (0x0B, I8); (0x0C, U32)].

Definition BANK_GEAR_DIAGNOSTICS : list BankField :=
  META ++ fields [(0x03, U8); (0x04, U32); (0x08, U24); (0x0B, U16); (0x0D, U8); (0x0E, U8); (0x0F, U8); (0x10, U8);
    (0x11, U8); (0x12, U8); (0x13, U8); (0x14, U8); (0x15, U8); (0x16, U8); (0x17, U8); (0x18, U8); (0x19, U8);
    (0x1A, U8)].
Definition BANK_GEAR_DIAGNOSTICS_TAIL : list BankField := fields [(0x1B, U8); (0x1C, U8)].

Definition BANK_SOURCE_DIAGNOSTICS : list BankField :=
  META ++ fields [(0x03, U8); (0x04, U24); (0x07, U24); (0x0A, U32); (0x0E, U32); (0x12, U16); (0x14, U16); (0x16, U8);
    (0x17, U8); (0x18, U8); (0x19, U8); (0x1A, U8); (0x1B, U8); (0x1C, U8); (0x1D, U8); (0x1E, U8); (0x1F, U8)].
Definition BANK_SOURCE_DIAGNOSTICS_TAIL : list BankField := fields [(0x20, U8)].

Definition BANK_LUMINAIRE : list BankField := META ++ fields [(0x03, U8); (0x04, U8); (0x05, U8); (0x06, U16)].

Definition DEVICE_TYPE_ENERGY : Z := 51.
Definition DEVICE_TYPE_DIAGNOSTICS : Z := 52.

Definition BANK_LUMINAIRE_INFO : Z := 1.
Definition BANK_ACTIVE_ENERGY : Z := 202.
Definition BANK_APPARENT_ENERGY : Z := 203.
Definition BANK_LOADSIDE_ENERGY : Z := 204.
Definition BANK_CONTROL_GEAR_DIAGNOSTICS : Z := 205.
Definition BANK_LIGHT_SOURCE_DIAGNOSTICS : Z := 206.
Definition BANK_LUMINAIRE_MAINTENANCE : Z := 207.

Definition bank_last_offset (bank : Z) : option Z :=
  match bank with
  | 202 | 203 | 204 => Some 0x0F
  | 205 => Some 0x1C
  | 206 => Some 0x20
  | 207 => Some 0x07
  | _ => None
  end.

(** The [while] loops of [concat_gear] and [concat_source] append the tail. *)
Definition concat_gear : list BankField := BANK_GEAR_DIAGNOSTICS ++ BANK_GEAR_DIAGNOSTICS_TAIL.
Definition concat_source : list BankField := BANK_SOURCE_DIAGNOSTICS ++ BANK_SOURCE_DIAGNOSTICS_TAIL.

(** ** Bank 1 ([banks/part251.rs]) *)

Inductive LuminaireFormat := V3 | V4 | V5.

Definition from_content_format_id (id : Z) : option LuminaireFormat :=
  match id with 3 => Some V3 | 4 => Some V4 | 5 => Some V5 | _ => None end.
Definition content_format_id (f : LuminaireFormat) : Z := match f with V3 => 3 | V4 => 4 | V5 => 5 end.
Definition min_last_offset (f : LuminaireFormat) : Z := match f with V3 => 0x77 | V4 => 0x8F | V5 => 0xC9 end.

Definition CONTENT_FORMAT_ID_OFFSET : Z := 0x11.
Definition YEAR_OFFSET : Z := 0x13.
Definition WEEK_OFFSET : Z := 0x14.
Definition NOMINAL_INPUT_POWER_OFFSET : Z := 0x15.
Definition POWER_AT_MINIMUM_OFFSET : Z := 0x17.
Definition NOMINAL_MIN_AC_VOLTAGE_OFFSET : Z := 0x19.
Definition NOMINAL_MAX_AC_VOLTAGE_OFFSET : Z := 0x1B.
Definition NOMINAL_LIGHT_OUTPUT_OFFSET : Z := 0x1D.
Definition CRI_OFFSET : Z := 0x20.
Definition CCT_OFFSET : Z := 0x21.
Definition LIGHT_DISTRIBUTION_TYPE_OFFSET : Z := 0x23.
Definition LAMP_CURRENT_OFFSET : Z := 0xC0.

Definition BANK_LUMINAIRE_INFO_MAP : list BankField :=
  map (fun o => MkField o U8) (seqZ 0 0x11) ++
  fields [(CONTENT_FORMAT_ID_OFFSET, U16); (YEAR_OFFSET, U8); (WEEK_OFFSET, U8); (NOMINAL_INPUT_POWER_OFFSET, U16);
    (POWER_AT_MINIMUM_OFFSET, U16); (NOMINAL_MIN_AC_VOLTAGE_OFFSET, U16); (NOMINAL_MAX_AC_VOLTAGE_OFFSET, U16);
    (NOMINAL_LIGHT_OUTPUT_OFFSET, U24); (CRI_OFFSET, U8); (CCT_OFFSET, U16); (LIGHT_DISTRIBUTION_TYPE_OFFSET, U8)].

Definition bank_field_map (bank : Z) : list BankField :=
  match bank with
  | 1 => BANK_LUMINAIRE_INFO_MAP
  | 202 | 203 | 204 => BANK_ENERGY
  | 205 => concat_gear
  | 206 => concat_source
  | 207 => BANK_LUMINAIRE
  | _ => []
  end.

Definition field_holds (offset : Z) (f : BankField) : bool :=
  (fd_offset f <=? offset) && (offset <? fd_offset f + width_bytes (fd_width f)).
Definition field_containing (bank offset : Z) : option BankField := find (field_holds offset) (bank_field_map bank).
Definition is_field_boundary (bank offset : Z) : bool :=
  match field_containing bank offset with None => true | Some f => fd_offset f =? offset end.

(** The [for] loop of [chunk_len]: [continue] and [break] as they stand. *)
Fixpoint chunk_loop (map : list BankField) (offset remaining budget taken : Z) : Z :=
  match map with
  | [] => taken
  | f :: map =>
      let start := fd_offset f in
      if start <? offset then chunk_loop map offset remaining budget taken
      else if negb (start =? offset + taken) then taken
      else
        let width := width_bytes (fd_width f) in
        if remaining <? taken + width then taken
        else if (0 <? taken) && (budget <? taken + width) then taken
        else
          let taken := taken + width in
          if budget <=? taken then taken else chunk_loop map offset remaining budget taken
  end.
Definition chunk_len (bank offset remaining budget : Z) : Z :=
  match bank_field_map bank with
  | [] => Z.min budget remaining
  | map =>
      let taken := chunk_loop map offset remaining budget 0 in
      if taken =? 0 then Z.min budget remaining else taken
  end.

Record TextRegion := MkText { tx_offset : Z; tx_len : Z }.

Definition LUMINAIRE_COLOUR : TextRegion := MkText 0x24 24.
Definition LUMINAIRE_IDENTIFICATION : TextRegion := MkText 0x3C 60.
Definition LIGHT_DISTRIBUTION : TextRegion := MkText 0x78 24.
Definition OEM_NAME : TextRegion := MkText 0x90 32.
Definition CUSTOMER_STOCKING_NUMBER : TextRegion := MkText 0xB0 16.
Definition FREE_USE : TextRegion := MkText 0xC2 8.

Definition has_light_distribution (f : LuminaireFormat) : bool := match f with V3 => false | _ => true end.
Definition has_extended_block (f : LuminaireFormat) : bool := match f with V5 => true | _ => false end.

(** ** Bank 0 ([banks/identity.rs]) *)

Definition GTIN_OFFSET : Z := 0x03.
Definition GTIN_LEN : Z := 6.
Definition IDENTIFICATION_NUMBER_OFFSET : Z := 0x0B.
Definition IDENTIFICATION_NUMBER_LEN : Z := 8.
Definition LOGICAL_GEAR_INDEX_OFFSET : Z := 0x1A.
Definition IDENTITY_WINDOW_LEN : Z := LOGICAL_GEAR_INDEX_OFFSET - GTIN_OFFSET + 1.
Definition MASK : Z := 0xFF.

Record BankIdentity := MkBankIdentity { gtin : Z; identification_number : Z; logical_gear_index : Z }.

Inductive IdentityRead := Unread | Unprovable | Known (identity : BankIdentity).

Definition within (window : list Z) (offset len : Z) : list Z :=
  default [] (slice window (offset - GTIN_OFFSET) (offset - GTIN_OFFSET + len)).
Definition is_mask (bytes : list Z) : bool := forallb (fun byte => byte =? MASK) bytes.
Definition number_of (bytes : list Z) : Z := be_fold bytes.

Definition of_window (window : list Z) : IdentityRead :=
  if negb (Z.of_nat (List.length window) =? IDENTITY_WINDOW_LEN) then Unread
  else
    let g := within window GTIN_OFFSET GTIN_LEN in
    let number := within window IDENTIFICATION_NUMBER_OFFSET IDENTIFICATION_NUMBER_LEN in
    let index := within window LOGICAL_GEAR_INDEX_OFFSET 1 in
    if is_mask g || is_mask number || is_mask index then Unprovable
    else Known (MkBankIdentity (number_of g) (number_of number) (default MASK (head index))).

Definition of_bank0 (bank : list Z) : IdentityRead :=
  match bank with
  | [] => Unread
  | last :: _ =>
      if last <? LOGICAL_GEAR_INDEX_OFFSET then Unprovable
      else match slice bank GTIN_OFFSET (LOGICAL_GEAR_INDEX_OFFSET + 1) with
           | None => Unread
           | Some window => of_window window
           end
  end.

(** ** The luminaire bank of a gear model ([luminaire.rs]) *)

Definition LUMINAIRE_FIRST_OFFSET : Z := CONTENT_FORMAT_ID_OFFSET.
Definition LUMINAIRE_LAST_OFFSET : Z := 0xC9.
Definition LUMINAIRE_EXT_LEN : Z := LUMINAIRE_LAST_OFFSET - LUMINAIRE_FIRST_OFFSET + 1.

Record LuminaireBank := MkLuminaireBank { lb_last_accessible : Z; lb_bytes : list Z }.

#[global] Instance eta_LuminaireBank : Eta LuminaireBank := fun b =>
  MkLuminaireBank (lb_last_accessible b) (lb_bytes b).

Definition luminaire_location (b : LuminaireBank) (offset : Z) : option Z :=
  if (lb_last_accessible b <? offset) || (offset <? LUMINAIRE_FIRST_OFFSET) then None
  else aget (lb_bytes b) (offset - LUMINAIRE_FIRST_OFFSET).

Definition luminaire_put (b : LuminaireBank) (offset value : Z) : LuminaireBank :=
  if offset <? LUMINAIRE_FIRST_OFFSET then b
  else b <| lb_bytes := aset (lb_bytes b) (offset - LUMINAIRE_FIRST_OFFSET) value |>.

Definition luminaire_store (b : LuminaireBank) (offset value : Z) : LuminaireBank :=
  if offset <=? lb_last_accessible b then luminaire_put b offset value else b.

Definition put_u16 (b : LuminaireBank) (offset value : Z) : LuminaireBank :=
  luminaire_put (luminaire_put b offset (wrap 8 (Z.shiftr value 8))) (offset + 1) (Z.land value 0xFF).

Definition put_u24 (b : LuminaireBank) (offset value : Z) : LuminaireBank :=
  luminaire_put
    (luminaire_put (luminaire_put b offset (Z.land (Z.shiftr value 16) 0xFF)) (offset + 1)
       (Z.land (Z.shiftr value 8) 0xFF))
    (offset + 2) (Z.land value 0xFF).

(** The bytes of an ASCII literal [b"..."]. *)
Definition bytes_of (s : string) : list Z := map (fun c => Z.of_N (N_of_ascii c)) (list_ascii_of_string s).

Definition fill_numbers (b : LuminaireBank) (seed : Z) (tc_capable : bool) : LuminaireBank :=
  let b := luminaire_put b YEAR_OFFSET (22 + seed mod 4) in
  let week := if seed mod 4 =? 3 then 0 else 1 + seed mod 52 in
  let b := luminaire_put b WEEK_OFFSET week in
  let b := put_u16 b NOMINAL_INPUT_POWER_OFFSET (30 + seed mod 20) in
  let b := put_u16 b POWER_AT_MINIMUM_OFFSET (2 + seed mod 3) in
  let b := put_u16 b NOMINAL_MIN_AC_VOLTAGE_OFFSET 198 in
  let b := put_u16 b NOMINAL_MAX_AC_VOLTAGE_OFFSET 264 in
  let b := put_u24 b NOMINAL_LIGHT_OUTPUT_OFFSET (3000 + seed mod 900) in
  let b := luminaire_put b CRI_OFFSET (80 + seed mod 20) in
  let cct := if tc_capable then umax 16 - 1 else 3000 + seed mod 8 * 250 in
  let b := put_u16 b CCT_OFFSET cct in
  luminaire_put b LIGHT_DISTRIBUTION_TYPE_OFFSET (1 + seed mod 5).

Definition put_text (b : LuminaireBank) (region : TextRegion) (text : list Z) : LuminaireBank :=
  fold_left (fun b i => luminaire_put b (tx_offset region + i) (default 0 (aget text i))) (seqZ 0 (tx_len region)) b.

(** Decimal digits, the last one written first. *)
Fixpoint digits_rev (n : nat) (value : Z) : list Z :=
  match n with O => [] | S n => (48 + value mod 10) :: digits_rev n (value / 10) end.
Definition write_digits (len : nat) (value : Z) : list Z := rev (digits_rev len value).

Definition luminaire_ident (seed : Z) : list Z :=
  let ident := bytes_of "DALI2RUST BENCH LUMINAIRE 0000 / ASSET TAG A-000000000000000" in
  take 26 ident ++ write_digits 4 seed ++ drop 30 ident.

Definition fill_text (b : LuminaireBank) (seed : Z) (format : LuminaireFormat) : LuminaireBank :=
  let b := put_text b LUMINAIRE_COLOUR (bytes_of "warm white") in
  let b := put_text b LUMINAIRE_IDENTIFICATION (luminaire_ident seed) in
  let b := if has_light_distribution format then put_text b LIGHT_DISTRIBUTION (bytes_of "symmetric wide") else b in
  if has_extended_block format then
    let b := put_text b OEM_NAME (bytes_of "dali2rust reference OEM") in
    let b := put_text b CUSTOMER_STOCKING_NUMBER (bytes_of "STK-0001") in
    let b := put_u16 b LAMP_CURRENT_OFFSET (350 + seed mod 100) in
    put_text b FREE_USE (bytes_of "site-01")
  else b.

Definition luminaire_new (seed : Z) (format : LuminaireFormat) (tc_capable : bool) : LuminaireBank :=
  let b := MkLuminaireBank (min_last_offset format) (repeat 0 (Z.to_nat LUMINAIRE_EXT_LEN)) in
  let b := put_u16 b CONTENT_FORMAT_ID_OFFSET (content_format_id format) in
  fill_text (fill_numbers b seed tc_capable) seed format.

(** ** The metering banks of a gear model ([metering.rs]) *)

Definition BANK_UNLOCKED : Z := 0x55.
Definition ENERGY_BANK_LEN : Z := 0x10.
Definition GEAR_BANK_LEN : Z := 0x1D.
Definition SOURCE_BANK_LEN : Z := 0x21.
Definition LUMINAIRE_BANK_LEN : Z := 0x08.
Definition BANK_VERSION : Z := 0x01.

Definition zeros (len : Z) : list Z := repeat 0 (Z.to_nat len).

Definition write_meta (bank : list Z) : list Z :=
  aset (aset (aset (aset bank 0x00 (wrap 8 (Z.of_nat (List.length bank) - 1))) 0x01 0x00) 0x02 BANK_UNLOCKED)
    0x03 BANK_VERSION.

(** [encode_value] into the sub-slice; every caller's range is inside the bank. *)
Definition bank_put (bank : list Z) (offset raw : Z) (w : ValueWidth) : list Z :=
  take (Z.to_nat offset) bank ++
  encode_value raw w (take (Z.to_nat (width_bytes w)) (drop (Z.to_nat offset) bank)) ++
  drop (Z.to_nat (offset + width_bytes w)) bank.

Definition build_energy_bank (energy_wh power_mw : Z) : list Z :=
  let b := write_meta (zeros ENERGY_BANK_LEN) in
  let b := bank_put b 0x04 0 I8 in
  let b := bank_put b 0x05 energy_wh U48 in
  let b := bank_put b 0x0B (Z.land (wrap 64 (-3)) 0xFF) I8 in
  bank_put b 0x0C power_mw U32.

Definition build_gear_bank (seed : Z) : list Z :=
  let b := write_meta (zeros GEAR_BANK_LEN) in
  let b := bank_put b 0x04 (seed mod 1000000 + 3600) U32 in
  let b := bank_put b 0x08 (seed mod 500) U24 in
  let b := bank_put b 0x0B 2300 U16 in
  aset (aset (aset (aset b 0x0D 50) 0x0E 95) 0x1B (60 + 45)) 0x1C 100.

Definition build_source_bank (seed : Z) : list Z :=
  let b := write_meta (zeros SOURCE_BANK_LEN) in
  let starts := seed mod 400 in
  let b := bank_put b 0x04 starts U24 in
  let b := bank_put b 0x07 (starts + 17) U24 in
  let on_time := seed mod 900000 + 1200 in
  let b := bank_put b 0x0A on_time U32 in
  let b := bank_put b 0x0E (on_time + 4242) U32 in
  let b := bank_put b 0x12 240 U16 in
  let b := bank_put b 0x14 350 U16 in
  aset b 0x20 (60 + 50).

Definition build_luminaire_bank : list Z :=
  let b := write_meta (zeros LUMINAIRE_BANK_LEN) in
  bank_put (aset (aset b 0x04 50) 0x05 0xFF) 0x06 5000 U16.

Record MeteringBanks := MkMetering {
  mb_active_energy : list Z; mb_apparent_energy : list Z; mb_loadside_energy : option (list Z);
  mb_control_gear : list Z; mb_light_source : list Z; mb_luminaire : list Z;
  mb_energy : bool; mb_diagnostics : bool }.

#[global] Instance eta_MeteringBanks : Eta MeteringBanks := fun b =>
  MkMetering (mb_active_energy b) (mb_apparent_energy b) (mb_loadside_energy b) (mb_control_gear b)
    (mb_light_source b) (mb_luminaire b) (mb_energy b) (mb_diagnostics b).

Definition metering_new (seed : Z) (energy diagnostics : bool) : MeteringBanks :=
  let energy_wh := seed mod 100000 + 12345 in
  MkMetering (build_energy_bank energy_wh 18500) (build_energy_bank (energy_wh + energy_wh / 20) 19500) None
    (build_gear_bank seed) (build_source_bank seed) build_luminaire_bank energy diagnostics.

Definition last_accessible_bank (m : MeteringBanks) (without_metering : Z) : Z :=
  if mb_diagnostics m then BANK_LUMINAIRE_MAINTENANCE
  else if mb_energy m then BANK_APPARENT_ENERGY
  else without_metering.

Definition image (m : MeteringBanks) (bank : Z) : option (list Z) :=
  if (bank =? BANK_ACTIVE_ENERGY) && mb_energy m then Some (mb_active_energy m)
  else if (bank =? BANK_APPARENT_ENERGY) && mb_energy m then Some (mb_apparent_energy m)
  else if (bank =? BANK_LOADSIDE_ENERGY) && mb_energy m then mb_loadside_energy m
  else if (bank =? BANK_CONTROL_GEAR_DIAGNOSTICS) && mb_diagnostics m then Some (mb_control_gear m)
  else if (bank =? BANK_LIGHT_SOURCE_DIAGNOSTICS) && mb_diagnostics m then Some (mb_light_source m)
  else if (bank =? BANK_LUMINAIRE_MAINTENANCE) && mb_diagnostics m then Some (mb_luminaire m)
  else None.

Definition metering_location (m : MeteringBanks) (bank offset : Z) : option Z :=
  match image m bank with Some b => aget b offset | None => None end.
Definition metering_implements_bank (m : MeteringBanks) (bank : Z) : bool :=
  match image m bank with Some _ => true | None => false end.

Definition set_temporarily_unavailable (m : MeteringBanks) (on : bool) : MeteringBanks :=
  let power := if on then tmask U32 else 18500 in
  let m := m <| mb_active_energy := bank_put (mb_active_energy m) 0x0C power U32 |> in
  let m := m <| mb_apparent_energy := bank_put (mb_apparent_energy m) 0x0C power U32 |> in
  let voltage := if on then tmask U16 else 2300 in
  let m := m <| mb_control_gear := bank_put (mb_control_gear m) 0x0B voltage U16 |> in
  m <| mb_control_gear := aset (mb_control_gear m) 0x0E (if on then wrap 8 (tmask U8) else 95) |>.

Definition implement_loadside (m : MeteringBanks) (energy_wh : Z) (power_available : bool) : MeteringBanks :=
  let bank := build_energy_bank energy_wh 0 in
  let bank := if power_available then bank else bank_put bank 0x0C (tmask U32) U32 in
  m <| mb_loadside_energy := Some bank |>.

(** The two bytes of a condition: its flag and its counter. *)
Definition set_pair (image : list Z) (flag_offset : Z) (on : bool) (count : Z) : list Z :=
  if flag_offset + 1 <? Z.of_nat (List.length image)
  then aset (aset image flag_offset (Z_of_bool on)) (flag_offset + 1) count else image.
Definition set_condition (m : MeteringBanks) (bank flag_offset : Z) (on : bool) (count : Z) : MeteringBanks :=
  if bank =? BANK_CONTROL_GEAR_DIAGNOSTICS
  then m <| mb_control_gear := set_pair (mb_control_gear m) flag_offset on count |>
  else if bank =? BANK_LIGHT_SOURCE_DIAGNOSTICS
  then m <| mb_light_source := set_pair (mb_light_source m) flag_offset on count |>
  else m.

(** ** Properties

    *** Values *)

Lemma shl_lor_byte x b : 0 <= x < 2 ^ 56 -> in_u 8 b -> Z.lor (shl 64 x 8) b = 256 * x + b.
Proof.
  intros Hx Hb. unfold shl. rewrite Z.shiftl_mul_pow2 by lia. rewrite wrap_id by (unfold in_u; lia).
  rewrite lor_disjoint by (auto; lia). lia.
Qed.

Lemma byte_at_spec raw k : 0 <= k -> Z.land (Z.shiftr raw k) 0xFF = raw / 2 ^ k mod 256.
Proof.
  intros Hk. change 0xFF with (Z.ones 8). rewrite Z.land_ones by lia. now rewrite Z.shiftr_div_pow2 by lia.
Qed.

Definition be_bytes (n : nat) (raw : Z) : list Z :=
  map (fun i => raw / 256 ^ (Z.of_nat n - 1 - i) mod 256) (seqZ 0 (Z.of_nat n)).

Lemma be_bytes_S n raw : be_bytes (S n) raw = be_bytes n (raw / 256) ++ [raw mod 256].
Proof.
  unfold be_bytes. rewrite seqZ_S, map_app. cbn [map]. rewrite Z.add_0_l. f_equal.
  - apply map_ext_in. intros i Hi. apply list_elem_of_In, elem_of_seqZ in Hi.
    replace (Z.of_nat (S n) - 1 - i) with (1 + (Z.of_nat n - 1 - i)) by lia.
    rewrite Z.pow_add_r, Z.div_div by (try apply Z.pow_pos_nonneg; lia). reflexivity.
  - replace (Z.of_nat (S n) - 1 - Z.of_nat n) with 0 by lia. now rewrite Z.pow_0_r, Z.div_1_r.
Qed.

Lemma be_fold_bytes n : (n <= 7)%nat -> forall raw, 0 <= raw < 256 ^ Z.of_nat n -> be_fold (be_bytes n raw) = raw.
Proof.
  induction n as [|n IH]; intros Hn raw Hraw; [change (0 = raw); change (0 <= raw < 1) in Hraw; lia|].
  rewrite be_bytes_S. unfold be_fold in *. rewrite fold_left_app. cbn [fold_left].
  rewrite Nat2Z.inj_succ, Z.pow_succ_r in Hraw by lia.
  assert (0 <= raw / 256 < 256 ^ Z.of_nat n) by (split; [apply Z.div_pos; lia|apply Z.div_lt_upper_bound; lia]).
  rewrite IH by (auto; lia).
  rewrite shl_lor_byte; [pose proof (Z.div_mod raw 256); lia| |apply Z.mod_pos_bound; lia].
  assert (256 ^ Z.of_nat n <= 256 ^ 6) by (apply Z.pow_le_mono_r; lia).
  change (2 ^ 56) with (256 ^ 6 * 256). nia.
Qed.

Lemma encode_bytes_be raw w : encode_bytes raw w = be_bytes (Z.to_nat (width_bytes w)) raw.
Proof.
  unfold encode_bytes, be_bytes. assert (0 <= width_bytes w) by (destruct w; cbn; lia).
  rewrite Z2Nat.id by lia. apply map_ext_in. intros i Hi. apply list_elem_of_In, elem_of_seqZ in Hi.
  rewrite byte_at_spec by lia. now rewrite Z.pow_mul_r by lia.
Qed.

(** Encoding and reading a value back classifies it. *)
Lemma value_roundtrip raw w out :
  0 <= raw < 2 ^ (8 * width_bytes w) -> width_bytes w <= Z.of_nat (List.length out) ->
  read_value (encode_value raw w out) 0 w = Some (classify raw w).
Proof.
  intros Hraw Hout. assert (0 <= width_bytes w <= 6) as Hw by (destruct w; cbn; lia).
  assert (List.length (encode_bytes raw w) = Z.to_nat (width_bytes w)) as Hlen
    by (unfold encode_bytes; rewrite length_map, length_seqZ; lia).
  unfold read_value, encode_value, slice. rewrite length_app, length_drop, take_ge by lia.
  rewrite (proj2 (andb_true_iff _ _)) by (split; lia). do 2 f_equal.
  rewrite drop_0, take_app_le, take_ge by lia.
  rewrite encode_bytes_be. apply be_fold_bytes; [lia|].
  rewrite Z2Nat.id by lia. now rewrite Z.pow_mul_r in Hraw by lia.
Qed.

(** *** Chunks *)

Fixpoint contiguous (start : Z) (l : list BankField) : Prop :=
  match l with
  | [] => True
  | f :: l => fd_offset f = start /\ contiguous (start + width_bytes (fd_width f)) l
  end.

Fixpoint span (l : list BankField) : Z :=
  match l with [] => 0 | f :: l => width_bytes (fd_width f) + span l end.

Lemma width_bytes_pos w : 0 < width_bytes w.
Proof. destruct w; reflexivity. Qed.

Lemma span_nonneg l : 0 <= span l.
Proof. induction l as [|f l IH]; cbn; [lia|]. pose proof (width_bytes_pos (fd_width f)). lia. Qed.

Lemma span_app l l' : span (l ++ l') = span l + span l'.
Proof. induction l as [|f l IH]; cbn; [lia|]. rewrite IH. lia. Qed.

Lemma contiguous_app start l l' : contiguous start (l ++ l') <-> contiguous start l /\ contiguous (start + span l) l'.
Proof.
  revert start. induction l as [|f l IH]; intros start; cbn.
  - rewrite Z.add_0_r. tauto.
  - rewrite IH, Z.add_assoc. tauto.
Qed.

Lemma mapped_contiguous bank : contiguous 0 (bank_field_map bank).
Proof.
  unfold bank_field_map. repeat (case_match; try (now cbn); try (vm_compute; intuition reflexivity)).
Qed.

(** Fields before the offset are skipped. *)
Lemma chunk_loop_skip pre l start offset remaining budget :
  contiguous start pre -> start + span pre <= offset ->
  chunk_loop (pre ++ l) offset remaining budget 0 = chunk_loop l offset remaining budget 0.
Proof.
  revert start. induction pre as [|f pre IH]; intros start Hc Hs; [reflexivity|].
  cbn in *. destruct Hc as [-> Hc]. pose proof (width_bytes_pos (fd_width f)). pose proof (span_nonneg pre).
  rewrite (proj2 (Z.ltb_lt _ _)) by lia. apply (IH _ Hc). lia.
Qed.

(** From a field start on, the loop takes whole fields. *)
Lemma chunk_loop_takes l offset remaining budget : forall taken,
  0 <= taken -> contiguous (offset + taken) l ->
  exists pre post, l = pre ++ post /\ chunk_loop l offset remaining budget taken = taken + span pre /\
    (pre = [] \/ taken + span pre <= remaining) /\
    (taken + span pre <= Z.max taken budget \/ (taken = 0 /\ exists f, pre = [f])) /\
    (forall f l', l = f :: l' -> taken = 0 -> width_bytes (fd_width f) <= remaining -> pre <> []).
Proof.
  induction l as [|f l IH]; intros taken Ht Hc; cbn [chunk_loop].
  { exists [], []. cbn. repeat split; auto; try lia; discriminate. }
  destruct Hc as [Hf Hc]. rewrite Hf. pose proof (width_bytes_pos (fd_width f)).
  rewrite (proj2 (Z.ltb_ge _ _)), Z.eqb_refl by lia. cbn [negb].
  case_if.
  { exists [], (f :: l). cbn. repeat split; auto; try lia. intros ? ? [= <- <-]. lia. }
  case_if.
  { exists [], (f :: l). cbn. repeat split; auto; try lia. }
  assert (forall pre, f :: pre <> []) by discriminate.
  case_if.
  - exists [f], l. cbn. repeat split; auto; try lia.
    destruct (Z.ltb_spec 0 taken); [left|right; split; [lia|eauto]]. cbn in *. lia.
  - destruct (IH (taken + width_bytes (fd_width f))) as (pre & post & -> & -> & H1 & H2 & H3);
      [lia|now rewrite Z.add_assoc|].
    exists (f :: pre), post. cbn [span app]. split; [reflexivity|]. split; [lia|]. split; [|split].
    + right. destruct H1 as [->|]; cbn [span] in *; lia.
    + left. destruct H2 as [?|[? _]]; lia.
    + discriminate.
Qed.

Lemma find_field_start l f l' start :
  contiguous start (l ++ f :: l') -> find (field_holds (fd_offset f)) (l ++ f :: l') = Some f.
Proof.
  revert start. induction l as [|g l IH]; intros start Hc; cbn in *; destruct Hc as [Hg Hc].
  - unfold field_holds at 1. pose proof (width_bytes_pos (fd_width f)).
    now rewrite (proj2 (andb_true_iff _ _)) by (split; lia).
  - rewrite (IH _ Hc). pose proof (span_nonneg l). apply contiguous_app in Hc as [_ [Hf _]].
    unfold field_holds. rewrite (proj2 (andb_false_iff _ _)); [reflexivity|]. right. lia.
Qed.

Lemma field_containing_start start l f : contiguous start l -> f ∈ l -> find (field_holds (fd_offset f)) l = Some f.
Proof. intros Hc (l1 & l2 & ->)%list_elem_of_split. eapply find_field_start, Hc. Qed.

Lemma field_containing_end start l : contiguous start l -> find (field_holds (start + span l)) l = None.
Proof.
  intros Hc.
  enough (forall x, start + span l <= x -> find (field_holds x) l = None) by (apply H; lia).
  revert start Hc. induction l as [|f l IH]; intros start Hc x Hx; [reflexivity|].
  cbn in *. destruct Hc as [Hf Hc]. pose proof (span_nonneg l). unfold field_holds at 1.
  rewrite (proj2 (andb_false_iff _ _)) by (right; lia). apply (IH _ Hc). lia.
Qed.

(** C40: A read never splits a latched value.  On a mapped bank, a chunk that starts at
    a field and may hold it ends at a field's end, is within what remains, and
    is within its budget unless it is that one field. *)
Theorem chunk_whole_fields bank f remaining budget :
  f ∈ bank_field_map bank -> width_bytes (fd_width f) <= remaining -> 0 < budget ->
  let n := chunk_len bank (fd_offset f) remaining budget in
  0 < n <= remaining /\ is_field_boundary bank (fd_offset f + n) = true /\
  (n <= budget \/ n = width_bytes (fd_width f)).
Proof.
  intros Hf Hw Hb. pose proof (mapped_contiguous bank) as Hc.
  pose proof Hf as Hf'. apply list_elem_of_split in Hf as (l1 & l2 & E).
  pose proof Hc as Hc'. rewrite E in Hc'. apply contiguous_app in Hc' as [Hc1 Hc2].
  assert (fd_offset f = 0 + span l1) as Ho by apply Hc2.
  assert (chunk_loop (bank_field_map bank) (fd_offset f) remaining budget 0 =
          chunk_loop (f :: l2) (fd_offset f) remaining budget 0) as Eloop.
  { rewrite E. apply (chunk_loop_skip _ _ 0); [exact Hc1|lia]. }
  destruct (chunk_loop_takes (f :: l2) (fd_offset f) remaining budget 0) as (pre & post & Ep & El & H1 & H2 & H3);
    [lia|rewrite Z.add_0_r, Ho; exact Hc2|].
  specialize (H3 f l2 eq_refl eq_refl Hw). destruct pre as [|g pre]; [done|].
  injection Ep as <- ->. pose proof (width_bytes_pos (fd_width f)). pose proof (span_nonneg pre).
  assert (chunk_len bank (fd_offset f) remaining budget = span (f :: pre)) as En.
  { unfold chunk_len. destruct (bank_field_map bank) as [|g l]; [now destruct l1|].
    rewrite Eloop, El. cbn [span] in *. rewrite Z.add_0_l. case_if; [lia|reflexivity]. }
  cbn zeta. rewrite En. cbn [span] in *. split; [|split].
  - destruct H1 as [H1|H1]; [discriminate|]. lia.
  - unfold is_field_boundary, field_containing.
    assert (bank_field_map bank = (l1 ++ f :: pre) ++ post) as E2 by (rewrite E, <- app_assoc; reflexivity).
    pose proof Hc as Hc3. rewrite E2 in Hc3. apply contiguous_app in Hc3 as [Hc3 Hc4].
    rewrite span_app in Hc4. cbn in Hc4.
    replace (fd_offset f + (width_bytes (fd_width f) + span pre)) with (0 + span (l1 ++ f :: pre))
      by (rewrite span_app; cbn; lia).
    destruct post as [|g post].
    + rewrite app_nil_r in E2. rewrite E2, (field_containing_end 0); [reflexivity|exact Hc3].
    + assert (fd_offset g = 0 + span (l1 ++ f :: pre)) as Hg.
      { destruct Hc4 as [-> _]. rewrite span_app. cbn. lia. }
      rewrite <- Hg, (field_containing_start 0 _ g Hc); [apply Z.eqb_refl|].
      rewrite E2. apply elem_of_app. right. left.
  - destruct H2 as [H2|[_ [g [= <- ->]]]]; [left; lia|right; cbn; lia].
Qed.

Lemma chunk_whole_fields_witness :
  let n := chunk_len BANK_ACTIVE_ENERGY 0x05 12 8 in
  0 < n <= 12 /\ is_field_boundary BANK_ACTIVE_ENERGY (0x05 + n) = true /\ (n <= 8 \/ n = 6).
Proof.
  apply (chunk_whole_fields BANK_ACTIVE_ENERGY (MkField 0x05 U48) 12 8); [|cbn; lia|lia].
  apply list_elem_of_In. vm_compute. intuition.
Defined.

End Banks.
