(* ===== verification/Transport.v ===== *)
(** * The transport port and its errors

    Models [crates/dali2rust-platform/src/dali.rs] (outcomes of an exchange, the
    wire lease a background job yields by, the wire counters the controller
    bumps, the trait [DaliTransport]) and the error types of
    [crates/dali2rust-domain/src/dali/frame.rs].  The clock, the atomic arrival
    counters and the hold of another component change on their own: [World] is
    the environment they are read from, one reading at a time. *)

From Stdlib Require Import String.
From S2P Require Import Prelude RulesBase.

Module Transport.

Inductive TransferOutcome :=
  | OutAnswer (value : Z) | OutNoAnswer | OutCollision | OutBusBusy | OutForeignInWindow | OutCorruptedInWindow.

#[global] Instance TransferOutcome_eq_dec : EqDecision TransferOutcome.
Proof. solve_decision. Defined.

Inductive HoldCause := Passive | Quiescent.

#[global] Instance HoldCause_eq_dec : EqDecision HoldCause.
Proof. solve_decision. Defined.

Definition hold_message (c : HoldCause) : string :=
  match c with Passive => "controller_passive" | Quiescent => "controller_quiescent" end%string.

Inductive FrameError :=
  | BackwardTimeout | BackwardNack | Collision | BusBusy | TransportError | Preempted | Held (cause : HoldCause).

#[global] Instance FrameError_eq_dec : EqDecision FrameError.
Proof. solve_decision. Defined.

(** ** Leases *)

Inductive YieldGranularity := YgFrame | YgStep | YgNever.

(** The derived order of the declaration. *)
Definition granularity_index (g : YieldGranularity) : Z := match g with YgFrame => 0 | YgStep => 1 | YgNever => 2 end.
Definition granularity_max (a b : YieldGranularity) : YieldGranularity :=
  if granularity_index a <? granularity_index b then b else a.

Inductive WirePriority := Interactive | Attended | Unattended.
Definition wire_priority_index (p : WirePriority) : Z :=
  match p with Interactive => 0 | Attended => 1 | Unattended => 2 end.

Definition YIELDABLE_PRIORITIES : Z := 2.

(** The tickets are the arrival counters when the lease was taken; the gate
    itself is the environment. *)
Record WireLease := MkLease { lease_granularity : YieldGranularity; lease_tickets : list Z; lease_watched : Z }.

#[global] Instance eta_WireLease : Eta WireLease := fun l =>
  MkLease (lease_granularity l) (lease_tickets l) (lease_watched l).

Definition lease_new (tickets : list Z) (priority : WirePriority) (g : YieldGranularity) : WireLease :=
  MkLease g tickets (Z.min (wire_priority_index priority) YIELDABLE_PRIORITIES).

Definition no_finer_than (l : WireLease) (g : YieldGranularity) : WireLease :=
  l <| lease_granularity := granularity_max (lease_granularity l) g |>.

(** With [now] the counters read. *)
Definition should_yield (l : WireLease) (now : list Z) : bool :=
  negb (bool_decide (take (Z.to_nat (lease_watched l)) now = take (Z.to_nat (lease_watched l)) (lease_tickets l))).

(** ** The environment *)

Class World (W : Type) := {
  (** [Clock::monotonic_ms] *)
  monotonic_ms : W -> Z * W;
  (** [std::thread::sleep], in microseconds *)
  sleep_us : Z -> W -> W;
  (** [WireActivity::arrival_tickets] *)
  arrival_tickets : W -> list Z * W;
  (** [WireHold::held] of the installed hold *)
  held_now : W -> option HoldCause * W }.

(** ** Counters *)

(** The counters the controller of the runtime bumps. *)
Record DaliWireCounters := MkCounters {
  wc_transactions_started : Z; wc_transactions_completed : Z; wc_transactions_by_class : list Z;
  wc_transaction_reopened : Z; wc_transaction_should_exceedances : Z; wc_transaction_budget_exceeded : Z;
  wc_transaction_leaks : Z; wc_frames_sent_by_priority : list Z; wc_p1_window_late : Z; wc_bus_releases : Z;
  wc_bus_acquire_timeout : Z; wc_collisions : Z; wc_foreign_in_window : Z; wc_corrupted_in_window : Z;
  wc_exchange_retries : Z; wc_retry_exhausted : Z; wc_readback_groups_corrected : Z;
  wc_readback_colour_features_corrected : Z; wc_readback_extended_fade_corrected : Z; wc_program_repairs : Z;
  wc_send_twice_over_transmitter_max : Z; wc_send_twice_split : Z }.

#[global] Instance eta_DaliWireCounters : Eta DaliWireCounters := fun c =>
  MkCounters (wc_transactions_started c) (wc_transactions_completed c) (wc_transactions_by_class c)
    (wc_transaction_reopened c) (wc_transaction_should_exceedances c) (wc_transaction_budget_exceeded c)
    (wc_transaction_leaks c) (wc_frames_sent_by_priority c) (wc_p1_window_late c) (wc_bus_releases c)
    (wc_bus_acquire_timeout c) (wc_collisions c) (wc_foreign_in_window c) (wc_corrupted_in_window c)
    (wc_exchange_retries c) (wc_retry_exhausted c) (wc_readback_groups_corrected c)
    (wc_readback_colour_features_corrected c) (wc_readback_extended_fade_corrected c) (wc_program_repairs c)
    (wc_send_twice_over_transmitter_max c) (wc_send_twice_split c).

Definition counters_default : DaliWireCounters :=
  MkCounters 0 0 [0; 0; 0; 0] 0 0 0 0 [0; 0; 0; 0; 0] 0 0 0 0 0 0 0 0 0 0 0 0 0 0.

(** [fetch_add(1, Relaxed)] on an [AtomicU32]. *)
Definition bump32 (n : Z) : Z := wrapping_add 32 n 1.

(** [slot.fetch_add] on [array.get(index)]: nothing out of range. *)
Definition bump_slot (l : list Z) (index : Z) : list Z :=
  if index <? 0 then l else match aget l index with Some n => aset l index (bump32 n) | None => l end.

Definition note_frame_sent (c : DaliWireCounters) (priority : Z) : DaliWireCounters :=
  c <| wc_frames_sent_by_priority := bump_slot (wc_frames_sent_by_priority c) (priority - 1) |>.

Definition note_transaction_started (c : DaliWireCounters) (class : Z) : DaliWireCounters :=
  c <| wc_transactions_started := bump32 (wc_transactions_started c) |>
    <| wc_transactions_by_class := bump_slot (wc_transactions_by_class c) (class - 2) |>.

(** ** The load of the wire *)

Definition WIRE_LOAD_FULL_PERMILLE : Z := 1000.

Record WireLoadWindow := MkWindow {
  ww_last_total : Z; ww_last_active : Z; ww_last_tx : Z; ww_primed : bool; ww_min_ticks : Z }.

#[global] Instance eta_WireLoadWindow : Eta WireLoadWindow := fun w =>
  MkWindow (ww_last_total w) (ww_last_active w) (ww_last_tx w) (ww_primed w) (ww_min_ticks w).

Definition window_new (min_ticks : Z) : WireLoadWindow := MkWindow 0 0 0 false min_ticks.

Definition permille_of (part whole : Z) : Z :=
  Z.min (part * WIRE_LOAD_FULL_PERMILLE / Z.max whole 1) WIRE_LOAD_FULL_PERMILLE.

Definition rebase (w : WireLoadWindow) (total active tx : Z) : WireLoadWindow :=
  w <| ww_last_total := total |> <| ww_last_active := active |> <| ww_last_tx := tx |>.

(** [(permille, own_permille)] of the [WireLoad]. *)
Definition wire_load_sample (w : WireLoadWindow) (total active tx : Z) : option (Z * Z) * WireLoadWindow :=
  if negb (ww_primed w) then (None, rebase w total active tx <| ww_primed := true |>)
  else
    let d_total := wrapping_sub 32 total (ww_last_total w) in
    if d_total <? Z.max (ww_min_ticks w) 1 then (None, w)
    else
      let d_active := wrapping_sub 32 active (ww_last_active w) in
      let d_tx := wrapping_sub 32 tx (ww_last_tx w) in
      let permille := permille_of d_active d_total in
      (Some (permille, Z.min (permille_of d_tx d_total) permille), rebase w total active tx).

(** ** The trait [DaliTransport] *)

(** The operations the controller uses.  Transports run in the environment: an
    exchange takes time.  [None] is the transport's error, which the controller
    maps to [TransportError] whatever it is. *)
Class DaliTransport (W T : Type) := {
  exchange_frame_with_settle : Z -> bool -> Z -> T * W -> option TransferOutcome * (T * W);
  exchange_frame24_with_settle : Z * Z * Z -> bool -> Z -> T * W -> option TransferOutcome * (T * W);
  supports_frame24 : T -> bool;
  foreign_activity : T -> Z;
  honours_settle : T -> bool;
  last_tx_settle_ticks : T -> option Z }.

(** ** Properties *)

(** A lease never becomes finer: narrowing it keeps every guarantee against
    being interrupted, and it yields exactly when a watched class has arrived. *)
Lemma no_finer_than_spec l g :
  granularity_index (lease_granularity l) <= granularity_index (lease_granularity (no_finer_than l g)) /\
  granularity_index g <= granularity_index (lease_granularity (no_finer_than l g)) /\
  (forall now, should_yield (no_finer_than l g) now = should_yield l now).
Proof. destruct l as [gr tk w]; destruct gr, g; cbn; repeat split; intros; lia || reflexivity. Qed.

(** A sample of the load never reports more than full load, nor more of its own
    than of all, and divides by a positive time whatever the counters hold. *)
Lemma wire_load_bounds w total active tx p own :
  fst (wire_load_sample w total active tx) = Some (p, own) -> 0 <= own <= p /\ p <= WIRE_LOAD_FULL_PERMILLE.
Proof.
  assert (forall part whole, 0 <= part -> 0 <= permille_of part whole <= 1000) as Hp.
  { intros part whole Hp. unfold permille_of, WIRE_LOAD_FULL_PERMILLE.
    assert (0 <= part * 1000 / Z.max whole 1) by (apply Z.div_pos; lia). lia. }
  assert (forall a b, 0 <= wrapping_sub 32 a b) as Hw.
  { intros a b. destruct (wrap_range 32 (a - b)) as [? _]; [lia|assumption]. }
  unfold wire_load_sample. case_if; [discriminate|]. case_if; [discriminate|]. cbn. intros [= <- <-].
  unfold WIRE_LOAD_FULL_PERMILLE.
  pose proof (Hp _ (wrapping_sub 32 total (ww_last_total w)) (Hw active (ww_last_active w))).
  pose proof (Hp _ (wrapping_sub 32 total (ww_last_total w)) (Hw tx (ww_last_tx w))). lia.
Qed.

End Transport.
