(* ===== verification/GearModel.v ===== *)
(** * The model of one control gear

    Models [crates/dali2rust-gear-model/src]: [gear.rs] (a gear's state, its
    levels, colours, scenes, groups, memory banks and answers), [switching.rs]
    (device type 7) and [rng.rs] (the xorshift generator). *)

From Stdlib Require Import String.
From S2P Require Import Prelude RulesBase Gear GearCommand GearState Transport Banks.

Module GearModel.
Import Gear GearCommand GearState Transport Banks.

(** ** The generator ([rng.rs]) *)

(** [Rng(u32)] is its word. *)
Definition rng_new (seed : Z) : Z := if seed =? 0 then 0x9E3779B9 else seed.

Definition next_u32 (x : Z) : Z * Z :=
  let x := Z.lxor x (shl 32 x 13) in
  let x := Z.lxor x (Z.shiftr x 17) in
  let x := Z.lxor x (shl 32 x 5) in
  (x, x).

Definition next_24 (r : Z) : Z * Z := let '(v, r) := next_u32 r in (Z.land v 0x00FFFFFF, r).

Definition chance_permille (permille r : Z) : bool * Z :=
  if permille =? 0 then (false, r) else let '(v, r) := next_u32 r in (v mod 1000 <? permille, r).

(** ** Constants *)

Definition DALI_YES : Z := 0xFF.
Definition SCENE_UNSET : Z := 0xFF.
Definition DAPC_MASK_LEVEL : Z := 0xFF.
Definition DEVICE_TYPE_LIST_END : Z := 254.
Definition DEVICE_TYPE_MULTIPLE : Z := 255.
Definition DEVICE_TYPE_LUMINAIRE_INFO : Z := 50.
Definition UP_DOWN_LEVEL_STEP : Z := 8.
Definition DEFAULT_MAX_LEVEL : Z := 254.
Definition DEFAULT_POWER_ON_LEVEL : Z := 254.
Definition DEFAULT_SYSTEM_FAILURE_LEVEL : Z := 254.
Definition DEFAULT_FADE_TIME : Z := 0.
Definition DEFAULT_FADE_RATE : Z := 7.
Definition EXTENDED_FADE_TIME_MAX : Z := 0x4F.
Definition PHYSICAL_MINIMUM : Z := 1.
Definition DT7_PHYSICAL_MINIMUM : Z := 254.
Definition VERSION_NUMBER_102 : Z := 0x08.
Definition VERSION_NUMBER_101 : Z := 0x08.
Definition LIGHT_SOURCE_LED : Z := 6.
Definition SHORT_ADDRESS_MASK : Z := 0x3F.
Definition SCENE_COUNT : Z := 16.
Definition GROUP_COUNT : Z := 16.
Definition MEMORY_BANK_IDENTITY : Z := 0.
Definition MEMORY_BANK_PROFILE : Z := 1.
Definition BANK0_LEN : Z := 0x1D.
Definition BANK0_BASE_LAST_OFFSET : Z := 0x1A.
Definition BANK0_EXTENDED_LAST_OFFSET : Z := 0x1C.
Definition BANK1_LEN : Z := 0x11.
Definition BANK0_LAST_BANK : Z := 1.
Definition BANK1_UNLOCKED : Z := 0x55.
Definition BANK_LOCK_BYTE : Z := 0x02.
Definition BUS_UNIT_CONFIGURATION_OFFSET : Z := 0x1B.
Definition IMPLEMENTED_PARTS_OFFSET : Z := 0x1C.
Definition LOGICAL_GEAR_UNITS_OFFSET : Z := 0x19.
Definition BANK0_LAST_BANK_OFFSET : Z := 0x02.
Definition BANK0_RESERVED_OFFSET : Z := 0x01.
Definition BANK1_LAST_OFFSET_OFFSET : Z := 0x00.
Definition INDICATOR_BYTE_OFFSET : Z := 0x01.
Definition OPERATING_MODE_STANDARD : Z := 0x00.
Definition MANUFACTURER_SPECIFIC_MODE_MIN : Z := 0x80.
Definition TC_COOLEST_MIREK : Z := 153.
Definition TC_WARMEST_MIREK : Z := 400.
Definition XY_STEP : Z := 256.
Definition XY_COORDINATE_MAX : Z := 0xFFFE.
Definition DEFAULT_RGBWAF_CHANNELS : Z := 3.

Definition COLOUR_TYPE_BYTE_XY : Z := 0x10.
Definition COLOUR_TYPE_BYTE_TC : Z := 0x20.
Definition COLOUR_TYPE_BYTE_RGBWAF : Z := 0x80.
Definition COLOUR_TYPE_BYTE_MASK : Z := 0xFF.
Definition COLOUR_VALUE_MASK : Z := 0xFFFF.
Definition COLOUR_VALUE_LEVEL_MASK : Z := 0xFF.
Definition COLOUR_STATUS_TC_OUT_OF_RANGE : Z := 0x02.
Definition RGBWAF_CONTROL_MASK : Z := 0xFF.
Definition RGBWAF_CONTROL_TYPE_MASK : Z := 0xC0.
Definition RGBWAF_CONTROL_ALL_CHANNELS : Z := 0x3F.
Definition RGBWAF_CONTROL_POWER_UP_DEFAULT : Z := 0x3F.
Definition GEAR_FEATURES_POWER_UP_DEFAULT : Z := 0x01.

(** ** Data *)

Record GearSpec := MkGearSpec {
  sp_short_address : option Z; sp_random_address : Z; sp_device_types : list Z; sp_tc_capable : bool;
  sp_xy_capable : bool; sp_rgbwaf_channels : Z; sp_tc_coolest_mirek : Z; sp_tc_warmest_mirek : Z; sp_phm : Z;
  sp_energy_reporting : bool; sp_diagnostics_reporting : bool; sp_bus_unit_extension : bool;
  sp_luminaire_format : option LuminaireFormat; sp_holds_dtr0_on_unimplemented : bool;
  sp_indicator_byte_unimplemented : bool; sp_switching_features : Z; sp_switching_gear_type : Z }.

#[global] Instance eta_GearSpec : Eta GearSpec := fun s =>
  MkGearSpec (sp_short_address s) (sp_random_address s) (sp_device_types s) (sp_tc_capable s) (sp_xy_capable s)
    (sp_rgbwaf_channels s) (sp_tc_coolest_mirek s) (sp_tc_warmest_mirek s) (sp_phm s) (sp_energy_reporting s)
    (sp_diagnostics_reporting s) (sp_bus_unit_extension s) (sp_luminaire_format s)
    (sp_holds_dtr0_on_unimplemented s) (sp_indicator_byte_unimplemented s) (sp_switching_features s)
    (sp_switching_gear_type s).

Definition spec_dt6 (short_address : option Z) (random_address : Z) : GearSpec :=
  MkGearSpec short_address random_address [code Led] false false 0 TC_COOLEST_MIREK TC_WARMEST_MIREK PHYSICAL_MINIMUM
    false false false None false false 0 0.

(** [caps] is [(tc_capable, xy_capable, rgb_capable)]. *)
Definition spec_dt8 (short_address : option Z) (random_address : Z) (caps : bool * bool * bool) (tc_range : Z * Z) :
    GearSpec :=
  let '(tc_capable, xy_capable, rgb_capable) := caps in
  MkGearSpec short_address random_address [code Color] tc_capable xy_capable
    (if rgb_capable : bool then DEFAULT_RGBWAF_CHANNELS else 0) (fst tc_range) (snd tc_range) PHYSICAL_MINIMUM
    false false false None false false 0 0.

Definition spec_dt7 (short_address : option Z) (random_address features gear_type : Z) : GearSpec :=
  spec_dt6 short_address random_address
    <| sp_device_types := [code Switching] |> <| sp_phm := DT7_PHYSICAL_MINIMUM |>
    <| sp_switching_features := features |> <| sp_switching_gear_type := gear_type |>.

Definition rgb_capable (s : GearSpec) : bool := 0 <? sp_rgbwaf_channels s.

(** [Vec::contains] *)
Definition has_type (types : list Z) (t : Z) : bool := existsb (fun x => x =? t) types.

Definition with_metering (s : GearSpec) (energy diagnostics : bool) : GearSpec :=
  let s := s <| sp_energy_reporting := energy |> <| sp_diagnostics_reporting := diagnostics |> in
  let s := if energy && negb (has_type (sp_device_types s) DEVICE_TYPE_ENERGY)
           then s <| sp_device_types := sp_device_types s ++ [DEVICE_TYPE_ENERGY] |> else s in
  if diagnostics && negb (has_type (sp_device_types s) DEVICE_TYPE_DIAGNOSTICS)
  then s <| sp_device_types := sp_device_types s ++ [DEVICE_TYPE_DIAGNOSTICS] |> else s.

Inductive ColorMode := CmNone | CmCct | CmXy | CmRgb.

#[global] Instance ColorMode_eq_dec : EqDecision ColorMode.
Proof. solve_decision. Defined.

Record RgbwafState := MkRgbwaf { rg_pending_levels : list Z; rg_pending_control : Z; rg_levels : list Z; rg_control : Z }.

#[global] Instance eta_RgbwafState : Eta RgbwafState := fun r =>
  MkRgbwaf (rg_pending_levels r) (rg_pending_control r) (rg_levels r) (rg_control r).

Definition rgbwaf_at_power_up : RgbwafState :=
  MkRgbwaf (repeat 0 6) RGBWAF_CONTROL_MASK (repeat 0 6) RGBWAF_CONTROL_POWER_UP_DEFAULT.

Record ColourSetting := MkColour { cs_colour_type : Z; cs_x : Z; cs_y : Z; cs_tc : Z; cs_levels : list Z; cs_control : Z }.

#[global] Instance eta_ColourSetting : Eta ColourSetting := fun c =>
  MkColour (cs_colour_type c) (cs_x c) (cs_y c) (cs_tc c) (cs_levels c) (cs_control c).

Definition colour_mask : ColourSetting :=
  MkColour COLOUR_TYPE_BYTE_MASK COLOUR_VALUE_MASK COLOUR_VALUE_MASK COLOUR_VALUE_MASK
    (repeat COLOUR_VALUE_LEVEL_MASK 6) RGBWAF_CONTROL_MASK.

Definition factory_colour (s : GearSpec) : ColourSetting :=
  let colour_type :=
    if negb (has_type (sp_device_types s) (code Color)) then COLOUR_TYPE_BYTE_MASK
    else if sp_xy_capable s then COLOUR_TYPE_BYTE_XY
    else if sp_tc_capable s then COLOUR_TYPE_BYTE_TC
    else COLOUR_TYPE_BYTE_RGBWAF in
  colour_mask <| cs_colour_type := colour_type |>.

Record LevelSetting := MkLevelSetting { ls_level : Z; ls_colour : ColourSetting }.

#[global] Instance eta_LevelSetting : Eta LevelSetting := fun l => MkLevelSetting (ls_level l) (ls_colour l).

Definition level_factory (level : Z) (s : GearSpec) : LevelSetting := MkLevelSetting level (factory_colour s).

Definition colour_type_byte (m : ColorMode) : Z :=
  match m with
  | CmNone => COLOUR_TYPE_BYTE_MASK | CmXy => COLOUR_TYPE_BYTE_XY | CmCct => COLOUR_TYPE_BYTE_TC
  | CmRgb => COLOUR_TYPE_BYTE_RGBWAF
  end.

Record FaultInjection := MkFaults {
  fi_drop_answer_permille : Z; fi_forced_status : Z; fi_failure_status : Z; fi_memory_write_unstored : bool;
  fi_memory_write_holds_dtr0 : bool }.

Definition faults_default : FaultInjection := MkFaults 0 0 0 false false.

Record Heard := MkHeard { hd_executes : bool; hd_completed_pair : bool; hd_split : bool }.

Record PendingRandom := MkPendingRandom { pr_address : Z; pr_ready_at_ms : Z }.

(** *** Device type 7 ([switching.rs]) *)

Record SwitchingState := MkSwitching { sw_thresholds : list Z; sw_error_hold_off : Z; sw_switch_status : Z }.

#[global] Instance eta_SwitchingState : Eta SwitchingState := fun s =>
  MkSwitching (sw_thresholds s) (sw_error_hold_off s) (sw_switch_status s).

Definition FEATURE_ADJUSTABLE_THRESHOLDS : Z := 0x08.
Definition FEATURE_ADJUSTABLE_HOLD_OFF : Z := 0x10.
Definition FEATURE_REFERENCE_SYSTEM_POWER : Z := 0x40.
Definition SWITCH_STATUS_REFERENCE_FAILED : Z := 0x80.
Definition EXTENDED_VERSION_NUMBER_208 : Z := 1.
Definition MIN_LEVEL_LOWEST : Z := 1.
Definition DEFAULT_ERROR_HOLD_OFF : Z := 0.

Definition Threshold_ALL : list Threshold := [UpSwitchOn; UpSwitchOff; DownSwitchOn; DownSwitchOff].

Definition switching_factory (features : Z) : SwitchingState :=
  MkSwitching (map threshold_factory Threshold_ALL) DEFAULT_ERROR_HOLD_OFF
    (if has_bits features FEATURE_REFERENCE_SYSTEM_POWER then SWITCH_STATUS_REFERENCE_FAILED else 0).

Definition switching_threshold (s : SwitchingState) (t : Threshold) : Z :=
  default 0 (aget (sw_thresholds s) (threshold_index t)).

Definition switching_store (s : SwitchingState) (features : Z) (command : Dt7Command) (dtr0 : Z) : SwitchingState :=
  match command with
  | D7_StoreDtrAsThreshold t =>
      if has_bits features FEATURE_ADJUSTABLE_THRESHOLDS
      then s <| sw_thresholds := aset (sw_thresholds s) (threshold_index t) (within_range t dtr0) |> else s
  | D7_StoreDtrAsErrorHoldOffTime =>
      if has_bits features FEATURE_ADJUSTABLE_HOLD_OFF then s <| sw_error_hold_off := dtr0 |> else s
  | _ => s
  end.

(** *** The gear *)

Record ProfileBanks := MkProfileBanks { pb_bank0 : list Z; pb_bank1 : list Z; pb_luminaire : option LuminaireBank }.

#[global] Instance eta_ProfileBanks : Eta ProfileBanks := fun b =>
  MkProfileBanks (pb_bank0 b) (pb_bank1 b) (pb_luminaire b).

(** [Gear] is the module of the command sets; the struct [Gear] is [GearUnit]. *)
Record GearUnit := MkGear {
  g_spec : GearSpec; g_enabled : bool; g_level : Z; g_last_active_level : Z; g_min_level : Z; g_max_level : Z;
  g_power_on : LevelSetting; g_system_failure : LevelSetting; g_fade_time : Z; g_fade_rate : Z;
  g_extended_fade_time : Z; g_groups : Z; g_scenes : list Z; g_lamp_failure : bool; g_lamp_starting : bool;
  g_faults : FaultInjection; g_reset_state : bool; g_power_cycle_seen : bool; g_initialise : bool;
  g_withdrawn : bool; g_identifying : bool; g_switching : SwitchingState; g_dimming_curve : Z;
  g_write_enabled : bool; g_device_type_walk : option Z; g_limit_error : bool; g_pending_repeat : option Z;
  g_pending_random : option PendingRandom; g_executes_now : bool; g_color_mode : ColorMode;
  g_pending_mode : ColorMode; g_pending_x : Z; g_pending_y : Z; g_pending_ct : Z; g_rgbwaf : RgbwafState;
  g_color_x : Z; g_color_y : Z; g_color_ct : Z; g_tc_out_of_range : bool; g_tc_coolest_limit : Z;
  g_tc_warmest_limit : Z; g_scene_colours : list ColourSetting; g_report : ColourSetting; g_gear_features : Z;
  g_banks : ProfileBanks; g_metering : option MeteringBanks }.

#[global] Instance eta_GearUnit : Eta GearUnit := fun g =>
  MkGear (g_spec g) (g_enabled g) (g_level g) (g_last_active_level g) (g_min_level g) (g_max_level g) (g_power_on g)
    (g_system_failure g) (g_fade_time g) (g_fade_rate g) (g_extended_fade_time g) (g_groups g) (g_scenes g)
    (g_lamp_failure g) (g_lamp_starting g) (g_faults g) (g_reset_state g) (g_power_cycle_seen g) (g_initialise g)
    (g_withdrawn g) (g_identifying g) (g_switching g) (g_dimming_curve g) (g_write_enabled g)
    (g_device_type_walk g) (g_limit_error g) (g_pending_repeat g) (g_pending_random g) (g_executes_now g)
    (g_color_mode g) (g_pending_mode g) (g_pending_x g) (g_pending_y g) (g_pending_ct g) (g_rgbwaf g) (g_color_x g)
    (g_color_y g) (g_color_ct g) (g_tc_out_of_range g) (g_tc_coolest_limit g) (g_tc_warmest_limit g)
    (g_scene_colours g) (g_report g) (g_gear_features g) (g_banks g) (g_metering g).

(** ** Memory banks *)

(** The [n] low bytes of a number, most significant first. *)
Definition to_be (n : Z) (v : Z) : list Z :=
  map (fun i => Z.land (Z.shiftr v (8 * (n - 1 - i))) 0xFF) (seqZ 0 n).

(** [b[a..a + len].copy_from_slice(bytes)] *)
Definition copy_at (b : list Z) (a : Z) (bytes : list Z) : list Z :=
  take (Z.to_nat a) b ++ bytes ++ drop (Z.to_nat a + List.length bytes) b.

Definition build_bank0 (s : GearSpec) : list Z :=
  let b := zeros BANK0_LEN in
  let b := aset b 0 (if sp_bus_unit_extension s then BANK0_EXTENDED_LAST_OFFSET else BANK0_BASE_LAST_OFFSET) in
  let b := aset b 2 BANK0_LAST_BANK in
  let b := copy_at b 3 (to_be 6 (Z.lor 0x400000000000 (sp_random_address s))) in
  let b := aset (aset b 9 1) 10 4 in
  let b := copy_at b IDENTIFICATION_NUMBER_OFFSET (to_be 8 (0x5EED0000 + sp_random_address s)) in
  let b := aset (aset b 19 2) 20 0 in
  let b := aset (aset b 21 VERSION_NUMBER_101) 22 VERSION_NUMBER_102 in
  let b := aset (aset b 23 0) 24 0 in
  let b := aset (aset b LOGICAL_GEAR_UNITS_OFFSET 1) LOGICAL_GEAR_INDEX_OFFSET 0 in
  if sp_bus_unit_extension s
  then aset (aset b BUS_UNIT_CONFIGURATION_OFFSET 0) IMPLEMENTED_PARTS_OFFSET 1 else b.

Definition build_bank1 (s : GearSpec) : list Z :=
  let b := zeros BANK1_LEN in
  let b := aset (aset b 0 (BANK1_LEN - 1)) 2 BANK1_UNLOCKED in
  let b := copy_at b 3 (to_be 6 (Z.lor 0x0EE000000000 (sp_random_address s))) in
  copy_at b 9 (to_be 8 (Z.shiftl (sp_random_address s) 8)).

Definition build_luminaire (s : GearSpec) : option LuminaireBank :=
  option_map (fun format => luminaire_new (sp_random_address s) format (sp_tc_capable s)) (sp_luminaire_format s).

Definition build_metering (s : GearSpec) : option MeteringBanks :=
  if sp_energy_reporting s || sp_diagnostics_reporting s
  then Some (metering_new (sp_random_address s) (sp_energy_reporting s) (sp_diagnostics_reporting s)) else None.

Definition profile_build (s : GearSpec) : ProfileBanks := MkProfileBanks (build_bank0 s) (build_bank1 s) (build_luminaire s).

Definition identity_location (g : GearUnit) (offset : Z) : option Z :=
  if default 0 (aget (pb_bank0 (g_banks g)) 0) <? offset then None
  else if offset =? BANK0_RESERVED_OFFSET then None
  else match aget (pb_bank0 (g_banks g)) offset with
       | None => None
       | Some raw =>
           if negb (offset =? BANK0_LAST_BANK_OFFSET) then Some raw
           else Some (match g_metering g with Some m => last_accessible_bank m raw | None => raw end)
       end.

Definition profile_location (g : GearUnit) (offset : Z) : option Z :=
  if offset =? BANK1_LAST_OFFSET_OFFSET
  then Some (match pb_luminaire (g_banks g) with Some l => lb_last_accessible l | None => BANK1_LEN - 1 end)
  else match pb_luminaire (g_banks g) with
       | Some l => if LUMINAIRE_FIRST_OFFSET <=? offset then luminaire_location l offset
                   else aget (pb_bank1 (g_banks g)) offset
       | None => aget (pb_bank1 (g_banks g)) offset
       end.

Definition profile_writable (g : GearUnit) (offset : Z) : bool :=
  let last := default 0 (profile_location g 0) in
  let unlocked := default 0 (aget (pb_bank1 (g_banks g)) BANK_LOCK_BYTE) =? BANK1_UNLOCKED in
  (BANK_LOCK_BYTE <=? offset) && (offset <=? last) && ((offset =? BANK_LOCK_BYTE) || unlocked).

Definition store_profile (g : GearUnit) (offset value : Z) : GearUnit :=
  let store_bank1 := g <| g_banks := g_banks g <| pb_bank1 := aset (pb_bank1 (g_banks g)) offset value |> |> in
  match pb_luminaire (g_banks g) with
  | Some l => if LUMINAIRE_FIRST_OFFSET <=? offset
              then g <| g_banks := g_banks g <| pb_luminaire := Some (luminaire_store l offset value) |> |>
              else store_bank1
  | None => store_bank1
  end.

Definition write_memory_location (g : GearUnit) (bank offset value : Z) : option Z * GearUnit :=
  if negb (bank =? MEMORY_BANK_PROFILE) || negb (profile_writable g offset) then (None, g)
  else (Some value, if fi_memory_write_unstored (g_faults g) then g else store_profile g offset value).

Definition lacks_indicator_byte (g : GearUnit) (bank offset : Z) : bool :=
  sp_indicator_byte_unimplemented (g_spec g) && negb (bank =? MEMORY_BANK_IDENTITY) && (offset =? INDICATOR_BYTE_OFFSET).

Definition memory_location (g : GearUnit) (bank offset : Z) : option Z :=
  if lacks_indicator_byte g bank offset then None
  else if bank =? MEMORY_BANK_IDENTITY then identity_location g offset
  else if bank =? MEMORY_BANK_PROFILE then profile_location g offset
  else match g_metering g with Some m => metering_location m bank offset | None => None end.

Definition implements_bank (g : GearUnit) (bank : Z) : bool :=
  if (bank =? MEMORY_BANK_IDENTITY) || (bank =? MEMORY_BANK_PROFILE) then true
  else match g_metering g with Some m => metering_implements_bank m bank | None => false end.

Definition advances_dtr0_past (g : GearUnit) (bank offset : Z) : bool :=
  implements_bank g bank && (negb (sp_holds_dtr0_on_unimplemented (g_spec g)) || is_some (memory_location g bank offset)).

(** ** Creation and power *)

Definition gear_new (s : GearSpec) : GearUnit := {|
  g_spec := s; g_enabled := true; g_level := 0; g_last_active_level := DEFAULT_MAX_LEVEL; g_min_level := sp_phm s;
  g_max_level := DEFAULT_MAX_LEVEL; g_power_on := level_factory DEFAULT_POWER_ON_LEVEL s;
  g_system_failure := level_factory DEFAULT_SYSTEM_FAILURE_LEVEL s; g_fade_time := DEFAULT_FADE_TIME;
  g_fade_rate := DEFAULT_FADE_RATE; g_extended_fade_time := 0; g_groups := 0;
  g_scenes := repeat SCENE_UNSET (Z.to_nat SCENE_COUNT); g_lamp_failure := false; g_lamp_starting := false;
  g_faults := faults_default; g_reset_state := true; g_power_cycle_seen := true; g_initialise := false;
  g_withdrawn := false; g_identifying := false; g_switching := switching_factory (sp_switching_features s);
  g_dimming_curve := 0; g_write_enabled := false; g_device_type_walk := None; g_limit_error := false;
  g_pending_repeat := None; g_pending_random := None; g_executes_now := false; g_color_mode := CmNone;
  g_pending_mode := CmNone; g_pending_x := 0; g_pending_y := 0; g_pending_ct := 0; g_rgbwaf := rgbwaf_at_power_up;
  g_color_x := 0; g_color_y := 0; g_color_ct := 0; g_tc_out_of_range := false;
  g_tc_coolest_limit := sp_tc_coolest_mirek s; g_tc_warmest_limit := sp_tc_warmest_mirek s;
  g_scene_colours := repeat colour_mask (Z.to_nat SCENE_COUNT); g_report := colour_mask;
  g_gear_features := GEAR_FEATURES_POWER_UP_DEFAULT; g_banks := profile_build s; g_metering := build_metering s |}.

Definition gear_power_cycle (g : GearUnit) : GearUnit :=
  let g := if negb (ls_level (g_power_on g) =? DAPC_MASK_LEVEL)
           then g <| g_level := ls_level (g_power_on g) |> else g in
  g <| g_last_active_level := g_max_level g |> <| g_power_cycle_seen := true |> <| g_limit_error := false |>
    <| g_initialise := false |> <| g_withdrawn := false |> <| g_identifying := false |>
    <| g_write_enabled := false |> <| g_pending_repeat := None |> <| g_pending_random := None |>
    <| g_rgbwaf := rgbwaf_at_power_up |> <| g_pending_mode := CmNone |> <| g_report := colour_mask |>
    <| g_gear_features := GEAR_FEATURES_POWER_UP_DEFAULT |>.

Definition set_metering (g : GearUnit) (energy diagnostics : bool) : GearUnit :=
  let types := List.filter (fun t => negb (t =? DEVICE_TYPE_ENERGY) && negb (t =? DEVICE_TYPE_DIAGNOSTICS))
                 (sp_device_types (g_spec g)) in
  let types := if energy then types ++ [DEVICE_TYPE_ENERGY] else types in
  let types := if diagnostics then types ++ [DEVICE_TYPE_DIAGNOSTICS] else types in
  let s := g_spec g <| sp_energy_reporting := energy |> <| sp_diagnostics_reporting := diagnostics |>
             <| sp_device_types := types |> in
  g <| g_spec := s |> <| g_metering := build_metering s |>.

Definition set_luminaire_format (g : GearUnit) (format : option LuminaireFormat) : GearUnit :=
  let types := List.filter (fun t => negb (t =? DEVICE_TYPE_LUMINAIRE_INFO)) (sp_device_types (g_spec g)) in
  let types := if is_some format then types ++ [DEVICE_TYPE_LUMINAIRE_INFO] else types in
  let s := g_spec g <| sp_luminaire_format := format |> <| sp_device_types := types |> in
  g <| g_spec := s |> <| g_banks := profile_build s |>.

Definition set_bus_unit_extension (g : GearUnit) (enabled : bool) : GearUnit :=
  let s := g_spec g <| sp_bus_unit_extension := enabled |> in
  g <| g_spec := s |> <| g_banks := g_banks g <| pb_bank0 := build_bank0 s |> |>.

Definition set_bank1_lock_byte (g : GearUnit) (value : Z) : GearUnit :=
  g <| g_banks := g_banks g <| pb_bank1 := aset (pb_bank1 (g_banks g)) BANK_LOCK_BYTE value |> |>.
Definition set_bank1_location (g : GearUnit) (offset value : Z) : GearUnit := store_profile g offset value.

Definition with_bank0 (g : GearUnit) (b : list Z) : GearUnit := g <| g_banks := g_banks g <| pb_bank0 := b |> |>.
Definition set_logical_gear_unit (g : GearUnit) (units index : Z) : GearUnit :=
  with_bank0 g (aset (aset (pb_bank0 (g_banks g)) LOGICAL_GEAR_UNITS_OFFSET units) LOGICAL_GEAR_INDEX_OFFSET index).
Definition set_bank0_last_offset (g : GearUnit) (last : Z) : GearUnit := with_bank0 g (aset (pb_bank0 (g_banks g)) 0 last).
Definition clear_identification_number (g : GearUnit) : GearUnit :=
  with_bank0 g (copy_at (pb_bank0 (g_banks g)) IDENTIFICATION_NUMBER_OFFSET
                  (repeat MASK (Z.to_nat IDENTIFICATION_NUMBER_LEN))).

(** ** Addressing and hearing *)

Definition opt_is (o : option Z) (v : Z) : bool := match o with Some x => x =? v | None => false end.

Definition gear_matches (g : GearUnit) (a : DaliAddress) : bool :=
  if negb (g_enabled g) then false
  else match a with
       | Short short => opt_is (sp_short_address (g_spec g)) short
       | Group group => has_bits (g_groups g) (shl 16 1 group)
       | Broadcast => true
       | BroadcastUnaddressed => negb (is_some (sp_short_address (g_spec g)))
       end.

Definition is_dt8 (g : GearUnit) : bool := has_type (sp_device_types (g_spec g)) (code Color).
Definition is_dt6 (g : GearUnit) : bool := has_type (sp_device_types (g_spec g)) (code Led).
Definition is_dt7 (g : GearUnit) : bool := has_type (sp_device_types (g_spec g)) (code Switching).

Definition gear_holds (g : GearUnit) (frame : Z) : bool := opt_is (g_pending_repeat g) frame.

Definition gear_hear (g : GearUnit) (frame : Z) (repeats : bool) : Heard * GearUnit :=
  if opt_is (g_pending_repeat g) frame
  then (MkHeard true true false, g <| g_pending_repeat := None |>)
  else (MkHeard (negb repeats) false (is_some (g_pending_repeat g)),
        g <| g_pending_repeat := if repeats then Some frame else None |>).

Definition cancel_device_type_walk (g : GearUnit) : GearUnit := g <| g_device_type_walk := None |>.

Definition hear_elsewhere (g : GearUnit) : bool * GearUnit :=
  (is_some (g_pending_repeat g), g <| g_device_type_walk := None |> <| g_pending_repeat := None |>).

(** ** Levels *)

(** [Ord::clamp]; Rust panics when [lo > hi], which [clamp_ok] below excludes. *)
Definition clamp (v lo hi : Z) : Z := if v <? lo then lo else if hi <? v then hi else v.

Definition set_level (g : GearUnit) (level : Z) : GearUnit :=
  let g := g <| g_level := if level =? 0 then 0 else clamp level (g_min_level g) (g_max_level g) |> in
  let g := g <| g_limit_error := negb (level =? 0) && negb (g_level g =? level) |> in
  if 0 <? g_level g then g <| g_last_active_level := g_level g |> else g.

Definition levels_fixed (g : GearUnit) : bool :=
  is_dt7 g && negb (has_bits (sp_switching_features (g_spec g)) FEATURE_ADJUSTABLE_THRESHOLDS).
Definition min_level_floor (g : GearUnit) : Z := if is_dt7 g then MIN_LEVEL_LOWEST else sp_phm (g_spec g).

Definition readjust_level_into_bounds (g : GearUnit) : GearUnit :=
  if g_level g =? 0 then g
  else
    let clamped := clamp (g_level g) (g_min_level g) (g_max_level g) in
    if negb (clamped =? g_level g)
    then g <| g_level := clamped |> <| g_last_active_level := clamped |> <| g_limit_error := true |> else g.

Definition set_min_level (g : GearUnit) (dtr0 : Z) : GearUnit :=
  if levels_fixed g then g
  else
    let floor := min_level_floor g in
    let level := if dtr0 <=? floor then floor else if g_max_level g <=? dtr0 then g_max_level g else dtr0 in
    readjust_level_into_bounds (g <| g_min_level := level |>).

Definition set_max_level (g : GearUnit) (dtr0 : Z) : GearUnit :=
  let level := if dtr0 <=? g_min_level g then g_min_level g else if dtr0 =? DAPC_MASK_LEVEL then 0xFE else dtr0 in
  readjust_level_into_bounds (g <| g_max_level := level |>).

Definition apply_dapc (g : GearUnit) (level : Z) : GearUnit :=
  let g := g <| g_power_cycle_seen := false |> in
  if negb (level =? DAPC_MASK_LEVEL) then set_level g level else g.

Definition level_up (g : GearUnit) (delta : Z) : GearUnit :=
  if 0 <? g_level g then set_level g (sat_add 8 (g_level g) delta) else g.
Definition level_down (g : GearUnit) (delta : Z) : GearUnit :=
  if 0 <? g_level g then set_level g (Z.max (sat_sub (g_level g) delta) (g_min_level g)) else g.
Definition step_down_and_off (g : GearUnit) : GearUnit :=
  if g_level g <=? g_min_level g then set_level g 0 else set_level g (sat_sub (g_level g) 1).
Definition on_and_step_up (g : GearUnit) : GearUnit :=
  if g_level g =? 0 then set_level g (g_min_level g) else set_level g (sat_add 8 (g_level g) 1).

(** ** Colour *)

Definition automatic_activation (g : GearUnit) : bool := gear_features_automatic_activation (g_gear_features g).

Definition effective_coolest (g : GearUnit) : Z :=
  if g_tc_coolest_limit g =? COLOUR_VALUE_MASK then sp_tc_coolest_mirek (g_spec g) else g_tc_coolest_limit g.
Definition effective_warmest (g : GearUnit) : Z :=
  if g_tc_warmest_limit g =? COLOUR_VALUE_MASK then sp_tc_warmest_mirek (g_spec g) else g_tc_warmest_limit g.

(** [self.rgbwaf.control &= !RGBWAF_CONTROL_ALL_CHANNELS] on a byte. *)
Definition unlink_all_channels (g : GearUnit) : GearUnit :=
  g <| g_rgbwaf := g_rgbwaf g <| rg_control := Z.land (rg_control (g_rgbwaf g)) 0xC0 |> |>.

Definition commit_pending_cct (g : GearUnit) : GearUnit :=
  let clamped := clamp (g_pending_ct g) (effective_coolest g) (effective_warmest g) in
  g <| g_color_mode := CmCct |> <| g_tc_out_of_range := negb (clamped =? g_pending_ct g) |> <| g_color_ct := clamped |>.

Definition commit_pending_rgbwaf (g : GearUnit) : GearUnit :=
  let r := g_rgbwaf g in
  let r := if negb (rg_pending_control r =? RGBWAF_CONTROL_MASK) then r <| rg_control := rg_pending_control r |> else r in
  g <| g_color_mode := CmRgb |> <| g_rgbwaf := r <| rg_levels := rg_pending_levels r |> |>.

Definition clear_pending_control (g : GearUnit) : GearUnit :=
  g <| g_rgbwaf := g_rgbwaf g <| rg_pending_control := RGBWAF_CONTROL_MASK |> |>.

Definition activate_pending_color (g : GearUnit) : GearUnit :=
  let g := match g_pending_mode g with
           | CmNone => g
           | CmXy => unlink_all_channels
                       (g <| g_color_mode := CmXy |> <| g_color_x := g_pending_x g |> <| g_color_y := g_pending_y g |>)
           | CmCct => unlink_all_channels (commit_pending_cct g)
           | CmRgb => commit_pending_rgbwaf g
           end in
  clear_pending_control (g <| g_pending_mode := CmNone |>).

Definition arc_power_activation (g : GearUnit) : GearUnit :=
  if automatic_activation g then activate_pending_color g else g.

Definition tc_step (g : GearUnit) (warmer : bool) : GearUnit :=
  if negb (bool_decide (g_color_mode g = CmCct)) then g
  else
    let stepped := if warmer then Z.min (sat_add 16 (g_color_ct g) 1) (effective_warmest g)
                   else Z.max (sat_sub (g_color_ct g) 1) (effective_coolest g) in
    g <| g_color_ct := stepped |> <| g_tc_out_of_range := false |>.

Definition xy_stepped (value : Z) (up : bool) : Z :=
  if up then Z.min (sat_add 16 value XY_STEP) XY_COORDINATE_MAX else sat_sub value XY_STEP.
Definition xy_step (g : GearUnit) (y_axis up : bool) : GearUnit :=
  if negb (bool_decide (g_color_mode g = CmXy)) then g
  else if y_axis then g <| g_color_y := xy_stepped (g_color_y g) up |>
  else g <| g_color_x := xy_stepped (g_color_x g) up |>.

Definition set_rendered_limit (g : GearUnit) (warmest : bool) (value : Z) : GearUnit :=
  if warmest then g <| g_tc_warmest_limit := value |> else g <| g_tc_coolest_limit := value |>.

Definition store_rendered_tc_limit (g : GearUnit) (warmest : bool) (value : Z) : GearUnit :=
  if value =? COLOUR_VALUE_MASK then set_rendered_limit g warmest COLOUR_VALUE_MASK
  else
    let clamped := clamp value (sp_tc_coolest_mirek (g_spec g)) (sp_tc_warmest_mirek (g_spec g)) in
    let g := set_rendered_limit g warmest clamped in
    let g := if warmest && (clamped <? effective_coolest g) then g <| g_tc_coolest_limit := clamped |> else g in
    if negb warmest && (effective_warmest g <? clamped) then g <| g_tc_warmest_limit := clamped |> else g.

(** One turn of the loop over [false, true]. *)
Definition bound_limit (floor ceil : Z) (g : GearUnit) (warm : bool) : GearUnit :=
  let effective := if warm then effective_warmest g else effective_coolest g in
  let bounded := clamp effective floor ceil in
  if negb (bounded =? effective) then set_rendered_limit g warm bounded else g.

Definition store_physical_tc_limit (g : GearUnit) (warmest : bool) (value : Z) : GearUnit :=
  if value =? COLOUR_VALUE_MASK then g
  else
    let s := g_spec g in
    let s := if warmest then s <| sp_tc_warmest_mirek := Z.max value (sp_tc_coolest_mirek s) |>
             else s <| sp_tc_coolest_mirek := Z.min value (sp_tc_warmest_mirek s) |> in
    let g := g <| g_spec := s |> in
    fold_left (bound_limit (sp_tc_coolest_mirek s) (sp_tc_warmest_mirek s)) [false; true] g.

Definition snap_color_ct (g : GearUnit) : GearUnit :=
  if bool_decide (g_color_mode g = CmCct) then
    let snapped := clamp (g_color_ct g) (effective_coolest g) (effective_warmest g) in
    if negb (snapped =? g_color_ct g) then g <| g_color_ct := snapped |> <| g_tc_out_of_range := true |> else g
  else g.

Definition store_tc_limit (g : GearUnit) (value selector : Z) : GearUnit :=
  match selector with
  | 0 => snap_color_ct (store_rendered_tc_limit g false value)
  | 1 => snap_color_ct (store_rendered_tc_limit g true value)
  | 2 => snap_color_ct (store_physical_tc_limit g false value)
  | 3 => snap_color_ct (store_physical_tc_limit g true value)
  | _ => g
  end.

Definition load_report_from_actual (g : GearUnit) : GearUnit :=
  g <| g_report :=
    match g_color_mode g with
    | CmNone => colour_mask
    | CmXy => colour_mask <| cs_colour_type := COLOUR_TYPE_BYTE_XY |> <| cs_x := g_color_x g |> <| cs_y := g_color_y g |>
    | CmCct => colour_mask <| cs_colour_type := COLOUR_TYPE_BYTE_TC |> <| cs_tc := g_color_ct g |>
    | CmRgb => colour_mask <| cs_colour_type := COLOUR_TYPE_BYTE_RGBWAF |> <| cs_levels := rg_levels (g_rgbwaf g) |>
                 <| cs_control := rg_control (g_rgbwaf g) |>
    end |>.

Definition load_report_from_scene (g : GearUnit) (scene : Z) : GearUnit :=
  g <| g_report := default colour_mask (aget (g_scene_colours g) scene) |>.

Definition load_report_from_level_colour (g : GearUnit) (command : StandardCommand) : GearUnit :=
  match command with
  | QueryPowerOnLevel => g <| g_report := ls_colour (g_power_on g) |>
  | QuerySystemFailureLevel => g <| g_report := ls_colour (g_system_failure g) |>
  | _ => g
  end.

Definition load_temporaries_from (g : GearUnit) (c : ColourSetting) : GearUnit :=
  if cs_colour_type c =? COLOUR_TYPE_BYTE_XY then
    clear_pending_control (g <| g_pending_mode := CmXy |> <| g_pending_x := cs_x c |> <| g_pending_y := cs_y c |>)
  else if cs_colour_type c =? COLOUR_TYPE_BYTE_TC then
    clear_pending_control (g <| g_pending_mode := CmCct |> <| g_pending_ct := cs_tc c |>)
  else if cs_colour_type c =? COLOUR_TYPE_BYTE_RGBWAF then
    g <| g_pending_mode := CmRgb |>
      <| g_rgbwaf := g_rgbwaf g <| rg_pending_levels := cs_levels c |> <| rg_pending_control := cs_control c |> |>
  else clear_pending_control (g <| g_pending_mode := CmNone |>).

Definition copy_report_to_temporary (g : GearUnit) : GearUnit := load_temporaries_from g (g_report g).

Definition take_staged_colour (g : GearUnit) : option ColourSetting * GearUnit :=
  let staged :=
    match g_pending_mode g with
    | CmNone => None
    | CmXy => Some (colour_mask <| cs_colour_type := COLOUR_TYPE_BYTE_XY |> <| cs_x := g_pending_x g |>
                      <| cs_y := g_pending_y g |>)
    | CmCct => Some (colour_mask <| cs_colour_type := COLOUR_TYPE_BYTE_TC |> <| cs_tc := g_pending_ct g |>)
    | CmRgb => Some (colour_mask <| cs_colour_type := COLOUR_TYPE_BYTE_RGBWAF |>
                       <| cs_levels := rg_pending_levels (g_rgbwaf g) |>
                       <| cs_control := rg_pending_control (g_rgbwaf g) |>)
    end in
  match staged with
  | None => (None, g)
  | Some c => (Some c, clear_pending_control (g <| g_pending_mode := CmNone |>))
  end.

Definition store_scene_colour (g : GearUnit) (scene : Z) : GearUnit :=
  match take_staged_colour g with
  | (None, g) => g
  | (Some staged, g) => g <| g_scene_colours := aset (g_scene_colours g) scene staged |>
  end.

Definition level_setting_with (l : LevelSetting) (level : Z) (staged : option ColourSetting) : LevelSetting :=
  let l := l <| ls_level := level |> in
  match staged with Some c => l <| ls_colour := c |> | None => l end.
Definition store_level_setting (g : GearUnit) (command : StandardCommand) (level : Z) : GearUnit :=
  let '(staged, g) := take_staged_colour g in
  match command with
  | SetPowerOnLevel => g <| g_power_on := level_setting_with (g_power_on g) level staged |>
  | SetSystemFailureLevel => g <| g_system_failure := level_setting_with (g_system_failure g) level staged |>
  | _ => g
  end.

(** ** Status *)

Definition failure_bits (g : GearUnit) : FailureStatusBits := decode_failure_status (fi_failure_status (g_faults g)).
Definition gear_thermal_shut_down (g : GearUnit) : bool := is_dt6 g && thermal_shut_down (failure_bits g).
Definition gear_lamp_on (g : GearUnit) : bool :=
  (0 <? g_level g) && negb (g_lamp_starting g) && negb (g_lamp_failure g) && negb (gear_thermal_shut_down g).
Definition lamp_failure_from_207 (g : GearUnit) : bool :=
  let b := failure_bits g in
  is_dt6 g && (short_circuit b || open_circuit b || load_decrease b || load_increase b || current_protector_active b).

Definition status_byte (g : GearUnit) : Z :=
  let raw := fi_forced_status (g_faults g) in
  let raw := or_if (g_lamp_failure g || lamp_failure_from_207 g) 0x02 raw in
  let raw := or_if (gear_lamp_on g) 0x04 raw in
  let raw := or_if (g_limit_error g) 0x08 raw in
  let raw := or_if (g_reset_state g) 0x20 raw in
  let raw := or_if (g_power_cycle_seen g) 0x80 raw in
  or_if (negb (is_some (sp_short_address (g_spec g)))) 0x40 raw.

Definition dt8_colour_status (g : GearUnit) : Z :=
  let active := match g_color_mode g with CmNone => 0 | CmXy => 0x10 | CmCct => 0x20 | CmRgb => 0x80 end in
  if g_tc_out_of_range g && bool_decide (g_color_mode g = CmCct) then Z.lor active COLOUR_STATUS_TC_OUT_OF_RANGE
  else active.

Definition mode_or_mask (current mode : ColorMode) (value : Z) : Z :=
  if bool_decide (current = mode) then value else COLOUR_VALUE_MASK.
Definition report_or_mask (g : GearUnit) (colour_type value : Z) : Z :=
  if cs_colour_type (g_report g) =? colour_type then value else COLOUR_VALUE_MASK.

(** A channel the gear has, or the mask. *)
Definition channel_level (g : GearUnit) (levels : list Z) (channel : Z) : Z :=
  if sp_rgbwaf_channels (g_spec g) <=? channel then COLOUR_VALUE_LEVEL_MASK else default 0 (aget levels channel).

Definition active_colour_value (g : GearUnit) (id : Z) : option Z :=
  let xy := sp_xy_capable (g_spec g) in
  let tc := sp_tc_capable (g_spec g) in
  let rgb := rgb_capable (g_spec g) in
  let rgb_mode := bool_decide (g_color_mode g = CmRgb) in
  if id =? 0 then then_some xy (mode_or_mask (g_color_mode g) CmXy (g_color_x g))
  else if id =? 1 then then_some xy (mode_or_mask (g_color_mode g) CmXy (g_color_y g))
  else if id =? 2 then then_some tc (mode_or_mask (g_color_mode g) CmCct (g_color_ct g))
  else if in_range id 9 14 then
    then_some rgb (if rgb_mode then channel_level g (rg_levels (g_rgbwaf g)) (id - 9) else COLOUR_VALUE_LEVEL_MASK)
  else if id =? 15 then then_some rgb (if rgb_mode then rg_control (g_rgbwaf g) else RGBWAF_CONTROL_MASK)
  else None.

Definition primary_and_limit_value (g : GearUnit) (id : Z) : option Z :=
  let tc := sp_tc_capable (g_spec g) in
  if in_range id 64 81 then Some COLOUR_VALUE_MASK
  else if id =? 82 then Some 0
  else if id =? 128 then then_some tc (g_tc_coolest_limit g)
  else if id =? 129 then then_some tc (sp_tc_coolest_mirek (g_spec g))
  else if id =? 130 then then_some tc (g_tc_warmest_limit g)
  else if id =? 131 then then_some tc (sp_tc_warmest_mirek (g_spec g))
  else None.

Definition temporary_colour_value (g : GearUnit) (id : Z) : option Z :=
  let xy := sp_xy_capable (g_spec g) in
  let tc := sp_tc_capable (g_spec g) in
  let rgb := rgb_capable (g_spec g) in
  let rgb_mode := bool_decide (g_pending_mode g = CmRgb) in
  if id =? 192 then then_some xy (mode_or_mask (g_pending_mode g) CmXy (g_pending_x g))
  else if id =? 193 then then_some xy (mode_or_mask (g_pending_mode g) CmXy (g_pending_y g))
  else if id =? 194 then then_some tc (mode_or_mask (g_pending_mode g) CmCct (g_pending_ct g))
  else if in_range id 201 206 then
    then_some rgb (if rgb_mode then channel_level g (rg_pending_levels (g_rgbwaf g)) (id - 201)
                   else COLOUR_VALUE_LEVEL_MASK)
  else if id =? 207 then then_some rgb (if rgb_mode then rg_pending_control (g_rgbwaf g) else RGBWAF_CONTROL_MASK)
  else if id =? 208 then Some (colour_type_byte (g_pending_mode g))
  else None.

Definition report_colour_value (g : GearUnit) (id : Z) : option Z :=
  let xy := sp_xy_capable (g_spec g) in
  let tc := sp_tc_capable (g_spec g) in
  let rgb := rgb_capable (g_spec g) in
  let r := g_report g in
  let rgb_report := cs_colour_type r =? COLOUR_TYPE_BYTE_RGBWAF in
  if id =? 224 then then_some xy (report_or_mask g COLOUR_TYPE_BYTE_XY (cs_x r))
  else if id =? 225 then then_some xy (report_or_mask g COLOUR_TYPE_BYTE_XY (cs_y r))
  else if id =? 226 then then_some tc (report_or_mask g COLOUR_TYPE_BYTE_TC (cs_tc r))
  else if in_range id 233 238 then
    then_some rgb (if rgb_report then channel_level g (cs_levels r) (id - 233) else COLOUR_VALUE_LEVEL_MASK)
  else if id =? 239 then then_some rgb (if rgb_report then cs_control r else RGBWAF_CONTROL_MASK)
  else if id =? 240 then Some (cs_colour_type r)
  else None.

Definition color_value (g : GearUnit) (id : Z) : option Z :=
  if in_range id 0 15 then active_colour_value g id
  else if in_range id 64 131 then primary_and_limit_value g id
  else if in_range id 192 208 then temporary_colour_value g id
  else if in_range id 224 240 then report_colour_value g id
  else None.

(** [u8::count_ones] *)
Definition count_ones (v : Z) : Z := Z.of_nat (List.length (List.filter (Z.testbit v) (seqZ 0 8))).

Definition actual_level_answer (g : GearUnit) : Z :=
  let thermal := failure_bits g in
  if is_dt6 g && (thermal_shut_down thermal || thermal_overload thermal) then DAPC_MASK_LEVEL
  else if negb (bool_decide (g_color_mode g = CmRgb)) then g_level g
  else
    let linked := count_ones (Z.land (rg_control (g_rgbwaf g)) RGBWAF_CONTROL_ALL_CHANNELS) in
    let normalised := Z.land (rg_control (g_rgbwaf g)) RGBWAF_CONTROL_TYPE_MASK =? RGBWAF_CONTROL_NORMALISED in
    if (linked =? 1) || normalised then g_level g else DAPC_MASK_LEVEL.

Definition rgbwaf_control_byte (g : GearUnit) : option Z :=
  then_some (0 <? sp_rgbwaf_channels (g_spec g)) (rg_control (g_rgbwaf g)).
Definition gear_features_byte (g : GearUnit) : Z := g_gear_features g.

Definition dt8_features (g : GearUnit) : Z :=
  let s := g_spec g in
  Z.lor (or_if (sp_tc_capable s) 0x02 (or_if (sp_xy_capable s) 0x01 0)) (shl 8 (Z.land (sp_rgbwaf_channels s) 0x07) 5).

(** ** Standard commands *)

Definition apply_identify_state (g : GearUnit) (command : StandardCommand) : GearUnit :=
  g <| g_identifying := match command with
                        | IdentifyDevice => true
                        | RecallMinLevel | RecallMaxLevel => g_identifying g
                        | _ => false
                        end |>.

Definition is_arc_power_change (command : StandardCommand) : bool :=
  match command with
  | DirectArcPower _ | Off | RecallMaxLevel | RecallMinLevel | GoToLastActiveLevel | Up | Down | StepUp | StepDown
  | StepDownAndOff | OnAndStepUp => true
  | _ => false
  end.

Definition clears_power_cycle_seen (command : StandardCommand) : bool :=
  is_arc_power_change command || match command with GoToScene _ => true | _ => false end.

Definition recall_scene (g : GearUnit) (scene : Z) : GearUnit :=
  let colour := default colour_mask (aget (g_scene_colours g) scene) in
  let g := if negb (cs_colour_type colour =? COLOUR_TYPE_BYTE_MASK)
           then let g := load_temporaries_from g colour in
                if automatic_activation g then activate_pending_color g else g
           else g in
  match aget (g_scenes g) scene with
  | Some level => if negb (level =? SCENE_UNSET) then set_level g level else g
  | None => g
  end.

Definition apply_level_write (g : GearUnit) (command : StandardCommand) : GearUnit :=
  let g := if clears_power_cycle_seen command then g <| g_power_cycle_seen := false |> else g in
  let g := if is_arc_power_change command then arc_power_activation g else g in
  match command with
  | DirectArcPower level => apply_dapc g level
  | Off => set_level g 0
  | RecallMaxLevel => set_level g (g_max_level g)
  | RecallMinLevel => set_level g (g_min_level g)
  | GoToLastActiveLevel => set_level g (g_last_active_level g)
  | Up => level_up g UP_DOWN_LEVEL_STEP
  | Down => level_down g UP_DOWN_LEVEL_STEP
  | StepUp => level_up g 1
  | StepDown => level_down g 1
  | StepDownAndOff => step_down_and_off g
  | OnAndStepUp => on_and_step_up g
  | GoToScene scene => recall_scene g scene
  | _ => g
  end.

Definition set_scene_slot (g : GearUnit) (scene level : Z) : GearUnit := g <| g_scenes := aset (g_scenes g) scene level |>.

Definition set_group_bit (g : GearUnit) (group : Z) (member : bool) : GearUnit :=
  if group <? GROUP_COUNT then
    let bit := shl 16 1 group in
    g <| g_groups := if member then Z.lor (g_groups g) bit else Z.ldiff (g_groups g) bit |>
  else g.

Definition reset_gear (g : GearUnit) : GearUnit :=
  let r := gear_new (g_spec g) in
  r <| g_enabled := g_enabled g |> <| g_faults := g_faults g |> <| g_executes_now := g_executes_now g |>
    <| g_power_cycle_seen := false |> <| g_color_mode := g_color_mode g |> <| g_color_x := g_color_x g |>
    <| g_color_y := g_color_y g |> <| g_color_ct := g_color_ct g |> <| g_tc_out_of_range := g_tc_out_of_range g |>
    <| g_rgbwaf := g_rgbwaf r <| rg_levels := rg_levels (g_rgbwaf g) |> <| rg_control := rg_control (g_rgbwaf g) |> |>
    <| g_switching := g_switching r <| sw_switch_status := sw_switch_status (g_switching g) |> |>.

Definition config_write (g : GearUnit) (command : StandardCommand) (dtr0 : Z) : option GearUnit :=
  match command with
  | SetMaxLevel => Some (set_max_level g dtr0)
  | SetMinLevel => Some (set_min_level g dtr0)
  | SetPowerOnLevel | SetSystemFailureLevel => Some (store_level_setting g command dtr0)
  | SetFadeTime => Some (g <| g_fade_time := dtr0 |>)
  | SetFadeRate => Some (g <| g_fade_rate := dtr0 |>)
  | SetExtendedFadeTime => Some (g <| g_extended_fade_time := if EXTENDED_FADE_TIME_MAX <? dtr0 then 0 else dtr0 |>)
  | SetScene scene => Some (store_scene_colour (set_scene_slot g scene dtr0) scene)
  | RemoveScene scene =>
      let g := set_scene_slot g scene SCENE_UNSET in
      Some (g <| g_scene_colours := aset (g_scene_colours g) scene colour_mask |>)
  | AddToGroup group => Some (set_group_bit g group true)
  | RemoveFromGroup group => Some (set_group_bit g group false)
  | Reset => Some (reset_gear g)
  | _ => None
  end.

(** [None] is the early [return] of the last arm. *)
Definition apply_config_write (g : GearUnit) (command : StandardCommand) (dtr0 : Z) : GearUnit :=
  match config_write g command dtr0 with
  | None => g
  | Some g => match command with Reset => g | _ => g <| g_reset_state := false |> end
  end.

Definition apply_standard_write (g : GearUnit) (command : StandardCommand) (dtr0 : Z) : GearUnit :=
  let g := g <| g_device_type_walk := None |> in
  let g := match command with EnableWriteMemory => g <| g_write_enabled := true |> | _ => g end in
  let g := apply_identify_state g command in
  let g := apply_level_write g command in
  apply_config_write g command dtr0.

(** ** Standard queries *)

Definition answer_if (condition : bool) (value : Z) : TransferOutcome := if condition then OutAnswer value else OutNoAnswer.

Definition is_manufacturer_specific_mode (mode : Z) : bool := MANUFACTURER_SPECIFIC_MODE_MIN <=? mode.

Definition level_query_reply (g : GearUnit) (command : StandardCommand) : option TransferOutcome :=
  match command with
  | QueryStatus => Some (OutAnswer (status_byte g))
  | QueryActualLevel => Some (OutAnswer (actual_level_answer g))
  | QueryMaxLevel => Some (OutAnswer (g_max_level g))
  | QueryMinLevel => Some (OutAnswer (g_min_level g))
  | QueryPowerOnLevel => Some (OutAnswer (ls_level (g_power_on g)))
  | QuerySystemFailureLevel => Some (OutAnswer (ls_level (g_system_failure g)))
  | QueryPhysicalMinimum => Some (OutAnswer (sp_phm (g_spec g)))
  | QueryFadeTimeFadeRate => Some (OutAnswer (Z.lor (shl 8 (g_fade_time g) 4) (Z.land (g_fade_rate g) 0x0F)))
  | QueryExtendedFadeTime => Some (OutAnswer (g_extended_fade_time g))
  | QueryControlGearPresent => Some (OutAnswer DALI_YES)
  | QueryLampFailure => Some (answer_if (g_lamp_failure g) DALI_YES)
  | QueryLampPowerOn => Some (answer_if (gear_lamp_on g) DALI_YES)
  | QueryLimitError => Some (answer_if (g_limit_error g) DALI_YES)
  | QueryPowerFailure => Some (answer_if (g_power_cycle_seen g) DALI_YES)
  | QueryOperatingMode => Some (OutAnswer OPERATING_MODE_STANDARD)
  | QueryResetState => Some (answer_if (g_reset_state g) DALI_YES)
  | QueryControlGearFailure => Some (answer_if (has_bits (status_byte g) 0x01) DALI_YES)
  | QueryManufacturerSpecificMode =>
      Some (answer_if (is_manufacturer_specific_mode OPERATING_MODE_STANDARD) DALI_YES)
  | _ => None
  end.

Definition device_type_reply (g : GearUnit) : TransferOutcome * GearUnit :=
  match sp_device_types (g_spec g) with
  | [] => (OutAnswer DEVICE_TYPE_LIST_END, g <| g_device_type_walk := None |>)
  | [t] => (OutAnswer t, g <| g_device_type_walk := None |>)
  | _ => (OutAnswer DEVICE_TYPE_MULTIPLE, g <| g_device_type_walk := Some 0 |>)
  end.

Definition next_device_type_reply (g : GearUnit) : TransferOutcome * GearUnit :=
  match g_device_type_walk g with
  | None => (OutNoAnswer, g)
  | Some cursor =>
      match aget (sp_device_types (g_spec g)) cursor with
      | Some device_type => (OutAnswer device_type, g <| g_device_type_walk := Some (cursor + 1) |>)
      | None => (OutAnswer DEVICE_TYPE_LIST_END, g)
      end
  end.

Definition identity_query_reply (g : GearUnit) (command : StandardCommand) : option TransferOutcome * GearUnit :=
  let answer v := (Some (OutAnswer v), g) in
  match command with
  | QueryDeviceType => let '(o, g) := device_type_reply g in (Some o, g)
  | QueryNextDeviceType => let '(o, g) := next_device_type_reply g in (Some o, g)
  | QueryGroups0To7 => answer (wrap 8 (g_groups g))
  | QueryGroups8To15 => answer (wrap 8 (Z.shiftr (g_groups g) 8))
  | QuerySceneLevel scene => answer (default SCENE_UNSET (aget (g_scenes g) scene))
  | QueryRandomAddressH => answer (wrap 8 (Z.shiftr (sp_random_address (g_spec g)) 16))
  | QueryRandomAddressM => answer (wrap 8 (Z.shiftr (sp_random_address (g_spec g)) 8))
  | QueryRandomAddressL => answer (wrap 8 (sp_random_address (g_spec g)))
  | QueryVersionNumber => answer VERSION_NUMBER_102
  | QueryLightSourceType => answer LIGHT_SOURCE_LED
  | QueryMissingShortAddress => (Some (answer_if (negb (is_some (sp_short_address (g_spec g)))) DALI_YES), g)
  | _ => (None, g)
  end.

Definition gear_query_reply (g : GearUnit) (command : StandardCommand) : TransferOutcome * GearUnit :=
  let g := match command with
           | QueryDeviceType | QueryNextDeviceType => g
           | _ => g <| g_device_type_walk := None |>
           end in
  let g := if is_dt8 g then
             match command with
             | QueryActualLevel => load_report_from_actual g
             | QuerySceneLevel scene => load_report_from_scene g scene
             | QueryPowerOnLevel | QuerySystemFailureLevel => load_report_from_level_colour g command
             | _ => g
             end
           else g in
  match level_query_reply g command with
  | Some outcome => (outcome, g)
  | None => match identity_query_reply g command with
            | (Some outcome, g) => (outcome, g)
            | (None, g) => (OutNoAnswer, g)
            end
  end.

Definition dt7_answer (g : GearUnit) (command : Dt7Command) : option Z :=
  match command with
  | D7_QueryFeatures => Some (sp_switching_features (g_spec g))
  | D7_QuerySwitchStatus => Some (sw_switch_status (g_switching g))
  | D7_QueryThreshold t => Some (switching_threshold (g_switching g) t)
  | D7_QueryErrorHoldOffTime => Some (sw_error_hold_off (g_switching g))
  | D7_QueryGearType => Some (sp_switching_gear_type (g_spec g))
  | D7_QueryReferenceMeasurementFailed =>
      then_some (has_bits (sw_switch_status (g_switching g)) SWITCH_STATUS_REFERENCE_FAILED) DALI_YES
  | D7_QueryExtendedVersionNumber => Some EXTENDED_VERSION_NUMBER_208
  | D7_QueryReferenceRunning | D7_ReferenceSystemPower | D7_StoreDtrAsThreshold _ | D7_StoreDtrAsErrorHoldOffTime => None
  end.

End GearModel.
