(* ===== verification/Fleet.v ===== *)
(** * The fleet of control gear on a bus

    Models [crates/dali2rust-gear-model/src/fleet.rs]: the shared registers of
    the bus, the gear on it, and what a 16-bit forward frame does to them and
    what it is answered ([exchange]).  The host build drives it through the
    simulated transport; the controllers are proved against it. *)

From Stdlib Require Import String.
From S2P Require Import Prelude RulesBase Gear GearCommand GearState Transport Banks GearModel.

Module Fleet.
Import Gear GearCommand GearState Transport Banks GearModel.

Definition RANDOM_ADDRESS_READY_MS : Z := 100.
Definition RANDOM_ADDRESS_MAX : Z := 0x00FFFFFE.
Definition DEFAULT_RESERVED_SHORT_ADDRESSES : Z := 0x3FF.
Definition DALI_MASK_BYTE : Z := 0xFF.
Definition DIMMING_CURVE_MAX : Z := 1.
Definition EXTENDED_VERSION_NUMBER_207 : Z := 1.
Definition EXTENDED_VERSION_NUMBER_209 : Z := 2.
Definition DT6_FEATURES_QUERYABLE : Z := 0x7F.
Definition YES_ANSWER : Z := 0xFF.
Definition LAST_MEMORY_LOCATION : Z := 0xFF.
Definition SHORT_ADDRESS_MAX : Z := SHORT_ADDRESS_MASK.
Definition EXTENDED_START : Z := 0xE0.
Definition GEAR_FEATURES_AUTOMATIC_ACTIVATION : Z := 0x01.
Definition GEAR_FEATURES_STORE_RESERVED_MASK : Z := 0xFE.

Record BusRegisters := MkRegs {
  rg_dtr0 : Z; rg_dtr1 : Z; rg_dtr2 : Z; rg_search_address : Z; rg_enabled_device_type : option (Z * Z) }.

#[global] Instance eta_BusRegisters : Eta BusRegisters := fun r =>
  MkRegs (rg_dtr0 r) (rg_dtr1 r) (rg_dtr2 r) (rg_search_address r) (rg_enabled_device_type r).

Definition regs_default : BusRegisters := MkRegs 0 0 0 0 None.

Record FleetStats := MkStats {
  st_reserved_conflicts : Z; st_refused_programs : Z; st_dropped_answers : Z;
  st_enable_device_type_consumed_by_interloper : Z; st_send_twice_split_by_interloper : Z;
  st_send_twice_pairs_executed : Z; st_dt8_gear_features_reserved_bits : Z }.

#[global] Instance eta_FleetStats : Eta FleetStats := fun s =>
  MkStats (st_reserved_conflicts s) (st_refused_programs s) (st_dropped_answers s)
    (st_enable_device_type_consumed_by_interloper s) (st_send_twice_split_by_interloper s)
    (st_send_twice_pairs_executed s) (st_dt8_gear_features_reserved_bits s).

Definition stats_default : FleetStats := MkStats 0 0 0 0 0 0 0.

Record GearFleet := MkFleet {
  fl_gears : list GearUnit; fl_regs : BusRegisters; fl_rng : Z; fl_reserved : Z; fl_stats : FleetStats;
  fl_answers : list Z; fl_frame_seq : Z; fl_now_ms : Z }.

#[global] Instance eta_GearFleet : Eta GearFleet := fun f =>
  MkFleet (fl_gears f) (fl_regs f) (fl_rng f) (fl_reserved f) (fl_stats f) (fl_answers f) (fl_frame_seq f) (fl_now_ms f).

(** ** Iteration *)

(** [for gear in gears.iter_mut().filter(p) { f(gear) }] *)
Definition for_gears (p : GearUnit -> bool) (f : GearUnit -> GearUnit) (l : list GearUnit) : list GearUnit :=
  map (fun g => if p g then f g else g) l.
Definition on_gears (fl : GearFleet) (p : GearUnit -> bool) (f : GearUnit -> GearUnit) : GearFleet :=
  fl <| fl_gears := for_gears p f (fl_gears fl) |>.

(** The same with a state threaded through the loop. *)
Fixpoint thread {A S} (f : A -> S -> A * S) (l : list A) (s : S) : list A * S :=
  match l with
  | [] => ([], s)
  | x :: l => let '(x, s) := f x s in let '(l, s) := thread f l s in (x :: l, s)
  end.

(** ** Small functions *)

(** [u32 += n] of the counters, which stay far below the width. *)
Definition count_gears (p : GearUnit -> bool) (l : list GearUnit) : Z := Z.of_nat (List.length (List.filter p l)).

Definition is_reserved (reserved : Z) (short : option Z) : bool :=
  match short with
  | Some addr => if addr <? 64 then has_bits reserved (shl 64 1 addr) else false
  | None => false
  end.

Definition merge_answers (answers : list Z) : TransferOutcome :=
  match answers with [] => OutNoAnswer | [only] => OutAnswer only | _ => OutCorruptedInWindow end.

Definition set_search_byte (search shift value : Z) : Z :=
  Z.lor (Z.land search (Z.lxor (umax 32) (shl 32 0xFF shift))) (shl 32 value shift).

Definition encode_short_reply (short : Z) : Z := Z.lor (shl 8 (Z.land short SHORT_ADDRESS_MASK) 1) 0x01.
Definition decode_short_reply (encoded : Z) : Z := Z.land (Z.shiftr encoded 1) SHORT_ADDRESS_MASK.

Inductive ShortAddressWrite := SwApplied | SwRefused | SwIgnored.

Definition set_short (g : GearUnit) (short : option Z) : GearUnit :=
  g <| g_spec := g_spec g <| sp_short_address := short |> |>.

Definition set_short_from_dtr0 (g : GearUnit) (dtr0 reserved : Z) : ShortAddressWrite * GearUnit :=
  if dtr0 =? DALI_MASK_BYTE then (SwApplied, set_short g None)
  else if negb (Z.land dtr0 0x81 =? 0x01) then (SwIgnored, g)
  else
    let short := decode_short_reply dtr0 in
    if is_reserved reserved (Some short) then (SwRefused, g) else (SwApplied, set_short g (Some short)).

(** [None] and [Some(Audience)]. *)
Inductive Audience := Every | Addressed (a : DaliAddress).

Definition audience_of (decoded : option DaliCommand) : option Audience :=
  match decoded with
  | Some (Special Ping) => None
  | Some (Special _) => Some Every
  | Some (Standard address _) | Some (Extended address _) => Some (Addressed address)
  | None => None
  end.

Definition stops_identification (s : SpecialCommand) : bool :=
  match s with
  | Initialise _ | Ping | Compare | VerifyShortAddress _ | QueryShortAddress | PhysicalSelection => false
  | _ => true
  end.

Definition keeps_write_enabled (decoded : option DaliCommand) : bool :=
  match decoded with
  | Some (Special (WriteMemoryLocation _ | WriteMemoryLocationNoReply _ | Dtr0 _ | Dtr1 _ | Dtr2 _)) => true
  | Some (Standard _ (QueryContentDtr0 | QueryContentDtr1 | QueryContentDtr2)) => true
  | _ => false
  end.

Definition is_walk_query (decoded : option DaliCommand) : bool :=
  match decoded with Some (Standard _ (QueryDeviceType | QueryNextDeviceType)) => true | _ => false end.

Definition extended_under (device_type opcode : Z) : option ExtendedCommand :=
  match DeviceType_from_u8 device_type with
  | Some Color => option_map Dt8 (dt8_from_opcode opcode)
  | Some Led => option_map Dt6 (dt6_from_opcode opcode)
  | Some Switching => option_map Dt7 (dt7_from_opcode opcode)
  | _ => None
  end.

Definition requires_repeat_under (decoded : option DaliCommand) (wire_address opcode : Z) (device_type : option Z) : bool :=
  let indirect := negb (Z.land wire_address 0x01 =? 0) in
  let under := match device_type with
               | Some t => if indirect then extended_under t opcode else None
               | None => None
               end in
  match under with
  | Some command => extended_requires_repeat command
  | None => match decoded with Some c => requires_repeat c | None => false end
  end.

Definition is_dt8_opcode (opcode : Z) : bool := is_some (dt8_from_opcode opcode).
Definition is_dt6_opcode (opcode : Z) : bool := is_some (dt6_from_opcode opcode).

Definition is_dt8_query_opcode (opcode : Z) : bool :=
  match dt8_from_opcode opcode with
  | Some (D8_QueryGearFeaturesStatus | D8_QueryColourStatus | D8_QueryColourTypeFeatures | D8_QueryColourValue
         | D8_QueryRgbwafControl) => true
  | _ => false
  end.

(** The two halves of a six-channel array. *)
Definition set_rgb (levels rgb : list Z) : list Z := rgb ++ drop 3 levels.
Definition set_waf (levels waf : list Z) : list Z := take 3 levels ++ waf.

Definition store_gear_features (g : GearUnit) (dtr0 : Z) : GearUnit :=
  let kept := Z.ldiff (g_gear_features g) GEAR_FEATURES_AUTOMATIC_ACTIVATION in
  g <| g_gear_features := Z.lor kept (Z.land dtr0 GEAR_FEATURES_AUTOMATIC_ACTIVATION) |>.

Definition apply_dt8_write (g : GearUnit) (opcode dtr0 dtr1 dtr2 : Z) : GearUnit :=
  let word := Z.lor (shl 16 dtr1 8) dtr0 in
  let r := g_rgbwaf g in
  match dt8_from_opcode opcode with
  | Some D8_SetTemporaryXCoordinate => g <| g_pending_x := word |> <| g_pending_mode := CmXy |>
  | Some D8_SetTemporaryYCoordinate => g <| g_pending_y := word |> <| g_pending_mode := CmXy |>
  | Some D8_SetTemporaryColourTemperature => g <| g_pending_ct := word |> <| g_pending_mode := CmCct |>
  | Some D8_SetTemporaryRgbDimLevel =>
      g <| g_rgbwaf := r <| rg_pending_levels := set_rgb (rg_pending_levels r) [dtr0; dtr1; dtr2] |> |>
        <| g_pending_mode := CmRgb |>
  | Some D8_SetTemporaryWafDimLevel =>
      g <| g_rgbwaf := r <| rg_pending_levels := set_waf (rg_pending_levels r) [dtr0; dtr1; dtr2] |> |>
        <| g_pending_mode := CmRgb |>
  | Some D8_SetTemporaryRgbwafControl =>
      g <| g_rgbwaf := r <| rg_pending_control := dtr0 |> |> <| g_pending_mode := CmRgb |>
  | Some D8_Activate => activate_pending_color g
  | Some D8_XCoordinateStepUp => xy_step g false true
  | Some D8_XCoordinateStepDown => xy_step g false false
  | Some D8_YCoordinateStepUp => xy_step g true true
  | Some D8_YCoordinateStepDown => xy_step g true false
  | Some D8_ColourTemperatureStepCooler => tc_step g false
  | Some D8_ColourTemperatureStepWarmer => tc_step g true
  | Some D8_CopyReportToTemporary => copy_report_to_temporary g
  | Some D8_StoreColourTemperatureTcLimit => store_tc_limit g word dtr2
  | Some D8_StoreGearFeaturesStatus => store_gear_features g dtr0
  | _ => g
  end.

(** [loop { .. }] of [draw_random_address], on fuel: [None] when every drawn word
    was out of range. *)
Fixpoint draw_random_address (fuel : nat) (rng : Z) : option (Z * Z) :=
  match fuel with
  | O => None
  | S fuel =>
      let '(candidate, rng) := next_24 rng in
      if candidate <=? RANDOM_ADDRESS_MAX then Some (candidate, rng) else draw_random_address fuel rng
  end.

(** ** Publication of the answers *)

Definition publish (fl : GearFleet) (buf : list Z) : TransferOutcome * GearFleet :=
  (merge_answers buf, fl <| fl_answers := buf |>).
Definition publish_one (fl : GearFleet) (value : option Z) : TransferOutcome * GearFleet :=
  publish fl (option_list value).

(** [iter().filter(p).map(f)] and [filter_map]. *)
Definition replies (p : GearUnit -> bool) (f : GearUnit -> option Z) (l : list GearUnit) : list Z :=
  omap (fun g => if p g then f g else None) l.

(** ** Creation and time *)

Definition fleet_new (specs : list GearSpec) (reserved rng_seed : Z) : GearFleet :=
  let conflicts := Z.of_nat (List.length (List.filter (fun s => is_reserved reserved (sp_short_address s)) specs)) in
  let gears := map (fun s => gear_new (if is_reserved reserved (sp_short_address s)
                                       then s <| sp_short_address := None |> else s)) specs in
  MkFleet gears regs_default (rng_new rng_seed) reserved (stats_default <| st_reserved_conflicts := conflicts |>)
    [] 0 0.

Definition fleet_power_cycle (fl : GearFleet) : GearFleet :=
  fl <| fl_regs := regs_default |> <| fl_gears := map gear_power_cycle (fl_gears fl) |>.

Definition ripen (now : Z) (g : GearUnit) : GearUnit :=
  match g_pending_random g with
  | Some p => if pr_ready_at_ms p <=? now
              then g <| g_spec := g_spec g <| sp_random_address := pr_address p |> |> <| g_pending_random := None |>
              else g
  | None => g
  end.
Definition advance_to_ms (fl : GearFleet) (now_ms : Z) : GearFleet :=
  let now := Z.max (fl_now_ms fl) now_ms in
  fl <| fl_now_ms := now |> <| fl_gears := map (ripen now) (fl_gears fl) |>.

Definition any_gear_holds (fl : GearFleet) (frame : Z) : bool := existsb (fun g => gear_holds g frame) (fl_gears fl).

(** ** Special commands *)

Definition terminate_initialise (fl : GearFleet) : GearFleet :=
  on_gears fl (fun _ => true) (fun g => g <| g_initialise := false |> <| g_withdrawn := false |>).

Definition initialise_selects (scope : Z) (g : GearUnit) : bool :=
  if scope =? 0x00 then true
  else if scope =? 0xFF then negb (is_some (sp_short_address (g_spec g)))
  else opt_is (sp_short_address (g_spec g)) (decode_short_reply scope).
Definition enter_initialise (fl : GearFleet) (scope : Z) : GearFleet :=
  on_gears fl (fun g => g_enabled g && g_executes_now g && initialise_selects scope g)
    (fun g => g <| g_initialise := true |> <| g_withdrawn := false |>).

(** Two words are always enough: no two words in a row are out of range
    ([FleetLaws.draw_succeeds]). *)
Definition draw_fuel : nat := 64.
Definition randomise_gear (ready_at_ms : Z) (g : GearUnit) (rng : Z) : GearUnit * Z :=
  if g_initialise g && g_executes_now g then
    match draw_random_address draw_fuel rng with
    | Some (address, rng) => (g <| g_pending_random := Some (MkPendingRandom address ready_at_ms) |>, rng)
    | None => (g, rng)
    end
  else (g, rng).
Definition randomise (fl : GearFleet) : GearFleet :=
  let ready_at_ms := sat_add 64 (fl_now_ms fl) RANDOM_ADDRESS_READY_MS in
  let '(gears, rng) := thread (randomise_gear ready_at_ms) (fl_gears fl) (fl_rng fl) in
  fl <| fl_gears := gears |> <| fl_rng := rng |>.

Definition search_of (fl : GearFleet) : Z := rg_search_address (fl_regs fl).
Definition selected (search : Z) (g : GearUnit) : bool := sp_random_address (g_spec g) =? search.

Definition on_compare (fl : GearFleet) : TransferOutcome * GearFleet :=
  publish fl (replies (fun g => g_enabled g && g_initialise g && negb (g_withdrawn g) &&
                                (sp_random_address (g_spec g) <=? search_of fl)) (fun _ => Some DALI_YES) (fl_gears fl)).

Definition on_withdraw (fl : GearFleet) : GearFleet :=
  on_gears fl (fun g => g_initialise g && selected (search_of fl) g) (fun g => g <| g_withdrawn := true |>).

Definition bump_refused (fl : GearFleet) (n : Z) : GearFleet :=
  fl <| fl_stats := fl_stats fl <| st_refused_programs := st_refused_programs (fl_stats fl) + n |> |>.

Definition program_short (fl : GearFleet) (encoded : Z) : GearFleet :=
  let short := decode_short_reply encoded in
  if is_reserved (fl_reserved fl) (Some short) then bump_refused fl 1
  else on_gears fl (fun g => g_initialise g && negb (g_withdrawn g) && selected (search_of fl) g)
         (fun g => set_short g (Some short)).

Definition verify_short (fl : GearFleet) (encoded : Z) : TransferOutcome * GearFleet :=
  let short := decode_short_reply encoded in
  publish fl (replies (fun g => g_enabled g && g_initialise g && opt_is (sp_short_address (g_spec g)) short)
                (fun _ => Some DALI_YES) (fl_gears fl)).

Definition query_selected_short (fl : GearFleet) : TransferOutcome * GearFleet :=
  publish fl (replies (fun g => g_enabled g && g_initialise g && negb (g_withdrawn g) && selected (search_of fl) g)
                (fun g => option_map encode_short_reply (sp_short_address (g_spec g))) (fl_gears fl)).

(** One gear of the loop of [on_memory_write]: whether it advances and what it answers. *)
Definition write_one (bank offset value : Z) (g : GearUnit) (s : bool * list Z) : GearUnit * (bool * list Z) :=
  if g_write_enabled g then
    let advances := fst s || (implements_bank g bank && negb (fi_memory_write_holds_dtr0 (g_faults g))) in
    let '(reply, g) := write_memory_location g bank offset value in
    (g, (advances, snd s ++ option_list reply))
  else (g, s).

Definition with_dtr0 (fl : GearFleet) (v : Z) : GearFleet := fl <| fl_regs := fl_regs fl <| rg_dtr0 := v |> |>.

Definition on_memory_write (fl : GearFleet) (s : SpecialCommand) : option (TransferOutcome * GearFleet) :=
  let write value (replies : bool) :=
    let bank := rg_dtr1 (fl_regs fl) in
    let offset := rg_dtr0 (fl_regs fl) in
    let '(gears, (advances, buf)) := thread (write_one bank offset value) (fl_gears fl) (false, []) in
    let fl := fl <| fl_gears := gears |> in
    let fl := if advances && (offset <? LAST_MEMORY_LOCATION) then with_dtr0 fl (offset + 1) else fl in
    Some (publish fl (if replies then buf else [])) in
  match s with
  | WriteMemoryLocation value => write value true
  | WriteMemoryLocationNoReply value => write value false
  | _ => None
  end.

Definition set_search (fl : GearFleet) (shift v : Z) : GearFleet :=
  fl <| fl_regs := fl_regs fl <| rg_search_address := set_search_byte (search_of fl) shift v |> |>.

Definition on_special (fl : GearFleet) (s : SpecialCommand) : TransferOutcome * GearFleet :=
  match on_memory_write fl s with
  | Some result => result
  | None =>
      let fl := if stops_identification s
                then on_gears fl g_executes_now (fun g => g <| g_identifying := false |>) else fl in
      match s with
      | Dtr0 v => publish_one (with_dtr0 fl v) None
      | Dtr1 v => publish_one (fl <| fl_regs := fl_regs fl <| rg_dtr1 := v |> |>) None
      | Dtr2 v => publish_one (fl <| fl_regs := fl_regs fl <| rg_dtr2 := v |> |>) None
      | EnableDeviceType t =>
          publish_one (fl <| fl_regs := fl_regs fl <| rg_enabled_device_type := Some (t, fl_frame_seq fl) |> |>) None
      | SearchAddrH v => publish_one (set_search fl 16 v) None
      | SearchAddrM v => publish_one (set_search fl 8 v) None
      | SearchAddrL v => publish_one (set_search fl 0 v) None
      | Terminate => publish_one (terminate_initialise fl) None
      | Initialise scope => publish_one (enter_initialise fl scope) None
      | Randomise => publish_one (randomise fl) None
      | Compare => on_compare fl
      | Withdraw => publish_one (on_withdraw fl) None
      | ProgramShortAddress encoded => publish_one (program_short fl encoded) None
      | VerifyShortAddress encoded => verify_short fl encoded
      | QueryShortAddress => query_selected_short fl
      | _ => publish_one fl None
      end
  end.

(** ** Direct arc power, memory reads, device types *)

Definition on_dapc (fl : GearFleet) (a : DaliAddress) (level : Z) : TransferOutcome * GearFleet :=
  publish_one (on_gears fl (fun g => gear_matches g a && g_executes_now g)
    (fun g => apply_dapc (arc_power_activation (g <| g_identifying := false |>)) level)) None.

Definition on_read_memory_location (fl : GearFleet) (a : DaliAddress) : TransferOutcome * GearFleet :=
  let bank := rg_dtr1 (fl_regs fl) in
  let offset := rg_dtr0 (fl_regs fl) in
  let buf := replies (fun g => gear_matches g a) (fun g => memory_location g bank offset) (fl_gears fl) in
  let advances := existsb (fun g => gear_matches g a && advances_dtr0_past g bank offset) (fl_gears fl) in
  let fl := if advances && (offset <? LAST_MEMORY_LOCATION) then with_dtr0 fl (offset + 1) else fl in
  publish fl buf.

Definition constant_reply (fl : GearFleet) (a : DaliAddress) (value : Z) (eligible : GearUnit -> bool) :
    TransferOutcome * GearFleet :=
  publish fl (replies (fun g => gear_matches g a && eligible g) (fun _ => Some value) (fl_gears fl)).

Definition dt6_bit (c : Dt6Command) : option (GearUnit -> bool) :=
  match c with
  | D6_QueryShortCircuit => Some (fun g => short_circuit (failure_bits g))
  | D6_QueryOpenCircuit => Some (fun g => open_circuit (failure_bits g))
  | D6_QueryLoadDecrease => Some (fun g => load_decrease (failure_bits g))
  | D6_QueryLoadIncrease => Some (fun g => load_increase (failure_bits g))
  | D6_QueryCurrentProtectorActive => Some (fun g => current_protector_active (failure_bits g))
  | D6_QueryThermalShutdown => Some (fun g => thermal_shut_down (failure_bits g))
  | D6_QueryThermalOverload => Some (fun g => thermal_overload (failure_bits g))
  | D6_QueryReferenceMeasurementFailed => Some (fun g => reference_measurement_failed (failure_bits g))
  | D6_QueryReferenceRunning | D6_QueryCurrentProtectorEnabled => Some (fun _ => false)
  | _ => None
  end.

Definition dt6_failure_query (fl : GearFleet) (a : DaliAddress) (opcode : Z) : option (TransferOutcome * GearFleet) :=
  if opcode =? dt6_opcode D6_QueryFeatures then Some (constant_reply fl a DT6_FEATURES_QUERYABLE is_dt6)
  else if opcode =? dt6_opcode D6_QueryFailureStatus then
    Some (publish fl (replies (fun g => gear_matches g a && is_dt6 g) (fun g => Some (fi_failure_status (g_faults g)))
                        (fl_gears fl)))
  else match dt6_from_opcode opcode with
       | None => None
       | Some c =>
           match dt6_bit c with
           | None => None
           | Some bit => Some (publish fl (replies (fun g => gear_matches g a && is_dt6 g && bit g)
                                             (fun _ => Some YES_ANSWER) (fl_gears fl)))
           end
       end.

Definition on_extended_dt6 (fl : GearFleet) (a : DaliAddress) (opcode : Z) (expects_backward : bool) :
    TransferOutcome * GearFleet :=
  if expects_backward then
    if opcode =? QUERY_EXTENDED_VERSION_NUMBER_OPCODE then constant_reply fl a EXTENDED_VERSION_NUMBER_207 is_dt6
    else match dt6_failure_query fl a opcode with
         | Some outcome => outcome
         | None =>
             if negb (opcode =? dt6_opcode D6_QueryDimmingCurve) then publish_one fl None
             else publish fl (replies (fun g => gear_matches g a && is_dt6 g) (fun g => Some (g_dimming_curve g))
                                (fl_gears fl))
         end
  else
    let dtr0 := rg_dtr0 (fl_regs fl) in
    let fl := if (opcode =? dt6_opcode D6_SelectDimmingCurve) && (dtr0 <=? DIMMING_CURVE_MAX)
              then on_gears fl (fun g => gear_matches g a && is_dt6 g && g_executes_now g)
                     (fun g => g <| g_dimming_curve := dtr0 |>)
              else fl in
    publish_one fl None.

Definition on_dt7_query (fl : GearFleet) (a : DaliAddress) (c : Dt7Command) : TransferOutcome * GearFleet :=
  publish fl (replies (fun g => gear_matches g a && is_dt7 g) (fun g => dt7_answer g c) (fl_gears fl)).

Definition on_extended_dt7 (fl : GearFleet) (a : DaliAddress) (opcode : Z) (expects_backward : bool) :
    TransferOutcome * GearFleet :=
  match dt7_from_opcode opcode with
  | None => publish_one fl None
  | Some c =>
      if expects_backward then on_dt7_query fl a c
      else
        let dtr0 := rg_dtr0 (fl_regs fl) in
        publish_one (on_gears fl (fun g => gear_matches g a && is_dt7 g && g_executes_now g)
          (fun g => g <| g_switching := switching_store (g_switching g) (sp_switching_features (g_spec g)) c dtr0 |>)) None
  end.

Definition dt8_color_value_reply (fl : GearFleet) (a : DaliAddress) (value_id : Z) : TransferOutcome * GearFleet :=
  let values := replies (fun g => gear_matches g a && is_dt8 g) (fun g => color_value g value_id) (fl_gears fl) in
  let wide := colour_value_is_wide value_id in
  let buf := map (fun v => if wide then wrap 8 (Z.shiftr v 8) else wrap 8 v) values in
  let fl := match values with
            | [] => fl
            | v :: _ =>
                let lsb := wrap 8 v in
                if forallb (fun v => wrap 8 v =? lsb) values then with_dtr0 fl lsb else fl
            end in
  publish fl buf.

Definition on_dt8_query (fl : GearFleet) (a : DaliAddress) (opcode : Z) : TransferOutcome * GearFleet :=
  let dt8_replies f := publish fl (replies (fun g => gear_matches g a && is_dt8 g) f (fl_gears fl)) in
  if opcode =? dt8_opcode D8_QueryColourValue then dt8_color_value_reply fl a (rg_dtr0 (fl_regs fl))
  else if opcode =? QUERY_EXTENDED_VERSION_NUMBER_OPCODE then constant_reply fl a EXTENDED_VERSION_NUMBER_209 is_dt8
  else if opcode =? dt8_opcode D8_QueryRgbwafControl then dt8_replies rgbwaf_control_byte
  else if opcode =? dt8_opcode D8_QueryColourStatus then dt8_replies (fun g => Some (dt8_colour_status g))
  else if opcode =? dt8_opcode D8_QueryColourTypeFeatures then dt8_replies (fun g => Some (dt8_features g))
  else if opcode =? dt8_opcode D8_QueryGearFeaturesStatus then dt8_replies (fun g => Some (gear_features_byte g))
  else publish_one fl None.

Definition on_dt8 (fl : GearFleet) (a : DaliAddress) (opcode : Z) (expects_backward : bool) :
    TransferOutcome * GearFleet :=
  if expects_backward then on_dt8_query fl a opcode
  else
    let r := fl_regs fl in
    let illegal := (opcode =? dt8_opcode D8_StoreGearFeaturesStatus) &&
                   has_bits (rg_dtr0 r) GEAR_FEATURES_STORE_RESERVED_MASK in
    let addressed g := gear_matches g a && is_dt8 g && g_executes_now g in
    let illegal_stores := if illegal then count_gears addressed (fl_gears fl) else 0 in
    let fl := on_gears fl addressed (fun g => apply_dt8_write g opcode (rg_dtr0 r) (rg_dtr1 r) (rg_dtr2 r)) in
    publish_one (fl <| fl_stats := fl_stats fl <| st_dt8_gear_features_reserved_bits :=
                        st_dt8_gear_features_reserved_bits (fl_stats fl) + illegal_stores |> |>) None.

Definition on_extended_dt8 (fl : GearFleet) (a : DaliAddress) (opcode : Z) (expects_backward : bool)
    (enabled : option Z) : TransferOutcome * GearFleet :=
  match enabled with
  | Some c => if c =? code Color then on_dt8 fl a opcode expects_backward else publish_one fl None
  | None =>
      publish_one (fl <| fl_stats := fl_stats fl <| st_enable_device_type_consumed_by_interloper :=
                          st_enable_device_type_consumed_by_interloper (fl_stats fl) + 1 |> |>) None
  end.

(** ** Standard commands *)

Definition bus_register_query (fl : GearFleet) (c : StandardCommand) : option Z :=
  match c with
  | QueryContentDtr0 => Some (rg_dtr0 (fl_regs fl))
  | QueryContentDtr1 => Some (rg_dtr1 (fl_regs fl))
  | QueryContentDtr2 => Some (rg_dtr2 (fl_regs fl))
  | _ => None
  end.

Definition answer_of (outcome : TransferOutcome) (g : GearUnit) (rng dropped : Z) : option Z * (Z * Z) :=
  match outcome with
  | OutAnswer value =>
      let '(drops, rng) := chance_permille (fi_drop_answer_permille (g_faults g)) rng in
      if drops then (None, (rng, dropped + 1)) else (Some value, (rng, dropped))
  | _ => (None, (rng, dropped))
  end.

(** One gear of the iterator of [standard_query]; the state is the answers so
    far, the generator and the count of dropped answers. *)
Definition query_one (a : DaliAddress) (c : StandardCommand) (shared : option Z) (g : GearUnit)
    (s : list Z * (Z * Z)) : GearUnit * (list Z * (Z * Z)) :=
  if gear_matches g a then
    let '(reply, g) := match shared with Some v => (OutAnswer v, g) | None => gear_query_reply g c end in
    let '(answer, rs) := answer_of reply g (fst (snd s)) (snd (snd s)) in
    (g, (fst s ++ option_list answer, rs))
  else (g, s).

Definition standard_query (fl : GearFleet) (a : DaliAddress) (c : StandardCommand) :
    option (TransferOutcome * GearFleet) :=
  if negb (standard_is_query c) then None
  else
    let shared := bus_register_query fl c in
    let '(gears, (buf, (rng, dropped))) :=
      thread (query_one a c shared) (fl_gears fl) ([], (fl_rng fl, st_dropped_answers (fl_stats fl))) in
    let fl := fl <| fl_gears := gears |> <| fl_rng := rng |>
                 <| fl_stats := fl_stats fl <| st_dropped_answers := dropped |> |> in
    Some (publish fl buf).

(** One gear of the loop of [on_standard]; the state is the refused programs
    and the level to store. *)
Definition write_standard (c : StandardCommand) (dtr0 reserved : Z) (g : GearUnit) (s : Z * option Z) :
    GearUnit * (Z * option Z) :=
  let g := apply_standard_write g c dtr0 in
  match c with
  | SetShortAddress =>
      match set_short_from_dtr0 g dtr0 reserved with
      | (SwRefused, g) => (g, (fst s + 1, snd s))
      | (_, g) => (g, s)
      end
  | StoreActualLevelInDtr0 => (if is_dt8 g then load_report_from_actual g else g, (fst s, Some (g_level g)))
  | _ => (g, s)
  end.

Definition on_standard (fl : GearFleet) (a : DaliAddress) (c : StandardCommand) : TransferOutcome * GearFleet :=
  match standard_query fl a c with
  | Some reply => reply
  | None =>
      let dtr0 := rg_dtr0 (fl_regs fl) in
      let '(gears, (refused, store)) :=
        thread (fun g s => if gear_matches g a && g_executes_now g then write_standard c dtr0 (fl_reserved fl) g s
                           else (g, s)) (fl_gears fl) (0, None) in
      let fl := fl <| fl_gears := gears |> in
      let fl := match store with Some level => with_dtr0 fl level | None => fl end in
      publish_one (bump_refused fl refused) None
  end.

(** ** The exchange *)

Definition armed_device_type (fl : GearFleet) : option Z := option_map fst (rg_enabled_device_type (fl_regs fl)).

Definition fresh_device_type (fl : GearFleet) : option Z :=
  match rg_enabled_device_type (fl_regs fl) with
  | Some (device_type, armed_seq) => then_some (armed_seq + 1 =? fl_frame_seq fl) device_type
  | None => None
  end.

Definition expects_backward (fl : GearFleet) (frame : Z) : bool :=
  let wire_address := wrap 8 (Z.shiftr frame 8) in
  let opcode := wrap 8 frame in
  match dali_command_from_wire wire_address opcode with
  | Some (Special special) => special_expects_backward special
  | Some (Standard _ command) => standard_is_query command
  | _ =>
      if Z.land wire_address 0x01 =? 0 then false
      else
        (opcode =? READ_MEMORY_LOCATION_OPCODE) ||
        (bool_decide (armed_device_type fl = Some (code Color)) &&
         (is_dt8_query_opcode opcode || (opcode =? QUERY_EXTENDED_VERSION_NUMBER_OPCODE))) ||
        (bool_decide (armed_device_type fl = Some (code Led)) &&
         match dt6_from_opcode opcode with Some c => device_is_query c | None => false end) ||
        (bool_decide (armed_device_type fl = Some (code Switching)) &&
         match dt7_from_opcode opcode with Some c => device_is_query c | None => false end)
  end.

(** One gear of the loop of [hear]; the state counts split and completed pairs. *)
Definition hear_one (frame : Z) (decoded : option DaliCommand) (repeats : bool) (g : GearUnit) (s : Z * Z) :
    GearUnit * (Z * Z) :=
  let heard :=
    match audience_of decoded with
    | Some Every => if g_enabled g then Some (gear_hear g frame repeats) else None
    | Some (Addressed address) => if gear_matches g address then Some (gear_hear g frame repeats) else None
    | None => None
    end in
  match heard with
  | None =>
      let '(was_held, g) := hear_elsewhere (g <| g_executes_now := false |>) in
      (g, (fst s + Z_of_bool was_held, snd s))
  | Some (h, g) =>
      let g := g <| g_executes_now := hd_executes h |> in
      let g := if is_walk_query decoded then g else cancel_device_type_walk g in
      (g, (fst s + Z_of_bool (hd_split h), snd s + Z_of_bool (hd_completed_pair h)))
  end.

Definition hear (fl : GearFleet) (frame : Z) (decoded : option DaliCommand) (repeats : bool) : GearFleet :=
  let '(gears, (split, pairs)) := thread (hear_one frame decoded repeats) (fl_gears fl) (0, 0) in
  let st := fl_stats fl in
  fl <| fl_gears := gears |>
     <| fl_stats := st <| st_send_twice_split_by_interloper := st_send_twice_split_by_interloper st + split |>
                       <| st_send_twice_pairs_executed := st_send_twice_pairs_executed st + pairs |> |>.

Definition take_enabled_device_type (fl : GearFleet) : option Z * GearFleet :=
  (fresh_device_type fl, fl <| fl_regs := fl_regs fl <| rg_enabled_device_type := None |> |>).

Definition carry_prelude_over_held_half (fl : GearFleet) (frame : Z) (enabled : option Z) : GearFleet :=
  match enabled with
  | None => fl
  | Some device_type =>
      if any_gear_holds fl frame
      then fl <| fl_regs := fl_regs fl <| rg_enabled_device_type := Some (device_type, fl_frame_seq fl) |> |>
      else fl
  end.

Definition exchange (fl : GearFleet) (frame : Z) (expects_backward : bool) : TransferOutcome * GearFleet :=
  let fl := fl <| fl_frame_seq := sat_add 64 (fl_frame_seq fl) 1 |> in
  let wire_address := wrap 8 (Z.shiftr frame 8) in
  let opcode := wrap 8 frame in
  let decoded := dali_command_from_wire wire_address opcode in
  let repeats := requires_repeat_under decoded wire_address opcode (fresh_device_type fl) in
  let fl := hear fl frame decoded repeats in
  let fl := if keeps_write_enabled decoded then fl
            else on_gears fl (fun _ => true) (fun g => g <| g_write_enabled := false |>) in
  match decoded with
  | Some (Special special) => on_special fl special
  | _ =>
      let '(enabled, fl) := take_enabled_device_type fl in
      let fl := carry_prelude_over_held_half fl frame enabled in
      match decode_wire_address wire_address with
      | None => publish_one fl None
      | Some address =>
          if Z.land wire_address 0x01 =? 0 then on_dapc fl address opcode
          else if expects_backward && (opcode =? READ_MEMORY_LOCATION_OPCODE) then on_read_memory_location fl address
          else if opt_is enabled (code Led) && is_dt6_opcode opcode then
            on_extended_dt6 fl address opcode expects_backward
          else if opt_is enabled (code Switching) && (EXTENDED_START <=? opcode) then
            on_extended_dt7 fl address opcode expects_backward
          else if is_dt8_opcode opcode ||
                  (opt_is enabled (code Color) && (opcode =? QUERY_EXTENDED_VERSION_NUMBER_OPCODE)) then
            on_extended_dt8 fl address opcode expects_backward enabled
          else match decoded with
               | Some (Standard _ command) => on_standard fl address command
               | _ => publish_one fl None
               end
      end
  end.

(** ** Prepared fleets *)

Definition demo_random_address (index : Z) : Z := Z.land (wrap 32 ((index + 1) * 0x00214365)) 0x00FFFFFF.

Definition demo_specs : list GearSpec :=
  map (fun short => spec_dt6 (Some short) (demo_random_address short)) (seqZ 0 4) ++
  [ spec_dt8 (Some 4) (demo_random_address 4) (true, false, false) (153, 370);
    spec_dt8 (Some 5) (demo_random_address 5) (false, true, true) (160, 400);
    spec_dt6 None (demo_random_address 6);
    spec_dt8 (Some 7) (demo_random_address 7) (false, true, true) (160, 400) <| sp_rgbwaf_channels := 6 |>;
    with_metering (spec_dt8 (Some 8) (demo_random_address 8) (true, false, false) (153, 370)) true true;
    spec_dt8 (Some 9) (demo_random_address 9) (true, false, false) (153, 370)
      <| sp_luminaire_format := Some V3 |> <| sp_bus_unit_extension := true |> ].

(** The first gear at address 8 gets a loadside bank. *)
Fixpoint update_first (p : GearUnit -> bool) (f : GearUnit -> GearUnit) (l : list GearUnit) : list GearUnit :=
  match l with
  | [] => []
  | g :: l => if p g then f g :: l else g :: update_first p f l
  end.
Definition demo_bus : GearFleet :=
  let fl := fleet_new demo_specs 0 0x00C0FFEE in
  fl <| fl_gears := update_first (fun g => opt_is (sp_short_address (g_spec g)) 8)
          (fun g => g <| g_metering := option_map (fun m => implement_loadside m 0 false) (g_metering g) |>)
          (fl_gears fl) |>.

(** The [while] of [bench_fleet]: the next address that is not reserved. *)
Fixpoint skip_reserved (fuel : nat) (reserved short : Z) : Z :=
  match fuel with
  | O => short
  | S fuel => if (short <=? SHORT_ADDRESS_MAX) && is_reserved reserved (Some short)
              then skip_reserved fuel reserved (short + 1) else short
  end.
Definition bench_spec (kind : Z) (short : option Z) (rng : Z) : GearSpec * Z :=
  let '(random, rng) := next_24 rng in
  (if kind =? 0 then spec_dt6 short random
   else if kind =? 1 then spec_dt8 short random (true, false, false) (TC_COOLEST_MIREK, TC_WARMEST_MIREK)
   else spec_dt8 short random (true, true, true) (TC_COOLEST_MIREK, TC_WARMEST_MIREK), rng).
Definition bench_push (reserved kind : Z) (s : list GearSpec * (Z * Z)) : list GearSpec * (Z * Z) :=
  let '(specs, (short, rng)) := s in
  let short := skip_reserved 64 reserved short in
  let '(spec, rng) := bench_spec kind (then_some (short <=? SHORT_ADDRESS_MAX) short) rng in
  (specs ++ [spec], (sat_add 8 short 1, rng)).
Definition bench_fleet (base dt6 cct rgb seed reserved : Z) : list GearSpec :=
  let push kind count s := Nat.iter (Z.to_nat count) (bench_push reserved kind) s in
  fst (push 2 rgb (push 1 cct (push 0 dt6 ([], (base, rng_new seed))))).

End Fleet.
