(* ===== verification/FleetLaws.v ===== *)
(** * What a frame does to a fleet

    The part of a gear that addressing depends on ([GearCore]) and how each kind
    of forward frame changes it and is answered: the clients of the bus are
    proved from these laws. *)

From Stdlib Require Import String.
From S2P Require Import Prelude RulesBase Gear GearCommand GearState Transport Banks GearModel Fleet.

Module FleetLaws.
Import Gear GearCommand GearState Transport Banks GearModel Fleet.

(** ** The core of a gear *)

Record GearCore := MkCore {
  k_spec : GearSpec; k_enabled : bool; k_initialise : bool; k_withdrawn : bool; k_pending : option PendingRandom;
  k_drop : Z }.

#[global] Instance eta_GearCore : Eta GearCore := fun k =>
  MkCore (k_spec k) (k_enabled k) (k_initialise k) (k_withdrawn k) (k_pending k) (k_drop k).

Definition core (g : GearUnit) : GearCore :=
  MkCore (g_spec g) (g_enabled g) (g_initialise g) (g_withdrawn g) (g_pending_random g)
    (fi_drop_answer_permille (g_faults g)).
Definition cores (f : GearFleet) : list GearCore := map core (fl_gears f).

Definition k_short (k : GearCore) : option Z := sp_short_address (k_spec k).
Definition k_random (k : GearCore) : Z := sp_random_address (k_spec k).

(** No random address is on its way, no answer is dropped. *)
Definition k_settled (k : GearCore) : Prop := k_pending k = None.
Definition k_answers (k : GearCore) : Prop := k_drop k = 0.
Definition settled (f : GearFleet) : Prop := Forall k_settled (cores f).

(** A change of a gear that its core does not see. *)
Ltac core_eq := reflexivity.

(** ** Hearing a frame *)

Lemma thread_map {A S} (f : A -> S -> A * S) (h : A -> A) l :
  (forall x s, fst (f x s) = h x) -> forall s, fst (thread f l s) = map h l.
Proof.
  intros Hf. induction l as [|x l IH]; intros s; [reflexivity|]. cbn [thread map]. specialize (Hf x s).
  destruct (f x s) as [x' s']. cbn [fst] in Hf. specialize (IH s'). destruct (thread f l s'). cbn [fst] in *. congruence.
Qed.

(** Whether the frame is for the gear. *)
Definition hears (decoded : option DaliCommand) (g : GearUnit) : bool :=
  match audience_of decoded with
  | Some Every => g_enabled g
  | Some (Addressed a) => gear_matches g a
  | None => false
  end.

Definition hear_gear (frame : Z) (decoded : option DaliCommand) (repeats : bool) (g : GearUnit) : GearUnit :=
  if hears decoded g then
    let '(h, g) := gear_hear g frame repeats in
    let g := g <| g_executes_now := hd_executes h |> in
    if is_walk_query decoded then g else cancel_device_type_walk g
  else snd (hear_elsewhere (g <| g_executes_now := false |>)).

Lemma hear_one_gear frame decoded repeats g s : fst (hear_one frame decoded repeats g s) = hear_gear frame decoded repeats g.
Proof.
  unfold hear_one, hear_gear, hears. destruct (audience_of decoded) as [[|a]|]; [destruct (g_enabled g)|destruct (gear_matches g a)|];
    try (now destruct (hear_elsewhere _)); destruct (gear_hear g frame repeats); reflexivity.
Qed.

(** The fleet when the frame's effect begins: the gear has heard it. *)
Definition prep_gear (frame : Z) (decoded : option DaliCommand) (repeats : bool) (g : GearUnit) : GearUnit :=
  let g := hear_gear frame decoded repeats g in
  if keeps_write_enabled decoded then g else g <| g_write_enabled := false |>.

Definition prep (f : GearFleet) (frame : Z) (decoded : option DaliCommand) (repeats : bool) : GearFleet :=
  let f := hear (f <| fl_frame_seq := sat_add 64 (fl_frame_seq f) 1 |>) frame decoded repeats in
  if keeps_write_enabled decoded then f else on_gears f (fun _ => true) (fun g => g <| g_write_enabled := false |>).

Lemma prep_fields f frame decoded repeats :
  let f' := prep f frame decoded repeats in
  fl_gears f' = map (prep_gear frame decoded repeats) (fl_gears f) /\ fl_regs f' = fl_regs f /\
  fl_rng f' = fl_rng f /\ fl_reserved f' = fl_reserved f /\ fl_now_ms f' = fl_now_ms f /\
  fl_frame_seq f' = sat_add 64 (fl_frame_seq f) 1.
Proof.
  cbn zeta. unfold prep, hear. cbn [fl_gears].
  pose proof (thread_map (hear_one frame decoded repeats) (hear_gear frame decoded repeats) (fl_gears f)
                (hear_one_gear frame decoded repeats) (0, 0)) as Ht.
  cbn. destruct (thread _ (fl_gears f) (0, 0)) as [gears [split pairs]]. cbn [fst] in Ht. subst gears. cbn.
  unfold prep_gear. destruct (keeps_write_enabled decoded); cbn; repeat split; try reflexivity.
  unfold for_gears. rewrite map_map. apply map_ext. reflexivity.
Qed.

Lemma core_gear_hear g frame repeats : core (snd (gear_hear g frame repeats)) = core g.
Proof. unfold gear_hear. now destruct (opt_is _ _). Qed.

Lemma core_hear_gear frame decoded repeats g : core (hear_gear frame decoded repeats g) = core g.
Proof.
  unfold hear_gear. destruct (hears decoded g); [|reflexivity]. pose proof (core_gear_hear g frame repeats) as Hc.
  destruct (gear_hear g frame repeats) as [h g']. cbn [snd] in Hc. rewrite <- Hc. now destruct (is_walk_query decoded).
Qed.

Lemma core_prep_gear frame decoded repeats g : core (prep_gear frame decoded repeats g) = core g.
Proof.
  rewrite <- (core_hear_gear frame decoded repeats g). unfold prep_gear. now destruct (keeps_write_enabled decoded).
Qed.

Lemma cores_prep f frame decoded repeats : cores (prep f frame decoded repeats) = cores f.
Proof.
  unfold cores. destruct (prep_fields f frame decoded repeats) as [-> _]. rewrite map_map. apply map_ext.
  intros g. apply core_prep_gear.
Qed.

(** ** Time *)

Lemma ripen_settled now g : k_settled (core g) -> ripen now g = g.
Proof. unfold k_settled, ripen. cbn. now intros ->. Qed.

Lemma advance_settled f t : settled f -> advance_to_ms f t = f <| fl_now_ms := Z.max (fl_now_ms f) t |>.
Proof.
  intros Hs. unfold advance_to_ms. cbn. assert (map (ripen (Z.max (fl_now_ms f) t)) (fl_gears f) = fl_gears f) as ->; [|reflexivity].
  unfold settled, cores in Hs. induction (fl_gears f) as [|g l IH]; [reflexivity|]. cbn in *. apply List.Forall_cons_iff in Hs as [Hg Hl].
  now rewrite ripen_settled, IH.
Qed.

(** ** Special commands *)

Lemma frame_wraps a b : in_u 8 a -> in_u 8 b ->
  wrap 8 (Z.shiftr (frame_new a b) 8) = a /\ wrap 8 (frame_new a b) = b.
Proof.
  intros Ha Hb. assert (frame_new a b = a * 2 ^ 8 + b) as ->.
  { unfold frame_new, shl. rewrite Z.shiftl_mul_pow2, wrap_id by (unfold in_u in *; lia). now rewrite lor_disjoint. }
  unfold in_u, wrap in *. rewrite Z.shiftr_div_pow2 by lia. change (2 ^ 8) with 256 in *. split; dlia.
Qed.

Definition special_frame (s : SpecialCommand) : Z := special_to_forward_frame s.

Lemma exchange_special f s eb :
  special_ok s ->
  exchange f (special_frame s) eb =
    on_special (prep f (special_frame s) (Some (Special s))
                  (requires_repeat_under (Some (Special s)) (fst (wire_bytes s)) (snd (wire_bytes s))
                     (fresh_device_type (f <| fl_frame_seq := sat_add 64 (fl_frame_seq f) 1 |>)))) s.
Proof.
  intros Hok. unfold special_frame. destruct (wire_special s Hok) as [_ Hd]. unfold special_to_forward_frame in *.
  assert (in_u 8 (fst (wire_bytes s))) as Ha by (destruct s; easy).
  unfold special_ok in Hok. destruct (wire_bytes s) as [a d]. cbn [fst snd] in *.
  destruct (frame_bytes a d Ha Hok) as (E1 & E2 & _). rewrite E1, E2 in Hd.
  unfold exchange. destruct (frame_wraps a d Ha Hok) as [-> ->]. rewrite Hd. reflexivity.
Qed.

(** Commands that act whether or not the gear executes them now. *)
Definition quiet_special (s : SpecialCommand) : bool :=
  match s with
  | Initialise _ | Randomise | WriteMemoryLocation _ | WriteMemoryLocationNoReply _ | QueryShortAddress => false
  | _ => true
  end.

Definition k_selected (search : Z) (k : GearCore) : bool := k_random k =? search.

Definition k_set_short (short : option Z) (k : GearCore) : GearCore :=
  k <| k_spec := k_spec k <| sp_short_address := short |> |>.

(** What a special command does to a gear. *)
Definition special_core (s : SpecialCommand) (search reserved : Z) (k : GearCore) : GearCore :=
  match s with
  | Terminate => k <| k_initialise := false |> <| k_withdrawn := false |>
  | Withdraw => if k_initialise k && k_selected search k then k <| k_withdrawn := true |> else k
  | ProgramShortAddress encoded =>
      let short := decode_short_reply encoded in
      if negb (is_reserved reserved (Some short)) && (k_initialise k && negb (k_withdrawn k) && k_selected search k)
      then k_set_short (Some short) k else k
  | _ => k
  end.

Definition special_search (s : SpecialCommand) (search : Z) : Z :=
  match s with
  | SearchAddrH v => set_search_byte search 16 v
  | SearchAddrM v => set_search_byte search 8 v
  | SearchAddrL v => set_search_byte search 0 v
  | _ => search
  end.

(** Which gear answers YES. *)
Definition special_yes (s : SpecialCommand) (search : Z) (k : GearCore) : bool :=
  match s with
  | Compare => k_enabled k && k_initialise k && negb (k_withdrawn k) && (k_random k <=? search)
  | VerifyShortAddress encoded => k_enabled k && k_initialise k && opt_is (k_short k) (decode_short_reply encoded)
  | _ => false
  end.

Definition yes_answers (p : GearCore -> bool) (ks : list GearCore) : list Z :=
  map (fun _ => DALI_YES) (List.filter p ks).

Lemma replies_yes p q l : (forall g, p g = q (core g)) -> replies p (fun _ => Some DALI_YES) l = yes_answers q (map core l).
Proof.
  intros Hp. unfold replies, yes_answers. induction l as [|g l IH]; [reflexivity|]. cbn. rewrite Hp.
  destruct (q (core g)); cbn; [f_equal|]; exact IH.
Qed.

Lemma cores_on_gears f p q h k :
  (forall g, p g = q (core g)) -> (forall g, core (h g) = k (core g)) ->
  cores (on_gears f p h) = map (fun c => if q c then k c else c) (cores f).
Proof.
  intros Hp Hh. unfold cores, on_gears, for_gears. cbn. rewrite !map_map. apply map_ext. intros g. rewrite Hp.
  destruct (q (core g)); [apply Hh|reflexivity].
Qed.

Lemma cores_on_gears_same f p h : (forall g, core (h g) = core g) -> cores (on_gears f p h) = cores f.
Proof.
  intros Hh. unfold cores, on_gears, for_gears. cbn. rewrite map_map. apply map_ext. intros g.
  destruct (p g); [apply Hh|reflexivity].
Qed.

(** The fields beside the gear that addressing depends on. *)
Definition same_bus (f f' : GearFleet) : Prop :=
  fl_rng f' = fl_rng f /\ fl_reserved f' = fl_reserved f /\ fl_now_ms f' = fl_now_ms f.

Definition after_special (s : SpecialCommand) (f : GearFleet) (r : TransferOutcome * GearFleet) : Prop :=
  cores (snd r) = map (special_core s (search_of f) (fl_reserved f)) (cores f) /\
  search_of (snd r) = special_search s (search_of f) /\ same_bus f (snd r) /\
  fst r = merge_answers (yes_answers (special_yes s (search_of f)) (cores f)).

Lemma yes_answers_none ks : yes_answers (fun _ => false) ks = [].
Proof. unfold yes_answers. induction ks; auto. Qed.

Lemma after_terminate f : after_special Terminate f (publish_one (terminate_initialise f) None).
Proof.
  repeat split; cbn [snd publish_one publish option_list merge_answers fst]; try (now rewrite yes_answers_none).
  change (cores (terminate_initialise f) = map (special_core Terminate (search_of f) (fl_reserved f)) (cores f)).
  unfold terminate_initialise. erewrite (cores_on_gears _ _ (fun _ => true)); [reflexivity|reflexivity|reflexivity].
Qed.

Lemma after_withdraw f : after_special Withdraw f (publish_one (on_withdraw f) None).
Proof.
  repeat split; cbn [snd publish_one publish option_list merge_answers fst]; try (now rewrite yes_answers_none).
  change (cores (on_withdraw f) = map (special_core Withdraw (search_of f) (fl_reserved f)) (cores f)).
  unfold on_withdraw. erewrite cores_on_gears; [reflexivity|reflexivity|reflexivity].
Qed.

Lemma after_program f data : after_special (ProgramShortAddress data) f (publish_one (program_short f data) None).
Proof.
  unfold program_short. cbn zeta. destruct (is_reserved (fl_reserved f) (Some (decode_short_reply data))) eqn:E;
    (repeat split; cbn [snd publish_one publish option_list merge_answers fst]; try (now rewrite yes_answers_none)).
  - change (cores f = map (special_core (ProgramShortAddress data) (search_of f) (fl_reserved f)) (cores f)).
    rewrite <- (map_id (cores f)) at 1. apply map_ext. intros k. cbn [special_core]. now rewrite E.
  - change (cores (on_gears f (fun g => g_initialise g && negb (g_withdrawn g) && selected (search_of f) g)
              (fun g => set_short g (Some (decode_short_reply data)))) =
            map (special_core (ProgramShortAddress data) (search_of f) (fl_reserved f)) (cores f)).
    rewrite (cores_on_gears _ _ (fun k => k_initialise k && negb (k_withdrawn k) && k_selected (search_of f) k) _
               (k_set_short (Some (decode_short_reply data)))) by reflexivity.
    apply map_ext. intros k. cbn [special_core]. now rewrite E.
Qed.

Lemma on_special_quiet f s : quiet_special s = true -> after_special s f (on_special f s).
Proof.
  intros Hq. unfold on_special.
  assert (on_memory_write f s = None) as -> by now destruct s.
  set (f' := if stops_identification s then _ else f).
  assert (cores f' = cores f /\ search_of f' = search_of f /\ same_bus f f') as (Ec & Es & Eb).
  { unfold f'. destruct (stops_identification s); [|repeat split; reflexivity].
    split; [now apply cores_on_gears_same|repeat split; reflexivity]. }
  clearbody f'. destruct Eb as (E1 & E2 & E3). unfold after_special, same_bus. rewrite <- Ec, <- Es, <- E1, <- E2, <- E3.
  clear Ec Es E1 E2 E3 f. rename f' into f. pose proof (after_terminate f) as Ht. pose proof (after_withdraw f) as Hw.
  destruct s; try discriminate; try (apply Ht); try (apply Hw); try (apply after_program);
    (repeat split; [try (unfold cores; cbn; now rewrite map_id)|try (cbn; now rewrite yes_answers_none)..]);
    try (unfold on_compare, verify_short, publish; cbn [fst]; now erewrite replies_yes).
Qed.

(** ** A quiet special command on the wire *)

Lemma exchange_quiet f s eb :
  special_ok s -> quiet_special s = true -> after_special s f (exchange f (special_frame s) eb).
Proof.
  intros Hok Hq. rewrite exchange_special by assumption. set (f' := prep _ _ _ _).
  pose proof (on_special_quiet f' s Hq) as H.
  destruct (prep_fields f (special_frame s) (Some (Special s))
    (requires_repeat_under (Some (Special s)) (fst (wire_bytes s)) (snd (wire_bytes s))
       (fresh_device_type (f <| fl_frame_seq := sat_add 64 (fl_frame_seq f) 1 |>)))) as (_ & E1 & E2 & E3 & E4 & _).
  fold f' in E1, E2, E3, E4. unfold after_special, same_bus, search_of in *.
  assert (cores f' = cores f) as Ec by apply cores_prep.
  now rewrite E1, E2, E3, E4, Ec in H.
Qed.

(** ** Standard commands on the wire *)

Definition query_frame (a : DaliAddress) (c : StandardCommand) : Z := default 0 (standard_to_forward_frame c a).

Lemma low_opcodes op : in_u 8 op -> op < 0xE0 ->
  dt6_from_opcode op = None /\ dt7_from_opcode op = None /\ dt8_from_opcode op = None.
Proof.
  intros Ho Hlt. assert (forall o, in_u 8 o -> (o <? 0xE0) && (is_some (dt6_from_opcode o) || is_some (dt7_from_opcode o) ||
    is_some (dt8_from_opcode o)) = false) as H by by_evaluation.
  specialize (H op Ho). apply Z.ltb_lt in Hlt. rewrite Hlt in H. cbn in H.
  destruct (dt6_from_opcode op), (dt7_from_opcode op), (dt8_from_opcode op); try discriminate; auto.
Qed.

Lemma extended_under_low t op : in_u 8 op -> op < 0xE0 -> extended_under t op = None.
Proof.
  intros Ho Hlt. destruct (low_opcodes op Ho Hlt) as (E6 & E7 & E8). unfold extended_under.
  destruct (DeviceType_from_u8 t) as [[]|]; rewrite ?E6, ?E7, ?E8; reflexivity.
Qed.

(** The fleet when an addressed command's effect begins. *)
Definition addressed (f : GearFleet) (frame : Z) (decoded : option DaliCommand) (repeats : bool) : GearFleet :=
  let '(enabled, f) := take_enabled_device_type (prep f frame decoded repeats) in carry_prelude_over_held_half f frame enabled.

Lemma addressed_fields f frame decoded repeats :
  let f' := addressed f frame decoded repeats in
  fl_gears f' = map (prep_gear frame decoded repeats) (fl_gears f) /\ cores f' = cores f /\
  search_of f' = search_of f /\ same_bus f f' /\ rg_dtr0 (fl_regs f') = rg_dtr0 (fl_regs f).
Proof.
  destruct (prep_fields f frame decoded repeats) as (E0 & E1 & E2 & E3 & E4 & _).
  pose proof (cores_prep f frame decoded repeats) as Ec. unfold addressed, search_of in *. set (p := prep _ _ _ _) in *. clearbody p.
  assert (fl_gears (let '(enabled, f0) := take_enabled_device_type p in carry_prelude_over_held_half f0 frame enabled) = fl_gears p)
    as Eg by (cbn; unfold carry_prelude_over_held_half; destruct (fresh_device_type p); [destruct (any_gear_holds _ _)|]; reflexivity).
  cbn zeta. unfold cores in *. rewrite Eg. repeat split; try assumption; rewrite <- ?E1, <- ?E2, <- ?E3, <- ?E4;
    cbn; unfold carry_prelude_over_held_half; destruct (fresh_device_type p); try (destruct (any_gear_holds _ _)); reflexivity.
Qed.

Lemma standard_query_opcode c : standard_ok c -> standard_is_query c = true ->
  0x90 <= standard_opcode c < 0xC5 /\ requires_repeat (Standard Broadcast c) = false.
Proof.
  intros Hok Hq. assert (forall x, in_u 4 x -> 0x90 <= Z.lor 0xB0 (Z.land x 0x0F) < 0xC5) as H by by_evaluation.
  destruct c; try discriminate; cbn [standard_ok] in Hok; (split; [|reflexivity]); try (cbn; lia). now apply H.
Qed.

Lemma exchange_query f a c eb :
  address_ok a -> standard_ok c -> standard_is_query c = true ->
  exchange f (query_frame a c) eb =
    on_standard (addressed f (query_frame a c) (Some (Standard a c)) false) a c.
Proof.
  intros Ha Hc Hq. assert (is_dapc c = false) as Hd by now destruct c.
  unfold query_frame. rewrite (standard_frame c a Hd). cbv [default from_option id].
  destruct (standard_opcode_decodes c Hc Hd) as (Ho & He & Hs). destruct (wire_addressed a _ Ha Ho) as [_ Hdec].
  rewrite He, Hs in Hdec. cbn [option_map] in Hdec. destruct (standard_query_opcode c Hc Hq) as [[Hlo Hhi] Hr].
  destruct (address_byte_forms a Ha) as [_ (Hb & Hodd & Hda & _)].
  destruct (frame_bytes _ _ Hb Ho) as (E1 & E2 & _). rewrite E1, E2 in Hdec.
  set (fr := frame_new _ _) in *. destruct (frame_wraps _ _ Hb Ho) as [W1 W2]. fold fr in W1, W2.
  unfold exchange. rewrite W1, W2, Hdec.
  assert (forall t, requires_repeat_under (Some (Standard a c)) (Z.lor (encode_address_byte a) 1) (standard_opcode c) t = false) as ->.
  { intros t. unfold requires_repeat_under. destruct t as [t|]; [|exact Hr]. rewrite extended_under_low by (assumption || lia).
    destruct (negb _); exact Hr. }
  fold (prep f fr (Some (Standard a c)) false).
  destruct (low_opcodes (standard_opcode c) Ho) as (L6 & L7 & L8); [lia|].
  unfold addressed. destruct (take_enabled_device_type _) as [enabled f2]. rewrite Hda, Hodd.
  unfold is_dt6_opcode, is_dt8_opcode. rewrite L6, L8. cbn [is_some]. rewrite !andb_false_r.
  rewrite (proj2 (Z.eqb_neq _ READ_MEMORY_LOCATION_OPCODE)) by (unfold READ_MEMORY_LOCATION_OPCODE; lia).
  rewrite (proj2 (Z.leb_gt EXTENDED_START _)) by (unfold EXTENDED_START; lia).
  rewrite (proj2 (Z.eqb_neq _ QUERY_EXTENDED_VERSION_NUMBER_OPCODE)) by (unfold QUERY_EXTENDED_VERSION_NUMBER_OPCODE; lia).
  now rewrite !andb_false_r.
Qed.

(** The answer of one gear, none dropped. *)
Definition reply_value (r : TransferOutcome) : option Z := match r with OutAnswer v => Some v | _ => None end.

Definition query_gear (a : DaliAddress) (c : StandardCommand) (g : GearUnit) : GearUnit :=
  if gear_matches g a then snd (gear_query_reply g c) else g.
Definition query_answer (a : DaliAddress) (c : StandardCommand) (g : GearUnit) : option Z :=
  if gear_matches g a then reply_value (fst (gear_query_reply g c)) else None.

Lemma core_query_reply g c : core (snd (gear_query_reply g c)) = core g.
Proof.
  unfold gear_query_reply. set (g1 := match c with QueryDeviceType | QueryNextDeviceType => g | _ => _ end).
  assert (core g1 = core g) as <- by now destruct c. clearbody g1.
  set (g2 := if is_dt8 g1 then _ else g1).
  assert (core g2 = core g1) as <- by (unfold g2; destruct (is_dt8 g1); now destruct c). clearbody g2.
  destruct (level_query_reply g2 c); [reflexivity|]. unfold identity_query_reply.
  destruct c; try reflexivity; unfold device_type_reply, next_device_type_reply.
  - destruct (sp_device_types (g_spec g2)) as [|? [|? ?]]; reflexivity.
  - destruct (g_device_type_walk g2) as [cursor|]; [destruct (aget _ cursor)|]; reflexivity.
Qed.

Lemma thread_queries a c l rng dropped :
  Forall (fun g => k_answers (core g)) l ->
  forall buf, thread (query_one a c None) l (buf, (rng, dropped)) =
    (map (query_gear a c) l, (buf ++ omap (query_answer a c) l, (rng, dropped))).
Proof.
  induction l as [|g l IH]; intros Hd buf; [cbn; now rewrite app_nil_r|]. apply List.Forall_cons_iff in Hd as [Hg Hl].
  specialize (IH Hl). unfold k_answers in Hg. cbn [core k_drop] in Hg.
  cbn [thread map]. unfold query_one at 1, query_gear at 1. destruct (gear_matches g a) eqn:Em; [|rewrite IH].
  2:{ change (omap (query_answer a c) (g :: l)) with
        (match query_answer a c g with Some v => v :: omap (query_answer a c) l | None => omap (query_answer a c) l end).
      unfold query_answer at 2. now rewrite Em. }
  change (omap (query_answer a c) (g :: l)) with
    (match query_answer a c g with Some v => v :: omap (query_answer a c) l | None => omap (query_answer a c) l end).
  unfold query_answer at 1. rewrite Em. pose proof (core_query_reply g c) as Hc.
  destruct (gear_query_reply g c) as [reply g']. cbn [fst snd] in *.
  assert (fi_drop_answer_permille (g_faults g') = 0) as Hd by (injection Hc; congruence).
  unfold answer_of, chance_permille. rewrite Hd. cbn [Z.eqb].
  destruct reply; cbn [reply_value option_list fst snd]; rewrite IH, <- ?app_assoc, ?app_nil_r; reflexivity.
Qed.

(** What a query leaves behind, none of the gear dropping answers. *)
Definition after_query (a : DaliAddress) (c : StandardCommand) (f : GearFleet) (r : TransferOutcome * GearFleet) : Prop :=
  let gears := map (prep_gear (query_frame a c) (Some (Standard a c)) false) (fl_gears f) in
  fl_gears (snd r) = map (query_gear a c) gears /\ cores (snd r) = cores f /\ search_of (snd r) = search_of f /\
  same_bus f (snd r) /\ fst r = merge_answers (omap (query_answer a c) gears).

Definition reads_register (c : StandardCommand) : bool :=
  match c with QueryContentDtr0 | QueryContentDtr1 | QueryContentDtr2 => true | _ => false end.

Lemma core_query_gear a c g : core (query_gear a c g) = core g.
Proof. unfold query_gear. destruct (gear_matches g a); [apply core_query_reply|reflexivity]. Qed.

Lemma exchange_query_law f a c eb :
  address_ok a -> standard_ok c -> standard_is_query c = true -> reads_register c = false ->
  Forall k_answers (cores f) -> after_query a c f (exchange f (query_frame a c) eb).
Proof.
  intros Ha Hc Hq Hr Hd. rewrite exchange_query by assumption.
  destruct (addressed_fields f (query_frame a c) (Some (Standard a c)) false) as (Eg & Ec & Es & Eb & _).
  set (f1 := addressed _ _ _ _) in *. unfold on_standard, standard_query. rewrite Hq. cbn [negb].
  assert (bus_register_query f1 c = None) as -> by now destruct c.
  assert (Forall (fun g => k_answers (core g)) (fl_gears f1)) as Hd1.
  { rewrite <- Ec in Hd. unfold cores in Hd. rewrite List.Forall_map in Hd. exact Hd. }
  rewrite (thread_queries a c _ _ _ Hd1). cbn [app]. unfold after_query. rewrite <- Eg. cbn [fst snd publish].
  assert (cores (f1 <| fl_gears := map (query_gear a c) (fl_gears f1) |>) = cores f) as Ecs.
  { unfold cores in *. cbn. rewrite map_map, <- Ec. apply map_ext. intros g. apply core_query_gear. }
  destruct Eb as (E1 & E2 & E3). unfold same_bus, search_of in *. repeat split; assumption || reflexivity.
Qed.

(** *** Answers that the core decides *)

Definition k_matches (a : DaliAddress) (k : GearCore) : bool :=
  k_enabled k && match a with
                 | Short s => opt_is (k_short k) s
                 | Broadcast => true
                 | BroadcastUnaddressed => negb (is_some (k_short k))
                 | Group _ => false
                 end.

Definition no_group (a : DaliAddress) : Prop := match a with Group _ => False | _ => True end.

Lemma matches_core a g : no_group a -> gear_matches g a = k_matches a (core g).
Proof. intros Ha. unfold gear_matches, k_matches. cbn. destruct (g_enabled g), a; try reflexivity; now destruct Ha. Qed.

(** What a gear answers to a query of its identity. *)
Definition core_answer (c : StandardCommand) (k : GearCore) : option Z :=
  match c with
  | QueryControlGearPresent => Some DALI_YES
  | QueryMissingShortAddress => if negb (is_some (k_short k)) then Some DALI_YES else None
  | QueryDeviceType =>
      Some (match sp_device_types (k_spec k) with [] => DEVICE_TYPE_LIST_END | [t] => t | _ => DEVICE_TYPE_MULTIPLE end)
  | QueryRandomAddressH => Some (wrap 8 (Z.shiftr (k_random k) 16))
  | QueryRandomAddressM => Some (wrap 8 (Z.shiftr (k_random k) 8))
  | QueryRandomAddressL => Some (wrap 8 (k_random k))
  | _ => None
  end.
Definition identity_query (c : StandardCommand) : bool :=
  match c with
  | QueryControlGearPresent | QueryMissingShortAddress | QueryDeviceType | QueryRandomAddressH | QueryRandomAddressM
  | QueryRandomAddressL => true
  | _ => false
  end.

Lemma identity_answer c g : identity_query c = true -> reply_value (fst (gear_query_reply g c)) = core_answer c (core g).
Proof.
  intros Hi. unfold gear_query_reply. destruct c; try discriminate; cbn [core_answer];
    try (destruct (is_dt8 _); reflexivity).
  - destruct (is_dt8 _); cbn; destruct (is_some _); reflexivity.
  - assert ((if is_dt8 g then g else g) = g) as -> by now destruct (is_dt8 g).
    unfold level_query_reply, identity_query_reply, device_type_reply. cbn [core k_spec].
    destruct (sp_device_types (g_spec g)) as [|? [|? ?]]; reflexivity.
Qed.

Definition core_answers (a : DaliAddress) (c : StandardCommand) (ks : list GearCore) : list Z :=
  omap (fun k => if k_matches a k then core_answer c k else None) ks.

Lemma identity_answers a c frame decoded l :
  no_group a -> identity_query c = true ->
  omap (query_answer a c) (map (prep_gear frame decoded false) l) = core_answers a c (map core l).
Proof.
  intros Ha Hi. unfold core_answers. induction l as [|g l IH]; [reflexivity|]. cbn [map].
  change (omap ?f (?x :: ?l)) with (match f x with Some v => v :: omap f l | None => omap f l end). rewrite IH.
  assert (query_answer a c (prep_gear frame decoded false g) = if k_matches a (core g) then core_answer c (core g) else None) as ->.
  { unfold query_answer. rewrite matches_core, identity_answer, core_prep_gear by assumption. reflexivity. }
  destruct (if k_matches a (core g) then _ else _); reflexivity.
Qed.

(** ** The walk over the device types *)

(** The gear a frame is for are all at one place of their walks. *)
Definition walks_at (a : DaliAddress) (w : GearUnit -> option Z) (f : GearFleet) : Prop :=
  forall g, g ∈ fl_gears f -> gear_matches g a = true -> g_device_type_walk g = w g.

Lemma prep_walk a c g :
  is_walk_query (Some (Standard a c)) = true -> gear_matches g a = true ->
  g_device_type_walk (prep_gear (query_frame a c) (Some (Standard a c)) false g) = g_device_type_walk g /\
  g_spec (prep_gear (query_frame a c) (Some (Standard a c)) false g) = g_spec g.
Proof.
  intros Hw Hm. unfold prep_gear, hear_gear, hears. cbn [audience_of]. rewrite Hm, Hw. unfold gear_hear.
  destruct (opt_is _ _); destruct (keeps_write_enabled _); split; reflexivity.
Qed.

Lemma query_gear_matches a c g : no_group a -> gear_matches (query_gear a c g) a = gear_matches g a.
Proof. intros Ha. rewrite !matches_core by assumption. now rewrite core_query_gear. Qed.

Lemma prep_matches a g frame decoded repeats :
  no_group a -> gear_matches (prep_gear frame decoded repeats g) a = gear_matches g a.
Proof. intros Ha. rewrite !matches_core by assumption. now rewrite core_prep_gear. Qed.

Definition types_of (g : GearUnit) : list Z := sp_device_types (g_spec g).

(** QUERY DEVICE TYPE opens the walk of a gear with several types. *)
Lemma walk_opens a f o f' :
  no_group a -> after_query a QueryDeviceType f (o, f') ->
  walks_at a (fun g => match types_of g with _ :: _ :: _ => Some 0 | _ => None end) f'.
Proof.
  intros Ha (Eg & _) g' Hin Hm. cbn [snd] in Eg. rewrite Eg in Hin. rewrite map_map in Hin.
  apply list_elem_of_fmap in Hin as (g & -> & Hin). rewrite query_gear_matches, prep_matches in Hm by assumption.
  unfold types_of, query_gear. rewrite prep_matches, Hm by assumption.
  destruct (prep_walk a QueryDeviceType g eq_refl Hm) as [_ Es]. set (g1 := prep_gear _ _ _ g) in *. clearbody g1.
  unfold gear_query_reply. assert ((if is_dt8 g1 then g1 else g1) = g1) as -> by now destruct (is_dt8 g1).
  unfold level_query_reply, identity_query_reply, device_type_reply.
  destruct (sp_device_types (g_spec g1)) as [|? [|? ?]] eqn:E; cbn; now rewrite E.
Qed.

(** QUERY NEXT DEVICE TYPE answers the type the walk is at, and moves on. *)
Lemma walk_steps a f o f' i :
  no_group a -> walks_at a (fun _ => Some i) f -> after_query a QueryNextDeviceType f (o, f') ->
  o = merge_answers (omap (fun k => if k_matches a k
                                    then Some (default DEVICE_TYPE_LIST_END (aget (sp_device_types (k_spec k)) i))
                                    else None) (cores f)) /\
  walks_at a (fun g => if is_some (aget (types_of g) i) then Some (i + 1) else Some i) f'.
Proof.
  intros Ha Hw (Eg & _ & _ & _ & Eo). cbn [fst snd] in *.
  assert (forall g, g ∈ fl_gears f -> gear_matches g a = true ->
            let g1 := prep_gear (query_frame a QueryNextDeviceType) (Some (Standard a QueryNextDeviceType)) false g in
            gear_query_reply g1 QueryNextDeviceType =
              match aget (types_of g) i with
              | Some t => (OutAnswer t, g1 <| g_device_type_walk := Some (i + 1) |>)
              | None => (OutAnswer DEVICE_TYPE_LIST_END, g1)
              end /\ g_device_type_walk g1 = Some i /\ types_of g1 = types_of g) as Hq.
  { intros g Hin Hm g1. destruct (prep_walk a QueryNextDeviceType g eq_refl Hm) as [Ew Es]. fold g1 in Ew, Es.
    rewrite (Hw g Hin Hm) in Ew. unfold types_of. rewrite <- Es. clearbody g1. split; [|now split].
    unfold gear_query_reply. assert ((if is_dt8 g1 then g1 else g1) = g1) as -> by now destruct (is_dt8 g1).
    unfold level_query_reply, identity_query_reply, next_device_type_reply. rewrite Ew.
    destruct (aget _ i); reflexivity. }
  split.
  - rewrite Eo. f_equal. unfold cores. clear Eg Eo. revert Hq. clear Hw. induction (fl_gears f) as [|g l IH]; intros Hq; [reflexivity|].
    cbn [map]. change (omap ?f (?x :: ?l)) with (match f x with Some v => v :: omap f l | None => omap f l end).
    rewrite IH by (intros g' Hg'; apply Hq; now right).
    unfold query_answer at 1. rewrite prep_matches by assumption. rewrite <- (matches_core a g) by assumption.
    destruct (gear_matches g a) eqn:Em; [|reflexivity]. destruct (Hq g ltac:(left) Em) as [-> _].
    change (k_spec (core g)) with (g_spec g). unfold types_of. destruct (aget _ i); reflexivity.
  - intros g' Hin Hm. rewrite Eg, map_map in Hin. apply list_elem_of_fmap in Hin as (g & -> & Hin).
    rewrite query_gear_matches, prep_matches in Hm by assumption. destruct (Hq g Hin Hm) as (E1 & E2 & E3).
    unfold query_gear. rewrite prep_matches, Hm by assumption. rewrite E1.
    destruct (aget (types_of g) i) as [t|] eqn:Et; cbn [snd].
    + change (types_of (_ <| g_device_type_walk := _ |>)) with
        (types_of (prep_gear (query_frame a QueryNextDeviceType) (Some (Standard a QueryNextDeviceType)) false g)).
      rewrite E3, Et. reflexivity.
    + rewrite E3, Et. exact E2.
Qed.

(** ** Extended queries *)

(** An addressed frame of an extended opcode that is asked leaves every core. *)
Definition undisturbed (f : GearFleet) (r : TransferOutcome * GearFleet) : Prop :=
  cores (snd r) = cores f /\ search_of (snd r) = search_of f /\ same_bus f (snd r).

Lemma undisturbed_trans f f' r : cores f' = cores f -> search_of f' = search_of f -> same_bus f f' -> undisturbed f' r -> undisturbed f r.
Proof. unfold undisturbed, same_bus. intros -> -> (-> & -> & ->). auto. Qed.

Lemma publish_undisturbed f b : undisturbed f (publish f b).
Proof. repeat split. Qed.
#[local] Hint Resolve publish_undisturbed : oxi.

Lemma dt6_undisturbed f a op : undisturbed f (on_extended_dt6 f a op true).
Proof.
  unfold on_extended_dt6, constant_reply. destruct (op =? _); [apply publish_undisturbed|].
  unfold dt6_failure_query, constant_reply. destruct (op =? _); [apply publish_undisturbed|].
  destruct (op =? _); [apply publish_undisturbed|]. destruct (dt6_from_opcode op) as [c|];
    [destruct (dt6_bit c)|]; try apply publish_undisturbed; destruct (negb _); apply publish_undisturbed.
Qed.

Lemma dt7_undisturbed f a op : undisturbed f (on_extended_dt7 f a op true).
Proof. unfold on_extended_dt7, on_dt7_query. destruct (dt7_from_opcode op); apply publish_undisturbed. Qed.

Lemma dt8_undisturbed f a op enabled : undisturbed f (on_extended_dt8 f a op true enabled).
Proof.
  unfold on_extended_dt8. destruct enabled as [c|]; [|repeat split]. destruct (c =? _); [|apply publish_undisturbed].
  unfold on_dt8, on_dt8_query. destruct (op =? _).
  - unfold dt8_color_value_reply. destruct (replies _ _ _) as [|v l]; [apply publish_undisturbed|].
    destruct (forallb _ _); repeat split.
  - unfold constant_reply. repeat (destruct (op =? _); [apply publish_undisturbed|]). apply publish_undisturbed.
Qed.

Lemma extended_opcode_range op : in_u 8 op -> 0xE0 <= op ->
  forall e, decode_standard_command op = Some e -> False.
Proof.
  intros Ho Hle e. assert (forall o, in_u 8 o -> (0xE0 <=? o) && is_some (decode_standard_command o) = false) as H by by_evaluation.
  specialize (H op Ho). apply Z.leb_le in Hle. rewrite Hle in H. cbn in H. intros E. now rewrite E in H.
Qed.

Definition addressed_frame (a : DaliAddress) (op : Z) : Z := frame_new (Z.lor (encode_address_byte a) 1) op.

Lemma exchange_extended_query f a op : address_ok a -> in_u 8 op -> 0xE0 <= op ->
  undisturbed f (exchange f (addressed_frame a op) true).
Proof.
  intros Ha Ho Hle. unfold addressed_frame. destruct (wire_addressed a op Ha Ho) as [_ Hdec].
  destruct (address_byte_forms a Ha) as [_ (Hb & Hodd & Hda & _)]. destruct (frame_bytes _ _ Hb Ho) as (E1 & E2 & _).
  rewrite E1, E2 in Hdec. set (fr := frame_new _ _) in *. destruct (frame_wraps _ _ Hb Ho) as [W1 W2]. fold fr in W1, W2.
  unfold exchange. rewrite W1, W2. set (decoded := dali_command_from_wire _ _) in *.
  set (repeats := requires_repeat_under _ _ _ _). fold (prep f fr decoded repeats).
  assert (forall s, decoded <> Some (Special s)) as Hns.
  { intros s. rewrite Hdec. destruct (extended_from_opcode op); [discriminate|]. now destruct (decode_standard_command op). }
  assert (forall a' s, decoded <> Some (Standard a' s)) as Hnst.
  { intros a' s. rewrite Hdec. destruct (extended_from_opcode op); [discriminate|].
    destruct (decode_standard_command op) eqn:E; [|discriminate]. now destruct (extended_opcode_range op Ho Hle _ E). }
  destruct (addressed_fields f fr decoded repeats) as (_ & Ec & Es & Eb & _). unfold addressed in *.
  destruct (take_enabled_device_type (prep f fr decoded repeats)) as [enabled f1].
  set (f2 := carry_prelude_over_held_half f1 fr enabled) in *.
  enough (undisturbed f2
    (if Z.land (Z.lor (encode_address_byte a) 1) 1 =? 0 then on_dapc f2 a op
     else if true && (op =? READ_MEMORY_LOCATION_OPCODE) then on_read_memory_location f2 a
     else if opt_is enabled (code Led) && is_dt6_opcode op then on_extended_dt6 f2 a op true
     else if opt_is enabled (code Switching) && (EXTENDED_START <=? op) then on_extended_dt7 f2 a op true
     else if is_dt8_opcode op || (opt_is enabled (code Color) && (op =? QUERY_EXTENDED_VERSION_NUMBER_OPCODE))
     then on_extended_dt8 f2 a op true enabled
     else match decoded with Some (Standard _ c) => on_standard f2 a c | _ => publish_one f2 None end)) as Hu.
  { apply (undisturbed_trans _ f2); try assumption. destruct decoded as [[a' c|a' e|s]|]; rewrite ?Hda; try exact Hu.
    now destruct (Hns s). }
  rewrite Hodd. rewrite (proj2 (Z.eqb_neq op READ_MEMORY_LOCATION_OPCODE)) by (unfold READ_MEMORY_LOCATION_OPCODE; lia).
  cbn [Z.eqb andb]. destruct (opt_is _ _ && is_dt6_opcode op); [apply dt6_undisturbed|].
  destruct (opt_is _ _ && _); [apply dt7_undisturbed|]. destruct (is_dt8_opcode op || _); [apply dt8_undisturbed|].
  destruct decoded as [[a' c|a' e|s]|]; try apply publish_undisturbed. now destruct (Hnst a' c).
Qed.

(** ** Drawing random addresses *)

Lemma next_u32_range x : in_u 32 x -> in_u 32 (fst (next_u32 x)) /\ snd (next_u32 x) = fst (next_u32 x).
Proof.
  intros Hx. unfold next_u32. split; [|reflexivity]. cbn [fst].
  assert (forall a b, in_u 32 a -> in_u 32 b -> in_u 32 (Z.lxor a b)) as Hl.
  { intros a b Ha Hb. unfold in_u in *. split; [apply Z.lxor_nonneg; lia|].
    destruct (Z.eq_dec (Z.lxor a b) 0) as [->|Hn]; [lia|]. assert (0 <= Z.lxor a b) by (apply Z.lxor_nonneg; lia).
    apply Z.log2_lt_pow2; [lia|]. pose proof (Z.log2_lxor a b ltac:(lia) ltac:(lia)).
    assert (forall z, 0 <= z < 2 ^ 32 -> Z.log2 z < 32) as Hlog.
    { intros z Hz. destruct (Z.eq_dec z 0) as [->|?]; [cbn; lia|]. apply Z.log2_lt_pow2; lia. }
    pose proof (Hlog a Ha). pose proof (Hlog b Hb). lia. }
  assert (forall a n, in_u 32 (shl 32 a n)) as Hs by (intros; apply wrap_range; lia).
  apply Hl; [|apply Hs]. apply Hl; [apply Hl; [assumption|apply Hs]|]. apply shiftr_in_u; [lia|]. apply Hl; [assumption|apply Hs].
Qed.

(** The state after a rejected draw: its low 24 bits are ones. *)
Lemma rejected_state v : in_u 32 v -> Z.land v 0x00FFFFFF = 0xFFFFFF -> exists h, in_u 8 h /\ v = h * 2 ^ 24 + 0xFFFFFF.
Proof.
  intros Hv Hl. exists (Z.shiftr v 24). change 0x00FFFFFF with (Z.ones 24) in Hl. rewrite Z.land_ones in Hl by lia. change (Z.ones 24) with 16777215 in Hl.
  rewrite Z.shiftr_div_pow2 by lia. unfold in_u in *. change (2 ^ 24) with 16777216 in *. change (2 ^ 32) with 4294967296 in *.
  change (2 ^ 8) with 256. split; dlia.
Qed.

Lemma second_draw h : in_u 8 h ->
  Z.land (fst (next_u32 (h * 2 ^ 24 + 0xFFFFFF))) 0x00FFFFFF <> 0xFFFFFF.
Proof.
  intros Hh. assert (forall h, in_u 8 h -> (Z.land (fst (next_u32 (h * 2 ^ 24 + 0xFFFFFF))) 0x00FFFFFF =? 0xFFFFFF) = false) as H
    by by_evaluation.
  specialize (H h Hh). now apply Z.eqb_neq in H.
Qed.

(** A draw takes two words at most: whatever the generator's state, the fuel of
    the loop is enough and the address drawn is a random address. *)
Lemma draw_succeeds rng fuel : in_u 32 rng -> (2 <= fuel)%nat ->
  exists a rng', draw_random_address fuel rng = Some (a, rng') /\ 0 <= a <= RANDOM_ADDRESS_MAX /\ in_u 32 rng'.
Proof.
  intros Hr Hf. destruct fuel as [|[|fuel]]; [lia..|].
  assert (forall v, 0 <= Z.land v 0x00FFFFFF <= 0xFFFFFF) as Hland.
  { intros v. change 0x00FFFFFF with (Z.ones 24). rewrite Z.land_ones by lia.
    pose proof (Z.mod_pos_bound v (2 ^ 24)). change (Z.ones 24) with 16777215. change (2 ^ 24) with 16777216 in *. lia. }
  destruct (next_u32_range rng Hr) as [Hn En]. cbn [draw_random_address]. unfold next_24 at 1.
  destruct (next_u32 rng) as [v r]. cbn [fst snd] in Hn, En. subst r. pose proof (Hland v) as Hv.
  destruct (Z.leb_spec (Z.land v 0x00FFFFFF) RANDOM_ADDRESS_MAX) as [Hle|Hgt];
    [do 2 eexists; split; [reflexivity|split; [lia|assumption]]|].
  unfold RANDOM_ADDRESS_MAX in Hgt. destruct (rejected_state v Hn) as (h & Hh & ->); [lia|].
  pose proof (second_draw h Hh) as H2. destruct (next_u32_range _ Hn) as [Hn2 En2]. unfold next_24.
  destruct (next_u32 (h * 2 ^ 24 + 16777215)) as [v r]. cbn [fst snd] in *. subst r. pose proof (Hland v) as Hv2.
  unfold RANDOM_ADDRESS_MAX. destruct (Z.leb_spec (Z.land v 0x00FFFFFF) 0x00FFFFFE) as [Hle|Hgt2];
    [do 2 eexists; split; [reflexivity|split; [lia|assumption]]|lia].
Qed.

Lemma draw_any_fuel rng fuel a rng' : draw_random_address 2 rng = Some (a, rng') -> (2 <= fuel)%nat ->
  draw_random_address fuel rng = Some (a, rng').
Proof.
  intros H Hf. destruct fuel as [|[|fuel]]; [lia..|]. cbn [draw_random_address] in *.
  destruct (next_24 rng) as [v r]. destruct (_ <=? _); [exact H|]. destruct (next_24 r) as [v2 r2].
  destruct (_ <=? _); [exact H|discriminate].
Qed.

(** the draw of a random address ends: the loop rejects the reserved value
    until the generator gives another, and whatever the generator's state the
    second word does, so the address is found and any fuel from two on finds it. *)
Theorem random_draw_total rng : in_u 32 rng ->
  exists a rng', (forall fuel, (2 <= fuel)%nat -> draw_random_address fuel rng = Some (a, rng')) /\
    0 <= a <= RANDOM_ADDRESS_MAX /\ in_u 32 rng'.
Proof.
  intros Hr. destruct (draw_succeeds rng 2 Hr (Nat.le_refl 2)) as (a & rng' & H & Ha & Hr'). exists a, rng'.
  split; [intros fuel Hf; now apply draw_any_fuel|now split].
Qed.

(** A state whose next word is the reserved one. *)
Definition rejecting_state : Z := 0x17BCDA67.

Lemma random_draw_total_witness :
  draw_random_address 1 rejecting_state = None /\
  exists a rng', (forall fuel, (2 <= fuel)%nat -> draw_random_address fuel rejecting_state = Some (a, rng')) /\
    0 <= a <= RANDOM_ADDRESS_MAX /\ in_u 32 rng'.
Proof. split; [reflexivity|]. apply (random_draw_total rejecting_state). unfold in_u, rejecting_state. lia. Defined.

(** ** Commands sent twice *)

Definition special_executes (frame : Z) (repeats : bool) (g : GearUnit) : bool :=
  g_enabled g && (gear_holds g frame || negb repeats).

Lemma prep_special s repeats frame g :
  audience_of (Some (Special s)) = Some Every ->
  g_executes_now (prep_gear frame (Some (Special s)) repeats g) = special_executes frame repeats g /\
  g_pending_repeat (prep_gear frame (Some (Special s)) repeats g) =
    (if g_enabled g then if gear_holds g frame then None else if repeats then Some frame else None else None).
Proof.
  intros Ha. unfold prep_gear, hear_gear, hears, special_executes, gear_holds, gear_hear. rewrite Ha.
  destruct (g_enabled g); [|destruct (keeps_write_enabled _); split; reflexivity].
  destruct (opt_is (g_pending_repeat g) frame); cbn [is_walk_query]; destruct (keeps_write_enabled _); cbn;
    destruct repeats; split; reflexivity.
Qed.

Definition k_selects (scope : Z) (k : GearCore) : bool :=
  if scope =? 0x00 then true
  else if scope =? 0xFF then negb (is_some (k_short k))
  else opt_is (k_short k) (decode_short_reply scope).

(** The gear INITIALISE takes into the session. *)
Definition k_enter (scope : Z) (k : GearCore) : GearCore :=
  if k_enabled k && k_selects scope k then k <| k_initialise := true |> <| k_withdrawn := false |> else k.

Definition enter_gear (scope : Z) (g : GearUnit) : GearUnit :=
  if g_enabled g && g_executes_now g && initialise_selects scope g
  then g <| g_initialise := true |> <| g_withdrawn := false |> else g.

Definition initialise_frame (scope : Z) : Z := special_frame (Initialise scope).

Lemma exchange_initialise f scope eb : in_u 8 scope -> exists repeats,
  let f' := snd (exchange f (initialise_frame scope) eb) in
  fl_gears f' = map (fun g => enter_gear scope (prep_gear (initialise_frame scope) (Some (Special (Initialise scope))) repeats g)) (fl_gears f) /\
  search_of f' = search_of f /\ same_bus f f'.
Proof.
  intros Hok. unfold initialise_frame. rewrite exchange_special by exact Hok. eexists. unfold on_special. cbn [on_memory_write stops_identification].
  set (p := prep _ _ _ _).
  destruct (prep_fields f (special_frame (Initialise scope)) (Some (Special (Initialise scope)))
    (requires_repeat_under (Some (Special (Initialise scope))) (fst (wire_bytes (Initialise scope))) (snd (wire_bytes (Initialise scope)))
       (fresh_device_type (f <| fl_frame_seq := sat_add 64 (fl_frame_seq f) 1 |>)))) as (E0 & E1 & E2 & E3 & E4 & _).
  fold p in E0, E1, E2, E3, E4. cbn [publish_one publish option_list snd]. split; [|unfold search_of, same_bus, enter_initialise, on_gears].
  2:{ match goal with |- context [fl_regs ?x] => change (fl_regs x) with (fl_regs p) end. rewrite E1. repeat split; assumption. }
  transitivity (map (enter_gear scope) (fl_gears p)); [reflexivity|]. rewrite E0, map_map. reflexivity.
Qed.

Lemma core_enter_gear scope g :
  core (enter_gear scope g) = if g_executes_now g then k_enter scope (core g) else core g.
Proof.
  unfold enter_gear, k_enter. change (k_enabled (core g)) with (g_enabled g).
  change (k_selects scope (core g)) with (initialise_selects scope g).
  destruct (g_enabled g), (g_executes_now g), (initialise_selects scope g); reflexivity.
Qed.

Lemma k_enter_idem scope k : k_enter scope (k_enter scope k) = k_enter scope k.
Proof. unfold k_enter. destruct (k_enabled k && k_selects scope k) eqn:E; [|now rewrite E]. cbn. now destruct (_ && _). Qed.

(** Two INITIALISE frames in a row: every enabled gear of the scope has entered
    the session, whatever it held before. *)
Lemma initialise_pair f scope t eb : in_u 8 scope -> settled f ->
  let f2 := snd (exchange (advance_to_ms (snd (exchange f (initialise_frame scope) eb)) t) (initialise_frame scope) eb) in
  cores f2 = map (k_enter scope) (cores f) /\ search_of f2 = search_of f /\ fl_rng f2 = fl_rng f /\
  fl_reserved f2 = fl_reserved f /\ (forall g, g ∈ fl_gears f2 -> opt_is (g_pending_repeat g) (special_frame Randomise) = false).
Proof.
  intros Hok Hs. destruct (exchange_initialise f scope eb Hok) as (r1 & E1 & Es1 & (R1 & V1 & N1)). set (f1 := snd _) in *.
  assert (settled f1) as Hs1.
  { unfold settled, cores in *. rewrite E1, map_map, List.Forall_map. rewrite List.Forall_map in Hs.
    eapply List.Forall_impl; [|exact Hs]. intros g Hg. unfold k_settled in *. rewrite core_enter_gear, core_prep_gear.
    unfold k_enter. destruct (g_executes_now _); [destruct (_ && _)|]; exact Hg. }
  rewrite (advance_settled f1 t Hs1).
  destruct (exchange_initialise (f1 <| fl_now_ms := Z.max (fl_now_ms f1) t |>) scope eb Hok) as (r2 & E2 & Es2 & (R2 & V2 & N2)).
  cbn zeta. set (f2 := snd (exchange _ _ _)) in *. change (fl_gears (f1 <| fl_now_ms := Z.max (fl_now_ms f1) t |>)) with (fl_gears f1) in E2. rewrite E1, map_map in E2.
  split; [|split; [rewrite Es2; exact Es1|split; [rewrite R2; exact R1|split; [rewrite V2; exact V1|]]]].
  - unfold cores. rewrite E2, !map_map. apply map_ext. intros g.
    set (g1 := enter_gear scope (prep_gear _ _ r1 g)).
    destruct (prep_special (Initialise scope) r1 (initialise_frame scope) g eq_refl) as [X1 P1].
    destruct (prep_special (Initialise scope) r2 (initialise_frame scope) g1 eq_refl) as [X2 _].
    rewrite core_enter_gear, core_prep_gear, X2. unfold g1 at 2 3. rewrite core_enter_gear, core_prep_gear, X1.
    assert (g_enabled g1 = g_enabled g) as Een.
    { pose proof (core_prep_gear (initialise_frame scope) (Some (Special (Initialise scope))) r1 g) as Hc. injection Hc as _ <- _ _ _ _.
      unfold g1, enter_gear. now destruct (_ && _). }
    assert (g_pending_repeat g1 = g_pending_repeat (prep_gear (initialise_frame scope) (Some (Special (Initialise scope))) r1 g)) as Ep
      by (unfold g1, enter_gear; now destruct (_ && _)).
    unfold special_executes, gear_holds in *. rewrite Een, Ep, P1. destruct (g_enabled g) eqn:Eg.
    + destruct (opt_is (g_pending_repeat g) (initialise_frame scope)); cbn [orb andb opt_is]; [|destruct r1; cbn [negb]].
      * destruct (negb r2); [apply k_enter_idem|reflexivity].
      * cbn [opt_is]. rewrite Z.eqb_refl. cbn [orb]. reflexivity.
      * cbn [opt_is orb]. destruct (negb r2); [apply k_enter_idem|reflexivity].
    + cbn [andb]. unfold k_enter. change (k_enabled (core g)) with (g_enabled g). now rewrite Eg.
  - intros g Hin. rewrite E2 in Hin. apply list_elem_of_fmap in Hin as (g0 & -> & _).
    set (g1 := enter_gear scope (prep_gear _ _ r1 g0)).
    assert (forall h, g_pending_repeat (enter_gear scope h) = g_pending_repeat h) as -> by (intros h; unfold enter_gear; now destruct (_ && _)).
    destruct (prep_special (Initialise scope) r2 (initialise_frame scope) g1 eq_refl) as [_ ->].
    assert (initialise_frame scope =? special_frame Randomise = false) as Hne.
    { apply Z.eqb_neq. unfold initialise_frame, special_frame. cbn. intros Heq.
      assert (forall d, in_u 8 d -> (special_to_forward_frame (Initialise d) =? 42752) = false) as Hall by by_evaluation.
      specialize (Hall scope Hok). apply Z.eqb_neq in Hall. exact (Hall Heq). }
    destruct (g_enabled g1); [destruct (gear_holds g1 _); [reflexivity|destruct r2; [exact Hne|reflexivity]]|reflexivity].
Qed.

(** *** RANDOMISE *)

Definition randomise_frame : Z := special_frame Randomise.

(** A random address is drawn, to be ready at a time. *)
Definition k_draw (ready : Z) (k : GearCore) (rng : Z) : GearCore * Z :=
  if k_initialise k && k_enabled k then
    match draw_random_address draw_fuel rng with
    | Some (a, rng) => (k <| k_pending := Some (MkPendingRandom a ready) |>, rng)
    | None => (k, rng)
    end
  else (k, rng).

(** A random address is drawn and taken. *)
Definition k_drawn (k : GearCore) (rng : Z) : GearCore * Z :=
  if k_initialise k && k_enabled k then
    match draw_random_address draw_fuel rng with
    | Some (a, rng) => (k <| k_spec := k_spec k <| sp_random_address := a |> |>, rng)
    | None => (k, rng)
    end
  else (k, rng).

Lemma thread_cores {S} (F : GearUnit -> S -> GearUnit * S) (K : GearCore -> S -> GearCore * S) l :
  (forall g s, g ∈ l -> core (fst (F g s)) = fst (K (core g) s) /\ snd (F g s) = snd (K (core g) s)) ->
  forall s, map core (fst (thread F l s)) = fst (thread K (map core l) s) /\ snd (thread F l s) = snd (thread K (map core l) s).
Proof.
  intros H. induction l as [|g l IH]; intros s; [split; reflexivity|]. cbn [thread map].
  destruct (H g s ltac:(left)) as [E1 E2]. specialize (IH ltac:(intros g' s' Hg'; apply H; now right)).
  destruct (F g s) as [g' s1]. destruct (K (core g) s) as [k' s1']. cbn [fst snd] in *. subst s1' k'.
  specialize (IH s1). destruct (thread F l s1), (thread K (map core l) s1). cbn [fst snd map] in *.
  destruct IH as [-> ->]. split; reflexivity.
Qed.

Lemma randomise_repeats t : requires_repeat_under (Some (Special Randomise)) 0xA7 0x00 t = true.
Proof.
  unfold requires_repeat_under. destruct t as [t|]; [|reflexivity]. rewrite extended_under_low by (unfold in_u; lia).
  now destruct (negb _).
Qed.

(** The fleet as RANDOMISE finds it. *)
Definition randomise_prep (f : GearFleet) : GearFleet :=
  on_gears (prep f randomise_frame (Some (Special Randomise)) true) g_executes_now (fun g => g <| g_identifying := false |>).
Definition quiet_gear (g : GearUnit) : GearUnit :=
  let g := prep_gear randomise_frame (Some (Special Randomise)) true g in
  if g_executes_now g then g <| g_identifying := false |> else g.

Lemma exchange_randomise f eb :
  snd (exchange f randomise_frame eb) = randomise (randomise_prep f) <| fl_answers := [] |> /\
  fl_gears (randomise_prep f) = map quiet_gear (fl_gears f) /\ search_of (randomise_prep f) = search_of f /\
  same_bus f (randomise_prep f).
Proof.
  unfold randomise_frame. rewrite exchange_special by easy. cbn [fst snd wire_bytes]. rewrite randomise_repeats.
  split; [reflexivity|]. destruct (prep_fields f randomise_frame (Some (Special Randomise)) true) as (E0 & E1 & E2 & E3 & E4 & _).
  unfold randomise_prep. set (p := prep _ _ _ _) in *. split.
  - transitivity (map (fun g => if g_executes_now g then g <| g_identifying := false |> else g) (fl_gears p)); [reflexivity|].
    rewrite E0, map_map. reflexivity.
  - unfold search_of, same_bus, on_gears. match goal with |- context [fl_regs ?x] => change (fl_regs x) with (fl_regs p) end.
    rewrite E1. repeat split; assumption.
Qed.

Lemma quiet_gear_fields g :
  core (quiet_gear g) = core g /\ g_executes_now (quiet_gear g) = special_executes randomise_frame true g /\
  g_pending_repeat (quiet_gear g) =
    (if g_enabled g then if gear_holds g randomise_frame then None else Some randomise_frame else None).
Proof.
  destruct (prep_special Randomise true randomise_frame g eq_refl) as [<- <-]. unfold quiet_gear. cbn zeta.
  rewrite <- (core_prep_gear randomise_frame (Some (Special Randomise)) true g).
  destruct (g_executes_now _) eqn:E; repeat split; exact E.
Qed.

Lemma randomise_fields f :
  let r := thread (randomise_gear (sat_add 64 (fl_now_ms f) RANDOM_ADDRESS_READY_MS)) (fl_gears f) (fl_rng f) in
  fl_gears (randomise f) = fst r /\ fl_rng (randomise f) = snd r /\ search_of (randomise f) = search_of f /\
  fl_reserved (randomise f) = fl_reserved f /\ fl_now_ms (randomise f) = fl_now_ms f.
Proof. unfold randomise, search_of. cbn zeta. destruct (thread _ _ _) as [gears rng]. repeat split. Qed.

(** The first RANDOMISE only arms the gear that do not hold one already. *)
Lemma randomise_arms f eb :
  (forall g, g ∈ fl_gears f -> gear_holds g randomise_frame = false) ->
  let f1 := snd (exchange f randomise_frame eb) in
  fl_gears f1 = map quiet_gear (fl_gears f) /\ cores f1 = cores f /\ search_of f1 = search_of f /\ same_bus f f1.
Proof.
  intros Hp. cbn zeta. destruct (exchange_randomise f eb) as (-> & Eg & Es & (E1 & E2 & E3)).
  set (p := randomise_prep f) in *.
  destruct (randomise_fields p) as (F1 & F2 & F3 & F4 & F5). unfold search_of in *.
  assert (thread (randomise_gear (sat_add 64 (fl_now_ms p) RANDOM_ADDRESS_READY_MS)) (fl_gears p) (fl_rng p) = (fl_gears p, fl_rng p)) as Et.
  { rewrite Eg. assert (forall g, g ∈ map quiet_gear (fl_gears f) -> g_executes_now g = false) as Hx.
    { intros g Hin. apply list_elem_of_fmap in Hin as (g0 & -> & Hin). destruct (quiet_gear_fields g0) as (_ & -> & _).
      unfold special_executes. rewrite (Hp g0 Hin). now destruct (g_enabled g0). }
    clear -Hx. induction (map quiet_gear (fl_gears f)) as [|g l IH]; [reflexivity|]. cbn [thread]. unfold randomise_gear at 1.
    rewrite (Hx g) by left. rewrite andb_false_r, IH; [reflexivity|]. intros g' Hg'. apply Hx. now right. }
  rewrite Et in F1, F2. cbn [fst snd] in F1, F2.
  assert (fl_gears (randomise p <| fl_answers := [] |>) = map quiet_gear (fl_gears f)) as Egs by (cbn; now rewrite F1).
  split; [exact Egs|]. split; [|split; [cbn; congruence|repeat split; cbn; congruence]].
  unfold cores. rewrite Egs, map_map. apply map_ext. intros g. apply quiet_gear_fields.
Qed.

(** The second one makes every gear in the session draw. *)
Lemma randomise_draws f eb :
  (forall g, g ∈ fl_gears f -> gear_holds g randomise_frame = g_enabled g) ->
  let f2 := snd (exchange f randomise_frame eb) in
  let r := thread (k_draw (sat_add 64 (fl_now_ms f) RANDOM_ADDRESS_READY_MS)) (cores f) (fl_rng f) in
  cores f2 = fst r /\ fl_rng f2 = snd r /\ search_of f2 = search_of f /\ fl_reserved f2 = fl_reserved f /\
  fl_now_ms f2 = fl_now_ms f.
Proof.
  intros Hp. cbn zeta. destruct (exchange_randomise f eb) as (-> & Eg & Es & (E1 & E2 & E3)).
  set (p := randomise_prep f) in *. destruct (randomise_fields p) as (F1 & F2 & F3 & F4 & F5).
  assert (map core (fl_gears p) = cores f) as Ec.
  { rewrite Eg, map_map. unfold cores. apply map_ext. intros g. apply quiet_gear_fields. }
  destruct (thread_cores (randomise_gear (sat_add 64 (fl_now_ms p) RANDOM_ADDRESS_READY_MS))
              (k_draw (sat_add 64 (fl_now_ms p) RANDOM_ADDRESS_READY_MS)) (fl_gears p)) with (s := fl_rng p) as [T1 T2].
  { intros g s Hin. rewrite Eg in Hin. apply list_elem_of_fmap in Hin as (g0 & -> & Hin).
    destruct (quiet_gear_fields g0) as (Ecg & Ex & _). unfold special_executes in Ex. rewrite (Hp g0 Hin) in Ex.
    set (g := quiet_gear g0) in *. clearbody g. unfold randomise_gear, k_draw. rewrite Ex.
    change (k_initialise (core g)) with (g_initialise g). change (k_enabled (core g)) with (g_enabled g).
    assert (g_enabled g = g_enabled g0) as -> by exact (f_equal k_enabled Ecg). cbn [negb]. rewrite orb_false_r.
    destruct (g_enabled g0); rewrite ?andb_false_r, ?andb_true_r; cbn [andb]; [|split; reflexivity].
    destruct (g_initialise g); [|split; reflexivity]. destruct (draw_random_address _ _) as [[a r]|]; split; reflexivity. }
  rewrite Ec in T1, T2. rewrite <- F1 in T1. rewrite <- F2 in T2. unfold search_of in *. rewrite E1, E3 in *.
  split; [exact T1|]. split; [exact T2|]. cbn. repeat split; congruence.
Qed.

(** *** Ripening *)

Definition k_ripen (k : GearCore) : GearCore :=
  match k_pending k with
  | Some p => k <| k_spec := k_spec k <| sp_random_address := pr_address p |> |> <| k_pending := None |>
  | None => k
  end.

Definition ripe_by (t : Z) (f : GearFleet) : Prop :=
  Forall (fun k => forall p, k_pending k = Some p -> pr_ready_at_ms p <= t) (cores f).

Lemma cores_ripe f t : ripe_by t f -> cores (advance_to_ms f t) = map k_ripen (cores f).
Proof.
  intros Hr. unfold cores. cbn. rewrite !map_map. unfold ripe_by, cores in Hr. rewrite List.Forall_map in Hr.
  rewrite List.Forall_forall in Hr. apply map_ext_in. intros g Hg. specialize (Hr g Hg). cbn in Hr.
  unfold ripen, k_ripen. cbn. destruct (g_pending_random g) as [p|] eqn:E; [|reflexivity].
  specialize (Hr p eq_refl). rewrite (proj2 (Z.leb_le _ _)) by lia. reflexivity.
Qed.

Lemma k_ripen_settled k : k_settled (k_ripen k).
Proof. unfold k_settled, k_ripen. destruct (k_pending k) eqn:E; [reflexivity|exact E]. Qed.

Lemma drawn_ripe ready ks rng : Forall k_settled ks ->
  map k_ripen (fst (thread (k_draw ready) ks rng)) = fst (thread k_drawn ks rng) /\
  Forall (fun k => forall p, k_pending k = Some p -> pr_ready_at_ms p <= ready) (fst (thread (k_draw ready) ks rng)).
Proof.
  intros Hs. revert rng. induction Hs as [|k ks Hk Hs IH]; intros rng; [split; [reflexivity|constructor]|]. cbn [thread].
  unfold k_draw at 1 3, k_drawn at 1. unfold k_settled in Hk.
  assert (forall rng', map k_ripen (fst (let '(l, s) := thread (k_draw ready) ks rng' in (k :: l, s))) =
            fst (let '(l, s) := thread k_drawn ks rng' in (k :: l, s)) /\
          Forall (fun k => forall p, k_pending k = Some p -> pr_ready_at_ms p <= ready)
            (fst (let '(l, s) := thread (k_draw ready) ks rng' in (k :: l, s)))) as Hsame.
  { intros rng'. specialize (IH rng'). destruct (thread (k_draw ready) ks rng'), (thread k_drawn ks rng'). cbn [fst map] in *.
    destruct IH as [<- IH]. split; [f_equal; unfold k_ripen; now rewrite Hk|]. constructor; [|assumption]. rewrite Hk. discriminate. }
  destruct (k_initialise k && k_enabled k); [|apply Hsame].
  destruct (draw_random_address draw_fuel rng) as [[a rng']|]; [|apply Hsame]. specialize (IH rng').
  destruct (thread (k_draw ready) ks rng'), (thread k_drawn ks rng'). cbn [fst map] in *. destruct IH as [<- IH].
  split; [f_equal; unfold k_ripen; cbn; destruct k; cbn in *; now subst|]. constructor; [|assumption]. cbn. intros p [= <-]. cbn. lia.
Qed.

Lemma advance_twice f t t' : t <= t' -> advance_to_ms (advance_to_ms f t) t' = advance_to_ms f t'.
Proof.
  intros Ht. unfold advance_to_ms. cbn. rewrite map_map.
  replace (Z.max (Z.max (fl_now_ms f) t) t') with (Z.max (fl_now_ms f) t') by lia.
  assert (map (fun x => ripen (Z.max (fl_now_ms f) t') (ripen (Z.max (fl_now_ms f) t) x)) (fl_gears f) =
          map (ripen (Z.max (fl_now_ms f) t')) (fl_gears f)) as ->; [|reflexivity].
  apply map_ext. intros g. unfold ripen at 2. destruct (g_pending_random g) as [p|] eqn:E; [|reflexivity].
  destruct (Z.leb_spec (pr_ready_at_ms p) (Z.max (fl_now_ms f) t)); [|reflexivity].
  unfold ripen. rewrite E. cbn. rewrite (proj2 (Z.leb_le _ _)) by lia. reflexivity.
Qed.

(** ** Every exchange *)

(** What every branch of [exchange] ends with: the outcome merges the answers
    that are kept, and no time passes. *)
Definition publishes (f : GearFleet) (r : TransferOutcome * GearFleet) : Prop :=
  fst r = merge_answers (fl_answers (snd r)) /\ fl_now_ms (snd r) = fl_now_ms f.

Lemma publish_publishes f f' buf : fl_now_ms f' = fl_now_ms f -> publishes f (publish f' buf).
Proof. intros H. split; [reflexivity|exact H]. Qed.

Ltac publishes := apply publish_publishes; first [reflexivity|assumption].

Lemma special_publishes f s : publishes f (on_special f s).
Proof.
  unfold on_special. destruct (on_memory_write f s) as [r|] eqn:E.
  { unfold on_memory_write in E. destruct s; try discriminate;
      (destruct (thread _ _ _) as [gears [advances buf]]; injection E as <-; destruct (_ && _); publishes). }
  destruct (stops_identification s); destruct s; try publishes;
    first [unfold randomise; cbn zeta; destruct (thread _ _ _) as [gears rng]; publishes
          |unfold program_short; destruct (is_reserved _ _); publishes].
Qed.

Lemma extended_publishes f a op eb enabled :
  publishes f (on_extended_dt6 f a op eb) /\ publishes f (on_extended_dt7 f a op eb) /\ publishes f (on_extended_dt8 f a op eb enabled).
Proof.
  split; [|split].
  - unfold on_extended_dt6, dt6_failure_query. destruct eb.
    + case_if; [publishes|]. case_if; [publishes|]. case_if; [publishes|]. destruct (dt6_from_opcode op) as [c|].
      * destruct (dt6_bit c); [publishes|]. case_if; publishes.
      * case_if; publishes.
    + case_if; publishes.
  - unfold on_extended_dt7. destruct (dt7_from_opcode op); [|publishes]. destruct eb; publishes.
  - unfold on_extended_dt8. destruct enabled as [c|]; [|publishes]. case_if; [|publishes]. unfold on_dt8. destruct eb; [|publishes].
    unfold on_dt8_query, dt8_color_value_reply. case_if.
    + destruct (replies _ _ _); [publishes|]. cbn zeta. destruct (forallb _ _); publishes.
    + repeat (case_if; [publishes|]). publishes.
Qed.

Lemma standard_publishes f a c : publishes f (on_standard f a c).
Proof.
  unfold on_standard, standard_query. destruct (negb _).
  - destruct (thread _ _ _) as [gears [refused store]]. destruct store; publishes.
  - destruct (thread _ _ _) as [gears [buf [rng dropped]]]. publishes.
Qed.

Lemma exchange_publishes f frame eb : publishes f (exchange f frame eb).
Proof.
  unfold exchange. set (decoded := dali_command_from_wire _ _). set (repeats := requires_repeat_under _ _ _ _).
  change (if keeps_write_enabled decoded then ?x else ?y) with (prep f frame decoded repeats).
  destruct (prep_fields f frame decoded repeats) as (_ & _ & _ & _ & Hn & _). set (p := prep f frame decoded repeats) in *.
  assert (forall r, publishes p r -> publishes f r) as Hp by (intros r [H1 H2]; split; [exact H1|congruence]).
  clearbody p. destruct (take_enabled_device_type p) as [enabled p1] eqn:Ep1.
  assert (fl_now_ms (carry_prelude_over_held_half p1 frame enabled) = fl_now_ms p) as Hq.
  { injection Ep1 as _ <-. unfold carry_prelude_over_held_half. destruct enabled; [|reflexivity]. now destruct (any_gear_holds _ _). }
  set (q := carry_prelude_over_held_half p1 frame enabled) in *. clearbody q.
  assert (forall r, publishes q r -> publishes p r) as Hr by (intros r [H1 H2]; split; [exact H1|congruence]).
  destruct decoded as [[a c|a c|s]|]; apply Hp; [| |apply special_publishes|]; apply Hr;
    (destruct (decode_wire_address _) as [a'|]; [|publishes]; destruct (_ =? 0); [unfold on_dapc; publishes|];
     destruct (eb && _); [unfold on_read_memory_location; cbn zeta; destruct (_ && _); publishes|];
     destruct (_ && is_dt6_opcode _); [apply (extended_publishes q a' (wrap 8 frame) eb None)|];
     destruct (_ && (EXTENDED_START <=? _)); [apply (extended_publishes q a' (wrap 8 frame) eb None)|];
     destruct (is_dt8_opcode _ || _); [apply extended_publishes|]; first [publishes|apply standard_publishes]).
Qed.

End FleetLaws.
