(* ===== verification/Overlap.v ===== *)
(** * Overlapping answers on the wire

    Models [crates/dali2rust-dali-codec/src/overlap.rs] (the capture that several
    backward frames starting at different times leave in the receiver) and
    [held_capture_outcome] of
    [crates/dali2rust-adapters/src/dali/transport/mod.rs]. *)

From S2P Require Import Prelude HalfBits Manchester PhyFsm RxDecode IsrCore Transport.

Module Overlap.
Import HalfBits Manchester PhyFsm RxDecode IsrCore Transport.

Definition HALF_BIT_NS : Z := 416667.
Definition BACKWARD_HALF_BITS : Z := 18.
Definition TICK_NS : Z := PHY_TICK_US * 1000.
Definition TICKS_PER_SAMPLE_BYTE : Z := 8.
Definition CAPTURE_TICKS : Z := DALI_RX_SAMPLE_BUF_LEN * TICKS_PER_SAMPLE_BYTE.
Definition IN_WINDOW_PRE_IDLE_TICKS : Z := 70.

Record OverlappingAnswer := MkOverlapping { oa_value : Z; oa_start_ns : Z }.

Definition half_bit_is_dominant (value half_bit : Z) : bool :=
  let bit := half_bit / 2 in
  let first_half := half_bit mod 2 =? 0 in
  let one := (bit =? 0) || (Z.land (Z.shiftr value (8 - bit)) 1 =? 1) in
  Bool.eqb one first_half.

(** [checked_sub]: nothing before the answer starts. *)
Definition answer_is_dominant (answer : OverlappingAnswer) (at_ns : Z) : bool :=
  if at_ns <? oa_start_ns answer then false
  else
    let half_bit := (at_ns - oa_start_ns answer) / HALF_BIT_NS in
    (half_bit <? BACKWARD_HALF_BITS) && half_bit_is_dominant (oa_value answer) half_bit.

Definition line_is_dominant (answers : list OverlappingAnswer) (at_ns : Z) : bool :=
  existsb (fun a => answer_is_dominant a at_ns) answers.

Definition last_dominant_ns (answers : list OverlappingAnswer) : Z :=
  fold_left Z.max (map (fun a => oa_start_ns a + BACKWARD_HALF_BITS * HALF_BIT_NS) answers) 0.

(** The search over [0..], which [take_while] ends: the turns left and [k]. *)
Fixpoint find_dominant (answers : list OverlappingAnswer) (sample_phase_ns : Z) (turns : nat) (k : Z) : option Z :=
  match turns with
  | O => None
  | S turns =>
      let at_ns := sample_phase_ns + k * TICK_NS in
      if negb (at_ns <=? last_dominant_ns answers) then None
      else if line_is_dominant answers at_ns then Some k
      else find_dominant answers sample_phase_ns turns (k + 1)
  end.
Definition find_turns (answers : list OverlappingAnswer) : nat := Z.to_nat (last_dominant_ns answers / TICK_NS + 2).
Definition first_dominant_tick (answers : list OverlappingAnswer) (sample_phase_ns : Z) : option Z :=
  find_dominant answers sample_phase_ns (find_turns answers) 0.

Definition set_recessive (event : RxCompletedEvent) (tick : Z) : RxCompletedEvent :=
  let byte := tick / TICKS_PER_SAMPLE_BYTE in
  let shift := TICKS_PER_SAMPLE_BYTE - 1 - tick mod TICKS_PER_SAMPLE_BYTE in
  match aget (samples event) byte with
  | Some slot => event <| samples := aset (samples event) byte (Z.lor slot (shl 8 1 shift)) |>
  | None => event
  end.

(** The [while] loop: the turns left, the run of recessive ticks, the ticks
    recorded, the event. *)
Fixpoint capture_loop (answers : list OverlappingAnswer) (sample_phase_ns first : Z) (turns : nat)
    (recessive_run recorded : Z) (event : RxCompletedEvent) : Z * RxCompletedEvent :=
  if (recorded <? CAPTURE_TICKS) && (recessive_run <? RX_IDLE_LINE_HIGH_TICKS) then
    match turns with
    | O => (recorded, event)
    | S turns =>
        let at_ns := sample_phase_ns + (first + recorded) * TICK_NS in
        if line_is_dominant answers at_ns
        then capture_loop answers sample_phase_ns first turns 0 (recorded + 1) event
        else capture_loop answers sample_phase_ns first turns (recessive_run + 1) (recorded + 1) (set_recessive event recorded)
    end
  else (recorded, event).

Definition overlapping_backward_capture (answers : list OverlappingAnswer) (sample_phase_ns : Z) : RxCompletedEvent :=
  let event := rx_event_new <| pre_idle_ticks := IN_WINDOW_PRE_IDLE_TICKS |> in
  match first_dominant_tick answers sample_phase_ns with
  | None => event
  | Some first =>
      let '(recorded, event) := capture_loop answers sample_phase_ns first (Z.to_nat CAPTURE_TICKS) 0 0 event in
      event <| sample_count := wrap 16 (div_ceil recorded TICKS_PER_SAMPLE_BYTE) |>
  end.

(** Past the longest active state a frame may hold, the bus is without power. *)
Definition held_capture_outcome (dominant_run_ticks : Z) : TransferOutcome :=
  if BUS_POWER_DOWN_TICKS <=? dominant_run_ticks then OutBusBusy else OutCorruptedInWindow.

(** ** Properties *)

(** No answer lasts past its eighteen half-bits. *)
Lemma line_quiet answers at_ns : Forall (fun a => 0 <= oa_start_ns a) answers -> last_dominant_ns answers <= at_ns ->
  line_is_dominant answers at_ns = false.
Proof.
  intros Hpos Hend. unfold line_is_dominant. destruct (existsb _ answers) eqn:E; [|reflexivity]. exfalso.
  apply existsb_exists in E as (a & Hin & Ha). unfold answer_is_dominant in Ha. unfold last_dominant_ns in Hend.
  assert (forall l acc x, In x l -> x <= fold_left Z.max l acc) as Hmax.
  { induction l as [|y l IH]; intros acc x Hx; [destruct Hx|]. cbn. destruct Hx as [->|Hx]; [|now apply IH].
    assert (forall l acc, acc <= fold_left Z.max l acc) as Hacc.
    { clear. induction l as [|y l IH]; intros acc; cbn; [lia|]. specialize (IH (Z.max acc y)). lia. }
    specialize (Hacc l (Z.max acc x)). lia. }
  specialize (Hmax _ 0 _ (in_map (fun a => oa_start_ns a + BACKWARD_HALF_BITS * HALF_BIT_NS) _ _ Hin)).
  destruct (Z.ltb_spec at_ns (oa_start_ns a)); [discriminate|]. apply andb_true_iff in Ha as [Ha _]. apply Z.ltb_lt in Ha.
  unfold BACKWARD_HALF_BITS, HALF_BIT_NS in *. dlia.
Qed.

(** The recording ends with the sixteenth recessive tick after the last answer. *)
Lemma capture_length answers phase first m turns : forall run recorded event,
  0 <= run -> 0 <= recorded -> recorded - m <= run -> 0 <= m ->
  (forall k, m <= k -> line_is_dominant answers (phase + (first + k) * TICK_NS) = false) ->
  recorded <= m + 16 -> fst (capture_loop answers phase first turns run recorded event) <= m + 16.
Proof.
  induction turns as [|turns IH]; intros run recorded event Hr Hrec Hrun Hm Hq Hle; cbn [capture_loop];
    (destruct (_ && _) eqn:E; [|exact Hle]); [exact Hle|]. apply andb_true_iff in E as [_ E]. apply Z.ltb_lt in E.
  unfold RX_IDLE_LINE_HIGH_TICKS in E.
  destruct (line_is_dominant answers (phase + (first + recorded) * TICK_NS)) eqn:El.
  - assert (recorded < m) by (destruct (Z_lt_le_dec recorded m); [assumption|rewrite Hq in El by lia; discriminate]).
    apply IH; try assumption; lia.
  - apply IH; try assumption; lia.
Qed.

(** The search for the first dominant tick ends within its turns. *)
Lemma find_turns_enough answers phase extra : 0 <= phase ->
  find_dominant answers phase (find_turns answers + extra) 0 = find_dominant answers phase (find_turns answers) 0.
Proof.
  intros Hp. assert (0 <= last_dominant_ns answers) as Hlast.
  { unfold last_dominant_ns. generalize (map (fun a => oa_start_ns a + BACKWARD_HALF_BITS * HALF_BIT_NS) answers).
    assert (forall l acc, 0 <= acc -> 0 <= fold_left Z.max l acc) as H; [|intros l; now apply H].
    induction l as [|x l IH]; intros acc Hacc; [exact Hacc|]. apply IH. lia. }
  assert (forall turns k, 0 <= k -> last_dominant_ns answers / TICK_NS + 2 <= k + Z.of_nat turns ->
    find_dominant answers phase (turns + extra) k = find_dominant answers phase turns k) as H.
  { induction turns as [|turns IH]; intros k Hk Hend.
    - destruct extra as [|extra]; [reflexivity|]. cbn [Nat.add find_dominant].
      assert (phase + k * TICK_NS <=? last_dominant_ns answers = false) as ->; [|reflexivity].
      apply Z.leb_gt. unfold TICK_NS, PHY_TICK_US in *. dlia.
    - cbn [Nat.add find_dominant]. destruct (negb _); [reflexivity|]. destruct (line_is_dominant _ _); [reflexivity|].
      apply IH; lia. }
  apply H; [lia|]. unfold find_turns. rewrite Z2Nat.id; [lia|]. unfold TICK_NS, PHY_TICK_US. dlia.
Qed.

Lemma find_from answers phase turns : forall k first, find_dominant answers phase turns k = Some first -> k <= first.
Proof.
  induction turns as [|turns IH]; intros k first E; [discriminate|]. cbn [find_dominant] in E. destruct (negb _); [discriminate|].
  destruct (line_is_dominant _ _); [injection E as ->; lia|]. apply IH in E. lia.
Qed.

(** A run is no longer than the samples. *)
Lemma run_within_samples ev : longest_dominant_run_ticks ev <= 8 * Z.max 0 (sample_count ev).
Proof.
  destruct (run_step_spec (event_levels ev)) as (nb & nr & E & _ & [[(pre & post & Hd) _] _]).
  { pose proof (event_levels_length ev). change (2 ^ 16)%nat with (Z.to_nat 65536). lia. }
  unfold longest_dominant_run_ticks. fold (event_levels ev). rewrite E. cbn [fst].
  assert (forall l, length (flat_map sample_levels l) = 8 * length l)%nat as Hl.
  { induction l as [|x l IH]; [done|]. cbn [flat_map]. rewrite length_app, IH. cbn [length]. change (length (sample_levels x)) with 8%nat. lia. }
  assert (nb <= length (event_levels ev))%nat as Hle by (rewrite Hd, !length_app, length_replicate; lia).
  unfold event_levels in Hle. rewrite Hl, length_take in Hle. lia.
Qed.

(** Answers that start within a millisecond leave too short an active state to
    be taken for a bus without power. *)
Lemma overlap_within_frame answers phase :
  Forall (fun a => 0 <= oa_start_ns a < 1000000) answers -> 0 <= phase ->
  longest_dominant_run_ticks (overlapping_backward_capture answers phase) < BUS_POWER_DOWN_TICKS.
Proof.
  intros Ha Hp. unfold overlapping_backward_capture. destruct (first_dominant_tick answers phase) as [first|] eqn:Ef; [|reflexivity].
  apply find_from in Ef.
  assert (last_dominant_ns answers <= 8528000) as Hlast.
  { unfold last_dominant_ns. assert (forall l acc, acc <= 8528000 -> Forall (fun x => x <= 8528000) l -> fold_left Z.max l acc <= 8528000) as H.
    { induction l as [|x l IH]; intros acc Hacc Hl; [exact Hacc|]. apply List.Forall_cons_iff in Hl as [Hx Hl]. apply IH; [lia|exact Hl]. }
    apply H; [lia|]. rewrite List.Forall_map. eapply List.Forall_impl; [|exact Ha]. cbn beta. intros a Hr.
    unfold BACKWARD_HALF_BITS, HALF_BIT_NS. lia. }
  assert (forall k, 82 <= k -> line_is_dominant answers (phase + (first + k) * TICK_NS) = false) as Hq.
  { intros k Hk. apply line_quiet; [eapply List.Forall_impl; [|exact Ha]; cbn; lia|]. unfold TICK_NS, PHY_TICK_US. lia. }
  set (ev := rx_event_new <| pre_idle_ticks := _ |>).
  pose proof (capture_length answers phase first 82 (Z.to_nat CAPTURE_TICKS) 0 0 ev ltac:(lia) ltac:(lia) ltac:(lia) ltac:(lia) Hq ltac:(lia)) as Hlen.
  assert (0 <= fst (capture_loop answers phase first (Z.to_nat CAPTURE_TICKS) 0 0 ev)) as Hpos.
  { assert (forall turns run recorded e, 0 <= recorded -> 0 <= fst (capture_loop answers phase first turns run recorded e)) as H; [|apply H; lia].
    clear. induction turns as [|turns IH]; intros run recorded e Hr; cbn [capture_loop]; (destruct (_ && _); [|exact Hr]); [exact Hr|].
    destruct (line_is_dominant _ _); apply IH; lia. }
  destruct (capture_loop _ _ _ _ _ _ _) as [recorded ev']. cbn [fst] in *.
  eapply Z.le_lt_trans; [apply run_within_samples|]. cbn [sample_count].
  change (sample_count (ev' <| sample_count := ?n |>)) with n.
  assert (0 <= div_ceil recorded TICKS_PER_SAMPLE_BYTE <= 13) as Hd by (unfold div_ceil, TICKS_PER_SAMPLE_BYTE; dlia).
  rewrite wrap_id by (unfold in_u; lia). unfold BUS_POWER_DOWN_TICKS. lia.
Qed.

End Overlap.
