(* ===== verification/Controller.v ===== *)
(** * The bus controller of the runtime

    Models [crates/dali2rust-domain/src/dali/controller.rs] (the trait every
    executor runs against) and
    [crates/dali2rust-dali-runtime/src/runtime/controller.rs] with its files
    [transaction.rs], [retry.rs] and [unit.rs]: [DaliController], which turns a
    command into frames, keeps the settling times, retries, brackets frames into
    transactions and re-runs broken units.  The sniffer's copy of each frame
    ([sniffer.rs]) is an observation and left out. *)

From Stdlib Require Import String.
From S2P Require Import Prelude RulesBase Effects Gear GearCommand GearState Transport.

Module Controller.
Import Gear GearCommand GearState Transport.

(** ** The traits *)

Inductive Frame24Fault := F24Unsupported | F24Contended | F24Preempted | F24Held (cause : HoldCause).

Inductive ReadbackWorkaround := GroupsCorrected | ColourFeaturesCorrected | ExtendedFadeCorrected | ProgramRepair.

(** [DaliProductController] and [DaliApplicationController].  A bracket runs a
    closure; [unit] takes an [FnMut] it may run again, so the variables the
    closure captures ([S]) are threaded through it.  [ctl_debug] is the
    [Debug] rendering of the associated error; [sleep_ms] is
    [std::thread::sleep] in the executor's thread. *)
Class DaliApplicationController (C : Type) := {
  ctl_error : Type;
  ctl_debug : ctl_error -> string;
  send_command_observed : DaliCommand -> eff C (Result (DaliResponse * bool) ctl_error);
  send_raw_observed : Z -> bool -> eff C (Result (DaliResponse * bool) ctl_error);
  send_raw_once : Z -> bool -> eff C (Result (DaliResponse * bool) ctl_error);
  send_raw_pair : Z -> bool -> eff C (Result (DaliResponse * bool) ctl_error);
  send_raw_enabled_query : Z -> Z -> eff C (Result (DaliResponse * bool) ctl_error);
  transaction : forall {R}, eff C R -> eff C R;
  transaction_exempt : forall {R}, eff C R -> eff C R;
  unit_of : forall {S R}, (S -> eff C (R * S)) -> S -> eff C (R * S);
  unit_exempt : forall {S R}, (S -> eff C (R * S)) -> S -> eff C (R * S);
  step_boundary : eff C unit;
  step : forall {R}, eff C R -> eff C R;
  note_workaround : ReadbackWorkaround -> C -> C;
  sleep_ms : Z -> C -> C }.

Section Provided.
Context {C : Type} `{DaliApplicationController C}.

(** Every implementation of the source drops the flag of the observed call. *)
Definition send_command (cmd : DaliCommand) : eff C (Result DaliResponse ctl_error) :=
  let! r := send_command_observed cmd in ret (Ok (fst r)).
Definition send_raw (frame : Z) (expects_backward : bool) : eff C (Result DaliResponse ctl_error) :=
  let! r := send_raw_observed frame expects_backward in ret (Ok (fst r)).
End Provided.

(** ** The controller's state *)

Definition PHY_TICK_US : Z := 104.
Definition TX_ARM_LEAD_TICKS : Z := 3.
Definition CLOCK_SKEW_GUARD_TICKS : Z := 3.
Definition TRANSACTION_BUDGET_MS : Z := 400.
Definition BUS_RELEASE_SETTLE_US : Z := 22000.
Definition SEND_TWICE_TX_MAX_US : Z := 75000.
Definition SEND_TWICE_MAX_INTERVAL_US : Z := 94000.

Inductive WireFrame := Forward16 (frame : Z) | Forward24 (bytes : Z * Z * Z).

Record ExchangeObservation := MkObservation { ob_outcome : TransferOutcome; ob_contended : bool }.

Record TransactionState := MkTransaction {
  tx_depth : Z; tx_first_frame_sent : bool; tx_exempt : bool; tx_first_frame_at_ms : Z; tx_last_frame_at_ms : Z }.

#[global] Instance eta_TransactionState : Eta TransactionState := fun t =>
  MkTransaction (tx_depth t) (tx_first_frame_sent t) (tx_exempt t) (tx_first_frame_at_ms t) (tx_last_frame_at_ms t).

Definition transaction_default : TransactionState := MkTransaction 0 false false 0 0.

Record UnitAttempt := MkUnitAttempt { ua_broken_by : option FrameError; ua_started : bool }.

#[global] Instance eta_UnitAttempt : Eta UnitAttempt := fun u => MkUnitAttempt (ua_broken_by u) (ua_started u).

Definition unit_default : UnitAttempt := MkUnitAttempt None false.

(** The clock and the lease's gate are the world; [dc_hold] says whether a hold
    is installed. *)
Record DaliController (W T : Type) := MkController {
  dc_transport : T; dc_world : W; dc_session : DaliSession; dc_retry_policy : RetryPolicy; dc_retry_seed : Z;
  dc_lease : option WireLease; dc_hold : bool; dc_at_step_boundary : bool; dc_step_depth : Z;
  dc_honours_settle : bool; dc_wire_class : TransactionPriority; dc_tx : TransactionState;
  dc_unit : option UnitAttempt; dc_last_release_ms : Z; dc_busy_since_release : bool; dc_counters : DaliWireCounters }.
Arguments dc_transport {W T}. Arguments dc_world {W T}. Arguments dc_session {W T}. Arguments dc_retry_policy {W T}.
Arguments dc_retry_seed {W T}. Arguments dc_lease {W T}. Arguments dc_hold {W T}.
Arguments dc_at_step_boundary {W T}. Arguments dc_step_depth {W T}. Arguments dc_honours_settle {W T}.
Arguments dc_wire_class {W T}. Arguments dc_tx {W T}. Arguments dc_unit {W T}. Arguments dc_last_release_ms {W T}.
Arguments dc_busy_since_release {W T}. Arguments dc_counters {W T}. Arguments MkController {W T}.

#[global] Instance eta_DaliController W T : Eta (DaliController W T) := fun c =>
  MkController (dc_transport c) (dc_world c) (dc_session c) (dc_retry_policy c) (dc_retry_seed c) (dc_lease c)
    (dc_hold c) (dc_at_step_boundary c) (dc_step_depth c) (dc_honours_settle c) (dc_wire_class c) (dc_tx c)
    (dc_unit c) (dc_last_release_ms c) (dc_busy_since_release c) (dc_counters c).

Section Impl.
Context {W T : Type} `{World W} `{DaliTransport W T}.
Notation DC := (DaliController W T).
Implicit Type c : DC.

Definition controller_new (transport : T) (world : W) (policy : RetryPolicy) : DC :=
  let '(clock_now, world) := monotonic_ms world in
  MkController transport world session_new policy (Z.max clock_now 1) None false false 0 (honours_settle transport)
    TConfiguration transaction_default None clock_now false counters_default.

Definition in_world {A} (f : W -> A * W) : eff DC A :=
  fun c => let '(a, w) := f (dc_world c) in (a, c <| dc_world := w |>).
Definition now_ms : eff DC Z := in_world monotonic_ms.
Definition sleep (us : Z) : eff DC unit := modify (fun c => c <| dc_world := sleep_us us (dc_world c) |>).
Definition count (f : DaliWireCounters -> DaliWireCounters) : eff DC unit :=
  modify (fun c => c <| dc_counters := f (dc_counters c) |>).

(** ** Units ([unit.rs]) *)

Definition unit_broken_by c : option FrameError :=
  match dc_unit c with Some u => ua_broken_by u | None => None end.

Definition attempts_here c (attempts : Z) : Z := match dc_unit c with Some _ => 1 | None => attempts end.

Definition note_unit_started c : DC :=
  match dc_unit c with Some u => c <| dc_unit := Some (u <| ua_started := true |>) |> | None => c end.

(** [get_or_insert]: the first error stays. *)
Definition break_unit (error : FrameError) c : DC :=
  match dc_unit c with
  | Some u => c <| dc_unit := Some (u <| ua_broken_by := Some (default error (ua_broken_by u)) |>) |>
  | None => c
  end.

(** ** Retries ([retry.rs]) *)

Definition jittered (seed : Z) : Z :=
  let state := Z.lxor seed (shl 64 seed 13) in
  let state := Z.lxor state (Z.shiftr state 7) in
  let state := Z.lxor state (shl 64 state 17) in
  if state =? 0 then 1 else state.
Definition next_retry_jitter : eff DC Z := fun c =>
  let state := jittered (dc_retry_seed c) in (state, c <| dc_retry_seed := state |>).

Definition should_retry_contended_query_no_answer c (e : ExchangeObservation) (expects_backward : bool) : bool :=
  expects_backward && bool_decide (ob_outcome e = OutNoAnswer) && ob_contended e &&
  query_contention_retry (dc_retry_policy c).

Definition has_retry_remaining (attempt attempts : Z) : bool := sat_add 8 attempt 1 <? attempts.

(** In microseconds. *)
Definition retry_delay_for c (error : FrameError) (retry_index jitter : Z) : Z :=
  if bool_decide (error = Collision) then 0 else backoff_delay (dc_retry_policy c) retry_index jitter * 1000.

Definition retry_or_fail (attempt attempts : Z) (error : FrameError) :
    eff DC (Result (option TransferOutcome) FrameError) :=
  if negb (has_retry_remaining attempt attempts) then
    let* _ := modify (break_unit error) in ret (Err error)
  else
    let* _ := count (fun w => w <| wc_exchange_retries := bump32 (wc_exchange_retries w) |>) in
    let* jitter := next_retry_jitter in
    let* delay := asks (fun c => retry_delay_for c error attempt jitter) in
    let* _ := if negb (delay =? 0) then sleep delay else ret tt in
    ret (Ok None).

Definition unit_retryable (error : FrameError) : bool :=
  match error with Collision | BusBusy => true | _ => false end.

(** ** Transactions ([transaction.rs]) *)

Definition started c : bool := (0 <? tx_depth (dc_tx c)) && tx_first_frame_sent (dc_tx c).

Definition next_frame_priority c : DaliPriority := if started c then PTransaction else first_frame (dc_wire_class c).

Definition release_due : eff DC bool := fun c =>
  if negb (dc_busy_since_release c) then (false, c)
  else if started c then (false, c)
  else let '(now, c) := now_ms c in (TRANSACTION_BUDGET_MS <=? sat_sub now (dc_last_release_ms c), c).

(** The settling time asked of the transport, for a jitter. *)
Definition settle_within (p : DaliPriority) (jitter : Z) : Z :=
  let lo := div_ceil (min_settle_us p) PHY_TICK_US + CLOCK_SKEW_GUARD_TICKS in
  let hi := max_settle_us p / PHY_TICK_US in
  let span := sat_add 32 (sat_sub hi lo) 1 in
  let on_wire := lo + jitter mod span in
  sat_sub on_wire TX_ARM_LEAD_TICKS * PHY_TICK_US.
Definition random_settle_within (p : DaliPriority) : eff DC Z :=
  let* jitter := next_retry_jitter in ret (settle_within p jitter).

Definition next_settle : eff DC (DaliPriority * Z) :=
  let* priority := asks next_frame_priority in
  let* due := release_due in
  if negb due then let* settle := random_settle_within priority in ret (priority, settle)
  else
    let* now := now_ms in
    let* _ := modify (fun c => c <| dc_last_release_ms := now |> <| dc_busy_since_release := false |>) in
    let* _ := count (fun w => w <| wc_bus_releases := bump32 (wc_bus_releases w) |>) in
    ret (PPeriodicQuery, BUS_RELEASE_SETTLE_US).

Definition held_by : eff DC (option HoldCause) := fun c =>
  if started c || ((0 <? dc_step_depth c) && negb (dc_at_step_boundary c)) then (None, c)
  else if dc_hold c then in_world held_now c else (None, c).

(** [lease.should_yield()] reads the gate. *)
Definition lease_yields (l : WireLease) : eff DC bool :=
  let* now := in_world arrival_tickets in ret (should_yield l now).

Definition must_yield : eff DC bool := fun c =>
  if started c then (false, c)
  else match dc_lease c with
       | None => (false, c)
       | Some lease =>
           match lease_granularity lease with
           | YgNever => (false, c)
           | YgStep => if negb (dc_at_step_boundary c) then (false, c) else lease_yields lease c
           | YgFrame => lease_yields lease c
           end
       end.

Definition yield_pending : eff DC bool := fun c =>
  match dc_lease c with
  | None => (false, c)
  | Some lease => match lease_granularity lease with YgNever => (false, c) | _ => lease_yields lease c end
  end.

(** What [close_outermost] counts for the transaction it closes. *)
Definition note_closed (tx : TransactionState) (w : DaliWireCounters) : DaliWireCounters :=
  let w := w <| wc_transactions_completed := bump32 (wc_transactions_completed w) |> in
  if TRANSACTION_BUDGET_MS <? sat_sub (tx_last_frame_at_ms tx) (tx_first_frame_at_ms tx) then
    if tx_exempt tx then w <| wc_transaction_should_exceedances := bump32 (wc_transaction_should_exceedances w) |>
    else w <| wc_transaction_budget_exceeded := bump32 (wc_transaction_budget_exceeded w) |>
  else w.

Definition close_outermost c : DC :=
  let c := if negb (tx_first_frame_sent (dc_tx c)) then c
           else c <| dc_counters := note_closed (dc_tx c) (dc_counters c) |> in
  c <| dc_tx := transaction_default |>.

Definition open_transaction (exempt : bool) c : DC :=
  let c := if tx_depth (dc_tx c) =? 0 then c <| dc_tx := transaction_default <| tx_exempt := exempt |> |> else c in
  c <| dc_tx := dc_tx c <| tx_depth := sat_add 16 (tx_depth (dc_tx c)) 1 |> |>.
Definition close_transaction c : DC :=
  let c := c <| dc_tx := dc_tx c <| tx_depth := sat_sub (tx_depth (dc_tx c)) 1 |> |> in
  if tx_depth (dc_tx c) =? 0 then close_outermost c else c.

Definition run_transaction {R} (exempt : bool) (run : eff DC R) : eff DC R :=
  let* _ := modify (open_transaction exempt) in
  let* result := run in
  let* _ := modify close_transaction in
  ret result.

Definition close_transaction_for_yield c : DC :=
  let depth := tx_depth (dc_tx c) in
  let exempt := tx_exempt (dc_tx c) in
  let c := close_outermost c in
  c <| dc_tx := dc_tx c <| tx_depth := depth |> <| tx_exempt := exempt |> |>.

Definition note_unit_reopened c : DC :=
  if started c
  then c <| dc_counters := dc_counters c <| wc_transaction_reopened := bump32 (wc_transaction_reopened (dc_counters c)) |> |>
  else c.

Definition credit_natural_release : eff DC unit :=
  let* now := now_ms in
  let* quiet := asks (fun c => min_wait_before_next (dc_session c) BUS_RELEASE_SETTLE_US now) in
  if quiet =? 0 then
    let* now := now_ms in
    modify (fun c => c <| dc_last_release_ms := now |> <| dc_busy_since_release := false |>)
  else ret tt.

Definition settle_ticks c : option Z := last_tx_settle_ticks (dc_transport c).

Definition note_settle_window (priority : DaliPriority) c : DC :=
  match priority, settle_ticks c with
  | PTransaction, Some ticks =>
      if max_settle_us PTransaction <? ticks * PHY_TICK_US
      then c <| dc_counters := dc_counters c <| wc_p1_window_late := bump32 (wc_p1_window_late (dc_counters c)) |> |>
      else c
  | _, _ => c
  end.

(** ** One exchange ([controller.rs]) *)

Definition session_wait (settle_us : Z) : eff DC (Result unit FrameError) := fun c =>
  if dc_honours_settle c then (Ok tt, c)
  else
    (let* now := now_ms in
     let* wait := asks (fun c => min_wait_before_next (dc_session c) settle_us now) in
     let* _ := if negb (wait =? 0) then sleep wait else ret tt in
     ret (Ok tt)) c.

Definition perform_exchange (frame : WireFrame) (expects_backward : bool) (settle_us : Z) :
    eff DC (Result ExchangeObservation FrameError) := fun c =>
  let foreign_before := foreign_activity (dc_transport c) in
  let '(outcome, (t, w)) :=
    match frame with
    | Forward16 f => exchange_frame_with_settle f expects_backward settle_us (dc_transport c, dc_world c)
    | Forward24 b => exchange_frame24_with_settle b expects_backward settle_us (dc_transport c, dc_world c)
    end in
  let c := c <| dc_transport := t |> <| dc_world := w |> in
  match outcome with
  | None => (Err TransportError, c)
  | Some outcome => (Ok (MkObservation outcome (negb (foreign_activity t =? foreign_before))), c)
  end.

Definition note_outcome_counter (outcome : TransferOutcome) (w : DaliWireCounters) : DaliWireCounters :=
  match outcome with
  | OutBusBusy => w <| wc_bus_acquire_timeout := bump32 (wc_bus_acquire_timeout w) |>
  | OutCollision => w <| wc_collisions := bump32 (wc_collisions w) |>
  | OutForeignInWindow => w <| wc_foreign_in_window := bump32 (wc_foreign_in_window w) |>
  | OutCorruptedInWindow => w <| wc_corrupted_in_window := bump32 (wc_corrupted_in_window w) |>
  | OutAnswer _ | OutNoAnswer => w
  end.

(** [priority as u8] and [class as u8]. *)
Definition priority_code (p : DaliPriority) : Z :=
  match p with PTransaction => 1 | PUserAction => 2 | PConfiguration => 3 | PAutomatic => 4 | PPeriodicQuery => 5 end.
Definition class_code (p : TransactionPriority) : Z :=
  match p with TTransaction => 1 | TUserAction => 2 | TConfiguration => 3 | TAutomatic => 4 | TPeriodicQuery => 5 end.

Definition unsent (outcome : TransferOutcome) : bool :=
  match outcome with OutBusBusy | OutCollision => true | _ => false end.

(** The transaction learns of a transmitted frame. *)
Definition note_transaction_frame (now : Z) c : DC :=
  let c := c <| dc_tx := dc_tx c <| tx_last_frame_at_ms := now |> |> in
  if (0 <? tx_depth (dc_tx c)) && negb (tx_first_frame_sent (dc_tx c))
  then c <| dc_tx := dc_tx c <| tx_first_frame_sent := true |> <| tx_first_frame_at_ms := now |> |>
         <| dc_counters := note_transaction_started (dc_counters c) (class_code (dc_wire_class c)) |>
  else c.

Definition note_frame_transmitted (outcome : TransferOutcome) (priority : DaliPriority) : eff DC unit :=
  let* _ := count (note_outcome_counter outcome) in
  if unsent outcome then ret tt
  else
    let* now := now_ms in
    let* _ := modify (fun c => c <| dc_session := record_transmission (dc_session c) now |>) in
    let* _ := modify note_unit_started in
    let* _ := modify (fun c => c <| dc_busy_since_release := true |>) in
    let* _ := count (fun w => note_frame_sent w (priority_code priority)) in
    let* _ := modify (note_settle_window priority) in
    let* now := now_ms in
    modify (note_transaction_frame now).

Definition is_forward24 (f : WireFrame) : bool := match f with Forward24 _ => true | Forward16 _ => false end.

Definition resolve_exchange_outcome (e : ExchangeObservation) (expects_backward : bool) (attempt attempts : Z)
    (frame : WireFrame) : eff DC (Result (option TransferOutcome) FrameError) := fun c =>
  if should_retry_contended_query_no_answer c e expects_backward then retry_or_fail attempt attempts Collision c
  else match ob_outcome e with
       | OutAnswer _ | OutNoAnswer => (Ok (Some (ob_outcome e)), c)
       | OutCollision => retry_or_fail attempt attempts Collision c
       | OutBusBusy => retry_or_fail attempt attempts BusBusy c
       | OutForeignInWindow =>
           if is_forward24 frame then (Ok (Some (ob_outcome e)), c)
           else if expects_backward then retry_or_fail attempt attempts Collision c
           else (Ok (Some OutNoAnswer), c)
       | OutCorruptedInWindow =>
           if is_forward24 frame then (Ok (Some (ob_outcome e)), c)
           else if expects_backward then (Ok (Some (ob_outcome e)), c)
           else (Ok (Some OutNoAnswer), c)
       end.

(** One turn of the loop of [exchange_with_attempts]: [None] goes round again. *)
Definition exchange_attempt (frame : WireFrame) (expects_backward : bool) (attempt attempts : Z) (contended : bool) :
    eff DC (Result (option ExchangeObservation * bool) FrameError) :=
  let* hold := held_by in
  match hold with
  | Some cause => ret (Err (Held cause))
  | None =>
      let* yields := must_yield in
      if yields : bool then ret (Err Preempted)
      else
        let* _ := modify (fun c => c <| dc_at_step_boundary := false |>) in
        let* _ := credit_natural_release in
        let* ps := next_settle in
        let! _ := session_wait (snd ps) in
        let! e := perform_exchange frame expects_backward (snd ps) in
        let contended := contended || ob_contended e in
        let* _ := note_frame_transmitted (ob_outcome e) (fst ps) in
        let! result := resolve_exchange_outcome e expects_backward attempt attempts frame in
        ret (Ok (option_map (fun o => MkObservation o contended) result, contended))
  end.

(** [for attempt in 0..attempts]: the turns left and the attempt's number. *)
Fixpoint exchange_loop (frame : WireFrame) (expects_backward : bool) (attempts : Z) (turns : nat) (attempt : Z)
    (contended : bool) : eff DC (Result ExchangeObservation FrameError) :=
  match turns with
  | O =>
      let* _ := count (fun w => w <| wc_retry_exhausted := bump32 (wc_retry_exhausted w) |>) in
      ret (Err TransportError)
  | S turns =>
      let! r := exchange_attempt frame expects_backward attempt attempts contended in
      match fst r with
      | Some o => ret (Ok o)
      | None => exchange_loop frame expects_backward attempts turns (attempt + 1) (snd r)
      end
  end.

Definition exchange_with_attempts (frame : WireFrame) (expects_backward : bool) (attempts : Z) :
    eff DC (Result ExchangeObservation FrameError) := fun c =>
  match unit_broken_by c with
  | Some error => (Err error, c)
  | None => exchange_loop frame expects_backward attempts (Z.to_nat attempts) 0 false c
  end.

Definition response_from_outcome (o : TransferOutcome) : DaliResponse :=
  match o with
  | OutAnswer backward => RespAnswer backward
  | OutNoAnswer => NoAnswer
  | OutCorruptedInWindow => Violation
  | OutCollision | OutBusBusy | OutForeignInWindow => NoAnswer
  end.

Definition fault24_from_error (e : FrameError) : Frame24Fault :=
  match e with Preempted => F24Preempted | Held cause => F24Held cause | _ => F24Contended end.

Definition response24_from_outcome (o : TransferOutcome) : Result DaliResponse Frame24Fault :=
  match o with
  | OutCollision | OutBusBusy | OutForeignInWindow => Err F24Contended
  | terminal => Ok (response_from_outcome terminal)
  end.

Definition response_if_expected (r : DaliResponse) (expects_backward : bool) : DaliResponse :=
  if expects_backward then r else NoAnswer.

Definition response_of (o : ExchangeObservation) : DaliResponse * bool :=
  (response_from_outcome (ob_outcome o), ob_contended o).

Definition exchange_once (frame : Z) (expects_backward : bool) : eff DC (Result (DaliResponse * bool) FrameError) :=
  let! obs := exchange_with_attempts (Forward16 frame) expects_backward 1 in ret (Ok (response_of obs)).

Definition policy_attempts c : Z := attempts_here c (effective_max_attempts (dc_retry_policy c)).

Definition transmit_frame_observed (frame : Z) (expects_backward : bool) :
    eff DC (Result (DaliResponse * bool) FrameError) :=
  let* attempts := asks policy_attempts in
  let! obs := exchange_with_attempts (Forward16 frame) expects_backward attempts in ret (Ok (response_of obs)).

(** ** Units of frames *)

(** [Err(BusBusy)] when the two frames were too far apart to be a pair. *)
Definition judge_send_twice_interval : eff DC (Result unit FrameError) := fun c =>
  match settle_ticks c with
  | None => (Ok tt, c)
  | Some ticks =>
      let interval_us := ticks * PHY_TICK_US in
      if SEND_TWICE_MAX_INTERVAL_US <=? interval_us then
        (let* _ := count (fun w => w <| wc_send_twice_split := bump32 (wc_send_twice_split w) |>) in
         ret (Err BusBusy)) c
      else if SEND_TWICE_TX_MAX_US <=? interval_us then
        (let* _ := count (fun w =>
           w <| wc_send_twice_over_transmitter_max := bump32 (wc_send_twice_over_transmitter_max w) |>) in
         ret (Ok tt)) c
      else (Ok tt, c)
  end.

Definition try_unit_once (enable : option Z) (frame : Z) (expects_backward repeats : bool) :
    eff DC (Result (DaliResponse * bool) FrameError) :=
  let! enabled := match enable with
                  | Some enable => exchange_once enable false
                  | None => ret (Ok (NoAnswer, false))
                  end in
  let! first := exchange_once frame expects_backward in
  let contended := snd enabled || snd first in
  if repeats then
    let! second := exchange_once frame expects_backward in
    let! _ := judge_send_twice_interval in
    ret (Ok (fst second, contended || snd second))
  else ret (Ok (fst first, contended)).

Definition try_pair24_once (frame : Z * Z * Z) : eff DC (Result unit FrameError) :=
  let! _ := exchange_with_attempts (Forward24 frame) false 1 in
  let! _ := exchange_with_attempts (Forward24 frame) false 1 in
  judge_send_twice_interval.

(** The loop of [send_unit] and [send_unit24_twice] over one attempt at the unit. *)
Fixpoint unit_loop {R} (once : eff DC (Result R FrameError)) (attempts : Z) (turns : nat) (attempt : Z) :
    eff DC (Result R FrameError) :=
  match turns with
  | O => ret (Err TransportError)
  | S turns =>
      let* r := once in
      match r with
      | Ok result => ret (Ok result)
      | Err error =>
          if negb (unit_retryable error) then ret (Err error)
          else
            let! _ := retry_or_fail attempt attempts error in
            let* _ := modify note_unit_reopened in
            unit_loop once attempts turns (attempt + 1)
      end
  end.

Definition send_unit (enable : option Z) (frame : Z) (expects_backward repeats : bool) :
    eff DC (Result (DaliResponse * bool) FrameError) :=
  let* attempts := asks policy_attempts in
  unit_loop (try_unit_once enable frame expects_backward repeats) attempts (Z.to_nat attempts) 0.

Definition send_unit24_twice (frame : Z * Z * Z) : eff DC (Result unit FrameError) :=
  let* attempts := asks policy_attempts in
  unit_loop (try_pair24_once frame) attempts (Z.to_nat attempts) 0.

(** The forward frame of a command; every command has one ([to_forward_frame]). *)
Definition command_frame (cmd : DaliCommand) : Z := default 0 (to_forward_frame cmd).

Definition enable_frame (cmd : DaliCommand) : option Z :=
  match cmd with
  | Extended _ command => Some (special_to_forward_frame (EnableDeviceType (enable_device_type command)))
  | _ => None
  end.

Definition send_command_impl (cmd : DaliCommand) : eff DC (Result (DaliResponse * bool) FrameError) :=
  let expects_backward := is_query cmd in
  let! r := run_transaction false
              (send_unit (enable_frame cmd) (command_frame cmd) expects_backward (requires_repeat cmd)) in
  ret (Ok (response_if_expected (fst r) expects_backward, snd r)).

Definition perform_exchange24 (frame : Z * Z * Z) (expects_backward : bool) (attempts : Z) :
    eff DC (Result DaliResponse Frame24Fault) := fun c =>
  if negb (supports_frame24 (dc_transport c)) then (Err F24Unsupported, c)
  else
    (let! obs := map_err fault24_from_error (exchange_with_attempts (Forward24 frame) expects_backward attempts) in
     ret (response24_from_outcome (ob_outcome obs))) c.

Definition send_frame24 (frame : Z * Z * Z) (expects_backward : bool) : eff DC (Result DaliResponse Frame24Fault) :=
  let* attempts := asks policy_attempts in perform_exchange24 frame expects_backward attempts.
Definition send_frame24_once (frame : Z * Z * Z) (expects_backward : bool) :
    eff DC (Result DaliResponse Frame24Fault) := perform_exchange24 frame expects_backward 1.
Definition send_frame24_twice (frame : Z * Z * Z) : eff DC (Result unit Frame24Fault) := fun c =>
  if negb (supports_frame24 (dc_transport c)) then (Err F24Unsupported, c)
  else map_err fault24_from_error (run_transaction false (send_unit24_twice frame)) c.

(** ** Brackets *)

Definition with_wire_lease {R} (lease : WireLease) (run : eff DC R) : eff DC R := fun c =>
  let previous := dc_lease c in
  let previous_boundary := dc_at_step_boundary c in
  let '(result, c) := run (c <| dc_lease := Some lease |> <| dc_at_step_boundary := false |>) in
  (result, c <| dc_lease := previous |> <| dc_at_step_boundary := previous_boundary |>).

Definition with_wire_hold {R} (run : eff DC R) : eff DC R := fun c =>
  let previous := dc_hold c in
  let '(result, c) := run (c <| dc_hold := true |>) in
  (result, c <| dc_hold := previous |>).

Definition close_leaked c : DC :=
  if 0 <? tx_depth (dc_tx c)
  then c <| dc_counters := dc_counters c <| wc_transaction_leaks := bump32 (wc_transaction_leaks (dc_counters c)) |> |>
         <| dc_tx := transaction_default |> <| dc_unit := None |>
  else c.
Definition with_wire_class {R} (class : option TransactionPriority) (run : eff DC R) : eff DC R := fun c =>
  let previous := dc_wire_class c in
  let '(result, c) := run (match class with Some k => c <| dc_wire_class := k |> | None => c end) in
  let c := match class with Some _ => c <| dc_wire_class := previous |> | None => c end in
  (result, close_leaked c).

Definition step_boundary_impl : eff DC unit := fun c =>
  let c := c <| dc_at_step_boundary := true |> in
  if started c then let '(pending, c) := yield_pending c in (tt, if pending then close_transaction_for_yield c else c)
  else (tt, c).

Definition step_impl {R} (run : eff DC R) : eff DC R := fun c =>
  let outer := dc_lease c in
  let narrowed := option_map (fun lease => no_finer_than lease YgStep) outer in
  let '(_, c) := step_boundary_impl (c <| dc_lease := narrowed |>) in
  let '(result, c) := run (c <| dc_step_depth := sat_add 8 (dc_step_depth c) 1 |>) in
  (result, c <| dc_step_depth := sat_sub (dc_step_depth c) 1 |> <| dc_lease := outer |>).

(** Whether the unit that just finished runs again. *)
Definition reruns_after (finished : UnitAttempt) (attempt attempts : Z) : eff DC bool :=
  match ua_broken_by finished with
  | None => ret false
  | Some error =>
      let* r := retry_or_fail attempt attempts error in
      match r with
      | Err _ => ret false
      | Ok _ =>
          let* _ := if ua_started finished
                    then count (fun w => w <| wc_transaction_reopened := bump32 (wc_transaction_reopened w) |>)
                    else ret tt in
          ret true
      end
  end.

(** The [loop] of [run_unit]; [reruns_after] ends it within [attempts] turns. *)
Fixpoint run_unit_loop {S R} (exempt : bool) (run : S -> eff DC (R * S)) (attempts : Z) (turns : nat) (attempt : Z)
    (captured : S) : eff DC (R * S) :=
  let* _ := modify (fun c => c <| dc_unit := Some unit_default |>) in
  let* result := run_transaction exempt (run captured) in
  let* finished := asks (fun c => default unit_default (dc_unit c)) in
  let* _ := modify (fun c => c <| dc_unit := None |>) in
  let* again := reruns_after finished attempt attempts in
  match again, turns with
  | true, S turns => run_unit_loop exempt run attempts turns (attempt + 1) (snd result)
  | _, _ => ret result
  end.

Definition run_unit {S R} (exempt : bool) (run : S -> eff DC (R * S)) (captured : S) : eff DC (R * S) := fun c =>
  match dc_unit c with
  | Some _ => run_transaction exempt (run captured) c
  | None =>
      let attempts := effective_max_attempts (dc_retry_policy c) in
      run_unit_loop exempt run attempts (Z.to_nat attempts) 0 captured c
  end.

Definition note_workaround_impl (k : ReadbackWorkaround) c : DC :=
  let w := dc_counters c in
  c <| dc_counters :=
    match k with
    | GroupsCorrected => w <| wc_readback_groups_corrected := bump32 (wc_readback_groups_corrected w) |>
    | ColourFeaturesCorrected =>
        w <| wc_readback_colour_features_corrected := bump32 (wc_readback_colour_features_corrected w) |>
    | ExtendedFadeCorrected =>
        w <| wc_readback_extended_fade_corrected := bump32 (wc_readback_extended_fade_corrected w) |>
    | ProgramRepair => w <| wc_program_repairs := bump32 (wc_program_repairs w) |>
    end |>.

End Impl.

(** [#[derive(Debug)]] of [FrameError]. *)
Definition frame_error_debug (e : FrameError) : string :=
  match e with
  | BackwardTimeout => "BackwardTimeout" | BackwardNack => "BackwardNack" | Collision => "Collision"
  | BusBusy => "BusBusy" | TransportError => "TransportError" | Preempted => "Preempted"
  | Held Passive => "Held(Passive)" | Held Quiescent => "Held(Quiescent)"
  end%string.

#[global] Instance dali_controller {W T} `{World W} `{DaliTransport W T} :
  DaliApplicationController (DaliController W T) := {|
  ctl_error := FrameError;
  ctl_debug := frame_error_debug;
  send_command_observed := send_command_impl;
  send_raw_observed := transmit_frame_observed;
  send_raw_once := exchange_once;
  send_raw_pair frame expects_backward := run_transaction false (send_unit None frame expects_backward true);
  send_raw_enabled_query enable frame := run_transaction false (send_unit (Some enable) frame true false);
  transaction R := run_transaction false;
  transaction_exempt R := run_transaction true;
  unit_of S R := run_unit false;
  unit_exempt S R := run_unit true;
  step_boundary := step_boundary_impl;
  step R := step_impl;
  note_workaround := note_workaround_impl;
  sleep_ms ms c := c <| dc_world := sleep_us (ms * 1000) (dc_world c) |> |}.

End Controller.
