(* ===== verification/Majority.v ===== *)
(** * Majority of repeated reads

    Models [crates/dali2rust-dali-runtime/src/runtime/executor/majority.rs]: a
    value read several times off a contended bus is confirmed when it wins its
    votes alone and beats the silences. *)

From S2P Require Import Prelude RulesBase.

Module Majority.

(** [counts.saturating_add(1)] *)
Definition bump8 (n : Z) : Z := sat_add 8 n 1.

(** ** The tally of bytes *)

Definition no_counts : list Z := replicate 256 0.
Definition bump_count (counts : list Z) (v : Z) : list Z :=
  aset counts v (bump8 (default 0 (aget counts v))).

(** One turn of the loop of [best_unique_byte] over [counts.iter().enumerate()]. *)
Definition best_step (s : option (Z * Z) * bool) (vc : Z * Z) : option (Z * Z) * bool :=
  let '(best, tied) := s in
  let '(value, count) := vc in
  if count =? 0 then s
  else match best with
       | None => (Some (value, count), false)
       | Some (_, best_count) =>
           if best_count <? count then (Some (value, count), false)
           else if count =? best_count then (best, true) else s
       end.

Definition enumerate (l : list Z) : list (Z * Z) := zip (seqZ 0 (Z.of_nat (length l))) l.

Definition best_unique_byte (counts : list Z) : option (Z * Z) :=
  match fold_left best_step (enumerate counts) (None, false) with
  | (Some (value, count), tied) => if (2 <=? count) && negb tied then Some (value, count) else None
  | (None, _) => None
  end.

Definition unique_majority_byte (counts : list Z) : option Z := option_map fst (best_unique_byte counts).

Definition majority_byte_from_u32_samples (samples : list Z) (shift : Z) : option Z :=
  unique_majority_byte
    (fold_left (fun counts sample => bump_count counts (Z.land (Z.shiftr sample shift) 0xFF)) samples no_counts).

(** ** The verdict *)

(** [Iterator::max] with [unwrap_or(0)]. *)
Fixpoint max_or_zero (l : list Z) : Z := match l with [] => 0 | x :: l => Z.max x (max_or_zero l) end.

(** The last [match], the same in both tallies. *)
Definition verdict {T} (winner : option (T * Z)) (none_count best_count : Z) : option (option T) :=
  match winner with
  | Some (value, count) =>
      if none_count <? count then Some (Some value)
      else if (count =? none_count) && (2 <=? none_count) then None
      else if none_count <? 2 then Some (Some value)
      else if (2 <=? none_count) && (best_count <? none_count) then Some None else None
  | None => if (2 <=? none_count) && (best_count <? none_count) then Some None else None
  end.

Definition count_byte (s : list Z * Z) (sample : option Z) : list Z * Z :=
  match sample with
  | Some value => (bump_count (fst s) value, snd s)
  | None => (fst s, bump8 (snd s))
  end.

Definition majority_optional_byte (samples : list (option Z)) : option (option Z) :=
  let '(counts, none_count) := fold_left count_byte samples (no_counts, 0) in
  verdict (best_unique_byte counts) none_count (max_or_zero counts).

(** ** The tally of any value *)

Section Tally.
Context {T : Type} `{EqDecision T}.

Fixpoint bump_tally (tally : list (T * Z)) (value : T) : list (T * Z) :=
  match tally with
  | [] => [(value, 1)]
  | (seen, count) :: tally =>
      if bool_decide (seen = value) then (seen, bump8 count) :: tally else (seen, count) :: bump_tally tally value
  end.

Definition count_value (s : list (T * Z) * Z) (sample : option T) : list (T * Z) * Z :=
  match sample with
  | Some value => (bump_tally (fst s) value, snd s)
  | None => (fst s, bump8 (snd s))
  end.

Definition tally_winner (tally : list (T * Z)) : option (T * Z) :=
  let best_count := max_or_zero (map snd tally) in
  let tied := Nat.ltb 1 (List.length (List.filter (fun e => snd e =? best_count) tally)) in
  if (2 <=? best_count) && negb tied then List.find (fun e => snd e =? best_count) tally else None.

Definition majority_optional (samples : list (option T)) : option (option T) :=
  let '(tally, none_count) := fold_left count_value samples ([], 0) in
  verdict (tally_winner tally) none_count (max_or_zero (map snd tally)).

(** ** What a tally holds *)

(** The votes of a value, as the [u8] counts them. *)
Definition votes (samples : list (option T)) (v : T) : Z :=
  fold_left (fun n s => if bool_decide (s = Some v) then bump8 n else n) samples 0.

Lemma bump8_pos n : 0 <= n -> 1 <= bump8 n.
Proof. unfold bump8, sat_add, umax. lia. Qed.

Lemma votes_app samples s v :
  votes (samples ++ [s]) v = if bool_decide (s = Some v) then bump8 (votes samples v) else votes samples v.
Proof. unfold votes. now rewrite fold_left_app. Qed.

Lemma votes_nonneg samples v : 0 <= votes samples v.
Proof.
  induction samples as [|s samples IH] using rev_ind; [reflexivity|]. rewrite votes_app.
  case_bool_decide; [pose proof (bump8_pos _ IH)|]; lia.
Qed.

Lemma bump_tally_spec tally v w c :
  (w, c) ∈ bump_tally tally v -> NoDup (map fst tally) ->
  (w <> v /\ (w, c) ∈ tally) \/ (w = v /\ ((exists n, (v, n) ∈ tally /\ c = bump8 n) \/ (v ∉ map fst tally /\ c = 1))).
Proof.
  induction tally as [|[s n] tally IH]; cbn [bump_tally map fst].
  - rewrite list_elem_of_singleton. intros [= -> ->] _. right. split; [reflexivity|]. right. split; [|reflexivity]. inversion 1.
  - intros Hin Hnd. apply list.NoDup_cons in Hnd as [Hs Hnd]. case_bool_decide.
    + subst s. apply elem_of_cons in Hin as [[= -> ->]|Hin].
      * right. split; [reflexivity|]. left. exists n. split; [left|reflexivity].
      * left. split; [|now right]. intros ->. apply Hs. apply list_elem_of_fmap. now exists (v, c).
    + apply elem_of_cons in Hin as [[= -> ->]|Hin]; [left; split; [assumption|left]|].
      destruct (IH Hin Hnd) as [[? ?]|[-> [[m [? ?]]|[? ?]]]].
      * left. split; [assumption|now right].
      * right. split; [reflexivity|]. left. exists m. split; [now right|assumption].
      * right. split; [reflexivity|]. right. split; [|assumption]. rewrite not_elem_of_cons. auto.
Qed.

Lemma bump_tally_keys tally v :
  NoDup (map fst tally) -> NoDup (map fst (bump_tally tally v)) /\
  (forall w, w ∈ map fst (bump_tally tally v) <-> w = v \/ w ∈ map fst tally).
Proof.
  induction tally as [|[s n] tally IH]; cbn [bump_tally map fst]; intros Hnd.
  - split; [apply NoDup_singleton|]. intros w. rewrite list_elem_of_singleton. split; [intros ->; now left|]. intros [->|Hx]; [reflexivity|inversion Hx].
  - apply list.NoDup_cons in Hnd as [Hs Hnd]. case_bool_decide; cbn [map fst].
    + subst s. split; [now apply list.NoDup_cons|]. intros w. rewrite elem_of_cons. tauto.
    + destruct (IH Hnd) as [Hnd' Hk]. split.
      * apply list.NoDup_cons. split; [|assumption]. rewrite Hk. intros [->|?]; auto.
      * intros w. rewrite !elem_of_cons, Hk. tauto.
Qed.

Lemma tally_holds samples :
  let tally := fst (fold_left count_value samples ([], 0)) in
  NoDup (map fst tally) /\ (forall v c, (v, c) ∈ tally -> c = votes samples v /\ 1 <= c) /\
  (forall v, v ∉ map fst tally -> votes samples v = 0).
Proof.
  induction samples as [|s samples IH] using rev_ind; cbn zeta.
  - cbn. split; [apply NoDup_nil_2|]. split; [intros v c Hin; inversion Hin|reflexivity].
  - rewrite fold_left_app. cbn zeta in IH. destruct (fold_left count_value samples ([], 0)) as [tally none].
    cbn [fst fold_left] in *. destruct IH as (Hnd & Hc & Hz). destruct s as [s|]; cbn [count_value fst snd].
    + destruct (bump_tally_keys tally s Hnd) as [Hnd' Hk]. split; [assumption|]. split.
      * intros v c Hin. rewrite votes_app. destruct (bump_tally_spec _ _ _ _ Hin Hnd) as [[Hne Hin']|[-> Hv]].
        -- rewrite bool_decide_eq_false_2 by congruence. auto.
        -- rewrite bool_decide_eq_true_2 by reflexivity. pose proof (votes_nonneg samples s).
           destruct Hv as [[n [Hn ->]]|[Hn ->]].
           ++ destruct (Hc _ _ Hn) as [-> ?]. split; [reflexivity|]. now apply bump8_pos.
           ++ rewrite (Hz _ Hn). split; reflexivity || lia.
      * intros v Hv. rewrite Hk in Hv. rewrite votes_app, bool_decide_eq_false_2; [apply Hz; tauto|]. intros [= ->]; tauto.
    + split; [assumption|]. split; intros v; [intros c|]; rewrite votes_app, bool_decide_eq_false_2 by discriminate; auto.
Qed.

(** [v] wins its votes [c] alone. *)
Definition wins (f : T -> Z) (v : T) (c : Z) : Prop := f v = c /\ 2 <= c /\ forall w, w <> v -> f w < c.

Lemma max_or_zero_ge l x : x ∈ l -> x <= max_or_zero l.
Proof. induction l as [|y l IH]; cbn; [inversion 1|]. rewrite elem_of_cons. intros [->|Hx]; [|specialize (IH Hx)]; lia. Qed.
Lemma max_or_zero_in l : max_or_zero l = 0 \/ max_or_zero l ∈ l.
Proof.
  induction l as [|y l IH]; cbn; [now left|]. rewrite elem_of_cons.
  destruct (Z.max_spec y (max_or_zero l)) as [[? ->]|[? ->]]; tauto.
Qed.
Lemma max_or_zero_nonneg l : 0 <= max_or_zero l.
Proof. induction l; cbn; lia. Qed.

(** The entries at the maximum: one when the list is tied with none. *)
Lemma filter_le_one {A} (p : A -> bool) l a b :
  (List.length (List.filter p l) <= 1)%nat -> a ∈ l -> b ∈ l -> p a = true -> p b = true -> a = b.
Proof.
  intros Hlen Ha Hb Pa Pb.
  assert (In a (List.filter p l)) as Fa by (apply filter_In; split; [now apply list_elem_of_In|assumption]).
  assert (In b (List.filter p l)) as Fb by (apply filter_In; split; [now apply list_elem_of_In|assumption]).
  destruct (List.filter p l) as [|x [|? ?]]; cbn in *; [tauto| |lia].
  destruct Fa as [<-|[]], Fb as [<-|[]]. reflexivity.
Qed.

Lemma filter_all_false {A} (p : A -> bool) l : (forall y, y ∈ l -> p y = false) -> List.filter p l = [].
Proof.
  induction l as [|y l IH]; intros H; [reflexivity|]. cbn. rewrite (H y) by left. apply IH. intros z Hz. apply H. now right.
Qed.

Lemma filter_singleton {A} (p : A -> bool) l x :
  NoDup l -> x ∈ l -> p x = true -> (forall y, y ∈ l -> p y = true -> y = x) -> List.filter p l = [x].
Proof.
  induction l as [|y l IH]; intros Hnd Hin Px Hall; [inversion Hin|]. apply list.NoDup_cons in Hnd as [Hn Hnd].
  cbn. destruct (p y) eqn:Py.
  - pose proof (Hall y ltac:(left) Py) as ->. f_equal. apply filter_all_false. intros z Hz.
    destruct (p z) eqn:Pz; [|reflexivity]. exfalso. apply Hn. rewrite <- (Hall z); [assumption|now right|assumption].
  - apply elem_of_cons in Hin as [->|Hin]; [congruence|]. apply IH; auto. intros z Hz. apply Hall. now right.
Qed.

Section Winner.
Variables (samples : list (option T)) (v : T) (c : Z).
Let tally := fst (fold_left count_value samples ([], 0)).

Lemma tally_le w n : (w, n) ∈ tally -> n <= max_or_zero (map snd tally).
Proof. intros Hin. apply max_or_zero_ge. apply list_elem_of_fmap. now exists (w, n). Qed.

Lemma tally_in w : 0 < votes samples w -> (w, votes samples w) ∈ tally.
Proof.
  intros Hw. destruct (tally_holds samples) as (_ & Hc & Hz). fold tally in Hc, Hz.
  destruct (decide (w ∈ map fst tally)) as [Hi|Hn]; [|rewrite (Hz _ Hn) in Hw; lia].
  apply list_elem_of_fmap in Hi as [[w' n] [-> Hi]]. cbn in *. destruct (Hc _ _ Hi) as [<- _]. exact Hi.
Qed.

Lemma winner_is_best : wins (votes samples) v c -> max_or_zero (map snd tally) = c.
Proof.
  intros (Ev & H2 & Hlt). pose proof (tally_le v c) as Hle. rewrite <- Ev in Hle at 1. specialize (Hle (tally_in v ltac:(lia))).
  destruct (tally_holds samples) as (_ & Hc & _). fold tally in Hc.
  destruct (max_or_zero_in (map snd tally)) as [E|E]; [lia|].
  apply list_elem_of_fmap in E as [[w n] [E Hi]]. cbn in E. destruct (Hc _ _ Hi) as [En _].
  destruct (decide (w = v)) as [->|Hne]; [congruence|]. specialize (Hlt w Hne). lia.
Qed.

Lemma tally_winner_sound : tally_winner tally = Some (v, c) -> wins (votes samples) v c.
Proof.
  destruct (tally_holds samples) as (Hnd & Hc & _). fold tally in Hnd, Hc. unfold tally_winner. cbn zeta.
  set (best := max_or_zero _). destruct ((2 <=? best) && negb _) eqn:E; [|discriminate]. bprop. rename H0 into Hone.
  apply Nat.ltb_ge in Hone. intros Hf. apply find_some in Hf as [Hf Hb]. apply list_elem_of_In in Hf. cbn in Hb. bprop.
  subst c. destruct (Hc _ _ Hf) as [E _]. split; [now symmetry|]. split; [assumption|]. intros w Hw.
  destruct (Z_lt_le_dec (votes samples w) best) as [?|Hge]; [assumption|].
  pose proof (tally_in w ltac:(lia)) as Hiw. pose proof (tally_le _ _ Hiw).
  exfalso. apply Hw.
  pose proof (filter_le_one _ tally (v, best) (w, votes samples w) Hone Hf Hiw) as Heq. cbn in Heq.
  rewrite !Z.eqb_eq in Heq. specialize (Heq eq_refl ltac:(fold best; lia)). congruence.
Qed.

Lemma tally_winner_complete : wins (votes samples) v c -> tally_winner tally = Some (v, c).
Proof.
  intros Hw. pose proof (winner_is_best Hw) as Eb. destruct Hw as (Ev & H2 & Hlt).
  destruct (tally_holds samples) as (Hnd & Hc & _). fold tally in Hnd, Hc.
  assert ((v, c) ∈ tally) as Hiv by (rewrite <- Ev; apply tally_in; lia).
  assert (List.filter (fun e => snd e =? c) tally = [(v, c)]) as Ef.
  { apply filter_singleton; [now apply NoDup_fmap_1 in Hnd|assumption|apply Z.eqb_refl|].
    intros [w n] Hi E. apply Z.eqb_eq in E. cbn in E. subst n. destruct (Hc _ _ Hi) as [En _].
    destruct (decide (w = v)) as [->|Hne]; [reflexivity|]. specialize (Hlt w Hne). lia. }
  unfold tally_winner. cbn zeta. rewrite Eb, Ef. cbn [List.length]. replace (2 <=? c) with true by (symmetry; now apply Z.leb_le).
  cbn. destruct (List.find _ tally) as [e|] eqn:Efind.
  - apply find_some in Efind. assert (In e [(v, c)]) as [<-|[]] by (rewrite <- Ef; now apply filter_In). reflexivity.
  - exfalso. apply list_elem_of_In in Hiv. pose proof (find_none _ _ Efind _ Hiv) as Hx. cbn in Hx.
    rewrite Z.eqb_refl in Hx. discriminate.
Qed.
End Winner.

Lemma votes_sample samples v : 0 < votes samples v -> Some v ∈ samples.
Proof.
  induction samples as [|s samples IH] using rev_ind; [discriminate|]. rewrite votes_app, elem_of_app, list_elem_of_singleton.
  case_bool_decide; [now right|]. auto.
Qed.

End Tally.

(** ** The two tallies agree *)

Section Agree.
Implicit Types (ps : list (Z * Z)) (v w c d : Z).

(** What the loop of [best_unique_byte] knows of the counts it has seen. *)
Definition best_holds (ps : list (Z * Z)) (s : option (Z * Z) * bool) : Prop :=
  match s with
  | (None, _) => forall v c, (v, c) ∈ ps -> c = 0
  | (Some (v, c), tied) =>
      (v, c) ∈ ps /\ 0 < c /\ (forall w d, (w, d) ∈ ps -> d <= c) /\ (tied = true <-> exists w, w <> v /\ (w, c) ∈ ps)
  end.

Lemma best_loop ps :
  NoDup (map fst ps) -> (forall v c, (v, c) ∈ ps -> 0 <= c) -> best_holds ps (fold_left best_step ps (None, false)).
Proof.
  induction ps as [|[v c] ps IH] using rev_ind; intros Hnd Hpos; [intros v c Hin; inversion Hin|].
  rewrite fold_left_app. rewrite map_app in Hnd. apply list.NoDup_app in Hnd as (Hnd & Hdis & _).
  assert (forall w d, (w, d) ∈ ps -> w <> v) as Hne.
  { intros w d Hin ->. apply (Hdis v); [|left]. apply list_elem_of_fmap. now exists (v, d). }
  assert (0 <= c) as Hc by (apply (Hpos v); rewrite elem_of_app, list_elem_of_singleton; auto).
  assert (best_holds ps (fold_left best_step ps (None, false))) as Hb.
  { apply IH; [assumption|]. intros w d Hin. apply (Hpos w). rewrite elem_of_app. auto. }
  destruct (fold_left best_step ps (None, false)) as [[[bv bc]|] tied]; cbn [fold_left best_step best_holds] in *.
  - destruct Hb as (Hin & H0 & Hle & Ht). destruct (Z.eqb_spec c 0) as [->|Hc0].
    + cbn. setoid_rewrite elem_of_app. setoid_rewrite list_elem_of_singleton. split; [auto|]. split; [assumption|].
      split; [intros w d [?|[= -> ->]]; [eauto|lia]|]. rewrite Ht. split; [intros (w & ? & ?); eauto|].
      intros (w & Hw & [?|[= -> E]]); [eauto|lia].
    + destruct (Z.ltb_spec bc c) as [Hlt|Hge]; [|destruct (Z.eqb_spec c bc) as [->|Hne']]; cbn;
        setoid_rewrite elem_of_app; setoid_rewrite list_elem_of_singleton.
      * split; [auto|]. split; [lia|]. split; [intros w d [Hx|[= -> ->]]; [specialize (Hle _ _ Hx)|]; lia|].
        split; [discriminate|]. intros (w & Hw & [Hx|[= ->]]); [specialize (Hle _ _ Hx); lia|congruence].
      * split; [auto|]. split; [lia|]. split; [intros w d [Hx|[= -> ->]]; [eauto|lia]|].
        split; [|reflexivity]. intros _. exists v. split; [intros ->; now apply (Hne bv bc)|auto].
      * split; [auto|]. split; [lia|]. split; [intros w d [Hx|[= -> ->]]; [eauto|lia]|]. rewrite Ht.
        split; [intros (w & ? & ?); eauto|]. intros (w & Hw & [?|[= -> ->]]); [eauto|congruence].
  - destruct (Z.eqb_spec c 0) as [->|Hc0]; cbn; setoid_rewrite elem_of_app; setoid_rewrite list_elem_of_singleton.
    + intros w d [?|[= -> ->]]; eauto.
    + split; [auto|]. split; [lia|]. split; [intros w d [Hx|[= -> ->]]; [rewrite (Hb _ _ Hx)|]; lia|].
      split; [discriminate|]. intros (w & Hw & [Hx|[= ->]]); [|congruence]. rewrite (Hb _ _ Hx) in Hc0. congruence.
Qed.

Lemma elem_of_enumerate counts v c : (v, c) ∈ enumerate counts <-> 0 <= v /\ aget counts v = Some c.
Proof.
  unfold enumerate, aget. rewrite list_elem_of_lookup. split.
  - intros [i Hi]. apply lookup_zip_with_Some in Hi as (x & y & [= -> ->] & Hx & Hy). apply lookup_seqZ in Hx as [-> Hx].
    split; [lia|]. now replace (Z.to_nat (0 + Z.of_nat i)) with i by lia.
  - intros [Hv Hc]. exists (Z.to_nat v). apply lookup_zip_with_Some. exists v, c. split; [reflexivity|]. split; [|assumption].
    apply lookup_seqZ. apply lookup_lt_Some in Hc. lia.
Qed.

Lemma enumerate_keys counts : NoDup (map fst (enumerate counts)).
Proof.
  unfold enumerate. assert (map fst (zip (seqZ 0 (Z.of_nat (length counts))) counts) = seqZ 0 (Z.of_nat (length counts))) as ->.
  { apply (fst_zip (seqZ 0 _) counts). rewrite length_seqZ. lia. }
  apply NoDup_seqZ.
Qed.

Definition bytes (samples : list (option Z)) : Prop := forall v, Some v ∈ samples -> 0 <= v < 256.

Lemma counts_votes samples :
  bytes samples -> let counts := fst (fold_left count_byte samples (no_counts, 0)) in
  length counts = 256%nat /\ forall v, 0 <= v < 256 -> aget counts v = Some (votes samples v).
Proof.
  induction samples as [|s samples IH] using rev_ind; intros Hb; cbn zeta.
  - split; [reflexivity|]. intros v Hv. unfold aget. apply lookup_replicate_2. lia.
  - rewrite fold_left_app.
    assert (bytes samples) as Hb' by (intros v Hv; apply Hb; rewrite elem_of_app; auto). specialize (IH Hb'). cbn zeta in IH.
    destruct (fold_left count_byte samples (no_counts, 0)) as [counts none]. destruct IH as [Hl IH].
    destruct s as [s|]; cbn [fold_left count_byte fst snd].
    + assert (0 <= s < 256) as Hs by (apply Hb; rewrite elem_of_app, list_elem_of_singleton; auto).
      unfold bump_count. rewrite IH by assumption. split; [now rewrite length_aset|]. intros v Hv. rewrite votes_app.
      case_bool_decide as E.
      * injection E as ->. apply aget_aset_eq. cbn in Hl |- *. rewrite Hl. lia.
      * rewrite aget_aset_ne by (try lia; congruence). auto.
    + split; [assumption|]. intros v Hv. rewrite votes_app, bool_decide_eq_false_2 by discriminate. auto.
Qed.

Lemma best_unique_wins samples v c :
  bytes samples -> best_unique_byte (fst (fold_left count_byte samples (no_counts, 0))) = Some (v, c) <->
  wins (votes samples) v c.
Proof.
  intros Hb. destruct (counts_votes samples Hb) as [Hl Hc]. set (counts := fst _) in *. clearbody counts.
  assert (forall w d, (w, d) ∈ enumerate counts <-> 0 <= w < 256 /\ d = votes samples w) as He.
  { intros w d. rewrite elem_of_enumerate. split.
    - intros [Hw Hg]. assert (0 <= w < 256) as Hr by (apply lookup_lt_Some in Hg; lia). rewrite (Hc _ Hr) in Hg. split; congruence.
    - intros [Hw ->]. split; [lia|]. now apply Hc. }
  pose proof (best_loop (enumerate counts) (enumerate_keys counts)) as Hbest.
  specialize (Hbest ltac:(intros w d Hw; apply He in Hw as [_ ->]; apply votes_nonneg)).
  assert (forall w, 0 < votes samples w -> 0 <= w < 256) as Hr by (intros w Hw; now apply Hb, votes_sample).
  unfold best_unique_byte. destruct (fold_left best_step (enumerate counts) (None, false)) as [[[bv bc]|] tied]; cbn in Hbest.
  - destruct Hbest as (Hin & H0 & Hle & Ht). apply He in Hin as [Hbv ->]. split.
    + destruct ((2 <=? _) && negb tied) eqn:E; [|discriminate]. bprop. intros [= <- <-]. split; [reflexivity|]. split; [assumption|].
      intros w Hw. destruct (Z_lt_le_dec (votes samples w) (votes samples bv)) as [?|Hge]; [assumption|].
      assert ((w, votes samples w) ∈ enumerate counts) as Hiw by (apply He; split; [apply Hr; lia|reflexivity]).
      pose proof (Hle _ _ Hiw). assert (tied = true) as Hx; [|congruence]. apply Ht. exists w. split; [assumption|].
      replace (votes samples bv) with (votes samples w) by lia. assumption.
    + intros (Ev & H2 & Hlt). assert ((v, c) ∈ enumerate counts) as Hiv by (apply He; split; [apply Hr; lia|now symmetry]).
      pose proof (Hle _ _ Hiv). destruct (decide (bv = v)) as [->|Hne].
      * assert (tied = false) as ->.
        { destruct tied; [|reflexivity]. destruct (proj1 Ht eq_refl) as (w & Hw & Hiw). apply He in Hiw as [_ E].
          specialize (Hlt w Hw). lia. }
        replace (2 <=? _) with true by (symmetry; apply Z.leb_le; lia). cbn. congruence.
      * specialize (Hlt bv Hne). lia.
  - split; [discriminate|]. intros (Ev & H2 & _). assert ((v, c) ∈ enumerate counts) as Hiv by (apply He; split; [apply Hr; lia|now symmetry]).
    rewrite (Hbest _ _ Hiv) in H2. lia.
Qed.

Lemma max_counts samples :
  bytes samples -> max_or_zero (fst (fold_left count_byte samples (no_counts, 0))) =
                   max_or_zero (map snd (fst (fold_left count_value samples ([], 0)))).
Proof.
  intros Hb. destruct (counts_votes samples Hb) as [Hl Hc]. destruct (tally_holds samples) as (_ & Ht & _).
  set (counts := fst _) in *. set (tally := fst (fold_left count_value _ _)) in *. apply Z.le_antisymm.
  - destruct (max_or_zero_in counts) as [->|Hin]; [apply max_or_zero_nonneg|]. apply list_elem_of_lookup in Hin as [i Hi].
    pose proof (lookup_lt_Some _ _ _ Hi) as Hlt. specialize (Hc (Z.of_nat i) ltac:(lia)). unfold aget in Hc.
    rewrite Nat2Z.id, Hi in Hc. injection Hc as ->. destruct (Z_le_gt_dec (votes samples (Z.of_nat i)) 0) as [?|Hp].
    + pose proof (max_or_zero_nonneg (map snd tally)). lia.
    + apply (tally_le samples (Z.of_nat i)). apply tally_in. lia.
  - destruct (max_or_zero_in (map snd tally)) as [->|Hin]; [apply max_or_zero_nonneg|].
    apply list_elem_of_fmap in Hin as [[w d] [E Hi]]. cbn in E. rewrite E. destruct (Ht _ _ Hi) as [-> Hp].
    apply max_or_zero_ge. apply list_elem_of_lookup. exists (Z.to_nat w). apply (Hc w). apply Hb, votes_sample. lia.
Qed.

Lemma none_counts samples :
  snd (fold_left count_byte samples (no_counts, 0)) = snd (fold_left (@count_value Z _) samples ([], 0)).
Proof.
  induction samples as [|s samples IH] using rev_ind; [reflexivity|]. rewrite !fold_left_app.
  destruct s; cbn [fold_left count_byte count_value snd]; congruence.
Qed.

(** C39: The tally of bytes and the tally of any value give the same verdict on every
    list of byte samples, however long (counts stop at 255). *)
Theorem tallies_agree samples :
  (forall v, Some v ∈ samples -> 0 <= v < 256) -> majority_optional samples = majority_optional_byte samples.
Proof.
  intros Hb. unfold majority_optional, majority_optional_byte.
  pose proof (none_counts samples) as En. pose proof (max_counts samples Hb) as Em.
  assert (tally_winner (fst (fold_left (@count_value Z _) samples ([], 0))) =
          best_unique_byte (fst (fold_left count_byte samples (no_counts, 0)))) as Ew.
  { destruct (best_unique_byte _) as [[v c]|] eqn:E.
    - apply tally_winner_complete. now apply best_unique_wins.
    - destruct (tally_winner _) as [[v c]|] eqn:Et; [|reflexivity]. exfalso. apply tally_winner_sound in Et.
      apply (best_unique_wins samples v c Hb) in Et. congruence. }
  destruct (fold_left count_byte samples (no_counts, 0)) as [counts nb].
  destruct (fold_left count_value samples ([], 0)) as [tally nt]. cbn [fst snd] in *. subst nb. now rewrite Em, Ew.
Qed.

Lemma tallies_agree_witness :
  majority_optional [Some 17; None; Some 17] = majority_optional_byte [Some 17; None; Some 17].
Proof.
  apply (tallies_agree [Some 17; None; Some 17]). intros v Hv. repeat (apply elem_of_cons in Hv as [Hv|Hv]; [inversion Hv; lia|]).
  inversion Hv.
Defined.
End Agree.

End Majority.
