(* ===== verification/Executor.v ===== *)
(** * What the executors share

    Models [crates/dali2rust-dali-runtime/src/runtime/executor/helpers.rs] (the
    semantic errors, the typed sends, confirmation of contended reads, the
    breaker that declares a silent device absent) and
    [crates/dali2rust-dali-runtime/src/runtime/config.rs].  The [log] calls are
    left out. *)

From Stdlib Require Import String.
From S2P Require Import Prelude RulesBase Effects Gear GearCommand GearState Transport Controller Majority.

Module Executor.
Import Gear GearCommand GearState Transport Controller Majority.

(** ** Configuration ([config.rs]) *)

Definition DEFAULT_DISCOVERY_STEP_RETRIES : Z := 2.
Definition DEFAULT_TARGET_STATE_SEQUENCE_RETRIES : Z := 1.
Definition DEFAULT_CONTENT_CONFIRM_MAX_SAMPLES : Z := 5.
Definition CONTENT_CONFIRM_MIN_SAMPLES : Z := 2.

Record ContentConfirmPolicy := MkConfirm { cf_enabled : bool; cf_max_samples : Z }.

Definition effective_max_samples (p : ContentConfirmPolicy) : Z :=
  if cf_max_samples p <? CONTENT_CONFIRM_MIN_SAMPLES then CONTENT_CONFIRM_MIN_SAMPLES else cf_max_samples p.

Definition confirm_default : ContentConfirmPolicy := MkConfirm true DEFAULT_CONTENT_CONFIRM_MAX_SAMPLES.

Record DaliRuntimeConfig := MkRuntimeConfig {
  rc_retry : RetryPolicy; rc_discovery_step_retries : Z; rc_content_confirm : ContentConfirmPolicy;
  rc_target_state_sequence_retries : Z }.

Definition runtime_config_new (retry : RetryPolicy) (discovery_step_retries : Z) (confirm : ContentConfirmPolicy) :
    DaliRuntimeConfig :=
  MkRuntimeConfig retry discovery_step_retries confirm DEFAULT_TARGET_STATE_SEQUENCE_RETRIES.

(** ** Errors *)

Inductive ErrorCode :=
  | InvalidJson | UnknownField | InvalidEnum | InvalidValue | InvalidResourceId | NotFound | CodeConflict
  | UnsupportedCapability | UnsupportedField | CommandsIngressOverload | ConfirmationTimeout | CodeOperationFailed
  | Superseded | VlUnbound | RegistryReset | ExecutionFailed | VerifyFailed | InvalidChannel | WsClientsExhausted
  | WsOriginRejected | DeviceAbsent | CodePreempted | VerifyUnanswered | VerifyContended | ReadContended
  | PolicyException | UnknownDevice.

Inductive SemanticDaliError := Conflict (msg : string) | OperationFailed (msg : string).

#[global] Instance SemanticDaliError_eq_dec : EqDecision SemanticDaliError.
Proof. solve_decision. Defined.

Open Scope string_scope.
Definition DEVICE_ABSENT_MESSAGE : string := "device_absent".
Definition VL_UNBOUND_MESSAGE : string := "vl_unbound".
Definition PREEMPTED_MESSAGE : string := "preempted".
Definition VERIFY_FAILED_MESSAGE : string := "verify_failed".
Definition VERIFY_UNANSWERED_MESSAGE : string := "verify_unanswered".
Definition VERIFY_CONTENDED_MESSAGE : string := "verify_contended".
Definition READ_CONTENDED_MESSAGE : string := "read_contended".
Definition BUS_CONTENDED : string := "bus_contended".

(** [matches!(self, Self::OperationFailed(msg))] *)
Definition failed_with (e : SemanticDaliError) (msg : string) : bool := bool_decide (e = OperationFailed msg).

Definition is_bus_contended (e : SemanticDaliError) : bool := failed_with e BUS_CONTENDED.
Definition is_preempted (e : SemanticDaliError) : bool := failed_with e PREEMPTED_MESSAGE.
Definition is_device_absent (e : SemanticDaliError) : bool := failed_with e DEVICE_ABSENT_MESSAGE.
Definition is_held (e : SemanticDaliError) : bool :=
  existsb (fun cause => bool_decide (e = Conflict (hold_message cause))) [Passive; Quiescent].
Definition held_as_preempted (e : SemanticDaliError) : SemanticDaliError :=
  if is_held e then OperationFailed PREEMPTED_MESSAGE else e.
Definition message (e : SemanticDaliError) : string := match e with Conflict m | OperationFailed m => m end.

Definition error_code (e : SemanticDaliError) : ErrorCode :=
  match e with
  | Conflict m => if bool_decide (m = VL_UNBOUND_MESSAGE) then VlUnbound else CodeConflict
  | OperationFailed m =>
      if is_device_absent e then DeviceAbsent
      else if is_preempted e then CodePreempted
      else if bool_decide (m = VERIFY_FAILED_MESSAGE) then VerifyFailed
      else if bool_decide (m = VERIFY_UNANSWERED_MESSAGE) then VerifyUnanswered
      else if bool_decide (m = VERIFY_CONTENDED_MESSAGE) then VerifyContended
      else if bool_decide (m = READ_CONTENDED_MESSAGE) then ReadContended
      else CodeOperationFailed
  end.

(** [str::contains] *)
Definition contains (s pattern : string) : bool := match String.index 0 pattern s with Some _ => true | None => false end.

(** [format!("{cause:?}")] *)
Definition hold_cause_debug (c : HoldCause) : string := match c with Passive => "Passive" | Quiescent => "Quiescent" end.

Definition held_cause_in (rendered : string) : option HoldCause :=
  List.find (fun cause => contains rendered ("Held(" ++ hold_cause_debug cause ++ ")")) [Passive; Quiescent].

(** The error is seen through its [Debug] rendering only. *)
Definition map_transport_error (rendered : string) : SemanticDaliError :=
  match held_cause_in rendered with
  | Some cause => Conflict (hold_message cause)
  | None =>
      if contains rendered "Preempted" then OperationFailed PREEMPTED_MESSAGE
      else if contains rendered "Collision" || contains rendered "BusBusy" then OperationFailed BUS_CONTENDED
      else OperationFailed "dali_transport_error"
  end.
Close Scope string_scope.

Definition RANDOMISE_SETTLE_MS : Z := 100.
Definition PROGRAM_VERIFY_REPAIRS : nat := 2.
Definition DT8_DEVICE_TYPE : Z := 8.
Definition DT8_QUERY_COLOUR_STATUS : Z := 248.
Definition DT8_QUERY_COLOUR_TYPE_FEATURES : Z := 249.
Definition DT8_QUERY_COLOUR_VALUE : Z := 250.

Definition SemanticResult (A : Type) : Type := Result A SemanticDaliError.

(** ** Values *)

Definition dali_short_address (short_address : Z) : SemanticResult DaliAddress :=
  ok_or (short short_address) (Conflict "invalid_short_address").
Definition group_address (group_id : Z) : SemanticResult DaliAddress :=
  ok_or (group group_id) (Conflict "invalid_group_id").

Definition FADE_TIME_MS : list Z :=
  [0; 700; 1000; 1400; 2000; 2800; 4000; 5700; 8000; 11300; 16000; 22600; 32000; 45300; 64000; 90500].

(** One turn of the loop: the best step and its difference. *)
Definition fade_step (fade_time_ms : Z) (best : Z * Z) (step : Z) : Z * Z :=
  let diff := Z.abs (fade_time_ms - default 0 (aget FADE_TIME_MS step)) in
  if diff <? snd best then (step, diff) else best.
Definition fade_time_dtr0_from_ms (fade_time_ms : Z) : Z :=
  if fade_time_ms =? 0 then 0 else fst (fold_left (fade_step fade_time_ms) (seqZ 1 15) (1, umax 32)).
Definition fade_time_ms_from_dtr0 (code : Z) : Z := default 90500 (aget FADE_TIME_MS code).

#[global] Instance DaliResponse_eq_dec : EqDecision DaliResponse.
Proof. solve_decision. Defined.

(** ** Sends *)

Section Sends.
Context {C : Type} `{DaliApplicationController C}.
Notation act A := (eff C (SemanticResult A)).

(** [.map_err(|error| map_transport_error(&error))] *)
Definition semantic {A} (m : eff C (Result A ctl_error)) : act A :=
  map_err (fun e => map_transport_error (ctl_debug e)) m.

(** A unit whose closure captures nothing. *)
Definition unit_run {A} (run : eff C A) : eff C A :=
  let* r := unit_of (fun _ : unit => let* a := run in ret (a, tt)) tt in ret (fst r).

Definition send_standard (address : DaliAddress) (command : StandardCommand) : act DaliResponse :=
  semantic (send_command (Standard address command)).

(** A response as a read: its value, and whether it was disturbed. *)
Definition observed (r : DaliResponse * bool) : option Z * bool :=
  (response_value (fst r), snd r || bool_decide (fst r = Violation)).

Definition send_standard_query_observed (address : DaliAddress) (command : StandardCommand) : act (option Z * bool) :=
  let! r := semantic (send_command_observed (Standard address command)) in ret (Ok (observed r)).

Definition send_standard_response (address : DaliAddress) (command : StandardCommand) : act DaliResponse :=
  send_standard address command.

Definition send_standard_query (address : DaliAddress) (command : StandardCommand) : act (option Z) :=
  let! r := send_standard address command in ret (Ok (response_value r)).

Definition send_standard_query_once (address : DaliAddress) (command : StandardCommand) : act (option Z) :=
  let! r := semantic (send_raw_once (command_frame (Standard address command)) true) in ret (Ok (response_value (fst r))).

Definition send_extended_command (address : DaliAddress) (command : ExtendedCommand) : act DaliResponse :=
  semantic (send_command (Extended address command)).

Definition send_extended_query_observed (address : DaliAddress) (command : ExtendedCommand) : act (option Z * bool) :=
  let! r := semantic (send_command_observed (Extended address command)) in ret (Ok (observed r)).

Definition send_extended_query (address : DaliAddress) (command : ExtendedCommand) : act (option Z) :=
  let! r := send_extended_command address command in ret (Ok (response_value r)).

Definition send_special_response (command : SpecialCommand) : act DaliResponse := semantic (send_command (Special command)).

Definition send_special (command : SpecialCommand) : act unit :=
  let! _ := semantic (send_command (Special command)) in ret (Ok tt).

Definition send_special_query (command : SpecialCommand) : act (option Z) :=
  let! r := send_special_response command in ret (Ok (response_value r)).

Definition send_dtr0_backed_standard (address : DaliAddress) (dtr0 : Z) (command : StandardCommand) : act unit :=
  unit_run (let! _ := send_special (Dtr0 dtr0) in let! _ := send_standard address command in ret (Ok tt)).

(** [ForwardFrame::new(address.encode_address_byte() | 0x01, opcode)] *)
Definition raw_frame (address : DaliAddress) (opcode : Z) : Z :=
  frame_new (Z.lor (encode_address_byte address) 0x01) opcode.

Definition send_dt8_raw (address : DaliAddress) (opcode : Z) : act unit :=
  if dt8_opcode_requires_repeat opcode then
    match dt8_from_opcode opcode with
    | None => ret (Err (Conflict "dt8_configuration_unmodelled"))
    | Some command => let! _ := send_extended_command address (Dt8 command) in ret (Ok tt)
    end
  else
    unit_run (let! _ := send_special (EnableDeviceType DT8_DEVICE_TYPE) in
              let! _ := semantic (send_raw (raw_frame address opcode) false) in
              ret (Ok tt)).

Inductive ArmedCommand := Sent | Unproved (echo : DaliResponse).

Definition send_dtr0_backed_extended (address : DaliAddress) (dtr0 : Z) (command : ExtendedCommand) :
    act ArmedCommand :=
  unit_run (let! _ := send_special (Dtr0 dtr0) in
            let! echo := send_standard_response address QueryContentDtr0 in
            if negb (bool_decide (echo = RespAnswer dtr0)) then ret (Ok (Unproved echo))
            else let! _ := send_extended_command address command in ret (Ok Sent)).

Definition send_dt8_raw_query_observed (address : DaliAddress) (opcode : Z) : act (option Z * bool) :=
  let! r := semantic (send_raw_enabled_query (command_frame (Special (EnableDeviceType DT8_DEVICE_TYPE)))
                        (raw_frame address opcode)) in
  ret (Ok (response_value (fst r), snd r)).

Definition send_dt8_raw_query (address : DaliAddress) (opcode : Z) : act (option Z) :=
  let! r := send_dt8_raw_query_observed address opcode in ret (Ok (fst r)).

Definition send_raw_query_observed (address : DaliAddress) (opcode : Z) : act (option Z * bool) :=
  let! r := semantic (send_raw_observed (raw_frame address opcode) true) in ret (Ok (response_value (fst r), snd r)).

Definition send_raw_query (address : DaliAddress) (opcode : Z) : act (option Z) :=
  let! r := semantic (send_raw (raw_frame address opcode) true) in ret (Ok (response_value r)).

Definition send_raw_query_once_response (address : DaliAddress) (opcode : Z) : act (DaliResponse * bool) :=
  semantic (send_raw_once (raw_frame address opcode) true).

Definition send_raw_query_once_observed (address : DaliAddress) (opcode : Z) : act (option Z * bool) :=
  let! r := send_raw_query_once_response address opcode in ret (Ok (response_value (fst r), snd r)).

(** ** Programming with repair *)

Definition unanswered_unless_held {V} (read : SemanticResult (option V)) : SemanticResult (option V) :=
  match read with
  | Err error => if is_held error then Err error else Ok None
  | Ok v => Ok v
  end.

(** The loop over [0..PROGRAM_VERIFY_REPAIRS]. *)
Fixpoint repair_loop {V} (drive : act (option V)) (converged : option V -> bool) (turns : nat)
    (latest readback : option V) : act (option V) :=
  match turns with
  | O => ret (Ok readback)
  | S turns =>
      if converged readback then ret (Ok readback)
      else
        let* _ := match latest with Some _ => modify (note_workaround ProgramRepair) | None => ret tt end in
        let! latest := (let* read := drive in ret (unanswered_unless_held read)) in
        repair_loop drive converged turns latest (match latest with Some _ => latest | None => readback end)
  end.
Definition program_with_verify_repair {V} (drive : act (option V)) (converged : option V -> bool) : act (option V) :=
  let! latest := drive in repair_loop drive converged PROGRAM_VERIFY_REPAIRS latest latest.

End Sends.

(** ** Confirmation of contended reads *)

Section Confirm.
Context {S : Type}.
Notation act A := (eff S (SemanticResult A)).

(** The loop over [1..max]: the samples so far and the reads left. *)
Fixpoint confirm_loop {T} `{EqDecision T} (read_once : act (option T * bool)) (turns : nat) (samples : list (option T)) :
    act (option T) :=
  match turns with
  | O => ret (Ok None)
  | Datatypes.S turns =>
      let! r := read_once in
      let samples := samples ++ [fst r] in
      match majority_optional samples with
      | Some confirmed => ret (Ok confirmed)
      | None => confirm_loop read_once turns samples
      end
  end.

(** [S] is the controller with whatever the closure captures. *)
Definition confirm_observed_query {T} `{EqDecision T} (policy : ContentConfirmPolicy)
    (read_once : act (option T * bool)) : act (option T) :=
  let! r := read_once in
  if negb (cf_enabled policy) || negb (snd r) then ret (Ok (fst r))
  else confirm_loop read_once (Z.to_nat (effective_max_samples policy - 1)) [fst r].

End Confirm.

(** ** Stable queries *)

Section Stable.
Context {C : Type} `{DaliApplicationController C}.
Notation act A := (eff C (SemanticResult A)).

Definition send_standard_query_stable (policy : ContentConfirmPolicy) (address : DaliAddress) (command : StandardCommand) :
    act (option Z) := confirm_observed_query policy (send_standard_query_observed address command).
Definition send_extended_query_stable (policy : ContentConfirmPolicy) (address : DaliAddress) (command : ExtendedCommand) :
    act (option Z) := confirm_observed_query policy (send_extended_query_observed address command).
Definition send_dt8_raw_query_stable (policy : ContentConfirmPolicy) (address : DaliAddress) (opcode : Z) :
    act (option Z) := confirm_observed_query policy (send_dt8_raw_query_observed address opcode).

(** *** The breaker: [MandatorySilenceBreaker] is its count of silences *)

Definition MID_READ_SILENCE_BUDGET : Z := 3.

Definition observe (consecutive : Z) (heard : bool) : SemanticResult unit * Z :=
  if heard then (Ok tt, 0)
  else
    let consecutive := sat_add 8 consecutive 1 in
    (if MID_READ_SILENCE_BUDGET <=? consecutive then Err (OperationFailed DEVICE_ABSENT_MESSAGE) else Ok tt,
     consecutive).

(** The breaker is part of the state of the calls that share it. *)
Definition send_mandatory_query (address : DaliAddress) (command : StandardCommand) :
    eff (C * Z) (SemanticResult (option Z)) := fun s =>
  match send_standard_query_observed address command (fst s) with
  | (Err e, c) => (Err e, (c, snd s))
  | (Ok (v, contended), c) =>
      match observe (snd s) (is_some v || contended) with
      | (Ok _, breaker) => (Ok v, (c, breaker))
      | (Err e, breaker) => (Err e, (c, breaker))
      end
  end.

(** The closure that also notes whether any read saw a signal. *)
Definition read_noting_signal (address : DaliAddress) (command : StandardCommand) :
    eff (C * bool) (SemanticResult (option Z * bool)) := fun s =>
  match send_standard_query_observed address command (fst s) with
  | (Err e, c) => (Err e, (c, snd s))
  | (Ok r, c) => (Ok r, (c, snd s || (is_some (fst r) || snd r)))
  end.

Definition send_mandatory_query_stable (policy : ContentConfirmPolicy) (address : DaliAddress)
    (command : StandardCommand) : eff (C * Z) (SemanticResult (option Z)) := fun s =>
  match confirm_observed_query policy (read_noting_signal address command) (fst s, false) with
  | (Err e, (c, _)) => (Err e, (c, snd s))
  | (Ok v, (c, saw_signal)) =>
      match observe (snd s) (saw_signal || is_some v) with
      | (Ok _, breaker) => (Ok v, (c, breaker))
      | (Err e, breaker) => (Err e, (c, breaker))
      end
  end.

End Stable.

(** ** Properties *)

(** Every error of the controller reaches the client under its own name: a hold
    as a conflict that names its cause, a yield as [preempted], contention as
    [bus_contended], and anything else as a failure of the transport. *)
Theorem transport_errors_named :
  (forall cause, map_transport_error (frame_error_debug (Held cause)) = Conflict (hold_message cause) /\
                 is_held (map_transport_error (frame_error_debug (Held cause))) = true) /\
  map_transport_error (frame_error_debug Preempted) = OperationFailed PREEMPTED_MESSAGE /\
  (forall e, is_bus_contended (map_transport_error (frame_error_debug e)) = true <-> unit_retryable e = true) /\
  (forall e, is_held (map_transport_error (frame_error_debug e)) = true -> exists cause, e = Held cause).
Proof.
  split; [intros []; split; reflexivity|]. split; [reflexivity|].
  split; intros [| | | | | |[]]; try split; try discriminate; try reflexivity; eauto.
Qed.

(** A read that hears something starts the count again; the third silence in a
    row makes the device absent, and nothing else does. *)
Lemma breaker_trips n heard :
  0 <= n < MID_READ_SILENCE_BUDGET ->
  (fst (observe n heard) <> Ok tt <-> heard = false /\ n = 2) /\
  (fst (observe n heard) = Ok tt -> 0 <= snd (observe n heard) < MID_READ_SILENCE_BUDGET).
Proof.
  unfold MID_READ_SILENCE_BUDGET. intros Hn. assert (n = 0 \/ n = 1 \/ n = 2) as Hc by lia.
  destruct heard, Hc as [->|[->| ->]]; cbn; (split; [split|]); intros Hx;
    try congruence; try (now destruct Hx); repeat split; try lia; discriminate.
Qed.

Definition fade_diff (t s : Z) : Z := Z.abs (t - default 0 (aget FADE_TIME_MS s)).

Lemma fade_step_eq t b s : fade_step t b s = if fade_diff t s <? snd b then (s, fade_diff t s) else b.
Proof. reflexivity. Qed.

Lemma fade_diff_small t s : 0 < t < 2 ^ 32 -> s ∈ seqZ 1 15 -> fade_diff t s < umax 32.
Proof.
  intros Ht Hs.
  assert (forallb (fun s => (700 <=? default 0 (aget FADE_TIME_MS s)) && (default 0 (aget FADE_TIME_MS s) <=? 90500)) (seqZ 1 15) = true)
    as Hall by reflexivity.
  rewrite forallb_forall in Hall. specialize (Hall s (proj1 (list_elem_of_In _ _) Hs)). unfold fade_diff, umax. lia.
Qed.

Lemma fade_loop t l :
  0 < t < 2 ^ 32 -> (forall s, s ∈ l -> s ∈ seqZ 1 15) -> l <> [] ->
  let best := fold_left (fade_step t) l (1, umax 32) in
  fst best ∈ l /\ snd best = fade_diff t (fst best) /\ forall s, s ∈ l -> snd best <= fade_diff t s.
Proof.
  intros Ht. induction l as [|s l IH] using rev_ind; intros Hl Hne; [congruence|]. rewrite fold_left_app.
  assert (s ∈ seqZ 1 15) as Hs by (apply Hl; rewrite elem_of_app, list_elem_of_singleton; auto).
  cbn [fold_left]. rewrite fade_step_eq. setoid_rewrite elem_of_app.
  setoid_rewrite list_elem_of_singleton. destruct (decide (l = [])) as [->|Hn].
  - cbn [fold_left snd]. pose proof (fade_diff_small t s Ht Hs). replace (_ <? _) with true by (symmetry; now apply Z.ltb_lt).
    cbn [fst snd]. split; [auto|]. split; [reflexivity|]. intros s' [Hx| ->]; [inversion Hx|lia].
  - destruct IH as (H1 & H2 & H3); [intros s' Hs'; apply Hl; rewrite elem_of_app; auto|assumption|].
    destruct (fold_left (fade_step t) l (1, umax 32)) as [b d]. cbn [fst snd] in *.
    destruct (Z.ltb_spec (fade_diff t s) d) as [Hlt|Hge]; cbn [fst snd].
    + split; [auto|]. split; [reflexivity|]. intros s' [Hx| ->]; [specialize (H3 _ Hx)|]; lia.
    + split; [auto|]. split; [assumption|]. intros s' [Hx| ->]; auto.
Qed.

(** The fade time chosen for a positive time is one of the codes 1 to 15, and
    none of these is closer to what was asked for. *)
Lemma fade_time_closest t step :
  0 < t < 2 ^ 32 -> 1 <= step <= 15 ->
  let best := fade_time_dtr0_from_ms t in
  1 <= best <= 15 /\ Z.abs (t - fade_time_ms_from_dtr0 best) <= Z.abs (t - fade_time_ms_from_dtr0 step).
Proof.
  intros Ht Hs. cbn zeta. destruct (fade_loop t (seqZ 1 15) Ht) as (H1 & H2 & H3); [auto|discriminate|].
  unfold fade_time_dtr0_from_ms. rewrite (proj2 (Z.eqb_neq t 0)) by lia. set (best := fold_left _ _ _) in *.
  assert (forall s, s ∈ seqZ 1 15 -> fade_time_ms_from_dtr0 s = default 0 (aget FADE_TIME_MS s)) as Hd.
  { assert (Forall (fun s => fade_time_ms_from_dtr0 s = default 0 (aget FADE_TIME_MS s)) (seqZ 1 15)) as Hall
      by (vm_compute; repeat constructor). rewrite Forall_forall in Hall. intros s Hx. apply Hall. now apply list_elem_of_In. }
  assert (step ∈ seqZ 1 15) as Hstep by (apply elem_of_seqZ; lia). pose proof (H3 _ Hstep) as Hle.
  rewrite (Hd _ H1), (Hd _ Hstep). apply elem_of_seqZ in H1. unfold fade_diff in *. split; lia.
Qed.

(** ** Confirmed reads *)

Section ConfirmProofs.
Context {S : Type}.

(** The reads made, counted. *)
Definition counted {A} (m : eff S A) : eff (S * Z) A := fun s => let '(a, s') := m (fst s) in (a, (s', snd s + 1)).

Lemma confirm_loop_reads {T} `{EqDecision T} (read_once : eff S (SemanticResult (option T * bool))) turns :
  forall samples s n, n <= snd (snd (confirm_loop (counted read_once) turns samples (s, n))) <= n + Z.of_nat turns.
Proof.
  induction turns as [|turns IH]; intros samples s n; cbn [confirm_loop]; [cbn; lia|]. unfold bind_ok, counted at 1 3. cbn [fst snd].
  destruct (read_once s) as [[r|e] s']; cbn [snd]; [|lia]. destruct (majority_optional _); unfold ret; cbn [snd]; [lia|].
  specialize (IH (samples ++ [fst r]) s' (n + 1)). lia.
Qed.

(** A confirmed query reads at least once and at most the samples of its policy. *)
Theorem confirm_observed_query_reads {T} `{EqDecision T} policy (read_once : eff S (SemanticResult (option T * bool))) s :
  1 <= snd (snd (confirm_observed_query policy (counted read_once) (s, 0))) <= effective_max_samples policy.
Proof.
  assert (2 <= effective_max_samples policy) as Hm.
  { unfold effective_max_samples, CONTENT_CONFIRM_MIN_SAMPLES. case_if; lia. }
  unfold confirm_observed_query, bind_ok, counted at 1 3. cbn [fst snd].
  destruct (read_once s) as [[[v b]|e] s'] eqn:E; cbn [fst snd]; [|lia].
  destruct (negb (cf_enabled policy) || negb b) eqn:Eb; [cbn; lia|].
  cbn [fst]. change (0 + 1) with 1.
  pose proof (confirm_loop_reads read_once (Z.to_nat (effective_max_samples policy - 1)) [v] s' 1) as Hr.
  lia.
Qed.

End ConfirmProofs.

End Executor.
