(* ===== verification/MemoryBank.v ===== *)
(** * Reading memory banks

    Models [crates/dali2rust-dali-runtime/src/runtime/executor/memory_bank.rs]:
    the pointer is armed and proved, the bank is read in chunks of whole latched
    values, and what cannot be read is resumed, taken for the end of the bank, or
    refused.  The bytes of a read are threaded through the calls that push them;
    on an error the source drops them.  The calls of [on_execution] are returned
    as the list of what it is called with. *)

From Stdlib Require Import String.
From S2P Require Import Prelude RulesBase Effects Gear GearCommand GearState Transport Banks Controller Majority.
From S2P Require Import Executor.

Module MemoryBank.
Import Gear GearCommand GearState Transport Banks Controller Majority Executor.

(** ** Constants and errors *)

Definition BANK0_EXTENDED_LAST_OFFSET : Z := 0x1C.
Definition BANK1_FORMAT_GATE_LAST_OFFSET : Z := 0x12.
Definition BANK0_IDENTITY_LAST_OFFSET : Z := BANK0_EXTENDED_LAST_OFFSET.
Definition BANK1_PROFILE_LAST_OFFSET : Z := BANK1_FORMAT_GATE_LAST_OFFSET.
Definition MEMORY_RESERVED_OFFSET : Z := 0x01.
Definition RESERVED_LOCATION_BANK : Z := 0.
Definition MEMORY_NO_ANSWER_PLACEHOLDER : Z := 0xFF.
Definition MEMORY_READ_LOCATION_RETRIES : Z := 2.
Definition BANK_ARM_RETRIES : Z := 2.
Definition MEMORY_READ_CHUNK : Z := 4.
Definition MEMORY_BANK_END_SILENCES : Z := 2.
Definition MEMORY_READ_IDLE_RETRIES : Z := 2.
Definition ALWAYS_ANSWERED_OFFSET : Z := 0x02.
Definition BANK_META_LEN : Z := 3.

Open Scope string_scope.
Definition MEMORY_MISALIGNED : string := "memory_bank_read_misaligned".
Definition MEMORY_POINTER_UNCONFIRMED : string := "memory_bank_pointer_unconfirmed".
Definition MEMORY_LATCH_LOST : string := "memory_bank_latch_lost".
Definition MEMORY_LOCATION_UNANSWERED : string := "memory_bank_location_unanswered".
Close Scope string_scope.

Inductive MemoryBankReadPreset :=
  | MrNone | MrIdentity | MrProfile | MrAll | MrPower | MrEnergy | MrDiagnostics | MrLuminaireData.

Record MemoryReadExecution := MkExecution {
  me_bytes : list Z; me_indicator_unread : bool; me_error : option SemanticDaliError }.
Definition execution_failed (error : SemanticDaliError) : MemoryReadExecution := MkExecution [] false (Some error).

Inductive ReadStop := Planned | BankEnded.

Record PlannedMemoryBankRead := MkPlanned { pl_bank : Z; pl_start : Z; pl_length : Z }.

(** ** What proves the pointer *)

Inductive PointerProof := PpHeld | PpMoved (one_behind : bool) | PpUnanswered | PpContended.
#[global] Instance PointerProof_eq_dec : EqDecision PointerProof.
Proof. solve_decision. Defined.

Definition is_answer (r : DaliResponse) : bool := match r with RespAnswer _ => true | _ => false end.

Definition proof_of (bank expected : Z) (ended : bool) (armed_bank armed_offset : DaliResponse) : PointerProof :=
  let bank_held := bool_decide (armed_bank = RespAnswer bank) in
  let offset_held := bool_decide (armed_offset = RespAnswer expected) ||
                     (ended && bool_decide (armed_offset = RespAnswer (sat_add 8 expected 1))) in
  let shown kind := bool_decide (armed_bank = kind) || bool_decide (armed_offset = kind) in
  if (is_answer armed_bank && negb bank_held) || (is_answer armed_offset && negb offset_held)
  then PpMoved (bank_held && bool_decide (armed_offset = RespAnswer (wrapping_sub 8 expected 1)))
  else if shown Violation then PpContended
  else if shown NoAnswer then PpUnanswered
  else PpHeld.

Definition proof_failure (p : PointerProof) : SemanticDaliError :=
  OperationFailed match p with
                  | PpMoved _ => MEMORY_MISALIGNED
                  | PpContended => BUS_CONTENDED
                  | PpHeld | PpUnanswered => MEMORY_POINTER_UNCONFIRMED
                  end.

(** ** What interrupts a read *)

Inductive ReadFailure := Silent | RfContended (responded : bool) | RfFailed (error : SemanticDaliError).

Record ResumeEvidence := MkEvidence {
  re_first_byte_answered : bool; re_responded : bool; re_contended : bool; re_transport : option SemanticDaliError;
  re_silences : Z; re_telling : Z; re_idle : Z }.
#[global] Instance eta_ResumeEvidence : Eta ResumeEvidence := fun e =>
  MkEvidence (re_first_byte_answered e) (re_responded e) (re_contended e) (re_transport e) (re_silences e)
    (re_telling e) (re_idle e).
Definition evidence_NONE : ResumeEvidence := MkEvidence false false false None 0 0 0.

Definition silence_may_end_bank (offset : Z) : bool := negb (offset =? ALWAYS_ANSWERED_OFFSET).

(** [u8] counters, [+=] without a check in a release build. *)
Definition evidence_note (e : ResumeEvidence) (resume at_ : Z) (failure : ReadFailure) : ResumeEvidence :=
  let answered := match failure with RfContended true => true | _ => false end in
  let silent := match failure with Silent => true | _ => false end in
  let e := e <| re_first_byte_answered := re_first_byte_answered e || (resume <? at_) |>
             <| re_responded := re_responded e || answered |>
             <| re_contended := re_contended e || match failure with RfContended _ => true | _ => false end |> in
  let e := match failure with RfFailed error => e <| re_transport := Some error |> | _ => e end in
  let e := if silent && silence_may_end_bank at_ then e <| re_silences := wrapping_add 8 (re_silences e) 1 |> else e in
  if (resume <? at_) || answered || silent then e <| re_telling := wrapping_add 8 (re_telling e) 1 |>
  else e <| re_idle := wrapping_add 8 (re_idle e) 1 |>.

Definition ends_bank (e : ResumeEvidence) : bool :=
  negb (re_first_byte_answered e) && negb (re_responded e) && (MEMORY_BANK_END_SILENCES <=? re_silences e).

Definition exhausted (e : ResumeEvidence) : bool :=
  (MEMORY_READ_LOCATION_RETRIES <? re_telling e) || (MEMORY_READ_IDLE_RETRIES <? re_idle e).

Definition gives_up (e : ResumeEvidence) : SemanticDaliError :=
  if re_contended e then OperationFailed BUS_CONTENDED
  else match re_transport e with
       | Some error => error
       | None => if re_first_byte_answered e then OperationFailed MEMORY_LATCH_LOST
                 else OperationFailed MEMORY_LOCATION_UNANSWERED
       end.

Inductive ChunkRead := Complete | Placeholder | Unproved (proof : PointerProof) | Interrupted (at_ : Z) (failure : ReadFailure).

(** [address], [bank] and [start] never change: they are arguments. *)
Record ChunkCursor := MkCursor {
  cu_done : Z; cu_freshly_armed : bool; cu_placeholder_pending : bool; cu_indicator_reread : bool;
  cu_indicator_unread : bool; cu_rearms : Z; cu_resume : option Z; cu_evidence : ResumeEvidence }.
#[global] Instance eta_ChunkCursor : Eta ChunkCursor := fun c =>
  MkCursor (cu_done c) (cu_freshly_armed c) (cu_placeholder_pending c) (cu_indicator_reread c) (cu_indicator_unread c)
    (cu_rearms c) (cu_resume c) (cu_evidence c).
Definition cursor_armed : ChunkCursor := MkCursor 0 true false false false 0 None evidence_NONE.

Definition latched_field_start (bank absolute_offset : Z) : option Z :=
  match field_containing bank absolute_offset with
  | Some f => then_some (fd_offset f <? absolute_offset) (fd_offset f)
  | None => None
  end.

(** The [debug_assert!] that a chunk starts at a field is left out. *)
Definition chunk_take (bank chunk_start remaining : Z) : Z := chunk_len bank chunk_start remaining MEMORY_READ_CHUNK.

Definition validate_memory_read_range (start length : Z) : SemanticResult unit :=
  if (umax 8 <? start) || (256 <? start + length) then Err (Conflict "memory_range_out_of_bounds"%string) else Ok tt.

(** [Vec::is_empty] *)
Definition is_nil {A} (l : list A) : bool := match l with [] => true | _ => false end.

(** ** The read *)

Section Read.
Context {C : Type} `{DaliApplicationController C}.
Notation act A := (eff C (SemanticResult A)).

Definition pointer_proof (address : DaliAddress) (bank expected : Z) (ended : bool) : act PointerProof :=
  let! armed_bank := send_standard_response address QueryContentDtr1 in
  let! armed_offset := send_standard_response address QueryContentDtr0 in
  ret (Ok (proof_of bank expected ended armed_bank armed_offset)).

(** The loop over [0..=BANK_ARM_RETRIES]. *)
Fixpoint arm_pointer_loop (address : DaliAddress) (bank offset : Z) (turns : nat) (proof : PointerProof) : act unit :=
  match turns with
  | O => ret (Err (proof_failure proof))
  | S turns =>
      let! proof := transaction (let! _ := send_special (Dtr1 bank) in
                                 let! _ := send_special (Dtr0 (wrap 8 offset)) in
                                 pointer_proof address bank (wrap 8 offset) false) in
      if bool_decide (proof = PpHeld) then ret (Ok tt) else arm_pointer_loop address bank offset turns proof
  end.
Definition arm_memory_pointer (address : DaliAddress) (bank offset : Z) : act unit :=
  arm_pointer_loop address bank offset (Z.to_nat (BANK_ARM_RETRIES + 1)) PpUnanswered.

Definition confirm_final_position (address : DaliAddress) (bank start read : Z) (stop : ReadStop) : act unit :=
  let counted := Z.min (sat_add 16 start read) (umax 8) in
  let ended := match stop with BankEnded => true | Planned => false end in
  let! proof := transaction (pointer_proof address bank counted ended) in
  match proof with PpHeld => ret (Ok tt) | other => ret (Err (proof_failure other)) end.

Definition read_location (address : DaliAddress) (offset : Z) : eff C (Result (option Z) ReadFailure) :=
  let* r := send_raw_query_once_response address READ_MEMORY_LOCATION_OPCODE in
  ret match r with
      | Ok (RespAnswer value, false) => Ok (Some value)
      | Ok (NoAnswer, false) => if offset =? MEMORY_RESERVED_OFFSET then Ok None else Err Silent
      | Ok (response, _) => Err (RfContended (negb (bool_decide (response = NoAnswer))))
      | Err error => if is_bus_contended error then Err (RfContended false) else Err (RfFailed error)
      end.

(** The loop over the offsets of a chunk, with the bytes pushed so far. *)
Fixpoint read_planned_locations (address : DaliAddress) (offsets : list Z) (bytes : list Z) : eff C (ChunkRead * list Z) :=
  match offsets with
  | [] => ret (Complete, bytes)
  | offset :: offsets =>
      let* r := read_location address offset in
      match r with
      | Ok (Some value) => read_planned_locations address offsets (bytes ++ [value])
      | Ok None => ret (Placeholder, bytes ++ [MEMORY_NO_ANSWER_PLACEHOLDER])
      | Err failure => ret (Interrupted offset failure, bytes)
      end
  end.

Definition read_proved_chunk (address : DaliAddress) (bank chunk_start take : Z) (bytes : list Z) : act (ChunkRead * list Z) :=
  let read :=
    let! proof := pointer_proof address bank (wrap 8 chunk_start) false in
    if negb (bool_decide (proof = PpHeld)) then ret (Ok (Unproved proof, bytes))
    else let* r := read_planned_locations address (seqZ chunk_start take) bytes in ret (Ok r) in
  if MEMORY_READ_CHUNK <? take then transaction_exempt read else transaction read.

Section Cursor.
Variables (address : DaliAddress) (bank start : Z).

Definition passes_location_0x01 (c : ChunkCursor) : bool :=
  (bank =? RESERVED_LOCATION_BANK) || cu_indicator_reread c || (BANK_ARM_RETRIES <=? cu_rearms c).

Definition cut_to (c : ChunkCursor) (bytes : list Z) (resume : Z) : ChunkCursor * list Z :=
  (c <| cu_indicator_unread := cu_indicator_unread c && (MEMORY_RESERVED_OFFSET <? resume) |>,
   take (Z.to_nat (resume - start)) bytes).

Definition arm_at (c : ChunkCursor) (resume : Z) (bytes : list Z) : act (ChunkCursor * list Z) :=
  let '(c, bytes) := cut_to c bytes resume in
  let c := c <| cu_done := resume - start |> <| cu_placeholder_pending := false |> <| cu_freshly_armed := true |> in
  let! _ := arm_memory_pointer address bank resume in
  ret (Ok (c, bytes)).

Definition rearm_unproved (c : ChunkCursor) (chunk_start : Z) (proof : PointerProof) (bytes : list Z) :
    act (ChunkCursor * list Z) :=
  let lost_placeholder_read := cu_placeholder_pending c && bool_decide (proof = PpMoved true) in
  if lost_placeholder_read && passes_location_0x01 c then arm_at c (MEMORY_RESERVED_OFFSET + 1) bytes
  else match (if lost_placeholder_read then Some MEMORY_RESERVED_OFFSET
              else then_some (cu_freshly_armed c) chunk_start) with
       | None => ret (Err (proof_failure proof))
       | Some resume =>
           if BANK_ARM_RETRIES <=? cu_rearms c then ret (Err (proof_failure proof))
           else arm_at (c <| cu_rearms := cu_rearms c + 1 |>
                          <| cu_indicator_reread := cu_indicator_reread c || lost_placeholder_read |>) resume bytes
       end.

Definition spend_retry (c : ChunkCursor) (resume at_ : Z) (failure : ReadFailure) :
    SemanticResult (option ReadStop) * ChunkCursor :=
  let c := if bool_decide (cu_resume c <> Some resume)
           then c <| cu_resume := Some resume |> <| cu_evidence := evidence_NONE |> else c in
  let c := c <| cu_evidence := evidence_note (cu_evidence c) resume at_ failure |> in
  if ends_bank (cu_evidence c) then (Ok (Some BankEnded), c)
  else if exhausted (cu_evidence c) then (Err (gives_up (cu_evidence c)), c)
  else (Ok None, c).

Definition resume_after (c : ChunkCursor) (chunk_start at_ : Z) (failure : ReadFailure) (bytes : list Z) :
    act (option ReadStop * (ChunkCursor * list Z)) :=
  let resume := match latched_field_start bank at_ with Some field => Z.max field chunk_start | None => at_ end in
  let '(c, bytes) := cut_to c bytes resume in
  let '(spent, c) := spend_retry c resume at_ failure in
  match spent with
  | Err error => ret (Err error)
  | Ok (Some stop) => ret (Ok (Some stop, (c, bytes)))
  | Ok None =>
      let! _ := arm_memory_pointer address bank resume in
      ret (Ok (None, (c <| cu_done := resume - start |> <| cu_freshly_armed := true |>, bytes)))
  end.

Definition settle (c : ChunkCursor) (chunk_start take : Z) (read : ChunkRead) (bytes : list Z) :
    act (option ReadStop * (ChunkCursor * list Z)) :=
  let c := match read with
           | Unproved _ => c
           | _ => c <| cu_placeholder_pending := false |> <| cu_freshly_armed := false |>
           end in
  match read with
  | Complete => ret (Ok (None, (c <| cu_done := cu_done c + take |>, bytes)))
  | Placeholder =>
      ret (Ok (None, (c <| cu_done := MEMORY_RESERVED_OFFSET + 1 - start |> <| cu_placeholder_pending := true |>
                        <| cu_indicator_unread := negb (bank =? RESERVED_LOCATION_BANK) |>, bytes)))
  | Unproved proof =>
      let! r := rearm_unproved c chunk_start proof bytes in ret (Ok (None, r))
  | Interrupted at_ failure => resume_after c chunk_start at_ failure bytes
  end.

(** [while cursor.done < length]; [None] is a loop that has not ended within
    [turns]. *)
Fixpoint chunk_turns (turns : nat) (length : Z) (c : ChunkCursor) (bytes : list Z) :
    eff C (option (SemanticResult ((ReadStop * bool) * list Z))) :=
  if cu_done c <? length then
    match turns with
    | O => ret None
    | S turns =>
        let chunk_start := start + cu_done c in
        let take := chunk_take bank chunk_start (length - cu_done c) in
        let* _ := step_boundary in
        let* read := read_proved_chunk address bank chunk_start take bytes in
        match read with
        | Err error => ret (Some (Err error))
        | Ok (read, bytes) =>
            let* settled := settle c chunk_start take read bytes in
            match settled with
            | Err error => ret (Some (Err error))
            | Ok (Some stop, (c, bytes)) => ret (Some (Ok (stop, cu_indicator_unread c, bytes)))
            | Ok (None, (c, bytes)) => chunk_turns turns length c bytes
            end
        end
    end
  else ret (Some (Ok (Planned, cu_indicator_unread c, bytes))).

Definition read_in_chunks (turns : nat) (length : Z) : eff C (option (SemanticResult ((ReadStop * bool) * list Z))) :=
  chunk_turns turns length cursor_armed [].

Definition collect_memory_bank_bytes (turns : nat) (length : Z) : eff C (option MemoryReadExecution) :=
  let* r := read_in_chunks turns length in
  match r with
  | None => ret None
  | Some (Err error) => ret (Some (execution_failed error))
  | Some (Ok (stop, indicator_unread, bytes)) =>
      let* r := confirm_final_position address bank start (Z.of_nat (List.length bytes)) stop in
      ret (Some match r with
                | Ok _ => MkExecution bytes indicator_unread None
                | Err error => execution_failed error
                end)
  end.
End Cursor.

(** Turns that are enough for any read ([memory_read_ends]). *)
Definition read_turns (length : Z) : nat := Z.to_nat (8 * length + 40).

Definition read_memory_bank (short_address bank start length : Z) : eff C (option MemoryReadExecution) :=
  match validate_memory_read_range start length with
  | Err error => ret (Some (execution_failed error))
  | Ok _ =>
      match dali_short_address short_address with
      | Err error => ret (Some (execution_failed error))
      | Ok address =>
          let* r := arm_memory_pointer address bank start in
          match r with
          | Err error => ret (Some (execution_failed error))
          | Ok _ => collect_memory_bank_bytes address bank start (read_turns length) length
          end
      end
  end.

(** ** Presets *)

(** A read that may not have ended, as a result: its error, or its bytes. *)
Definition read_bank_meta (short_address bank meta_len : Z) : eff C (option (SemanticResult (option (list Z)))) :=
  let* r := read_memory_bank short_address bank 0 meta_len in
  ret (option_map (fun execution => match me_error execution with
                                    | Some error => Err error
                                    | None => Ok (then_some (negb (is_nil (me_bytes execution))) (me_bytes execution))
                                    end) r).

(** What [on_execution] was called with. *)
Definition Calls : Type := list (PlannedMemoryBankRead * MemoryReadExecution).

(** A planned read, reported when it succeeds. *)
Definition read_planned (short_address : Z) (plan : PlannedMemoryBankRead) (calls : Calls) :
    eff C (option (SemanticResult unit) * Calls) :=
  let* r := read_memory_bank short_address (pl_bank plan) (pl_start plan) (pl_length plan) in
  ret match r with
      | None => (None, calls)
      | Some execution => match me_error execution with
                          | Some error => (Some (Err error), calls)
                          | None => (Some (Ok tt), calls ++ [(plan, execution)])
                          end
      end.

Definition read_bank_verified (short_address bank meta_len : Z) (length_of : list Z -> Z) (calls : Calls) :
    eff C (option (SemanticResult (option (list Z))) * Calls) :=
  let* meta := read_bank_meta short_address bank meta_len in
  match meta with
  | Some (Ok (Some meta)) =>
      let* r := read_planned short_address (MkPlanned bank 0 (length_of meta)) calls in
      ret (option_map (result_map (fun _ => Some meta)) (fst r), snd r)
  | other => ret (other, calls)
  end.

Definition metered_plan (preset : MemoryBankReadPreset) : list PlannedMemoryBankRead :=
  match preset with
  | MrPower => map (fun bank => MkPlanned bank 0x0B 5) [BANK_ACTIVE_ENERGY; BANK_APPARENT_ENERGY; BANK_LOADSIDE_ENERGY]
  | MrEnergy => map (fun bank => MkPlanned bank 0x03 8) [BANK_ACTIVE_ENERGY; BANK_APPARENT_ENERGY; BANK_LOADSIDE_ENERGY]
  | MrDiagnostics => [MkPlanned BANK_CONTROL_GEAR_DIAGNOSTICS 0x03 26; MkPlanned BANK_LIGHT_SOURCE_DIAGNOSTICS 0x03 30]
  | MrLuminaireData => [MkPlanned BANK_LUMINAIRE_MAINTENANCE 0x03 5]
  | _ => []
  end.

(** Whether the bank is there. *)
Definition read_metered_bank (short_address : Z) (plan : PlannedMemoryBankRead) (calls : Calls) :
    eff C (option (SemanticResult bool) * Calls) :=
  let* meta := read_bank_meta short_address (pl_bank plan) BANK_META_LEN in
  match meta with
  | None => ret (None, calls)
  | Some (Err error) => ret (Some (Err error), calls)
  | Some (Ok None) => ret (Some (Ok false), calls)
  | Some (Ok (Some _)) =>
      let* r := read_planned short_address plan calls in
      ret (option_map (result_map (fun _ => true)) (fst r), snd r)
  end.

(** The loop over the plan, [first] at index 0. *)
Fixpoint metered_loop (short_address : Z) (first : bool) (plans : list PlannedMemoryBankRead) (calls : Calls) :
    eff C (option (SemanticResult unit) * Calls) :=
  match plans with
  | [] => ret (Some (Ok tt), calls)
  | plan :: plans =>
      let* r := read_metered_bank short_address plan calls in
      match fst r with
      | Some (Ok present) => if negb present && first then ret (Some (Ok tt), snd r)
                             else metered_loop short_address false plans (snd r)
      | Some (Err error) => ret (Some (Err error), snd r)
      | None => ret (None, snd r)
      end
  end.
Definition execute_metered_preset (short_address : Z) (preset : MemoryBankReadPreset) (calls : Calls) :
    eff C (option (SemanticResult unit) * Calls) :=
  metered_loop short_address true (metered_plan preset) calls.

Definition bank0_length_for_preset (last_address : Z) (preset : MemoryBankReadPreset) : Z :=
  match preset with
  | MrIdentity => Z.min (last_address + 1) (BANK0_IDENTITY_LAST_OFFSET + 1)
  | MrProfile | MrAll => last_address + 1
  | _ => 0
  end.
Definition upper_bank_length (last_address : Z) (preset : MemoryBankReadPreset) : Z :=
  match preset with
  | MrIdentity => Z.min (last_address + 1) (BANK1_PROFILE_LAST_OFFSET + 1)
  | _ => last_address + 1
  end.

(** The loop over the banks; the metadata of a bank has at least one byte. *)
Fixpoint sweep_loop (short_address : Z) (preset : MemoryBankReadPreset) (banks : list Z) (calls : Calls) :
    eff C (option (SemanticResult unit) * Calls) :=
  match banks with
  | [] => ret (Some (Ok tt), calls)
  | bank :: banks =>
      let* r := read_bank_verified short_address bank 1 (fun meta => upper_bank_length (nth 0 meta 0) preset) calls in
      match fst r with
      | Some (Ok read) => if negb (is_some read) || match preset with MrAll => false | _ => true end
                          then ret (Some (Ok tt), snd r)
                          else sweep_loop short_address preset banks (snd r)
      | Some (Err error) => ret (Some (Err error), snd r)
      | None => ret (None, snd r)
      end
  end.
Definition sweep_upper_banks (short_address : Z) (preset : MemoryBankReadPreset) (last_bank : Z) (calls : Calls) :
    eff C (option (SemanticResult unit) * Calls) :=
  sweep_loop short_address preset (seqZ 1 last_bank) calls.

Definition execute_memory_bank_preset (short_address : Z) (preset : MemoryBankReadPreset) :
    eff C (option (SemanticResult unit) * Calls) :=
  match preset with
  | MrNone => ret (Some (Ok tt), [])
  | _ =>
      if negb (is_nil (metered_plan preset)) then execute_metered_preset short_address preset []
      else
        let* r := read_bank_verified short_address 0 3 (fun meta => bank0_length_for_preset (nth 0 meta 0) preset) [] in
        match fst r with
        | Some (Ok (Some meta)) => sweep_upper_banks short_address preset (nth 2 meta 0) (snd r)
        | Some (Ok None) => ret (Some (Err (OperationFailed "memory_bank_last_address_missing"%string)), snd r)
        | Some (Err error) => ret (Some (Err error), snd r)
        | None => ret (None, snd r)
        end
  end.

End Read.

End MemoryBank.
