(* ===== verification/MemoryRead.v ===== *)
(** * What a memory bank read promises

    The read ends whatever the bus does; on a calm bus it returns the memory of
    the gear at the address. *)

From Stdlib Require Import String.
From S2P Require Import Prelude RulesBase Effects Gear GearCommand GearState Transport Banks Controller Majority.
From S2P Require Import Executor MemoryBank.

Module MemoryRead.
Import Gear GearCommand GearState Transport Banks Controller Majority Executor MemoryBank.

(** ** Results whatever the controller does *)

(** The brackets return what their closure returned, from some state. *)
Class Brackets (C : Type) {HC : DaliApplicationController C} := {
  transaction_runs : forall R (run : eff C R) c, exists c1, fst (transaction run c) = fst (run c1);
  transaction_exempt_runs : forall R (run : eff C R) c, exists c1, fst (transaction_exempt run c) = fst (run c1) }.

#[export, refine] Instance controller_brackets {W T} `{World W} `{DaliTransport W T} : Brackets (DaliController W T) := {}.
Proof.
  all: intros R run c; cbn; unfold run_transaction, bind, modify, ret.
  - exists (open_transaction false c). now destruct (run _).
  - exists (open_transaction true c). now destruct (run _).
Qed.

Section Always.
Context {C : Type} {HC : DaliApplicationController C} {HB : Brackets C}.

Definition always {A} (m : eff C A) (P : A -> Prop) : Prop := forall c, P (fst (m c)).

Lemma always_ret {A} (a : A) (P : A -> Prop) : P a -> always (ret a) P.
Proof. intros H c. exact H. Qed.

Lemma always_bind {A B} (m : eff C A) (k : A -> eff C B) P Q :
  always m P -> (forall a, P a -> always (k a) Q) -> always (bind m k) Q.
Proof. intros Hm Hk c. unfold bind. specialize (Hm c). destruct (m c) as [a c']. exact (Hk a Hm c'). Qed.

Lemma always_any {A} (m : eff C A) : always m (fun _ => True).
Proof. intros c. exact I. Qed.

(** What a fallible call returns when it succeeds. *)
Definition ok {A E} (P : A -> Prop) (r : Result A E) : Prop := match r with Ok a => P a | Err _ => True end.

Lemma always_bind_ok {A B E} (m : eff C (Result A E)) (k : A -> eff C (Result B E)) P Q :
  always m (ok P) -> (forall a, P a -> always (k a) (ok Q)) -> always (bind_ok m k) (ok Q).
Proof. intros Hm Hk c. unfold bind_ok. specialize (Hm c). destruct (m c) as [[a|e] c']; [exact (Hk a Hm c')|exact I]. Qed.

Lemma always_ok {A E} (m : eff C (Result A E)) : always m (ok (fun _ => True)).
Proof. intros c. now destruct (fst (m c)). Qed.

Lemma always_transaction {A} (m : eff C A) P : always m P -> always (transaction m) P.
Proof. intros H c. destruct (transaction_runs _ m c) as [c1 ->]. apply H. Qed.
Lemma always_transaction_exempt {A} (m : eff C A) P : always m P -> always (transaction_exempt m) P.
Proof. intros H c. destruct (transaction_exempt_runs _ m c) as [c1 ->]. apply H. Qed.

(** ** One chunk *)

Lemma chunk_loop_range l offset remaining budget : forall taken,
  0 <= taken <= remaining -> taken <= chunk_loop l offset remaining budget taken <= remaining.
Proof.
  induction l as [|f l IH]; intros taken Ht; cbn [chunk_loop]; [lia|]. pose proof (width_bytes_pos (fd_width f)).
  repeat (case_if; try lia). apply IH. lia.
  all: specialize (IH (taken + width_bytes (fd_width f))); lia.
Qed.

Lemma chunk_take_range bank chunk_start remaining : 0 < remaining -> 0 < chunk_take bank chunk_start remaining <= remaining.
Proof.
  intros Hr. unfold chunk_take, chunk_len, MEMORY_READ_CHUNK. destruct (bank_field_map bank) as [|f l]; [lia|].
  pose proof (chunk_loop_range (f :: l) chunk_start remaining 4 0). case_if; lia.
Qed.

(** What a chunk of [n] locations from [s] on leaves of the bytes. *)
Definition chunk_leaves (s n : Z) (bytes : list Z) (r : ChunkRead * list Z) : Prop :=
  let len := Z.of_nat (length bytes) in
  let len' := Z.of_nat (length (snd r)) in
  match fst r with
  | Complete => len' = len + n
  | Placeholder => s <= MEMORY_RESERVED_OFFSET < s + n /\ len' = len + (MEMORY_RESERVED_OFFSET + 1 - s)
  | Unproved _ => False
  | Interrupted at_ _ => s <= at_ < s + n /\ len' = len + (at_ - s)
  end.

Lemma leaves_next s n bytes v r : 0 <= n -> chunk_leaves (Z.succ s) n (bytes ++ [v]) r -> chunk_leaves s (n + 1) bytes r.
Proof. unfold chunk_leaves. rewrite length_app. cbn [length]. intros Hn. destruct (fst r); lia. Qed.

Lemma always_mono {A} (m : eff C A) (P Q : A -> Prop) : always m P -> (forall a, P a -> Q a) -> always m Q.
Proof. intros H HQ c. apply HQ, H. Qed.

Lemma read_location_reserved address offset :
  always (read_location address offset) (fun r => r = Ok None -> offset = MEMORY_RESERVED_OFFSET).
Proof.
  unfold read_location. eapply always_bind; [apply always_any|]. intros [[[v| |] []]|e] _; apply always_ret;
    repeat case_if; try discriminate; intros _; lia.
Qed.

Lemma planned_leaves address n : forall s bytes,
  always (read_planned_locations address (seqZ s (Z.of_nat n)) bytes) (chunk_leaves s (Z.of_nat n) bytes).
Proof.
  induction n as [|n IH]; intros s bytes.
  - apply always_ret. unfold chunk_leaves. cbn. lia.
  - rewrite seqZ_cons by lia. replace (Z.pred (Z.of_nat (S n))) with (Z.of_nat n) by lia. cbn [read_planned_locations].
    eapply always_bind; [apply read_location_reserved|]. intros [[v|]|failure] Hr.
    + eapply always_mono; [apply IH|]. intros r H. apply leaves_next in H; [|lia]. now replace (Z.of_nat (S n)) with (Z.of_nat n + 1) by lia.
    + specialize (Hr eq_refl). apply always_ret. unfold chunk_leaves. cbn [fst snd]. rewrite length_app. cbn [length]. lia.
    + apply always_ret. unfold chunk_leaves. cbn [fst snd]. lia.
Qed.

Lemma chunk_leaves_read address bank s n bytes : 0 <= n ->
  always (read_proved_chunk address bank s n bytes)
    (ok (fun r => match fst r with Unproved _ => snd r = bytes | _ => chunk_leaves s n bytes r end)).
Proof.
  intros Hn. unfold read_proved_chunk.
  match goal with |- always (if _ then transaction_exempt ?m else transaction ?m) ?P => enough (always m P) as H end.
  { case_if; [now apply always_transaction_exempt|now apply always_transaction]. }
  eapply always_bind_ok; [apply always_ok|]. intros proof _. destruct (bool_decide _); cbn [negb]; [|now apply always_ret].
  eapply always_bind; [|intros r Hr; apply always_ret; exact Hr].
  rewrite <- (Z2Nat.id n) by lia. eapply always_mono; [apply planned_leaves|]. intros [read bytes'] Hr. destruct read; try exact Hr.
  destruct Hr.
Qed.

(** ** The cursor *)

Section Cursor.
Variables (address : DaliAddress) (bank start length : Z).
Hypothesis length_nonneg : 0 <= length.

(** At the head of the loop: the bytes are those up to [done], no [u16] or [u8]
    of the cursor wraps, and a placeholder is pending at its own location only. *)
Record cursor_wf (c : ChunkCursor) (bytes : list Z) : Prop := {
  wf_done : 0 <= cu_done c <= length;
  wf_bytes : Z.of_nat (List.length bytes) = cu_done c;
  wf_rearms : 0 <= cu_rearms c <= BANK_ARM_RETRIES;
  wf_pending : cu_placeholder_pending c = true ->
    start + cu_done c = MEMORY_RESERVED_OFFSET + 1 /\ start <= MEMORY_RESERVED_OFFSET /\ cu_freshly_armed c = false;
  wf_telling : 0 <= re_telling (cu_evidence c) <= MEMORY_READ_LOCATION_RETRIES;
  wf_idle : 0 <= re_idle (cu_evidence c) <= MEMORY_READ_IDLE_RETRIES }.

(** The retries left at the location [done]. *)
Definition retries_left (c : ChunkCursor) : Z :=
  if bool_decide (cu_resume c = Some (start + cu_done c))
  then 4 - (re_telling (cu_evidence c) + re_idle (cu_evidence c)) else 5.

(** What every turn of the loop takes from. *)
Definition turns_left (c : ChunkCursor) : Z :=
  16 * (BANK_ARM_RETRIES - cu_rearms c) + 8 * (length - cu_done c) + Z.b2z (cu_placeholder_pending c) + retries_left c.

(** A turn that does not end the loop. *)
Definition turn_done (c : ChunkCursor) (r : ChunkCursor * list Z) : Prop :=
  cursor_wf (fst r) (snd r) /\ turns_left (fst r) < turns_left c.

Definition rearmed (c : ChunkCursor) (resume : Z) : ChunkCursor :=
  fst (cut_to start c [] resume) <| cu_done := resume - start |> <| cu_placeholder_pending := false |>
    <| cu_freshly_armed := true |>.

Lemma arm_at_value c resume bytes :
  always (arm_at address bank start c resume bytes) (ok (fun r => r = (rearmed c resume, take (Z.to_nat (resume - start)) bytes))).
Proof.
  unfold arm_at. cbn [cut_to]. eapply always_bind_ok; [apply always_ok|]. intros u _. now apply always_ret.
Qed.

Lemma retries_range c : 0 <= re_telling (cu_evidence c) <= 2 -> 0 <= re_idle (cu_evidence c) <= 2 -> 0 <= retries_left c <= 5.
Proof. unfold retries_left. intros H1 H2. case_if; lia. Qed.

(** Going back to a location already read. *)
Lemma rearmed_wf c bytes resume :
  cursor_wf c bytes -> start <= resume <= start + cu_done c ->
  cursor_wf (rearmed c resume) (take (Z.to_nat (resume - start)) bytes).
Proof.
  intros [H1 H2 H3 H4 H5 H6] Hr. split; cbn; try assumption; try lia.
  rewrite length_take. lia.
Qed.

Lemma turns_left_rearmed c bytes resume : cursor_wf c bytes -> start <= resume <= start + cu_done c ->
  turns_left (rearmed c resume) <=
  16 * (BANK_ARM_RETRIES - cu_rearms c) + 8 * (length - (resume - start)) + (if resume =? start + cu_done c then retries_left c else 5).
Proof.
  intros [H1 H2 H3 H4 H5 H6] Hr. unfold turns_left, rearmed, retries_left. cbn.
  replace (start + (resume - start)) with resume by lia.
  unfold MEMORY_READ_LOCATION_RETRIES, MEMORY_READ_IDLE_RETRIES in *.
  destruct (Z.eqb_spec resume (start + cu_done c)) as [->|Hne]; repeat case_if; lia.
Qed.

Lemma rearm_turn c bytes proof : cursor_wf c bytes ->
  always (rearm_unproved address bank start c (start + cu_done c) proof bytes) (ok (turn_done c)).
Proof.
  intros Hwf. pose proof Hwf as [H1 H2 H3 H4 H5 H6]. unfold rearm_unproved.
  unfold MEMORY_READ_LOCATION_RETRIES, MEMORY_READ_IDLE_RETRIES in *.
  pose proof (retries_range c ltac:(lia) ltac:(lia)) as Hb.
  set (lost := cu_placeholder_pending c && bool_decide (proof = PpMoved true)).
  assert (lost = true -> start + cu_done c = MEMORY_RESERVED_OFFSET + 1 /\ start <= MEMORY_RESERVED_OFFSET /\ cu_placeholder_pending c = true) as Hl.
  { intros Hx. apply andb_true_iff in Hx as [Hp _]. specialize (H4 Hp). tauto. }
  unfold MEMORY_RESERVED_OFFSET in *.
  destruct (lost && passes_location_0x01 bank c) eqn:Ep.
  - apply andb_true_iff in Ep as [Ep _]. destruct (Hl Ep) as (E1 & E2 & E3).
    eapply always_mono; [apply arm_at_value|]. intros [r|e]; [|trivial]. cbn [ok]. intros ->. split; cbn [fst snd].
    + apply rearmed_wf; [exact Hwf|lia].
    + pose proof (turns_left_rearmed c bytes 2 Hwf ltac:(lia)) as Ht. unfold turns_left at 2. rewrite E3. cbn [Z.b2z].
      change (1 + 1) with 2. rewrite (proj2 (Z.eqb_eq _ _)) in Ht by lia. lia.
  - destruct (if lost then Some 1 else _) as [resume|] eqn:Er; [|now apply always_ret].
    case_if; [now apply always_ret|].
    set (c1 := c <| cu_rearms := cu_rearms c + 1 |> <| cu_indicator_reread := cu_indicator_reread c || lost |>).
    assert (cursor_wf c1 bytes) as Hwf1 by (split; cbn; try assumption; unfold BANK_ARM_RETRIES in *; lia).
    assert (start <= resume <= start + cu_done c /\ start + cu_done c <= resume + 1 /\ (resume = start + cu_done c \/ lost = true)) as Hr.
    { destruct lost; [injection Er as <-; destruct (Hl eq_refl) as (E1 & E2 & _); lia|].
      destruct (cu_freshly_armed c); [injection Er as <-; lia|discriminate]. }
    eapply always_mono; [apply arm_at_value|]. intros [r|e]; [|trivial]. cbn [ok]. intros ->. split; cbn [fst snd].
    + apply rearmed_wf; [exact Hwf1|]. cbn. lia.
    + pose proof (turns_left_rearmed c1 bytes resume Hwf1) as Ht. cbn in Ht. specialize (Ht ltac:(lia)).
      change (retries_left c1) with (retries_left c) in Ht. unfold turns_left at 2.
      destruct (cu_placeholder_pending c); cbn [Z.b2z]; destruct (Z.eqb_spec resume (start + cu_done c)); lia.
Qed.

(** An interruption counts exactly one retry. *)
Lemma note_counts e resume at_ failure :
  0 <= re_telling e <= 2 -> 0 <= re_idle e <= 2 ->
  let e' := evidence_note e resume at_ failure in
  re_telling e <= re_telling e' /\ re_idle e <= re_idle e' /\ re_telling e' + re_idle e' = re_telling e + re_idle e + 1.
Proof.
  intros H1 H2. assert (forall n, 0 <= n <= 2 -> wrapping_add 8 n 1 = n + 1) as Hw.
  { intros n Hn. unfold wrapping_add. apply wrap_id. unfold in_u. lia. }
  cbn zeta. unfold evidence_note. destruct failure as [|[]|e1], (resume <? at_), (silence_may_end_bank at_); cbn; rewrite ?Hw by lia; lia.
Qed.

Lemma latched_before at_ field : latched_field_start bank at_ = Some field -> field < at_.
Proof. unfold latched_field_start. destruct (field_containing bank at_) as [f|]; [|discriminate]. unfold then_some.
  destruct (Z.ltb_spec (fd_offset f) at_); [|discriminate]. now intros [= <-]. Qed.

(** A turn that ends the loop, or does not. *)
Definition settled_as (c : ChunkCursor) (r : option ReadStop * (ChunkCursor * list Z)) : Prop :=
  match fst r with
  | None => turn_done c (snd r)
  | Some stop => stop = BankEnded /\ Z.of_nat (List.length (snd (snd r))) <= length
  end.

Lemma resume_turn c bytes bytes' t at_ failure : cursor_wf c bytes -> cu_placeholder_pending c = false ->
  start + cu_done c <= at_ < start + cu_done c + t -> t <= length - cu_done c ->
  Z.of_nat (List.length bytes') = cu_done c + (at_ - (start + cu_done c)) ->
  always (resume_after address bank start c (start + cu_done c) at_ failure bytes') (ok (settled_as c)).
Proof.
  intros [H1 H2 H3 H4 H5 H6] Hp Hat Ht Hb. unfold resume_after.
  set (resume := match latched_field_start bank at_ with Some field => _ | None => at_ end).
  assert (start + cu_done c <= resume <= at_) as Hr.
  { unfold resume. destruct (latched_field_start bank at_) as [field|] eqn:E; [apply latched_before in E|]; lia. }
  cbn [cut_to]. unfold spend_retry. unfold MEMORY_READ_LOCATION_RETRIES, MEMORY_READ_IDLE_RETRIES in *.
  set (c1 := c <| cu_indicator_unread := _ |>).
  set (c2 := if bool_decide (cu_resume c1 <> Some resume) then _ else c1).
  assert (cu_resume c2 = Some resume /\ 0 <= re_telling (cu_evidence c2) <= 2 /\ 0 <= re_idle (cu_evidence c2) <= 2 /\
          cu_rearms c2 = cu_rearms c /\ cu_done c2 = cu_done c /\ cu_placeholder_pending c2 = false /\
          (resume = start + cu_done c -> 4 - (re_telling (cu_evidence c2) + re_idle (cu_evidence c2)) <= retries_left c))
    as (E1 & E2 & E3 & E4 & E5 & E6 & E7).
  { unfold c2. change (cu_resume c1) with (cu_resume c). pose proof (retries_range c ltac:(lia) ltac:(lia)) as Hb'.
    destruct (decide (cu_resume c = Some resume)) as [E|E].
    - rewrite bool_decide_false by tauto. subst c1. cbn. do 6 (split; [first [exact E | lia | reflexivity | exact Hp]|]).
      intros Hx. unfold retries_left. rewrite bool_decide_true by (rewrite E; f_equal; exact Hx). lia.
    - rewrite bool_decide_true by exact E. subst c1. cbn. do 6 (split; [first [lia | reflexivity | exact Hp]|]).
      intros Hx. unfold retries_left. rewrite bool_decide_false by (intros E'; apply E; rewrite E'; f_equal; now symmetry). lia. }
  destruct (note_counts (cu_evidence c2) resume at_ failure E2 E3) as (N1 & N2 & N3).
  set (e := evidence_note _ _ _ _) in *. cbn [cu_evidence].
  change (cu_evidence (c2 <| cu_evidence := e |>)) with e.
  destruct (ends_bank e).
  { apply always_ret. cbn. rewrite length_take. split; [reflexivity|lia]. }
  destruct (exhausted e) eqn:Ex; [now apply always_ret|].
  unfold exhausted, MEMORY_READ_LOCATION_RETRIES, MEMORY_READ_IDLE_RETRIES in Ex.
  eapply always_bind_ok; [apply always_ok|]. intros u _. apply always_ret. cbn [ok settled_as fst snd]. split; cbn [fst snd].
  - split; cbn; rewrite ?E4, ?E6; unfold MEMORY_READ_LOCATION_RETRIES, MEMORY_READ_IDLE_RETRIES; try assumption; try lia.
    rewrite length_take. lia.
  - pose proof (retries_range c ltac:(lia) ltac:(lia)). unfold turns_left, retries_left at 1. cbn. rewrite E1, E4, E6, Hp. cbn [Z.b2z].
    replace (start + (resume - start)) with resume by lia. rewrite bool_decide_true by reflexivity.
    destruct (Z.eq_dec resume (start + cu_done c)) as [->|]; [specialize (E7 eq_refl)|]; lia.
Qed.

Lemma turns_left_forward c c' : 0 <= re_telling (cu_evidence c) <= 2 -> 0 <= re_idle (cu_evidence c) <= 2 ->
  cu_rearms c' = cu_rearms c -> cu_evidence c' = cu_evidence c -> cu_done c < cu_done c' -> turns_left c' < turns_left c.
Proof.
  intros H1 H2 E1 E2 Hd. pose proof (retries_range c H1 H2). pose proof (retries_range c').
  rewrite E2 in *. unfold turns_left. rewrite E1. destruct (cu_placeholder_pending c), (cu_placeholder_pending c'); cbn; lia.
Qed.

Lemma settle_turn c bytes t read bytes' : cursor_wf c bytes -> 0 < t <= length - cu_done c ->
  match read with Unproved _ => bytes' = bytes | _ => chunk_leaves (start + cu_done c) t bytes (read, bytes') end ->
  always (settle address bank start c (start + cu_done c) t read bytes') (ok (settled_as c)).
Proof.
  intros Hwf Ht Hr. pose proof Hwf as [H1 H2 H3 H4 H5 H6]. unfold settle. unfold chunk_leaves, MEMORY_RESERVED_OFFSET in Hr.
  set (c0 := c <| cu_placeholder_pending := false |> <| cu_freshly_armed := false |>).
  assert (turns_left c0 <= turns_left c) as Hle by (unfold turns_left; cbn; change (retries_left c0) with (retries_left c); lia).
  unfold MEMORY_READ_LOCATION_RETRIES, MEMORY_READ_IDLE_RETRIES in *.
  pose proof (retries_range c ltac:(lia) ltac:(lia)) as Hb. cbn [fst snd] in Hr.
  destruct read as [| |proof|at_ failure].
  - apply always_ret. cbn [ok settled_as fst snd]. split; cbn [fst snd].
    + split; cbn; try assumption; try lia.
    + apply turns_left_forward; cbn; first [reflexivity|lia].
  - apply always_ret. cbn [ok settled_as fst snd]. unfold MEMORY_RESERVED_OFFSET. split; cbn [fst snd].
    + split; cbn; try assumption; try lia. unfold MEMORY_RESERVED_OFFSET. intros _. repeat split; lia.
    + apply turns_left_forward; cbn; first [reflexivity|lia].
  - subst bytes'. eapply always_bind_ok; [now apply rearm_turn|]. intros r Hd. now apply always_ret.
  - eapply always_mono; [apply (resume_turn c0 bytes bytes' t at_ failure)|]; try (cbn; lia).
    + split; cbn; try assumption; try lia; discriminate.
    + intros [r|e] Hd; [|exact I]. cbn [ok] in *. unfold settled_as, turn_done in *. destruct (fst r); [exact Hd|]. split; [tauto|lia].
Qed.

(** The loop ends before its turns do. *)
Definition chunks_done (r : option (SemanticResult ((ReadStop * bool) * list Z))) : Prop :=
  match r with
  | None => False
  | Some (Err _) => True
  | Some (Ok (stop, _, bytes)) =>
      Z.of_nat (List.length bytes) <= length /\ (stop = Planned -> Z.of_nat (List.length bytes) = length)
  end.

Lemma chunk_turns_end turns : forall c bytes, cursor_wf c bytes -> turns_left c < Z.of_nat turns ->
  always (chunk_turns address bank start turns length c bytes) chunks_done.
Proof.
  induction turns as [|turns IH]; intros c bytes Hwf Ht; pose proof Hwf as [H1 H2 H3 H4 H5 H6]; cbn [chunk_turns];
    (destruct (Z.ltb_spec (cu_done c) length) as [Hd|Hd]; [|apply always_ret; cbn; lia]).
  - unfold turns_left in Ht. unfold MEMORY_READ_LOCATION_RETRIES, MEMORY_READ_IDLE_RETRIES in *.
    pose proof (retries_range c ltac:(lia) ltac:(lia)). lia.
  - pose proof (chunk_take_range bank (start + cu_done c) (length - cu_done c) ltac:(lia)) as Htake.
    set (t := chunk_take _ _ _) in *. eapply always_bind; [apply always_any|]. intros _ _.
    eapply always_bind; [apply (chunk_leaves_read address bank (start + cu_done c) t bytes); lia|].
    intros [[read bytes']|e] Hr; [|now apply always_ret]. cbn [ok fst snd] in Hr.
    eapply always_bind; [apply (settle_turn c bytes t read bytes'); [exact Hwf|lia|destruct read; exact Hr]|].
    intros [[[stop|] [c' b']]|e] Hs; [| |now apply always_ret]; cbn in Hs.
    + apply always_ret. destruct Hs as [-> Hs]. cbn. split; [exact Hs|discriminate].
    + destruct Hs as [Hw Hlt]. apply IH; [exact Hw|]. cbn [fst] in Hlt. lia.
Qed.

Lemma cursor_armed_wf : cursor_wf cursor_armed [].
Proof. split; cbn; unfold BANK_ARM_RETRIES, MEMORY_READ_LOCATION_RETRIES, MEMORY_READ_IDLE_RETRIES; try lia; discriminate. Qed.

End Cursor.

(** What a read gives back. *)
Definition read_gives (length : Z) (r : option MemoryReadExecution) : Prop :=
  exists e, r = Some e /\
    (me_error e = None -> 0 <= length -> Z.of_nat (List.length (me_bytes e)) <= length) /\
    (me_error e <> None -> me_bytes e = [] /\ me_indicator_unread e = false).

Lemma gives_failed length error : read_gives length (Some (execution_failed error)).
Proof. eexists. split; [reflexivity|]. now split. Qed.

(** A length below zero is none: the loop is not entered. *)
Lemma chunks_end address bank start length :
  always (read_in_chunks address bank start (read_turns length) length)
    (fun r => match r with
              | None => False
              | Some (Err _) => True
              | Some (Ok (_, _, bytes)) => 0 <= length -> Z.of_nat (List.length bytes) <= length
              end).
Proof.
  destruct (Z.ltb_spec length 0) as [Hneg|Hl].
  - unfold read_in_chunks. destruct (read_turns length); cbn [chunk_turns cursor_armed cu_done];
      (rewrite (proj2 (Z.ltb_ge 0 length)) by lia); apply always_ret; lia.
  - eapply always_mono; [apply (chunk_turns_end address bank start length Hl); [now apply cursor_armed_wf|]|].
    + unfold turns_left, retries_left, read_turns. cbn. unfold BANK_ARM_RETRIES. case_if; lia.
    + intros [[[[stop unread] bytes]|e]|]; cbn; tauto.
Qed.

Lemma read_ends short_address bank start length :
  always (read_memory_bank short_address bank start length) (read_gives length).
Proof.
  unfold read_memory_bank. destruct (validate_memory_read_range start length); [|apply always_ret, gives_failed].
  destruct (dali_short_address short_address) as [address|]; [|apply always_ret, gives_failed].
  eapply always_bind; [apply always_any|]. intros [u|e] _; [|apply always_ret, gives_failed].
  eapply always_bind; [apply chunks_end|]. intros [[[[stop unread] bytes]|e]|] Hr; [| |destruct Hr].
  - eapply always_bind; [apply always_any|]. intros [u'|e] _; apply always_ret; [|apply gives_failed].
    eexists. split; [reflexivity|]. split; [intros _; exact Hr|now intros []].
  - apply always_ret, gives_failed.
Qed.

(** ** Presets *)

(** A call that ended. *)
Definition ends {A B} (r : option A * B) : Prop := fst r <> None.

Lemma meta_ends short_address bank n : always (read_bank_meta short_address bank n) (fun r => r <> None).
Proof. eapply always_bind; [apply read_ends|]. intros r (e & -> & _). now apply always_ret. Qed.

Lemma planned_ends short_address plan calls : always (read_planned short_address plan calls) ends.
Proof.
  eapply always_bind; [apply read_ends|]. intros r (e & -> & _). apply always_ret. unfold ends. now destruct (me_error e).
Qed.

Lemma verified_ends short_address bank n length_of calls :
  always (read_bank_verified short_address bank n length_of calls) ends.
Proof.
  eapply always_bind; [apply meta_ends|]. intros [[[meta|]|e]|] Hm; try now apply always_ret.
  eapply always_bind; [apply planned_ends|]. intros [[r|] calls'] Hr; [now apply always_ret|now destruct Hr].
Qed.

Lemma metered_ends short_address plans : forall first calls, always (metered_loop short_address first plans calls) ends.
Proof.
  induction plans as [|plan plans IH]; intros first calls; cbn [metered_loop]; [now apply always_ret|].
  apply (always_bind _ _ ends).
  - eapply always_bind; [apply meta_ends|]. intros [[[meta|]|e]|] Hm; try now apply always_ret.
    eapply always_bind; [apply planned_ends|]. intros [[r|] calls'] Hr; [now apply always_ret|now destruct Hr].
  - intros [[[present|e]|] calls'] Hr; cbn [fst snd]; [|now apply always_ret|now destruct Hr].
    destruct (_ && _); [now apply always_ret|apply IH].
Qed.

Lemma sweep_ends short_address preset banks : forall calls, always (sweep_loop short_address preset banks calls) ends.
Proof.
  induction banks as [|bank banks IH]; intros calls; cbn [sweep_loop]; [now apply always_ret|].
  eapply always_bind; [apply verified_ends|].
  intros [[[read|e]|] calls'] Hr; cbn [fst snd]; [|now apply always_ret|now destruct Hr].
  destruct (_ || _); [now apply always_ret|apply IH].
Qed.

Lemma preset_ends short_address preset : always (execute_memory_bank_preset short_address preset) ends.
Proof.
  unfold execute_memory_bank_preset. destruct preset; [now apply always_ret|..];
    (destruct (negb _); [apply metered_ends|]); (eapply always_bind; [apply verified_ends|]);
    intros [[[[meta|]|e]|] calls] Hr; cbn [fst snd]; first [apply sweep_ends | now apply always_ret | now destruct Hr].
Qed.
End Always.

(** ** The property *)

(** C22: a memory bank read ends whatever answers, silences, disturbances or errors
    the transport reports, with or without a lease: it gives bytes, never more
    than were asked for, or one error and no bytes.  Every preset ends too. *)
Theorem memory_read_ends {W T : Type} `{World W} `{DaliTransport W T} (c : DaliController W T) short_address bank start length preset :
  (exists e, fst (read_memory_bank short_address bank start length c) = Some e /\
     (me_error e = None -> 0 <= length -> Z.of_nat (List.length (me_bytes e)) <= length) /\
     (me_error e <> None -> me_bytes e = [] /\ me_indicator_unread e = false)) /\
  fst (fst (execute_memory_bank_preset short_address preset c)) <> None.
Proof. split; [exact (read_ends short_address bank start length c)|exact (preset_ends short_address preset c)]. Qed.

End MemoryRead.
