(* ===== verification/Discovery.v ===== *)
(** * Discovery of the gear on a bus

    Models [crates/dali2rust-dali-runtime/src/runtime/executor/discovery.rs]: what
    answers at an address and what it says of itself, the walk over its device
    types, and the scan that reads every random address and verifies each pair of
    short and random address against the gear.  [set_search_address] is
    [commissioning.rs]'s.  The [warn!] calls are left out; the calls of
    [on_device] are returned as the list of devices it is called with. *)

From Stdlib Require Import String.
From S2P Require Import Prelude RulesBase Effects Gear GearCommand GearState Transport Controller Majority Executor.

Module Discovery.
Import Gear GearCommand GearState Transport Controller Majority Executor.

Definition MAX_DEVICE_TYPES : Z := 16.
Definition DEVICE_TYPE_NONE : Z := 254.
Definition DEVICE_TYPE_MASK : Z := 255.
Definition DEVICE_TYPE_ENUM_RERUNS : Z := 1.
Definition DEVICE_TYPE_ENUM_INCOMPLETE : string := "device_type_walk_incomplete".
Definition DT8_XY_CAP : Z := 0x01.
Definition DT8_TC_CAP : Z := 0x02.
Definition DT8_RGBWAF_CHANNELS_MASK : Z := 0xE0.
Definition DT8_RGBWAF_CHANNELS_SHIFT : Z := 5.
Definition DT8_RGB_CHANNELS : Z := 3.
Definition MAX_SHORT_ADDRESS : Z := 63.
Definition MAX_RANDOM_ADDRESS : Z := 0x00FFFFFF.
Definition RANDOM_ADDRESS_MAX_SAMPLES : nat := 5.
Definition DISCOVERY_CONTENT_CONFIRM : ContentConfirmPolicy := MkConfirm false 2.

(** ** Data *)

(** [DeviceType] and [ColorMode] of the contracts; [Gear] and [GearModel] have
    their own. *)
Inductive ReportedType :=
  | RtUnknown | RtDt0Fluorescent | RtDt1Emergency | RtDt2Discharge | RtDt3LowVoltageHalogen | RtDt4Incandescent
  | RtDt5Dc | RtDt6Led | RtDt7Switching | RtDt8Color | RtOther.
#[global] Instance ReportedType_eq_dec : EqDecision ReportedType.
Proof. solve_decision. Defined.

Inductive ReportedMode := RmNone | RmBrightness | RmCct | RmXy | RmRgb | RmRgbwaf | RmUnknown.
#[global] Instance ReportedMode_eq_dec : EqDecision ReportedMode.
Proof. solve_decision. Defined.

(** [DeviceTypeSet(u64)] is its bits. *)
Definition DeviceTypeSet_MAX_TYPE : Z := 63.
Definition type_set_contains (set device_type : Z) : bool :=
  (device_type <=? DeviceTypeSet_MAX_TYPE) && (Z.land (Z.shiftr set device_type) 1 =? 1).
Definition type_set_insert (set device_type : Z) : bool * Z :=
  if DeviceTypeSet_MAX_TYPE <? device_type then (false, set) else (true, Z.lor set (shl 64 1 device_type)).

Record DiscoveredDevice := MkDiscovered {
  dd_short_address : Z; dd_random_address : option Z; dd_device_type : ReportedType; dd_color_mode : ReportedMode;
  dd_xy_capable : bool; dd_tc_capable : bool; dd_rgb_capable : bool; dd_rgbwaf_capable : bool;
  dd_type_enum_degraded : bool; dd_supported_device_types : option Z }.

#[global] Instance eta_DiscoveredDevice : Eta DiscoveredDevice := fun d =>
  MkDiscovered (dd_short_address d) (dd_random_address d) (dd_device_type d) (dd_color_mode d) (dd_xy_capable d)
    (dd_tc_capable d) (dd_rgb_capable d) (dd_rgbwaf_capable d) (dd_type_enum_degraded d) (dd_supported_device_types d).

Record Dt8Capabilities := MkCaps { cap_xy : bool; cap_tc : bool; cap_rgb : bool; cap_rgbwaf : bool }.
Record Dt8Status := MkDt8Status { d8_supported : bool; d8_capabilities : option Dt8Capabilities; d8_color_mode : ReportedMode }.
Definition caps_default : Dt8Capabilities := MkCaps false false false false.
Definition dt8_status_default : Dt8Status := MkDt8Status false None RmNone.

Inductive Dt8ProbePolicy := DiscoveryScan | ExplicitRead.

(** The [BTreeSet<u8>] is its elements in order. *)
Record SupportedDeviceTypesQuery := MkTypesQuery { tq_answered : bool; tq_supported : list Z; tq_enum_degraded : bool }.
Definition types_query_default : SupportedDeviceTypesQuery := MkTypesQuery false [] false.

Record DeviceIdentity := MkIdentity {
  di_detected : bool; di_device_type : ReportedType; di_color_mode : ReportedMode; di_dt8_status : Dt8Status;
  di_type_enum_degraded : bool; di_supported_device_types : option Z }.
Definition identity_default : DeviceIdentity := MkIdentity false RtUnknown RmNone dt8_status_default false None.

Record DiscoveryScanSummary := MkSummary { sm_described : Z; sm_error : option SemanticDaliError }.
#[global] Instance eta_DiscoveryScanSummary : Eta DiscoveryScanSummary := fun s => MkSummary (sm_described s) (sm_error s).

(** [VerifiedShortRandomPairs] and [ReadRandomAddressReport]: pairs and the first error. *)
Definition PairReport : Type := list (Z * Z) * option SemanticDaliError.

Inductive VerifyPairOutcome := Verified | Skipped (error : SemanticDaliError).
Inductive MaskWalk := WalkComplete (set : list Z) | WalkBroken (contended : bool).
Inductive EnumerationOutcome := EnumDone (query : SupportedDeviceTypesQuery) | EnumBroken (contended : bool).

(** [BTreeSet::insert]: whether the value is new. *)
Fixpoint btree_insert (x : Z) (l : list Z) : bool * list Z :=
  match l with
  | [] => (true, [x])
  | y :: l' => if x <? y then (true, x :: l) else if x =? y then (false, l)
               else let '(new, l') := btree_insert x l' in (new, y :: l')
  end.

(** ** Pure parts *)

(** The first error stays, except that a hold replaces it. *)
Definition record_discovery_skip (first_error : option SemanticDaliError) (error : SemanticDaliError) :
    option SemanticDaliError :=
  if bool_decide (first_error = None) || is_held error then Some error else first_error.

Definition pack_random_address (high middle low : Z) : Z := Z.lor (Z.lor (shl 32 high 16) (shl 32 middle 8)) low.

Definition majority_random_address (samples : list Z) : option Z :=
  match majority_byte_from_u32_samples samples 16, majority_byte_from_u32_samples samples 8,
        majority_byte_from_u32_samples samples 0 with
  | Some high, Some middle, Some low => Some (pack_random_address high middle low)
  | _, _, _ => None
  end.

Definition RANDOM_ADDRESS_NO_ANSWER : list string :=
  ["query_random_address_h_no_answer"; "query_random_address_m_no_answer"; "query_random_address_l_no_answer"]%string.
Definition is_random_address_no_answer (error : SemanticDaliError) : bool :=
  match error with
  | OperationFailed name => existsb (fun n => bool_decide (n = name)) RANDOM_ADDRESS_NO_ANSWER
  | Conflict _ => false
  end.

Definition classify_supported_device_types (supported : list Z) : ReportedType :=
  if existsb (Z.eqb DT8_DEVICE_TYPE) supported then RtDt8Color
  else if existsb (Z.eqb 6) supported then RtDt6Led else RtUnknown.

Definition declare_types (supported : list Z) : option Z :=
  fold_left (fun declared device_type =>
    match declared with
    | Some set => match type_set_insert set device_type with (true, set) => Some set | (false, _) => None end
    | None => None
    end) supported (Some 0).
Definition declared_device_types (query : SupportedDeviceTypesQuery) : option Z :=
  if negb (tq_answered query) || tq_enum_degraded query then None else declare_types (tq_supported query).

Definition declared_device_types_from_single_answer (answer : option Z) : option Z :=
  match answer with
  | None => None
  | Some answer =>
      if answer =? DEVICE_TYPE_MASK then None
      else if answer =? DEVICE_TYPE_NONE then Some 0
      else match type_set_insert 0 answer with (true, set) => Some set | (false, _) => None end
  end.

Definition color_mode_from_status (status : Z) : ReportedMode :=
  match active_colour_type status with
  | Some XyCoordinate => RmXy
  | Some ColorTemperature => RmCct
  | Some Rgbwaf => RmRgb
  | Some PrimaryN | None => RmUnknown
  end.

Definition infer_dt8_discovered_color_mode (capabilities : option Dt8Capabilities) (active : ReportedMode) : ReportedMode :=
  if negb (bool_decide (active = RmUnknown)) then active
  else match default caps_default capabilities with
       | MkCaps true false false _ => RmXy
       | MkCaps false true false _ => RmCct
       | MkCaps false false true _ => RmRgb
       | _ => RmUnknown
       end.

Definition fold_dt8_probe_into_identity (device_type : ReportedType) (dt8_status : Dt8Status) (declared : option Z) :
    ReportedType * ReportedMode * option Z :=
  if bool_decide (device_type = RtDt8Color) then (device_type, d8_color_mode dt8_status, declared)
  else if negb (d8_supported dt8_status) then (device_type, RmBrightness, declared)
  else (RtDt8Color, d8_color_mode dt8_status, option_map (fun set => snd (type_set_insert set DT8_DEVICE_TYPE)) declared).

Definition capabilities_of (features : Z) : Dt8Capabilities :=
  let channels := Z.shiftr (Z.land features DT8_RGBWAF_CHANNELS_MASK) DT8_RGBWAF_CHANNELS_SHIFT in
  MkCaps (negb (Z.land features DT8_XY_CAP =? 0)) (negb (Z.land features DT8_TC_CAP =? 0)) (0 <? channels)
    (DT8_RGB_CHANNELS <? channels).

Definition described_device (short_address : Z) (identity : DeviceIdentity) : DiscoveredDevice :=
  let cap f := match d8_capabilities (di_dt8_status identity) with Some caps => f caps | None => false end in
  MkDiscovered short_address None (di_device_type identity) (di_color_mode identity) (cap cap_xy) (cap cap_tc)
    (cap cap_rgb) (cap cap_rgbwaf) (di_type_enum_degraded identity) (di_supported_device_types identity).

Definition undescribed_device (short_address random_address : Z) : DiscoveredDevice :=
  MkDiscovered short_address (Some random_address) RtUnknown RmUnknown false false false false false None.

(** ** Device types *)

Section Walks.
Context {C : Type} `{DaliApplicationController C}.
Notation act A := (eff C (SemanticResult A)).
Implicit Type address : DaliAddress.

(** The loop over [0..=MAX_DEVICE_TYPES]. *)
Fixpoint walk_loop (address : DaliAddress) (turns : nat) (set : list Z) : act MaskWalk :=
  match turns with
  | O => ret (Ok (WalkBroken false))
  | S turns =>
      let* answer := send_standard_query_once address QueryNextDeviceType in
      match answer with
      | Ok (Some value) =>
          if value =? DEVICE_TYPE_NONE then ret (Ok (WalkComplete set))
          else if value =? DEVICE_TYPE_MASK then ret (Ok (WalkBroken false))
          else match btree_insert value set with
               | (false, _) => ret (Ok (WalkBroken true))
               | (true, set) => if MAX_DEVICE_TYPES <? Z.of_nat (List.length set) then ret (Ok (WalkBroken false))
                                else walk_loop address turns set
               end
      | Ok None => ret (Ok (WalkBroken false))
      | Err error =>
          if is_preempted error then ret (Err error)
          else if is_bus_contended error then ret (Ok (WalkBroken true)) else ret (Err error)
      end
  end.
Definition walk_mask_sequence address : act MaskWalk := walk_loop address (Z.to_nat (MAX_DEVICE_TYPES + 1)) [].

Definition enumerate_device_types address (content_confirm : ContentConfirmPolicy) : act EnumerationOutcome :=
  let! first := send_standard_query_stable content_confirm address QueryDeviceType in
  match first with
  | None => ret (Ok (EnumDone types_query_default))
  | Some first =>
      if first =? DEVICE_TYPE_NONE then ret (Ok (EnumDone (MkTypesQuery true [] false)))
      else if negb (first =? DEVICE_TYPE_MASK) then ret (Ok (EnumDone (MkTypesQuery true [first] false)))
      else let! walk := walk_mask_sequence address in
           ret (Ok (match walk with
                    | WalkComplete set => EnumDone (MkTypesQuery true set false)
                    | WalkBroken contended => EnumBroken contended
                    end))
  end.

(** The loop over [0..=DEVICE_TYPE_ENUM_RERUNS]. *)
Fixpoint enumerate_loop address (content_confirm : ContentConfirmPolicy) (turns : nat) (contended : bool) :
    act SupportedDeviceTypesQuery :=
  match turns with
  | O => ret (Err (OperationFailed (if contended then BUS_CONTENDED else DEVICE_TYPE_ENUM_INCOMPLETE)))
  | S turns =>
      let! outcome := enumerate_device_types address content_confirm in
      match outcome with
      | EnumDone supported => ret (Ok supported)
      | EnumBroken c => enumerate_loop address content_confirm turns (contended || c)
      end
  end.
Definition query_supported_device_types_with_policy address (content_confirm : ContentConfirmPolicy) :
    act SupportedDeviceTypesQuery :=
  transaction_exempt (enumerate_loop address content_confirm (Z.to_nat (DEVICE_TYPE_ENUM_RERUNS + 1)) false).

Definition read_declared_device_types address (content_confirm : ContentConfirmPolicy) : act (option Z) :=
  let! query := query_supported_device_types_with_policy address content_confirm in
  ret (Ok (declared_device_types query)).

Definition query_types_with_scan_degrade address (policy : Dt8ProbePolicy) (content_confirm : ContentConfirmPolicy) :
    act SupportedDeviceTypesQuery :=
  let* r := query_supported_device_types_with_policy address content_confirm in
  match r with
  | Ok supported => ret (Ok supported)
  | Err error =>
      match policy with
      | DiscoveryScan => if failed_with error DEVICE_TYPE_ENUM_INCOMPLETE then ret (Ok (MkTypesQuery true [] true))
                         else ret (Err error)
      | ExplicitRead => ret (Err error)
      end
  end.

(** ** Colour *)

Definition query_colour_type_features address (content_confirm : ContentConfirmPolicy) : act (option Z) :=
  send_dt8_raw_query_stable content_confirm address DT8_QUERY_COLOUR_TYPE_FEATURES.

Definition reread_colour_type_features address (content_confirm : ContentConfirmPolicy) (first : option Z) :
    act (option Z) :=
  let! reread := query_colour_type_features address content_confirm in
  let* _ := match first, reread with
            | Some 0, Some f => if negb (f =? 0) then modify (note_workaround ColourFeaturesCorrected) else ret tt
            | _, _ => ret tt
            end in
  ret (Ok (or_else reread first)).

Definition query_dt8_capabilities address (content_confirm : ContentConfirmPolicy) : act (option Dt8Capabilities) :=
  let! first := query_colour_type_features address content_confirm in
  let! features := match first with
                   | None | Some 0 => reread_colour_type_features address content_confirm first
                   | _ => ret (Ok first)
                   end in
  ret (Ok (option_map capabilities_of features)).

Definition query_dt8_color_mode_response address (content_confirm : ContentConfirmPolicy) : act (option ReportedMode) :=
  let! status := send_dt8_raw_query_stable content_confirm address DT8_QUERY_COLOUR_STATUS in
  ret (Ok (option_map color_mode_from_status status)).

Definition query_dt8_status address (allow_fallback : bool) (supported_device_types : list Z)
    (content_confirm : ContentConfirmPolicy) : act Dt8Status :=
  let advertised_dt8 := existsb (Z.eqb DT8_DEVICE_TYPE) supported_device_types in
  if negb advertised_dt8 && negb allow_fallback then ret (Ok dt8_status_default)
  else
    let! capabilities := query_dt8_capabilities address content_confirm in
    let! color_mode_response := query_dt8_color_mode_response address content_confirm in
    let supported := advertised_dt8 || is_some capabilities || is_some color_mode_response in
    if negb supported then ret (Ok dt8_status_default)
    else ret (Ok (MkDt8Status true capabilities
                    (infer_dt8_discovered_color_mode capabilities (default RmUnknown color_mode_response)))).

(** ** Identity *)

Definition probe_device_identity_with_policy address (policy : Dt8ProbePolicy) (content_confirm : ContentConfirmPolicy) :
    act DeviceIdentity :=
  let! supported := query_types_with_scan_degrade address policy content_confirm in
  let device_type := classify_supported_device_types (tq_supported supported) in
  let allow_dt8_fallback := bool_decide (device_type = RtUnknown) in
  let should_probe_dt8 :=
    match policy with
    | DiscoveryScan => bool_decide (device_type = RtDt8Color) || (allow_dt8_fallback && tq_answered supported)
    | ExplicitRead => bool_decide (device_type = RtDt8Color) || allow_dt8_fallback
    end in
  let! dt8_status := if should_probe_dt8
                     then query_dt8_status address allow_dt8_fallback (tq_supported supported) content_confirm
                     else ret (Ok dt8_status_default) in
  if negb (tq_answered supported) && negb (d8_supported dt8_status) then ret (Ok identity_default)
  else
    let '(device_type, color_mode, declared) :=
      fold_dt8_probe_into_identity device_type dt8_status (declared_device_types supported) in
    ret (Ok (MkIdentity true device_type color_mode dt8_status (tq_enum_degraded supported) declared)).

Definition probe_device_identity address (policy : Dt8ProbePolicy) : act DeviceIdentity :=
  probe_device_identity_with_policy address policy DISCOVERY_CONTENT_CONFIRM.

Definition detect_device (short_address : Z) : act (option DiscoveredDevice) :=
  let! address := ret (dali_short_address short_address) in
  let! identity := probe_device_identity address DiscoveryScan in
  if negb (di_detected identity) then ret (Ok None)
  else ret (Ok (Some (described_device short_address identity))).

(** ** Random addresses *)

Definition set_search_address (random_address : Z) : act unit :=
  let! _ := send_special (SearchAddrH (Z.land (Z.shiftr random_address 16) 0xFF)) in
  let! _ := send_special (SearchAddrM (Z.land (Z.shiftr random_address 8) 0xFF)) in
  send_special (SearchAddrL (Z.land random_address 0xFF)).

Definition read_random_address_byte address (command : StandardCommand) (unanswered : string) : act Z :=
  let! r := send_standard_response address command in
  ret (match r with
       | RespAnswer value => Ok value
       | Violation => Err (OperationFailed READ_CONTENDED_MESSAGE)
       | NoAnswer => Err (OperationFailed unanswered)
       end).

Definition read_random_address_once (short_address : Z) : act Z :=
  let! address := ret (dali_short_address short_address) in
  transaction
    (let! high := read_random_address_byte address QueryRandomAddressH "query_random_address_h_no_answer" in
     let! middle := read_random_address_byte address QueryRandomAddressM "query_random_address_m_no_answer" in
     let! low := read_random_address_byte address QueryRandomAddressL "query_random_address_l_no_answer" in
     ret (Ok (pack_random_address high middle low))).

(** The loop over [0..RANDOM_ADDRESS_MAX_SAMPLES]. *)
Fixpoint read_stable_loop (short_address : Z) (turns : nat) (samples : list Z) (unanswered : option SemanticDaliError) :
    act Z :=
  match turns with
  | O =>
      ret (Err (match unanswered, samples with
                | Some error, [] => error
                | _, _ => OperationFailed "query_random_address_unstable"
                end))
  | S turns =>
      let* r := read_random_address_once short_address in
      match r with
      | Ok sample =>
          let samples := samples ++ [sample] in
          match majority_random_address samples with
          | Some random_address => ret (Ok random_address)
          | None => read_stable_loop short_address turns samples unanswered
          end
      | Err error =>
          if is_random_address_no_answer error
          then read_stable_loop short_address turns samples (or_else unanswered (Some error))
          else ret (Err error)
      end
  end.
Definition read_random_address_stable (short_address : Z) : act Z :=
  read_stable_loop short_address RANDOM_ADDRESS_MAX_SAMPLES [] None.

(** ** The scan *)

(** The loop over [0..=MAX_SHORT_ADDRESS]. *)
Fixpoint present_loop (addresses : list Z) (shorts : list Z) : act (list Z) :=
  match addresses with
  | [] => ret (Ok shorts)
  | short_address :: addresses =>
      let! address := ret (dali_short_address short_address) in
      let! r := send_standard_response address QueryControlGearPresent in
      present_loop addresses (if is_yes r then shorts ++ [short_address] else shorts)
  end.
Definition query_present_control_gear : act (list Z) := present_loop (seqZ 0 (MAX_SHORT_ADDRESS + 1)) [].

Fixpoint read_loop (shorts : list Z) (report : PairReport) : act PairReport :=
  match shorts with
  | [] => ret (Ok report)
  | short_address :: shorts =>
      let* r := read_random_address_stable short_address in
      read_loop shorts
        match r with
        | Ok random_address => (fst report ++ [(short_address, random_address)], snd report)
        | Err error => (fst report, record_discovery_skip (snd report) error)
        end
  end.
Definition read_random_addresses (shorts : list Z) : act PairReport := read_loop shorts ([], None).

Definition begin_verify_session : act unit :=
  transaction_exempt (let! _ := send_special Terminate in send_special (Initialise 0x00)).
Definition end_verify_session : act unit :=
  transaction_exempt (let* _ := set_search_address MAX_RANDOM_ADDRESS in
                      let* _ := send_special_query Compare in
                      send_special Terminate).

Definition verify_short_random_pair_unit (short_address random_address : Z) : act VerifyPairOutcome :=
  let! _ := set_search_address random_address in
  let expected := Z.lor (shl 8 short_address 1) 0x01 in
  let! r := send_special_response QueryShortAddress in
  match r with
  | Violation => ret (Ok (Skipped (OperationFailed "query_short_address_multiple")))
  | NoAnswer => ret (Ok (Skipped (OperationFailed "query_short_address_no_answer")))
  | RespAnswer reply =>
      if negb (reply =? expected) then ret (Ok (Skipped (OperationFailed "query_short_address_mismatch")))
      else let! _ := send_special Withdraw in ret (Ok Verified)
  end.
Definition verify_short_random_pair_once (short_address random_address : Z) : act VerifyPairOutcome :=
  transaction_exempt (verify_short_random_pair_unit short_address random_address).

(** The loop over [0..attempts]; [retrying] is [attempt > 0]. *)
Fixpoint verify_pair_loop (short_address random_address : Z) (turns : nat) (retrying : bool)
    (last_skip : option SemanticDaliError) : act VerifyPairOutcome :=
  match turns with
  | O => ret (Ok (Skipped (default (OperationFailed BUS_CONTENDED) last_skip)))
  | S turns =>
      let* candidate := if retrying then read_random_address_stable short_address else ret (Ok random_address) in
      match candidate with
      | Err error => verify_pair_loop short_address random_address turns true (Some error)
      | Ok candidate =>
          let* r := verify_short_random_pair_once short_address candidate in
          match r with
          | Ok Verified => ret (Ok Verified)
          | Ok (Skipped error) | Err error => verify_pair_loop short_address random_address turns true (Some error)
          end
      end
  end.
Definition verify_short_random_pair (short_address random_address discovery_step_retries : Z) : act VerifyPairOutcome :=
  verify_pair_loop short_address random_address (Z.to_nat (sat_add 8 discovery_step_retries 1)) false None.

Fixpoint verify_loop (pairs : list (Z * Z)) (discovery_step_retries : Z) (report : PairReport) : act PairReport :=
  match pairs with
  | [] => ret (Ok report)
  | (short_address, random_address) :: pairs =>
      let! outcome := verify_short_random_pair short_address random_address discovery_step_retries in
      verify_loop pairs discovery_step_retries
        match outcome with
        | Verified => (fst report ++ [(short_address, random_address)], snd report)
        | Skipped error => (fst report, record_discovery_skip (snd report) error)
        end
  end.
Definition verify_short_random_pairs_body (pairs : list (Z * Z)) (discovery_step_retries : Z) : act PairReport :=
  verify_loop pairs discovery_step_retries ([], None).

(** The session is ended whatever the body returned. *)
Definition verify_short_random_pairs (pairs : list (Z * Z)) (discovery_step_retries : Z) : act PairReport :=
  let! _ := begin_verify_session in
  let* result := verify_short_random_pairs_body pairs discovery_step_retries in
  let* cleanup := end_verify_session in
  ret (match result, cleanup with
       | Err error, _ => Err error
       | Ok _, Err error => Err error
       | Ok report, Ok _ => Ok report
       end).

Definition describe_verified_pair (short_address random_address : Z) : act DiscoveredDevice :=
  let! detected := detect_device short_address in
  ret (Ok (default (undescribed_device short_address random_address) detected
             <| dd_random_address := Some random_address |>)).

(** With the devices [on_device] was called with. *)
Fixpoint describe_loop (pairs : list (Z * Z)) (summary : DiscoveryScanSummary) (calls : list DiscoveredDevice) :
    eff C (DiscoveryScanSummary * list DiscoveredDevice) :=
  match pairs with
  | [] => ret (summary, calls)
  | (short_address, random_address) :: pairs =>
      let* r := describe_verified_pair short_address random_address in
      match r with
      | Ok found => describe_loop pairs (summary <| sm_described := sat_add 16 (sm_described summary) 1 |>) (calls ++ [found])
      | Err error => describe_loop pairs (summary <| sm_error := record_discovery_skip (sm_error summary) error |>) calls
      end
  end.
Definition describe_verified_pairs (pairs : list (Z * Z)) (error : option SemanticDaliError) :
    eff C (DiscoveryScanSummary * list DiscoveredDevice) := describe_loop pairs (MkSummary 0 error) [].

Definition discover_known_control_gear_with_retry_budget (discovery_step_retries : Z) :
    act (DiscoveryScanSummary * list DiscoveredDevice) :=
  let! present_shorts := query_present_control_gear in
  let! read_report := read_random_addresses present_shorts in
  let! verified := verify_short_random_pairs (fst read_report) discovery_step_retries in
  let* r := describe_verified_pairs (fst verified) (or_else (snd read_report) (snd verified)) in
  ret (Ok r).

End Walks.

End Discovery.
