(* ===== verification/Commissioning.v ===== *)
(** * Commissioning of unaddressed gear

    Models [crates/dali2rust-dali-runtime/src/runtime/executor/commissioning.rs]
    (the search for the lowest random address, the programming of a found gear,
    address changes, single commissioning steps) and the loops that drive it in
    [crates/dali2rust-dali-runtime/src/runtime/dali_worker/discovery.rs].  What
    the worker publishes is returned: the devices its progress events carry. *)

From Stdlib Require Import String.
From S2P Require Import Prelude RulesBase Effects Gear GearCommand GearState Transport Controller Majority.
From S2P Require Import Executor Discovery.

Module Commissioning.
Import Gear GearCommand GearState Transport Controller Majority Executor Discovery.

Definition SHORT_ADDRESS_MASK : Z := 0x3F.
Definition SHORT_ADDRESS_SHIFT : Z := 0x01.

Definition failed (msg : string) : SemanticDaliError := OperationFailed msg.

Definition encode_program_short_address (short_address : Z) : Z :=
  Z.lor (shl 8 (Z.land short_address SHORT_ADDRESS_MASK) SHORT_ADDRESS_SHIFT) 0x01.

(** ** Outcomes *)

Inductive AttemptFailure := SearchRepeatable (error : SemanticDaliError) | GearWithdrawn (error : SemanticDaliError).
Definition attempt_error (f : AttemptFailure) : SemanticDaliError :=
  match f with SearchRepeatable e | GearWithdrawn e => e end.

Definition ADDRESS_ARM_RETRIES : Z := 2.
Definition ADDRESS_ARM_UNCONFIRMED : string := "address_arm_unconfirmed".

(** The last one is [AddressMove::Unproved]. *)
Inductive AddressMove := MoveSent | MaybeSent (error : SemanticDaliError) | MoveUnproved.

Inductive InitialiseScope := All | Unaddressed | ScopeShort.

Inductive CommissioningStep :=
  | StepInitialise | StepRandomise | StepSearchAddress | StepCompare | StepProgramShortAddress | StepVerifyShortAddress
  | StepQueryShortAddress | StepWithdraw | StepTerminate.

Record CommissioningStepOutcome := MkStepOutcome { so_backward_frame : option Z; so_backward_violation : bool }.
Definition step_outcome_default : CommissioningStepOutcome := MkStepOutcome None false.

Section Commission.
Context {C : Type} `{DaliApplicationController C}.
Notation act A := (eff C (SemanticResult A)).

(** ** The session *)

Definition begin_unaddressed_commissioning : act unit :=
  let! _ := transaction_exempt (let! _ := send_special (Initialise 0xFF) in
                                let! _ := send_special Randomise in ret (Ok tt)) in
  let* _ := modify (sleep_ms RANDOMISE_SETTLE_MS) in
  ret (Ok tt).

Definition terminate_unaddressed_commissioning : act unit := send_special Terminate.

(** ** The search *)

Definition any_unaddressed_gear : act bool :=
  let! r := send_standard_response Broadcast QueryMissingShortAddress in ret (Ok (is_yes r)).
Definition compare_yes : act bool := let! r := send_special_response Compare in ret (Ok (is_yes r)).
Definition probe_search_address (random_address : Z) : act bool :=
  transaction_exempt (let! _ := set_search_address random_address in compare_yes).

(** [while low < high]: the turns left; [search_turns] of them are enough. *)
Fixpoint search_loop (turns : nat) (low high : Z) : act Z :=
  if low <? high then
    match turns with
    | O => ret (Ok low)
    | S turns =>
        let mid := low + (high - low) / 2 in
        let! yes := probe_search_address mid in
        if yes : bool then search_loop turns low mid else search_loop turns (mid + 1) high
    end
  else ret (Ok low).
Definition search_turns : nat := 24.

Definition find_lowest_random_address : act (option Z) :=
  let! any := probe_search_address MAX_RANDOM_ADDRESS in
  if negb any then
    let! missing := any_unaddressed_gear in
    if missing : bool then ret (Err (failed "unaddressed_gear_not_reached")) else ret (Ok None)
  else
    let! low := search_loop search_turns 0 MAX_RANDOM_ADDRESS in
    let! found := probe_search_address low in
    if negb found then ret (Err (failed "random_search_inconsistent")) else ret (Ok (Some low)).

(** The [u64] of used addresses. *)
Definition used_mask (used_short_addresses : list Z) : Z :=
  fold_left (fun used short => if short <=? MAX_SHORT_ADDRESS then Z.lor used (shl 64 1 short) else used)
    used_short_addresses 0.

(** The loop over [0..=MAX_SHORT_ADDRESS]. *)
Fixpoint free_loop (used : Z) (shorts : list Z) : act (option Z) :=
  match shorts with
  | [] => ret (Ok None)
  | short :: shorts =>
      if negb (Z.land used (shl 64 1 short) =? 0) then free_loop used shorts
      else
        let! r := send_standard_response (Short short) QueryControlGearPresent in
        if is_yes r then free_loop used shorts else ret (Ok (Some short))
  end.
Definition next_free_short_address (used_short_addresses : list Z) : act (option Z) :=
  free_loop (used_mask used_short_addresses) (seqZ 0 (MAX_SHORT_ADDRESS + 1)).

(** ** One gear *)

Definition program_found_gear (random_address short_address : Z) : act unit :=
  let! _ := set_search_address random_address in
  let encoded_short := encode_program_short_address short_address in
  let! _ := send_special (ProgramShortAddress encoded_short) in
  let! r := send_special_response (VerifyShortAddress encoded_short) in
  if negb (is_yes r) then ret (Err (failed "verify_short_address_failed"))
  else send_special Withdraw.

(** The loop over [0..attempts]. *)
Fixpoint detect_loop (short_address : Z) (turns : nat) (last : SemanticDaliError) : act DiscoveredDevice :=
  match turns with
  | O => ret (Err last)
  | S turns =>
      let* r := detect_device short_address in
      match r with
      | Ok (Some device) => ret (Ok device)
      | Ok None => detect_loop short_address turns last
      | Err error => if is_held error then ret (Err error) else detect_loop short_address turns error
      end
  end.
Definition detect_programmed_device (short_address detect_retries : Z) : act DiscoveredDevice :=
  detect_loop short_address (Z.to_nat (sat_add 8 detect_retries 1)) (failed "programmed_device_not_present").

Definition commission_next_unaddressed_once (used_short_addresses : list Z) (detect_retries : Z) :
    eff C (Result (option DiscoveredDevice) AttemptFailure) :=
  let! found := map_err SearchRepeatable find_lowest_random_address in
  match found with
  | None => ret (Ok None)
  | Some random_address =>
      let! free := map_err SearchRepeatable (next_free_short_address used_short_addresses) in
      match free with
      | None => ret (Err (GearWithdrawn (Conflict "no_free_short_address")))
      | Some short_address =>
          let! _ := map_err SearchRepeatable (transaction_exempt (program_found_gear random_address short_address)) in
          map_err GearWithdrawn
            (let! device := detect_programmed_device short_address detect_retries in ret (Ok (Some device)))
      end
  end.

Definition commission_next_unaddressed (used_short_addresses : list Z) : act (option DiscoveredDevice) :=
  map_err attempt_error (commission_next_unaddressed_once used_short_addresses 0).

(** The loop over [0..attempts]; the last attempt has no turns left. *)
Fixpoint commission_next_loop (used_short_addresses : list Z) (retries : Z) (turns : nat) :
    act (option DiscoveredDevice) :=
  match turns with
  | O => ret (Err (failed BUS_CONTENDED))
  | S turns =>
      let* r := commission_next_unaddressed_once used_short_addresses retries in
      match r with
      | Ok result => ret (Ok result)
      | Err (GearWithdrawn error) => ret (Err error)
      | Err (SearchRepeatable error) =>
          if is_held error then ret (Err error) else commission_next_loop used_short_addresses retries turns
      end
  end.
Definition commission_next_unaddressed_with_retry_budget (used_short_addresses : list Z) (discovery_step_retries : Z) :
    act (option DiscoveredDevice) :=
  commission_next_loop used_short_addresses discovery_step_retries (Z.to_nat (sat_add 8 discovery_step_retries 1)).

(** ** The loops of the worker *)

(** [loop] of [commission_unaddressed_drain], on fuel: [None] when it runs out.
    With the used addresses and the progress published. *)
Fixpoint commission_unaddressed_drain (fuel : nat) (retries : Z) (used_shorts : list Z)
    (published : list DiscoveredDevice) :
    eff C (option (SemanticResult unit) * (list Z * list DiscoveredDevice)) :=
  match fuel with
  | O => ret (None, (used_shorts, published))
  | S fuel =>
      let* r := commission_next_unaddressed_with_retry_budget used_shorts retries in
      match r with
      | Ok (Some found) =>
          commission_unaddressed_drain fuel retries (used_shorts ++ [dd_short_address found]) (published ++ [found])
      | Ok None => ret (Some (Ok tt), (used_shorts, published))
      | Err error => ret (Some (Err error), (used_shorts, published))
      end
  end.

(** The gear is taken out of the session whatever the drain returned. *)
Definition commission_unaddressed_once (fuel : nat) (retries : Z) (used_shorts : list Z) :
    eff C (option (SemanticResult unit) * (list Z * list DiscoveredDevice)) :=
  let* begun := begin_unaddressed_commissioning in
  match begun with
  | Err error => ret (Some (Err error), (used_shorts, []))
  | Ok _ =>
      let* r := commission_unaddressed_drain fuel retries used_shorts [] in
      let* cleanup := terminate_unaddressed_commissioning in
      ret (option_map (fun result => match result, cleanup with
                                     | Err error, _ => Err error
                                     | Ok _, Err error => Err error
                                     | Ok _, Ok _ => Ok tt
                                     end) (fst r), snd r)
  end.

(** The loop over [0..attempts]. *)
Fixpoint commission_loop (fuel : nat) (retries : Z) (turns : nat) (used_shorts : list Z)
    (published : list DiscoveredDevice) :
    eff C (option (SemanticResult unit) * (list Z * list DiscoveredDevice)) :=
  match turns with
  | O => ret (Some (Err (failed BUS_CONTENDED)), (used_shorts, published))
  | S turns =>
      let* r := commission_unaddressed_once fuel retries used_shorts in
      let '(result, (used_shorts, more)) := r in
      match result with
      | Some (Err error) =>
          if is_bus_contended error && negb (Nat.eqb turns 0)
          then commission_loop fuel retries turns used_shorts (published ++ more)
          else ret (result, (used_shorts, published ++ more))
      | _ => ret (result, (used_shorts, published ++ more))
      end
  end.
Definition commission_unaddressed_loop (fuel : nat) (retries : Z) (used_shorts : list Z) :
    eff C (option (SemanticResult unit) * (list Z * list DiscoveredDevice)) :=
  commission_loop fuel retries (Z.to_nat (sat_add 8 retries 1)) used_shorts [].

(** ** Known addresses *)

Fixpoint discover_refresh_known (shorts : list Z) (published : list DiscoveredDevice) :
    eff C (SemanticResult unit * list DiscoveredDevice) :=
  match shorts with
  | [] => ret (Ok tt, published)
  | short_address :: shorts =>
      let* r := detect_device short_address in
      match r with
      | Err error => ret (Err error, published)
      | Ok found => discover_refresh_known shorts (published ++ option_list found)
      end
  end.

Definition confirmed_mask (devices : list DiscoveredDevice) : Z :=
  fold_left (fun mask d => Z.lor mask (shl 64 1 (Z.land (dd_short_address d) 0x3F))) devices 0.

(** The loop of [discover_scan_all]: the progress published and the mask of the
    reconciled event, when it is published. *)
Fixpoint scan_loop (retries : Z) (turns : nat) (published : list DiscoveredDevice) :
    eff C (SemanticResult unit * (list DiscoveredDevice * option Z)) :=
  match turns with
  | O => ret (Err (failed BUS_CONTENDED), (published, None))
  | S turns =>
      let* r := discover_known_control_gear_with_retry_budget retries in
      match r with
      | Err error => ret (Err error, (published, None))
      | Ok (summary, calls) =>
          let published := published ++ calls in
          match sm_error summary with
          | None => ret (Ok tt, (published, Some (confirmed_mask calls)))
          | Some error =>
              if is_bus_contended error && negb (0 <? sm_described summary) && negb (Nat.eqb turns 0)
              then scan_loop retries turns published
              else ret (Err error, (published, None))
          end
      end
  end.
Definition discover_scan_all (retries : Z) : eff C (SemanticResult unit * (list DiscoveredDevice * option Z)) :=
  scan_loop retries (Z.to_nat (sat_add 8 retries 1)) [].

(** ** Address changes *)

Definition identify_device (short_address : Z) : act unit :=
  let! address := ret (ok_or (short short_address) (failed "identify: short address out of range")) in
  let! _ := send_standard address IdentifyDevice in
  ret (Ok tt).

Definition answers_at (short_address : Z) : act bool :=
  let! target := ret (ok_or (short short_address) (failed "address_change: target out of range")) in
  let! v := send_standard_query target QueryStatus in
  ret (Ok (is_some v)).

(** [pair_tried] is the variable the closure captures. *)
Definition arm_and_move (current : DaliAddress) (encoded : Z) (pair_tried : bool) : eff C (SemanticResult bool * bool) :=
  let* r := send_special (Dtr0 encoded) in
  match r with
  | Err error => ret (Err error, pair_tried)
  | Ok _ =>
      let* r := send_standard_query current QueryContentDtr0 in
      match r with
      | Err error => ret (Err error, pair_tried)
      | Ok echo =>
          if negb (bool_decide (echo = Some encoded)) then ret (Ok false, pair_tried)
          else let* r := send_standard current SetShortAddress in
               ret (result_map (fun _ => true) r, true)
      end
  end.

(** The loop over [0..=ADDRESS_ARM_RETRIES]. *)
Fixpoint arm_loop (current : DaliAddress) (encoded : Z) (turns : nat) (pair_tried : bool) : act AddressMove :=
  match turns with
  | O => ret (Ok (if pair_tried then MaybeSent (failed ADDRESS_ARM_UNCONFIRMED) else MoveUnproved))
  | S turns =>
      let* r := unit_exempt (arm_and_move current encoded) pair_tried in
      match r with
      | (Ok true, _) => ret (Ok MoveSent)
      | (Ok false, pair_tried) => arm_loop current encoded turns pair_tried
      | (Err error, pair_tried) => ret (if pair_tried : bool then Ok (MaybeSent error) else Err error)
      end
  end.
Definition set_short_address_proved (current : DaliAddress) (encoded : Z) : act AddressMove :=
  arm_loop current encoded (Z.to_nat (ADDRESS_ARM_RETRIES + 1)) false.

Definition change_short_address (short_address new_short_address : Z) (verify : bool) : act unit :=
  if short_address =? new_short_address then ret (Err (failed "address_change_same_address"))
  else
    let! current := ret (ok_or (short short_address) (failed "address_change: source out of range")) in
    if MAX_SHORT_ADDRESS <? new_short_address then ret (Err (failed "address_change: target out of range"))
    else
      let! move := set_short_address_proved current (encode_program_short_address new_short_address) in
      match move with
      | MoveSent =>
          if verify then
            let! there := answers_at new_short_address in
            if negb there then ret (Err (failed VERIFY_FAILED_MESSAGE)) else ret (Ok tt)
          else ret (Ok tt)
      | MaybeSent error =>
          let! there := answers_at new_short_address in
          if there : bool then ret (Ok tt) else ret (Err error)
      | MoveUnproved => ret (Err (failed ADDRESS_ARM_UNCONFIRMED))
      end.

Definition replace_device (failed_short_address replacement_short_address : Z) : act unit :=
  if failed_short_address =? replacement_short_address
  then ret (Err (failed "replace: failed and replacement are the same address"))
  else
    let! detected := detect_device failed_short_address in
    if is_some detected then ret (Err (failed VERIFY_FAILED_MESSAGE))
    else change_short_address replacement_short_address failed_short_address true.

(** ** Single steps *)

Definition initialise_data (scope : InitialiseScope) (short_address : option Z) : SemanticResult Z :=
  match scope with
  | All => Ok 0x00
  | Unaddressed => Ok 0xFF
  | ScopeShort =>
      match short_address with
      | Some s => if s <=? MAX_SHORT_ADDRESS then Ok (encode_program_short_address s)
                  else Err (failed "initialise scope=short needs a valid short_address")
      | None => Err (failed "initialise scope=short needs a valid short_address")
      end
  end.

(** [program] says which of the two messages of [require_short] it is. *)
Definition require_short (short_address : option Z) (program : bool) : SemanticResult Z :=
  let error := failed (if program then "program-short-address needs a short_address"
                       else "verify-short-address needs a short_address") in
  match short_address with
  | Some short => if short <=? MAX_SHORT_ADDRESS then Ok short else Err error
  | None => Err error
  end.

Definition run_write_step (step : CommissioningStep) (scope : option InitialiseScope) (short_address : option Z)
    (search_address : option Z) : act unit :=
  match step with
  | StepInitialise =>
      let! scope := ret (ok_or scope (failed "initialise needs a scope")) in
      let! data := ret (initialise_data scope short_address) in
      send_special (Initialise data)
  | StepRandomise => send_special Randomise
  | StepSearchAddress =>
      let! addr := ret (ok_or search_address (failed "search-address needs a search_address")) in
      if MAX_RANDOM_ADDRESS <? addr then ret (Err (failed "search_address does not fit in 24 bits"))
      else transaction_exempt (set_search_address addr)
  | StepProgramShortAddress =>
      let! short := ret (require_short short_address true) in
      send_special (ProgramShortAddress (encode_program_short_address short))
  | StepWithdraw => send_special Withdraw
  | StepTerminate => send_special Terminate
  | StepCompare | StepVerifyShortAddress | StepQueryShortAddress =>
      ret (Err (failed "step expects a reply and must not take the write path"))
  end.

Definition step_outcome_of (r : DaliResponse) : CommissioningStepOutcome :=
  match r with
  | RespAnswer byte => MkStepOutcome (Some byte) false
  | Violation => MkStepOutcome None true
  | NoAnswer => step_outcome_default
  end.

Definition run_query_step (step : CommissioningStep) (short_address : option Z) : act CommissioningStepOutcome :=
  let! command := ret (match step with
                       | StepCompare => Ok Compare
                       | StepVerifyShortAddress =>
                           result_map (fun s => VerifyShortAddress (encode_program_short_address s))
                             (require_short short_address false)
                       | StepQueryShortAddress => Ok QueryShortAddress
                       | _ => Err (failed "step expects no reply and must not take the query path")
                       end) in
  let! r := send_special_response command in
  ret (Ok (step_outcome_of r)).

Definition run_commissioning_step (step : CommissioningStep) (scope : option InitialiseScope)
    (short_address search_address : option Z) : act CommissioningStepOutcome :=
  match step with
  | StepCompare | StepVerifyShortAddress | StepQueryShortAddress => run_query_step step short_address
  | _ => let! _ := run_write_step step scope short_address search_address in ret (Ok step_outcome_default)
  end.

End Commission.

End Commissioning.
