(* ===== verification/CalmBus.v ===== *)
(** * The bus an executor runs against

    [CalmBus] is what an implementation of [DaliApplicationController] promises
    on a bus where nobody else transmits and nothing holds the wire: every
    command reaches the fleet as its frames, in order and once, and its response
    is what the fleet answered; a bracket runs its closure once.  [does] is the
    triple the executors are proved with. *)

From Stdlib Require Import String.
From S2P Require Import Prelude RulesBase Effects Gear GearCommand GearState Transport Banks GearModel Fleet.
From S2P Require Import FleetLaws Controller Majority Executor.

Module CalmBus.
Import Gear GearCommand GearState Transport Banks GearModel Fleet FleetLaws Controller Majority Executor.

(** ** Frames on the wire *)

(** The fleet and a time before which no frame is executed any more. *)
Definition View : Type := GearFleet * Z.

(** What the controller reports of an outcome: overlapping answers read as any
    byte or as a violation, but never as silence. *)
Definition heard (expects_backward : bool) (o : TransferOutcome) (r : DaliResponse) : Prop :=
  if expects_backward then
    match o with
    | OutAnswer v => r = RespAnswer v
    | OutNoAnswer => r = NoAnswer
    | OutCorruptedInWindow => is_yes r = true
    | _ => False
    end
  else r = NoAnswer.

Definition plays (frame : Z) (expects_backward : bool) (v : View) (o : TransferOutcome) (v' : View) : Prop :=
  exists t, snd v <= t <= snd v' /\ exchange (advance_to_ms (fst v) t) frame expects_backward = (o, fst v').

(** The frames of a command: the enabling one, the command, its repetition. *)
Definition delivers (cmd : DaliCommand) (v : View) (r : DaliResponse) (v' : View) : Prop :=
  let frame := command_frame cmd in
  let q := is_query cmd in
  exists v1 o,
    match enable_frame cmd with Some e => exists o1, plays e false v o1 v1 | None => v1 = v end /\
    (if requires_repeat cmd then exists v2 o2, plays frame q v1 o2 v2 /\ plays frame q v2 o v' else plays frame q v1 o v') /\
    heard q o r.

Definition all_ok {A E} (r : Result A E) (P : A -> Prop) : Prop := match r with Ok a => P a | Err _ => False end.

(** ** The interface *)

Class CalmBus (C : Type) {HC : DaliApplicationController C} := {
  fleet_of : C -> GearFleet;
  time_of : C -> Z;
  calm : C -> Prop;
  calm_clock : forall c, calm c -> fl_now_ms (fleet_of c) <= time_of c;
  calm_send : forall cmd c, calm c ->
    wp (send_command_observed cmd) (fun r c' => calm c' /\
      all_ok r (fun x => delivers cmd (fleet_of c, time_of c) (fst x) (fleet_of c', time_of c'))) c;
  calm_raw_once : forall frame c, calm c ->
    wp (send_raw_once frame true) (fun r c' => calm c' /\
      all_ok r (fun x => exists o, plays frame true (fleet_of c, time_of c) o (fleet_of c', time_of c') /\
                                   heard true o (fst x) /\ snd x = false)) c;
  calm_enabled_query : forall enable frame c, calm c ->
    wp (send_raw_enabled_query enable frame) (fun r c' => calm c' /\
      all_ok r (fun x => exists v1 o1 o, plays enable false (fleet_of c, time_of c) o1 v1 /\
                                         plays frame true v1 o (fleet_of c', time_of c') /\ heard true o (fst x))) c;
  calm_transaction : forall R (run : eff C R) (Q : R -> View -> Prop) c, calm c ->
    (forall c1, calm c1 -> fleet_of c1 = fleet_of c -> time_of c1 = time_of c ->
       wp run (fun r c' => calm c' /\ Q r (fleet_of c', time_of c')) c1) ->
    wp (transaction run) (fun r c' => calm c' /\ Q r (fleet_of c', time_of c')) c;
  calm_transaction_exempt : forall R (run : eff C R) (Q : R -> View -> Prop) c, calm c ->
    (forall c1, calm c1 -> fleet_of c1 = fleet_of c -> time_of c1 = time_of c ->
       wp run (fun r c' => calm c' /\ Q r (fleet_of c', time_of c')) c1) ->
    wp (transaction_exempt run) (fun r c' => calm c' /\ Q r (fleet_of c', time_of c')) c;
  calm_unit_exempt : forall S R (run : S -> eff C (R * S)) s (Q : R * S -> View -> Prop) c, calm c ->
    (forall c1, calm c1 -> fleet_of c1 = fleet_of c -> time_of c1 = time_of c ->
       wp (run s) (fun r c' => calm c' /\ Q r (fleet_of c', time_of c')) c1) ->
    wp (unit_exempt run s) (fun r c' => calm c' /\ Q r (fleet_of c', time_of c')) c;
  calm_step_boundary : forall c, calm c ->
    calm (snd (step_boundary c)) /\ fleet_of (snd (step_boundary c)) = fleet_of c /\ time_of (snd (step_boundary c)) = time_of c;
  calm_workaround : forall k c, calm c ->
    calm (note_workaround k c) /\ fleet_of (note_workaround k c) = fleet_of c /\ time_of (note_workaround k c) = time_of c;
  calm_sleep : forall ms c, calm c ->
    calm (sleep_ms ms c) /\ fleet_of (sleep_ms ms c) = fleet_of c /\ Z.min (umax 64) (time_of c + ms) <= time_of (sleep_ms ms c) }.

(** ** Triples *)

Section Triples.
Context {C : Type} {HC : DaliApplicationController C} {HB : CalmBus C}.
Implicit Types (f : GearFleet) (c : C).

(** The fleet as the next frame finds it, at the earliest. *)
Definition now_fleet c : GearFleet := advance_to_ms (fleet_of c) (time_of c).

(** Run on a calm bus whose fleet is [f], with nothing ripening, [m] ends on a
    calm bus with nothing ripening and its result and fleet satisfy [Q]. *)
Definition does {A} (m : eff C A) (Q : A -> GearFleet -> Prop) f : Prop :=
  forall c, calm c -> now_fleet c = f -> settled f ->
    wp m (fun r c' => calm c' /\ settled (now_fleet c') /\ Q r (now_fleet c')) c.

Lemma does_ret {A} (a : A) Q f : Q a f -> does (ret a) Q f.
Proof. intros HQ c Hc <- Hs. unfold wp. cbn. auto. Qed.

Lemma does_bind {A B} (m : eff C A) (k : A -> eff C B) Q f : does m (fun a => does (k a) Q) f -> does (bind m k) Q f.
Proof.
  intros H c Hc Hf Hs. apply wp_bind. eapply wp_mono; [exact (H c Hc Hf Hs)|]. cbn. intros a c' (Hc' & Hs' & HQ).
  exact (HQ c' Hc' eq_refl Hs').
Qed.

Lemma does_bind_ok {A B E} (m : eff C (Result A E)) (k : A -> eff C (Result B E)) Q f :
  does m (fun r f' => match r with Ok a => does (k a) Q f' | Err e => Q (Err e) f' end) f -> does (bind_ok m k) Q f.
Proof.
  intros H c Hc Hf Hs. apply wp_bind_ok. eapply wp_mono; [exact (H c Hc Hf Hs)|]. cbn. intros [a|e] c' (Hc' & Hs' & HQ).
  - exact (HQ c' Hc' eq_refl Hs').
  - auto.
Qed.

Lemma does_map_err {A E F} (g : E -> F) (m : eff C (Result A E)) Q f :
  does m (fun r f' => match r with Ok a => Q (Ok a) f' | Err e => Q (Err (g e)) f' end) f -> does (map_err g m) Q f.
Proof.
  intros H c Hc Hf Hs. apply wp_map_err. eapply wp_mono; [exact (H c Hc Hf Hs)|]. cbn. intros [a|e] c' (Hc' & Hs' & HQ); auto.
Qed.

Lemma does_mono {A} (m : eff C A) (Q R : A -> GearFleet -> Prop) f :
  does m Q f -> (forall a f', settled f' -> Q a f' -> R a f') -> does m R f.
Proof.
  intros H HR c Hc Hf Hs. eapply wp_mono; [exact (H c Hc Hf Hs)|]. cbn. intros a c' (Hc' & Hs' & HQ). auto.
Qed.

(** The brackets are transparent. *)
Lemma does_transaction {A} (m : eff C A) Q f : does m Q f -> does (transaction m) Q f.
Proof.
  intros H c Hc Hf Hs.
  apply (calm_transaction A m (fun r v => settled (advance_to_ms (fst v) (snd v)) /\ Q r (advance_to_ms (fst v) (snd v))) c Hc).
  intros c1 Hc1 Ef Et. apply (H c1 Hc1); [|assumption]. unfold now_fleet in *. congruence.
Qed.

Lemma does_transaction_exempt {A} (m : eff C A) Q f : does m Q f -> does (transaction_exempt m) Q f.
Proof.
  intros H c Hc Hf Hs.
  apply (calm_transaction_exempt A m (fun r v => settled (advance_to_ms (fst v) (snd v)) /\ Q r (advance_to_ms (fst v) (snd v))) c Hc).
  intros c1 Hc1 Ef Et. apply (H c1 Hc1); [|assumption]. unfold now_fleet in *. congruence.
Qed.

Lemma does_unit_exempt {S A} (run : S -> eff C (A * S)) s Q f : does (run s) Q f -> does (unit_exempt run s) Q f.
Proof.
  intros H c Hc Hf Hs.
  apply (calm_unit_exempt S A run s (fun r v => settled (advance_to_ms (fst v) (snd v)) /\ Q r (advance_to_ms (fst v) (snd v))) c Hc).
  intros c1 Hc1 Ef Et. apply (H c1 Hc1); [|assumption]. unfold now_fleet in *. congruence.
Qed.

Lemma does_step_boundary Q f : Q tt f -> does step_boundary Q f.
Proof.
  intros HQ c Hc Hf Hs. destruct (calm_step_boundary c Hc) as (Hc' & Ef & Et). unfold wp.
  assert (now_fleet (snd (step_boundary c)) = f) as -> by (unfold now_fleet in *; congruence). destruct (fst (step_boundary c)). auto.
Qed.

Lemma does_workaround k Q f : Q tt f -> does (modify (note_workaround k)) Q f.
Proof.
  intros HQ c Hc Hf Hs. destruct (calm_workaround k c Hc) as (Hc' & Ef & Et). unfold wp. cbn.
  assert (now_fleet (note_workaround k c) = f) as -> by (unfold now_fleet in *; congruence). auto.
Qed.

(** *** One frame *)

(** [f'] is [f] but for the time. *)
Definition at_time (f : GearFleet) (t : Z) : GearFleet := f <| fl_now_ms := t |>.

Lemma now_fleet_at c : settled (now_fleet c) -> forall t, time_of c <= t ->
  advance_to_ms (fleet_of c) t = at_time (now_fleet c) (Z.max (fl_now_ms (now_fleet c)) t).
Proof.
  intros Hs t Ht. unfold now_fleet in *. rewrite <- (advance_twice (fleet_of c) (time_of c) t Ht).
  rewrite (advance_settled _ t Hs). reflexivity.
Qed.

(** A frame that leaves the fleet settled, followed by some time. *)
Lemma plays_now c frame eb o v' :
  settled (now_fleet c) -> plays frame eb (fleet_of c, time_of c) o v' ->
  exists t, exchange (at_time (now_fleet c) t) frame eb = (o, fst v').
Proof.
  intros Hs (t & [Ht _] & E). cbn [fst snd] in *. rewrite (now_fleet_at c Hs t Ht) in E. eauto.
Qed.

Lemma settled_now c f : fleet_of c = f -> settled f -> exists t, now_fleet c = at_time f t.
Proof. intros <- Hs. unfold now_fleet. rewrite advance_settled by assumption. eauto. Qed.

(** The rule of a command of one frame. *)
Lemma does_send_observed cmd (Q : Result (DaliResponse * bool) ctl_error -> GearFleet -> Prop) f :
  enable_frame cmd = None -> requires_repeat cmd = false ->
  (forall t o f', settled f -> exchange (at_time f t) (command_frame cmd) (is_query cmd) = (o, f') -> settled f') ->
  (forall t o f' r b t', exchange (at_time f t) (command_frame cmd) (is_query cmd) = (o, f') -> heard (is_query cmd) o r ->
     Q (Ok (r, b)) (at_time f' t')) ->
  does (send_command_observed cmd) Q f.
Proof.
  intros He Hr Hset HQ c Hc Hf Hs.
  eapply wp_mono; [exact (calm_send cmd c Hc)|]. cbn. intros [[r b]|e] c' [Hc' H]; [|destruct H]. cbn in H.
  destruct H as (v1 & o & Hv & Hp & Hh). rewrite He in Hv. subst v1. rewrite Hr in Hp.
  assert (settled (now_fleet c)) as Hs' by now rewrite Hf.
  destruct (plays_now c _ _ _ _ Hs' Hp) as (t & E). rewrite Hf in E. cbn in E.
  pose proof (Hset _ _ _ Hs E) as Hsf. destruct (settled_now c' _ eq_refl Hsf) as (t' & Et).
  split; [assumption|]. rewrite Et. split; [assumption|]. eapply HQ; eassumption.
Qed.

Lemma does_send cmd (Q : Result DaliResponse ctl_error -> GearFleet -> Prop) f :
  enable_frame cmd = None -> requires_repeat cmd = false ->
  (forall t o f', settled f -> exchange (at_time f t) (command_frame cmd) (is_query cmd) = (o, f') -> settled f') ->
  (forall t o f' r t', exchange (at_time f t) (command_frame cmd) (is_query cmd) = (o, f') -> heard (is_query cmd) o r ->
     Q (Ok r) (at_time f' t')) ->
  does (send_command cmd) Q f.
Proof.
  intros He Hr Hset HQ. unfold send_command. apply does_bind_ok. apply does_send_observed; [assumption..|].
  intros t o f' r b t' E Hh. apply does_ret. eapply HQ; eassumption.
Qed.

Lemma does_semantic {A} (m : eff C (Result A ctl_error)) Q f :
  does m (fun r f' => match r with
                      | Ok a => Q (Ok a) f'
                      | Err e => Q (Err (map_transport_error (ctl_debug e))) f'
                      end) f -> does (semantic m) Q f.
Proof. apply does_map_err. Qed.

(** *** What a frame leaves of the bus *)

Definition bus_step (K : GearCore -> GearCore) (search : Z) (f f' : GearFleet) : Prop :=
  cores f' = map K (cores f) /\ search_of f' = search /\ fl_rng f' = fl_rng f /\ fl_reserved f' = fl_reserved f.

Definition keeps_pending (K : GearCore -> GearCore) : Prop := forall k, k_pending (K k) = k_pending k.

Lemma settled_step K search f f' : keeps_pending K -> settled f -> bus_step K search f f' -> settled f'.
Proof.
  intros HK Hs (E & _). unfold settled in *. rewrite E, List.Forall_map. eapply List.Forall_impl; [|exact Hs].
  intros k Hk. unfold k_settled in *. now rewrite HK.
Qed.

Lemma special_keeps s search reserved : keeps_pending (special_core s search reserved).
Proof. intros k. destruct s; cbn; try reflexivity; destruct (_ && _); reflexivity. Qed.

Lemma special_step s f t o f' :
  special_ok s -> quiet_special s = true -> exchange (at_time f t) (special_frame s) (special_expects_backward s) = (o, f') ->
  bus_step (special_core s (search_of f) (fl_reserved f)) (special_search s (search_of f)) f f' /\
  o = merge_answers (yes_answers (special_yes s (search_of f)) (cores f)).
Proof.
  intros Hok Hq E. pose proof (exchange_quiet (at_time f t) s (special_expects_backward s) Hok Hq) as H.
  rewrite E in H. destruct H as (Ec & Es & (Er & Ev & _) & Eo). repeat split; assumption.
Qed.

Lemma does_special s (Q : SemanticResult DaliResponse -> GearFleet -> Prop) f :
  special_ok s -> quiet_special s = true ->
  (forall r f', bus_step (special_core s (search_of f) (fl_reserved f)) (special_search s (search_of f)) f f' ->
     heard (special_expects_backward s) (merge_answers (yes_answers (special_yes s (search_of f)) (cores f))) r ->
     Q (Ok r) f') ->
  does (send_special_response s) Q f.
Proof.
  intros Hok Hq HQ. apply does_semantic. apply (does_send (Special s)); [reflexivity|now destruct s| |].
  - intros t o f' Hs E. destruct (special_step s f t o f' Hok Hq E) as [Hb _].
    eapply settled_step; [apply special_keeps|exact Hs|exact Hb].
  - intros t o f' r t' E Hh. destruct (special_step s f t o f' Hok Hq E) as [(Ec & Es & Er & Ev) ->].
    apply HQ; [repeat split; assumption|exact Hh].
Qed.

Lemma does_send_special s (Q : SemanticResult unit -> GearFleet -> Prop) f :
  special_ok s -> quiet_special s = true ->
  (forall f', bus_step (special_core s (search_of f) (fl_reserved f)) (special_search s (search_of f)) f f' -> Q (Ok tt) f') ->
  does (send_special s) Q f.
Proof.
  intros Hok Hq HQ. unfold send_special. apply does_bind_ok.
  apply (does_special s); [assumption..|]. intros r f' Hb _. apply does_ret. now apply HQ.
Qed.

(** *** Queries *)

Lemma query_step a (c : StandardCommand) f t o f' :
  address_ok a -> standard_ok c -> standard_is_query c = true -> reads_register c = false -> Forall k_answers (cores f) ->
  exchange (at_time f t) (query_frame a c) true = (o, f') ->
  bus_step id (search_of f) f f' /\ after_query a c (at_time f t) (o, f').
Proof.
  intros Ha Hc Hq Hr Hd E. pose proof (exchange_query_law (at_time f t) a c true Ha Hc Hq Hr Hd) as H. rewrite E in H.
  split; [|exact H]. destruct H as (_ & Ec & Es & (Er & Ev & _) & _). cbn [snd] in *.
  repeat split; try assumption. now rewrite Ec, map_id.
Qed.

(** A query for which the fleet need only keep its cores. *)
Lemma does_command_query a (c : StandardCommand) (Q : Result (DaliResponse * bool) ctl_error -> GearFleet -> Prop) f :
  address_ok a -> standard_ok c -> standard_is_query c = true -> reads_register c = false -> Forall k_answers (cores f) ->
  (forall t t' o f1 r b, after_query a c (at_time f t) (o, f1) -> bus_step id (search_of f) f (at_time f1 t') ->
     heard true o r -> Q (Ok (r, b)) (at_time f1 t')) ->
  does (send_command_observed (Standard a c)) Q f.
Proof.
  intros Ha Hc Hq Hr Hd HQ.
  apply does_send_observed; cbn [is_query]; rewrite ?Hq; [reflexivity|now destruct c| |].
  - intros t o f' Hs E. destruct (query_step a c f t o f' Ha Hc Hq Hr Hd E) as [Hb _].
    eapply settled_step; [|exact Hs|exact Hb]. intros k; reflexivity.
  - intros t o f' r b t' E Hh. destruct (query_step a c f t o f' Ha Hc Hq Hr Hd E) as [(Ec & Es & Er & Ev) Haf].
    eapply HQ; [exact Haf|repeat split; assumption|exact Hh].
Qed.

Lemma does_query a (c : StandardCommand) (Q : SemanticResult DaliResponse -> GearFleet -> Prop) f :
  address_ok a -> standard_ok c -> standard_is_query c = true -> reads_register c = false -> Forall k_answers (cores f) ->
  (forall t t' o f1 r, after_query a c (at_time f t) (o, f1) -> bus_step id (search_of f) f (at_time f1 t') ->
     heard true o r -> Q (Ok r) (at_time f1 t')) ->
  does (send_standard_response a c) Q f.
Proof.
  intros Ha Hc Hq Hr Hd HQ. unfold send_standard_response, send_standard. apply does_semantic. unfold send_command.
  apply does_bind_ok, does_command_query; [assumption..|]. intros t t' o f1 r b Haf Hb Hh. apply does_ret. cbn [fst]. eauto.
Qed.

Lemma does_query_observed a (c : StandardCommand) (Q : SemanticResult (option Z * bool) -> GearFleet -> Prop) f :
  address_ok a -> standard_ok c -> standard_is_query c = true -> reads_register c = false -> Forall k_answers (cores f) ->
  (forall t t' o f1 r b, after_query a c (at_time f t) (o, f1) -> bus_step id (search_of f) f (at_time f1 t') ->
     heard true o r -> Q (Ok (observed (r, b))) (at_time f1 t')) ->
  does (send_standard_query_observed a c) Q f.
Proof.
  intros Ha Hc Hq Hr Hd HQ. unfold send_standard_query_observed. apply does_bind_ok, does_semantic.
  apply does_command_query; [assumption..|]. intros t t' o f1 r b Haf Hb Hh. apply does_ret. eauto.
Qed.

(** A query whose answer the cores decide. *)
Lemma does_identity a (c : StandardCommand) (Q : SemanticResult DaliResponse -> GearFleet -> Prop) f :
  address_ok a -> no_group a -> identity_query c = true -> Forall k_answers (cores f) ->
  (forall r f', bus_step id (search_of f) f f' -> heard true (merge_answers (core_answers a c (cores f))) r -> Q (Ok r) f') ->
  does (send_standard_response a c) Q f.
Proof.
  intros Ha Hg Hi Hd HQ. apply does_query; try assumption; try (now destruct c).
  intros t t' o f1 r (_ & _ & _ & _ & Eo) Hb Hh. apply HQ; [exact Hb|]. cbn [fst] in Eo. rewrite Eo in Hh.
  change (fl_gears (at_time f t)) with (fl_gears f) in Hh. now rewrite identity_answers in Hh.
Qed.

(** *** What was heard *)

Lemma heard_yes (p : GearCore -> bool) ks r : heard true (merge_answers (yes_answers p ks)) r -> is_yes r = existsb p ks.
Proof.
  unfold yes_answers.
  assert (existsb p ks = negb (Nat.eqb (List.length (List.filter p ks)) 0)) as ->.
  { induction ks as [|k ks IH]; [reflexivity|]. cbn. destruct (p k); [reflexivity|exact IH]. }
  destruct (List.filter p ks) as [|? [|? ?]]; cbn; intros Hh; subst; try reflexivity. exact Hh.
Qed.

Lemma heard_constant (p : GearCore -> bool) v ks r :
  heard true (merge_answers (omap (fun k => if p k then Some v else None) ks)) r -> is_yes r = existsb p ks.
Proof.
  assert (omap (fun k => if p k then Some v else None) ks = map (fun _ => v) (List.filter p ks)) as ->.
  { induction ks as [|k ks IH]; [reflexivity|]. cbn. destruct (p k); cbn; [f_equal|]; exact IH. }
  assert (existsb p ks = negb (Nat.eqb (List.length (List.filter p ks)) 0)) as ->.
  { induction ks as [|k ks IH]; [reflexivity|]. cbn. destruct (p k); [reflexivity|exact IH]. }
  destruct (List.filter p ks) as [|? [|? ?]]; cbn; intros Hh; subst; try reflexivity. exact Hh.
Qed.

(** *** Queries that are sent raw *)

Lemma does_raw_once frame (Q : Result (DaliResponse * bool) ctl_error -> GearFleet -> Prop) f :
  (forall t o f', settled f -> exchange (at_time f t) frame true = (o, f') -> settled f') ->
  (forall t o f' r t', exchange (at_time f t) frame true = (o, f') -> heard true o r -> Q (Ok (r, false)) (at_time f' t')) ->
  does (send_raw_once frame true) Q f.
Proof.
  intros Hset HQ c Hc Hf Hs. eapply wp_mono; [exact (calm_raw_once frame c Hc)|]. cbn beta.
  intros [[r b]|e] c' [Hc' H]; [|destruct H]. destruct H as (o & Hp & Hh & Hb). cbn [fst snd] in Hh, Hb. subst b.
  assert (settled (now_fleet c)) as Hs' by now rewrite Hf.
  destruct (plays_now c _ _ _ _ Hs' Hp) as (t & E). rewrite Hf in E. cbn [fst] in E.
  destruct (settled_now c' _ eq_refl (Hset _ _ _ Hs E)) as (t' & Et). split; [assumption|]. rewrite Et.
  split; [exact (Hset _ _ _ Hs E)|]. eapply HQ; eassumption.
Qed.

(** The walk over the device types goes through [send_raw_once]. *)
Lemma does_query_once a (c : StandardCommand) (Q : SemanticResult (option Z) -> GearFleet -> Prop) f :
  address_ok a -> standard_ok c -> standard_is_query c = true -> reads_register c = false -> Forall k_answers (cores f) ->
  (forall t t' o f1 r, after_query a c (at_time f t) (o, f1) -> bus_step id (search_of f) f (at_time f1 t') ->
     heard true o r -> Q (Ok (response_value r)) (at_time f1 t')) ->
  does (send_standard_query_once a c) Q f.
Proof.
  intros Ha Hc Hq Hr Hd HQ. unfold send_standard_query_once. apply does_bind_ok, does_semantic, does_raw_once.
  - intros t o f' Hs E. destruct (query_step a c f t o f' Ha Hc Hq Hr Hd E) as [Hb _].
    eapply settled_step; [|exact Hs|exact Hb]. intros k; reflexivity.
  - intros t o f' r t' E Hh. destruct (query_step a c f t o f' Ha Hc Hq Hr Hd E) as [(Ec & Es & Er & Ev) Haf].
    apply does_ret. cbn [fst]. eapply HQ; [exact Haf|repeat split; assumption|exact Hh].
Qed.

Definition enable_dt8_frame : Z := special_frame (EnableDeviceType DT8_DEVICE_TYPE).

(** A device type 8 query: whatever the answer, the bus is as before. *)
Lemma does_dt8_query a op (Q : SemanticResult (option Z * bool) -> GearFleet -> Prop) f :
  address_ok a -> in_u 8 op -> 0xE0 <= op ->
  (forall v b f', bus_step id (search_of f) f f' -> Q (Ok (v, b)) f') ->
  does (send_dt8_raw_query_observed a op) Q f.
Proof.
  intros Ha Ho Hle HQ. unfold send_dt8_raw_query_observed. apply does_bind_ok, does_semantic. intros c Hc Hf Hs.
  eapply wp_mono; [exact (calm_enabled_query enable_dt8_frame (addressed_frame a op) c Hc)|]. cbn beta.
  intros [[r b]|e] c' [Hc' H]; [|destruct H]. destruct H as (v1 & o1 & o & Hp1 & Hp2 & _).
  assert (settled (now_fleet c)) as Hs0 by now rewrite Hf.
  destruct (plays_now c _ _ _ _ Hs0 Hp1) as (t1 & E1). rewrite Hf in E1. unfold enable_dt8_frame in E1.
  destruct (special_step (EnableDeviceType DT8_DEVICE_TYPE) f t1 o1 (fst v1)) as [(Ec1 & Es1 & Er1 & Ev1) _]; [easy|reflexivity|exact E1|].
  cbn [special_core special_search] in Ec1, Es1. rewrite map_id in Ec1.
  assert (settled (fst v1)) as Hs1 by (unfold settled; rewrite Ec1; exact Hs).
  destruct Hp2 as (t2 & _ & E2). cbn [fst] in E2. rewrite (advance_settled _ t2 Hs1) in E2.
  pose proof (exchange_extended_query (fst v1 <| fl_now_ms := Z.max (fl_now_ms (fst v1)) t2 |>) a op Ha Ho Hle) as Hu.
  rewrite E2 in Hu. destruct Hu as (Ec2 & Es2 & (Er2 & Ev2 & _)). cbn [snd] in *.
  assert (bus_step id (search_of f) f (fleet_of c')) as Hb.
  { unfold bus_step. rewrite map_id. unfold cores, search_of in *. cbn in Ec2, Es2, Er2, Ev2. repeat split; congruence. }
  assert (settled (fleet_of c')) as Hsf by (eapply settled_step; [|exact Hs|exact Hb]; intros k; reflexivity).
  destruct (settled_now c' _ eq_refl Hsf) as (t' & Et). split; [assumption|]. split; [now rewrite Et|]. rewrite Et.
  apply does_ret. apply HQ. destruct Hb as (Ec & Es & Er & Ev). repeat split; assumption.
Qed.

Lemma bus_step_refl f : bus_step id (search_of f) f f.
Proof. repeat split. now rewrite map_id. Qed.

Lemma bus_step_trans K1 K2 s1 s2 f f1 f2 : bus_step K1 s1 f f1 -> bus_step K2 s2 f1 f2 ->
  bus_step (fun k => K2 (K1 k)) s2 f f2.
Proof.
  intros (E1 & _ & R1 & V1) (E2 & S2 & R2 & V2). unfold bus_step. rewrite E2, E1, map_map. repeat split; congruence.
Qed.

(** *** The search address *)

Lemma set_search_bits s k v i : in_u 32 s -> in_u 8 v -> (k = 0 \/ k = 8 \/ k = 16) -> 0 <= i < 32 ->
  Z.testbit (set_search_byte s k v) i = if (k <=? i) && (i <? k + 8) then Z.testbit v (i - k) else Z.testbit s i.
Proof.
  intros Hs Hv Hk Hi. unfold set_search_byte, shl.
  assert (forall x, 0 <= x -> Z.testbit (wrap 32 (Z.shiftl x k)) i = Z.testbit x (i - k)) as Hw.
  { intros x Hx. rewrite testbit_wrap by lia. rewrite (proj2 (Z.ltb_lt i 32)) by lia. cbn [andb]. apply Z.shiftl_spec. lia. }
  unfold in_u in *. rewrite Z.lor_spec, Z.land_spec, Z.lxor_spec, !Hw by lia. change (umax 32) with (Z.ones 32).
  rewrite Z.testbit_ones_nonneg by lia. rewrite (proj2 (Z.ltb_lt i 32)) by lia. change 0xFF with (Z.ones 8).
  destruct (Z.leb_spec k i) as [Hle|Hgt].
  - rewrite Z.testbit_ones_nonneg by lia. destruct (Z.ltb_spec i (k + 8)) as [Hlt|Hge]; cbn [andb].
    + rewrite (proj2 (Z.ltb_lt (i - k) 8)) by lia. cbn. now rewrite andb_false_r.
    + rewrite (proj2 (Z.ltb_ge (i - k) 8)) by lia. cbn. rewrite andb_true_r.
      rewrite (Z.bits_above_log2 v (i - k)); [now rewrite orb_false_r|lia|].
      destruct (Z.eq_dec v 0) as [->|?]; [cbn; lia|]. assert (Z.log2 v < 8) by (apply Z.log2_lt_pow2; lia). lia.
  - cbn [andb]. rewrite (Z.testbit_neg_r v), (Z.testbit_neg_r (Z.ones 8)) by lia. cbn. now rewrite andb_true_r, orb_false_r.
Qed.

Lemma set_search_range s k v : in_u 24 s -> in_u 8 v -> (k = 0 \/ k = 8 \/ k = 16) -> in_u 24 (set_search_byte s k v).
Proof.
  intros Hs Hv Hk. unfold set_search_byte. apply in_u_lor; [lia| |].
  - apply in_u_land; [lia|exact Hs|]. apply Z.lxor_nonneg. split; intros _; [|vm_compute; discriminate].
    destruct Hk as [->|[->| ->]]; vm_compute; discriminate.
  - unfold shl. rewrite Z.shiftl_mul_pow2 by lia. unfold in_u, wrap in *. change (2 ^ 8) with 256 in *. change (2 ^ 24) with 16777216.
    change (2 ^ 32) with 4294967296. destruct Hk as [->|[->| ->]]; [change (2 ^ 0) with 1|change (2 ^ 8) with 256|change (2 ^ 16) with 65536]; dlia.
Qed.

Lemma set_search_whole s a : in_u 24 s -> in_u 24 a ->
  set_search_byte (set_search_byte (set_search_byte s 16 (Z.land (Z.shiftr a 16) 0xFF)) 8 (Z.land (Z.shiftr a 8) 0xFF)) 0
    (Z.land a 0xFF) = a.
Proof.
  intros Hs Ha. assert (forall x, in_u 8 (Z.land x 0xFF)) as H8.
  { intros x. change 0xFF with (Z.ones 8). rewrite Z.land_ones by lia. apply Z.mod_pos_bound. lia. }
  assert (forall x, in_u 24 x -> in_u 32 x) as H32 by (unfold in_u; intros; lia).
  assert (in_u 24 (set_search_byte s 16 (Z.land (Z.shiftr a 16) 0xFF))) as R1 by (apply set_search_range; auto).
  assert (in_u 24 (set_search_byte (set_search_byte s 16 (Z.land (Z.shiftr a 16) 0xFF)) 8 (Z.land (Z.shiftr a 8) 0xFF))) as R2
    by (apply set_search_range; auto).
  assert (forall x i, in_u 24 x -> 24 <= i -> Z.testbit x i = false) as Hhigh.
  { intros x i Hx Hi. unfold in_u in Hx. destruct (Z.eq_dec x 0) as [->|?]; [apply Z.bits_0|].
    apply Z.bits_above_log2; [lia|]. assert (Z.log2 x < 24) by (apply Z.log2_lt_pow2; lia). lia. }
  apply Z.bits_inj'. intros i Hi. destruct (Z_lt_le_dec i 24) as [Hlt|Hge].
  2:{ rewrite !Hhigh by (try lia; try assumption; apply set_search_range; auto). reflexivity. }
  rewrite !set_search_bits by (auto; lia). change 0xFF with (Z.ones 8).
  assert (forall x k, 0 <= k -> k <= i < k + 8 -> Z.testbit (Z.land (Z.shiftr x k) (Z.ones 8)) (i - k) = Z.testbit x i) as Hbyte.
  { intros x k Hk Hi8. rewrite Z.land_spec, Z.shiftr_spec, Z.testbit_ones by lia.
    rewrite (proj2 (Z.leb_le 0 (i - k))), (proj2 (Z.ltb_lt (i - k) 8)) by lia. cbn. rewrite andb_true_r. f_equal. lia. }
  rewrite (proj2 (Z.leb_le 0 i)) by lia. destruct (Z.ltb_spec i (0 + 8)); cbn [andb].
  - pose proof (Hbyte a 0) as Hb. rewrite Z.shiftr_0_r in Hb. apply Hb; lia.
  - destruct (Z.leb_spec 8 i); [|lia]. destruct (Z.ltb_spec i (8 + 8)); cbn [andb]; [apply Hbyte; lia|].
    rewrite (proj2 (Z.leb_le 16 i)), (proj2 (Z.ltb_lt i (16 + 8))) by lia. cbn [andb]. apply Hbyte; lia.
Qed.

End Triples.

End CalmBus.
