(* ===== verification/MemoryLaws.v ===== *)
(** * What the frames of a memory read do

    The memory of a gear and the two registers of the bus that point into it:
    which frames move the pointer, and what a gear alone at its address answers.
    The rules of the sends that [MemoryBank] uses, on any calm bus. *)

From Stdlib Require Import String.
From S2P Require Import Prelude RulesBase Effects Gear GearCommand GearState Transport Banks GearModel Fleet.
From S2P Require Import FleetLaws Controller Majority Executor MemoryBank CalmBus.

Module MemoryLaws.
Import Gear GearCommand GearState Transport Banks GearModel Fleet FleetLaws Controller Majority Executor MemoryBank CalmBus.

(** ** Memory *)

(** What a memory read depends on. *)
Definition mem (g : GearUnit) : GearCore * (ProfileBanks * option MeteringBanks) := (core g, (g_banks g, g_metering g)).
Definition mems (f : GearFleet) := map mem (fl_gears f).

Definition dtr0 (f : GearFleet) : Z := rg_dtr0 (fl_regs f).
Definition dtr1 (f : GearFleet) : Z := rg_dtr1 (fl_regs f).

Lemma mem_fields g h : mem g = mem h ->
  core g = core h /\ g_spec g = g_spec h /\ g_banks g = g_banks h /\ g_metering g = g_metering h.
Proof. intros [= H1 H2 H3 H4 H5 H6 H7 H8]. unfold core. repeat split; congruence. Qed.

Lemma location_mem g h bank off : mem g = mem h -> memory_location g bank off = memory_location h bank off.
Proof.
  intros (_ & Es & Eb & Em)%mem_fields. unfold memory_location, lacks_indicator_byte, identity_location, profile_location.
  now rewrite Es, Eb, Em.
Qed.

Lemma advances_mem g h bank off : mem g = mem h -> advances_dtr0_past g bank off = advances_dtr0_past h bank off.
Proof.
  intros E. unfold advances_dtr0_past, implements_bank. rewrite (location_mem g h bank off E).
  apply mem_fields in E as (_ & Es & _ & Em). now rewrite Es, Em.
Qed.

Lemma cores_mems f : cores f = map fst (mems f).
Proof. unfold cores, mems. rewrite map_map. now apply map_ext. Qed.

Lemma mem_prep frame decoded repeats g : mem (prep_gear frame decoded repeats g) = mem g.
Proof.
  unfold prep_gear. set (h := hear_gear frame decoded repeats g).
  assert (mem h = mem g) as <-; [|now destruct (keeps_write_enabled decoded)].
  unfold h, hear_gear. destruct (hears decoded g); [|reflexivity].
  assert (mem (snd (gear_hear g frame repeats)) = mem g) as <- by (unfold gear_hear; now destruct (opt_is _ _)).
  destruct (gear_hear g frame repeats) as [h1 g1]. now destruct (is_walk_query decoded).
Qed.

Lemma mems_prepped frame decoded repeats l : map mem (map (prep_gear frame decoded repeats) l) = map mem l.
Proof. rewrite map_map. apply map_ext, mem_prep. Qed.

(** Only the pointer may differ. *)
Definition points (f : GearFleet) (d1 d0 : Z) (f' : GearFleet) : Prop := mems f' = mems f /\ dtr1 f' = d1 /\ dtr0 f' = d0.

Lemma points_settled f d1 d0 f' : points f d1 d0 f' -> settled f -> settled f'.
Proof. intros [E _] Hs. unfold settled in *. now rewrite cores_mems, E, <- cores_mems. Qed.

Lemma points_at f d1 d0 f' t : points f d1 d0 f' -> points f d1 d0 (at_time f' t).
Proof. exact (fun H => H). Qed.

(** ** Frames *)

Lemma prep_points f frame decoded repeats : points f (dtr1 f) (dtr0 f) (prep f frame decoded repeats).
Proof.
  destruct (prep_fields f frame decoded repeats) as (Eg & Er & _). unfold points, mems, dtr0, dtr1. rewrite Eg, Er.
  split; [apply mems_prepped|now split].
Qed.

Lemma addressed_points f frame decoded repeats : points f (dtr1 f) (dtr0 f) (addressed f frame decoded repeats).
Proof.
  pose proof (prep_points f frame decoded repeats) as (Em & E1 & E0). unfold addressed. set (p := prep f frame decoded repeats) in *.
  unfold points in *. rewrite <- Em, <- E1, <- E0. cbn. unfold carry_prelude_over_held_half.
  destruct (fresh_device_type p); [destruct (any_gear_holds _ _)|]; repeat split.
Qed.

(** The special commands that set the pointer. *)
Definition pointer_special (s : SpecialCommand) (d1 d0 : Z) : option (Z * Z) :=
  match s with Dtr0 v => Some (d1, v) | Dtr1 v => Some (v, d0) | _ => None end.

Lemma exchange_pointer f s eb d1 d0 :
  special_ok s -> pointer_special s (dtr1 f) (dtr0 f) = Some (d1, d0) ->
  points f d1 d0 (snd (exchange f (special_frame s) eb)).
Proof.
  intros Hok Hs. rewrite exchange_special by exact Hok. set (p := prep _ _ _ _).
  pose proof (prep_points f (special_frame s) (Some (Special s))
    (requires_repeat_under (Some (Special s)) (fst (wire_bytes s)) (snd (wire_bytes s))
       (fresh_device_type (f <| fl_frame_seq := sat_add 64 (fl_frame_seq f) 1 |>)))) as (Em & E1 & E0). fold p in Em, E1, E0.
  set (q := on_gears p g_executes_now (fun g => g <| g_identifying := false |>)).
  assert (mems q = mems p) as Eq.
  { unfold mems, q, on_gears, for_gears. cbn. rewrite map_map. apply map_ext. intros g. now destruct (g_executes_now g). }
  destruct s; try discriminate; injection Hs as <- <-; unfold on_special; cbn; unfold points, mems, dtr0, dtr1 in *; cbn in *;
    rewrite Eq, ?E1, ?E0; split; try exact Em; now split.
Qed.

(** The gear that a short address is for. *)
Definition at_address (s : Z) (g : GearUnit) : bool := gear_matches g (Short s).
Definition alone (s : Z) (g : GearUnit) (f : GearFleet) : Prop :=
  exists h, List.filter (at_address s) (fl_gears f) = [h] /\ mem h = mem g.

Lemma at_address_mem s g h : mem g = mem h -> at_address s g = at_address s h.
Proof. intros (E & _)%mem_fields. unfold at_address. rewrite !matches_core by easy. now rewrite E. Qed.

Lemma filter_related {A B} (m : A -> B) (p : A -> bool) : (forall x y, m x = m y -> p x = p y) ->
  forall l l', map m l' = map m l -> map m (List.filter p l') = map m (List.filter p l).
Proof.
  intros Hp l. induction l as [|x l IH]; intros [|y l'] E; try discriminate; [reflexivity|].
  injection E as Ex El. cbn [List.filter]. rewrite (Hp y x Ex). specialize (IH l' El).
  destruct (p x); [cbn; now rewrite Ex, IH|exact IH].
Qed.

Lemma alone_mems s g f f' : mems f' = mems f -> alone s g f -> alone s g f'.
Proof.
  intros E (h & Hf & Hm). unfold alone, mems in *.
  apply (filter_related mem (at_address s) (at_address_mem s)) in E. rewrite Hf in E.
  destruct (List.filter (at_address s) (fl_gears f')) as [|h' [|]]; try discriminate. exists h'. split; [reflexivity|].
  rewrite <- Hm. cbn [map] in E. exact (f_equal (hd (mem h)) E).
Qed.

Lemma replies_filter p f l : replies p f l = omap f (List.filter p l).
Proof.
  unfold replies. induction l as [|g l IH]; [reflexivity|].
  change (omap ?f (?x :: ?l)) with (match f x with Some v => v :: omap f l | None => omap f l end). cbn [List.filter].
  destruct (p g); [|exact IH]. change (omap f (g :: List.filter p l)) with
    (match f g with Some v => v :: omap f (List.filter p l) | None => omap f (List.filter p l) end). now rewrite IH.
Qed.

Lemma existsb_filter {A} (p q : A -> bool) l : existsb (fun x => p x && q x) l = existsb q (List.filter p l).
Proof. induction l as [|x l IH]; [reflexivity|]. cbn. destruct (p x); cbn; now rewrite IH. Qed.

(** The outcome of an answer, or of none. *)
Definition outcome_of (v : option Z) : TransferOutcome := match v with Some v => OutAnswer v | None => OutNoAnswer end.

(** *** The content of a register *)

Lemma thread_shared a c v l rng dropped :
  Forall (fun g => k_answers (core g)) l -> forall buf,
  thread (query_one a c (Some v)) l (buf, (rng, dropped)) =
    (l, (buf ++ replies (fun g => gear_matches g a) (fun _ => Some v) l, (rng, dropped))).
Proof.
  induction l as [|g l IH]; intros Hd buf; [cbn; now rewrite app_nil_r|]. apply List.Forall_cons_iff in Hd as [Hg Hl].
  specialize (IH Hl). unfold k_answers in Hg. cbn [core k_drop] in Hg. unfold replies in *.
  change (omap ?f (g :: ?l)) with (match f g with Some v => v :: omap f l | None => omap f l end). cbn [thread].
  unfold query_one at 1. destruct (gear_matches g a); cbn [fst snd].
  - unfold answer_of, chance_permille. rewrite Hg. cbn [Z.eqb option_list]. rewrite IH, <- app_assoc. reflexivity.
  - now rewrite IH.
Qed.

Lemma exchange_content f g s c eb v :
  in_u 6 s -> Forall k_answers (cores f) -> alone s g f -> standard_ok c -> standard_is_query c = true ->
  (forall f1, points f (dtr1 f) (dtr0 f) f1 -> bus_register_query f1 c = Some v) ->
  let r := exchange f (query_frame (Short s) c) eb in
  points f (dtr1 f) (dtr0 f) (snd r) /\ fst r = OutAnswer v.
Proof.
  intros Hs Hd Ha Hc Hq Hv. rewrite (exchange_query f (Short s) c eb Hs Hc Hq).
  pose proof (addressed_points f (query_frame (Short s) c) (Some (Standard (Short s) c)) false) as Hp.
  set (f1 := addressed _ _ _ _) in *. unfold on_standard, standard_query. rewrite Hq, (Hv f1 Hp). cbn [negb].
  destruct (alone_mems s g f f1 (proj1 Hp) Ha) as (h & Hf & _).
  assert (Forall (fun g => k_answers (core g)) (fl_gears f1)) as Hd1.
  { rewrite cores_mems, <- (proj1 Hp), <- cores_mems in Hd. unfold cores in Hd. rewrite List.Forall_map in Hd. exact Hd. }
  rewrite (thread_shared (Short s) c v _ _ _ Hd1), replies_filter. unfold at_address in Hf. rewrite Hf.
  split; [exact Hp|reflexivity].
Qed.

(** *** A location *)

Definition read_frame (s : Z) : Z := addressed_frame (Short s) READ_MEMORY_LOCATION_OPCODE.

Lemma exchange_read f g s :
  in_u 6 s -> alone s g f ->
  let off := dtr0 f in
  let r := exchange f (read_frame s) true in
  points f (dtr1 f) (if advances_dtr0_past g (dtr1 f) off && (off <? LAST_MEMORY_LOCATION) then off + 1 else off) (snd r) /\
  fst r = outcome_of (memory_location g (dtr1 f) off).
Proof.
  intros Hs Ha. cbn zeta. unfold read_frame, addressed_frame.
  assert (in_u 8 READ_MEMORY_LOCATION_OPCODE) as Ho by (unfold in_u, READ_MEMORY_LOCATION_OPCODE; lia).
  destruct (address_byte_forms (Short s) Hs) as [_ (Hb & Hodd & Hda & _)].
  destruct (wire_addressed (Short s) _ Hs Ho) as [_ Hdec]. destruct (frame_bytes _ _ Hb Ho) as (E1 & E2 & _). rewrite E1, E2 in Hdec.
  set (fr := frame_new _ _) in *. destruct (frame_wraps _ _ Hb Ho) as [W1 W2]. fold fr in W1, W2.
  unfold exchange. rewrite W1, W2. set (decoded := dali_command_from_wire _ _) in *.
  set (repeats := requires_repeat_under _ _ _ _). fold (prep f fr decoded repeats).
  assert (decoded = None) as Hn by (rewrite Hdec; reflexivity).
  pose proof (addressed_points f fr decoded repeats) as Hp. unfold addressed in Hp.
  destruct (take_enabled_device_type (prep f fr decoded repeats)) as [enabled f1]. rewrite Hn, Hda, Hodd. cbn [Z.eqb].
  rewrite Z.eqb_refl. cbn [andb]. set (f2 := carry_prelude_over_held_half f1 fr enabled) in *. clearbody f2. clear - Hp Ha.
  destruct (alone_mems s g f f2 (proj1 Hp) Ha) as (h & Hf & Hm). destruct Hp as (Em & E1 & E0).
  unfold on_read_memory_location. change (rg_dtr1 (fl_regs f2)) with (dtr1 f2). change (rg_dtr0 (fl_regs f2)) with (dtr0 f2).
  rewrite existsb_filter, replies_filter. unfold at_address in Hf. rewrite Hf, E1, E0. cbn [existsb]. rewrite orb_false_r.
  rewrite (advances_mem h g _ _ Hm). split.
  - destruct (advances_dtr0_past g (dtr1 f) (dtr0 f) && _); (split; [exact Em|split; [exact E1|try exact E0; reflexivity]]).
  - cbn. rewrite (location_mem h g _ _ Hm). now destruct (memory_location g (dtr1 f) (dtr0 f)).
Qed.

(** ** Rules *)

Section Rules.
Context {C : Type} {HC : DaliApplicationController C} {HB : CalmBus C}.

Lemma does_pointer s d1 d0 (Q : SemanticResult unit -> GearFleet -> Prop) f :
  special_ok s -> pointer_special s (dtr1 f) (dtr0 f) = Some (d1, d0) ->
  (forall f', points f d1 d0 f' -> Q (Ok tt) f') -> does (send_special s) Q f.
Proof.
  intros Hok Hp HQ. unfold send_special. apply does_bind_ok, does_semantic.
  assert (forall t o f', exchange (at_time f t) (command_frame (Special s)) (is_query (Special s)) = (o, f') -> points f d1 d0 f') as Hx.
  { intros t o f' E. pose proof (exchange_pointer (at_time f t) s (is_query (Special s)) d1 d0 Hok Hp) as H.
    change (special_frame s) with (command_frame (Special s)) in H. rewrite E in H. exact H. }
  apply (does_send (Special s)); [reflexivity|now destruct s| |].
  - intros t o f' Hs E. exact (points_settled f d1 d0 f' (Hx t o f' E) Hs).
  - intros t o f' r t' E _. apply does_ret, HQ, points_at, (Hx t o f' E).
Qed.

(** The register a query reads. *)
Definition content_of (c : StandardCommand) (f : GearFleet) : option Z :=
  match c with QueryContentDtr0 => Some (dtr0 f) | QueryContentDtr1 => Some (dtr1 f) | _ => None end.

Lemma does_content g s c v (Q : SemanticResult DaliResponse -> GearFleet -> Prop) f :
  in_u 6 s -> Forall k_answers (cores f) -> alone s g f -> content_of c f = Some v ->
  (forall f', points f (dtr1 f) (dtr0 f) f' -> Q (Ok (RespAnswer v)) f') -> does (send_standard_response (Short s) c) Q f.
Proof.
  intros Hs Hd Ha Hv HQ. unfold send_standard_response, send_standard. apply does_semantic.
  assert (standard_ok c /\ standard_is_query c = true /\ requires_repeat (Standard (Short s) c) = false /\
    (forall f1, points f (dtr1 f) (dtr0 f) f1 -> bus_register_query f1 c = Some v)) as (Hc & Hq & Hr & Hreg).
  { destruct c; try discriminate; cbn in Hv; injection Hv as <-; (split; [easy|]); (split; [reflexivity|]); (split; [reflexivity|]);
      intros f1 (_ & E1 & E0); unfold dtr0, dtr1 in *; cbn; congruence. }
  assert (forall t o f', exchange (at_time f t) (command_frame (Standard (Short s) c)) (is_query (Standard (Short s) c)) = (o, f') ->
    points f (dtr1 f) (dtr0 f) f' /\ o = OutAnswer v) as Hx.
  { intros t o f' E. pose proof (exchange_content (at_time f t) g s c (is_query (Standard (Short s) c)) v Hs Hd Ha Hc Hq Hreg) as H.
    change (query_frame (Short s) c) with (command_frame (Standard (Short s) c)) in H. cbn zeta in H. now rewrite E in H. }
  apply does_send; [reflexivity|exact Hr| |].
  - intros t o f' Hst E. exact (points_settled f _ _ f' (proj1 (Hx t o f' E)) Hst).
  - intros t o f' r t' E Hh. destruct (Hx t o f' E) as [Hp ->]. cbn [is_query] in Hh. rewrite Hq in Hh. cbn in Hh. subst r.
    apply HQ, points_at, Hp.
Qed.

(** What a location is read as. *)
Definition location_read (v : option Z) (offset : Z) : Result (option Z) ReadFailure :=
  match v with
  | Some v => Ok (Some v)
  | None => if offset =? MEMORY_RESERVED_OFFSET then Ok None else Err Silent
  end.

Lemma does_read_location g s offset (Q : Result (option Z) ReadFailure -> GearFleet -> Prop) f :
  in_u 6 s -> alone s g f ->
  (forall f', points f (dtr1 f) (if advances_dtr0_past g (dtr1 f) (dtr0 f) && (dtr0 f <? LAST_MEMORY_LOCATION) then dtr0 f + 1 else dtr0 f) f' ->
     Q (location_read (memory_location g (dtr1 f) (dtr0 f)) offset) f') ->
  does (read_location (Short s) offset) Q f.
Proof.
  intros Hs Ha HQ. unfold read_location, send_raw_query_once_response. apply does_bind, does_semantic, does_raw_once.
  - intros t o f' Hst E. pose proof (exchange_read (at_time f t) g s Hs Ha) as H. cbn zeta in H.
    change (read_frame s) with (raw_frame (Short s) READ_MEMORY_LOCATION_OPCODE) in H. rewrite E in H.
    exact (points_settled f _ _ f' (proj1 H) Hst).
  - intros t o f' r t' E Hh. pose proof (exchange_read (at_time f t) g s Hs Ha) as H. cbn zeta in H.
    change (read_frame s) with (raw_frame (Short s) READ_MEMORY_LOCATION_OPCODE) in H. rewrite E in H. destruct H as [Hp Ho].
    cbn [fst] in Ho. subst o. apply does_ret. apply points_at with (t := t') in Hp. apply HQ in Hp.
    change (dtr1 (at_time f t)) with (dtr1 f) in *. change (dtr0 (at_time f t)) with (dtr0 f) in *.
    destruct (memory_location g (dtr1 f) (dtr0 f)); cbn in Hh |- *; subst r; exact Hp.
Qed.

End Rules.

End MemoryLaws.
