(* ===== verification/MemoryCalm.v ===== *)
(** * A memory read on a calm bus

    The chunked read of [MemoryBank] against the memory of the gear at the
    address: which chunk ends how, where the pointer is after it, and what the
    loop has collected when it ends. *)

From Stdlib Require Import String.
From S2P Require Import Prelude RulesBase Effects Gear GearCommand GearState Transport Banks GearModel Fleet.
From S2P Require Import FleetLaws Controller Majority Executor MemoryBank MemoryRead CalmBus MemoryLaws.

Module MemoryCalm.
Import Gear GearCommand GearState Transport Banks GearModel Fleet FleetLaws Controller Majority Executor MemoryBank MemoryRead
  CalmBus MemoryLaws.

(** ** What is read *)

(** The locations from [start] up to [e], a silent one as the placeholder. *)
Definition contents (g : GearUnit) (bank start e : Z) : list Z :=
  map (fun offset => default MEMORY_NO_ANSWER_PLACEHOLDER (memory_location g bank offset)) (seqZ start (e - start)).

(** Whether the indicator byte is among them and silent. *)
Definition indicator_silent (g : GearUnit) (bank start e : Z) : bool :=
  negb (bank =? RESERVED_LOCATION_BANK) && (start <=? MEMORY_RESERVED_OFFSET) && (MEMORY_RESERVED_OFFSET <? e) &&
  negb (is_some (memory_location g bank MEMORY_RESERVED_OFFSET)).

(** What the gear has of the range ends at [e]: the end of the range or the first
    silent location but the reserved one, which is then the start of a value and
    not the lock byte.  If the range ends with a silent reserved location the
    gear has to move its pointer past it. *)
Record readable (g : GearUnit) (bank start length e : Z) : Prop := {
  rd_range : 0 <= start <= umax 8 /\ 0 <= length /\ start + length <= 256;
  rd_end : start <= e <= start + length;
  rd_before : forall offset, start <= offset < e -> memory_location g bank offset = None -> offset = MEMORY_RESERVED_OFFSET;
  rd_at : e < start + length ->
    memory_location g bank e = None /\ e <> MEMORY_RESERVED_OFFSET /\ e <> ALWAYS_ANSWERED_OFFSET /\ is_field_boundary bank e = true;
  rd_indicator : e = MEMORY_RESERVED_OFFSET + 1 -> start <= MEMORY_RESERVED_OFFSET ->
    memory_location g bank MEMORY_RESERVED_OFFSET = None -> advances_dtr0_past g bank MEMORY_RESERVED_OFFSET = true }.

Lemma contents_snoc g bank start e : start <= e ->
  contents g bank start (e + 1) = contents g bank start e ++ [default MEMORY_NO_ANSWER_PLACEHOLDER (memory_location g bank e)].
Proof.
  intros He. unfold contents. replace (e + 1 - start) with (Z.of_nat (S (Z.to_nat (e - start)))) by lia.
  rewrite seqZ_S, map_app. cbn [map]. do 2 f_equal; f_equal; [|f_equal]; lia.
Qed.

Lemma contents_length g bank start e : start <= e -> Z.of_nat (List.length (contents g bank start e)) = e - start.
Proof. intros He. unfold contents. rewrite length_map, length_seqZ. lia. Qed.

Lemma contents_take g bank start p e : start <= p <= e ->
  take (Z.to_nat (p - start)) (contents g bank start e) = contents g bank start p.
Proof.
  intros H. unfold contents. replace (e - start) with ((p - start) + (e - p)) by lia. rewrite seqZ_app, map_app by lia.
  rewrite take_app_le by (rewrite length_map, length_seqZ; lia). apply take_ge. rewrite length_map, length_seqZ. lia.
Qed.

(** What a gear answers it moves past. *)
Lemma located_advances g bank offset v : memory_location g bank offset = Some v -> advances_dtr0_past g bank offset = true.
Proof.
  intros E. unfold advances_dtr0_past. rewrite E. cbn [is_some]. rewrite orb_true_r, andb_true_r.
  unfold memory_location, implements_bank in *. destruct (lacks_indicator_byte g bank offset); [discriminate|].
  destruct (bank =? MEMORY_BANK_IDENTITY); [reflexivity|]. destruct (bank =? MEMORY_BANK_PROFILE); [reflexivity|]. cbn [orb].
  destruct (g_metering g) as [m|]; [|discriminate]. unfold metering_location, metering_implements_bank in *.
  now destruct (image m bank).
Qed.

(** The proof of a pointer that is known. *)
Lemma proof_known bank expected ended d :
  proof_of bank expected ended (RespAnswer bank) (RespAnswer d) =
    if (d =? expected) || (ended && (d =? sat_add 8 expected 1)) then PpHeld else PpMoved (d =? wrapping_sub 8 expected 1).
Proof.
  unfold proof_of. assert (forall a b : Z, bool_decide (RespAnswer a = RespAnswer b) = (a =? b)) as E.
  { intros a b. destruct (Z.eqb_spec a b) as [->|Hn]; [now rewrite bool_decide_true|]. rewrite bool_decide_false; congruence. }
  rewrite !E, Z.eqb_refl. cbn. destruct ((d =? expected) || _); [|reflexivity]. rewrite !bool_decide_false by discriminate. reflexivity.
Qed.

Section Calm.
Context {C : Type} {HC : DaliApplicationController C} {HB : CalmBus C}.
Variables (f0 : GearFleet) (g : GearUnit) (s bank start length e : Z).
Hypothesis s_range : in_u 6 s.
Hypothesis bank_range : in_u 8 bank.
Hypothesis f0_answers : Forall k_answers (cores f0).
Hypothesis g_alone : alone s g f0.
Hypothesis Hread : readable g bank start length e.
Notation loc := (memory_location g bank).
Notation adv := (advances_dtr0_past g bank).

(** The fleet as it was but for the pointer. *)
Notation at_pointer d := (points f0 bank d).

Lemma points_trans f d1 d0 f' d1' d0' : points f0 d1 d0 f -> points f d1' d0' f' -> points f0 d1' d0' f'.
Proof. intros (E & _) (E' & H). split; [congruence|exact H]. Qed.

Lemma here f d1 d0 : points f0 d1 d0 f -> Forall k_answers (cores f) /\ alone s g f.
Proof. intros (E & _). split; [now rewrite cores_mems, E, <- cores_mems|exact (alone_mems s g f0 f E g_alone)]. Qed.

Lemma does_proof expected ended d1 d0 (Q : SemanticResult PointerProof -> GearFleet -> Prop) f :
  points f0 d1 d0 f ->
  (forall f', points f0 d1 d0 f' -> Q (Ok (proof_of bank expected ended (RespAnswer d1) (RespAnswer d0))) f') ->
  does (pointer_proof (Short s) bank expected ended) Q f.
Proof.
  intros Hp HQ. unfold pointer_proof. pose proof Hp as (_ & E1 & E0). destruct (here f d1 d0 Hp) as [Hd Ha].
  apply does_bind_ok. apply (does_content g s QueryContentDtr1 (dtr1 f)); try assumption; [reflexivity|]. intros f1 Hp1.
  pose proof (points_trans f d1 d0 f1 _ _ Hp Hp1) as Hp1'. destruct (here f1 _ _ Hp1') as [Hd1 Ha1].
  apply does_bind_ok. apply (does_content g s QueryContentDtr0 (dtr0 f1)); try assumption; [reflexivity|]. intros f2 Hp2.
  pose proof (points_trans f1 _ _ f2 _ _ Hp1' Hp2) as Hp2'. apply does_ret. destruct Hp1 as (_ & F1 & F0).
  rewrite F1, F0, E1, E0 in Hp2'. rewrite E1, F0, E0. apply HQ, Hp2'.
Qed.

Lemma does_arm offset d1 d0 (Q : SemanticResult unit -> GearFleet -> Prop) f :
  in_u 8 offset -> points f0 d1 d0 f -> (forall f', at_pointer offset f' -> Q (Ok tt) f') ->
  does (arm_memory_pointer (Short s) bank offset) Q f.
Proof.
  intros Ho Hp HQ. unfold arm_memory_pointer. cbn [arm_pointer_loop Z.to_nat BANK_ARM_RETRIES Z.add Pos.add Pos.to_nat].
  change (Pos.to_nat 3) with 3%nat. cbn [arm_pointer_loop]. apply does_bind_ok, does_transaction. rewrite !wrap_id by exact Ho.
  pose proof Hp as (_ & E1 & E0).
  apply does_bind_ok. apply (does_pointer (Dtr1 bank) bank d0); [exact bank_range|cbn; now rewrite E0|]. intros f1 Hp1.
  pose proof Hp1 as (_ & F1 & F0).
  apply does_bind_ok. apply (does_pointer (Dtr0 offset) bank offset); [exact Ho|cbn; now rewrite F1|]. intros f2 Hp2.
  pose proof (points_trans f1 _ _ f2 _ _ (points_trans f _ _ f1 _ _ Hp Hp1) Hp2) as Hp2'.
  apply (does_proof offset false bank offset); [exact Hp2'|]. intros f3 Hp3.
  rewrite proof_known, Z.eqb_refl. cbn [orb]. rewrite bool_decide_true by reflexivity. apply does_ret, HQ, Hp3.
Qed.

(** *** One chunk *)

(** How a chunk of [n] locations from [o] on ends. *)
Definition chunk_read (o n : Z) (r : ChunkRead * list Z) (f : GearFleet) : Prop :=
  match fst r with
  | Complete => o + n <= e /\ (o <= 1 < o + n -> loc 1 <> None) /\ snd r = contents g bank start (o + n) /\
                at_pointer (Z.min (o + n) 255) f
  | Placeholder => o <= 1 < o + n /\ 1 < e /\ loc 1 = None /\ snd r = contents g bank start 2 /\
                   at_pointer (if adv 1 then 2 else 1) f
  | Unproved _ => False
  | Interrupted at_ failure =>
      at_ = e /\ failure = Silent /\ o <= e < o + n /\ (o <= 1 < e -> loc 1 <> None) /\
      snd r = contents g bank start e /\ exists d, (d = e \/ d = e + 1 /\ e < 255) /\ at_pointer d f
  end.

Lemma does_planned n : forall o f, start <= o <= e -> o + Z.of_nat n <= start + length -> at_pointer (Z.min o 255) f ->
  does (read_planned_locations (Short s) (seqZ o (Z.of_nat n)) (contents g bank start o)) (chunk_read o (Z.of_nat n)) f.
Proof.
  pose proof Hread as [(Hs1 & Hl & Hs2) Hend Hbefore Hat _]. unfold MEMORY_RESERVED_OFFSET, ALWAYS_ANSWERED_OFFSET in *.
  induction n as [|n IH]; intros o f Ho Hn Hp.
  { apply does_ret. unfold chunk_read. cbn [fst snd Z.of_nat]. rewrite Z.add_0_r. repeat split; try lia; apply Hp. }
  rewrite seqZ_cons by lia. replace (Z.pred (Z.of_nat (S n))) with (Z.of_nat n) by lia. cbn [read_planned_locations].
  rewrite Z.min_l in Hp by lia. destruct (here f _ _ Hp) as [_ Ha]. pose proof Hp as (_ & E1 & E0).
  apply does_bind, (does_read_location g s o); [exact s_range|exact Ha|]. rewrite E1, E0. intros f1 Hp1.
  apply (points_trans f _ _ f1 _ _ Hp) in Hp1. unfold location_read. destruct (loc o) as [v|] eqn:Ev.
  - rewrite (located_advances g bank o v Ev) in Hp1. cbn [andb] in Hp1.
    assert (o < e) as Hoe. { destruct (Z.eq_dec o e) as [->|]; [|lia]. destruct (Hat ltac:(lia)) as [Hn' _]. congruence. }
    assert (contents g bank start o ++ [v] = contents g bank start (o + 1)) as -> by (rewrite contents_snoc, Ev by lia; reflexivity).
    change (Z.succ o) with (o + 1). eapply does_mono; [apply (IH (o + 1))|]; try lia.
    { unfold LAST_MEMORY_LOCATION in Hp1. destruct (Z.ltb_spec o 255); [rewrite Z.min_l by lia; exact Hp1|].
      replace (Z.min (o + 1) 255) with o by lia. exact Hp1. }
    intros [read bytes] f2 _. unfold chunk_read. cbn [fst snd]. replace (o + 1 + Z.of_nat n) with (o + Z.of_nat (S n)) by lia.
    assert (o = 1 -> loc 1 <> None) as H1 by (intros ->; congruence).
    destruct read; try tauto.
    + intros (H2 & H3 & H4). split; [exact H2|]. split; [|exact H4]. intros Hx. destruct (Z.eq_dec o 1); [auto|apply H3; lia].
    + intros (H2 & H3). split; [|exact H3]. lia.
    + intros (H2 & H3 & H4 & H5 & H6). do 2 (split; [assumption|]). split; [lia|]. split; [|exact H6].
      intros Hx. destruct (Z.eq_dec o 1); [auto|apply H5; lia].
  - unfold MEMORY_RESERVED_OFFSET. destruct (Z.eqb_spec o 1) as [->|Ho1].
    + apply does_ret. unfold chunk_read. cbn [fst snd].
      assert (1 < e) as H1e. { destruct (Z.eq_dec 1 e) as [<-|]; [|lia]. destruct (Hat ltac:(lia)) as (_ & H1 & _). lia. }
      change 2 with (1 + 1). rewrite (contents_snoc g bank start 1), Ev by lia.
      split; [lia|]. split; [exact H1e|]. split; [reflexivity|]. split; [reflexivity|].
      unfold LAST_MEMORY_LOCATION in Hp1. destruct (adv 1); exact Hp1.
    + apply does_ret. unfold chunk_read. cbn [fst snd].
      assert (o = e) as -> by (destruct (Z.eq_dec o e); [assumption|]; destruct Ho1; apply Hbefore; [lia|exact Ev]).
      do 2 (split; [reflexivity|]). split; [lia|]. split; [lia|]. split; [reflexivity|].
      eexists; split; [|exact Hp1]. unfold LAST_MEMORY_LOCATION. destruct (adv e && (e <? 255)) eqn:Ea; [right|left]; lia.
Qed.

(** The chunk, with its proof: the pointer is where the chunk starts, or stayed at
    a silent reserved location. *)
Definition lost (o : Z) (f : GearFleet) : Prop := o = 2 /\ start <= 1 /\ loc 1 = None /\ adv 1 = false /\ at_pointer 1 f.

Lemma does_chunk o n f : start <= o <= e -> 0 <= n -> o < 256 -> o + n <= start + length -> at_pointer o f \/ lost o f ->
  does (read_proved_chunk (Short s) bank o n (contents g bank start o))
    (fun r f' => match r with
                 | Ok r => at_pointer o f /\ chunk_read o n r f' \/
                           lost o f /\ r = (Unproved (PpMoved true), contents g bank start o) /\ lost o f'
                 | Err _ => False
                 end) f.
Proof.
  intros Ho Hn Ho2 Hl Hp. pose proof Hread as [(Hs1 & _) _ _ _ _]. unfold read_proved_chunk. assert (in_u 8 o) as Hu by (unfold in_u; lia).
  rewrite wrap_id by exact Hu.
  match goal with |- does (if _ then transaction_exempt ?m else transaction ?m) ?Q f => enough (does m Q f) as H end.
  { case_if; [now apply does_transaction_exempt|now apply does_transaction]. }
  apply does_bind_ok. destruct Hp as [Hp|Hp].
  - apply (does_proof o false bank o); [exact Hp|]. intros f1 Hp1. rewrite proof_known, Z.eqb_refl. cbn [orb].
    rewrite bool_decide_true by reflexivity. cbn [negb]. apply does_bind. rewrite <- (Z2Nat.id n) by exact Hn.
    eapply does_mono; [apply does_planned; [exact Ho|lia|]|].
    + rewrite Z.min_l by lia. exact Hp1.
    + intros r f2 _ Hr. apply does_ret. left. split; [exact Hp|exact Hr].
  - pose proof Hp as (-> & H1 & H2 & H3 & H4). apply (does_proof 2 false bank 1); [exact H4|]. intros f1 Hp1.
    rewrite proof_known. cbn [Z.eqb orb andb Pos.eqb]. change (1 =? wrapping_sub 8 2 1) with true.
    rewrite bool_decide_false by discriminate. cbn [negb]. apply does_ret. right. split; [exact Hp|]. split; [reflexivity|].
    repeat split; try assumption; apply Hp1.
Qed.

(** *** The loop *)

(** The evidence of one silence at the end. *)
Definition one_silence : ResumeEvidence := MkEvidence false false false None 1 1 0.

Record at_head (c : ChunkCursor) (bytes : list Z) (f : GearFleet) : Prop := {
  ah_done : 0 <= cu_done c /\ start + cu_done c <= e;
  ah_bytes : bytes = contents g bank start (start + cu_done c);
  ah_unread : cu_indicator_unread c = indicator_silent g bank start (start + cu_done c);
  ah_pointer : at_pointer (Z.min (start + cu_done c) 255) f \/ lost (start + cu_done c) f /\ cu_placeholder_pending c = true;
  ah_evidence : cu_resume c = Some e -> cu_evidence c = one_silence;
  ah_rearms : cu_rearms c = Z.b2z (cu_indicator_reread c) }.

Definition at_end (c : ChunkCursor) (bytes : list Z) (f : GearFleet) : Prop :=
  bytes = contents g bank start e /\ cu_indicator_unread c = indicator_silent g bank start e /\
  exists d, (d = e \/ d = e + 1 /\ e < 255) /\ at_pointer d f.

Definition settled_to (r : SemanticResult (option ReadStop * (ChunkCursor * list Z))) (f : GearFleet) : Prop :=
  match r with
  | Ok (None, (c, bytes)) => at_head c bytes f
  | Ok (Some stop, (c, bytes)) => stop = BankEnded /\ e <= 255 /\ at_end c bytes f
  | Err _ => False
  end.

(** The indicator's flag does not depend on locations beside the reserved one. *)
Lemma indicator_same o e' : o <= e' -> (o <= 1 < e' -> loc 1 <> None) ->
  indicator_silent g bank start o = indicator_silent g bank start e'.
Proof.
  intros Ho H. unfold indicator_silent, MEMORY_RESERVED_OFFSET. destruct (loc 1) as [v|]; cbn [is_some negb]; [now rewrite !andb_false_r|].
  destruct (Z.ltb_spec 1 o), (Z.ltb_spec 1 e'); try reflexivity; try lia. destruct H; [lia|reflexivity].
Qed.

(** Going back to a location up to the reserved one or past it. *)
Lemma does_arm_at c bytes resume d1 d0 f :
  at_head c bytes f -> start <= resume <= start + cu_done c -> in_u 8 resume -> points f0 d1 d0 f ->
  indicator_silent g bank start (start + cu_done c) && (1 <? resume) = indicator_silent g bank start resume ->
  does (arm_at (Short s) bank start c resume bytes) (fun r f' => match r with Ok (c', b') => at_head c' b' f' | Err _ => False end) f.
Proof.
  intros [[H1 H1'] H2 H3 H4 H5 H6] Hr Hu Hp Hi. unfold arm_at. cbn [cut_to].
  apply does_bind_ok, (does_arm resume d1 d0); [exact Hu|exact Hp|]. intros f1 Hp1. apply does_ret.
  split; cbn; try assumption; try lia; replace (start + (resume - start)) with resume by lia.
  - rewrite H2. apply contents_take. lia.
  - rewrite H3. exact Hi.
  - left. unfold in_u in Hu. change (2 ^ 8) with 256 in Hu. rewrite Z.min_l by lia. exact Hp1.
Qed.

Lemma does_rearm c f : at_head c (contents g bank start 2) f -> start + cu_done c = 2 -> lost 2 f ->
  does (rearm_unproved (Short s) bank start c 2 (PpMoved true) (contents g bank start 2))
    (fun r f' => match r with Ok (c', b') => at_head c' b' f' | Err _ => False end) f.
Proof.
  intros Hh H2 Hlost. pose proof Hh as [_ _ _ Hp Hev Hre]. destruct Hlost as (_ & Hs1 & Hn1 & _ & Hp1).
  assert (cu_placeholder_pending c = true) as Epend.
  { rewrite H2 in Hp. destruct Hp as [Hp|[_ Hp]]; [|exact Hp]. destruct Hp as (_ & _ & E), Hp1 as (_ & _ & E'). rewrite E in E'. discriminate. }
  unfold rearm_unproved, MEMORY_RESERVED_OFFSET. rewrite Epend, bool_decide_true by reflexivity. cbn [andb].
  destruct (passes_location_0x01 bank c) eqn:Epass; cbn [orb].
  - apply (does_arm_at c _ 2 bank 1); try assumption; try (unfold in_u; lia). rewrite H2. now rewrite andb_true_r.
  - unfold passes_location_0x01 in Epass. apply orb_false_iff in Epass as [[_ Er]%orb_false_iff Hle]. rewrite Er in *. rewrite Hle.
    apply (does_arm_at _ _ 1 bank 1); try (unfold in_u; lia); [|cbn; lia|exact Hp1|].
    + destruct Hh as [A1 A2 A3 A4 A5 A6]. split; cbn; try assumption. rewrite A6, Er. reflexivity.
    + cbn. rewrite H2, andb_false_r. unfold indicator_silent. cbn. now rewrite andb_false_r.
Qed.

Lemma note_first : e <> 2 -> evidence_note evidence_NONE e e Silent = one_silence.
Proof.
  intros He. unfold evidence_note, silence_may_end_bank, ALWAYS_ANSWERED_OFFSET. rewrite Z.ltb_irrefl.
  rewrite (proj2 (Z.eqb_neq e 2)) by exact He. reflexivity.
Qed.
Lemma note_second : e <> 2 -> evidence_note one_silence e e Silent = MkEvidence false false false None 2 2 0.
Proof.
  intros He. unfold evidence_note, silence_may_end_bank, ALWAYS_ANSWERED_OFFSET. rewrite Z.ltb_irrefl.
  rewrite (proj2 (Z.eqb_neq e 2)) by exact He. reflexivity.
Qed.

Lemma does_resume c f0' f d : at_head c (contents g bank start (start + cu_done c)) f0' ->
  e < start + length -> (start + cu_done c <= 1 < e -> loc 1 <> None) -> (d = e \/ d = e + 1 /\ e < 255) -> at_pointer d f ->
  cu_placeholder_pending c = false ->
  does (resume_after (Short s) bank start c (start + cu_done c) e Silent (contents g bank start e)) settled_to f.
Proof.
  intros [[H1 H1'] H2 H3 _ H5 H6] He Hone Hd Hp Hpend. pose proof Hread as [(Hs1 & Hl & Hs2) Hend _ Hat _].
  destruct (Hat He) as (_ & Hne1 & Hne2 & Hbound). unfold MEMORY_RESERVED_OFFSET, ALWAYS_ANSWERED_OFFSET in *.
  unfold resume_after. assert (latched_field_start bank e = None) as ->.
  { unfold latched_field_start. unfold is_field_boundary in Hbound. destruct (field_containing bank e) as [fd|]; [|reflexivity].
    apply Z.eqb_eq in Hbound. rewrite Hbound, Z.ltb_irrefl. reflexivity. }
  cbn [cut_to]. rewrite contents_take by lia. set (c1 := c <| cu_indicator_unread := _ |>).
  assert (cu_indicator_unread c1 = indicator_silent g bank start e) as Eu.
  { cbn. rewrite H3, <- (indicator_same (start + cu_done c) e) by (lia || exact Hone). unfold MEMORY_RESERVED_OFFSET.
    unfold indicator_silent, MEMORY_RESERVED_OFFSET. destruct (Z.ltb_spec 1 (start + cu_done c)); [|now rewrite andb_false_r].
    rewrite (proj2 (Z.ltb_lt 1 e)) by lia. now rewrite andb_true_r. }
  unfold spend_retry. destruct (decide (cu_resume c = Some e)) as [Er|Er].
  - rewrite bool_decide_false by (cbn; tauto). change (cu_evidence c1) with (cu_evidence c). rewrite (H5 Er), (note_second Hne2). cbn.
    apply does_ret. split; [reflexivity|]. split; [lia|]. split; [reflexivity|]. split; [exact Eu|]. exists d. now split.
  - rewrite bool_decide_true by exact Er. cbn -[evidence_note]. rewrite (note_first Hne2). cbn.
    apply does_bind_ok, (does_arm e bank d); [unfold in_u; lia|exact Hp|]. intros f1 Hp1. apply does_ret. cbn [settled_to].
    split; cbn; try assumption; try lia; replace (start + (e - start)) with e by lia.
    + reflexivity.
    + exact Eu.
    + left. rewrite Z.min_l by lia. exact Hp1.
    + reflexivity.
Qed.

Lemma does_settle c f f1 n r : at_head c (contents g bank start (start + cu_done c)) f -> 0 < n -> start + cu_done c + n <= start + length ->
  at_pointer (start + cu_done c) f /\ chunk_read (start + cu_done c) n r f1 \/
  lost (start + cu_done c) f /\ r = (Unproved (PpMoved true), contents g bank start (start + cu_done c)) /\ lost (start + cu_done c) f1 ->
  does (settle (Short s) bank start c (start + cu_done c) n (fst r) (snd r)) settled_to f1.
Proof.
  intros Hh Hn Hl Hr. pose proof Hh as [[H1 H1'] H2 H3 H4 H5 H6]. unfold settle.
  set (c0 := c <| cu_placeholder_pending := false |> <| cu_freshly_armed := false |>).
  destruct Hr as [[Hp Hr]|(Hlost & -> & Hlost1)].
  - destruct r as [read bytes]. unfold chunk_read in Hr. cbn [fst snd] in *. destruct read as [| |proof|at_ failure].
    + destruct Hr as (He & Hone & -> & Hp1). apply does_ret. cbn [settled_to]. split; cbn; try assumption; rewrite ?Z.add_assoc; try lia.
      * reflexivity.
      * rewrite H3. apply indicator_same; [lia|exact Hone].
      * left. exact Hp1.
    + destruct Hr as (Ho & He & Hn1 & -> & Hp1). apply does_ret. cbn [settled_to]. unfold MEMORY_RESERVED_OFFSET.
      split; cbn; try assumption; replace (start + (1 + 1 - start)) with 2 by lia; try lia.
      * reflexivity.
      * unfold indicator_silent, MEMORY_RESERVED_OFFSET. rewrite Hn1, (proj2 (Z.leb_le start 1)) by lia. cbn. now rewrite !andb_true_r.
      * destruct (adv 1) eqn:Ea; [left; exact Hp1|right]. split; [|reflexivity]. repeat split; try assumption; try lia; apply Hp1.
    + destruct Hr.
    + destruct Hr as (-> & -> & He & Hone & -> & d & Hd & Hp1).
      apply (does_resume c0 f f1 d); try assumption; try reflexivity; [|cbn; lia].
      split; cbn; try assumption; [now split|]. left. rewrite Z.min_l; [exact Hp|].
      pose proof Hread as [(Hs1 & Hl' & Hs2) _ _ _ _]. lia.
  - pose proof Hlost as (E & _). cbn [fst snd]. apply does_bind_ok. rewrite E in *.
    assert (at_head c (contents g bank start 2) f1) as Hh1.
    { split; rewrite ?E; try assumption; try lia. right. split; [exact Hlost1|].
      destruct H4 as [Hp|[_ Hp]]; [|exact Hp]. destruct Hlost as (_ & _ & _ & _ & (_ & _ & E')). destruct Hp as (_ & _ & E'').
      rewrite E'' in E'. discriminate. }
    eapply does_mono; [apply (does_rearm c f1 Hh1 E Hlost1)|]. intros [[c' b']|err] f2 _ H; [|exact H]. apply does_ret. exact H.
Qed.

Definition loop_gives (r : option (SemanticResult ((ReadStop * bool) * list Z))) (f : GearFleet) : Prop :=
  match r with
  | None => mems f = mems f0
  | Some (Err _) => False
  | Some (Ok (stop, unread, bytes)) =>
      bytes = contents g bank start e /\ unread = indicator_silent g bank start e /\
      exists d, at_pointer d f /\
        match stop with
        | Planned => d = Z.min e 255
        | BankEnded => e <= 255 /\ (d = e \/ d = e + 1 /\ e < 255)
        end
  end.

Lemma does_chunks turns : forall c bytes f, at_head c bytes f ->
  does (chunk_turns (Short s) bank start turns length c bytes) loop_gives f.
Proof.
  pose proof Hread as [(Hs1 & Hl & Hs2) Hend Hbefore Hat Hind]. unfold MEMORY_RESERVED_OFFSET in *.
  induction turns as [|turns IH]; intros c bytes f Hh; pose proof Hh as [[H1 H1'] H2 H3 H4 H5 H6]; cbn [chunk_turns];
    (destruct (Z.ltb_spec (cu_done c) length) as [Hd|Hd]; [|]).
  1: { apply does_ret. cbn. destruct H4 as [Hp|[(_ & _ & _ & _ & Hp) _]]; apply Hp. }
  2: { apply does_bind, does_step_boundary.
    pose proof (chunk_take_range bank (start + cu_done c) (length - cu_done c) ltac:(lia)) as Htake. set (n := chunk_take _ _ _) in *.
    rewrite H2 in Hh |- *. apply does_bind. eapply does_mono; [apply (does_chunk (start + cu_done c) n f); try lia|].
    - destruct H4 as [Hp|[Hp _]]; [left|now right]. now rewrite Z.min_l in Hp by lia.
    - intros [[read bytes']|err] f1 _ Hr; [|destruct Hr]. cbn beta in Hr.
      apply does_bind. eapply does_mono; [apply (does_settle c f f1 n (read, bytes') Hh); [lia|lia|exact Hr]|].
      intros [[[stop|] [c' b']]|err] f2 _ Hs; [| |destruct Hs].
      + destruct Hs as (-> & He & -> & Hu & d & Hdd & Hp). apply does_ret. cbn [loop_gives].
        split; [reflexivity|]. split; [exact Hu|]. exists d. auto.
      + exact (IH c' b' f2 Hs). }
  all: assert (start + cu_done c = e /\ e = start + length) as [Ee El] by lia; apply does_ret; cbn [loop_gives]; rewrite Ee in *;
    (split; [exact H2|]); (split; [exact H3|]); exists (Z.min e 255); (split; [|reflexivity]);
    destruct H4 as [Hp|[(E2 & E1 & En & Ea & _) _]]; [exact Hp|]; now rewrite (Hind E2 E1 En) in Ea.
Qed.

Lemma head_armed f : at_pointer start f -> at_head cursor_armed [] f.
Proof.
  pose proof Hread as [(Hs1 & Hl & Hs2) Hend _ _ _]. unfold umax in Hs1. intros Hp. split; cbn; rewrite ?Z.add_0_r; try lia; try discriminate.
  - unfold contents. now rewrite Z.sub_diag.
  - unfold indicator_silent, MEMORY_RESERVED_OFFSET. destruct (Z.leb_spec start 1), (Z.ltb_spec 1 start); try lia; now rewrite ?andb_false_r.
  - left. rewrite Z.min_l by (cbn in Hs1; lia). exact Hp.
Qed.

(** The read, if its turns suffice. *)
Lemma does_read d1 d0 f : points f0 d1 d0 f ->
  does (read_memory_bank s bank start length)
    (fun r f' => (r = None \/ r = Some (MkExecution (contents g bank start e) (indicator_silent g bank start e) None)) /\
                 mems f' = mems f0) f.
Proof.
  intros Hp. pose proof Hread as [(Hs1 & Hl & Hs2) Hend _ _ _]. unfold read_memory_bank, validate_memory_read_range.
  rewrite (proj2 (Z.ltb_ge (umax 8) start)), (proj2 (Z.ltb_ge 256 (start + length))) by lia. cbn [orb].
  unfold dali_short_address, short. unfold in_u in s_range. change (2 ^ 6) with 64 in s_range.
  rewrite (proj2 (Z.ltb_ge 63 s)) by lia. cbn [ok_or].
  assert (in_u 8 start) as Hu by (unfold in_u, umax in *; lia).
  apply does_bind, (does_arm start d1 d0); [exact Hu|exact Hp|]. intros f1 Hp1.
  apply does_bind. eapply does_mono; [apply does_chunks, head_armed, Hp1|].
  intros [[[[stop unread] bytes]|err]|] f2 Hset Hr; [|destruct Hr|apply does_ret; split; [now left|exact Hr]].
  destruct Hr as (-> & -> & d & Hp2 & Hstop). unfold confirm_final_position. rewrite contents_length by lia.
  assert (Z.min (sat_add 16 start (e - start)) (umax 8) = Z.min e 255) as -> by (unfold sat_add, umax; lia).
  apply does_bind, does_bind_ok, does_transaction.
  apply (does_proof (Z.min e 255) (match stop with BankEnded => true | Planned => false end) bank d); [exact Hp2|].
  intros f3 Hp3. rewrite proof_known.
  assert ((d =? Z.min e 255) || (match stop with BankEnded => true | Planned => false end && (d =? sat_add 8 (Z.min e 255) 1)) = true) as ->.
  { destruct stop; [subst d; now rewrite Z.eqb_refl|]. destruct Hstop as [He [->|[-> He']]]; unfold sat_add, umax; lia. }
  apply does_ret. apply does_ret. split; [now right|apply Hp3].
Qed.

End Calm.
End MemoryCalm.
