(* ===== verification/CommissionRun.v ===== *)
(** * Commissioning on a calm bus

    What the walks of [Discovery] and [Commissioning] achieve on a bus nobody
    else uses: the search finds the least random address, programming gives it
    the least free short address, and the drain gives every gear in the session
    an address of its own. *)

From Stdlib Require Import String Sorted.
From S2P Require Import Prelude RulesBase Effects Gear GearCommand GearState Transport Banks GearModel Fleet.
From S2P Require Import FleetLaws Controller Majority Executor Discovery Commissioning CalmBus.

Module CommissionRun.
Import Gear GearCommand GearState Transport Banks GearModel Fleet FleetLaws Controller Majority Executor Discovery
  Commissioning CalmBus.

(** ** Fleets *)

Lemma omap_ext {A B} (f g : A -> option B) (l : list A) : (forall x, f x = g x) -> omap f l = omap g l.
Proof.
  intros H. induction l as [|x l IH]; [reflexivity|].
  change (omap ?h (?y :: ?m)) with (match h y with Some v => v :: omap h m | None => omap h m end).
  rewrite H, IH. reflexivity.
Qed.

Lemma omap_filter {A B} (p : A -> bool) (g : A -> option B) (l : list A) :
  omap (fun x => if p x then g x else None) l = omap g (List.filter p l).
Proof.
  induction l as [|x l IH]; [reflexivity|]. cbn [List.filter].
  change (omap ?h (x :: ?m)) with (match h x with Some v => v :: omap h m | None => omap h m end). rewrite IH.
  destruct (p x); reflexivity.
Qed.

(** [f'] is [f] but for time, search address, register and what its gear note. *)
Definition idle (f f' : GearFleet) : Prop :=
  cores f' = cores f /\ fl_rng f' = fl_rng f /\ fl_reserved f' = fl_reserved f /\
  (in_u 24 (search_of f) -> in_u 24 (search_of f')).

Lemma idle_refl f : idle f f.
Proof. split_and!; auto. Qed.

Lemma idle_trans f1 f2 f3 : idle f1 f2 -> idle f2 f3 -> idle f1 f3.
Proof. intros (A1 & B1 & C1 & D1) (A2 & B2 & C2 & D2). split_and!; [congruence..|auto]. Qed.

Lemma step_idle s f f' : in_u 24 s -> bus_step id s f f' -> idle f f'.
Proof. intros Hs (E & Es & Er & Ev). rewrite map_id in E. split_and!; try assumption. now rewrite Es. Qed.

Lemma step_same_idle f f' : bus_step id (search_of f) f f' -> idle f f'.
Proof. intros (E & Es & Er & Ev). rewrite map_id in E. split_and!; try assumption. now rewrite Es. Qed.

(** In the session and not taken out of it. *)
Definition in_session (k : GearCore) : bool := k_enabled k && k_initialise k && negb (k_withdrawn k).
Definition unaddressed (k : GearCore) : bool := k_enabled k && negb (is_some (k_short k)).
Definition at_short (s : Z) (k : GearCore) : bool := k_enabled k && opt_is (k_short k) s.

(** [r] is the least random address in the session. *)
Definition lowest (ks : list GearCore) (r : Z) : Prop :=
  (exists k, k ∈ ks /\ in_session k = true /\ k_random k = r) /\
  (forall k, k ∈ ks -> in_session k = true -> r <= k_random k).

Lemma lowest_exists ks : existsb in_session ks = true -> exists r, lowest ks r.
Proof.
  induction ks as [|k ks IH]; [discriminate|]. cbn. destruct (in_session k) eqn:Ek; cbn; intros H.
  - destruct (existsb in_session ks) eqn:Es.
    + destruct (IH eq_refl) as (r & (k' & Hin & Hk' & Hr) & Hmin). destruct (Z_le_gt_dec (k_random k) r) as [Hle|Hgt].
      * exists (k_random k). split; [exists k; repeat split; [left|assumption]|]. intros x Hx Hsx.
        apply elem_of_cons in Hx as [->|Hx]; [lia|]. specialize (Hmin x Hx Hsx). lia.
      * exists r. split; [exists k'; repeat split; try assumption; now right|]. intros x Hx Hsx.
        apply elem_of_cons in Hx as [->|Hx]; [lia|]. now apply Hmin.
    + exists (k_random k). split; [exists k; repeat split; [left|assumption]|]. intros x Hx Hsx.
      apply elem_of_cons in Hx as [->|Hx]; [lia|]. apply list_elem_of_In in Hx.
      assert (existsb in_session ks = true) by (apply existsb_exists; eauto). congruence.
  - destruct (IH H) as (r & (k' & Hin & Hk' & Hr) & Hmin). exists r.
    split; [exists k'; repeat split; try assumption; now right|]. intros x Hx Hsx.
    apply elem_of_cons in Hx as [->|Hx]; [congruence|]. now apply Hmin.
Qed.

(** What COMPARE finds at a search address. *)
Lemma compare_spec s ks : existsb (special_yes Compare s) ks = existsb (fun k => in_session k && (k_random k <=? s)) ks.
Proof. reflexivity. Qed.

Lemma compare_lowest s ks r : lowest ks r -> existsb (special_yes Compare s) ks = (r <=? s).
Proof.
  intros [(k & Hin & Hk & Hr) Hmin]. rewrite compare_spec. destruct (Z.leb_spec r s).
  - apply existsb_exists. exists k. rewrite <- list_elem_of_In. split; [assumption|]. rewrite Hk. cbn. lia.
  - destruct (existsb _ ks) eqn:E; [|reflexivity]. apply existsb_exists in E as (x & Hx & Ex).
    apply andb_true_iff in Ex as [Ex1 Ex2]. specialize (Hmin x). rewrite list_elem_of_In in Hmin. specialize (Hmin Hx Ex1). lia.
Qed.

(** ** Sessions *)

(** An address the worker does not use and at which nothing answers. *)
Definition free_at (used : list Z) (ks : list GearCore) (s : Z) : bool :=
  negb (existsb (Z.eqb s) used) && negb (existsb (at_short s) ks).
Definition free_among (shorts used : list Z) (ks : list GearCore) : list Z := List.filter (free_at used ks) shorts.
Definition all_shorts : list Z := seqZ 0 (MAX_SHORT_ADDRESS + 1).
Definition free_shorts (used : list Z) (ks : list GearCore) : list Z := free_among all_shorts used ks.

(** The gear of random address [r] gets the short address [s] and leaves the
    session. *)
Definition k_withdraw (k : GearCore) : GearCore := k <| k_withdrawn := true |>.
Definition k_programmed (s r : Z) (k : GearCore) : GearCore :=
  let k := if k_initialise k && negb (k_withdrawn k) && (k_random k =? r) then k_set_short (Some s) k else k in
  if k_initialise k && (k_random k =? r) then k_withdraw k else k.

(** Every gear in the session gets the address its random address is paired with. *)
Definition assigned (table : list (Z * Z)) (k : GearCore) : GearCore :=
  if in_session k then
    match List.find (fun p => fst p =? k_random k) table with
    | Some p => k_withdraw (k_set_short (Some (snd p)) k)
    | None => k
    end
  else k.

(** The types a gear can declare. *)
Definition proper_types (types : list Z) : Prop := NoDup types /\ Forall (fun t => 0 <= t < DEVICE_TYPE_NONE) types.

(** The random addresses of the session are in range. *)
Definition randoms_in_range (ks : list GearCore) : Prop :=
  Forall (fun k => in_session k = true -> 0 <= k_random k <= MAX_RANDOM_ADDRESS) ks.

(** A session the drain can bring to its end: [rs] are its random addresses in
    order, no two of its gear share one. *)
Record session_ready (used : list Z) (ks : list GearCore) (rs : list Z) : Prop := {
  sr_answers : Forall k_answers ks;
  sr_range : randoms_in_range ks;
  sr_enabled : Forall (fun k => k_initialise k = true -> k_enabled k = true) ks;
  sr_fresh : Forall (fun k => in_session k = true -> k_short k = None /\ proper_types (sp_device_types (k_spec k))) ks;
  sr_covered : Forall (fun k => unaddressed k = true -> in_session k = true) ks;
  sr_order : StronglySorted Z.lt rs;
  sr_randoms : rs ≡ₚ map k_random (List.filter in_session ks);
  sr_room : (length rs <= length (free_shorts used ks))%nat;
  sr_used : Forall (fun u => 0 <= u) used }.

Lemma filter_none {A} (p : A -> bool) l : existsb p l = false -> List.filter p l = [].
Proof. induction l as [|x l IH]; [easy|]. cbn. destruct (p x); [easy|exact IH]. Qed.

Lemma filter_both {A} (p q : A -> bool) l : List.filter (fun x => p x && q x) l = List.filter q (List.filter p l).
Proof. induction l as [|x l IH]; [easy|]. cbn. destruct (p x); cbn; rewrite IH; reflexivity. Qed.

Lemma filter_tail (p : Z -> bool) s l free : NoDup l -> List.filter p l = s :: free ->
  List.filter (fun x => p x && negb (x =? s)) l = free.
Proof.
  intros Hnd E. rewrite filter_both, E. cbn. rewrite Z.eqb_refl. cbn.
  assert (NoDup (s :: free)) as Hs by (rewrite <- E; apply NoDup_ListNoDup, NoDup_filter, NoDup_ListNoDup, Hnd).
  apply list.NoDup_cons in Hs as [Hs _]. rewrite list_elem_of_In in Hs. clear -Hs.
  induction free as [|x l IH]; [reflexivity|]. cbn in *. rewrite (proj2 (Z.eqb_neq x s)) by intuition. cbn. f_equal. intuition.
Qed.

Lemma find_head {A} (p : A -> bool) l : List.find p l = head (List.filter p l).
Proof. induction l as [|x l IH]; [easy|]. cbn. destruct (p x); [easy|exact IH]. Qed.

(** The gear programmed is the only one that changes. *)
Lemma session_split used ks r rs : session_ready used ks (r :: rs) ->
  exists l1 k l2, ks = l1 ++ k :: l2 /\ in_session k = true /\ k_random k = r /\
    (forall x, x ∈ l1 ++ l2 -> in_session x = true -> k_random x <> r) /\
    (forall s x, x ∈ l1 ++ l2 -> k_programmed s r x = x) /\
    (forall s, k_programmed s r k = k_withdraw (k_set_short (Some s) k)).
Proof.
  intros [_ _ Hen _ _ Hso Hrs _ _].
  assert (r ∈ map k_random (List.filter in_session ks)) as Hr by (rewrite <- Hrs; left).
  apply list_elem_of_fmap in Hr as (k & Er & Hk). apply list_elem_of_In, filter_In in Hk as [Hk Hs].
  apply in_split in Hk as (l1 & l2 & ->). exists l1, k, l2.
  assert (NoDup (map k_random (List.filter in_session (l1 ++ k :: l2)))) as Hnd.
  { rewrite <- Hrs. clear -Hso. induction Hso as [|x l Hso IH Hx]; [constructor|]. constructor; [|exact IH].
    intros Hin. rewrite list.Forall_forall in Hx. specialize (Hx _ Hin). lia. }
  assert (forall x, x ∈ l1 ++ l2 -> in_session x = true -> k_random x <> r) as Hother.
  { intros x Hx Hsx Ex. rewrite filter_app in Hnd. cbn in Hnd. rewrite Hs, map_app in Hnd. cbn in Hnd.
    apply list.NoDup_app in Hnd as (_ & Hn1 & Hn2). apply list.NoDup_cons in Hn2 as [Hn2 _].
    assert (forall l, x ∈ l -> r ∈ map k_random (List.filter in_session l)) as Hin.
    { intros l Hl. rewrite <- Ex. apply list_elem_of_fmap_2, list_elem_of_In, filter_In. split; [|assumption]. now apply list_elem_of_In. }
    apply elem_of_app in Hx as [Hx|Hx].
    - apply (Hn1 r (Hin _ Hx)). rewrite Er. left.
    - apply Hn2. rewrite <- Er. apply (Hin _ Hx). }
  split; [reflexivity|]. split; [assumption|]. split; [now rewrite Er|]. split; [assumption|]. split.
  - intros s x Hx. assert (k_initialise x = true -> k_enabled x = true) as Hex.
    { rewrite list.Forall_forall in Hen. apply Hen. apply elem_of_app in Hx as [Hx|Hx]; apply elem_of_app; [now left|right; now right]. }
    specialize (Hother x Hx). unfold k_programmed, in_session, k_random in *. destruct x as [sp en [] [] pe dr]; cbn in *; try reflexivity.
    + destruct (sp_random_address sp =? r) eqn:E; cbn; rewrite ?E; reflexivity.
    + rewrite (Hex eq_refl) in Hother. rewrite (proj2 (Z.eqb_neq _ _)) by auto. cbn. rewrite (proj2 (Z.eqb_neq _ _)) by auto. reflexivity.
  - intros s. unfold k_programmed, in_session, k_random in *. destruct k as [sp [] [] [] pe dr]; try discriminate. cbn in *.
    rewrite <- Er, Z.eqb_refl. cbn. now rewrite <- Er, Z.eqb_refl.
Qed.

Lemma in_session_fields k : in_session k = true -> k_enabled k = true /\ k_initialise k = true /\ k_withdrawn k = false.
Proof. unfold in_session. destruct (k_enabled k), (k_initialise k), (k_withdrawn k); easy. Qed.

Lemma assigned_done k s tab : in_session k = true ->
  let k' := k_withdraw (k_set_short (Some s) k) in
  in_session k' = false /\ unaddressed k' = false /\ assigned tab k' = k' /\ (forall x, at_short x k' = (s =? x)).
Proof.
  intros Hk k'. destruct (in_session_fields k Hk) as (E1 & E2 & _).
  assert (in_session k' = false) as Hs by (unfold in_session, k'; cbn; now rewrite andb_false_r).
  split; [exact Hs|]. split; [unfold unaddressed, k'; cbn; now rewrite andb_false_r|].
  split; [unfold assigned; now rewrite Hs|]. intros x. unfold at_short, k', k_short. cbn. now rewrite E1.
Qed.

Lemma NoDup_all_shorts : NoDup all_shorts.
Proof. apply NoDup_seqZ. Qed.
Lemma elem_of_all_shorts s : s ∈ all_shorts -> 0 <= s <= MAX_SHORT_ADDRESS.
Proof. intros Hs. apply elem_of_seqZ in Hs. lia. Qed.

Lemma elem_of_all_shorts_1 s : 0 <= s <= MAX_SHORT_ADDRESS -> s ∈ all_shorts.
Proof. intros Hs. apply elem_of_seqZ. lia. Qed.
#[local] Strategy opaque [all_shorts].

(** The addresses left free when one of them is given to a gear of the session. *)
Lemma free_among_head shorts used ks s free : free_among shorts used ks = s :: free ->
  s ∈ shorts /\ existsb (at_short s) ks = false.
Proof.
  intros Hfree. assert (In s (free_among shorts used ks)) as Hs by (rewrite Hfree; now left).
  unfold free_among in Hs. apply filter_In in Hs as [Hs Hsf]. apply andb_true_iff in Hsf as [_ Hsf]. apply negb_true_iff in Hsf.
  split; [now apply list_elem_of_In|exact Hsf].
Qed.

Lemma free_shorts_head used ks s free : free_shorts used ks = s :: free -> existsb (at_short s) ks = false.
Proof. intros E. exact (proj2 (free_among_head all_shorts used ks s free E)). Qed.

Lemma at_short_step l1 k l2 s x : in_session k = true -> k_short k = None ->
  existsb (at_short x) (l1 ++ k_withdraw (k_set_short (Some s) k) :: l2) = existsb (at_short x) (l1 ++ k :: l2) || (x =? s).
Proof.
  intros Hk Hshort. rewrite !existsb_app. cbn [existsb]. rewrite (proj2 (proj2 (proj2 (assigned_done k s [] Hk)))).
  assert (at_short x k = false) as -> by (unfold at_short; rewrite Hshort; apply andb_false_r).
  rewrite (Z.eqb_sym s x). destruct (existsb _ l1), (x =? s), (existsb _ l2); reflexivity.
Qed.

Lemma free_among_step shorts used l1 k l2 s free : NoDup shorts -> in_session k = true -> k_short k = None ->
  free_among shorts used (l1 ++ k :: l2) = s :: free ->
  free_among shorts (used ++ [s]) (l1 ++ k_withdraw (k_set_short (Some s) k) :: l2) = free.
Proof.
  intros Hnd Hk Hshort Hfree. unfold free_among in *. rewrite <- (filter_tail _ _ _ _ Hnd Hfree). apply filter_ext. intros x.
  unfold free_at. rewrite at_short_step, existsb_app by assumption. cbn. rewrite orb_false_r.
  destruct (x =? s), (existsb (Z.eqb x) used), (existsb (at_short x) (l1 ++ k :: l2)); reflexivity.
Qed.

Lemma Forall_middle {A} (P : A -> Prop) l1 (x y : A) l2 : Forall P (l1 ++ x :: l2) -> P y -> Forall P (l1 ++ y :: l2).
Proof.
  intros HP Hy. apply Forall_app in HP as [H1 H2]. apply List.Forall_cons_iff in H2 as [_ H2]. apply Forall_app.
  split; [assumption|]. now constructor.
Qed.

Lemma Forall_at {A} (P : A -> Prop) l1 (x : A) l2 : Forall P (l1 ++ x :: l2) -> P x.
Proof. intros HP. apply Forall_app in HP as [_ HP]. now apply List.Forall_cons_iff in HP as [HP _]. Qed.

Lemma programmed_split (l1 l2 : list GearCore) k s r :
  (forall x, x ∈ l1 ++ l2 -> k_programmed s r x = x) ->
  map (k_programmed s r) (l1 ++ k :: l2) = l1 ++ k_programmed s r k :: l2.
Proof.
  intros Hsame. rewrite map_app. cbn [map].
  f_equal; [|f_equal]; (rewrite <- map_id; apply map_ext_in; intros x Hx; apply Hsame, elem_of_app; apply list_elem_of_In in Hx; tauto).
Qed.

Lemma assigned_split tab (l1 l2 : list GearCore) k s r :
  in_session k = true -> k_random k = r ->
  (forall x, x ∈ l1 ++ l2 -> in_session x = true -> k_random x <> r) ->
  map (assigned tab) (l1 ++ k_withdraw (k_set_short (Some s) k) :: l2) = map (assigned ((r, s) :: tab)) (l1 ++ k :: l2).
Proof.
  intros Hk Er Hother.
  assert (forall x, x ∈ l1 ++ l2 -> assigned tab x = assigned ((r, s) :: tab) x) as Hrest.
  { intros x Hx. unfold assigned. destruct (in_session x) eqn:Ex; [|reflexivity]. cbn.
    specialize (Hother x Hx Ex). now rewrite (proj2 (Z.eqb_neq r (k_random x))) by auto. }
  rewrite !map_app. cbn [map]. rewrite (proj1 (proj2 (proj2 (assigned_done k s tab Hk)))).
  assert (assigned ((r, s) :: tab) k = k_withdraw (k_set_short (Some s) k)) as ->.
  { unfold assigned. rewrite Hk. cbn. now rewrite Er, Z.eqb_refl. }
  f_equal; [|f_equal]; apply map_ext_in; intros x Hx; apply Hrest, elem_of_app; apply list_elem_of_In in Hx; tauto.
Qed.

(** Programming the least random address leaves a session without it. *)
Lemma session_step used ks r rs s free :
  session_ready used ks (r :: rs) -> free_shorts used ks = s :: free ->
  let ks' := map (k_programmed s r) ks in
  session_ready (used ++ [s]) ks' rs /\ free_shorts (used ++ [s]) ks' = free /\ 0 <= s <= MAX_SHORT_ADDRESS /\
  (exists k, List.filter (at_short s) ks' = [k] /\ proper_types (sp_device_types (k_spec k))) /\
  (forall tab, map (assigned tab) ks' = map (assigned ((r, s) :: tab)) ks).
Proof.
  intros Hready Hfree ks'. destruct (session_split _ _ _ _ Hready) as (l1 & k & l2 & -> & Hk & Er & Hother & Hsame & Hnew).
  assert (ks' = l1 ++ k_withdraw (k_set_short (Some s) k) :: l2) as ->.
  { unfold ks'. rewrite programmed_split by apply Hsame. now rewrite Hnew. }
  clear Hsame Hnew. destruct Hready as [Ha Hr Hen Hf Hc Hso Hp Hroom Hu].
  destruct (in_session_fields k Hk) as (E1 & E2 & E3). destruct (Forall_at _ _ _ _ Hf Hk) as [Hshort Htypes].
  destruct (assigned_done k s [] Hk) as (Hgone & Hunad & _ & Hat).
  unfold free_shorts in *.
  destruct (free_among_head _ _ _ _ _ Hfree) as [Hs Hsf]. apply elem_of_all_shorts in Hs.
  pose proof (free_among_step _ _ _ _ _ _ _ NoDup_all_shorts Hk Hshort Hfree) as Hfree'.
  rewrite Hfree in Hroom. cbn [length] in Hroom.
  split; [|split; [exact Hfree'|split; [exact Hs|split]]].
  - split; try (eapply Forall_middle; [eassumption|]).
    + exact (Forall_at _ _ _ _ Ha).
    + intros _. exact (Forall_at _ _ _ _ Hr Hk).
    + intros _. exact E1.
    + intros Habs. congruence.
    + intros Habs. congruence.
    + now inversion Hso.
    + rewrite filter_app in *. cbn [List.filter] in *. rewrite Hk in Hp. rewrite Hgone. rewrite map_app in *. cbn [map] in Hp.
      rewrite Er in Hp. rewrite <- Permutation_middle in Hp. now apply Permutation_cons_inv in Hp.
    + unfold free_shorts. rewrite Hfree'. lia.
    + apply Forall_app. split; [exact Hu|]. constructor; [lia|constructor].
  - exists (k_withdraw (k_set_short (Some s) k)). split; [|exact Htypes]. rewrite filter_app. cbn [List.filter].
    rewrite existsb_app in Hsf. cbn [existsb] in Hsf. apply orb_false_iff in Hsf as [Hn1 Hn2]. apply orb_false_iff in Hn2 as [_ Hn2].
    rewrite !filter_none, Hat, Z.eqb_refl by assumption. reflexivity.
  - intros tab. now apply assigned_split.
Qed.

Section Runs.
Context {C : Type} {HC : DaliApplicationController C} {HB : CalmBus C}.
Implicit Types (f : GearFleet).
Notation act A := (eff C (SemanticResult A)).
Notation run := (does (C := C)).

(** ** Searching *)

Lemma does_set_search a (Q : SemanticResult unit -> GearFleet -> Prop) f :
  in_u 24 a -> in_u 24 (search_of f) -> (forall f', bus_step id a f f' -> Q (Ok tt) f') -> run (set_search_address a) Q f.
Proof.
  intros Ha Hs HQ. unfold set_search_address.
  assert (forall x, in_u 8 (Z.land x 0xFF)) as H8.
  { intros x. change 0xFF with (Z.ones 8). rewrite Z.land_ones by lia. apply Z.mod_pos_bound. lia. }
  apply does_bind_ok, does_send_special; [apply H8|reflexivity|]. intros f1 H1.
  apply does_bind_ok, does_send_special; [apply H8|reflexivity|]. intros f2 H2.
  apply does_send_special; [apply H8|reflexivity|]. intros f3 H3. apply HQ.
  pose proof (bus_step_trans _ _ _ _ _ _ _ H1 H2) as H12. pose proof (bus_step_trans _ _ _ _ _ _ _ H12 H3) as H.
  destruct H1 as (_ & S1 & _). destruct H2 as (_ & S2 & _). cbn [special_search] in *. rewrite S2, S1 in H.
  rewrite set_search_whole in H by assumption. exact H.
Qed.

Lemma does_compare (Q : SemanticResult bool -> GearFleet -> Prop) f :
  (forall f', bus_step id (search_of f) f f' -> Q (Ok (existsb (special_yes Compare (search_of f)) (cores f))) f') ->
  run compare_yes Q f.
Proof.
  intros HQ. unfold compare_yes. apply does_bind_ok, does_special; [easy|reflexivity|]. intros r f' Hb Hh. apply does_ret.
  rewrite (heard_yes _ _ _ Hh). apply HQ. exact Hb.
Qed.

Lemma does_probe a (Q : SemanticResult bool -> GearFleet -> Prop) f :
  in_u 24 a -> in_u 24 (search_of f) ->
  (forall f', bus_step id a f f' -> Q (Ok (existsb (special_yes Compare a) (cores f))) f') ->
  run (probe_search_address a) Q f.
Proof.
  intros Ha Hs HQ. unfold probe_search_address. apply does_transaction_exempt, does_bind_ok, does_set_search; [assumption..|].
  intros f1 H1. apply does_compare. intros f2 H2. pose proof (bus_step_trans _ _ _ _ _ _ _ H1 H2) as H12.
  destruct H1 as (E1 & S1 & _). rewrite map_id in E1. rewrite S1 in *. rewrite E1. apply HQ. exact H12.
Qed.

(** The turns are enough when the range is less than their power of two. *)
Lemma does_search_loop turns low high r (Q : SemanticResult Z -> GearFleet -> Prop) f :
  lowest (cores f) r -> 0 <= low <= r -> r <= high -> in_u 24 high -> high - low < 2 ^ Z.of_nat turns ->
  in_u 24 (search_of f) -> (forall f', idle f f' -> Q (Ok r) f') -> run (search_loop turns low high) Q f.
Proof.
  revert low high f. induction turns as [|turns IH]; intros low high f Hr Hl Hh Hu Ht Hs HQ.
  - change (2 ^ Z.of_nat 0) with 1 in Ht. cbn [search_loop].
    rewrite (proj2 (Z.ltb_ge low high)) by lia. replace low with r by lia.
    apply does_ret, HQ, idle_refl.
  - cbn [search_loop]. destruct (Z.ltb_spec low high); [|assert (low = r) as -> by lia; apply does_ret, HQ, idle_refl].
    rewrite Nat2Z.inj_succ, Z.pow_succ_r in Ht by lia. set (p := 2 ^ Z.of_nat turns) in *. clearbody p.
    assert (low <= low + (high - low) / 2 < high) as Hmid by dlia.
    assert (in_u 24 (low + (high - low) / 2)) as Hmu by (unfold in_u in *; lia).
    apply does_bind_ok, does_probe; [assumption..|]. intros f1 H1.
    pose proof (step_idle _ _ _ Hmu H1) as Hi. rewrite (compare_lowest _ _ r Hr).
    assert (lowest (cores f1) r) as Hr1 by (destruct Hi as [-> _]; exact Hr).
    assert (in_u 24 (search_of f1)) as Hs1 by (apply Hi, Hs).
    destruct (Z.leb_spec r (low + (high - low) / 2)) as [Hle|Hgt].
    + apply IH; [assumption|lia|lia|assumption|dlia|assumption|]. intros f2 H2. eapply HQ, idle_trans; eassumption.
    + apply IH; [assumption|lia|lia|assumption|dlia|assumption|]. intros f2 H2. eapply HQ, idle_trans; eassumption.
Qed.

Lemma does_any_unaddressed (Q : SemanticResult bool -> GearFleet -> Prop) f :
  Forall k_answers (cores f) -> (forall f', bus_step id (search_of f) f f' -> Q (Ok (existsb unaddressed (cores f))) f') ->
  run any_unaddressed_gear Q f.
Proof.
  intros Hd HQ. unfold any_unaddressed_gear. apply does_bind_ok, does_identity; [easy..|assumption|].
  intros r f' Hb Hh. apply does_ret. unfold core_answers in Hh.
  assert (existsb unaddressed (cores f) = is_yes r) as <-; [|now apply HQ].
  symmetry. apply (heard_constant unaddressed DALI_YES). unfold core_answers in Hh.
  rewrite (omap_ext _ (fun k => if k_matches Broadcast k then core_answer QueryMissingShortAddress k else None)); [exact Hh|].
  intros k. unfold unaddressed, k_matches. cbn. destruct (k_enabled k), (k_short k); reflexivity.
Qed.


(** What the search returns. *)
Definition search_result (ks : list GearCore) (r : SemanticResult (option Z)) : Prop :=
  match r with
  | Ok (Some a) => lowest ks a
  | Ok None => existsb in_session ks = false /\ existsb unaddressed ks = false
  | Err e => e = failed "unaddressed_gear_not_reached" /\ existsb in_session ks = false /\ existsb unaddressed ks = true
  end.

Lemma compare_all ks : randoms_in_range ks -> existsb (special_yes Compare MAX_RANDOM_ADDRESS) ks = existsb in_session ks.
Proof.
  intros Hr. rewrite compare_spec. induction Hr as [|k ks Hk Hks IH]; [reflexivity|]. cbn [existsb]. rewrite IH.
  destruct (in_session k); [|reflexivity]. specialize (Hk eq_refl). now rewrite (proj2 (Z.leb_le _ _)) by lia.
Qed.

Lemma does_find_lowest (Q : SemanticResult (option Z) -> GearFleet -> Prop) f :
  Forall k_answers (cores f) -> randoms_in_range (cores f) -> in_u 24 (search_of f) ->
  (forall r f', idle f f' -> search_result (cores f) r -> Q r f') -> run find_lowest_random_address Q f.
Proof.
  intros Hd Hr Hs HQ. unfold find_lowest_random_address.
  assert (in_u 24 MAX_RANDOM_ADDRESS) as Hmax by easy.
  apply does_bind_ok, does_probe; [assumption..|]. intros f1 H1. rewrite compare_all by assumption.
  pose proof (step_idle _ _ _ Hmax H1) as Hi. pose proof Hi as (Ec & _ & _ & Hs1). specialize (Hs1 Hs).
  destruct (existsb in_session (cores f)) eqn:Ein; cbn [negb].
  - destruct (lowest_exists _ Ein) as (r & Hlow). pose proof Hlow as [(k & Hin & Hk & Ek) _].
    assert (0 <= r <= MAX_RANDOM_ADDRESS) as Hrr.
    { rewrite <- Ek. unfold randoms_in_range in Hr. rewrite list.Forall_forall in Hr. exact (Hr k Hin Hk). }
    apply does_bind_ok. apply (does_search_loop _ _ _ r); rewrite ?Ec; try assumption; [lia|lia|reflexivity|].
    intros f2 H2. pose proof H2 as (Ec2 & _ & _ & Hs2). specialize (Hs2 Hs1).
    assert (in_u 24 r) as Hru by (unfold in_u, MAX_RANDOM_ADDRESS in *; lia).
    apply does_bind_ok, does_probe; [assumption..|]. intros f3 H3. rewrite Ec2, Ec, (compare_lowest _ _ r Hlow), Z.leb_refl.
    cbn [negb]. apply does_ret, HQ; [|exact Hlow]. eapply idle_trans; [exact Hi|]. eapply idle_trans; [exact H2|].
    now apply (step_idle r).
  - apply does_bind_ok, does_any_unaddressed; [now rewrite Ec|]. intros f2 H2. rewrite Ec.
    assert (idle f f2) as Hi2 by (eapply idle_trans; [exact Hi|now apply step_same_idle]).
    destruct (existsb unaddressed (cores f)) eqn:Eu; apply does_ret, HQ; try assumption; cbn; auto.
Qed.

(** ** The free address *)

Lemma does_present s (Q : SemanticResult DaliResponse -> GearFleet -> Prop) f :
  0 <= s <= MAX_SHORT_ADDRESS -> Forall k_answers (cores f) ->
  (forall r f', idle f f' -> is_yes r = existsb (at_short s) (cores f) -> Q (Ok r) f') ->
  run (send_standard_response (Short s) QueryControlGearPresent) Q f.
Proof.
  intros Hs Hd HQ. apply does_identity; [unfold MAX_SHORT_ADDRESS in Hs; cbn; unfold in_u; lia|easy|reflexivity|assumption|].
  intros r f' Hb Hh. apply HQ; [now apply step_same_idle|]. exact (heard_constant (at_short s) DALI_YES _ _ Hh).
Qed.

Lemma used_mask_bit used s : Forall (fun u => 0 <= u) used -> 0 <= s <= MAX_SHORT_ADDRESS ->
  (Z.land (used_mask used) (shl 64 1 s) =? 0) = negb (existsb (Z.eqb s) used).
Proof.
  intros Hu Hs. unfold MAX_SHORT_ADDRESS in Hs.
  assert (forall x, 0 <= x <= 63 -> shl 64 1 x = 2 ^ x) as Hshl.
  { intros x Hx. unfold shl. rewrite Z.shiftl_mul_pow2, Z.mul_1_l by lia. apply wrap_id. unfold in_u.
    split; [lia|]. apply Z.pow_lt_mono_r; lia. }
  assert (Z.testbit (used_mask used) s = existsb (Z.eqb s) used) as Hbit.
  { unfold used_mask. enough (forall acc, 0 <= acc -> Z.testbit (fold_left (fun used short =>
        if short <=? MAX_SHORT_ADDRESS then Z.lor used (shl 64 1 short) else used) used acc) s
        = Z.testbit acc s || existsb (Z.eqb s) used) as ->; [now rewrite Z.bits_0|lia|].
    induction Hu as [|u us Hu0 Hus IH]; intros acc Hacc; [now rewrite orb_false_r|]. cbn [fold_left existsb].
    unfold MAX_SHORT_ADDRESS in *. destruct (Z.leb_spec u 63).
    - rewrite Hshl, IH by (try apply Z.lor_nonneg; lia). rewrite Z.lor_spec, Z.pow2_bits_eqb by lia.
      rewrite (Z.eqb_sym u s). now rewrite orb_assoc.
    - rewrite IH by lia. rewrite (proj2 (Z.eqb_neq s u)) by lia. reflexivity. }
  rewrite Hshl by lia. rewrite <- Hbit. destruct (Z.testbit (used_mask used) s) eqn:E; cbn [negb].
  - apply Z.eqb_neq. intros H0. assert (Z.testbit (Z.land (used_mask used) (2 ^ s)) s = false) as Hf by now rewrite H0, Z.bits_0.
    rewrite Z.land_spec, E, Z.pow2_bits_true in Hf by lia. discriminate.
  - apply Z.eqb_eq. apply Z.bits_inj'. intros i Hi. rewrite Z.land_spec, Z.bits_0, Z.pow2_bits_eqb by lia.
    destruct (Z.eqb_spec s i) as [->|]; [rewrite E; reflexivity|apply andb_false_r].
Qed.

Lemma does_free_loop used shorts (Q : SemanticResult (option Z) -> GearFleet -> Prop) f :
  Forall (fun u => 0 <= u) used -> Forall (fun s => 0 <= s <= MAX_SHORT_ADDRESS) shorts -> Forall k_answers (cores f) ->
  (forall f', idle f f' -> Q (Ok (List.find (free_at used (cores f)) shorts)) f') -> run (free_loop (used_mask used) shorts) Q f.
Proof.
  intros Hu Hs Hd. revert f Hd. induction Hs as [|s shorts Hs0 Hs IH]; intros f Hd HQ; cbn [free_loop].
  { apply does_ret, HQ, idle_refl. }
  rewrite used_mask_bit by assumption. cbn [List.find] in HQ. unfold free_at at 1 in HQ.
  destruct (existsb (Z.eqb s) used); cbn [negb andb] in *; [now apply IH|].
  apply does_bind_ok, does_present; [assumption..|]. intros r f1 Hi Hy. rewrite Hy. pose proof Hi as (Ec & _).
  destruct (existsb (at_short s) (cores f)); cbn [negb] in HQ.
  - apply IH; rewrite Ec; [assumption|]. intros f2 H2. eapply HQ, idle_trans; eassumption.
  - apply does_ret, HQ, Hi.
Qed.

(** The least free address, if there is one. *)
Definition least_free (used : list Z) (ks : list GearCore) : option Z :=
  List.find (free_at used ks) all_shorts.

Lemma does_next_free used (Q : SemanticResult (option Z) -> GearFleet -> Prop) f :
  Forall (fun u => 0 <= u) used -> Forall k_answers (cores f) ->
  (forall f', idle f f' -> Q (Ok (least_free used (cores f))) f') -> run (next_free_short_address used) Q f.
Proof.
  intros Hu Hd HQ. apply does_free_loop; [assumption| |assumption..]. apply list.Forall_forall. intros s Hs.
  apply elem_of_seqZ in Hs. lia.
Qed.

(** ** Programming *)

Definition reserves (f : GearFleet) (s : Z) : bool := is_reserved (fl_reserved f) (Some s).

Lemma decode_encoded s : 0 <= s <= MAX_SHORT_ADDRESS -> decode_short_reply (encode_program_short_address s) = s.
Proof.
  intros Hs. unfold MAX_SHORT_ADDRESS in Hs.
  assert (forallb (fun s => decode_short_reply (encode_program_short_address s) =? s) (seqZ 0 64) = true) as H by reflexivity.
  rewrite forallb_forall in H. apply Z.eqb_eq, H, list_elem_of_In, elem_of_seqZ. lia.
Qed.

Lemma encoded_byte s : 0 <= s <= MAX_SHORT_ADDRESS -> in_u 8 (encode_program_short_address s).
Proof.
  intros Hs. unfold encode_program_short_address. apply in_u_lor; [lia| |easy]. unfold shl. apply wrap_range. lia.
Qed.

Lemma does_program r s (Q : SemanticResult unit -> GearFleet -> Prop) f :
  in_u 24 r -> in_u 24 (search_of f) -> 0 <= s <= MAX_SHORT_ADDRESS -> reserves f s = false ->
  (exists k, k ∈ cores f /\ in_session k = true /\ k_random k = r) ->
  (forall f', bus_step (k_programmed s r) r f f' -> Q (Ok tt) f') -> run (program_found_gear r s) Q f.
Proof.
  intros Hr Hsr Hs Hres (k & Hin & Hk & Ek) HQ. unfold program_found_gear. pose proof (encoded_byte s Hs) as He.
  apply does_bind_ok, does_set_search; [assumption..|]. intros f1 H1.
  apply does_bind_ok, does_send_special; [exact He|reflexivity|]. intros f2 H2.
  apply does_bind_ok, does_special; [exact He|reflexivity|]. intros resp f3 H3 Hh.
  pose proof H1 as (E1 & S1 & _ & V1). rewrite map_id in E1. pose proof H2 as (E2 & S2 & _ & V2).
  pose proof (bus_step_trans _ _ _ _ _ _ _ H1 H2) as H12. pose proof (bus_step_trans _ _ _ _ _ _ _ H12 H3) as H13.
  cbn [special_search] in *. rewrite S2, S1, V2, V1 in *.
  assert (is_yes resp = true) as ->.
  { rewrite (heard_yes _ _ _ Hh), E2, E1. apply existsb_exists.
    exists (special_core (ProgramShortAddress (encode_program_short_address s)) r (fl_reserved f) k).
    rewrite <- list_elem_of_In. split; [now apply list_elem_of_fmap_2|].
    unfold in_session in Hk. cbn [special_core special_yes]. rewrite decode_encoded by assumption.
    unfold reserves in Hres. rewrite Hres. unfold k_selected. rewrite Ek, Z.eqb_refl.
    destruct (k_enabled k) eqn:Een, (k_initialise k) eqn:Ei, (k_withdrawn k) eqn:Ew; try discriminate. cbn.
    rewrite Een, Ei. cbn. apply Z.eqb_refl. }
  cbn [negb]. apply does_send_special; [easy|reflexivity|]. intros f4 H4. apply HQ.
  pose proof (bus_step_trans _ _ _ _ _ _ _ H13 H4) as (E & Es & Er & Ev). pose proof H13 as (_ & S3 & _ & V3).
  cbn [special_search] in Es. rewrite S3 in Es. repeat split; try assumption. rewrite E. apply map_ext. intros x.
  unfold k_programmed. cbn [special_core id]. rewrite S3, decode_encoded by assumption. unfold reserves in Hres. rewrite Hres.
  destruct x as [sp en [] [] pe dr]; unfold k_selected, k_random; cbn; destruct (sp_random_address sp =? r) eqn:Erx; cbn;
    rewrite ?Erx; reflexivity.
Qed.

(** ** Detection *)

Lemma core_answers_filter s c ks : core_answers (Short s) c ks = omap (core_answer c) (List.filter (at_short s) ks).
Proof. exact (omap_filter (at_short s) (core_answer c) ks). Qed.

Lemma heard_single v r : heard true (merge_answers [v]) r -> r = RespAnswer v.
Proof. easy. Qed.
Lemma heard_none r : heard true (merge_answers []) r -> r = NoAnswer.
Proof. easy. Qed.

Lemma btree_insert_new x l : x ∉ l -> exists l', btree_insert x l = (true, l') /\ l' ≡ₚ x :: l.
Proof.
  induction l as [|y l IH]; intros Hx; [eexists; split; reflexivity|]. cbn. apply not_elem_of_cons in Hx as [Hne Hx].
  destruct (x <? y); [eexists; split; reflexivity|]. rewrite (proj2 (Z.eqb_neq x y)) by assumption.
  destruct (IH Hx) as (l' & -> & Hp). eexists. split; [reflexivity|]. rewrite Hp. apply Permutation_swap.
Qed.

(** The walk completes unless the gear has more types than the walk has turns. *)
Definition walk_result (types : list Z) (w : MaskWalk) : Prop :=
  match w with
  | WalkComplete set => set ≡ₚ types /\ Z.of_nat (length types) <= MAX_DEVICE_TYPES
  | WalkBroken contended => contended = false /\ MAX_DEVICE_TYPES < Z.of_nat (length types)
  end.

(** The address answers for one gear, the walks of which are at [i]. *)
Definition alone_at (s : Z) (k : GearCore) f : Prop := List.filter (at_short s) (cores f) = [k].

Lemma alone_types s k f g : alone_at s k f -> g ∈ fl_gears f -> gear_matches g (Short s) = true ->
  types_of g = sp_device_types (k_spec k).
Proof.
  intros Hk Hin Hm. rewrite matches_core in Hm by easy.
  assert (core g ∈ List.filter (at_short s) (cores f)) as Hg.
  { apply list_elem_of_In, filter_In. split; [|exact Hm]. apply list_elem_of_In. now apply list_elem_of_fmap_2. }
  rewrite Hk in Hg. apply list_elem_of_singleton in Hg. now rewrite <- Hg.
Qed.

Lemma next_type_answer s k f i :
  alone_at s k f ->
  omap (fun k => if k_matches (Short s) k
                 then Some (default DEVICE_TYPE_LIST_END (aget (sp_device_types (k_spec k)) i)) else None) (cores f) =
  [default DEVICE_TYPE_LIST_END (aget (sp_device_types (k_spec k)) i)].
Proof.
  intros Hk. pose proof (omap_filter (at_short s) (fun k => Some (default DEVICE_TYPE_LIST_END
    (aget (sp_device_types (k_spec k)) i))) (cores f)) as H. rewrite Hk in H. exact H.
Qed.

Lemma does_walk s k turns (Q : SemanticResult MaskWalk -> GearFleet -> Prop) : forall f set i,
  0 <= s <= MAX_SHORT_ADDRESS -> Forall k_answers (cores f) -> alone_at s k f -> proper_types (sp_device_types (k_spec k)) ->
  set ≡ₚ take i (sp_device_types (k_spec k)) -> (i <= length (sp_device_types (k_spec k)))%nat ->
  Z.of_nat i <= MAX_DEVICE_TYPES -> Z.of_nat turns = MAX_DEVICE_TYPES + 1 - Z.of_nat i ->
  walks_at (Short s) (fun _ => Some (Z.of_nat i)) f ->
  (forall w f', idle f f' -> walk_result (sp_device_types (k_spec k)) w -> Q (Ok w) f') ->
  run (walk_loop (Short s) turns set) Q f.
Proof.
  set (types := sp_device_types (k_spec k)).
  induction turns as [|turns IH]; intros f set i Hs Hd Hk [Hnd Hty] Hset Hi Hmax Ht Hw HQ; [lia|].
  cbn [walk_loop]. apply does_bind, does_query_once; [unfold MAX_SHORT_ADDRESS in Hs; cbn; unfold in_u; lia|easy|easy|easy|easy|].
  intros t t' o f1 r Haf Hb Hh.
  destruct (walk_steps (Short s) (at_time f t) o f1 (Z.of_nat i)) as [-> Hw1]; [easy|exact Hw|exact Haf|].
  pose proof (step_same_idle _ _ Hb) as Hidle. set (f2 := at_time f1 t') in *.
  change (cores (at_time f t)) with (cores f) in Hh. rewrite (next_type_answer s k f _ Hk) in Hh. fold types in Hh.
  apply heard_single in Hh as ->. cbn [response_value].
  assert (alone_at s k f2) as Hk2 by (unfold alone_at; destruct Hidle as [-> _]; exact Hk).
  assert (forall j, aget types (Z.of_nat j) = types !! j) as Hget by (intros j; unfold aget; now rewrite Nat2Z.id).
  rewrite Hget. destruct (types !! i) as [ty|] eqn:Ety; cbn [default].
  - pose proof (Forall_lookup_1 _ _ _ _ Hty Ety) as Hr. cbn beta in Hr. unfold DEVICE_TYPE_NONE in Hr.
    unfold default. cbn [from_option id]. unfold DEVICE_TYPE_NONE, DEVICE_TYPE_MASK.
    rewrite (proj2 (Z.eqb_neq ty 254)), (proj2 (Z.eqb_neq ty 255)) by lia.
    assert (ty ∉ set) as Hnew.
    { rewrite Hset. intros Hin. apply list_elem_of_lookup in Hin as (j & Hj). apply lookup_take_Some in Hj as [Hj Hlt].
      pose proof (NoDup_lookup _ _ _ _ Hnd Hj Ety). lia. }
    destruct (btree_insert_new ty set Hnew) as (set1 & -> & Hp).
    assert (set1 ≡ₚ take (S i) types) as Hset1.
    { rewrite Hp, (take_S_r _ _ _ Ety), Hset. apply Permutation_cons_append. }
    pose proof (lookup_lt_Some _ _ _ Ety) as Hlt. unfold MAX_DEVICE_TYPES in *.
    rewrite Hset1, length_take, Nat.min_l by lia. destruct (Z.ltb_spec 16 (Z.of_nat (S i))) as [Hfull|Hroom].
    + apply does_ret, HQ; [exact Hidle|]. cbn. unfold MAX_DEVICE_TYPES. split; [reflexivity|lia].
    + apply (IH f2 set1 (S i)); unfold MAX_DEVICE_TYPES; try assumption; try lia.
      * now destruct Hidle as [-> _].
      * now split.
      * intros g Hg Hm. specialize (Hw1 g Hg Hm). cbn beta in Hw1. rewrite (alone_types s k f2 g Hk2 Hg Hm) in Hw1.
        fold types in Hw1. rewrite Hget, Ety in Hw1. cbn in Hw1. rewrite Hw1. f_equal. lia.
      * intros w f3 H3 Hres. apply HQ; [|exact Hres]. eapply idle_trans; eassumption.
  - apply does_ret, HQ; [exact Hidle|]. apply lookup_ge_None in Ety. cbn. split; [|unfold MAX_DEVICE_TYPES in *; lia].
    rewrite Hset. now rewrite take_ge by lia.
Qed.

Lemma does_query_stable a (c : StandardCommand) (Q : SemanticResult (option Z) -> GearFleet -> Prop) f :
  address_ok a -> standard_ok c -> standard_is_query c = true -> reads_register c = false -> Forall k_answers (cores f) ->
  (forall t t' o f1 r, after_query a c (at_time f t) (o, f1) -> bus_step id (search_of f) f (at_time f1 t') ->
     heard true o r -> Q (Ok (response_value r)) (at_time f1 t')) ->
  run (send_standard_query_stable DISCOVERY_CONTENT_CONFIRM a c) Q f.
Proof.
  intros Ha Hc Hq Hr Hd HQ. unfold send_standard_query_stable, confirm_observed_query.
  apply does_bind_ok, does_query_observed; [assumption..|]. intros t t' o f1 r b Haf Hb Hh. apply does_ret. cbn. eauto.
Qed.

(** What the enumeration of the types of one gear returns. *)
Definition enum_result (types : list Z) (o : EnumerationOutcome) : Prop :=
  match o with
  | EnumDone q => tq_answered q = true /\ tq_enum_degraded q = false /\ tq_supported q ≡ₚ types /\
                  Z.of_nat (length types) <= MAX_DEVICE_TYPES
  | EnumBroken contended => contended = false /\ MAX_DEVICE_TYPES < Z.of_nat (length types)
  end.

Lemma does_enumerate s k (Q : SemanticResult EnumerationOutcome -> GearFleet -> Prop) f :
  0 <= s <= MAX_SHORT_ADDRESS -> Forall k_answers (cores f) -> alone_at s k f -> proper_types (sp_device_types (k_spec k)) ->
  (forall o f', idle f f' -> enum_result (sp_device_types (k_spec k)) o -> Q (Ok o) f') ->
  run (enumerate_device_types (Short s) DISCOVERY_CONTENT_CONFIRM) Q f.
Proof.
  intros Hs Hd Hk [Hnd Hty] HQ. unfold enumerate_device_types.
  apply does_bind_ok, does_query_stable; [unfold MAX_SHORT_ADDRESS in Hs; cbn; unfold in_u; lia|easy|easy|easy|easy|].
  intros t t' o f1 r Haf Hb Hh. pose proof (step_same_idle _ _ Hb) as Hidle. set (f2 := at_time f1 t') in *.
  pose proof (walk_opens (Short s) (at_time f t) o f1 ltac:(easy) Haf) as Hw.
  destruct Haf as (_ & _ & _ & _ & Eo). cbn [fst] in Eo. rewrite identity_answers in Eo by easy.
  change (map core (fl_gears (at_time f t))) with (cores f) in Eo. rewrite core_answers_filter, Hk in Eo.
  change (omap (core_answer QueryDeviceType) [k]) with (option_list (core_answer QueryDeviceType k)) in Eo.
  cbn [core_answer option_list] in Eo. rewrite Eo in Hh. apply heard_single in Hh as ->. cbn [response_value].
  assert (alone_at s k f2) as Hk2 by (unfold alone_at; destruct Hidle as [-> _]; exact Hk).
  destruct (sp_device_types (k_spec k)) as [|ty1 [|ty2 types]] eqn:Et.
  - cbn. apply does_ret, HQ; [exact Hidle|]. cbn. now repeat split.
  - apply List.Forall_cons_iff in Hty as [Hr _]. unfold DEVICE_TYPE_NONE in Hr.
    unfold DEVICE_TYPE_NONE, DEVICE_TYPE_MASK. rewrite (proj2 (Z.eqb_neq ty1 254)), (proj2 (Z.eqb_neq ty1 255)) by lia.
    apply does_ret, HQ; [exact Hidle|]. now repeat split.
  - change (DEVICE_TYPE_MULTIPLE =? DEVICE_TYPE_NONE) with false. change (DEVICE_TYPE_MULTIPLE =? DEVICE_TYPE_MASK) with true.
    cbn [negb]. apply does_bind_ok. apply (does_walk s k _ _ f2 [] 0); rewrite ?Et; [assumption| |exact Hk2|now split|reflexivity|cbn; lia|easy|easy| |].
    + now destruct Hidle as [-> _].
    + intros g Hg Hm. specialize (Hw g Hg Hm). cbn beta in Hw. now rewrite (alone_types s k f2 g Hk2 Hg Hm), Et in Hw.
    + intros w f3 H3 Hres. apply does_ret, HQ; [eapply idle_trans; eassumption|].
      destruct w as [set|c]; cbn in *; [now destruct Hres|exact Hres].
Qed.

(** The scan takes a gear whose walk does not complete as one of no known type. *)
Definition types_result (types : list Z) (q : SupportedDeviceTypesQuery) : Prop :=
  tq_answered q = true /\
  if MAX_DEVICE_TYPES <? Z.of_nat (length types) then q = MkTypesQuery true [] true
  else tq_enum_degraded q = false /\ tq_supported q ≡ₚ types.

Lemma does_types s k (Q : SemanticResult SupportedDeviceTypesQuery -> GearFleet -> Prop) f :
  0 <= s <= MAX_SHORT_ADDRESS -> Forall k_answers (cores f) -> alone_at s k f -> proper_types (sp_device_types (k_spec k)) ->
  (forall q f', idle f f' -> types_result (sp_device_types (k_spec k)) q -> Q (Ok q) f') ->
  run (query_types_with_scan_degrade (Short s) DiscoveryScan DISCOVERY_CONTENT_CONFIRM) Q f.
Proof.
  intros Hs Hd Hk Hty HQ. unfold query_types_with_scan_degrade. apply does_bind.
  unfold query_supported_device_types_with_policy. apply does_transaction_exempt.
  change (Z.to_nat (DEVICE_TYPE_ENUM_RERUNS + 1)) with 2%nat. cbn [enumerate_loop].
  apply does_bind_ok, (does_enumerate s k); [assumption..|]. intros o1 f1 H1 Ho1. destruct o1 as [q|c].
  { apply does_ret, does_ret, HQ; [exact H1|]. destruct Ho1 as (A & B & D & E). split; [exact A|].
    rewrite (proj2 (Z.ltb_ge _ _)) by lia. now split. }
  destruct Ho1 as [-> Hlong]. apply does_bind_ok, (does_enumerate s k); try assumption.
  { now destruct H1 as [-> _]. } { unfold alone_at. now destruct H1 as [-> _]. }
  intros o2 f2 H2 Ho2. destruct o2 as [q|c]; [destruct Ho2 as (_ & _ & _ & ?); lia|]. destruct Ho2 as [-> _].
  cbn [orb]. apply does_ret, does_ret. apply HQ; [eapply idle_trans; eassumption|]. split; [reflexivity|].
  now rewrite (proj2 (Z.ltb_lt _ _)) by lia.
Qed.

Lemma does_dt8_stable a op (Q : SemanticResult (option Z) -> GearFleet -> Prop) f :
  address_ok a -> in_u 8 op -> 0xE0 <= op -> (forall v f', idle f f' -> Q (Ok v) f') ->
  run (send_dt8_raw_query_stable DISCOVERY_CONTENT_CONFIRM a op) Q f.
Proof.
  intros Ha Ho Hle HQ. unfold send_dt8_raw_query_stable, confirm_observed_query.
  apply does_bind_ok, does_dt8_query; [assumption..|]. intros v b f' Hb. apply does_ret, HQ. now apply step_same_idle.
Qed.

Lemma does_reread a first (Q : SemanticResult (option Z) -> GearFleet -> Prop) f :
  address_ok a -> (forall v f', idle f f' -> Q (Ok v) f') ->
  run (reread_colour_type_features a DISCOVERY_CONTENT_CONFIRM first) Q f.
Proof.
  intros Ha HQ. unfold reread_colour_type_features, query_colour_type_features.
  apply does_bind_ok, does_dt8_stable; [assumption|easy..|]. intros v f1 H1. apply does_bind.
  assert (forall R : unit -> GearFleet -> Prop, R tt f1 ->
    run (match first, v with
         | Some 0, Some x => if negb (x =? 0) then modify (note_workaround ColourFeaturesCorrected) else ret tt
         | _, _ => ret tt
         end) R f1) as Hnote.
  { intros R HR. destruct first as [[]|], v as [x|]; try (now apply does_ret). destruct (negb (x =? 0)); [now apply does_workaround|now apply does_ret]. }
  apply Hnote, does_ret, HQ, H1.
Qed.

Lemma does_dt8_status a allow types (Q : SemanticResult Dt8Status -> GearFleet -> Prop) f :
  address_ok a -> (forall st f', idle f f' -> Q (Ok st) f') ->
  run (query_dt8_status a allow types DISCOVERY_CONTENT_CONFIRM) Q f.
Proof.
  intros Ha HQ. unfold query_dt8_status. destruct (negb _ && negb allow); [apply does_ret, HQ, idle_refl|].
  unfold query_dt8_capabilities, query_colour_type_features, query_dt8_color_mode_response.
  apply does_bind_ok, does_bind_ok, does_dt8_stable; [assumption|easy..|]. intros first f1 H1. apply does_bind_ok.
  assert (forall R : SemanticResult (option Z) -> GearFleet -> Prop, (forall v f', idle f f' -> R (Ok v) f') ->
    run (match first with
         | None | Some 0 => reread_colour_type_features a DISCOVERY_CONTENT_CONFIRM first
         | _ => ret (Ok first)
         end) R f1) as Hfirst.
  { intros R HR. destruct first as [[]|]; try (now apply does_ret, HR);
      (apply does_reread; [assumption|]; intros v f2 H2; apply HR; eapply idle_trans; eassumption). }
  apply Hfirst. intros features f2 H2. apply does_ret, does_bind_ok, does_bind_ok, does_dt8_stable; [assumption|easy..|].
  intros status f3 H3. apply does_ret. pose proof (idle_trans _ _ _ H2 H3) as H.
  destruct (negb (_ || _ || _)); apply does_ret, HQ, H.
Qed.

(** A gear alone at an address is detected there. *)
Definition described (s : Z) (k : GearCore) (d : DiscoveredDevice) : Prop :=
  let types := sp_device_types (k_spec k) in
  dd_short_address d = s /\ dd_random_address d = None /\
  dd_type_enum_degraded d = (MAX_DEVICE_TYPES <? Z.of_nat (length types)) /\
  (Z.of_nat (length types) <= MAX_DEVICE_TYPES -> DT8_DEVICE_TYPE ∈ types -> dd_device_type d = RtDt8Color).

Lemma dali_short s : 0 <= s <= MAX_SHORT_ADDRESS -> dali_short_address s = Ok (Short s).
Proof.
  intros Hs. unfold dali_short_address, short. unfold MAX_SHORT_ADDRESS in Hs. now rewrite (proj2 (Z.ltb_ge 63 s)) by lia.
Qed.

Lemma classify_dt8 supported : DT8_DEVICE_TYPE ∈ supported -> classify_supported_device_types supported = RtDt8Color.
Proof.
  intros Hin. unfold classify_supported_device_types.
  assert (existsb (Z.eqb DT8_DEVICE_TYPE) supported = true) as ->; [|reflexivity].
  apply existsb_exists. exists DT8_DEVICE_TYPE. rewrite <- list_elem_of_In. now rewrite Z.eqb_refl.
Qed.

Lemma does_detect s k (Q : SemanticResult (option DiscoveredDevice) -> GearFleet -> Prop) f :
  0 <= s <= MAX_SHORT_ADDRESS -> Forall k_answers (cores f) -> alone_at s k f -> proper_types (sp_device_types (k_spec k)) ->
  (forall d f', idle f f' -> described s k d -> Q (Ok (Some d)) f') -> run (detect_device s) Q f.
Proof.
  intros Hs Hd Hk Hty HQ. assert (address_ok (Short s)) as Ha by (unfold MAX_SHORT_ADDRESS in Hs; cbn; unfold in_u; lia).
  unfold detect_device. rewrite dali_short by assumption. apply does_bind_ok, does_ret.
  unfold probe_device_identity, probe_device_identity_with_policy.
  apply does_bind_ok, does_bind_ok, (does_types s k); [assumption..|]. intros q f1 H1 [Hans Hq].
  assert (forall st f', idle f f' ->
    run (if negb (tq_answered q) && negb (d8_supported st) then ret (Ok identity_default)
         else let '(device_type, color_mode, declared) :=
                fold_dt8_probe_into_identity (classify_supported_device_types (tq_supported q)) st (declared_device_types q) in
              ret (Ok (MkIdentity true device_type color_mode st (tq_enum_degraded q) declared)))
      (fun r f' => match r with
                   | Ok identity => run (if negb (di_detected identity) then ret (Ok None)
                                         else ret (Ok (Some (described_device s identity)))) Q f'
                   | Err e => Q (Err e) f'
                   end) f') as Hend.
  { intros st f' Hi. rewrite Hans. cbn [negb andb].
    destruct (fold_dt8_probe_into_identity _ st _) as [[ty mode] declared] eqn:Ef. apply does_ret. cbn [di_detected negb].
    apply does_ret, HQ; [exact Hi|]. unfold described. cbn.
    destruct (Z.ltb_spec MAX_DEVICE_TYPES (Z.of_nat (length (sp_device_types (k_spec k))))) as [Hlong|Hshort].
    - subst q. cbn. repeat split; intros; lia.
    - destruct Hq as [Hdeg Hsup]. repeat split; [exact Hdeg|]. intros _ Hin. rewrite <- Hsup in Hin.
      rewrite (classify_dt8 _ Hin) in Ef. unfold fold_dt8_probe_into_identity in Ef. rewrite bool_decide_true in Ef by reflexivity. congruence. }
  apply does_bind_ok. cbn zeta.
  match goal with |- run (if ?b then _ else _) _ _ => destruct b end.
  - apply does_dt8_status; [assumption|]. intros st f2 H2. apply Hend. eapply idle_trans; eassumption.
  - apply does_ret, Hend, H1.
Qed.

(** Where nothing answers, nothing is detected. *)
Lemma does_detect_none s (Q : SemanticResult (option DiscoveredDevice) -> GearFleet -> Prop) f :
  0 <= s <= MAX_SHORT_ADDRESS -> Forall k_answers (cores f) -> List.filter (at_short s) (cores f) = [] ->
  (forall f', idle f f' -> Q (Ok None) f') -> run (detect_device s) Q f.
Proof.
  intros Hs Hd Hk HQ. assert (address_ok (Short s)) as Ha by (unfold MAX_SHORT_ADDRESS in Hs; cbn; unfold in_u; lia).
  unfold detect_device. rewrite dali_short by assumption. apply does_bind_ok, does_ret.
  unfold probe_device_identity, probe_device_identity_with_policy.
  apply does_bind_ok, does_bind_ok. unfold query_types_with_scan_degrade. apply does_bind.
  unfold query_supported_device_types_with_policy. apply does_transaction_exempt.
  change (Z.to_nat (DEVICE_TYPE_ENUM_RERUNS + 1)) with 2%nat. cbn [enumerate_loop]. unfold enumerate_device_types.
  apply does_bind_ok, does_bind_ok, does_query_stable; [assumption|easy..|assumption|].
  intros t t' o f1 r Haf Hb Hh. pose proof (step_same_idle _ _ Hb) as Hidle.
  destruct Haf as (_ & _ & _ & _ & Eo). cbn [fst] in Eo. rewrite identity_answers in Eo by easy.
  change (map core (fl_gears (at_time f t))) with (cores f) in Eo. rewrite core_answers_filter, Hk in Eo.
  rewrite Eo in Hh. apply heard_none in Hh as ->. cbn [response_value]. do 4 apply does_ret. cbn.
  apply does_ret. now apply HQ.
Qed.

(** ** The drain *)

Definition outcome_is {A E} (Q : A -> GearFleet -> Prop) (r : Result A E) f : Prop :=
  match r with Ok a => Q a f | Err _ => False end.

Lemma head_free used ks s free : free_shorts used ks = s :: free -> least_free used ks = Some s.
Proof.
  intros E. unfold least_free. rewrite find_head. unfold free_shorts, free_among in E. now rewrite E.
Qed.

Definition none_reserved f : Prop := forall s, 0 <= s <= MAX_SHORT_ADDRESS -> reserves f s = false.

(** The fleet once the gear of random address [r] has the short address [s]. *)
Definition moved (s r : Z) f f' : Prop :=
  cores f' = map (k_programmed s r) (cores f) /\ in_u 24 (search_of f') /\ fl_reserved f' = fl_reserved f.

Lemma lowest_of_order used ks rs a : session_ready used ks rs -> lowest ks a -> head rs = Some a.
Proof.
  intros [_ _ _ _ _ Hso Hp _ _] [(k & Hin & Hk & Ek) Hmin].
  assert (a ∈ rs) as Ha.
  { rewrite Hp, <- Ek. apply list_elem_of_fmap_2, list_elem_of_In, filter_In. split; [now apply list_elem_of_In|exact Hk]. }
  destruct rs as [|r rs]; [now apply not_elem_of_nil in Ha|]. cbn. f_equal.
  assert (r ∈ map k_random (List.filter in_session ks)) as Hr by (rewrite <- Hp; left).
  apply list_elem_of_fmap in Hr as (x & -> & Hx). apply list_elem_of_In, filter_In in Hx as [Hx Hs].
  apply list_elem_of_In in Hx. specialize (Hmin x Hx Hs).
  apply elem_of_cons in Ha as [Ha|Ha]; [congruence|]. inversion Hso as [|? ? _ Hall]; subst.
  rewrite list.Forall_forall in Hall. specialize (Hall _ Ha). lia.
Qed.

Lemma no_session_order used ks rs : session_ready used ks rs -> existsb in_session ks = false -> rs = [].
Proof. intros [_ _ _ _ _ _ Hp _ _] He. rewrite (filter_none _ _ He) in Hp. now apply Permutation_nil_r in Hp. Qed.

(** One turn: the least random address gets the least free short address. *)
Lemma does_commission_once used retries rs
    (Q : Result (option DiscoveredDevice) AttemptFailure -> GearFleet -> Prop) f :
  session_ready used (cores f) rs -> in_u 24 (search_of f) -> none_reserved f -> 0 <= retries ->
  match rs with
  | [] => forall f', idle f f' -> Q (Ok None) f'
  | r :: _ => forall s free d f', free_shorts used (cores f) = s :: free -> dd_short_address d = s -> moved s r f f' ->
                Q (Ok (Some d)) f'
  end -> run (commission_next_unaddressed_once used retries) Q f.
Proof.
  intros Hready Hs Hres Hret HQ. unfold commission_next_unaddressed_once. pose proof Hready as [Ha Hr _ _ Hc _ _ Hroom Hu].
  apply does_bind_ok, does_map_err, does_find_lowest; [assumption..|]. intros [[r|]|e] f1 H1 Hfound; cbn in Hfound.
  - pose proof (lowest_of_order _ _ _ _ Hready Hfound) as Hhd. destruct rs as [|r0 rs]; [discriminate|]. injection Hhd as ->.
    destruct (free_shorts used (cores f)) as [|s free] eqn:Efree; [cbn in Hroom; lia|].
    destruct (session_step _ _ _ _ _ _ Hready Efree) as (_ & _ & Hsr & (k & Halone & Htypes) & _).
    pose proof H1 as (E1 & _ & V1 & S1). specialize (S1 Hs).
    apply does_bind_ok, does_map_err, does_next_free; [assumption|now rewrite E1|]. intros f2 H2.
    rewrite E1, (head_free _ _ _ _ Efree). pose proof H2 as (E2 & _ & V2 & S2). specialize (S2 S1).
    assert (in_u 24 r) as Hru.
    { destruct Hfound as [(x & Hx & Hsx & <-) _]. unfold randoms_in_range in Hr. rewrite list.Forall_forall in Hr. specialize (Hr x Hx Hsx).
      unfold in_u, MAX_RANDOM_ADDRESS in *. lia. }
    apply does_bind_ok, does_map_err, does_transaction_exempt, does_program; try assumption.
    { unfold reserves in *. rewrite V2, V1. now apply Hres. } { rewrite E2, E1. exact (proj1 Hfound). }
    intros f3 (E3 & S3 & _ & V3). rewrite E2, E1 in E3.
    apply does_map_err, does_bind_ok. unfold detect_programmed_device.
    assert (Z.to_nat (sat_add 8 retries 1) = S (Z.to_nat (sat_add 8 retries 1) - 1)) as ->
      by (unfold sat_add; change (umax 8) with 255; lia).
    cbn [detect_loop]. apply does_bind, (does_detect s k); [exact Hsr| |unfold alone_at; now rewrite E3|exact Htypes|].
    { rewrite E3. destruct (session_step _ _ _ _ _ _ Hready Efree) as ([Ha' _ _ _ _ _ _ _ _] & _). exact Ha'. }
    intros d f4 H4 (Hd & _). do 2 apply does_ret. apply (HQ s free d f4 eq_refl Hd).
    destruct H4 as (E4 & _ & V4 & S4). unfold moved. rewrite E4, V4, V3, V2, V1. split; [exact E3|].
    split; [|reflexivity]. apply S4. now rewrite S3.
  - destruct Hfound as [Hin _]. rewrite (no_session_order _ _ _ Hready Hin) in HQ. apply does_ret, HQ, H1.
  - destruct Hfound as (_ & Hin & Hun). apply existsb_exists in Hun as (x & Hx & Hux). apply list_elem_of_In in Hx.
    rewrite list.Forall_forall in Hc. specialize (Hc x Hx Hux).
    assert (existsb in_session (cores f) = true) by (apply existsb_exists; exists x; split; [now apply list_elem_of_In|assumption]).
    congruence.
Qed.

(** The drain gives the random addresses, in order, the free short addresses, in
    order; one turn more than there are gear is enough. *)
Lemma does_drain rs : forall fuel retries used published
    (Q : option (SemanticResult unit) * (list Z * list DiscoveredDevice) -> GearFleet -> Prop) f,
  session_ready used (cores f) rs -> in_u 24 (search_of f) -> none_reserved f -> 0 <= retries ->
  (length rs < fuel)%nat ->
  (forall f' found, let table := combine rs (free_shorts used (cores f)) in
     cores f' = map (assigned table) (cores f) -> fl_reserved f' = fl_reserved f -> in_u 24 (search_of f') ->
     map dd_short_address found = map snd table ->
     Q (Some (Ok tt), (used ++ map snd table, published ++ found)) f') ->
  run (commission_unaddressed_drain fuel retries used published) Q f.
Proof.
  induction rs as [|r rs IH]; intros fuel retries used published Q f Hready Hs Hres Hret Hfuel HQ;
    (destruct fuel as [|fuel]; [cbn in Hfuel; lia|]); cbn [commission_unaddressed_drain];
    unfold commission_next_unaddressed_with_retry_budget;
    (assert (Z.to_nat (sat_add 8 retries 1) = S (Z.to_nat (sat_add 8 retries 1) - 1)) as ->
       by (unfold sat_add; change (umax 8) with 255; lia));
    cbn [commission_next_loop]; apply does_bind, does_bind; eapply does_commission_once; try eassumption.
  - intros f' (E & _ & V & S). do 2 apply does_ret. specialize (HQ f' []). cbn in HQ. rewrite !app_nil_r in HQ.
    apply HQ; auto. rewrite E. symmetry. rewrite <- (map_id (cores f)) at 2. apply map_ext. intros k. unfold assigned.
    now destruct (in_session k).
  - cbn beta iota. intros s free d f' Efree Hd (E & S & V). apply does_ret.
    destruct (session_step _ _ _ _ _ _ Hready Efree) as (Hready' & Efree' & _ & _ & Htab). rewrite Hd. rewrite <- E in *.
    apply IH; try assumption.
    { intros x Hx. unfold reserves in *. rewrite V. now apply Hres. } { cbn in Hfuel. lia. }
    intros f2 found table E2 V2 S2 Hfound. unfold table in *. rewrite Efree' in *. rewrite Htab in E2.
    specialize (HQ f2 (d :: found)). rewrite Efree in HQ. cbn [combine map snd] in HQ. rewrite <- !app_assoc in *.
    apply HQ; [exact E2|congruence|exact S2|]. cbn. now rewrite Hd, Hfound.
Qed.

(** ** A whole pass *)

(** A command that is sent twice, as the fleet hears it. *)
Lemma repeated_special s c :
  requires_repeat (Special s) = true -> special_expects_backward s = false -> calm c ->
  wp (send_special s) (fun r c' => calm c' /\ r = Ok tt /\ exists t1 t2, time_of c <= t1 /\ t1 <= t2 /\ t2 <= time_of c' /\
    fleet_of c' = snd (exchange (advance_to_ms (snd (exchange (advance_to_ms (fleet_of c) t1) (special_frame s) false)) t2)
                         (special_frame s) false)) c.
Proof.
  intros Hr He Hc. unfold send_special, semantic, send_command. apply wp_bind_ok, wp_map_err, wp_bind_ok.
  eapply wp_mono; [exact (calm_send (Special s) c Hc)|]. cbn beta. intros [[r b]|e] c' [Hc' H]; [|destruct H].
  apply wp_ret, wp_ret. split; [exact Hc'|]. split; [reflexivity|]. cbn [all_ok fst] in H.
  destruct H as (v1 & o & Hv & Hp & _). cbn [enable_frame] in Hv. subst v1. rewrite Hr in Hp. cbn [is_query] in Hp. rewrite He in Hp.
  destruct Hp as (v2 & o2 & (t1 & [H1 H1'] & E1) & (t2 & [H2 H2'] & E2)). cbn [fst snd] in *.
  exists t1, t2. split; [exact H1|]. split; [lia|]. split; [exact H2'|].
  change (command_frame (Special s)) with (special_frame s) in *. rewrite E1. cbn [snd]. rewrite E2. reflexivity.
Qed.

(** The fleet once the unaddressed gear have joined and drawn. *)
Definition opened (ks : list GearCore) (rng : Z) : list GearCore := fst (thread k_drawn (map (k_enter 0xFF) ks) rng).

(** What the pair of RANDOMISE frames leaves. *)
Lemma randomise_pair f t1 t2 eb :
  settled f -> (forall g, g ∈ fl_gears f -> opt_is (g_pending_repeat g) randomise_frame = false) ->
  let f1 := advance_to_ms f t1 in
  let f2 := advance_to_ms (snd (exchange f1 randomise_frame eb)) t2 in
  let f3 := snd (exchange f2 randomise_frame eb) in
  let ready := sat_add 64 (fl_now_ms f2) RANDOM_ADDRESS_READY_MS in
  cores f3 = fst (thread (k_draw ready) (cores f) (fl_rng f)) /\ search_of f3 = search_of f /\ fl_reserved f3 = fl_reserved f /\
  fl_now_ms f2 = Z.max (Z.max (fl_now_ms f) t1) t2.
Proof.
  intros Hs Hp. cbn zeta. rewrite (advance_settled f t1 Hs). set (f1 := f <| fl_now_ms := _ |>).
  assert (forall g, g ∈ fl_gears f1 -> gear_holds g randomise_frame = false) as Hp1.
  { intros g Hin. exact (Hp g Hin). }
  destruct (randomise_arms f1 eb Hp1) as (Eg & Ec & Es & (R1 & V1 & N1)). set (f2 := snd _) in *.
  assert (settled f2) as Hs2 by (unfold settled; rewrite Ec; exact Hs).
  rewrite (advance_settled f2 t2 Hs2). set (f3 := f2 <| fl_now_ms := _ |>).
  assert (forall g, g ∈ fl_gears f3 -> gear_holds g randomise_frame = g_enabled g) as Hp3.
  { intros g Hin. change (g ∈ fl_gears f2) in Hin. rewrite Eg in Hin. apply list_elem_of_fmap in Hin as (g0 & -> & Hin).
    destruct (quiet_gear_fields g0) as (Ecg & _ & Epg). unfold gear_holds. rewrite Epg, (Hp1 g0 Hin).
    assert (g_enabled (quiet_gear g0) = g_enabled g0) as -> by exact (f_equal k_enabled Ecg).
    destruct (g_enabled g0); [|reflexivity]. cbn. apply Z.eqb_refl. }
  destruct (randomise_draws f3 eb Hp3) as (Ec3 & _ & Es3 & V3 & _).
  change (cores f3) with (cores f2) in Ec3. change (fl_rng f3) with (fl_rng f2) in Ec3. rewrite Ec, R1 in Ec3.
  split; [exact Ec3|]. split; [rewrite Es3; exact Es|]. split; [rewrite V3; exact V1|]. cbn. now rewrite N1.
Qed.

(** Beginning takes the unaddressed gear into the session, and by the time it
    returns each has its new random address. *)
Lemma does_begin (Q : SemanticResult unit -> GearFleet -> Prop) f :
  (forall f', cores f' = opened (cores f) (fl_rng f) -> search_of f' = search_of f -> fl_reserved f' = fl_reserved f ->
     Q (Ok tt) f') ->
  run begin_unaddressed_commissioning Q f.
Proof.
  intros HQ c Hc Hf Hs. unfold begin_unaddressed_commissioning. apply wp_bind_ok.
  set (armed := fun (v : View) => exists ready, ready <= Z.min (umax 64) (snd v + RANDOM_ADDRESS_READY_MS) /\
    cores (fst v) = fst (thread (k_draw ready) (map (k_enter 0xFF) (cores f)) (fl_rng f)) /\
    search_of (fst v) = search_of f /\ fl_reserved (fst v) = fl_reserved f).
  eapply wp_mono; [apply (calm_transaction_exempt _ _ (fun r v => r = Ok tt /\ armed v) c Hc)|].
  - intros c1 Hc1 Ef Et. apply wp_bind_ok. eapply wp_mono; [apply (repeated_special (Initialise 0xFF)); [reflexivity..|exact Hc1]|].
    cbn beta. intros r c2 (Hc2 & -> & t1 & t2 & H1 & H2 & H3 & E2).
    apply wp_bind_ok. eapply wp_mono; [apply (repeated_special Randomise); [reflexivity..|exact Hc2]|].
    cbn beta. intros r c3 (Hc3 & -> & t3 & t4 & H4 & H5 & H6 & E3). apply wp_ret. split; [exact Hc3|]. split; [reflexivity|].
    rewrite Et in H1. rewrite Ef in E2.
    assert (settled (now_fleet c)) as Hs' by now rewrite Hf.
    rewrite (now_fleet_at c Hs' t1 H1), Hf in E2.
    set (f0 := at_time f (Z.max (fl_now_ms f) t1)) in *.
    assert (settled f0) as Hs0 by exact Hs. assert (in_u 8 0xFF) as H8 by (unfold in_u; lia).
    destruct (initialise_pair f0 0xFF t2 false H8 Hs0) as (Ec2 & Es2 & R2 & V2 & P2).
    unfold initialise_frame in *. rewrite <- E2 in Ec2, Es2, R2, V2, P2.
    assert (settled (fleet_of c2)) as Hs2.
    { unfold settled in *. rewrite Ec2, List.Forall_map. eapply List.Forall_impl; [|exact Hs]. intros k Hk.
      unfold k_settled, k_enter in *. destruct (_ && _); exact Hk. }
    destruct (randomise_pair (fleet_of c2) t3 t4 false Hs2 P2) as (Ec3 & Es3 & V3 & N3).
    unfold randomise_frame in *. rewrite <- E3 in Ec3, Es3, V3.
    exists (sat_add 64 (fl_now_ms (advance_to_ms (snd (exchange (advance_to_ms (fleet_of c2) t3) (special_frame Randomise) false)) t4))
              RANDOM_ADDRESS_READY_MS).
    cbn [fst snd]. split; [rewrite N3; pose proof (calm_clock c2 Hc2); unfold sat_add, RANDOM_ADDRESS_READY_MS; lia|].
    change (cores f0) with (cores f) in Ec2. change (search_of f0) with (search_of f) in Es2. change (fl_rng f0) with (fl_rng f) in R2.
    change (fl_reserved f0) with (fl_reserved f) in V2. rewrite Ec3, Ec2, R2, Es3, V3, Es2, V2. repeat split.
  - cbn beta. intros r c1 (Hc1 & -> & ready & Hready & Ec & Es & V). cbn [fst snd] in *.
    apply wp_bind. destruct (calm_sleep RANDOMISE_SETTLE_MS c1 Hc1) as (Hc2 & Ef2 & Et2). unfold modify, wp, ret. cbn [fst snd].
    set (c2 := sleep_ms RANDOMISE_SETTLE_MS c1) in *.
    assert (Forall k_settled (map (k_enter 255) (cores f))) as Hk.
    { rewrite List.Forall_map. eapply List.Forall_impl; [|exact Hs]. intros k Hk. unfold k_settled, k_enter in *. now destruct (_ && _). }
    destruct (drawn_ripe ready _ (fl_rng f) Hk) as [Hdrawn Hripe].
    assert (cores (now_fleet c2) = opened (cores f) (fl_rng f)) as Ec2.
    { unfold now_fleet. rewrite cores_ripe; [rewrite Ef2, Ec; exact Hdrawn|]. unfold ripe_by. rewrite Ef2, Ec.
      eapply List.Forall_impl; [|exact Hripe]. cbn beta. intros k Hr p Hp. specialize (Hr p Hp).
      unfold RANDOMISE_SETTLE_MS, RANDOM_ADDRESS_READY_MS in *. lia. }
    split; [exact Hc2|]. split.
    + unfold settled. rewrite Ec2. unfold opened. rewrite <- Hdrawn, List.Forall_map. apply List.Forall_forall.
      intros k _. apply k_ripen_settled.
    + apply HQ; [exact Ec2| |]; unfold now_fleet, search_of in *; cbn; rewrite Ef2; assumption.
Qed.

(** A whole pass: the unaddressed gear draw random addresses and get the free
    short addresses in their order; in the end no gear is in a session. *)
Definition closed (k : GearCore) : GearCore := k <| k_initialise := false |> <| k_withdrawn := false |>.
Definition commissioned (used rs : list Z) (ks : list GearCore) : list GearCore :=
  map (fun k => closed (assigned (combine rs (free_shorts used ks)) k)) ks.

Lemma does_commission_pass fuel retries used rs
    (Q : option (SemanticResult unit) * (list Z * list DiscoveredDevice) -> GearFleet -> Prop) f :
  let ks := opened (cores f) (fl_rng f) in
  session_ready used ks rs -> in_u 24 (search_of f) -> none_reserved f -> 0 <= retries -> (length rs < fuel)%nat ->
  (forall f' found, let shorts := map snd (combine rs (free_shorts used ks)) in
     cores f' = commissioned used rs ks -> map dd_short_address found = shorts ->
     Q (Some (Ok tt), (used ++ shorts, found)) f') ->
  run (commission_unaddressed_once fuel retries used) Q f.
Proof.
  intros ks Hready Hs Hres Hret Hfuel HQ. unfold commission_unaddressed_once. apply does_bind, does_begin.
  intros f1 E1 S1 V1. apply does_bind. fold ks in E1.
  apply (does_drain rs); rewrite ?E1, ?S1; try assumption.
  { intros s Hsr. unfold reserves. rewrite V1. now apply Hres. }
  intros f2 found table E2 V2 S2 Hfound. apply does_bind. unfold terminate_unaddressed_commissioning.
  apply does_send_special; [easy|reflexivity|]. intros f3 (E3 & _). apply does_ret. cbn [fst snd option_map app].
  apply HQ; [|exact Hfound]. rewrite E3, E2, map_map. reflexivity.
Qed.

End Runs.

End CommissionRun.
