(* ===== verification/CalmController.v ===== *)
(** * The controller on a calm transport

    On a transport that reports what the fleet answered and hears nobody else,
    [DaliController] without a lease and without a hold is a [CalmBus]: no frame
    is retried, repeated or lost, and the brackets run their closure once. *)

From Stdlib Require Import String.
From S2P Require Import Prelude RulesBase Effects Gear GearCommand GearState Transport Banks GearModel Fleet.
From S2P Require Import FleetLaws Controller Majority Executor CalmBus.

Module CalmController.
Import Gear GearCommand GearState Transport Banks GearModel Fleet FleetLaws Controller Majority Executor CalmBus.

(** ** Calm transports *)

(** What a transport reports of the fleet's outcome: of overlapping answers it
    may decode a byte, and nobody listens where no answer is expected. *)
Definition reports (expects_backward : bool) (o reported : TransferOutcome) : Prop :=
  if expects_backward then
    match o with
    | OutAnswer v => reported = OutAnswer v
    | OutNoAnswer => reported = OutNoAnswer
    | OutCorruptedInWindow => reported = OutCorruptedInWindow \/ exists v, reported = OutAnswer v
    | _ => False
    end
  else reported <> OutCollision /\ reported <> OutBusBusy.

Class CalmTransport (W T : Type) {HW : World W} {HT : DaliTransport W T} := {
  ct_fleet : T -> GearFleet;
  ct_time : W -> Z;
  ct_calm : T -> W -> Prop;
  ct_clock : forall t w, ct_calm t w -> fl_now_ms (ct_fleet t) <= ct_time w;
  ct_reading : forall t w, ct_calm t w ->
    ct_calm t (snd (monotonic_ms w)) /\ ct_time w <= ct_time (snd (monotonic_ms w));
  ct_sleep : forall us t w, ct_calm t w ->
    ct_calm t (sleep_us us w) /\ ct_time w <= ct_time (sleep_us us w) /\
    Z.min (umax 64) (ct_time w + us / 1000) <= ct_time (sleep_us us w);
  ct_exchange : forall frame eb settle t w, ct_calm t w ->
    let '(reported, (t', w')) := exchange_frame_with_settle frame eb settle (t, w) in
    ct_calm t' w' /\ foreign_activity t' = foreign_activity t /\
    exists o r, reported = Some r /\ plays frame eb (ct_fleet t, ct_time w) o (ct_fleet t', ct_time w') /\ reports eb o r;
  ct_settle : forall t w, ct_calm t w ->
    match last_tx_settle_ticks t with Some ticks => ticks * PHY_TICK_US < SEND_TWICE_MAX_INTERVAL_US | None => True end }.

Section Calm.
Context {W T : Type} {HW : World W} {HT : DaliTransport W T} {HC : CalmTransport W T}.
Notation DC := (DaliController W T).
Implicit Types (c : DC).

Definition dc_view c : View := (ct_fleet (dc_transport c), ct_time (dc_world c)).

(** Nobody interrupts, and the unit being sent, if any, is whole. *)
Definition dc_calm c : Prop :=
  ct_calm (dc_transport c) (dc_world c) /\ dc_lease c = None /\ dc_hold c = false /\ unit_broken_by c = None /\
  1 <= effective_max_attempts (dc_retry_policy c).

Lemma plays_widen frame eb f t0 t1 o f' t2 t3 :
  t0 <= t1 -> t2 <= t3 -> plays frame eb (f, t1) o (f', t2) -> plays frame eb (f, t0) o (f', t3).
Proof. intros H0 H3 (t & [Ht1 Ht2] & E). exists t. cbn [fst snd] in *. split; [lia|exact E]. Qed.

(** *** Steps that leave the fleet alone *)

(** [m] ends calm with the fleet as it was, some time later, and its result in [P]. *)
Definition rests {A} (m : eff DC A) (P : A -> Prop) : Prop :=
  forall c, dc_calm c -> wp m (fun a c' => P a /\ dc_calm c' /\ ct_fleet (dc_transport c') = ct_fleet (dc_transport c) /\
    ct_time (dc_world c) <= ct_time (dc_world c')) c.

Lemma rests_ret {A} (a : A) (P : A -> Prop) : P a -> rests (ret a) P.
Proof. intros HP c Hc. apply wp_ret. split; [exact HP|]. split; [exact Hc|]. split; [reflexivity|lia]. Qed.

Lemma rests_bind {A B} (m : eff DC A) (k : A -> eff DC B) P Q :
  rests m P -> (forall a, P a -> rests (k a) Q) -> rests (bind m k) Q.
Proof.
  intros Hm Hk c Hc. apply wp_bind. eapply wp_mono; [exact (Hm c Hc)|]. cbn beta. intros a c1 (HP & Hc1 & E1 & T1).
  eapply wp_mono; [exact (Hk a HP c1 Hc1)|]. cbn beta. intros b c2 (HQ & Hc2 & E2 & T2).
  split; [exact HQ|]. split; [exact Hc2|]. split; [congruence|lia].
Qed.

Lemma rests_bind_ok {A B E} (m : eff DC (Result A E)) (k : A -> eff DC (Result B E)) P Q :
  rests m (fun r => match r with Ok a => P a | Err _ => False end) -> (forall a, P a -> rests (k a) Q) -> rests (bind_ok m k) Q.
Proof.
  intros Hm Hk c Hc. apply wp_bind_ok. eapply wp_mono; [exact (Hm c Hc)|]. cbn beta. intros [a|e] c1 (HP & Hc1 & E1 & T1); [|destruct HP].
  eapply wp_mono; [exact (Hk a HP c1 Hc1)|]. cbn beta. intros b c2 (HQ & Hc2 & E2 & T2).
  split; [exact HQ|]. split; [exact Hc2|]. split; [congruence|lia].
Qed.

(** A change of a field that calm does not look at. *)
Lemma rests_modify (f : DC -> DC) :
  (forall c, dc_transport (f c) = dc_transport c /\ dc_world (f c) = dc_world c /\ dc_lease (f c) = dc_lease c /\
             dc_hold (f c) = dc_hold c /\ unit_broken_by (f c) = unit_broken_by c /\ dc_retry_policy (f c) = dc_retry_policy c) ->
  rests (modify f) (fun _ => True).
Proof.
  intros Hf c (H1 & H2 & H3 & H4 & H5). destruct (Hf c) as (E1 & E2 & E3 & E4 & E5 & E6). unfold wp. cbn. unfold dc_calm.
  rewrite E1, E2, E3, E4, E5, E6. repeat split; try assumption. lia.
Qed.

Lemma rests_asks {A} (f : DC -> A) : rests (asks f) (fun _ => True).
Proof. intros c Hc. unfold wp. cbn. split; [exact I|]. split; [exact Hc|]. split; [reflexivity|lia]. Qed.

Lemma rests_now : rests now_ms (fun _ => True).
Proof.
  intros c (H1 & H2 & H3 & H4 & H5). destruct (ct_reading _ _ H1) as [Hr Ht]. unfold wp, now_ms, in_world.
  destruct (monotonic_ms (dc_world c)) as [n w]. cbn in *. repeat split; assumption.
Qed.

Lemma rests_sleep us : rests (sleep us) (fun _ => True).
Proof.
  intros c (H1 & H2 & H3 & H4 & H5). destruct (ct_sleep us _ _ H1) as (Hr & Ht & _). unfold wp, sleep, modify. cbn.
  repeat split; assumption.
Qed.

Lemma rests_mono {A} (m : eff DC A) (P Q : A -> Prop) : rests m P -> (forall a, P a -> Q a) -> rests m Q.
Proof. intros Hm HPQ c Hc. eapply wp_mono; [exact (Hm c Hc)|]. cbn beta. intros a c' (HP & H). auto. Qed.

Ltac untouched := apply rests_modify; intros c; repeat split; try reflexivity.

Lemma rests_count f : rests (count (W := W) (T := T) f) (fun _ => True).
Proof. untouched. Qed.

Lemma rests_jitter : rests next_retry_jitter (fun _ => True).
Proof.
  intros c Hc. unfold wp, next_retry_jitter. cbn. destruct Hc as (H1 & H2 & H3 & H4 & H5). repeat split; try assumption. lia.
Qed.

Lemma rests_credit : rests credit_natural_release (fun _ => True).
Proof.
  unfold credit_natural_release. eapply rests_bind; [apply rests_now|]. intros now _. eapply rests_bind; [apply rests_asks|].
  intros quiet _. destruct (quiet =? 0); [|now apply rests_ret]. eapply rests_bind; [apply rests_now|]. intros n _. untouched.
Qed.

Lemma rests_if {A} (b : DC -> bool) (m1 m2 : eff DC A) P :
  rests m1 P -> rests m2 P -> rests (fun c => if b c then m1 c else m2 c) P.
Proof. intros H1 H2 c Hc. specialize (H1 c Hc). specialize (H2 c Hc). unfold wp in *. destruct (b c); assumption. Qed.

Lemma rests_release_due : rests release_due (fun _ => True).
Proof.
  apply (rests_if (fun c => negb (dc_busy_since_release c)) (ret false)); [now apply rests_ret|].
  apply (rests_if started (ret false)); [now apply rests_ret|]. intros c Hc. pose proof (rests_now c Hc) as H.
  unfold wp in *. destruct (now_ms c) as [n c']. exact H.
Qed.

Lemma rests_next_settle : rests next_settle (fun _ => True).
Proof.
  unfold next_settle. eapply rests_bind; [apply rests_asks|]. intros p _. eapply rests_bind; [apply rests_release_due|]. intros due _.
  destruct (negb due).
  - eapply (rests_bind _ _ (fun _ => True)); [unfold random_settle_within; eapply rests_bind; [apply rests_jitter|intros j _; now apply rests_ret]|].
    intros s _. now apply rests_ret.
  - eapply rests_bind; [apply rests_now|]. intros n _. eapply rests_bind; [untouched|]. intros _ _.
    eapply rests_bind; [apply rests_count|]. intros _ _. now apply rests_ret.
Qed.

Definition succeeds {A E} (r : Result A E) : Prop := match r with Ok _ => True | Err _ => False end.

Lemma rests_session_wait settle : rests (session_wait settle) succeeds.
Proof.
  apply (rests_if dc_honours_settle (ret (Ok tt))); [now apply rests_ret|].
  eapply rests_bind; [apply rests_now|]. intros now _. eapply rests_bind; [apply rests_asks|]. intros wait _.
  eapply (rests_bind _ _ (fun _ => True)); [destruct (negb _); [apply rests_sleep|now apply rests_ret]|]. intros _ _. now apply rests_ret.
Qed.

Lemma rests_note_transmitted outcome p : rests (note_frame_transmitted outcome p) (fun _ => True).
Proof.
  unfold note_frame_transmitted. eapply rests_bind; [apply rests_count|]. intros _ _. destruct (unsent outcome); [now apply rests_ret|].
  eapply rests_bind; [apply rests_now|]. intros now _. eapply rests_bind; [untouched|]. intros _ _.
  eapply rests_bind; [|intros _ _].
  { apply rests_modify. intros c. unfold note_unit_started, unit_broken_by. destruct (dc_unit c) as [u|] eqn:Eu; cbn; rewrite ?Eu; auto 10. }
  eapply rests_bind; [untouched|]. intros _ _. eapply rests_bind; [apply rests_count|]. intros _ _.
  eapply rests_bind; [|intros _ _].
  { apply rests_modify. intros c. unfold note_settle_window. destruct p, (settle_ticks c); try (now repeat split). case_if; now repeat split. }
  eapply rests_bind; [apply rests_now|]. intros n _. apply rests_modify. intros c. unfold note_transaction_frame.
  destruct (_ && _); now repeat split.
Qed.

(** *** One frame *)

(** [m] ends calm after one more frame, which its result reports. *)
Definition sends {A} (frame : Z) (eb : bool) (m : eff DC A) (P : TransferOutcome -> A -> Prop) : Prop :=
  forall c, dc_calm c -> wp m (fun a c' => dc_calm c' /\ exists o, plays frame eb (dc_view c) o (dc_view c') /\ P o a) c.

Lemma sends_after {A B} frame eb (m : eff DC A) (k : A -> eff DC B) Q P :
  rests m Q -> (forall a, Q a -> sends frame eb (k a) P) -> sends frame eb (bind m k) P.
Proof.
  intros Hm Hk c Hc. apply wp_bind. eapply wp_mono; [exact (Hm c Hc)|]. cbn beta. intros a c1 (HQ & Hc1 & E1 & T1).
  eapply wp_mono; [exact (Hk a HQ c1 Hc1)|]. cbn beta. intros b c2 (Hc2 & o & Hp & HP). split; [exact Hc2|]. exists o.
  split; [|exact HP]. unfold dc_view in *. rewrite E1 in Hp. eapply plays_widen; [exact T1|reflexivity|exact Hp].
Qed.

Lemma sends_after_ok {A B E} frame eb (m : eff DC (Result A E)) (k : A -> eff DC (Result B E)) P :
  rests m succeeds -> (forall a, sends frame eb (k a) P) ->
  sends frame eb (bind_ok m k) P.
Proof.
  intros Hm Hk c Hc. apply wp_bind_ok. eapply wp_mono; [exact (Hm c Hc)|]. cbn beta. intros [a|e] c1 (HQ & Hc1 & E1 & T1); [|destruct HQ].
  eapply wp_mono; [exact (Hk a c1 Hc1)|]. cbn beta. intros b c2 (Hc2 & o & Hp & HP). split; [exact Hc2|]. exists o.
  split; [|exact HP]. unfold dc_view in *. rewrite E1 in Hp. eapply plays_widen; [exact T1|reflexivity|exact Hp].
Qed.

Lemma sends_skip {A B} frame eb (m : eff DC A) a (k : A -> eff DC B) P :
  (forall c, dc_calm c -> m c = (a, c)) -> sends frame eb (k a) P -> sends frame eb (bind m k) P.
Proof. intros Hm Hk c Hc. apply wp_bind. unfold wp at 1. rewrite (Hm c Hc). exact (Hk c Hc). Qed.

Lemma sends_then {A B} frame eb (m : eff DC A) (k : A -> eff DC B) Q P :
  sends frame eb m Q -> (forall o a, Q o a -> rests (k a) (P o)) -> sends frame eb (bind m k) P.
Proof.
  intros Hm Hk c Hc. apply wp_bind. eapply wp_mono; [exact (Hm c Hc)|]. cbn beta. intros a c1 (Hc1 & o & Hp & HQ).
  eapply wp_mono; [exact (Hk o a HQ c1 Hc1)|]. cbn beta. intros b c2 (HP & Hc2 & E2 & T2). split; [exact Hc2|]. exists o.
  split; [|exact HP]. unfold dc_view in *. rewrite E2. eapply plays_widen; [reflexivity|exact T2|exact Hp].
Qed.

Lemma sends_then_ok {A B E} frame eb (m : eff DC (Result A E)) (k : A -> eff DC (Result B E)) Q P :
  sends frame eb m (fun o r => match r with Ok a => Q o a | Err _ => False end) ->
  (forall o a, Q o a -> rests (k a) (P o)) -> sends frame eb (bind_ok m k) P.
Proof.
  intros Hm Hk c Hc. apply wp_bind_ok. eapply wp_mono; [exact (Hm c Hc)|]. cbn beta. intros [a|e] c1 (Hc1 & o & Hp & HQ); [|destruct HQ].
  eapply wp_mono; [exact (Hk o a HQ c1 Hc1)|]. cbn beta. intros b c2 (HP & Hc2 & E2 & T2). split; [exact Hc2|]. exists o.
  split; [|exact HP]. unfold dc_view in *. rewrite E2. eapply plays_widen; [reflexivity|exact T2|exact Hp].
Qed.

(** What an exchange observes. *)
Definition observes (eb : bool) (o : TransferOutcome) (r : Result ExchangeObservation FrameError) : Prop :=
  match r with Ok e => reports eb o (ob_outcome e) /\ ob_contended e = false | Err _ => False end.

Lemma sends_perform frame eb settle :
  sends frame eb (perform_exchange (Forward16 frame) eb settle) (observes eb).
Proof.
  intros c (H1 & H2 & H3 & H4 & H5). unfold wp, perform_exchange.
  pose proof (ct_exchange frame eb settle _ _ H1) as Hx.
  destruct (exchange_frame_with_settle frame eb settle (dc_transport c, dc_world c)) as [reported [t' w']].
  destruct Hx as (Hc' & Hf & o & r & -> & Hp & Hr). cbn [fst snd]. split; [repeat split; assumption|].
  exists o. split; [exact Hp|]. cbn. split; [exact Hr|]. now rewrite Hf, Z.eqb_refl.
Qed.

(** The outcome a caller of the controller gets. *)
Definition settled_as (eb : bool) (o r : TransferOutcome) : Prop := if eb then reports true o r else True.

Lemma rests_resolve eb e attempt attempts frame o :
  reports eb o (ob_outcome e) -> ob_contended e = false ->
  rests (resolve_exchange_outcome e eb attempt attempts (Forward16 frame))
    (fun r => match r with Ok (Some x) => settled_as eb o x | _ => False end).
Proof.
  intros Hr Hn c Hc. unfold wp, resolve_exchange_outcome, should_retry_contended_query_no_answer.
  rewrite Hn, andb_false_r, andb_false_l. cbn [is_forward24]. unfold settled_as.
  assert (dc_calm c /\ ct_fleet (dc_transport c) = ct_fleet (dc_transport c) /\ ct_time (dc_world c) <= ct_time (dc_world c)) as Hsame
    by (split; [exact Hc|split; [reflexivity|lia]]).
  destruct eb; cbn [reports] in Hr.
  - destruct o; try (now destruct Hr); try (rewrite Hr; cbn; auto).
    destruct Hr as [->|[v ->]]; cbn; eauto.
  - destruct Hr as [Hr1 Hr2]. destruct (ob_outcome e); try congruence; (split; [exact I|exact Hsame]).
Qed.

Definition exchanged (eb : bool) (o : TransferOutcome) (r : Result ExchangeObservation FrameError) : Prop :=
  match r with Ok e => settled_as eb o (ob_outcome e) /\ ob_contended e = false | Err _ => False end.

Lemma held_calm c : dc_calm c -> held_by c = (None, c).
Proof. intros (_ & _ & Hh & _). unfold held_by. rewrite Hh. now destruct (_ || _). Qed.
Lemma yield_calm c : dc_calm c -> must_yield c = (false, c).
Proof. intros (_ & Hl & _). unfold must_yield. rewrite Hl. now destruct (started c). Qed.

Lemma sends_attempt frame eb attempt attempts contended :
  sends frame eb (exchange_attempt (Forward16 frame) eb attempt attempts contended)
    (fun o r => match r with Ok (Some e, _) => settled_as eb o (ob_outcome e) /\ ob_contended e = contended | _ => False end).
Proof.
  unfold exchange_attempt. apply (sends_skip _ _ _ None _ _ held_calm). apply (sends_skip _ _ _ false _ _ yield_calm).
  refine (sends_after _ _ _ _ (fun _ => True) _ _ _); [untouched|]. intros _ _.
  refine (sends_after _ _ _ _ _ _ rests_credit _). intros _ _.
  refine (sends_after _ _ _ _ _ _ rests_next_settle _). intros ps _.
  apply sends_after_ok; [apply rests_session_wait|]. intros _.
  eapply sends_then_ok; [eapply (sends_perform frame eb (snd ps))|]. intros o e [Hr Hn].
  eapply rests_bind; [apply rests_note_transmitted|]. intros _ _.
  eapply rests_bind_ok; [eapply rests_mono; [now apply (rests_resolve eb e attempt attempts frame o)|]|].
  - intros [r|err]; [|easy]. exact (fun H => H).
  - intros r Hr'. cbn beta in Hr'. destruct r as [x|]; [|easy]. apply rests_ret. split; [exact Hr'|]. cbn. now rewrite Hn, orb_false_r.
Qed.

Lemma sends_mono {A} frame eb (m : eff DC A) (P Q : TransferOutcome -> A -> Prop) :
  sends frame eb m P -> (forall o a, P o a -> Q o a) -> sends frame eb m Q.
Proof.
  intros Hm HPQ c Hc. eapply wp_mono; [exact (Hm c Hc)|]. cbn beta. intros a c' (Hc' & o & Hp & HP). split; [exact Hc'|]. eauto.
Qed.

Lemma sends_loop frame eb attempts turns attempt :
  sends frame eb (exchange_loop (Forward16 frame) eb attempts (S turns) attempt false) (exchanged eb).
Proof.
  cbn [exchange_loop].
  apply (sends_then_ok _ _ _ _ (fun o r => match r with (Some e, _) => settled_as eb o (ob_outcome e) /\ ob_contended e = false | _ => False end));
    [eapply sends_mono; [apply sends_attempt|]|].
  - intros o [[[e|] k]|err]; [|easy|easy]. exact (fun H => H).
  - intros o [[e|] k]; [|easy]. intros H. apply rests_ret. exact H.
Qed.

Lemma sends_with_attempts frame eb attempts : 1 <= attempts ->
  sends frame eb (exchange_with_attempts (Forward16 frame) eb attempts) (exchanged eb).
Proof.
  intros Ha c Hc. pose proof Hc as (_ & _ & _ & Hu & _). pose proof (sends_loop frame eb attempts (Z.to_nat attempts - 1) 0 c Hc) as H.
  replace (S (Z.to_nat attempts - 1)) with (Z.to_nat attempts) in H by lia. unfold wp, exchange_with_attempts in *. rewrite Hu. exact H.
Qed.

(** The response a caller of the controller gets. *)
Definition responds (eb : bool) (o : TransferOutcome) (r : Result (DaliResponse * bool) FrameError) : Prop :=
  match r with Ok (r, _) => if eb then heard true o r else True | Err _ => False end.
Definition uncontended (r : Result (DaliResponse * bool) FrameError) : Prop := match r with Ok (_, contended) => contended = false | Err _ => True end.

Lemma response_heard o r : reports true o r -> heard true o (response_from_outcome r).
Proof. destruct o; cbn; try easy; intros H; subst; try reflexivity. destruct H as [->|[v ->]]; reflexivity. Qed.

Lemma sends_once_clean frame eb : sends frame eb (exchange_once frame eb) (fun o r => responds eb o r /\ uncontended r).
Proof.
  unfold exchange_once. eapply sends_then_ok; [apply sends_with_attempts; lia|]. intros o e [He Hn]. apply rests_ret. cbn.
  split; [|exact Hn]. destruct eb; [now apply response_heard|exact I].
Qed.

Lemma sends_once frame eb : sends frame eb (exchange_once frame eb) (responds eb).
Proof. eapply sends_mono; [apply sends_once_clean|]. now intros o r [H _]. Qed.

Lemma rests_judge : rests judge_send_twice_interval succeeds.
Proof.
  intros c Hc. pose proof (rests_ret (@Ok unit FrameError tt) succeeds I c Hc) as Hok. pose proof Hc as (H1 & _).
  pose proof (ct_settle _ _ H1) as Hs. unfold wp, judge_send_twice_interval, settle_ticks in *.
  destruct (last_tx_settle_ticks (dc_transport c)) as [ticks|]; [|exact Hok]. rewrite (proj2 (Z.leb_gt _ _)) by lia.
  destruct (_ <=? _); [|exact Hok].
  eapply (rests_bind (count _) (fun _ => ret (@Ok unit FrameError tt)) (fun _ => True) succeeds); [apply rests_count| |exact Hc].
  intros _ _. now apply rests_ret.
Qed.

(** *** Units of frames *)

(** The frames of a unit. *)
Definition unit_plays (enable : option Z) (frame : Z) (q repeats : bool) (v : View) (o : TransferOutcome) (v' : View) : Prop :=
  exists v1,
    match enable with Some e => exists o1, plays e false v o1 v1 | None => v1 = v end /\
    (if repeats then exists v2 o2, plays frame q v1 o2 v2 /\ plays frame q v2 o v' else plays frame q v1 o v').

Definition unit_done (enable : option Z) (frame : Z) (q repeats : bool) c
    (r : Result (DaliResponse * bool) FrameError) c' : Prop :=
  dc_calm c' /\ exists o, unit_plays enable frame q repeats (dc_view c) o (dc_view c') /\ responds q o r.

Lemma plays_later frame eb v t o v' : fst v = fst (fst v', t) \/ True -> snd v <= t -> plays frame eb (fst v, t) o v' -> plays frame eb v o v'.
Proof. intros _ Ht H. destruct v as [f t0], v' as [f' t1]. cbn in *. eapply plays_widen; [exact Ht|reflexivity|exact H]. Qed.

Lemma try_unit_calm enable frame q repeats c :
  dc_calm c -> wp (try_unit_once enable frame q repeats) (unit_done enable frame q repeats c) c.
Proof.
  intros Hc. unfold try_unit_once. apply wp_bind_ok.
  apply (wp_mono _ (fun r c1 => dc_calm c1 /\ succeeds r /\
    match enable with Some e => exists o1, plays e false (dc_view c) o1 (dc_view c1) | None => dc_view c1 = dc_view c end)).
  { destruct enable as [e|].
    - eapply wp_mono; [exact (sends_once e false c Hc)|]. cbn beta. intros r c1 (Hc1 & o & Hp & Hr). destruct r as [[r b]|]; [|destruct Hr].
      split; [exact Hc1|]. split; [exact I|]. eauto.
    - unfold wp. cbn. repeat split; apply Hc. }
  intros [en|e] c1 (Hc1 & Hs & Hen); [|destruct Hs]. apply wp_bind_ok.
  eapply wp_mono; [exact (sends_once frame q c1 Hc1)|]. cbn beta. intros [[first b1]|e] c2 (Hc2 & o2 & Hp2 & Hr2); [|destruct Hr2].
  destruct repeats.
  - apply wp_bind_ok. eapply wp_mono; [exact (sends_once frame q c2 Hc2)|]. cbn beta.
    intros [[second b2]|e] c3 (Hc3 & o3 & Hp3 & Hr3); [|destruct Hr3]. apply wp_bind_ok.
    eapply wp_mono; [exact (rests_judge c3 Hc3)|]. cbn beta. intros [u|e] c4 (Hs4 & Hc4 & E4 & T4); [|destruct Hs4].
    apply wp_ret. split; [exact Hc4|]. exists o3. split; [|exact Hr3]. exists (dc_view c1). split; [exact Hen|].
    exists (dc_view c2), o2. split; [exact Hp2|]. unfold dc_view in *. rewrite E4. eapply plays_widen; [reflexivity|exact T4|exact Hp3].
  - apply wp_ret. split; [exact Hc2|]. exists o2. split; [|exact Hr2]. exists (dc_view c1). split; [exact Hen|exact Hp2].
Qed.

Lemma policy_attempts_calm c : dc_calm c -> 1 <= policy_attempts c.
Proof. intros (_ & _ & _ & _ & H). unfold policy_attempts, attempts_here. destruct (dc_unit c); lia. Qed.

Lemma send_unit_calm enable frame q repeats c :
  dc_calm c -> wp (send_unit enable frame q repeats) (unit_done enable frame q repeats c) c.
Proof.
  intros Hc. unfold send_unit. apply wp_bind. unfold wp at 1, asks. cbn [fst snd]. pose proof (policy_attempts_calm c Hc) as Ha.
  replace (Z.to_nat (policy_attempts c)) with (S (Z.to_nat (policy_attempts c) - 1)) by lia. cbn [unit_loop].
  apply wp_bind. eapply wp_mono; [exact (try_unit_calm enable frame q repeats c Hc)|]. cbn beta.
  intros [r|e] c1 H; [apply wp_ret; exact H|]. destruct H as (_ & o & _ & []).
Qed.

(** *** Brackets *)

Lemma open_fields exempt c :
  dc_transport (open_transaction exempt c) = dc_transport c /\ dc_world (open_transaction exempt c) = dc_world c /\
  (dc_calm (open_transaction exempt c) <-> dc_calm c).
Proof. unfold open_transaction. destruct (_ =? 0); (split; [reflexivity|split; [reflexivity|split; intros Hx; exact Hx]]). Qed.

Lemma close_fields c :
  dc_transport (close_transaction c) = dc_transport c /\ dc_world (close_transaction c) = dc_world c /\
  (dc_calm (close_transaction c) <-> dc_calm c).
Proof.
  unfold close_transaction, close_outermost. destruct (_ =? 0); [destruct (negb _)|]; (split; [reflexivity|split; [reflexivity|split; intros Hx; exact Hx]]).
Qed.

Lemma transaction_calm {R} exempt (m : eff DC R) (Q : R -> View -> Prop) c :
  dc_calm c ->
  (forall c1, dc_calm c1 -> dc_view c1 = dc_view c -> wp m (fun r c' => dc_calm c' /\ Q r (dc_view c')) c1) ->
  wp (run_transaction exempt m) (fun r c' => dc_calm c' /\ Q r (dc_view c')) c.
Proof.
  intros Hc Hm. unfold run_transaction. apply wp_bind. unfold wp at 1, modify. cbn [fst snd].
  destruct (open_fields exempt c) as (E1 & E2 & Hcalm). apply wp_bind.
  eapply wp_mono; [apply Hm; [now apply Hcalm|unfold dc_view; congruence]|]. cbn beta. intros r c2 (Hc2 & HQ).
  apply wp_bind. unfold wp at 1, modify. cbn [fst snd]. apply wp_ret. destruct (close_fields c2) as (E3 & E4 & Hcalm2).
  split; [now apply Hcalm2|]. unfold dc_view in *. rewrite E3, E4. exact HQ.
Qed.

Lemma unit_calm {S0 R} exempt (m : S0 -> eff DC (R * S0)) s (Q : R * S0 -> View -> Prop) c :
  dc_calm c ->
  (forall c1, dc_calm c1 -> dc_view c1 = dc_view c -> wp (m s) (fun r c' => dc_calm c' /\ Q r (dc_view c')) c1) ->
  wp (run_unit exempt m s) (fun r c' => dc_calm c' /\ Q r (dc_view c')) c.
Proof.
  intros Hc Hm. unfold run_unit. destruct (dc_unit c) as [u|] eqn:Eu.
  { pose proof (transaction_calm exempt (m s) Q c Hc Hm) as H. unfold wp in *. rewrite Eu. exact H. }
  set (c0 := c <| dc_unit := Some unit_default |>).
  assert (dc_calm c0) as Hc0 by (destruct Hc as (H1 & H2 & H3 & _ & H5); repeat split; assumption).
  pose proof (transaction_calm exempt (m s) Q c0 Hc0) as H. specialize (H Hm).
  assert (forall turns, wp (run_unit_loop exempt m (effective_max_attempts (dc_retry_policy c)) turns 0 s)
    (fun r c' => dc_calm c' /\ Q r (dc_view c')) c) as Hl.
  { intros turns. destruct turns; cbn [run_unit_loop]; apply wp_bind; unfold wp at 1, modify; cbn [fst snd]; fold c0;
      apply wp_bind; (eapply wp_mono; [exact H|]); cbn beta; intros r c2 (Hc2 & HQ); apply wp_bind; unfold wp at 1, asks; cbn [fst snd];
      apply wp_bind; unfold wp at 1, modify; cbn [fst snd]; apply wp_bind;
      (assert (ua_broken_by (default unit_default (dc_unit c2)) = None) as Hb
         by (destruct Hc2 as (_ & _ & _ & Hb & _); unfold unit_broken_by in Hb; destruct (dc_unit c2); [exact Hb|reflexivity]));
      unfold reruns_after; rewrite Hb; apply wp_ret; apply wp_ret;
      (split; [destruct Hc2 as (H1 & H2 & H3 & _ & H5); repeat split; assumption|exact HQ]). }
  specialize (Hl (Z.to_nat (effective_max_attempts (dc_retry_policy c)))). unfold wp in *. rewrite Eu. exact Hl.
Qed.

(** *** Commands *)

Lemma run_unit_transaction enable frame q repeats c :
  dc_calm c -> wp (run_transaction false (send_unit enable frame q repeats)) (unit_done enable frame q repeats c) c.
Proof.
  intros Hc. eapply wp_mono.
  - apply (transaction_calm false (send_unit enable frame q repeats)
      (fun r v => exists o, unit_plays enable frame q repeats (dc_view c) o v /\ responds q o r) c Hc).
    intros c1 Hc1 Ev. eapply wp_mono; [exact (send_unit_calm enable frame q repeats c1 Hc1)|]. cbn beta. unfold unit_done.
    intros r c2 H. now rewrite Ev in H.
  - cbn beta. intros r c' H. exact H.
Qed.

Lemma send_command_calm cmd c : dc_calm c ->
  wp (send_command_impl cmd) (fun r c' => dc_calm c' /\ all_ok r (fun x => delivers cmd (dc_view c) (fst x) (dc_view c'))) c.
Proof.
  intros Hc. unfold send_command_impl. apply wp_bind_ok. eapply wp_mono; [exact (run_unit_transaction _ _ _ _ c Hc)|]. cbn beta.
  intros [[r b]|e] c' (Hc' & o & Hp & Hr); [|destruct Hr]. apply wp_ret. split; [exact Hc'|]. cbn [all_ok fst snd].
  destruct Hp as (v1 & Hen & Hp). unfold delivers. exists v1, o. split; [exact Hen|]. split; [exact Hp|].
  unfold response_if_expected. cbn in Hr. destruct (is_query cmd); [exact Hr|reflexivity].
Qed.

Lemma send_once_calm frame c : dc_calm c ->
  wp (exchange_once frame true) (fun r c' => dc_calm c' /\
    all_ok r (fun x => exists o, plays frame true (dc_view c) o (dc_view c') /\ heard true o (fst x) /\ snd x = false)) c.
Proof.
  intros Hc. eapply wp_mono; [exact (sends_once_clean frame true c Hc)|]. cbn beta. intros [[r b]|e] c' (Hc' & o & Hp & Hr & Hb); [|destruct Hr].
  split; [exact Hc'|]. cbn. eauto.
Qed.

Lemma send_enabled_calm enable frame c : dc_calm c ->
  wp (run_transaction false (send_unit (Some enable) frame true false)) (fun r c' => dc_calm c' /\
    all_ok r (fun x => exists v1 o1 o, plays enable false (dc_view c) o1 v1 /\ plays frame true v1 o (dc_view c') /\
                                       heard true o (fst x))) c.
Proof.
  intros Hc. eapply wp_mono; [exact (run_unit_transaction _ _ _ _ c Hc)|]. cbn beta.
  intros [[r b]|e] c' (Hc' & o & Hp & Hr); [|destruct Hr]. split; [exact Hc'|]. destruct Hp as (v1 & (o1 & H1) & H2). cbn.
  exists v1, o1, o. auto.
Qed.

Lemma step_boundary_calm c : dc_calm c ->
  let c' := snd (step_boundary_impl c) in
  dc_calm c' /\ ct_fleet (dc_transport c') = ct_fleet (dc_transport c) /\ ct_time (dc_world c') = ct_time (dc_world c).
Proof.
  intros Hc. unfold step_boundary_impl, yield_pending. destruct Hc as (H1 & H2 & H3 & H4 & H5). cbn zeta.
  destruct (started _); [cbn; rewrite H2|]; cbn; repeat split; assumption.
Qed.

Lemma sleep_calm ms c : dc_calm c ->
  let c' := c <| dc_world := sleep_us (ms * 1000) (dc_world c) |> in
  dc_calm c' /\ ct_fleet (dc_transport c') = ct_fleet (dc_transport c) /\
  Z.min (umax 64) (ct_time (dc_world c) + ms) <= ct_time (dc_world c').
Proof.
  intros (H1 & H2 & H3 & H4 & H5). destruct (ct_sleep (ms * 1000) _ _ H1) as (Hc & _ & Ht). rewrite Z.div_mul in Ht by lia.
  cbn. repeat split; assumption.
Qed.

#[export, refine] Instance controller_calm : CalmBus DC := {
  fleet_of c := ct_fleet (dc_transport c); time_of c := ct_time (dc_world c); calm := dc_calm }.
Proof.
  - intros c (H & _). exact (ct_clock _ _ H).
  - intros cmd c Hc. exact (send_command_calm cmd c Hc).
  - intros frame c Hc. exact (send_once_calm frame c Hc).
  - intros enable frame c Hc. exact (send_enabled_calm enable frame c Hc).
  - intros R m Q c Hc Hm. apply (transaction_calm false m Q c Hc). intros c1 Hc1 Ev. injection Ev as E1 E2. now apply Hm.
  - intros R m Q c Hc Hm. apply (transaction_calm true m Q c Hc). intros c1 Hc1 Ev. injection Ev as E1 E2. now apply Hm.
  - intros S0 R m s Q c Hc Hm. apply (unit_calm true m s Q c Hc). intros c1 Hc1 Ev. injection Ev as E1 E2. now apply Hm.
  - intros c Hc. exact (step_boundary_calm c Hc).
  - intros k c Hc. destruct k; repeat split; apply Hc.
  - intros ms c Hc. exact (sleep_calm ms c Hc).
Defined.

End Calm.

End CalmController.
