(* ===== verification/Sim.v ===== *)
(** * The simulated transport

    Models [crates/dali2rust-adapters/src/dali/transport/sim.rs]: forward frames
    are exchanged with a modelled fleet, overlapping answers are merged on a
    modelled wire, and the load of the wire is published.  The fleet of input
    devices, which only 24-bit frames reach, is an argument ([InputFleet]); so is
    the clock ([SimClock]).  It is a calm transport, so the controller over it is
    a calm bus. *)

From Stdlib Require Import String.
From S2P Require Import Prelude RulesBase HalfBits Manchester PhyFsm RxDecode Effects Gear GearCommand.
From S2P Require Import GearState Transport Banks GearModel Fleet FleetLaws Overlap Controller Majority.
From S2P Require Import Executor CalmBus CalmController.

Module Sim.
Import Effects Gear GearCommand GearState Transport Banks GearModel Fleet FleetLaws Overlap Controller CalmBus CalmController.

Definition HOST_RNG_SEED : Z := 0x00C0FFEE.
Definition FORWARD16_TICKS : Z := 38 * PhyFsm.TX_HALF_BIT_TICKS.
Definition FORWARD24_TICKS : Z := 54 * PhyFsm.TX_HALF_BIT_TICKS.
Definition BACKWARD8_TICKS : Z := 22 * PhyFsm.TX_HALF_BIT_TICKS.
Definition ANSWER_SPREAD_NS : Z := 1000000.
Definition OVERLAP_RNG_SEED : Z := 0x01245EED.
Definition WIRE_LOAD_WINDOW_TICKS : Z := 1000000 / PHY_TICK_US.

(** Microseconds since the transport was born ([Instant::elapsed]). *)
Class SimClock (W : Type) := { since_born_us : W -> Z * W }.

(** [DeviceFleet::exchange24]. *)
Class InputFleet (I : Type) := { exchange24 : Z * Z * Z -> bool -> I -> TransferOutcome * I }.

(** The gauges [publish_wire] stores. *)
Record WireGauges := MkGauges {
  wg_ticks_total : Z; wg_ticks_active : Z; wg_ticks_tx : Z; wg_load_permille : Z; wg_load_own_permille : Z }.
#[global] Instance eta_WireGauges : Eta WireGauges := fun g =>
  MkGauges (wg_ticks_total g) (wg_ticks_active g) (wg_ticks_tx g) (wg_load_permille g) (wg_load_own_permille g).

(** Of [InjectedWire] the epoch that tells own frames. *)
Record SimDaliTransport (I : Type) := MkSim {
  sm_fleet : GearFleet; sm_input_fleet : I; sm_sent_frames : list Z; sm_sent_frame_min_idle_us : list Z;
  sm_sent_frame24_min_idle_us : list Z; sm_sent_frame_times : list Z; sm_wire_epoch : Z;
  sm_wire_counters : option WireGauges; sm_wire_load : WireLoadWindow; sm_active_ticks : Z; sm_tx_ticks : Z;
  sm_overlap_rng : Z }.
Arguments sm_fleet {I}. Arguments sm_input_fleet {I}. Arguments sm_sent_frames {I}. Arguments sm_sent_frame_min_idle_us {I}.
Arguments sm_sent_frame24_min_idle_us {I}. Arguments sm_sent_frame_times {I}. Arguments sm_wire_epoch {I}.
Arguments sm_wire_counters {I}. Arguments sm_wire_load {I}. Arguments sm_active_ticks {I}. Arguments sm_tx_ticks {I}.
Arguments sm_overlap_rng {I}. Arguments MkSim {I}.

#[global] Instance eta_SimDaliTransport I : Eta (SimDaliTransport I) := fun t =>
  MkSim (sm_fleet t) (sm_input_fleet t) (sm_sent_frames t) (sm_sent_frame_min_idle_us t) (sm_sent_frame24_min_idle_us t)
    (sm_sent_frame_times t) (sm_wire_epoch t) (sm_wire_counters t) (sm_wire_load t) (sm_active_ticks t) (sm_tx_ticks t)
    (sm_overlap_rng t).

Section Transport.
Context {I W : Type} {HI : InputFleet I} {HK : SimClock W}.
Notation T := (SimDaliTransport I).

Definition sim_new (specs : list GearSpec) (input_fleet : I) : T :=
  MkSim (fleet_new specs 0 HOST_RNG_SEED) input_fleet [] [] [] [] 0 None (window_new WIRE_LOAD_WINDOW_TICKS) 0 0
    (rng_new OVERLAP_RNG_SEED).

Definition reading : eff (T * W) Z := fun '(t, w) => let '(us, w) := since_born_us w in (us, (t, w)).
Definition transport (f : T -> T) : eff (T * W) unit := modify (fun '(t, w) => (f t, w)).

(** [u64::try_from(..).unwrap_or(u64::MAX)] *)
Definition elapsed_ms : eff (T * W) Z := let* us := reading in ret (Z.min (umax 64) (us / 1000)).
Definition elapsed_ticks : eff (T * W) Z := let* us := reading in ret (wrap 32 (us / PHY_TICK_US)).

(** *** The wire *)

Definition draw_below (bound : Z) (t : T) : Z * T :=
  let '(v, rng) := next_u32 (sm_overlap_rng t) in (v mod bound, t <| sm_overlap_rng := rng |>).
Definition answer_offset_ns : T -> Z * T := draw_below ANSWER_SPREAD_NS.

(** The answers of the iterator; the first one starts at once. *)
Fixpoint overlapping_answers (first : bool) (values : list Z) (t : T) : list OverlappingAnswer * T :=
  match values with
  | [] => ([], t)
  | value :: values =>
      let '(start_ns, t) := if first then (0, t) else answer_offset_ns t in
      let '(answers, t) := overlapping_answers false values t in
      (MkOverlapping value start_ns :: answers, t)
  end.

Definition merged_on_the_wire (outcome : TransferOutcome) (t : T) : TransferOutcome * T :=
  let values := fl_answers (sm_fleet t) in
  if negb (bool_decide (outcome = OutCorruptedInWindow)) || (Z.of_nat (List.length values) <? 2) then (outcome, t)
  else
    let '(answers, t) := overlapping_answers true values t in
    let '(phase, t) := draw_below TICK_NS t in
    let event := overlapping_backward_capture answers phase in
    (match RxDecode.decode_backward_byte event with
     | Some value => OutAnswer value
     | None => held_capture_outcome (RxDecode.longest_dominant_run_ticks event)
     end, t).

(** *** The load *)

Definition store_load (load : option (Z * Z)) (g : WireGauges) : WireGauges :=
  match load with
  | Some (permille, own) => g <| wg_load_permille := permille |> <| wg_load_own_permille := own |>
  | None => g
  end.

Definition publish_wire : eff (T * W) unit := fun s =>
  match sm_wire_counters (fst s) with
  | None => (tt, s)
  | Some g =>
      (let* total := elapsed_ticks in
       transport (fun t =>
         let g := g <| wg_ticks_total := total |> <| wg_ticks_active := sm_active_ticks t |> <| wg_ticks_tx := sm_tx_ticks t |> in
         let '(load, window) := wire_load_sample (sm_wire_load t) total (sm_active_ticks t) (sm_tx_ticks t) in
         t <| sm_wire_counters := Some (store_load load g) |> <| sm_wire_load := window |>)) s
  end.

Definition charge_wire (forward_ticks : Z) (outcome : TransferOutcome) : eff (T * W) unit :=
  let ticks := forward_ticks + match outcome with OutAnswer _ => BACKWARD8_TICKS | _ => 0 end in
  let* _ := transport (fun t => t <| sm_active_ticks := wrapping_add 32 (sm_active_ticks t) ticks |>
                                  <| sm_tx_ticks := wrapping_add 32 (sm_tx_ticks t) forward_ticks |>) in
  publish_wire.

Definition charge_foreign_wire (ticks : Z) : eff (T * W) unit :=
  let* _ := transport (fun t => t <| sm_active_ticks := wrapping_add 32 (sm_active_ticks t) ticks |>) in
  publish_wire.

(** *** The exchanges *)

Definition note_own_forward (t : T) : T := t <| sm_wire_epoch := wrapping_add 8 (sm_wire_epoch t) 1 |>.

Definition exchange_fleet (frame : Z) (expects_backward : bool) (now_ms : Z) (t : T) : TransferOutcome * T :=
  let '(outcome, fleet) := exchange (advance_to_ms (sm_fleet t) now_ms) frame expects_backward in
  (outcome, t <| sm_fleet := fleet |>).

Definition record_and_exchange (frame : Z) (expects_backward : bool) (min_idle_us : Z) : eff (T * W) TransferOutcome :=
  let* _ := transport (fun t => t <| sm_sent_frames := sm_sent_frames t ++ [frame] |>
                                  <| sm_sent_frame_min_idle_us := sm_sent_frame_min_idle_us t ++ [min_idle_us] |>) in
  let* at_us := reading in
  let* _ := transport (fun t => note_own_forward (t <| sm_sent_frame_times := sm_sent_frame_times t ++ [at_us] |>)) in
  let* now_ms := elapsed_ms in
  let* outcome := (fun '(t, w) => let '(o, t) := exchange_fleet frame expects_backward now_ms t in (o, (t, w))) in
  let* outcome := (fun '(t, w) => let '(o, t) := merged_on_the_wire outcome t in (o, (t, w))) in
  let* _ := charge_wire FORWARD16_TICKS outcome in
  ret outcome.

Definition record_and_exchange24 (frame : Z * Z * Z) (expects_backward : bool) (min_idle_us : Z) :
    eff (T * W) TransferOutcome :=
  let* _ := transport (fun t => note_own_forward
              (t <| sm_sent_frame24_min_idle_us := sm_sent_frame24_min_idle_us t ++ [min_idle_us] |>)) in
  let* outcome := (fun '(t, w) => let '(o, i) := exchange24 frame expects_backward (sm_input_fleet t) in
                                  (o, (t <| sm_input_fleet := i |>, w))) in
  let* _ := charge_wire FORWARD24_TICKS outcome in
  ret outcome.

(** What the trait leaves to its defaults: no foreign activity is counted and no
    settling time is reported. *)
#[export] Instance sim_transport : DaliTransport W T := {|
  exchange_frame_with_settle frame expects_backward min_idle_us :=
    let* o := record_and_exchange frame expects_backward min_idle_us in ret (Some o);
  exchange_frame24_with_settle frame expects_backward min_idle_us :=
    let* o := record_and_exchange24 frame expects_backward min_idle_us in ret (Some o);
  supports_frame24 _ := true;
  foreign_activity _ := 0;
  honours_settle _ := false;
  last_tx_settle_ticks _ := None |}.

(** ** Properties *)

Lemma draw_below_spec bound t : 0 < bound ->
  0 <= fst (draw_below bound t) < bound /\ sm_fleet (snd (draw_below bound t)) = sm_fleet t.
Proof.
  intros Hb. unfold draw_below. destruct (next_u32 (sm_overlap_rng t)) as [v rng]. split; [now apply Z.mod_pos_bound|reflexivity].
Qed.

Lemma overlapping_answers_spec first values : forall t,
  Forall (fun a => 0 <= oa_start_ns a < ANSWER_SPREAD_NS) (fst (overlapping_answers first values t)) /\
  sm_fleet (snd (overlapping_answers first values t)) = sm_fleet t.
Proof.
  revert first. induction values as [|v values IH]; intros first t; [split; [constructor|reflexivity]|]. cbn [overlapping_answers].
  pose proof (draw_below_spec ANSWER_SPREAD_NS t ltac:(reflexivity)) as [Hs Hf].
  assert (exists start t1, (if first then (0, t) else answer_offset_ns t) = (start, t1) /\ 0 <= start < ANSWER_SPREAD_NS /\
    sm_fleet t1 = sm_fleet t) as (start & t1 & -> & Hstart & Ht1).
  { destruct first; [exists 0, t; repeat split; reflexivity || discriminate|]. unfold answer_offset_ns.
    destruct (draw_below ANSWER_SPREAD_NS t) as [x t1]. now exists x, t1. }
  specialize (IH false t1). destruct (overlapping_answers false values t1) as [answers t2]. cbn [fst snd] in *.
  destruct IH as [Ha Hf2]. split; [constructor; [exact Hstart|exact Ha]|congruence].
Qed.

(** What the wire makes of an outcome: overlapping answers are read as a byte or
    as a violation, and everything else is read as it is. *)
Lemma merged_spec o t :
  sm_fleet (snd (merged_on_the_wire o t)) = sm_fleet t /\
  match o with
  | OutCorruptedInWindow => fst (merged_on_the_wire o t) = OutCorruptedInWindow \/
                            exists v, fst (merged_on_the_wire o t) = OutAnswer v
  | _ => fst (merged_on_the_wire o t) = o
  end.
Proof.
  unfold merged_on_the_wire. destruct (negb _ || _) eqn:E; [destruct o; auto|].
  apply orb_false_iff in E as [E _]. apply negb_false_iff, bool_decide_eq_true in E. subst o.
  destruct (overlapping_answers_spec true (fl_answers (sm_fleet t)) t) as [Ha Hf].
  destruct (overlapping_answers true _ t) as [answers t1]. cbn [fst snd] in *.
  destruct (draw_below_spec TICK_NS t1 ltac:(reflexivity)) as [Hp Hf1]. destruct (draw_below TICK_NS t1) as [phase t2]. cbn [fst snd] in *.
  split; [congruence|]. destruct (RxDecode.decode_backward_byte _) as [v|]; [right; now exists v|left].
  unfold held_capture_outcome. rewrite (proj2 (Z.leb_gt _ _)); [reflexivity|]. apply overlap_within_frame; [exact Ha|lia].
Qed.

(** A clock that never goes back, and sleeps that last. *)
Class MonotonicClock {HW : World W} := {
  mc_us : W -> Z;
  mc_reading : forall w, mc_us w <= fst (since_born_us w) <= mc_us (snd (since_born_us w));
  mc_monotonic : forall w, mc_us w <= mc_us (snd (monotonic_ms w));
  mc_sleep : forall us w, mc_us w + Z.max 0 us <= mc_us (sleep_us us w) }.

Section Calm.
Context {HW : World W} {HM : MonotonicClock}.

Definition sim_time (w : W) : Z := Z.min (umax 64) (mc_us w / 1000).
Definition sim_calm (t : T) (w : W) : Prop := fl_now_ms (sm_fleet t) <= sim_time w.

Lemma sim_time_mono w w' : mc_us w <= mc_us w' -> sim_time w <= sim_time w'.
Proof. intros H. unfold sim_time. assert (mc_us w / 1000 <= mc_us w' / 1000) by (apply Z.div_le_mono; lia). lia. Qed.

(** Steps that leave the fleet alone. *)
Definition idles {A} (m : eff (T * W) A) : Prop := forall t w,
  sm_fleet (fst (snd (m (t, w)))) = sm_fleet t /\ mc_us w <= mc_us (snd (snd (m (t, w)))).

Lemma idles_ret {A} (a : A) : idles (ret a).
Proof. intros t w. cbn. split; [reflexivity|lia]. Qed.

Lemma idles_bind {A B} (m : eff (T * W) A) (k : A -> eff (T * W) B) : idles m -> (forall a, idles (k a)) -> idles (bind m k).
Proof.
  intros Hm Hk t w. unfold bind. specialize (Hm t w). destruct (m (t, w)) as [a [t1 w1]]. specialize (Hk a t1 w1). cbn [fst snd] in *.
  destruct Hm as [E1 H1], Hk as [E2 H2]. split; [congruence|lia].
Qed.

Lemma idles_transport f : (forall t, sm_fleet (f t) = sm_fleet t) -> idles (transport f).
Proof. intros Hf t w. cbn. split; [apply Hf|lia]. Qed.

Lemma idles_reading : idles reading.
Proof. intros t w. unfold reading. pose proof (mc_reading w). destruct (since_born_us w) as [us w']. cbn in *. split; [reflexivity|lia]. Qed.

Lemma idles_charge ticks o : idles (charge_wire ticks o).
Proof.
  unfold charge_wire. apply idles_bind; [apply idles_transport; reflexivity|]. intros _ t w. unfold publish_wire. cbn [fst].
  destruct (sm_wire_counters t) as [g|]; [|cbn; split; [reflexivity|lia]].
  revert t w. apply idles_bind; [apply idles_bind; [apply idles_reading|intros us; apply idles_ret]|]. intros total. apply idles_transport.
  intros t. destruct (wire_load_sample _ _ _ _) as [load window]. reflexivity.
Qed.

(** One frame of the transport is one frame of the fleet. *)
Lemma sim_exchange frame eb settle t w : sim_calm t w ->
  let '(reported, (t', w')) := exchange_frame_with_settle frame eb settle (t, w) in
  sim_calm t' w' /\ foreign_activity t' = foreign_activity t /\
  exists o r, reported = Some r /\ plays frame eb (sm_fleet t, sim_time w) o (sm_fleet t', sim_time w') /\ reports eb o r.
Proof.
  intros Hc. cbn [exchange_frame_with_settle sim_transport]. unfold record_and_exchange, elapsed_ms, bind, transport, modify, reading, ret.
  pose proof (mc_reading w) as H1. destruct (since_born_us w) as [us1 w1]. cbn [fst snd] in H1.
  pose proof (mc_reading w1) as H2. destruct (since_born_us w1) as [us2 w2]. cbn [fst snd] in H2. cbn [fst snd].
  unfold exchange_fleet. set (now := Z.min (umax 64) (us2 / 1000)). set (t1 := note_own_forward _).
  change (sm_fleet t1) with (sm_fleet t). destruct (exchange_publishes (advance_to_ms (sm_fleet t) now) frame eb) as [Hpub Hnow].
  destruct (exchange (advance_to_ms (sm_fleet t) now) frame eb) as [o f'] eqn:Ex. cbn [fst snd] in *.
  destruct (merged_spec o (t1 <| sm_fleet := f' |>)) as [Hmf Hmo].
  destruct (merged_on_the_wire o (t1 <| sm_fleet := f' |>)) as [o' t2]. cbn [fst snd] in *.
  change (sm_fleet (t1 <| sm_fleet := f' |>)) with f' in Hmf.
  destruct (idles_charge FORWARD16_TICKS o' t2 w2) as [Hcf Hct]. destruct (charge_wire FORWARD16_TICKS o' (t2, w2)) as [u [t3 w3]].
  cbn [fst snd] in *.
  assert (sim_time w <= now <= sim_time w3) as Hrange.
  { unfold sim_time, now. assert (mc_us w / 1000 <= us2 / 1000) by (apply Z.div_le_mono; lia).
    assert (us2 / 1000 <= mc_us w3 / 1000) by (apply Z.div_le_mono; lia). lia. }
  split; [|split; [reflexivity|exists o, o'; split; [reflexivity|split]]].
  - unfold sim_calm in *. rewrite Hcf, Hmf, Hnow. cbn. lia.
  - exists now. cbn [fst snd]. split; [exact Hrange|]. rewrite Hcf, Hmf. exact Ex.
  - assert (o = OutNoAnswer \/ (exists v, o = OutAnswer v) \/ o = OutCorruptedInWindow) as Ho.
    { rewrite Hpub. destruct (fl_answers f') as [|v [|]]; cbn; eauto. }
    destruct Ho as [->|[[v ->]| ->]]; destruct eb; cbn; try (rewrite Hmo; split; discriminate); try exact Hmo.
    destruct Hmo as [->|[v ->]]; split; discriminate.
Qed.

#[export, refine] Instance sim_calm_transport : CalmTransport W T := {
  ct_fleet := sm_fleet; ct_time := sim_time; ct_calm := sim_calm }.
Proof.
  - intros t w H. exact H.
  - intros t w H. pose proof (sim_time_mono _ _ (mc_monotonic w)). unfold sim_calm in *. lia.
  - intros us t w H. pose proof (mc_sleep us w) as Hs. assert (mc_us w <= mc_us (sleep_us us w)) as Hle by lia.
    pose proof (sim_time_mono _ _ Hle). split; [unfold sim_calm in *; lia|]. split; [assumption|]. unfold sim_time.
    assert (mc_us w / 1000 + us / 1000 <= mc_us (sleep_us us w) / 1000) by dlia. lia.
  - exact sim_exchange.
  - intros t w _. exact Logic.I.
Defined.

End Calm.
End Transport.

(** A world whose clock stands still but for the sleeps, in which nobody holds or
    asks for the wire. *)
#[export] Instance quiet_world : World Z := {|
  monotonic_ms us := (us / 1000, us);
  sleep_us us now := now + Z.max 0 us;
  arrival_tickets now := ([0; 0], now);
  held_now now := (None, now) |}.
#[export] Instance quiet_clock : SimClock Z := {| since_born_us us := (us, us) |}.
#[export, refine] Instance quiet_monotonic : MonotonicClock (W := Z) := { mc_us := id }.
Proof. all: intros; cbn; lia. Defined.
(** A bus without input devices. *)
#[export] Instance no_input_devices : InputFleet unit := {| exchange24 _ _ i := (OutNoAnswer, i) |}.

End Sim.
