(* ===== verification/Commissioned.v ===== *)
(** * What commissioning promises

    The properties of the search, the detection and the commissioning pass on any
    calm bus, each applied to [DaliController] over the simulated transport. *)

From Stdlib Require Import String Sorted.
From S2P Require Import Prelude RulesBase Effects Gear GearCommand GearState Transport Banks GearModel Fleet.
From S2P Require Import FleetLaws Controller Majority Executor Discovery Commissioning CalmBus CommissionRun.
From S2P Require Import Overlap CalmController Sim.

Module Commissioned.
Import Gear GearCommand GearState Transport Banks GearModel Fleet FleetLaws Controller Majority Executor Discovery
  Commissioning CalmBus CommissionRun CalmController Sim.

(** ** Addresses *)

(** The short addresses of the gear that listen. *)
Definition listening (ks : list GearCore) : list Z := omap k_short (List.filter k_enabled ks).

(** A gear of the session, once it has its address. *)
Lemma listening_split l1 k l2 s : in_session k = true -> k_short k = None ->
  listening (l1 ++ k_withdraw (k_set_short (Some s) k) :: l2) ≡ₚ s :: listening (l1 ++ k :: l2).
Proof.
  intros Hk Hs. destruct (in_session_fields k Hk) as (E & _). unfold listening. rewrite !filter_app, !omap_app. cbn [List.filter].
  change (k_enabled (k_withdraw (k_set_short (Some s) k))) with (k_enabled k). rewrite E.
  change (omap ?f (?x :: ?l)) with (match f x with Some v => v :: omap f l | None => omap f l end).
  change (k_short (k_withdraw (k_set_short (Some s) k))) with (Some s). rewrite Hs. symmetry. apply Permutation_middle.
Qed.

Lemma listening_at s ks : existsb (at_short s) ks = false -> s ∉ listening ks.
Proof.
  intros He Hin. unfold listening in Hin. apply list_elem_of_omap in Hin as (k & Hk & Es).
  apply list_elem_of_In, filter_In in Hk as [Hk Een].
  assert (existsb (at_short s) ks = true); [|congruence]. apply existsb_exists. exists k. split; [exact Hk|].
  unfold at_short. rewrite Een, Es. apply Z.eqb_refl.
Qed.

Lemma assigned_addresses rs : forall used ks, session_ready used ks rs -> NoDup (listening ks) ->
  let ks' := map (assigned (combine rs (free_shorts used ks))) ks in
  NoDup (listening ks') /\ existsb unaddressed ks' = false.
Proof.
  induction rs as [|r rs IH]; intros used ks Hready Hnd; cbn zeta.
  - cbn [combine]. assert (map (assigned []) ks = ks) as ->.
    { rewrite <- (map_id ks) at 2. apply map_ext. intros k. unfold assigned. now destruct (in_session k). }
    split; [exact Hnd|]. destruct Hready as [_ _ _ _ Hc _ Hp _ _]. apply Permutation_nil_l in Hp.
    destruct (existsb unaddressed ks) eqn:E; [|reflexivity]. apply existsb_exists in E as (k & Hk & Hu).
    rewrite list.Forall_forall in Hc. specialize (Hc k). rewrite list_elem_of_In in Hc. specialize (Hc Hk Hu).
    assert (In k (List.filter in_session ks)) as Hf by now apply filter_In. symmetry in Hp. apply map_eq_nil in Hp. rewrite Hp in Hf. destruct Hf.
  - destruct (free_shorts used ks) as [|s free] eqn:Ef.
    { destruct Hready as [_ _ _ _ _ _ _ Hroom _]. rewrite Ef in Hroom. cbn in Hroom. lia. }
    destruct (session_step _ _ _ _ _ _ Hready Ef) as (Hready' & Ef' & _ & _ & Htab). cbn [combine]. rewrite <- Htab, <- Ef'.
    apply IH; [exact Hready'|]. destruct (session_split _ _ _ _ Hready) as (l1 & k & l2 & -> & Hk & _ & _ & Hsame & Hnew).
    rewrite programmed_split by apply Hsame. rewrite Hnew.
    destruct Hready as [_ _ _ Hf _ _ _ _ _]. destruct (Forall_at _ _ _ _ Hf Hk) as [Hshort _].
    rewrite (listening_split l1 k l2 s Hk Hshort). constructor; [|exact Hnd].
    apply listening_at. exact (free_shorts_head _ _ _ _ Ef).
Qed.

Lemma listening_closed ks : listening (map closed ks) = listening ks /\ existsb unaddressed (map closed ks) = existsb unaddressed ks.
Proof.
  unfold listening. induction ks as [|k ks [IH1 IH2]]; [split; reflexivity|]. cbn [map List.filter existsb].
  change (k_enabled (closed k)) with (k_enabled k). change (unaddressed (closed k)) with (unaddressed k). rewrite IH2. split; [|reflexivity].
  destruct (k_enabled k); [|exact IH1].
  change (omap ?f (?x :: ?l)) with (match f x with Some v => v :: omap f l | None => omap f l end).
  change (k_short (closed k)) with (k_short k). now rewrite IH1.
Qed.

Lemma distinct_after used ks rs :
  session_ready used ks rs -> NoDup (listening ks) ->
  NoDup (listening (commissioned used rs ks)) /\ existsb unaddressed (commissioned used rs ks) = false.
Proof.
  intros Hready Hnd. unfold commissioned. rewrite <- map_map.
  destruct (listening_closed (map (assigned (combine rs (free_shorts used ks))) ks)) as [-> ->].
  now apply assigned_addresses.
Qed.

(** ** An example bus *)

(** An addressed gear, an unaddressed one and one of device type 8 without an
    address, behind the simulated transport. *)
Definition example_specs : list GearSpec :=
  [ spec_dt6 (Some 0) 0x111111; spec_dt6 None 0x222222; spec_dt8 None 0x333333 (true, false, false) (153, 370) ].
Definition example_controller : DaliController Z (SimDaliTransport unit) :=
  controller_new (sim_new example_specs tt) 0 (retry_new 3 10 5).
Definition example_fleet : GearFleet := now_fleet example_controller.
Definition example_opened : list GearCore := opened (cores example_fleet) (fl_rng example_fleet).

Lemma example_calm : calm example_controller.
Proof. split; [apply Z.leb_le; reflexivity|]. repeat split; apply Z.leb_le; reflexivity. Defined.
Lemma example_settled : settled example_fleet.
Proof. unfold settled. vm_compute. repeat constructor. Defined.
Lemma example_answers : Forall k_answers (cores example_fleet).
Proof. vm_compute. repeat constructor. Defined.
Lemma example_search : in_u 24 (search_of example_fleet).
Proof. vm_compute. split; [discriminate|reflexivity]. Defined.
Lemma example_reserved : none_reserved example_fleet.
Proof.
  intros s Hs. apply elem_of_all_shorts_1 in Hs. revert s Hs. apply list.Forall_forall. vm_compute. repeat constructor.
Defined.
Lemma randoms_checked ks :
  forallb (fun k => (0 <=? k_random k) && (k_random k <=? MAX_RANDOM_ADDRESS)) ks = true -> randoms_in_range ks.
Proof.
  intros H. apply list.Forall_forall. intros k Hk _. rewrite forallb_forall in H. apply list_elem_of_In in Hk.
  specialize (H k Hk). lia.
Defined.
Lemma example_ready : session_ready [0] example_opened [10174064; 16468634].
Proof.
  split; [|apply randoms_checked; reflexivity|..]; vm_compute.
  - repeat constructor.
  - repeat constructor.
  - repeat constructor; try discriminate; intros Hin; inversion Hin.
  - repeat constructor; try discriminate; intros Hin; inversion Hin.
  - repeat constructor.
  - apply Permutation_refl.
  - lia.
  - repeat constructor; discriminate.
Defined.

(** ** The properties *)

Section OnAnyCalmBus.
Context {C : Type} {HC : DaliApplicationController C} {HB : CalmBus C}.

(** The facts of a triple about one run. *)
Lemma does_run {A} (m : eff C A) Q (c : C) : does m Q (now_fleet c) -> calm c -> settled (now_fleet c) ->
  calm (snd (m c)) /\ Q (fst (m c)) (now_fleet (snd (m c))).
Proof. intros H Hc Hs. destruct (H c Hc eq_refl Hs) as (Hc' & _ & HQ). now split. Qed.

(** What a pass leaves behind. *)
Definition pass_done (used rs : list Z) (f : GearFleet) :
    option (SemanticResult unit) * (list Z * list DiscoveredDevice) -> GearFleet -> Prop :=
  let ks := opened (cores f) (fl_rng f) in
  let shorts := map snd (combine rs (free_shorts used ks)) in
  fun r f' => fst r = Some (Ok tt) /\ fst (snd r) = used ++ shorts /\ map dd_short_address (snd (snd r)) = shorts /\
              cores f' = commissioned used rs ks.

(** The bus a pass may start on. *)
Record pass_ready (c : C) (used rs : list Z) : Prop := {
  pr_calm : calm c;
  pr_settled : settled (now_fleet c);
  pr_session : session_ready used (opened (cores (now_fleet c)) (fl_rng (now_fleet c))) rs;
  pr_search : in_u 24 (search_of (now_fleet c));
  pr_reserved : none_reserved (now_fleet c) }.

Lemma pass_runs (c : C) fuel retries used rs :
  pass_ready c used rs -> 0 <= retries -> (length rs < fuel)%nat ->
  let run := commission_unaddressed_once fuel retries used c in
  calm (snd run) /\ pass_done used rs (now_fleet c) (fst run) (now_fleet (snd run)).
Proof.
  intros [Hc Hs Hready Hu Hres] Hret Hfuel. apply does_run; [|exact Hc|exact Hs].
  apply (does_commission_pass fuel retries used rs); try assumption. intros f' found shorts E Hf. unfold pass_done. cbn. auto.
Qed.





End OnAnyCalmBus.



Lemma example_pass : pass_ready example_controller [0] [10174064; 16468634].
Proof. split; [exact example_calm|exact example_settled|exact example_ready|exact example_search|exact example_reserved]. Defined.



(** C6: the controller delivers a command whole. [DaliController] without a
    lease or a hold, over the simulated wire, whatever its state, settling times
    and jitter: the fleet hears exactly the command's frames, in order (the one
    that enables a device type, the command, its repetition), each after the one
    before, and the response is what the fleet answered; overlapping answers are
    never taken for silence. *)
Theorem controller_delivers {I W : Type} `{InputFleet I} `{SimClock W} `{!World W} `{!MonotonicClock (W := W)} cmd
    (c : DaliController W (SimDaliTransport I)) :
  dc_calm c ->
  let '(r, c') := send_command_observed cmd c in
  dc_calm c' /\ exists response contended, r = Ok (response, contended) /\
    delivers cmd (fleet_of c, time_of c) response (fleet_of c', time_of c').
Proof.
  intros Hc. pose proof (calm_send cmd c Hc) as H3. unfold wp in H3. destruct (send_command_observed cmd c) as [r c'].
  cbn [fst snd] in H3. destruct H3 as [Hc' H3]. split; [exact Hc'|]. destruct r as [[response contended]|e]; [|destruct H3].
  now exists response, contended.
Qed.

Lemma controller_delivers_witness :
  let cmd := Standard (Short 0) QueryControlGearPresent in
  let '(r, c') := send_command_observed cmd example_controller in
  dc_calm c' /\ exists response contended, r = Ok (response, contended) /\
    delivers cmd (fleet_of example_controller, time_of example_controller) response (fleet_of c', time_of c').
Proof. apply (controller_delivers (Standard (Short 0) QueryControlGearPresent) example_controller example_calm). Defined.

End Commissioned.
