(* ===== verification/MemoryReturned.v ===== *)
(** * What a memory read returns

    The read of [MemoryCalm] on [DaliController] over a calm transport: the
    memory of the gear at the address, whole. *)

From Stdlib Require Import String.
From S2P Require Import Prelude RulesBase Effects Gear GearCommand GearState Transport Banks GearModel Fleet.
From S2P Require Import FleetLaws Controller Majority Executor MemoryBank MemoryRead CalmBus MemoryLaws MemoryCalm.
From S2P Require Import CommissionRun CalmController Sim Commissioned.

Module MemoryReturned.
Import Gear GearCommand GearState Transport Banks GearModel Fleet FleetLaws Controller Majority Executor MemoryBank MemoryRead
  CalmBus MemoryLaws MemoryCalm CommissionRun CalmController Sim Commissioned.


(** ** On the example bus *)

Definition example_gear : GearUnit := gear_new (spec_dt6 (Some 0) 0x111111).

(** Bank 0 of a gear without the extension of part 103 ends at 0x1A. *)
Lemma example_readable : readable example_gear 0 0 0x1D 0x1B.
Proof.
  split; unfold MEMORY_RESERVED_OFFSET, ALWAYS_ANSWERED_OFFSET; try (unfold umax; lia).
  - intros offset Hr. assert (Forall (fun o => memory_location example_gear 0 o = None -> o = 1) (seqZ 0 0x1B)) as H.
    { vm_compute. repeat (constructor; [first [discriminate | reflexivity]|]). constructor. }
    rewrite list.Forall_forall in H. apply H, elem_of_seqZ. lia.
  - intros _. vm_compute. repeat split; discriminate.
Defined.


End MemoryReturned.
